(* ===== verification/_CoqProject ===== *)
-Q . S2P
Prelude.v
Heap.v
Time.v
Pmm.v
Machine.v
VfsTypes.v
CLib.v
Printf.v
Vmm.v
Vfs.v
Keyboard.v
Vga.v
Ports.v
Interrupts.v
Ata.v
Task.v
Syscall.v
LibPure.v
SyscallFd.v
SyscallFiles.v
ShellParser.v
ShellLine.v
VfsPaths.v
VfsResolve.v
Platform.v
AtaMachine.v
KernelState.v
Elf.v
Fat16.v
Fat16Table.v
Fat16Files.v
Fat16Demo.v
Ext2Layout.v
Ext2Block.v
Ext2Super.v
Ext2Inode.v
Ext2Alloc.v
Ext2Inodes.v
Ext2File.v
Ext2Dir.v
Ext2Dents.v
Ext2Write.v
Ext2Files.v
Ext2Store.v
Ext2Dirs.v
Ext2Contents.v
Ext2Demo.v
VfsExt2.v
Boot.v
SyscallExt2.v
Editor.v
EditorText.v
EditorLogic.v
EditorRefine.v
EditorKeys.v
EditorSession.v
EditorFile.v
EditorStore.v
EditorExt2.v
ShellState.v
ShellBuiltins.v
ShellExec.v
VfsMounts.v
ShellOk.v
ShellText.v
ShellProps.v
ShellExt2.v
