(* ===== verification/Prelude.v ===== *)
(** * PureUNIX verification library

    A development beside PureUNIX, a small i386 kernel with a VFS, an EXT2 and
    a FAT16 driver, a shell and a C library of its own.  Its parts are
    translated into Rocq functions and the properties below are proved of the
    translations.

    ** How the code is modelled

    Machine integers are [Z] with the wrap-around of C written out ([u32],
    [s32] and so on below).  Buffers are lists of bytes written in place
    ([put], [sub]).  Code with global state is a function of type [state S A]
    (the state monad below); its specifications have the form [run m s Q].
    NULL, a failed lookup and (where a file says so) undefined behaviour are
    [None].  C loops that are not structurally recursive carry a bound, and
    the theorems show that the bound is enough or that the loop ends.  Code
    outside the kernel, and the hardware, are class parameters.

    ** Files

    - Prelude.v: integers, the state monad and its [run] rules, buffers,
      little-endian fields, bit maps; the hint databases [machine] and [len].
    - Heap.v (kernel/heap.c): the block list of [kmalloc]/[kfree]/[krealloc].
      Live allocations never overlap ([heap_live_disjoint]) and the heap
      becomes one free block when everything is freed ([heap_no_leak]).
    - Time.v (kernel/time.c, the dates of shell/builtins.c): the CMOS clock, the
      calendar and the text of a date, proved inverse to each other.
    - Pmm.v (kernel/pmm.c): the frame bitmap from boot on ([pmm_alloc_safe]).
    - Vmm.v (kernel/vmm.c): page directory and tables as words of memory; what
      [vmm_init] and [vmm_map_page] do to the translation of every address.
    - Elf.v (kernel/elf.c): the program loader, against the memory [MemoryOk].
    - Ports.v (include/pureunix/io.h, arch/i386/pic.c): the port instructions
      over a bus, and the two interrupt controllers as laws [PicOk] on it.
      Interrupts.v (gdt.c, idt.c, pit.c, arch.c, panic.c): tables, timer and
      the way of an interrupt from its line to its handler.
    - Ata.v (drivers/ata.c): the disk driver against drives that keep the laws
      [AtaOk] of the PIO protocol.  AtaMachine.v: over such drives the driver is
      the disk of [MachineOk], the class the file systems are proved against.
    - Machine.v, Platform.v: the class of operations the file systems use
      (disks, clock, heap, credentials) with its laws [MachineOk], and a
      concrete machine that satisfies them, on which the witnesses run.
    - VfsTypes.v, Vfs.v (fs/vfs.c): types and the layer itself over a record
      of driver operations.  VfsPaths.v: normalisation and dispatch.
      VfsResolve.v: resolution is sound and complete over the tree a driver
      shows, and every call is guarded by the permission checks.
    - CLib.v (libc/string.c, ctype.c, stdlib.c) and Printf.v (libc/printf.c):
      the C library on a byte memory.
    - Task.v (kernel/task.c): the ring of tasks; invariant under every step,
      fairness ([ready_task_runs]), ended tasks stay ended.
    - Keyboard.v (drivers/keyboard.c): scan codes and the ring buffer, a queue
      under every interleaving of interrupts and readers.
    - Vga.v (drivers/vga.c, drivers/serial.c): the terminal; it shows what is
      written and never leaves the screen memory.
    - LibPure.v (user/libpure.c): the system call stubs of the user programs and
      their text functions.
    - Syscall.v (arch/i386/syscall.c): every system call over the class [Kernel]
      (scheduler, heap, terminal, keys, program memory).  SyscallFd.v: an open
      descriptor is a byte string with a position.  SyscallFiles.v: the
      contract [file_store] of a file system and the round trip of a program's
      data against it.  KernelState.v: a concrete kernel, machine and [Kernel]
      at once.  SyscallExt2.v: EXT2 keeps the contract, so the round trip goes
      from the system call to the sectors ([ext2_save_load]).
    - ShellParser.v, ShellLine.v (shell/parser.c, shell/line.c): printing and
      parsing of pipelines, and the line editor as a refinement of a text
      with a cursor.
    - ShellState.v, ShellBuiltins.v, ShellExec.v (shell/sh.c, shell/builtins.c,
      the terminal of shell/line.c): the shell's memory, every command, and the
      execution of lines, with [shell_reach] for the states between two lines.
      VfsMounts.v: no call of the VFS, the loader or the editor changes the
      mount table.  ShellOk.v: the invariant of the shell's memory.
      ShellText.v: commands on texts and pipelines of them, into a file that
      keeps the contract [edit_store].  ShellProps.v: variables as a finite map,
      the mode column, [date].  ShellExt2.v: the shell over EXT2.
    - Editor.v (editor/editor.c): the text editor on its byte buffers, with the
      use of null pointers and of bytes outside a buffer recorded in the state.
      EditorText.v: the same editor on lists of lines.  EditorLogic.v: a logic
      for running until the heap is out, and the relation between the two;
      EditorRefine.v, EditorKeys.v, EditorSession.v: every operation, key and
      session refines the lists.  EditorFile.v: what each key leaves alone;
      EditorStore.v: the contract [edit_store] of the file system, and the text
      agrees with the file while the mark of a change is off; EditorExt2.v:
      EXT2 keeps the contract.
    - Fat16.v (fs/fat16.c, the whole driver); Fat16Table.v: geometry, table
      and chains; Fat16Files.v: writing and reading files; Fat16Demo.v: a
      concrete volume, names, termination.
    - Ext2Layout.v (ext2.h), Ext2Block.v and Ext2Super.v (block.c, super.c,
      mount.c), Ext2Inode.v and Ext2Inodes.v (inode.c), Ext2Alloc.v (alloc.c),
      Ext2File.v (file.c), Ext2Dir.v and Ext2Dents.v (dir.c), Ext2Write.v
      (write.c): the EXT2 driver with the theorems of each file.  Ext2Store.v,
      Ext2Files.v, Ext2Dirs.v and Ext2Contents.v: the abstract volume (blocks,
      files as byte strings, directories as finite maps) and the theorems that
      the driver implements it.  Ext2Demo.v: a concrete volume, the witnesses
      and the defects.  VfsExt2.v: EXT2 below the VFS.  Boot.v (kernel/main.c):
      both drivers over one machine, and the mounts of [kernel_main].

    ** Theorem groups

    Storage: the block cache is transparent, allocation and release keep the
    volume consistent, directory operations refine finite maps, what is
    written is read back, through the driver, through the VFS and through the
    system calls, and on FAT16; the disk below is the ATA driver's, down to the
    ports; after boot every path has its driver.  Security: path resolution and
    permission checks.  Memory: heap, frames, page tables, the loading of
    programs, string functions and formatted output.  Processes: the scheduler,
    descriptors.  Devices: interrupts, keyboard buffer and terminal.  Programs:
    the shell from the typed line over parser, pipeline and commands to the file,
    with an invariant of its memory in every reachable state; the text editor
    from its keys to the file.  Some theorems show defects of the code on
    concrete inputs; they say so.

    ** Bounds

    A path walk has one turn per byte of the path and at most 40 symbolic
    links; a FAT chain one step per cluster; a turn of the task ring one step
    per task; [number_loop] 32 digits; the token loops one turn per byte.
    The loops of the ATA driver have the 100000 turns of the source, and a drive
    that keeps [AtaOk] answers within them.  [shell_reach] has no bound on the
    lines typed; a line that is not finished waits for more keys ([None]).
    Where the C loop can go on for ever the model says so: [ft_hung] in Fat16.v,
    [None] for a memory map that does not end in Pmm.v.

    ** Not modelled

    Assembly: the entry stubs, the context switch and the loads of processor
    registers, except as addresses and as the fields they set; interrupts that
    arrive in the middle of a driver, except for the keyboard's ring and in that
    the handler of the disk only reads a status; the calls of [kernel_main] that
    initialise one component after the other; the machine code of the programs,
    an argument of the loader; the polling of the serial line and of the
    keyboard controller before a reset; the user programs, which are test
    drivers, and the image tools, which run on the host. *)

From stdpp Require Export base numbers list gmap.
From Stdlib Require Export ZArith Lia.
From Stdlib Require Import Btauto.

#[global] Open Scope Z_scope.

(** ** Machine integers

    A w-bit unsigned value is a [Z] in [0, 2^w); the C operations that can
    leave that range are followed by the wrap-around written out. *)

Definition wrap (w x : Z) : Z := x mod 2 ^ w.
Definition u8 (x : Z) : Z := x mod 2 ^ 8.
Definition u16 (x : Z) : Z := x mod 2 ^ 16.
Definition u32 (x : Z) : Z := x mod 2 ^ 32.
Definition u64 (x : Z) : Z := x mod 2 ^ 64.

(** Two's complement reading of a 32-bit (8-bit) pattern. *)
Definition s32 (x : Z) : Z := if u32 x <? 2 ^ 31 then u32 x else u32 x - 2 ^ 32.
Definition s8 (x : Z) : Z := if u8 x <? 2 ^ 7 then u8 x else u8 x - 2 ^ 8.

Definition is_u8 (x : Z) : Prop := 0 <= x < 2 ^ 8.
Definition is_u16 (x : Z) : Prop := 0 <= x < 2 ^ 16.
Definition is_u32 (x : Z) : Prop := 0 <= x < 2 ^ 32.

Create HintDb machine.
Create Rewrite HintDb machine.
Create Rewrite HintDb len.

Lemma u8_small x : is_u8 x -> u8 x = x.
Proof. apply Z.mod_small. Qed.
Lemma u16_small x : is_u16 x -> u16 x = x.
Proof. apply Z.mod_small. Qed.
Lemma u32_small x : is_u32 x -> u32 x = x.
Proof. apply Z.mod_small. Qed.
Lemma u8_range x : is_u8 (u8 x).
Proof. apply Z.mod_pos_bound; lia. Qed.
Lemma u16_range x : is_u16 (u16 x).
Proof. apply Z.mod_pos_bound; lia. Qed.
Lemma u32_range x : is_u32 (u32 x).
Proof. apply Z.mod_pos_bound; lia. Qed.
Lemma u32_idemp x : u32 (u32 x) = u32 x.
Proof. apply u32_small, u32_range. Qed.

#[export] Hint Resolve u8_range u16_range u32_range : machine.
#[export] Hint Rewrite u32_idemp : machine.

(** [simp_wrap] removes the wrap-arounds whose operand is provably in range. *)
Ltac simp_wrap :=
  repeat match goal with
  | |- context [u32 ?x] => rewrite (u32_small x) by (unfold is_u32 in *; lia)
  | |- context [u16 ?x] => rewrite (u16_small x) by (unfold is_u16 in *; lia)
  | |- context [u8 ?x] => rewrite (u8_small x) by (unfold is_u8 in *; lia)
  | H : context [u32 ?x] |- _ => rewrite (u32_small x) in H by (unfold is_u32 in *; lia)
  | H : context [u16 ?x] |- _ => rewrite (u16_small x) in H by (unfold is_u16 in *; lia)
  | H : context [u8 ?x] |- _ => rewrite (u8_small x) in H by (unfold is_u8 in *; lia)
  end.

(** ** State-passing code

    A C function that touches global state is a function [S -> A * S]; the
    value is the C return value (with the out-parameters), the state is what
    the call leaves behind.  stdpp's monad notations apply. *)

Definition state (S A : Type) : Type := S -> A * S.

#[global] Instance state_ret {S} : MRet (state S) := fun A a s => (a, s).
#[global] Instance state_bind {S} : MBind (state S) :=
  fun A B f m s => let '(a, s') := m s in f a s'.

Definition get {S} : state S S := fun s => (s, s).
Definition gets {S A} (f : S -> A) : state S A := fun s => (f s, s).
Definition modify {S} (f : S -> S) : state S unit := fun s => (tt, f s).

Arguments state_ret {S A} a s /.
Arguments state_bind {S A B} f m s /.
Arguments get {S} s /.
Arguments gets {S A} f s /.
Arguments modify {S} f s /.

Lemma bind_unfold {S A B} (m : state S A) (f : A -> state S B) s :
  mbind f m s = f (m s).1 (m s).2.
Proof. unfold mbind, state_bind. by destruct (m s). Qed.

(** [run m s Q]: running [m] from [s] ends in a result and a state that
    satisfy [Q].  Specifications of stateful code are stated with [run] and
    composed with the rules below. *)
Definition run {S A} (m : state S A) (s : S) (Q : A -> S -> Prop) : Prop := Q (m s).1 (m s).2.

Section Run.
Context {S A B : Type}.
Implicit Types (m : state S A) (f : A -> state S B) (s : S).

Lemma run_mono m s (P Q : A -> S -> Prop) :
  run m s P -> (forall a s', P a s' -> Q a s') -> run m s Q.
Proof. unfold run. auto. Qed.

Lemma run_bind m f s Q : run m s (fun a s' => run (f a) s' Q) -> run (mbind f m) s Q.
Proof. unfold run, mbind, state_bind. by destruct (m s). Qed.

Lemma run_ret (a : A) s Q : Q a s -> run (mret a) s Q.
Proof. done. Qed.

Lemma run_get s Q : Q s s -> run get s Q.
Proof. done. Qed.

Lemma run_gets (g : S -> A) s Q : Q (g s) s -> run (gets g) s Q.
Proof. done. Qed.

Lemma run_modify (g : S -> S) s Q : Q tt (g s) -> run (modify g) s Q.
Proof. done. Qed.

Lemma run_elim m s a s' Q : run m s Q -> m s = (a, s') -> Q a s'.
Proof. unfold run. intros H E. by rewrite E in H. Qed.

Lemma run_intro m s Q : (forall a s', m s = (a, s') -> Q a s') -> run m s Q.
Proof. unfold run. destruct (m s) as [a s'] eqn:E. intros H. by apply H. Qed.
End Run.

(** One step of a sequence: the specification [H] of the first call. *)
Tactic Notation "run_step" uconstr(H) "as" simple_intropattern(p) :=
  eapply run_bind; eapply run_mono; [eapply H | simpl; intros ? ? p].
Tactic Notation "run_last" uconstr(H) "as" simple_intropattern(p) :=
  eapply run_mono; [eapply H | simpl; intros ? ? p].

(** ** Byte buffers

    A buffer is a list of bytes, addressed by [Z] offsets as the C code
    addresses it.  [splice] overwrites a range in place and keeps the length
    (the C code writes inside its buffers). *)

Definition byte_at (b : list Z) (i : Z) : Z := default 0 (b !! Z.to_nat i).

Definition sub (b : list Z) (off n : Z) : list Z :=
  take (Z.to_nat n) (drop (Z.to_nat off) b).

Definition splice {A} (i : nat) (k l : list A) : list A :=
  take i l ++ take (length l - i) k ++ drop (i + length k) l.

Definition put (b : list Z) (off : Z) (bytes : list Z) : list Z :=
  splice (Z.to_nat off) bytes b.

Definition zeros (n : Z) : list Z := replicate (Z.to_nat n) 0.

Definition bytes_ok (b : list Z) : Prop := Forall is_u8 b.

#[global] Instance is_u8_dec x : Decision (is_u8 x).
Proof. unfold is_u8; apply _. Defined.
#[global] Instance bytes_ok_dec b : Decision (bytes_ok b).
Proof. unfold bytes_ok; apply _. Defined.

#[export] Hint Rewrite @length_app @length_take @length_drop @length_replicate
  @length_insert @length_fmap @length_seqZ : len.
Ltac len := autorewrite with len in *; try lia.

Section Buffers.
Context {A : Type}.
Implicit Types (k l : list A) (i j : nat).

Lemma length_splice i k l : length (splice i k l) = length l.
Proof. unfold splice. len. Qed.

Lemma splice_lookup_in i k l j :
  (i <= j < i + length k)%nat -> (j < length l)%nat ->
  splice i k l !! j = k !! (j - i)%nat.
Proof.
  intros Hj Hl. unfold splice.
  rewrite lookup_app_r by len. len.
  rewrite lookup_app_l by len. rewrite lookup_take_lt by lia.
  f_equal; lia.
Qed.

Lemma splice_lookup_out i k l j :
  (j < i \/ i + length k <= j)%nat -> splice i k l !! j = l !! j.
Proof.
  intros Hj. destruct (decide (j < length l)%nat) as [Hl|Hl].
  2: { rewrite !lookup_ge_None_2; [done | lia | rewrite length_splice; lia]. }
  unfold splice. destruct Hj as [Hj|Hj].
  - rewrite lookup_app_l by len. by apply lookup_take_lt.
  - rewrite lookup_app_r by len. len. rewrite lookup_app_r by len. len.
    rewrite lookup_drop. f_equal; lia.
Qed.

Lemma splice_lookup i k l j :
  splice i k l !! j =
    if decide (i <= j < i + length k /\ j < length l)%nat
    then k !! (j - i)%nat else l !! j.
Proof.
  case_decide as H.
  - apply splice_lookup_in; lia.
  - destruct (decide (j < length l)%nat).
    + apply splice_lookup_out; lia.
    + rewrite !lookup_ge_None_2; [done | lia | rewrite length_splice; lia].
Qed.

(** Reading back the range just written. *)
Lemma splice_same i k l n :
  n = length k -> (i + length k <= length l)%nat ->
  take n (drop i (splice i k l)) = k.
Proof.
  intros -> Hl. apply list_eq. intros j.
  destruct (decide (j < length k)%nat).
  - rewrite lookup_take_lt by lia. rewrite lookup_drop, splice_lookup_in by lia.
    f_equal; lia.
  - rewrite !lookup_ge_None_2; [done | lia |].
    rewrite length_take, length_drop, length_splice; lia.
Qed.

(** A range disjoint from the written one is untouched. *)
Lemma splice_disjoint i k l j n :
  (j + n <= i \/ i + length k <= j)%nat ->
  take n (drop j (splice i k l)) = take n (drop j l).
Proof.
  intros Hd. apply list_eq. intros p.
  destruct (decide (p < n)%nat).
  - rewrite !lookup_take_lt, !lookup_drop by lia. apply splice_lookup_out. lia.
  - rewrite !lookup_ge_None_2; [done | |]; rewrite length_take; lia.
Qed.

(** A range that contains the written one sees it at its relative offset. *)
Lemma splice_inside i k l j n :
  (j <= i)%nat -> (i + length k <= j + n)%nat -> (j + n <= length l)%nat ->
  take n (drop j (splice i k l)) = splice (i - j) k (take n (drop j l)).
Proof.
  intros H1 H2 H3. apply list_eq. intros p.
  destruct (decide (p < n)%nat).
  - rewrite lookup_take_lt by lia. rewrite lookup_drop, !splice_lookup.
    rewrite length_take, length_drop.
    repeat case_decide; try lia; try (f_equal; lia).
    rewrite lookup_take_lt by lia. by rewrite lookup_drop.
  - rewrite !lookup_ge_None_2; [done | |];
      rewrite ?length_splice, length_take, ?length_drop, ?length_splice; lia.
Qed.

Lemma splice_all k l : length k = length l -> splice 0 k l = k.
Proof.
  intros H. unfold splice. rewrite take_0, drop_ge, app_nil_r by lia.
  rewrite take_ge by lia. done.
Qed.

Lemma splice_Forall (P : A -> Prop) i k l :
  Forall P k -> Forall P l -> Forall P (splice i k l).
Proof.
  intros. unfold splice.
  repeat apply Forall_app_2; auto using Forall_take, Forall_drop.
Qed.
End Buffers.

Lemma alter_as_insert {A} (f : A -> A) (l : list A) i x :
  l !! i = Some x -> alter f i l = <[i := f x]> l.
Proof.
  intros Hi. apply list_eq. intros j. destruct (decide (i = j)) as [<-|Hne].
  - rewrite list_lookup_alter_eq, Hi, list_lookup_insert_eq; [done|]. by eapply lookup_lt_Some.
  - by rewrite list_lookup_alter_ne, list_lookup_insert_ne.
Qed.

#[export] Hint Rewrite @length_splice : len.
#[export] Hint Resolve splice_Forall Forall_take Forall_drop : machine.

Section BytesZ.
Implicit Types (b : list Z).

Lemma length_put b off k : length (put b off k) = length b.
Proof. apply length_splice. Qed.

Lemma length_sub b off n :
  0 <= off -> 0 <= n -> off + n <= Z.of_nat (length b) ->
  length (sub b off n) = Z.to_nat n.
Proof. intros. unfold sub. len. Qed.

Lemma sub_put_same b off k n :
  n = Z.of_nat (length k) -> 0 <= off -> off + n <= Z.of_nat (length b) ->
  sub (put b off k) off n = k.
Proof. intros. apply splice_same; lia. Qed.

Lemma sub_put_disjoint b off k off' n :
  0 <= off -> 0 <= off' -> 0 <= n ->
  (off' + n <= off \/ off + Z.of_nat (length k) <= off') ->
  sub (put b off k) off' n = sub b off' n.
Proof. intros. apply splice_disjoint; lia. Qed.

Lemma byte_at_put b off k i :
  0 <= off -> 0 <= i ->
  byte_at (put b off k) i =
    if decide (off <= i < off + Z.of_nat (length k) /\ i < Z.of_nat (length b))
    then byte_at k (i - off) else byte_at b i.
Proof.
  intros. unfold byte_at, put. rewrite splice_lookup.
  repeat case_decide; try lia; try done; do 2 f_equal; lia.
Qed.

Lemma byte_at_ok b i : bytes_ok b -> is_u8 (byte_at b i).
Proof.
  intros H. unfold byte_at. destruct (b !! Z.to_nat i) eqn:E; simpl.
  - eapply Forall_lookup_1; eauto.
  - unfold is_u8; lia.
Qed.

Lemma byte_at_sub b off n i :
  0 <= off -> 0 <= i < n -> byte_at (sub b off n) i = byte_at b (off + i).
Proof.
  intros. unfold byte_at, sub. rewrite lookup_take_lt, lookup_drop by lia.
  do 2 f_equal. lia.
Qed.

Lemma put_ok b off k : bytes_ok k -> bytes_ok b -> bytes_ok (put b off k).
Proof. intros. by apply splice_Forall. Qed.

Lemma sub_ok b off n : bytes_ok b -> bytes_ok (sub b off n).
Proof. intros. by apply Forall_take, Forall_drop. Qed.

Lemma zeros_ok n : bytes_ok (zeros n).
Proof. apply Forall_replicate. unfold is_u8; lia. Qed.

Lemma length_zeros n : length (zeros n) = Z.to_nat n.
Proof. apply length_replicate. Qed.
End BytesZ.

#[export] Hint Rewrite length_put length_zeros : len.
#[export] Hint Resolve put_ok sub_ok zeros_ok byte_at_ok : machine.

(** ** Little-endian fields

    [memcpy] between an integer and a byte buffer on i386. *)

Fixpoint le_bytes (n : nat) (v : Z) : list Z :=
  match n with
  | O => []
  | S n => v mod 256 :: le_bytes n (v / 256)
  end.

Fixpoint le_val (l : list Z) : Z :=
  match l with
  | [] => 0
  | b :: t => b + 256 * le_val t
  end.

Definition get_le (n : nat) (b : list Z) (off : Z) : Z := le_val (sub b off (Z.of_nat n)).
Definition put_le (n : nat) (b : list Z) (off v : Z) : list Z := put b off (le_bytes n v).

Section LittleEndian.
Implicit Types (n : nat) (v : Z).

Lemma length_le_bytes n v : length (le_bytes n v) = n.
Proof. revert v. induction n; intros; simpl; auto. Qed.

Lemma le_bytes_ok n v : bytes_ok (le_bytes n v).
Proof.
  revert v. induction n as [|n IH]; intros v; simpl; constructor.
  - apply Z.mod_pos_bound. lia.
  - apply IH.
Qed.

Lemma le_val_le_bytes n v : le_val (le_bytes n v) = v mod 256 ^ Z.of_nat n.
Proof.
  revert v. induction n as [|n IH]; intros v; simpl le_bytes; simpl le_val.
  - by rewrite Z.mod_1_r.
  - rewrite IH, Nat2Z.inj_succ, Z.pow_succ_r by lia.
    rewrite Z.rem_mul_r by (try apply Z.pow_nonzero; lia). lia.
Qed.

Lemma le_val_bound l : bytes_ok l -> 0 <= le_val l < 256 ^ Z.of_nat (length l).
Proof.
  induction 1 as [|b l Hb Hl IH]; simpl le_val; [simpl; lia|].
  simpl length. rewrite Nat2Z.inj_succ, Z.pow_succ_r by lia.
  unfold is_u8 in Hb. lia.
Qed.

Lemma le_bytes_le_val l : bytes_ok l -> le_bytes (length l) (le_val l) = l.
Proof.
  induction 1 as [|b l Hb Hl IH]; simpl; [done|]. unfold is_u8 in Hb.
  f_equal.
  - rewrite (Z.mul_comm 256), Z.mod_add by lia. apply Z.mod_small. lia.
  - rewrite (Z.mul_comm 256), Z.div_add, Z.div_small by lia. done.
Qed.

Lemma le_val_zeros n : le_val (replicate n 0) = 0.
Proof. induction n; simpl; lia. Qed.

Lemma get_put_le n b off v :
  0 <= v < 256 ^ Z.of_nat n -> 0 <= off -> off + Z.of_nat n <= Z.of_nat (length b) ->
  get_le n (put_le n b off v) off = v.
Proof.
  intros. unfold get_le, put_le.
  rewrite sub_put_same by (rewrite ?length_le_bytes; lia).
  rewrite le_val_le_bytes. by apply Z.mod_small.
Qed.

Lemma get_put_disjoint n b off k off' :
  0 <= off -> 0 <= off' ->
  (off' + Z.of_nat n <= off \/ off + Z.of_nat (length k) <= off') ->
  get_le n (put b off k) off' = get_le n b off'.
Proof. intros. unfold get_le. by rewrite sub_put_disjoint by lia. Qed.

Lemma get_put_le_ne n m b off v off' :
  0 <= off -> 0 <= off' ->
  (off' + Z.of_nat n <= off \/ off + Z.of_nat m <= off') ->
  get_le n (put_le m b off v) off' = get_le n b off'.
Proof. intros. apply get_put_disjoint; rewrite ?length_le_bytes; lia. Qed.

Lemma get_le_bound n b off : bytes_ok b -> 0 <= get_le n b off < 256 ^ Z.of_nat n.
Proof.
  intros Hb. unfold get_le.
  pose proof (le_val_bound (sub b off (Z.of_nat n)) (sub_ok _ _ _ Hb)) as [H1 H2].
  split; [lia|]. eapply Z.lt_le_trans; [exact H2|].
  apply Z.pow_le_mono_r; [lia|]. unfold sub. rewrite length_take. lia.
Qed.

Lemma put_le_ok n b off v : bytes_ok b -> bytes_ok (put_le n b off v).
Proof. intros. apply put_ok; [apply le_bytes_ok | done]. Qed.

Lemma length_put_le n b off v : length (put_le n b off v) = length b.
Proof. apply length_put. Qed.
End LittleEndian.

#[export] Hint Rewrite length_le_bytes length_put_le : len.
#[export] Hint Resolve le_bytes_ok put_le_ok : machine.

(** ** Single bits of a byte

    [byte & (1u << k)], [byte | (1u << k)] and [byte & ~(1u << k)]. *)

Definition bit_mask (k : Z) : Z := Z.shiftl 1 k.
Definition bit_test (v k : Z) : bool := negb (Z.land v (bit_mask k) =? 0).
Definition bit_set (v k : Z) : Z := Z.lor v (bit_mask k).
Definition bit_clear (v k : Z) : Z := Z.land v (Z.lnot (bit_mask k)).

Section Bits.
Implicit Types (v k j : Z).

Lemma bit_mask_spec k j : 0 <= k -> 0 <= j -> Z.testbit (bit_mask k) j = bool_decide (k = j).
Proof.
  intros Hk Hj. unfold bit_mask. rewrite Z.shiftl_spec by done.
  case_bool_decide as E.
  - subst. rewrite Z.sub_diag. done.
  - destruct (Z.lt_ge_cases j k).
    + apply Z.testbit_neg_r. lia.
    + rewrite Z.bits_above_log2; [done|lia|simpl; lia].
Qed.

Lemma bit_test_testbit v k : 0 <= k -> bit_test v k = Z.testbit v k.
Proof.
  intros Hk. unfold bit_test.
  destruct (Z.eqb_spec (Z.land v (bit_mask k)) 0) as [E|E]; simpl.
  - assert (Z.testbit (Z.land v (bit_mask k)) k = false) as H by (rewrite E; apply Z.bits_0).
    rewrite Z.land_spec, bit_mask_spec, bool_decide_eq_true_2, andb_true_r in H by done.
    done.
  - destruct (Z.testbit v k) eqn:T; [done|]. destruct E. apply Z.bits_inj'. intros j Hj.
    rewrite Z.land_spec, bit_mask_spec, Z.bits_0 by done.
    case_bool_decide; subst; rewrite ?T, ?andb_false_r; done.
Qed.

Lemma bit_test_set v k j :
  0 <= k -> 0 <= j -> bit_test (bit_set v k) j = bool_decide (k = j) || bit_test v j.
Proof.
  intros. rewrite !bit_test_testbit by done. unfold bit_set.
  rewrite Z.lor_spec, bit_mask_spec by done. btauto.
Qed.

Lemma bit_test_clear v k j :
  0 <= k -> 0 <= j -> bit_test (bit_clear v k) j = negb (bool_decide (k = j)) && bit_test v j.
Proof.
  intros. rewrite !bit_test_testbit by done. unfold bit_clear.
  rewrite Z.land_spec, Z.lnot_spec, bit_mask_spec by done. btauto.
Qed.

Lemma testbit_inj_u8 v v' :
  is_u8 v -> is_u8 v' -> (forall j, 0 <= j < 8 -> Z.testbit v j = Z.testbit v' j) -> v = v'.
Proof.
  intros Hv Hv' H. apply Z.bits_inj'. intros j Hj.
  destruct (Z.lt_ge_cases j 8); [auto|].
  rewrite <- (Z.mod_small v (2 ^ 8)), <- (Z.mod_small v' (2 ^ 8)) by done.
  by rewrite !Z.mod_pow2_bits_high by lia.
Qed.

Lemma u8_of_testbit v : 0 <= v -> (forall j, 8 <= j -> Z.testbit v j = false) -> is_u8 v.
Proof.
  intros Hv H. unfold is_u8.
  assert (v = v mod 2 ^ 8) as ->.
  { apply Z.bits_inj'. intros j Hj. destruct (Z.lt_ge_cases j 8).
    - by rewrite Z.mod_pow2_bits_low.
    - rewrite Z.mod_pow2_bits_high by lia. auto. }
  apply Z.mod_pos_bound. lia.
Qed.

Lemma testbit_u8_high v j : is_u8 v -> 8 <= j -> Z.testbit v j = false.
Proof.
  intros Hv Hj. rewrite <- (Z.mod_small v (2 ^ 8)) by done.
  by apply Z.mod_pow2_bits_high; lia.
Qed.

Lemma bit_set_u8 v k : is_u8 v -> 0 <= k < 8 -> is_u8 (bit_set v k).
Proof.
  intros Hv Hk. apply u8_of_testbit.
  - unfold bit_set, bit_mask. apply Z.lor_nonneg. split; [apply Hv|].
    rewrite Z.shiftl_nonneg. lia.
  - intros j Hj. unfold bit_set.
    rewrite Z.lor_spec, bit_mask_spec, testbit_u8_high, bool_decide_eq_false_2 by (done || lia).
    done.
Qed.

Lemma bit_clear_u8 v k : is_u8 v -> 0 <= k -> is_u8 (bit_clear v k).
Proof.
  intros Hv Hk. apply u8_of_testbit.
  - unfold bit_clear. apply Z.land_nonneg. left. apply Hv.
  - intros j Hj. unfold bit_clear.
    rewrite Z.land_spec, testbit_u8_high by (done || lia). done.
Qed.

Lemma bit_clear_set v k : is_u8 v -> 0 <= k < 8 -> bit_test v k = false ->
  bit_clear (bit_set v k) k = v.
Proof.
  intros Hv Hk Ht. apply testbit_inj_u8; [|done|].
  - apply bit_clear_u8; [by apply bit_set_u8 | lia].
  - intros j Hj. rewrite <- !bit_test_testbit by lia.
    rewrite bit_test_clear, bit_test_set by lia.
    case_bool_decide; subst; simpl; congruence.
Qed.
End Bits.

#[export] Hint Resolve bit_set_u8 bit_clear_u8 : machine.

(** ** Alignment (ALIGN_UP and ALIGN_DOWN of include/pureunix/types.h, at 32 bits) *)

Definition ALIGN_DOWN (v a : Z) : Z := Z.land v (u32 (Z.lnot (a - 1))).
Definition ALIGN_UP (v a : Z) : Z := ALIGN_DOWN (u32 (v + (a - 1))) a.

Section Align.
Implicit Types (v k : Z).

Lemma ALIGN_DOWN_spec v k :
  is_u32 v -> 0 <= k <= 32 -> ALIGN_DOWN v (2 ^ k) = v - v mod 2 ^ k.
Proof.
  intros Hv Hk. unfold ALIGN_DOWN.
  assert (Z.land v (u32 (Z.lnot (2 ^ k - 1))) = Z.ldiff v (Z.ones k)) as ->.
  { apply Z.bits_inj'. intros j Hj.
    rewrite Z.land_spec, Z.ldiff_spec. unfold u32.
    replace (2 ^ k - 1) with (Z.ones k) by (rewrite Z.ones_equiv; lia).
    destruct (Z.lt_ge_cases j 32).
    - rewrite Z.mod_pow2_bits_low, Z.lnot_spec by lia. done.
    - rewrite Z.mod_pow2_bits_high by lia.
      assert (Z.testbit v j = false) as ->; [|done].
      rewrite <- (Z.mod_small v (2 ^ 32)) by done. apply Z.mod_pow2_bits_high. lia. }
  rewrite Z.ldiff_ones_r, Z.shiftl_mul_pow2, Z.shiftr_div_pow2 by lia.
  pose proof (Z.div_mod v (2 ^ k)). pose proof (Z.pow_pos_nonneg 2 k). lia.
Qed.

Lemma ALIGN_UP_spec v k :
  0 <= v -> 0 <= k <= 32 -> v + (2 ^ k - 1) < 2 ^ 32 ->
  ALIGN_UP v (2 ^ k) = (v + (2 ^ k - 1)) / 2 ^ k * 2 ^ k.
Proof.
  intros Hv Hk Hlt. pose proof (Z.pow_pos_nonneg 2 k ltac:(lia) ltac:(lia)).
  unfold ALIGN_UP. rewrite u32_small by (unfold is_u32; lia).
  rewrite ALIGN_DOWN_spec by (unfold is_u32 in *; lia).
  pose proof (Z.div_mod (v + (2 ^ k - 1)) (2 ^ k)). lia.
Qed.
End Align.

Lemma s32_small z : - 2 ^ 31 <= z < 2 ^ 31 -> s32 z = z.
Proof.
  intros H. unfold s32. destruct (Z.lt_ge_cases z 0).
  - replace (u32 z) with (z + 2 ^ 32).
    + case (Z.ltb_spec (z + 2 ^ 32) (2 ^ 31)); lia.
    + unfold u32. rewrite <- (Z.mod_small (z + 2 ^ 32) (2 ^ 32)) by lia.
      rewrite <- Zplus_mod_idemp_r, Z_mod_same_full, Z.add_0_r. done.
  - rewrite u32_small by (unfold is_u32; lia). case (Z.ltb_spec z (2 ^ 31)); lia.
Qed.

(** ** Bitmaps: bit [i] of a byte buffer is bit [i % 8] of byte [i / 8] *)

Definition bm_test (bm : list Z) (i : Z) : bool := bit_test (byte_at bm (i / 8)) (i mod 8).
Definition bm_set (bm : list Z) (i : Z) : list Z :=
  put bm (i / 8) [bit_set (byte_at bm (i / 8)) (i mod 8)].
Definition bm_clear (bm : list Z) (i : Z) : list Z :=
  put bm (i / 8) [bit_clear (byte_at bm (i / 8)) (i mod 8)].

Section Bitmaps.
Implicit Types (bm : list Z) (i j : Z).

Lemma bit_index i : 0 <= i -> 0 <= i mod 8 < 8 /\ 0 <= i / 8.
Proof. intros. split; [apply Z.mod_pos_bound; lia | apply Z.div_pos; lia]. Qed.

Lemma bit_index_eq i j : i / 8 = j / 8 -> i mod 8 = j mod 8 -> i = j.
Proof. intros. rewrite (Z.div_mod i 8), (Z.div_mod j 8) by lia. congruence. Qed.

Lemma byte_at_head x k : byte_at (x :: k) 0 = x.
Proof. done. Qed.

Lemma length_bm_set bm i : length (bm_set bm i) = length bm.
Proof. apply length_put. Qed.
Lemma length_bm_clear bm i : length (bm_clear bm i) = length bm.
Proof. apply length_put. Qed.

Lemma bm_set_ok bm i : 0 <= i -> bytes_ok bm -> bytes_ok (bm_set bm i).
Proof.
  intros Hi Hb. apply put_ok; [|done]. constructor; [|constructor].
  apply bit_set_u8; [by apply byte_at_ok | by apply bit_index].
Qed.
Lemma bm_clear_ok bm i : 0 <= i -> bytes_ok bm -> bytes_ok (bm_clear bm i).
Proof.
  intros Hi Hb. apply put_ok; [|done]. constructor; [|constructor].
  apply bit_clear_u8; [by apply byte_at_ok | by apply bit_index].
Qed.

Lemma bm_test_set bm i j :
  0 <= i < 8 * Z.of_nat (length bm) -> 0 <= j ->
  bm_test (bm_set bm i) j = bool_decide (i = j) || bm_test bm j.
Proof.
  intros Hi Hj. destruct (bit_index i) as [Hi1 Hi2], (bit_index j) as [Hj1 Hj2]; try lia.
  assert (i / 8 < Z.of_nat (length bm)) by (apply Z.div_lt_upper_bound; lia).
  unfold bm_test, bm_set. rewrite byte_at_put by lia. simpl. case_decide as D.
  - assert (i / 8 = j / 8) as E by lia. rewrite E, Z.sub_diag, byte_at_head.
    rewrite bit_test_set by lia. f_equal. apply bool_decide_ext. split; [|congruence].
    by apply bit_index_eq.
  - rewrite (bool_decide_eq_false_2 (i = j)) by (intros ->; lia). done.
Qed.

Lemma bm_test_clear bm i j :
  0 <= i < 8 * Z.of_nat (length bm) -> 0 <= j ->
  bm_test (bm_clear bm i) j = negb (bool_decide (i = j)) && bm_test bm j.
Proof.
  intros Hi Hj. destruct (bit_index i) as [Hi1 Hi2], (bit_index j) as [Hj1 Hj2]; try lia.
  assert (i / 8 < Z.of_nat (length bm)) by (apply Z.div_lt_upper_bound; lia).
  unfold bm_test, bm_clear. rewrite byte_at_put by lia. simpl. case_decide as D.
  - assert (i / 8 = j / 8) as E by lia. rewrite E, Z.sub_diag, byte_at_head.
    rewrite bit_test_clear by lia. do 2 f_equal. apply bool_decide_ext. split; [|congruence].
    by apply bit_index_eq.
  - rewrite (bool_decide_eq_false_2 (i = j)) by (intros ->; lia). done.
Qed.

(** Clearing a bit that was just set gives the buffer back. *)
Lemma bm_clear_set bm i :
  bytes_ok bm -> 0 <= i < 8 * Z.of_nat (length bm) -> bm_test bm i = false ->
  bm_clear (bm_set bm i) i = bm.
Proof.
  intros Hb Hi Ht. destruct (bit_index i) as [Hi1 Hi2]; [lia|].
  assert (i / 8 < Z.of_nat (length bm)) as Hlt by (apply Z.div_lt_upper_bound; lia).
  unfold bm_clear, bm_set. rewrite byte_at_put by lia. simpl.
  rewrite decide_True by lia. rewrite Z.sub_diag, byte_at_head.
  rewrite bit_clear_set by (done || by apply byte_at_ok).
  apply list_eq. intros k. unfold put. rewrite !splice_lookup, length_splice. simpl.
  repeat case_decide; try done; try lia.
  replace (k - Z.to_nat (i / 8))%nat with 0%nat by lia. simpl. unfold byte_at.
  replace (Z.to_nat (i / 8)) with k by lia.
  destruct (lookup_lt_is_Some_2 bm k) as [x ->]; [lia|done].
Qed.
End Bitmaps.

(** ** Counting clear bits *)

(** Number of clear bits among the first [n]. *)
Fixpoint clear_bits (bm : list Z) (n : nat) : Z :=
  match n with
  | O => 0
  | S n => clear_bits bm n + (if bm_test bm (Z.of_nat n) then 0 else 1)
  end.

Section ClearBits.
Implicit Types (bm : list Z) (i : Z) (n : nat).

Lemma clear_bits_bound bm n : 0 <= clear_bits bm n <= Z.of_nat n.
Proof. induction n as [|n IH]; cbn [clear_bits]; [lia|]. case_match; lia. Qed.

Lemma clear_bits_ext bm bm' n :
  (forall i, 0 <= i < Z.of_nat n -> bm_test bm' i = bm_test bm i) ->
  clear_bits bm' n = clear_bits bm n.
Proof.
  induction n as [|n IH]; intros Hext; cbn [clear_bits]; [done|].
  rewrite IH, Hext by (intros; try apply Hext; lia). done.
Qed.

(** Flipping bit [i] from clear to set removes one clear bit. *)
Lemma clear_bits_flip bm bm' n i :
  0 <= i < Z.of_nat n -> bm_test bm i = false -> bm_test bm' i = true ->
  (forall j, 0 <= j -> j <> i -> bm_test bm' j = bm_test bm j) ->
  clear_bits bm' n = clear_bits bm n - 1.
Proof.
  intros Hi H0 H1 Hext. induction n as [|n IH]; cbn [clear_bits]; [lia|].
  destruct (Z.eq_dec i (Z.of_nat n)) as [->|].
  - rewrite H0, H1, (clear_bits_ext bm bm') by (intros; apply Hext; lia). lia.
  - rewrite IH, (Hext (Z.of_nat n)) by lia. lia.
Qed.

Lemma clear_bits_zero bm n i :
  clear_bits bm n = 0 -> 0 <= i < Z.of_nat n -> bm_test bm i = true.
Proof.
  induction n as [|n IH]; cbn [clear_bits]; intros Hz Hi; [lia|].
  pose proof (clear_bits_bound bm n). destruct (Z.eq_dec i (Z.of_nat n)) as [->|].
  - destruct (bm_test bm (Z.of_nat n)); [done|lia].
  - apply IH; [|lia]. destruct (bm_test bm (Z.of_nat n)); lia.
Qed.

Lemma clear_bits_pos bm n i :
  0 <= i < Z.of_nat n -> bm_test bm i = false -> 1 <= clear_bits bm n.
Proof.
  intros Hi Ht. destruct (Z.eq_dec (clear_bits bm n) 0) as [Hz|].
  - rewrite (clear_bits_zero bm n i) in Ht by done. done.
  - pose proof (clear_bits_bound bm n). lia.
Qed.
End ClearBits.

(** ** Storing a value back *)

Lemma u32_s32_add x y : u32 (s32 x + y) = u32 (x + y).
Proof.
  unfold s32. pose proof (u32_range x) as Hx. unfold u32 in *.
  destruct (_ <? _).
  - by rewrite Z.add_mod_idemp_l.
  - replace (x mod 2 ^ 32 - 2 ^ 32 + y) with (x mod 2 ^ 32 + y + (-1) * 2 ^ 32) by lia.
    by rewrite Z.mod_add, Z.add_mod_idemp_l.
Qed.

Lemma put_put_same b off k k' : length k = length k' -> put (put b off k) off k' = put b off k'.
Proof.
  intros Hl. apply list_eq. intros j. unfold put. rewrite !splice_lookup, length_splice.
  repeat case_decide; try done; lia.
Qed.

Lemma put_sub b off n :
  0 <= off -> 0 <= n -> off + n <= Z.of_nat (length b) -> put b off (sub b off n) = b.
Proof.
  intros Ho Hn Hl. apply list_eq. intros j. unfold put. rewrite splice_lookup, length_sub by lia.
  case_decide; [|done]. unfold sub. rewrite lookup_take_lt, lookup_drop by lia. f_equal. lia.
Qed.

Lemma put_le_get_le n b off :
  bytes_ok b -> 0 <= off -> off + Z.of_nat n <= Z.of_nat (length b) ->
  put_le n b off (get_le n b off) = b.
Proof.
  intros Hb Ho Hl. unfold put_le, get_le.
  pose proof (length_sub b off (Z.of_nat n) Ho ltac:(lia) Hl) as Hs. rewrite Nat2Z.id in Hs.
  rewrite <- Hs at 1. rewrite le_bytes_le_val by (by apply sub_ok).
  apply put_sub; lia.
Qed.

Lemma put_le_put_le n b off v v' : put_le n (put_le n b off v) off v' = put_le n b off v'.
Proof. apply put_put_same. by rewrite !length_le_bytes. Qed.

(** Stores at disjoint places commute. *)
Lemma put_le_comm n m b o o' v v' :
  0 <= o -> 0 <= o' -> o + Z.of_nat n <= o' \/ o' + Z.of_nat m <= o ->
  put_le n (put_le m b o' v') o v = put_le m (put_le n b o v) o' v'.
Proof.
  intros Ho Ho' Hd. apply list_eq. intros j. unfold put_le, put.
  rewrite !splice_lookup, !length_splice, !length_le_bytes.
  repeat case_decide; try done; lia.
Qed.

(** ** Buffers cut in three *)

Section Pieces.
Implicit Types (a b c k : list Z).

Lemma lookup_app_case a b i :
  (a ++ b) !! i = if decide (i < length a)%nat then a !! i else b !! (i - length a)%nat.
Proof. case_decide; [by apply lookup_app_l | apply lookup_app_r; lia]. Qed.

Lemma put_app_mid a b c o k :
  0 <= o -> o + Z.of_nat (length k) <= Z.of_nat (length b) ->
  put (a ++ b ++ c) (Z.of_nat (length a) + o) k = a ++ put b o k ++ c.
Proof.
  intros Ho Hk. apply list_eq. intros j. unfold put.
  rewrite splice_lookup, !lookup_app_case, splice_lookup, length_splice, !length_app.
  repeat case_decide; try lia; try done; f_equal; lia.
Qed.

Lemma sub_app_mid a b c o n :
  0 <= o -> 0 <= n -> o + n <= Z.of_nat (length b) ->
  sub (a ++ b ++ c) (Z.of_nat (length a) + o) n = sub b o n.
Proof.
  intros Ho Hn Hl. apply list_eq. intros j. unfold sub.
  destruct (decide (j < Z.to_nat n)%nat); [|rewrite !lookup_ge_None_2; [done| |];
    rewrite length_take; lia].
  rewrite !lookup_take_lt, !lookup_drop, !lookup_app_case by done.
  repeat case_decide; try lia. f_equal; lia.
Qed.

Lemma byte_app_mid a b c o :
  0 <= o < Z.of_nat (length b) -> byte_at (a ++ b ++ c) (Z.of_nat (length a) + o) = byte_at b o.
Proof.
  intros Ho. unfold byte_at. f_equal. rewrite lookup_app_r by lia. rewrite lookup_app_l by lia.
  f_equal. lia.
Qed.

Lemma put_all b k : length k = length b -> put b 0 k = k.
Proof. apply splice_all. Qed.

Lemma put_at a b c k o :
  length b = length k -> o = Z.of_nat (length a) -> put (a ++ b ++ c) o k = a ++ k ++ c.
Proof.
  intros Hl ->. replace (Z.of_nat (length a)) with (Z.of_nat (length a) + 0) by lia.
  rewrite put_app_mid by lia. by rewrite put_all.
Qed.
End Pieces.
