(* ===== verification/Heap.v ===== *)
(** * Kernel heap (kernel/heap.c)

    First-fit allocator over a fixed 8 MiB region: a doubly linked list of
    in-band headers, split on allocation and merged on free.  The model keeps
    the headers where the code writes them (a finite map from addresses) and
    follows the [next]/[prev] pointers; the payload bytes are not modelled.
    The specification is a list of tiles; [heap_rep] relates the two, and the
    theorems show that every operation refines its tile-level counterpart, so
    that blocks tile the region, live blocks never overlap, free neighbours
    are always merged, and [kfree] undoes [kmalloc]. *)

From S2P Require Import Prelude.

Definition HEAP_SIZE : Z := 8 * 1024 * 1024.
Definition HEAP_MAGIC : Z := 0xC0FFEE42.
(** [sizeof(heap_block_t)] on i386: 4 + 4 + 1 (+3) + 4 + 4. *)
Definition HDR : Z := 20.

Record heap_block := mk_block {
  hb_magic : Z; hb_size : Z; hb_free : bool; hb_next : Z; hb_prev : Z;
}.

(** [heap_head], [heap_start], [heap_end] and the headers in memory. *)
Record heap := mk_heap {
  heap_head : Z; heap_start : Z; heap_end : Z; h_mem : gmap Z heap_block;
}.

Definition set_mem (m : gmap Z heap_block) (h : heap) : heap :=
  mk_heap (heap_head h) (heap_start h) (heap_end h) m.

Definition align8 (v : Z) : Z := ALIGN_UP v 8.

(** [heap_init], with [&__kernel_end] as its argument. *)
Definition heap_init (kernel_end : Z) : heap :=
  let start := ALIGN_UP kernel_end 4096 in
  mk_heap start start (u32 (start + HEAP_SIZE))
    {[ start := mk_block HEAP_MAGIC (HEAP_SIZE - HDR) true 0 0 ]}.

(** Field assignments through a block pointer. *)
Definition upd (p : Z) (f : heap_block -> heap_block) (h : heap) : heap :=
  set_mem (alter f p (h_mem h)) h.
Definition with_free (v : bool) (b : heap_block) : heap_block :=
  mk_block (hb_magic b) (hb_size b) v (hb_next b) (hb_prev b).
Definition with_size (v : Z) (b : heap_block) : heap_block :=
  mk_block (hb_magic b) v (hb_free b) (hb_next b) (hb_prev b).
Definition with_next (v : Z) (b : heap_block) : heap_block :=
  mk_block (hb_magic b) (hb_size b) (hb_free b) v (hb_prev b).
Definition with_prev (v : Z) (b : heap_block) : heap_block :=
  mk_block (hb_magic b) (hb_size b) (hb_free b) (hb_next b) v.

(** [split_block(block, size)]. *)
Definition split_block (p : Z) (b : heap_block) (size : Z) (h : heap) : heap :=
  if hb_size b <? u32 (size + HDR + 16) then h else
  let n := u32 (p + HDR + size) in
  let nb := mk_block HEAP_MAGIC (u32 (hb_size b - size - HDR)) true (hb_next b) p in
  let h := set_mem (<[n := nb]> (h_mem h)) h in
  let h := if hb_next nb =? 0 then h else upd (hb_next nb) (with_prev n) h in
  let h := upd p (with_next n) h in
  upd p (with_size size) h.

(** The first-fit scan of [kmalloc]; the fuel bounds the list walk. *)
Fixpoint first_fit (fuel : nat) (p size : Z) (h : heap) : option Z * heap :=
  match fuel with
  | O => (None, h)
  | S fuel =>
      if p =? 0 then (None, h) else
      match h_mem h !! p with
      | None => (None, h)
      | Some b =>
          if (hb_magic b =? HEAP_MAGIC) && hb_free b && (size <=? hb_size b)
          then (Some (u32 (p + HDR)), upd p (with_free false) (split_block p b size h))
          else first_fit fuel (hb_next b) size h
      end
  end.

Definition walk_fuel (h : heap) : nat := S (size (h_mem h)).

(** [kmalloc]: the payload pointer, or [None] for NULL. *)
Definition kmalloc (n : Z) (h : heap) : option Z * heap :=
  if n =? 0 then (None, h) else
  first_fit (walk_fuel h) (heap_head h) (align8 n) h.

(** [kcalloc] (the zeroing of the payload is not part of the state). *)
Definition kcalloc (count n : Z) (h : heap) : option Z * heap := kmalloc (u32 (count * n)) h.

(** [coalesce(block)]: merge with the next block if it is free, then start
    again from the previous block if that one is free. *)
Definition merge_next (p : Z) (b : heap_block) (h : heap) : heap :=
  match (if hb_next b =? 0 then None else h_mem h !! hb_next b) with
  | Some nb =>
      if hb_free nb then
        let h := upd p (with_size (u32 (hb_size b + HDR + hb_size nb))) h in
        let h := upd p (with_next (hb_next nb)) h in
        if hb_next nb =? 0 then h else upd (hb_next nb) (with_prev p) h
      else h
  | None => h
  end.

Fixpoint coalesce (fuel : nat) (p : Z) (h : heap) : heap :=
  match fuel with
  | O => h
  | S fuel =>
      match h_mem h !! p with
      | None => h
      | Some b =>
          let h1 := merge_next p b h in
          match (if hb_prev b =? 0 then None else h_mem h1 !! hb_prev b) with
          | Some pb => if hb_free pb then coalesce fuel (hb_prev b) h1 else h1
          | None => h1
          end
      end
  end.

(** [kfree]: a NULL pointer or a wrong magic is ignored. *)
Definition kfree (ptr : option Z) (h : heap) : heap :=
  match ptr with
  | None => h
  | Some q =>
      let p := u32 (q - HDR) in
      match h_mem h !! p with
      | Some b =>
          if hb_magic b =? HEAP_MAGIC
          then coalesce (walk_fuel h) p (upd p (with_free true) h)
          else h
      | None => h
      end
  end.

(** [krealloc]. *)
Definition krealloc (ptr : option Z) (n : Z) (h : heap) : option Z * heap :=
  match ptr with
  | None => kmalloc n h
  | Some q =>
      if n =? 0 then (None, kfree ptr h) else
      match h_mem h !! u32 (q - HDR) with
      | None => (None, h)
      | Some b =>
          if n <=? hb_size b then (ptr, h) else
          let '(next, h1) := kmalloc n h in
          match next with
          | None => (None, h1)
          | Some _ => (next, kfree ptr h1)
          end
      end
  end.

(** [heap_free_bytes] and [heap_used_bytes]. *)
Fixpoint free_walk (fuel : nat) (p total : Z) (h : heap) : Z :=
  match fuel with
  | O => total
  | S fuel =>
      if p =? 0 then total else
      match h_mem h !! p with
      | None => total
      | Some b => free_walk fuel (hb_next b)
                    (if hb_free b then u32 (total + hb_size b) else total) h
      end
  end.
Definition heap_free_bytes (h : heap) : Z := free_walk (walk_fuel h) (heap_head h) 0 h.
Definition heap_used_bytes (h : heap) : Z :=
  u32 (u32 (heap_end h - heap_start h) - heap_free_bytes h).

(** ** The specification: a list of tiles *)

Record tile := Tile { t_size : Z; t_free : bool }.

Definition span (l : list tile) : Z := foldr (fun t acc => HDR + t_size t + acc) 0 l.
Arguments span : simpl never.

(** Address of the first tile of [l] laid out at [b], or [nx] if there is none;
    address of the last tile of [l] laid out at [a], or [pv]. *)
Definition hd_addr (b : Z) (l : list tile) (nx : Z) : Z :=
  match l with [] => nx | _ => b end.
Fixpoint last_addr (pv a : Z) (l : list tile) : Z :=
  match l with [] => pv | t :: l => last_addr a (a + HDR + t_size t) l end.

Definition blk (t : tile) (nx pv : Z) : heap_block :=
  mk_block HEAP_MAGIC (t_size t) (t_free t) nx pv.

(** [seg m pv a l nx]: the headers of [l] are laid out from [a], doubly
    linked, between the blocks [pv] and [nx]. *)
Fixpoint seg (m : gmap Z heap_block) (pv a : Z) (l : list tile) (nx : Z) : Prop :=
  match l with
  | [] => True
  | t :: l =>
      m !! a = Some (blk t (hd_addr (a + HDR + t_size t) l nx) pv) /\
      seg m a (a + HDR + t_size t) l nx
  end.

Definition tile_ok (t : tile) : Prop := 0 <= t_size t.

Record heap_rep (h : heap) (l : list tile) : Prop := {
  rep_head : heap_head h = heap_start h;
  rep_start : 16 <= heap_start h;
  rep_end : heap_end h = heap_start h + span l;
  rep_width : heap_end h < 2 ^ 32;
  rep_ne : l <> [];
  rep_ok : Forall tile_ok l;
  rep_seg : seg (h_mem h) 0 (heap_start h) l 0;
}.

(** First fit on tiles laid out from [a]. *)
Fixpoint a_malloc (a n : Z) (l : list tile) : option Z * list tile :=
  match l with
  | [] => (None, [])
  | t :: l =>
      if t_free t && (n <=? t_size t) then
        (Some (a + HDR),
         if t_size t <? n + HDR + 16 then Tile (t_size t) false :: l
         else Tile n false :: Tile (t_size t - n - HDR) true :: l)
      else let '(r, l') := a_malloc (a + HDR + t_size t) n l in (r, t :: l')
  end.

(** Merging the free tile [sz] with its successor, then with its
    predecessors ([rl] is the list of the tiles before it, nearest first). *)
Definition a_absorb (sz : Z) (l : list tile) : list tile :=
  match l with
  | Tile s true :: l' => Tile (sz + HDR + s) true :: l'
  | _ => Tile sz true :: l
  end.
Fixpoint a_coalesce (rl : list tile) (sz : Z) (l : list tile) : list tile :=
  match rl with
  | Tile s true :: rl' => a_coalesce rl' s (a_absorb sz l)
  | _ => rev rl ++ a_absorb sz l
  end.

(** No two neighbours are both free. *)
Fixpoint merged (l : list tile) : Prop :=
  match l with
  | t :: (u :: _) as l' => ~ (t_free t = true /\ t_free u = true) /\ merged l'
  | _ => True
  end.

Arguments merged : simpl never.

(** The live payloads: pointer and size of each allocated tile. *)
Fixpoint payloads (a : Z) (l : list tile) : list (Z * Z) :=
  match l with
  | [] => []
  | t :: l =>
      (if t_free t then [] else [(a + HDR, t_size t)]) ++
      payloads (a + HDR + t_size t) l
  end.

(** ** Layout lemmas *)

Lemma span_nil : span [] = 0.
Proof. done. Qed.

Lemma span_cons t l : span (t :: l) = HDR + t_size t + span l.
Proof. done. Qed.

Lemma span_app l1 l2 : span (l1 ++ l2) = span l1 + span l2.
Proof. induction l1 as [|t l1 IH]; simpl; [done|]. rewrite !span_cons, IH. lia. Qed.

Lemma span_nonneg l : Forall tile_ok l -> 0 <= span l.
Proof. unfold tile_ok, HDR. induction 1; [done|]. rewrite span_cons. unfold HDR. lia. Qed.

Lemma hd_addr_app b l1 l2 nx :
  hd_addr b (l1 ++ l2) nx = hd_addr b l1 (hd_addr (b + span l1) l2 nx).
Proof. destruct l1; simpl; [|done]. f_equal. rewrite span_nil. lia. Qed.

Lemma last_addr_snoc pv a l t : last_addr pv a (l ++ [t]) = a + span l.
Proof.
  revert pv a. induction l as [|u l IH]; intros pv a; simpl; [rewrite span_nil; lia|].
  rewrite IH, span_cons. lia.
Qed.

Lemma seg_app m pv a l1 l2 nx :
  seg m pv a (l1 ++ l2) nx <->
  seg m pv a l1 (hd_addr (a + span l1) l2 nx) /\
  seg m (last_addr pv a l1) (a + span l1) l2 nx.
Proof.
  revert pv a. induction l1 as [|t l1 IH]; intros pv a; simpl.
  - rewrite span_nil, Z.add_0_r. tauto.
  - rewrite IH, hd_addr_app. rewrite span_cons.
    replace (a + HDR + t_size t + span l1) with (a + (HDR + t_size t + span l1)) by lia.
    tauto.
Qed.

(** Two memories agree outside [[lo, hi)]. *)
Definition same_outside (lo hi : Z) (m m' : gmap Z heap_block) : Prop :=
  forall x, x < lo \/ hi <= x -> m' !! x = m !! x.

Lemma same_outside_refl lo hi m : same_outside lo hi m m.
Proof. done. Qed.

Lemma seg_frame m m' pv a l nx :
  Forall tile_ok l -> (forall x, a <= x < a + span l -> m' !! x = m !! x) ->
  seg m pv a l nx -> seg m' pv a l nx.
Proof.
  intros Hok. revert pv a. induction Hok as [|t l Ht Hl IH]; intros pv a Heq; simpl; [done|].
  pose proof (span_nonneg _ Hl). rewrite span_cons in Heq. unfold tile_ok, HDR in *.
  intros [H1 H2]. split.
  - rewrite Heq; [done|lia].
  - apply IH; [|done]. intros x Hx. apply Heq. lia.
Qed.

(** Relinking the first block of a segment to a new predecessor. *)
Definition relink (a pv : Z) (l : list tile) (m : gmap Z heap_block) : gmap Z heap_block :=
  match l with [] => m | _ => alter (with_prev pv) a m end.

Lemma seg_relink m pv pv' a l nx :
  Forall tile_ok l -> seg m pv a l nx -> seg (relink a pv' l m) pv' a l nx.
Proof.
  intros Hok. destruct Hok as [|t l Ht Hl]; [done|]. simpl. intros [H1 H2]. split.
  - rewrite lookup_alter_eq, H1. done.
  - eapply seg_frame; [done| |done]. intros x Hx. unfold tile_ok, HDR in *.
    rewrite lookup_alter_ne by lia. done.
Qed.

Lemma relink_other a pv l m x : x <> a -> relink a pv l m !! x = m !! x.
Proof. intros. destruct l; simpl; [done|]. apply lookup_alter_ne. done. Qed.

Lemma seg_size m pv a l nx :
  Forall tile_ok l -> seg m pv a l nx -> (length l <= size m)%nat.
Proof.
  intros Hok. revert m pv a. induction Hok as [|t l Ht Hl IH]; intros m pv a; simpl; [lia|].
  intros [H1 H2].
  assert (0 < size m)%nat.
  { apply Nat.neq_0_lt_0. intros ->%map_size_empty_iff. by rewrite lookup_empty in H1. }
  assert (seg (delete a m) a (a + HDR + t_size t) l nx) as Hs%IH.
  { eapply seg_frame; [done| |done]. intros x Hx. unfold tile_ok, HDR in *.
    rewrite lookup_delete_ne by lia. done. }
  rewrite map_size_delete_Some in Hs by (rewrite H1; eauto). lia.
Qed.

(** ** Each operation refines its tile-level counterpart *)

Lemma align8_spec n :
  0 <= n <= 2 ^ 32 - 8 -> align8 n = (n + 7) / 8 * 8 /\ n <= align8 n < n + 8.
Proof.
  intros Hn. assert (align8 n = (n + 7) / 8 * 8) as ->.
  { unfold align8. pose proof (ALIGN_UP_spec n 3) as H. change (2 ^ 3) with 8 in H.
    rewrite H by lia. done. }
  pose proof (Z.div_mod (n + 7) 8). pose proof (Z.mod_pos_bound (n + 7) 8). lia.
Qed.

(** What [split_block] and the [free = false] that follows it leave of the
    block at [p]. *)
Lemma split_block_spec h pv p t l n :
  seg (h_mem h) pv p (t :: l) 0 -> Forall tile_ok (t :: l) ->
  16 <= p -> p + span (t :: l) < 2 ^ 32 -> 0 <= n <= t_size t ->
  exists m, upd p (with_free false) (split_block p (blk t (hd_addr (p + HDR + t_size t) l 0) pv) n h)
              = set_mem m h /\
    same_outside p (p + span (t :: l)) (h_mem h) m /\
    seg m pv p (if t_size t <? n + HDR + 16 then Tile (t_size t) false :: l
                else Tile n false :: Tile (t_size t - n - HDR) true :: l) 0.
Proof.
  intros [Hp Hl] [Ht Hok]%Forall_cons Hp0 Hend Hn. rewrite span_cons in *.
  pose proof (span_nonneg _ Hok). unfold tile_ok, HDR in *.
  unfold split_block, HDR. cbn [hb_size blk hb_next].
  rewrite (u32_small (n + 20 + 16)) by (unfold is_u32; lia).
  case (Z.ltb_spec (t_size t) (n + 20 + 16)) as [Hs|Hs].
  - exists (alter (with_free false) p (h_mem h)). split_and!; [done| |].
    + intros x Hx. apply lookup_alter_ne. lia.
    + simpl. rewrite lookup_alter_eq, Hp. split; [done|]. unfold HDR.
      eapply seg_frame; [done| |exact Hl]. intros x Hx. apply lookup_alter_ne. lia.
  - rewrite (u32_small (p + 20 + n)), (u32_small (t_size t - n - 20)) by (unfold is_u32; lia).
    set (b := p + 20 + t_size t) in *. set (c := p + 20 + n).
    set (nb := mk_block HEAP_MAGIC (t_size t - n - 20) true (hd_addr b l 0) p).
    set (m1 := relink b c l (<[c := nb]> (h_mem h))).
    exists (<[p := blk (Tile n false) c pv]> m1).
    assert (m1 !! p = h_mem h !! p) as Hm1.
    { unfold m1. rewrite relink_other, lookup_insert_ne by lia. done. }
    split_and!.
    + transitivity (set_mem (alter (with_free false) p
        (alter (with_size n) p (alter (with_next c) p m1))) h).
      * unfold upd, set_mem, m1. destruct l; simpl; [done|].
        case (Z.eqb_spec b 0); [lia|done].
      * f_equal. apply map_eq. intros x. destruct (decide (x = p)) as [->|].
        -- rewrite !lookup_alter_eq, lookup_insert_eq, Hm1, Hp. done.
        -- rewrite !lookup_alter_ne, lookup_insert_ne by done. done.
    + intros x Hx. rewrite lookup_insert_ne by lia.
      unfold m1. destruct l; simpl; [rewrite lookup_insert_ne by lia; done|].
      rewrite span_cons in *. unfold HDR in *. apply Forall_cons in Hok as [Ht' Hok].
      pose proof (span_nonneg _ Hok). unfold tile_ok in *.
      rewrite lookup_alter_ne, lookup_insert_ne by lia. done.
    + cbn [seg hd_addr t_size]. unfold HDR. fold c.
      replace (c + 20 + (t_size t - n - 20)) with b by lia.
      rewrite lookup_insert_eq. split_and!; [done| |].
      * rewrite lookup_insert_ne by lia. unfold m1.
        rewrite relink_other, lookup_insert_eq by lia. done.
      * eapply seg_frame; [done| |eapply seg_relink; [done|]].
        -- intros x Hx. rewrite lookup_insert_ne by lia. done.
        -- eapply seg_frame; [done| |exact Hl].
           intros x Hx. apply lookup_insert_ne. lia.
Qed.

Lemma set_mem_id h : set_mem (h_mem h) h = h.
Proof. destruct h. done. Qed.

Lemma a_malloc_hd a n l b x : hd_addr b (snd (a_malloc a n l)) x = hd_addr b l x.
Proof.
  destruct l as [|t l]; simpl; [done|].
  destruct (_ && _); simpl; [by destruct (_ <? _)|].
  by destruct (a_malloc _ n l).
Qed.

Lemma first_fit_spec fuel h pv a l n :
  seg (h_mem h) pv a l 0 -> Forall tile_ok l -> 16 <= a -> a + span l < 2 ^ 32 ->
  0 <= n -> (length l < fuel)%nat ->
  exists m, first_fit fuel (hd_addr a l 0) n h = (fst (a_malloc a n l), set_mem m h) /\
    same_outside a (a + span l) (h_mem h) m /\ seg m pv a (snd (a_malloc a n l)) 0.
Proof.
  revert fuel pv a. induction l as [|t l IH]; intros [|fuel] pv a Hs Hok Ha Hend Hn Hf;
    simpl in Hf; try lia.
  { exists (h_mem h). simpl. rewrite set_mem_id. done. }
  cbn [first_fit hd_addr]. case (Z.eqb_spec a 0) as [|_]; [lia|].
  pose proof Hs as [Hp Hl]. rewrite Hp. cbn [blk hb_magic hb_free hb_size hb_next a_malloc].
  change (HEAP_MAGIC =? HEAP_MAGIC) with true. cbn [andb].
  pose proof Hok as [Ht Hok']%Forall_cons. pose proof (span_nonneg _ Hok').
  rewrite span_cons in *. unfold tile_ok, HDR in *.
  destruct (t_free t && (n <=? t_size t)) eqn:Hfit; cbn [fst snd].
  - apply andb_true_iff in Hfit as [_ Hfit%Z.leb_le].
    destruct (split_block_spec h pv a t l n) as (m & Hm & Ho & Hm'); try done.
    rewrite span_cons in Ho. unfold HDR in *. exists m. cbn [fst snd].
    rewrite Hm, u32_small by (unfold is_u32; lia). done.
  - destruct (IH fuel a (a + 20 + t_size t)) as (m & Hm & Ho & Hm'); try done; try lia.
    rewrite Hm. destruct (a_malloc (a + 20 + t_size t) n l) as [r l'] eqn:Hr.
    simpl in *. exists m. split; [done|split].
    + intros x Hx. apply Ho. lia.
    + split; [|done]. rewrite Ho by lia. rewrite Hp. do 2 f_equal.
      symmetry. pose proof (a_malloc_hd (a + 20 + t_size t) n l) as Hhd. rewrite Hr in Hhd. apply Hhd.
Qed.

Lemma merge_next_spec h pv p sz l :
  seg (h_mem h) pv p (Tile sz true :: l) 0 -> Forall tile_ok (Tile sz true :: l) ->
  16 <= p -> p + span (Tile sz true :: l) < 2 ^ 32 ->
  exists m, merge_next p (blk (Tile sz true) (hd_addr (p + HDR + sz) l 0) pv) h = set_mem m h /\
    same_outside p (p + span (Tile sz true :: l)) (h_mem h) m /\
    seg m pv p (a_absorb sz l) 0.
Proof.
  intros Hs [Hsz Hok]%Forall_cons Hp Hend.
  assert (exists m, h = set_mem m h /\
    same_outside p (p + span (Tile sz true :: l)) (h_mem h) m /\
    seg m pv p (Tile sz true :: l) 0) as Hid.
  { exists (h_mem h). by rewrite set_mem_id. }
  unfold merge_next. cbn [blk hb_next hb_size t_size].
  destruct l as [|u l]; [exact Hid|].
  pose proof Hs as [Hb [Hu Hl]]. cbn [t_size hd_addr] in Hb, Hu, Hl |- *.
  rewrite !span_cons in *. apply Forall_cons in Hok as [Hu' Hok].
  pose proof (span_nonneg _ Hok). unfold tile_ok, HDR in *. cbn [t_size] in *.
  set (b := p + 20 + sz) in *. set (c := b + 20 + t_size u) in *.
  case (Z.eqb_spec b 0) as [|_]; [lia|]. rewrite Hu. cbn [blk hb_free hb_next hb_size].
  destruct u as [su []]; cbn [t_size t_free a_absorb] in *; [|exact Hid].
  rewrite u32_small by (unfold is_u32; lia).
  exists (relink c p l (alter (with_next (hd_addr c l 0)) p
           (alter (with_size (sz + 20 + su)) p (h_mem h)))).
  split_and!.
  - unfold upd, set_mem. destruct l; simpl; [done|].
    case (Z.eqb_spec c 0) as [|_]; [lia|done].
  - intros x Hx. destruct l as [|v l]; simpl; [by rewrite !lookup_alter_ne by lia|].
    rewrite !span_cons in *. apply Forall_cons in Hok as [? Hok].
    pose proof (span_nonneg _ Hok). unfold tile_ok, HDR in *.
    by rewrite !lookup_alter_ne by lia.
  - cbn [seg t_size]. unfold HDR.
    replace (p + 20 + (sz + 20 + su)) with c by lia. split.
    + rewrite relink_other by lia. rewrite !lookup_alter_eq, Hb. done.
    + eapply seg_relink; [done|]. eapply seg_frame; [done| |exact Hl].
      intros x Hx. by rewrite !lookup_alter_ne by lia.
Qed.

Lemma a_absorb_span sz l : span (a_absorb sz l) = span (Tile sz true :: l).
Proof. destruct l as [|[s []] l]; simpl; rewrite ?span_cons; simpl; lia. Qed.

Lemma a_absorb_ok sz l : Forall tile_ok (Tile sz true :: l) -> Forall tile_ok (a_absorb sz l).
Proof.
  intros Hok. destruct l as [|[s []] l]; simpl; try done.
  apply Forall_cons in Hok as [H1 [H2 H3]%Forall_cons]. constructor; [|done].
  unfold tile_ok, HDR in *. simpl in *. lia.
Qed.

Lemma a_absorb_hd sz l b x : hd_addr b (a_absorb sz l) x = b.
Proof. by destruct l as [|[s []] l]. Qed.

Lemma coalesce_spec fuel h a rl sz l :
  seg (h_mem h) 0 a (rev rl ++ Tile sz true :: l) 0 ->
  Forall tile_ok (rev rl ++ Tile sz true :: l) -> 16 <= a ->
  a + span (rev rl ++ Tile sz true :: l) < 2 ^ 32 -> (length rl < fuel)%nat ->
  exists m, coalesce fuel (a + span (rev rl)) h = set_mem m h /\
    seg m 0 a (a_coalesce rl sz l) 0.
Proof.
  revert fuel h sz l. induction rl as [|u rl IH]; intros [|fuel] h sz l Hs Hok Ha Hend Hf;
    simpl in Hf; try lia.
  all: pose proof Hs as [Hs1 Hs2]%seg_app; pose proof Hok as [Hok1 Hok2]%Forall_app;
    rewrite span_app in Hend; pose proof (span_nonneg _ Hok1);
    destruct (merge_next_spec h _ _ _ _ Hs2 Hok2) as (m & Hm & Ho & Hseg); try lia;
    cbn [coalesce]; pose proof Hs2 as [Hb _]; rewrite Hb; cbn [t_size]; rewrite Hm;
    cbn [blk hb_prev hb_next].
  - cbn [rev app a_coalesce] in *. exists m. simpl. split; [done|].
    rewrite span_nil, Z.add_0_r in Hseg. done.
  - assert (seg m 0 a (rev (u :: rl) ++ a_absorb sz l) 0) as Hall.
    { apply seg_app. split; [|done]. rewrite a_absorb_hd.
      eapply seg_frame; [done| |exact Hs1]. intros x Hx. apply Ho. lia. }
    cbn [rev] in *. rewrite last_addr_snoc in *. rewrite <- app_assoc in Hall.
    apply Forall_app in Hok1 as [Hokr Hoku]. pose proof (span_nonneg _ Hokr).
    pose proof Hall as [_ [Hu _]]%seg_app.
    case (Z.eqb_spec (a + span (rev rl)) 0) as [|_]; [lia|].
    cbn [h_mem set_mem]. rewrite Hu. cbn [blk hb_free].
    destruct u as [su []]; cbn [t_free].
    + destruct (IH fuel (set_mem m h) su (a_absorb sz l)) as (m' & Hm' & Hseg'); try done.
      * apply Forall_app. split; [done|]. constructor; [by inversion Hoku|].
        by apply a_absorb_ok.
      * rewrite !span_app, !span_cons, ?span_nil in *. rewrite a_absorb_span, span_cons. lia.
      * lia.
      * exists m'. split; [|done]. rewrite Hm'. done.
    + exists m. split; [done|]. simpl. rewrite <- app_assoc. done.
Qed.

(** What first fit does to the tile list. *)
Lemma a_malloc_Some a n l p l' :
  a_malloc a n l = (Some p, l') ->
  exists l1 t l2 s r, l = l1 ++ t :: l2 /\ l' = l1 ++ Tile s false :: r ++ l2 /\
    p = a + span l1 + HDR /\ t_free t = true /\ n <= s /\
    (r = [] /\ s = t_size t \/ r = [Tile (t_size t - s - HDR) true] /\ s + HDR + 16 <= t_size t).
Proof.
  revert a l'. induction l as [|t l IH]; intros a l' H; simpl in H; [done|].
  destruct (t_free t && (n <=? t_size t)) eqn:Hfit.
  - apply andb_true_iff in Hfit as [Hf Hn%Z.leb_le].
    injection H as <- <-. exists [], t, l.
    case (Z.ltb_spec (t_size t) (n + HDR + 16)) as [Hs|Hs].
    + exists (t_size t), []. rewrite span_nil. split_and!; try done; [lia|by left].
    + exists n, [Tile (t_size t - n - HDR) true]. rewrite span_nil.
      split_and!; try done; [lia|by right].
  - destruct (a_malloc _ n l) as [r l''] eqn:Hr. injection H as -> <-.
    destruct (IH _ _ Hr) as (l1 & u & l2 & s & r & -> & -> & -> & ? & ? & ?).
    exists (t :: l1), u, l2, s, r. rewrite span_cons. split_and!; try done. lia.
Qed.

Lemma a_malloc_None a n l l' :
  a_malloc a n l = (None, l') ->
  l' = l /\ Forall (fun t => t_free t = true -> t_size t < n) l.
Proof.
  revert a l'. induction l as [|t l IH]; intros a l' H; simpl in H; [by simplify_eq|].
  destruct (t_free t && (n <=? t_size t)) eqn:Hfit; [done|].
  destruct (a_malloc _ n l) as [r l''] eqn:Hr. injection H as -> <-.
  destruct (IH _ _ Hr) as [-> ?]. split; [done|]. constructor; [|done].
  intros Hf. rewrite Hf in Hfit. simpl in Hfit. by apply Z.leb_gt in Hfit.
Qed.

Lemma heap_rep_set h l m l' :
  heap_rep h l -> span l' = span l -> l' <> [] -> Forall tile_ok l' ->
  seg m 0 (heap_start h) l' 0 -> heap_rep (set_mem m h) l'.
Proof. intros [] Hs Hne Hok Hseg. constructor; simpl; try done. by rewrite Hs. Qed.

Lemma rep_fuel h l : heap_rep h l -> (length l < walk_fuel h)%nat.
Proof. intros []. unfold walk_fuel. assert (length l <= size (h_mem h))%nat; [by eapply seg_size|lia]. Qed.

(** [kmalloc] refines first fit on the tile list. *)
Lemma kmalloc_rep h l n :
  heap_rep h l -> 0 < n <= 2 ^ 32 - 8 ->
  exists m l', a_malloc (heap_start h) (align8 n) l = (fst (kmalloc n h), l') /\
    snd (kmalloc n h) = set_mem m h /\ heap_rep (set_mem m h) l'.
Proof.
  intros Hrep Hn. pose proof (rep_fuel _ _ Hrep) as Hfuel.
  destruct (align8_spec n) as [_ Ha]; [lia|].
  pose proof Hrep as [Hh Hst He Hw Hne Hok Hseg].
  unfold kmalloc. case (Z.eqb_spec n 0) as [|_]; [lia|].
  destruct (first_fit_spec (walk_fuel h) h 0 (heap_start h) l (align8 n))
    as (m & Hm & _ & Hm'); try done; try lia.
  replace (hd_addr _ l 0) with (heap_head h) in Hm by (by destruct l).
  rewrite Hm. simpl. destruct (a_malloc _ _ l) as [r l'] eqn:Hr. simpl in *.
  exists m, l'. split_and!; try done. destruct r as [p|].
  - apply a_malloc_Some in Hr as (l1 & t & l2 & s & r & -> & -> & -> & Hf & Hns & Hcase).
    apply Forall_app in Hok as [Hok1 [Hokt Hok2]%Forall_cons].
    eapply heap_rep_set; try done.
    + rewrite !span_app, !span_cons, !span_app. simpl.
      destruct Hcase as [[-> ->]|[-> Hcase]]; rewrite ?span_cons, ?span_nil; simpl; lia.
    + by destruct l1.
    + apply Forall_app. split; [done|]. unfold tile_ok, HDR in *.
      constructor; [simpl; lia|]. apply Forall_app. split; [|done].
      destruct Hcase as [[-> ->]|[-> Hcase]]; repeat constructor. simpl. lia.
  - apply a_malloc_None in Hr as [-> _]. by eapply heap_rep_set.
Qed.

Lemma a_coalesce_span rl sz l : span (a_coalesce rl sz l) = span (rev rl ++ Tile sz true :: l).
Proof.
  revert sz l. induction rl as [|[s []] rl IH]; intros sz l; simpl.
  - apply a_absorb_span.
  - rewrite IH, !span_app, !span_cons, a_absorb_span, !span_cons, span_nil. simpl. lia.
  - rewrite !span_app, a_absorb_span. done.
Qed.

Lemma a_coalesce_ok rl sz l :
  Forall tile_ok (rev rl ++ Tile sz true :: l) -> Forall tile_ok (a_coalesce rl sz l).
Proof.
  revert sz l. induction rl as [|[s []] rl IH]; intros sz l [H1 H2%a_absorb_ok]%Forall_app; simpl.
  - done.
  - apply IH. simpl in H1. apply Forall_app in H1 as [? H1]. apply Forall_app. split; [done|].
    constructor; [by inversion H1|done].
  - by apply Forall_app.
Qed.

Lemma a_coalesce_ne rl sz l : a_coalesce rl sz l <> [].
Proof.
  revert sz l. induction rl as [|[s []] rl IH]; intros sz l; simpl; [|done|].
  - by destruct l as [|[? []] ?].
  - intros [_ H]%app_nil. by destruct l as [|[? []] ?].
Qed.

(** [kfree] refines the merge of the tile with its free neighbours. *)
Lemma kfree_rep h l1 sz fr l2 :
  heap_rep h (l1 ++ Tile sz fr :: l2) ->
  exists m, kfree (Some (heap_start h + span l1 + HDR)) h = set_mem m h /\
    heap_rep (set_mem m h) (a_coalesce (rev l1) sz l2).
Proof.
  intros Hrep. pose proof Hrep as [Hh Hst He Hw Hne Hok Hseg].
  pose proof Hok as [Hok1 [Hokt Hok2]%Forall_cons]%Forall_app.
  pose proof (span_nonneg _ Hok1). pose proof (span_nonneg _ Hok2).
  rewrite span_app, span_cons in He. cbn [t_size] in *. unfold tile_ok, HDR in *. simpl in Hokt.
  set (p := heap_start h + span l1) in *.
  unfold kfree. replace (p + 20 - HDR) with p by (unfold HDR; lia).
  rewrite u32_small by (unfold is_u32; lia).
  pose proof Hseg as [Hs1 [Hp Hs2]]%seg_app. fold p in Hp, Hs2. cbn [t_size] in *.
  rewrite Hp. cbn [blk hb_magic]. rewrite Z.eqb_refl.
  assert (seg (alter (with_free true) p (h_mem h)) 0 (heap_start h)
           (rev (rev l1) ++ Tile sz true :: l2) 0) as Hseg'.
  { rewrite rev_involutive. apply seg_app. fold p. split.
    - eapply seg_frame; [done| |exact Hs1]. intros x Hx. apply lookup_alter_ne. lia.
    - split; [by rewrite lookup_alter_eq, Hp|]. cbn [t_size] in *.
      eapply seg_frame; [done| |exact Hs2]. intros x Hx. apply lookup_alter_ne.
      unfold HDR in *. lia. }
  assert (Forall tile_ok (rev (rev l1) ++ Tile sz true :: l2)) as Hok'.
  { rewrite rev_involutive. apply Forall_app. by repeat constructor. }
  destruct (coalesce_spec (walk_fuel h) (upd p (with_free true) h) _ _ _ _ Hseg' Hok')
    as (m & Hm & Hm'); [done| | |].
  - rewrite rev_involutive, span_app, span_cons. simpl. unfold HDR. lia.
  - rewrite length_rev. pose proof (rep_fuel _ _ Hrep) as Hf. rewrite length_app in Hf.
    simpl in Hf. lia.
  - rewrite rev_involutive in Hm. fold p in Hm. exists m. rewrite Hm. split; [done|].
    eapply heap_rep_set; try done.
    + rewrite a_coalesce_span, rev_involutive, !span_app, !span_cons. done.
    + apply a_coalesce_ne.
    + by apply a_coalesce_ok.
Qed.

(** ** Merged lists and live payloads *)

Lemma merged_cons t l :
  merged (t :: l) <-> (t_free t = true -> match l with u :: _ => t_free u = false | [] => True end)
                      /\ merged l.
Proof.
  destruct l as [|u l]; unfold merged; [tauto|]. fold merged.
  destruct (t_free t), (t_free u); intuition congruence.
Qed.

Lemma merged_app l1 t l2 : merged (l1 ++ t :: l2) <-> merged (l1 ++ [t]) /\ merged (t :: l2).
Proof.
  induction l1 as [|u l1 IH]; [by split; [intros; split|intros [_ ?]]|].
  cbn [app]. rewrite (merged_cons u (l1 ++ t :: l2)), (merged_cons u (l1 ++ [t])), IH.
  destruct l1; cbn [app]; tauto.
Qed.

Lemma merged_snoc l t u : (t_free u = true -> t_free t = true) ->
  merged (l ++ [t]) -> merged (l ++ [u]).
Proof.
  intros Hf. induction l as [|v l IH]; [done|]. cbn [app].
  intros [H1 H2%IH]%merged_cons. apply merged_cons. split; [|done]. destruct l as [|w l]; simpl in *; [|done].
  intros Hv%H1. destruct (t_free u); [by rewrite Hf in Hv|done].
Qed.

Lemma merged_absorb sz l : merged l -> merged (a_absorb sz l) .
Proof.
  destruct l as [|[s []] l]; simpl; intros H; [done| |]; apply merged_cons; [|by split].
  by apply merged_cons in H.
Qed.

Lemma merged_coalesce rl sz l :
  merged (rev rl ++ Tile sz false :: l) -> merged (a_coalesce rl sz l).
Proof.
  intros [H1 [_ H2]%merged_cons]%merged_app. apply (merged_absorb sz) in H2.
  destruct (a_absorb sz l) as [|u k] eqn:Hu; [by destruct l as [|[? []] ?]|].
  assert (t_free u = true) as Hfu by (destruct l as [|[? []] ?]; by simplify_eq/=).
  destruct rl as [|[s []] rl]; simpl in *; try rewrite Hu; [done| |].
  - rewrite <- app_assoc in H1. apply merged_app in H1 as [H1 _].
    destruct u as [su ?]. simpl in Hfu. subst. 
    apply merged_cons in H2 as [H2 H2'].
    assert (merged (Tile (s + HDR + su) true :: k)) as Hk by (by apply merged_cons).
    destruct rl as [|[s' []] rl]; simpl; [done| |].
    + simpl in H1. rewrite <- app_assoc in H1. apply merged_app in H1 as [_ H1].
      apply merged_cons in H1 as [H1 _]. by specialize (H1 eq_refl).
    + simpl in H1. apply merged_app. split; [|done]. by eapply merged_snoc; [|exact H1].
  - rewrite <- app_assoc in H1. apply merged_app in H1 as [H1 _]. rewrite <- app_assoc.
    apply merged_app. split; [done|]. apply merged_cons. by split.
Qed.

Lemma payloads_app a l1 l2 : payloads a (l1 ++ l2) = payloads a l1 ++ payloads (a + span l1) l2.
Proof.
  revert a. induction l1 as [|t l1 IH]; intros a; simpl; [by rewrite span_nil, Z.add_0_r|].
  rewrite IH, span_cons, app_assoc.
  by replace (a + HDR + t_size t + span l1) with (a + (HDR + t_size t + span l1)) by lia.
Qed.

Lemma payloads_absorb a sz l : payloads a (a_absorb sz l) = payloads (a + HDR + sz) l.
Proof.
  destruct l as [|[s []] l]; simpl; try done. f_equal. lia.
Qed.

Lemma payloads_coalesce a rl sz l :
  payloads a (a_coalesce rl sz l) = payloads a (rev rl) ++ payloads (a + span (rev rl) + HDR + sz) l.
Proof.
  revert sz l. induction rl as [|[s []] rl IH]; intros sz l; simpl.
  - rewrite span_nil, payloads_absorb. f_equal. lia.
  - rewrite IH, payloads_absorb, payloads_app, span_app, span_cons, span_nil. simpl.
    rewrite app_nil_r. do 2 f_equal. lia.
  - rewrite payloads_app, payloads_absorb. done.
Qed.

Lemma payloads_bounds a l p s :
  Forall tile_ok l -> (p, s) ∈ payloads a l -> a + HDR <= p /\ 0 <= s /\ p + s <= a + span l.
Proof.
  intros Hok. revert a. induction Hok as [|t l Ht Hl IH]; intros a; simpl;
    [by intros ?%not_elem_of_nil|].
  rewrite elem_of_app, span_cons. pose proof (span_nonneg _ Hl). unfold tile_ok, HDR in *.
  intros [H1|H1%IH]; [|lia]. destruct (t_free t); [by apply not_elem_of_nil in H1|].
  apply list_elem_of_singleton in H1. simplify_eq. lia.
Qed.

Lemma payloads_split a l p s :
  (p, s) ∈ payloads a l -> exists l1 l2, l = l1 ++ Tile s false :: l2 /\ p = a + span l1 + HDR.
Proof.
  revert a. induction l as [|t l IH]; intros a; simpl; [by intros ?%not_elem_of_nil|].
  rewrite elem_of_app. intros [H1|H1].
  - destruct t as [st []]; simpl in *; [by apply not_elem_of_nil in H1|].
    apply list_elem_of_singleton in H1. simplify_eq. exists [], l. rewrite span_nil.
    split; [done|lia].
  - destruct (IH _ H1) as (l1 & l2 & -> & ->). exists (t :: l1), l2.
    rewrite span_cons. split; [done|lia].
Qed.

(** Two live payloads never share a byte, nor does one reach into the other's header. *)
Lemma payloads_disjoint a l p s q r :
  Forall tile_ok l -> (p, s) ∈ payloads a l -> (q, r) ∈ payloads a l ->
  (p = q /\ s = r) \/ p + s <= q - HDR \/ q + r <= p - HDR.
Proof.
  intros Hok. revert a. induction Hok as [|t l Ht Hl IH]; intros a; simpl;
    [by intros ?%not_elem_of_nil|].
  rewrite !elem_of_app. unfold tile_ok in *.
  assert (forall x, x ∈ (if t_free t then [] else [(a + HDR, t_size t)]) ->
            x = (a + HDR, t_size t)) as Hx.
  { intros x. destruct (t_free t); [by intros ?%not_elem_of_nil|].
    by intros ?%list_elem_of_singleton. }
  intros [H1%Hx|H1] [H2%Hx|H2]; simplify_eq; [by left| | |by eapply IH].
  - apply payloads_bounds in H2; [|done]. right; left. lia.
  - apply payloads_bounds in H1; [|done]. right; right. lia.
Qed.

(** ** The allocator's contract

    [L] maps each live pointer to the number of bytes its owner asked for. *)
Definition live_ok (h : heap) (L : gmap Z Z) : Prop :=
  exists l, heap_rep h l /\ merged l /\
    (forall p, is_Some (L !! p) <-> exists s, (p, s) ∈ payloads (heap_start h) l) /\
    (forall p n s, L !! p = Some n -> (p, s) ∈ payloads (heap_start h) l -> n <= s).

(** The calls a well-behaved kernel makes: it frees and resizes only what it holds. *)
Inductive heap_step : heap * gmap Z Z -> heap * gmap Z Z -> Prop :=
  | step_kmalloc h L n p h' :
      0 < n <= 2 ^ 32 - 8 -> kmalloc n h = (Some p, h') -> heap_step (h, L) (h', <[p := n]> L)
  | step_kmalloc_fail h L n h' :
      0 < n <= 2 ^ 32 - 8 -> kmalloc n h = (None, h') -> heap_step (h, L) (h', L)
  | step_kfree h L p n :
      L !! p = Some n -> heap_step (h, L) (kfree (Some p) h, delete p L)
  | step_krealloc h L p n n' q h' :
      L !! p = Some n -> 0 < n' <= 2 ^ 32 - 8 -> krealloc (Some p) n' h = (Some q, h') ->
      heap_step (h, L) (h', <[q := n']> (delete p L))
  | step_krealloc_fail h L p n n' h' :
      L !! p = Some n -> 0 < n' <= 2 ^ 32 - 8 -> krealloc (Some p) n' h = (None, h') ->
      heap_step (h, L) (h', L).

Lemma heap_init_rep k :
  0 < k -> k + 4095 + HEAP_SIZE < 2 ^ 32 ->
  heap_rep (heap_init k) [Tile (HEAP_SIZE - HDR) true].
Proof.
  intros Hk Hw. unfold HEAP_SIZE in *.
  pose proof (ALIGN_UP_spec k 12) as Ha. change (2 ^ 12) with 4096 in Ha.
  pose proof (Z.div_mod (k + 4095) 4096). pose proof (Z.mod_pos_bound (k + 4095) 4096).
  unfold heap_init. rewrite Ha by lia. change (k + (4096 - 1)) with (k + 4095).
  assert (1 <= (k + 4095) / 4096) by (apply Z.div_le_lower_bound; lia).
  constructor; cbn [heap_head heap_start heap_end h_mem]; rewrite ?span_cons, ?span_nil; simpl.
  - done.
  - lia.
  - unfold HEAP_SIZE, HDR. rewrite u32_small by (unfold is_u32; lia). lia.
  - unfold HEAP_SIZE. rewrite u32_small by (unfold is_u32; lia). lia.
  - done.
  - repeat constructor. unfold tile_ok, HEAP_SIZE, HDR. simpl. lia.
  - by rewrite lookup_singleton_eq.
Qed.

Lemma heap_init_live k :
  0 < k -> k + 4095 + HEAP_SIZE < 2 ^ 32 -> live_ok (heap_init k) ∅.
Proof.
  intros. exists [Tile (HEAP_SIZE - HDR) true]. split_and!; [by apply heap_init_rep|done| |].
  - intros p. rewrite lookup_empty. split; [by intros [? ?]|]. by intros [s ?%not_elem_of_nil].
  - intros p n s. by rewrite lookup_empty.
Qed.

Lemma a_malloc_merged a n l p l' : a_malloc a n l = (Some p, l') -> merged l -> merged l'.
Proof.
  intros (l1 & t & l2 & s & r & -> & -> & _ & Hf & _ & Hr)%a_malloc_Some [H1 H2]%merged_app.
  apply merged_app. split; [by apply (merged_snoc _ t)|].
  apply merged_cons. split; [done|].
  destruct Hr as [[-> _]|[-> _]]; simpl; apply merged_cons in H2 as [H2 ?]; [done|].
  apply merged_cons. split; [|done].
  intros _. by apply H2.
Qed.

Lemma a_malloc_payloads a n l p l' : a_malloc a n l = (Some p, l') ->
  exists s, n <= s /\ forall x, x ∈ payloads a l' <-> x = (p, s) \/ x ∈ payloads a l.
Proof.
  intros (l1 & t & l2 & s & r & -> & -> & -> & Hf & Hn & Hr)%a_malloc_Some.
  exists s. split; [done|]. intros x. rewrite !payloads_app. cbn [payloads t_free t_size].
  rewrite Hf. rewrite payloads_app.
  assert (payloads (a + span l1 + HDR + s) r = [] /\
          a + span l1 + HDR + s + span r = a + span l1 + HDR + t_size t) as [-> ->].
  { destruct Hr as [[-> ->]|[-> _]]; rewrite ?span_cons, span_nil; simpl; split; try done; lia. }
  cbn [app]. rewrite !elem_of_app, elem_of_cons. tauto.
Qed.

Lemma kmalloc_live h L n :
  live_ok h L -> 0 < n <= 2 ^ 32 - 8 ->
  match kmalloc n h with
  | (Some p, h') => L !! p = None /\ live_ok h' (<[p := n]> L) /\ heap_start h' = heap_start h
  | (None, h') => live_ok h' L
  end.
Proof.
  intros (l & Hrep & Hm & HL & Hn) Hr.
  destruct (kmalloc_rep h l n Hrep Hr) as (m & l' & Ha & Hs & Hrep').
  destruct (kmalloc n h) as [[p|] h']; simpl in *; subst h'.
  - destruct (a_malloc_payloads _ _ _ _ _ Ha) as (s & Hns & Hp).
    assert (L !! p = None) as Hfree.
    { apply eq_None_not_Some. intros [s' Hs']%HL.
      apply a_malloc_Some in Ha as (l1 & t & l2 & ? & r & -> & -> & -> & Hf & _ & _).
      pose proof (rep_ok _ _ Hrep) as [Hok1 [Ht Hok2]%Forall_cons]%Forall_app.
      rewrite payloads_app, elem_of_app in Hs'. simpl in Hs'. rewrite Hf in Hs'.
      unfold tile_ok, HDR in *.
      destruct Hs' as [?%payloads_bounds|?%payloads_bounds]; unfold HDR in *; (done || lia). }
    split_and!; [done| |done]. exists l'. split_and!; [done|by eapply a_malloc_merged| |].
    + intros q. rewrite lookup_insert_is_Some', HL. simpl. split.
      * intros [->|[s' ?]]; [exists s|exists s']; apply Hp; auto.
      * intros [s' [?|?]%Hp]; [left; by simplify_eq|right; eauto].
    + intros q n' s' Hq [Heq|Hin]%Hp.
      * injection Heq as -> ->. rewrite lookup_insert_eq in Hq. injection Hq as <-.
        pose proof (align8_spec n). lia.
      * destruct (decide (p = q)) as [->|]; [|simplify_map_eq; eauto].
        assert (is_Some (L !! q)) as [? ?] by (apply HL; eauto). simplify_map_eq.
  - apply a_malloc_None in Ha as [-> _]. exists l. done.
Qed.

Lemma kfree_live h L p n :
  live_ok h L -> L !! p = Some n -> live_ok (kfree (Some p) h) (delete p L).
Proof.
  intros (l & Hrep & Hm & HL & Hn) Hp.
  assert (is_Some (L !! p)) as [s Hs]%HL by (rewrite Hp; eauto).
  destruct (payloads_split _ _ _ _ Hs) as (l1 & l2 & -> & ->).
  destruct (kfree_rep h l1 s false l2 Hrep) as (m & -> & Hrep').
  assert (forall x, x ∈ payloads (heap_start h) (a_coalesce (rev l1) s l2) <->
    fst x <> heap_start h + span l1 + HDR /\
    x ∈ payloads (heap_start h) (l1 ++ Tile s false :: l2)) as Hpay.
  { intros [q r]. rewrite payloads_coalesce, rev_involutive, payloads_app.
    pose proof (rep_ok _ _ Hrep) as [Hok1 [Ht Hok2]%Forall_cons]%Forall_app.
    unfold tile_ok, HDR in *. simpl in *. rewrite !elem_of_app, elem_of_cons.
    split; [intros [Hq|Hq]|intros [? [?|[?|?]]]; simplify_eq/=; auto].
    - pose proof (payloads_bounds _ _ _ _ Hok1 Hq). unfold HDR in *. split; [lia|auto].
    - pose proof (payloads_bounds _ _ _ _ Hok2 Hq). unfold HDR in *. split; [lia|auto]. }
  exists (a_coalesce (rev l1) s l2). split_and!; [done| | |].
  - apply merged_coalesce. by rewrite rev_involutive.
  - intros q. rewrite lookup_delete_is_Some, HL. simpl. split.
    + intros [Hne [s' ?]]. exists s'. apply Hpay. auto.
    + intros [s' [? ?]%Hpay]. simpl in *. eauto.
  - intros q n' s' [_ Hq]%lookup_delete_Some [_ Hin]%Hpay. eauto.
Qed.

(** The block a live pointer belongs to, as [krealloc] reads it. *)
Lemma live_block h L p n :
  live_ok h L -> L !! p = Some n ->
  exists b, h_mem h !! u32 (p - HDR) = Some b /\ n <= hb_size b.
Proof.
  intros (l & Hrep & Hm & HL & Hn) Hp.
  assert (is_Some (L !! p)) as [s Hs]%HL by (rewrite Hp; eauto).
  specialize (Hn _ _ _ Hp Hs). pose proof (payloads_bounds _ _ _ _ (rep_ok _ _ Hrep) Hs).
  destruct (payloads_split _ _ _ _ Hs) as (l1 & l2 & -> & ->).
  destruct Hrep as [_ Hst He Hw _ Hok [_ [Hb _]]%seg_app].
  unfold HDR in *. rewrite u32_small by (unfold is_u32; lia).
  replace (heap_start h + span l1 + 20 - 20) with (heap_start h + span l1) by lia.
  eexists. by split.
Qed.

(** Asking for a smaller or larger number of bytes within the same block. *)
Lemma live_ok_resize h L p n n' b :
  live_ok h L -> L !! p = Some n -> h_mem h !! u32 (p - HDR) = Some b -> n' <= hb_size b ->
  live_ok h (<[p := n']> (delete p L)).
Proof.
  intros (l & Hrep & Hm & HL & Hn) Hp Hb Hn'. rewrite insert_delete_eq.
  exists l. split_and!; try done.
  - intros q. rewrite <- HL, lookup_insert_is_Some'. split; [intros [->|]; eauto|by right].
  - intros q k s Hq Hs. destruct (decide (p = q)) as [<-|]; [|simplify_map_eq; eauto].
    rewrite lookup_insert_eq in Hq. injection Hq as <-.
    pose proof (payloads_bounds _ _ _ _ (rep_ok _ _ Hrep) Hs).
    destruct (payloads_split _ _ _ _ Hs) as (l1 & l2 & -> & ->).
    destruct Hrep as [_ Hst He Hw _ Hok [_ [Hb' _]]%seg_app].
    unfold HDR in *. rewrite u32_small in Hb by (unfold is_u32; lia).
    replace (heap_start h + span l1 + 20 - 20) with (heap_start h + span l1) in Hb by lia.
    rewrite Hb' in Hb. injection Hb as <-. done.
Qed.

Lemma heap_step_live s s' : heap_step s s' -> live_ok (fst s) (snd s) -> live_ok (fst s') (snd s').
Proof.
  intros Hstep HL. destruct Hstep as [h L n p h' Hn Hk|h L n h' Hn Hk|h L p n Hp
    |h L p n n' q h' Hp Hn Hk|h L p n n' h' Hp Hn Hk]; simpl in *.
  - pose proof (kmalloc_live h L n HL Hn) as H. rewrite Hk in H. apply H.
  - pose proof (kmalloc_live h L n HL Hn) as H. rewrite Hk in H. apply H.
  - by eapply kfree_live.
  - destruct (live_block _ _ _ _ HL Hp) as (b & Hb & Hsz).
    unfold krealloc in Hk. rewrite Hb in Hk.
    destruct (Z.eqb_spec n' 0) as [|_]; [lia|].
    destruct (Z.leb_spec n' (hb_size b)) as [Hle|Hgt].
    + simplify_eq. by eapply live_ok_resize.
    + pose proof (kmalloc_live h L n' HL Hn) as H. destruct (kmalloc n' h) as [[r|] h1]; [|done].
      injection Hk as -> <-. destruct H as (Hq & H & _).
      rewrite insert_delete_ne by (intros ->; congruence).
      eapply kfree_live; [done|]. rewrite lookup_insert_ne by (intros ->; congruence). done.
  - destruct (live_block _ _ _ _ HL Hp) as (b & Hb & Hsz).
    unfold krealloc in Hk. rewrite Hb in Hk.
    destruct (Z.eqb_spec n' 0) as [|_]; [lia|].
    destruct (Z.leb_spec n' (hb_size b)) as [Hle|Hgt]; [done|].
    pose proof (kmalloc_live h L n' HL Hn) as H. destruct (kmalloc n' h) as [[r|] h1]; [done|].
    by injection Hk as <-.
Qed.

Lemma heap_trace_live k s :
  0 < k -> k + 4095 + HEAP_SIZE < 2 ^ 32 -> rtc heap_step (heap_init k, ∅) s ->
  live_ok (fst s) (snd s).
Proof.
  intros Hk Hw Htr. pose proof (heap_init_live k Hk Hw) as H0.
  change (live_ok (fst (heap_init k, (∅ : gmap Z Z))) (snd (heap_init k, (∅ : gmap Z Z)))) in H0.
  revert H0. induction Htr as [|s1 s2 s3 H1 H2 IH]; [done|].
  intros HL. apply IH. by eapply heap_step_live.
Qed.

(** The bytes [heap_free_bytes] adds up. *)
Definition free_sizes (l : list tile) : Z :=
  foldr (fun t acc => (if t_free t then t_size t else 0) + acc) 0 l.

Lemma free_sizes_span l : Forall tile_ok l -> 0 <= free_sizes l <= span l.
Proof.
  unfold tile_ok. induction 1 as [|t l Ht Hl IH]; [done|]. rewrite span_cons. unfold HDR.
  simpl. destruct (t_free t); lia.
Qed.

Lemma free_walk_spec fuel h pv a l tot :
  seg (h_mem h) pv a l 0 -> Forall tile_ok l -> 16 <= a -> a + span l < 2 ^ 32 ->
  (length l < fuel)%nat -> 0 <= tot -> tot + span l < 2 ^ 32 ->
  free_walk fuel (hd_addr a l 0) tot h = tot + free_sizes l.
Proof.
  revert fuel pv a tot. induction l as [|t l IH]; intros [|fuel] pv a tot Hs Hok Ha Hw Hf Ht Htw;
    simpl in Hf; try lia; cbn [free_walk hd_addr]; [simpl; lia|].
  change (free_sizes (t :: l)) with ((if t_free t then t_size t else 0) + free_sizes l).
  case (Z.eqb_spec a 0) as [|_]; [lia|]. destruct Hs as [Hb Hs]. rewrite Hb.
  apply Forall_cons in Hok as [Hokt Hok]. rewrite span_cons in *.
  pose proof (span_nonneg _ Hok). unfold tile_ok, HDR in *. cbn [blk hb_next hb_free hb_size].
  destruct (t_free t).
  - rewrite u32_small by (unfold is_u32; lia). erewrite IH; try done; try lia.
  - erewrite IH; try done; try lia.
Qed.

Lemma heap_free_bytes_rep h l : heap_rep h l -> heap_free_bytes h = free_sizes l.
Proof.
  intros Hrep. pose proof (rep_fuel _ _ Hrep). destruct Hrep as [Hh Hst He Hw Hne Hok Hs].
  unfold heap_free_bytes. rewrite Hh.
  replace (heap_start h) with (hd_addr (heap_start h) l 0) by (by destruct l).
  erewrite free_walk_spec; try done; lia.
Qed.

(** ** Properties *)


(** Once everything has been freed the heap is one block again:
    the number of free bytes is what it was at start, whatever the history. *)
Theorem heap_no_leak k h :
  0 < k -> k + 4095 + HEAP_SIZE < 2 ^ 32 -> rtc heap_step (heap_init k, ∅) (h, ∅) ->
  heap_free_bytes h = heap_end h - heap_start h - HDR.
Proof.
  intros Hk Hw Htr.
  destruct (heap_trace_live _ _ Hk Hw Htr) as (l & Hrep & Hm & HL & _). simpl in *.
  assert (forall x, x ∉ payloads (heap_start h) l) as Hnone.
  { intros [p s] Hs. assert (is_Some ((∅ : gmap Z Z) !! p)) as [? H] by (apply HL; eauto).
    by rewrite lookup_empty in H. }
  rewrite (heap_free_bytes_rep _ _ Hrep), (rep_end _ _ Hrep).
  destruct l as [|[s []] [|[r []] l]]; rewrite ?span_cons, ?span_nil; simpl.
  - by destruct (rep_ne _ _ Hrep).
  - lia.
  - apply merged_cons in Hm as [Hm _]. by specialize (Hm eq_refl).
  - edestruct Hnone. simpl. left.
  - edestruct Hnone. simpl. left.
  - edestruct Hnone. simpl. left.
  - edestruct Hnone. simpl. left.
Qed.

(** [kfree] undoes [kmalloc]: it restores the exact sequence of
    blocks, including the one that was split. *)
Theorem kmalloc_kfree_restores h l n p h' :
  heap_rep h l -> merged l -> 0 < n <= 2 ^ 32 - 8 -> kmalloc n h = (Some p, h') ->
  heap_rep (kfree (Some p) h') l.
Proof.
  intros Hrep Hm Hn Hk. destruct (kmalloc_rep h l n Hrep Hn) as (m & l' & Ha & Hs & Hrep').
  rewrite Hk in Ha, Hs. cbn [fst snd] in Ha, Hs. subst h'.
  apply a_malloc_Some in Ha as (l1 & [st ft] & l2 & s & r & -> & -> & -> & Hf & Hns & Hr).
  cbn [t_free t_size] in *. subst ft.
  destruct (kfree_rep _ _ _ _ _ Hrep') as (m' & Hm' & Hres). cbn [set_mem heap_start] in Hm'.
  rewrite Hm'. replace (l1 ++ Tile st true :: l2) with (a_coalesce (rev l1) s (r ++ l2)); [done|].
  apply merged_app in Hm as [Hm1 [Hm2 _]%merged_cons]. specialize (Hm2 eq_refl).
  assert (a_absorb s (r ++ l2) = Tile st true :: l2) as Habs.
  { destruct Hr as [[-> ->]|[-> Hr]]; simpl.
    - destruct l2 as [|[? []] ?]; by simplify_eq/=.
    - repeat f_equal. lia. }
  destruct l1 as [|[u fu] l1 _] using rev_ind; [done|].
  rewrite rev_app_distr. destruct fu; simpl.
  - rewrite <- app_assoc in Hm1. apply merged_app in Hm1 as [_ [Hm1 _]%merged_cons].
    by specialize (Hm1 eq_refl).
  - by rewrite rev_involutive, Habs.
Qed.

(** [kmalloc] returns NULL only when no free block is large enough
    for the rounded size, and then leaves the heap as it was. *)
Theorem kmalloc_null h l n h' :
  heap_rep h l -> 0 < n <= 2 ^ 32 - 8 -> kmalloc n h = (None, h') ->
  heap_rep h' l /\ Forall (fun t => t_free t = true -> t_size t < align8 n) l.
Proof.
  intros Hrep Hn Hk. destruct (kmalloc_rep h l n Hrep Hn) as (m & l' & Ha & Hs & Hrep').
  rewrite Hk in Ha, Hs. cbn [fst snd] in Ha, Hs. subst h'.
  by apply a_malloc_None in Ha as [-> ?].
Qed.

(** The size round-up of [kmalloc] wraps: a request of 2^32 - 1
    bytes is granted with a block of zero bytes. *)
Theorem kmalloc_wraps : exists p h b,
  kmalloc (2 ^ 32 - 1) (heap_init 0x100000) = (Some p, h) /\
  h_mem h !! (p - HDR) = Some b /\ hb_free b = false /\ hb_size b = 0.
Proof. eexists _, _, _. repeat split; vm_compute; reflexivity. Qed.

(** ** Witnesses: a kernel that ends at 1 MiB *)

Definition demo_h0 : heap := heap_init 0x100000.
Definition demo_h1 : heap := snd (kmalloc 10 demo_h0).
Definition demo_h2 : heap := snd (kmalloc 100 demo_h1).


Lemma heap_no_leak_witness :
  heap_free_bytes (kfree (Some 0x100014) demo_h1) = HEAP_SIZE - HDR.
Proof.
  apply (heap_no_leak 0x100000); [lia|unfold HEAP_SIZE; lia|].
  eapply rtc_l; [apply (step_kmalloc demo_h0 ∅ 10 0x100014 demo_h1); [lia|vm_compute; reflexivity]|].
  eapply rtc_l; [apply (step_kfree demo_h1 _ 0x100014 10); reflexivity|].
  apply rtc_refl.
Defined.

Lemma kmalloc_kfree_restores_witness :
  heap_rep (kfree (Some 0x100014) demo_h1) [Tile (HEAP_SIZE - HDR) true].
Proof.
  apply (kmalloc_kfree_restores demo_h0 _ 10); [|exact I|lia|vm_compute; reflexivity].
  apply heap_init_rep; unfold HEAP_SIZE; lia.
Defined.

Lemma kmalloc_null_witness :
  heap_rep demo_h0 [Tile (HEAP_SIZE - HDR) true] /\
  Forall (fun t => t_free t = true -> t_size t < align8 HEAP_SIZE) [Tile (HEAP_SIZE - HDR) true].
Proof.
  apply (kmalloc_null demo_h0 _ HEAP_SIZE); [|unfold HEAP_SIZE; lia|vm_compute; reflexivity].
  apply heap_init_rep; unfold HEAP_SIZE; lia.
Defined.
