(* ===== verification/Time.v ===== *)
(** * Calendar and real-time clock (kernel/time.c, shell/builtins.c)

    [time_now] reads the CMOS clock and turns civil time into seconds since
    1970; [unix_to_civil] of the shell's [stat] turns them back, and
    [format_epoch] prints them.  The specification is the Gregorian calendar
    given by leap years, month lengths and the successor of a date: the
    theorems show that [days_from_civil] counts days along that successor from
    1970-01-01, and that the two conversions are inverse to each other. *)

From S2P Require Import Prelude.

#[local] Ltac Zify.zify_post_hook ::= Z.to_euclidean_division_equations.

(** ** kernel/time.c *)

(** [cmos reg] is the byte [cmos_read(reg)] returns (ports 0x70/0x71). *)
Definition bcd_to_bin (v : Z) : Z := Z.shiftr v 4 * 10 + Z.land v 0x0F.

Definition days_from_civil (y m d : Z) : Z :=
  let y := s32 (y - (if m <=? 2 then 1 else 0)) in
  let era := Z.quot (if 0 <=? y then y else s32 (y - 399)) 400 in
  let yoe := u32 (y - era * 400) in
  let doy := u32 (u32 (153 * u32 (m + (if 2 <? m then -3 else 9)) + 2) / 5 + d - 1) in
  let doe := u32 (yoe * 365 + yoe / 4 - yoe / 100 + doy) in
  s32 (era * 146097 + s32 doe - 719468).

Definition time_now (cmos : Z -> Z) : Z :=
  let status_b := cmos 0x0B in
  let binary := negb (Z.land status_b 0x04 =? 0) in
  let conv v := if binary then v else bcd_to_bin v in
  let sec := conv (cmos 0x00) in let min := conv (cmos 0x02) in
  let hour := conv (cmos 0x04) in let day := conv (cmos 0x07) in
  let mon := conv (cmos 0x08) in let year := conv (cmos 0x09) in
  let full_year := 2000 + year in
  let days := days_from_civil full_year mon day in
  u32 (u32 days * 86400 + hour * 3600 + min * 60 + sec).

(** ** shell/builtins.c *)

Record civil := Civil { c_year : Z; c_mon : Z; c_day : Z; c_hour : Z; c_min : Z; c_sec : Z }.

Definition unix_to_civil (epoch : Z) : civil :=
  let days := epoch / 86400 in
  let rem := epoch mod 86400 in
  let hour := rem / 3600 in
  let rem := rem mod 3600 in
  let min := rem / 60 in
  let sec := rem mod 60 in
  let z := u32 (days + 719468) in
  let era := z / 146097 in
  let doe := u32 (z - u32 (era * 146097)) in
  let yoe := u32 (doe - doe / 1460 + doe / 36524 - doe / 146096) / 365 in
  let doy := u32 (doe - u32 (u32 (365 * yoe) + yoe / 4 - yoe / 100)) in
  let mp := u32 (5 * doy + 2) / 153 in
  let day := u32 (doy - u32 (153 * mp + 2) / 5 + 1) in
  let mon := u32 (mp + (if mp <? 10 then 3 else u32 (-9))) in
  let year := u32 (u32 (era * 400) + yoe + (if mon <=? 2 then 1 else 0)) in
  Civil year mon day hour min sec.

(** Characters are bytes: ['0'] is 48, ['-'] 45, [' '] 32, [':'] 58. *)
Definition put2 (v : Z) : list Z := [48 + (v / 10) mod 10; 48 + v mod 10].
Definition put4 (v : Z) : list Z :=
  [48 + (v / 1000) mod 10; 48 + (v / 100) mod 10; 48 + (v / 10) mod 10; 48 + v mod 10].

(** [format_epoch]: the bytes it stores from [buf[0]], NUL included. *)
Definition format_epoch (epoch buf_size : Z) : list Z :=
  if buf_size <? 20 then (if buf_size =? 0 then [] else [0]) else
  if epoch =? 0 then [45; 0] else
  let c := unix_to_civil epoch in
  put4 (c_year c) ++ [45] ++ put2 (c_mon c) ++ [45] ++ put2 (c_day c) ++ [32] ++
  put2 (c_hour c) ++ [58] ++ put2 (c_min c) ++ [58] ++ put2 (c_sec c) ++ [0].

(** ** The Gregorian calendar *)

Definition leap (y : Z) : bool :=
  (y mod 4 =? 0) && (negb (y mod 100 =? 0) || (y mod 400 =? 0)).

Definition month_days (y m : Z) : Z :=
  if m =? 2 then (if leap y then 29 else 28)
  else if (m =? 4) || (m =? 6) || (m =? 9) || (m =? 11) then 30 else 31.

Definition date_ok (y m d : Z) : Prop :=
  0 < y < 1000000 /\ 1 <= m <= 12 /\ 1 <= d <= month_days y m.

Definition next_day (y m d : Z) : Z * Z * Z :=
  if d <? month_days y m then (y, m, d + 1)
  else if m <? 12 then (y, m + 1, 1) else (y + 1, 1, 1).

(** Closed form of [days_from_civil] on dates of our era. *)
Definition day_number (y m d : Z) : Z :=
  let y' := if m <=? 2 then y - 1 else y in
  let m' := if m <=? 2 then m + 9 else m - 3 in
  365 * y' + y' / 4 - y' / 100 + y' / 400 + (153 * m' + 2) / 5 + d - 1 - 719468.

Ltac by_month m Hm :=
  assert (m = 1 \/ m = 2 \/ m = 3 \/ m = 4 \/ m = 5 \/ m = 6 \/ m = 7 \/ m = 8 \/ m = 9 \/
    m = 10 \/ m = 11 \/ m = 12) as Hm' by lia;
  clear Hm; destruct_or! Hm'; subst m.

Lemma month_days_bound y m : 28 <= month_days y m <= 31.
Proof. unfold month_days. repeat case_match; lia. Qed.

Lemma day_number_eq y m d : date_ok y m d -> days_from_civil y m d = day_number y m d.
Proof.
  intros (Hy & Hm & Hd). assert (1 <= d <= 31) as Hd' by (pose proof (month_days_bound y m); lia).
  unfold days_from_civil, day_number.
  set (y' := if m <=? 2 then y - 1 else y).
  set (m' := if m <=? 2 then m + 9 else m - 3).
  assert (0 <= y' < 1000000) by (unfold y'; case_match; lia).
  assert (0 <= m' <= 11) by (unfold m'; case (Z.leb_spec m 2); lia).
  replace (y - (if m <=? 2 then 1 else 0)) with y' by (unfold y'; case_match; lia).
  rewrite (s32_small y') by lia.
  replace (m + (if 2 <? m then -3 else 9)) with m'
    by (unfold m'; case (Z.leb_spec m 2), (Z.ltb_spec 2 m); lia).
  rewrite (u32_small m') by (unfold is_u32; lia).
  case (Z.leb_spec 0 y') as [_|]; [|lia]. rewrite Z.quot_div_nonneg by lia.
  rewrite (u32_small (153 * m' + 2)) by (unfold is_u32; lia).
  clearbody y' m'. clear y m Hy Hm Hd.
  assert (0 <= y' - y' / 400 * 400 < 400) by lia.
  rewrite (u32_small (y' - y' / 400 * 400)) by (unfold is_u32; lia).
  set (yoe := y' - y' / 400 * 400) in *.
  rewrite (u32_small ((153 * m' + 2) / 5 + d - 1)) by (unfold is_u32; lia).
  rewrite (u32_small (yoe * 365 + yoe / 4 - yoe / 100 + _)) by (unfold is_u32; lia).
  rewrite (s32_small (yoe * 365 + _ - _ + _)) by lia.
  rewrite s32_small by lia. unfold yoe. lia.
Qed.

Lemma next_day_ok y m d y' m' d' :
  date_ok y m d -> y < 999999 -> next_day y m d = (y', m', d') -> date_ok y' m' d'.
Proof.
  intros (Hy & Hm & Hd) Hy' H. unfold next_day in H.
  pose proof (month_days_bound y (m + 1)). pose proof (month_days_bound (y + 1) 1).
  destruct (Z.ltb_spec d (month_days y m)); [|destruct (Z.ltb_spec m 12)];
    injection H as <- <- <-; split_and!; lia.
Qed.

Lemma day_number_next y m d y' m' d' :
  date_ok y m d -> next_day y m d = (y', m', d') -> day_number y' m' d' = day_number y m d + 1.
Proof.
  intros (Hy & Hm & Hd) H. unfold next_day in H.
  destruct (Z.ltb_spec d (month_days y m)); [injection H as <- <- <-; unfold day_number; lia|].
  assert (d = month_days y m) as -> by lia. clear Hd.
  unfold month_days, leap in *.
  by_month m Hm; simpl in *; injection H as <- <- <-; unfold day_number; simpl; try lia.
  destruct (Z.eqb_spec (y mod 4) 0), (Z.eqb_spec (y mod 100) 0), (Z.eqb_spec (y mod 400) 0);
    simpl; lia.
Qed.

(** ** From days back to dates *)

(** The year-of-era estimate of [unix_to_civil] is exact. *)
Lemma yoe_exact yoe doy doe :
  0 <= yoe < 400 -> 0 <= doy <= 365 -> (doy = 365 -> leap (yoe + 1) = true) ->
  doe = 365 * yoe + yoe / 4 - yoe / 100 + doy ->
  0 <= doe <= 146096 /\ (doe - doe / 1460 + doe / 36524 - doe / 146096) / 365 = yoe.
Proof.
  intros Hy Hd Hl ->.
  assert (doy <= 364 \/ doy = 365 /\ (yoe + 1) mod 4 = 0 /\
    ((yoe + 1) mod 100 <> 0 \/ (yoe + 1) mod 400 = 0)) as Hl'.
  { destruct (Z.eq_dec doy 365) as [e|]; [right|left; lia]. specialize (Hl e). unfold leap in Hl.
    destruct (Z.eqb_spec ((yoe + 1) mod 4) 0), (Z.eqb_spec ((yoe + 1) mod 100) 0),
      (Z.eqb_spec ((yoe + 1) mod 400) 0); simpl in Hl; try done; lia. }
  clear Hl.
  assert (exists c q r, yoe = 100 * c + 4 * q + r /\ 0 <= c <= 3 /\ 0 <= q <= 24 /\ 0 <= r <= 3)
    as (c & q & r & Hyoe & Hc & Hq & Hr).
  { exists (yoe / 100), (yoe mod 100 / 4), (yoe mod 4). lia. }
  assert (yoe / 4 = 25 * c + q) as -> by lia.
  assert (yoe / 100 = c) as -> by lia.
  split; [lia|].
  assert (c = 0 \/ c = 1 \/ c = 2 \/ c = 3) as Hc' by lia.
  destruct_or! Hc'; subst c; destruct_or! Hl'; lia.
Qed.

(** A date split the way the algorithm does: era, year of era, month from March. *)
Lemma date_shape y m d :
  date_ok y m d ->
  exists era yoe mp,
    day_number y m d = era * 146097 + (365 * yoe + yoe / 4 - yoe / 100)
                       + ((153 * mp + 2) / 5 + d - 1) - 719468 /\
    0 <= era < 2500 /\ 0 <= yoe < 400 /\ 0 <= mp <= 11 /\
    m = (if mp <? 10 then mp + 3 else mp - 9) /\
    y = era * 400 + yoe + (if m <=? 2 then 1 else 0) /\
    1 <= d /\ (153 * mp + 2) / 5 + d - 1 < (153 * (mp + 1) + 2) / 5 /\
    0 <= (153 * mp + 2) / 5 + d - 1 <= 365 /\
    ((153 * mp + 2) / 5 + d - 1 = 365 -> leap (yoe + 1) = true).
Proof.
  intros (Hy & Hm & Hd).
  set (y' := if m <=? 2 then y - 1 else y). set (mp := if m <=? 2 then m + 9 else m - 3).
  assert (0 <= mp <= 11) by (unfold mp; case (Z.leb_spec m 2); lia).
  assert (0 <= y' < 1000000) by (unfold y'; case_match; lia).
  exists (y' / 400), (y' mod 400), mp.
  assert (day_number y m d = y' / 400 * 146097 + (365 * (y' mod 400) + y' mod 400 / 4
            - y' mod 400 / 100) + ((153 * mp + 2) / 5 + d - 1) - 719468) as ->.
  { unfold day_number. fold y' mp. lia. }
  split_and!; try lia.
  - unfold mp. case (Z.leb_spec m 2); intros; case_match; lia.
  - unfold y'. case_match; lia.
  - unfold mp, month_days, leap in *.
    by_month m Hm; simpl in *; repeat case_match; lia.
  - unfold mp, month_days, leap in *. by_month m Hm; simpl in *; repeat case_match; lia.
  - intros H365. assert (m = 2) as ->.
    { unfold mp, month_days in Hd, H365. destruct (Z.leb_spec m 2); repeat case_match; lia. }
    unfold mp, month_days in *. simpl in *. destruct (leap y) eqn:Hl; [|lia].
    unfold y', leap in *. simpl.
    destruct (Z.eqb_spec (y mod 4) 0); [|done]. simpl in Hl.
    rewrite (proj2 (Z.eqb_eq _ 0)) by lia. simpl.
    destruct (Z.eqb_spec (y mod 100) 0); simpl in Hl.
    + apply Z.eqb_eq in Hl. rewrite (proj2 (Z.eqb_eq (_ mod 400) 0)) by lia. apply orb_true_r.
    + rewrite (proj2 (Z.eqb_neq (_ mod 100) 0)) by lia. done.
Qed.

Lemma unix_to_civil_day y m d t :
  date_ok y m d -> 0 <= t < 86400 -> is_u32 (day_number y m d * 86400 + t) ->
  unix_to_civil (day_number y m d * 86400 + t) =
  Civil y m d (t / 3600) (t mod 3600 / 60) (t mod 60).
Proof.
  intros Hdate Ht Hw.
  destruct (date_shape _ _ _ Hdate)
    as (era & yoe & mp & Hn & Hera & Hyoe & Hmp & Hm & Hy & Hd & Hdn & Hdoy & Hleap).
  unfold is_u32 in Hw. rewrite Hn in *. clear Hn Hdate.
  set (doy := (153 * mp + 2) / 5 + d - 1) in *.
  destruct (yoe_exact yoe doy _ Hyoe Hdoy Hleap eq_refl) as [Hdoe Hest]. clear Hleap.
  set (doe := 365 * yoe + yoe / 4 - yoe / 100 + doy) in *.
  replace (era * 146097 + (365 * yoe + yoe / 4 - yoe / 100) + doy - 719468)
    with (era * 146097 + doe - 719468) in * by lia.
  unfold unix_to_civil.
  rewrite (Z.div_add_l _ 86400), (Z.div_small t 86400), Z.add_0_r by lia.
  replace (((era * 146097 + doe - 719468) * 86400 + t) mod 86400) with t by lia.
  rewrite (u32_small (era * 146097 + doe - 719468 + 719468)) by (unfold is_u32; lia).
  replace (era * 146097 + doe - 719468 + 719468) with (era * 146097 + doe) by lia.
  replace ((era * 146097 + doe) / 146097) with era by lia.
  rewrite (u32_small (era * 146097)), (u32_small (era * 146097 + doe - _)) by (unfold is_u32; lia).
  replace (era * 146097 + doe - era * 146097) with doe by lia.
  rewrite (u32_small (doe - _ + _ - _)) by (unfold is_u32; lia). rewrite Hest.
  rewrite (u32_small (365 * yoe)), (u32_small (365 * yoe + _ - _)) by (unfold is_u32; lia).
  replace (doe - (365 * yoe + yoe / 4 - yoe / 100)) with doy by lia.
  rewrite (u32_small doy), (u32_small (5 * doy + 2)) by (unfold is_u32; lia).
  assert ((5 * doy + 2) / 153 = mp) as -> by lia.
  rewrite (u32_small (153 * mp + 2)) by (unfold is_u32; lia).
  rewrite (u32_small (doy - (153 * mp + 2) / 5 + 1)) by (unfold is_u32; lia).
  assert (u32 (mp + (if mp <? 10 then 3 else u32 (-9))) = m) as ->.
  { rewrite Hm. destruct (Z.ltb_spec mp 10); [by rewrite u32_small by (unfold is_u32; lia)|].
    unfold u32. lia. }
  rewrite (u32_small (era * 400)), u32_small by (unfold is_u32; repeat case_match; lia).
  f_equal; [by rewrite Hy|lia..].
Qed.

(** Every day since the epoch is the day of some date. *)
Lemma day_number_onto n :
  0 <= n < 900000 -> exists y m d, date_ok y m d /\ y <= 1970 + n /\ day_number y m d = n.
Proof.
  intros [H0 Hn]. revert Hn. pattern n. apply natlike_ind; [| |done]; clear n H0.
  - intros _. exists 1970, 1, 1. repeat split; done || lia.
  - intros n Hn0 IH Hn. destruct IH as (y & m & d & Hok & Hy & Hd); [lia|].
    destruct (next_day y m d) as [[y' m'] d'] eqn:Hnext. exists y', m', d'. split_and!.
    + eapply next_day_ok; [done|lia|done].
    + unfold next_day in Hnext. repeat case_match; simplify_eq; lia.
    + rewrite (day_number_next _ _ _ _ _ _ Hok Hnext). lia.
Qed.

(** The registers of a clock that shows the given time. *)
Definition clock_holds (cmos : Z -> Z) (y m d h mi s : Z) : Prop :=
  let enc v := if Z.land (cmos 0x0B) 0x04 =? 0 then 16 * (v / 10) + v mod 10 else v in
  cmos 0x09 = enc y /\ cmos 0x08 = enc m /\ cmos 0x07 = enc d /\
  cmos 0x04 = enc h /\ cmos 0x02 = enc mi /\ cmos 0x00 = enc s.

Lemma bcd_to_bin_enc v : 0 <= v < 100 -> bcd_to_bin (16 * (v / 10) + v mod 10) = v.
Proof.
  intros Hv. unfold bcd_to_bin. rewrite Z.shiftr_div_pow2 by lia.
  change 0x0F with (Z.ones 4). rewrite Z.land_ones by lia. lia.
Qed.

Lemma time_now_holds cmos y m d h mi s :
  clock_holds cmos y m d h mi s -> 0 <= y < 100 -> 0 <= m < 100 -> 0 <= d < 100 ->
  0 <= h < 100 -> 0 <= mi < 100 -> 0 <= s < 100 ->
  time_now cmos = u32 (u32 (days_from_civil (2000 + y) m d) * 86400 + h * 3600 + mi * 60 + s).
Proof.
  intros (Ey & Em & Ed & Eh & Emi & Es) Hy Hm Hd Hh Hmi Hs.
  unfold time_now. rewrite Ey, Em, Ed, Eh, Emi, Es.
  destruct (Z.land (cmos 0x0B) 0x04 =? 0); cbn [negb]; [|done].
  rewrite !bcd_to_bin_enc by done. done.
Qed.

(** ** Properties *)

(** [days_from_civil] is the Gregorian day count: it is 0 on
    1970-01-01 and grows by one from each date to its successor. *)
Theorem days_from_civil_counts y m d y' m' d' :
  date_ok y m d -> y < 999999 -> next_day y m d = (y', m', d') ->
  days_from_civil 1970 1 1 = 0 /\ days_from_civil y' m' d' = days_from_civil y m d + 1.
Proof.
  intros Hok Hy Hn. split; [reflexivity|].
  rewrite !day_number_eq by (done || by eapply next_day_ok). by apply day_number_next.
Qed.

(** The shell's [unix_to_civil] inverts the kernel's [time_now]: for
    every 32-bit timestamp the fields it computes form a valid date and time,
    and [days_from_civil] on them gives the timestamp back. *)
Theorem unix_to_civil_roundtrip epoch :
  is_u32 epoch ->
  let c := unix_to_civil epoch in
  date_ok (c_year c) (c_mon c) (c_day c) /\
  0 <= c_hour c < 24 /\ 0 <= c_min c < 60 /\ 0 <= c_sec c < 60 /\
  days_from_civil (c_year c) (c_mon c) (c_day c) * 86400
    + c_hour c * 3600 + c_min c * 60 + c_sec c = epoch.
Proof.
  intros Hw. unfold is_u32 in Hw.
  destruct (day_number_onto (epoch / 86400)) as (y & m & d & Hok & _ & Hd); [lia|].
  pose proof (unix_to_civil_day y m d (epoch mod 86400) Hok) as Hc. rewrite Hd in Hc.
  replace (epoch / 86400 * 86400 + epoch mod 86400) with epoch in Hc by lia.
  rewrite Hc by (unfold is_u32; lia). simpl. rewrite (day_number_eq _ _ _ Hok), Hd.
  split_and!; try done; lia.
Qed.

(** A decimal number, and the one in [n] bytes of a text. *)
Definition dec (l : list Z) : Z := foldl (fun v c => 10 * v + (c - 48)) 0 l.
Definition read_dec (t : list Z) (off : Z) (n : nat) : Z := dec (sub t off (Z.of_nat n)).
(** The time a text "YYYY-MM-DD HH:MM:SS" shows. *)
Definition read_epoch (t : list Z) : Z :=
  days_from_civil (read_dec t 0 4) (read_dec t 5 2) (read_dec t 8 2) * 86400 +
  read_dec t 11 2 * 3600 + read_dec t 14 2 * 60 + read_dec t 17 2.

Lemma dec_put2 v : 0 <= v < 100 -> dec (put2 v) = v.
Proof. unfold dec, put2. cbn [foldl]. lia. Qed.
Lemma dec_put4 v : 0 <= v < 10000 -> dec (put4 v) = v.
Proof. unfold dec, put4. cbn [foldl]. lia. Qed.

Lemma read_epoch_text y mo d h mi se :
  read_epoch (put4 y ++ [45] ++ put2 mo ++ [45] ++ put2 d ++ [32] ++ put2 h ++ [58] ++ put2 mi ++ [58] ++ put2 se ++ [0]) =
  days_from_civil (dec (put4 y)) (dec (put2 mo)) (dec (put2 d)) * 86400 + dec (put2 h) * 3600 + dec (put2 mi) * 60 + dec (put2 se).
Proof. reflexivity. Qed.

Lemma year_bound y m d t : date_ok y m d -> 0 <= t -> day_number y m d * 86400 + t < 2 ^ 32 -> y < 10000.
Proof. intros (Hy & Hm & Hd) Ht. unfold day_number. destruct (Z.leb_spec m 2); lia. Qed.

Lemma format_epoch_text epoch : epoch <> 0 ->
  let c := unix_to_civil epoch in
  format_epoch epoch 20 = put4 (c_year c) ++ [45] ++ put2 (c_mon c) ++ [45] ++ put2 (c_day c) ++ [32] ++
    put2 (c_hour c) ++ [58] ++ put2 (c_min c) ++ [58] ++ put2 (c_sec c) ++ [0].
Proof. intros Hz. unfold format_epoch. by rewrite Z.ltb_irrefl, (proj2 (Z.eqb_neq epoch 0)). Qed.

(** C37: The dates [stat] shows are exact: from the text [format_epoch] leaves in
    its buffer for a timestamp other than 0 (which shows as "-") the timestamp can
    be read back, digit by digit and through the kernel's own [days_from_civil];
    the text is 19 characters and a NUL. *)
Theorem format_epoch_roundtrip epoch : is_u32 epoch -> epoch <> 0 ->
  read_epoch (format_epoch epoch 20) = epoch /\ length (format_epoch epoch 20) = 20%nat.
Proof.
  intros Hw Hz. rewrite (format_epoch_text epoch Hz). destruct (unix_to_civil_roundtrip epoch Hw) as (Hok & Hh & Hmi & Hs & E).
  revert Hok Hh Hmi Hs E. generalize (unix_to_civil epoch). intros [y m d h mi se]. cbn [c_year c_mon c_day c_hour c_min c_sec].
  intros Hok Hh Hmi Hs E. pose proof Hok as (Hy & Hm & Hd). pose proof (month_days_bound y m).
  assert (y < 10000) as Hy4.
  { rewrite (day_number_eq _ _ _ Hok) in E. apply (year_bound y m d (h * 3600 + mi * 60 + se) Hok); unfold is_u32 in Hw; lia. }
  split; [|done]. rewrite read_epoch_text, dec_put4, !dec_put2 by lia. exact E.
Qed.

(** [time_now] on a clock that holds a valid date of 2000-2099,
    in binary or in BCD as status register B says, returns the timestamp that
    [unix_to_civil] reads back as that date and time. *)
Theorem time_now_civil cmos y m d h mi s :
  clock_holds cmos y m d h mi s -> date_ok (2000 + y) m d -> 0 <= y <= 99 ->
  0 <= h < 24 -> 0 <= mi < 60 -> 0 <= s < 60 ->
  unix_to_civil (time_now cmos) = Civil (2000 + y) m d h mi s.
Proof.
  intros Hc Hok Hy Hh Hm Hs.
  pose proof Hok as (_ & Hmon & Hd). pose proof (month_days_bound (2000 + y) m).
  rewrite (time_now_holds _ _ _ _ _ _ _ Hc), (day_number_eq _ _ _ Hok) by lia.
  set (t := h * 3600 + mi * 60 + s).
  assert (0 <= day_number (2000 + y) m d < 49000) as Hdn.
  { unfold day_number. destruct (Z.leb_spec m 2); lia. }
  rewrite u32_small by (rewrite u32_small; unfold is_u32; lia).
  rewrite u32_small by (unfold is_u32; lia).
  match goal with |- unix_to_civil ?e = _ =>
    replace e with (day_number (2000 + y) m d * 86400 + t) by lia end.
  rewrite unix_to_civil_day by (done || unfold is_u32; lia).
  f_equal; lia.
Qed.

(** ** Witnesses *)

(** A BCD clock showing 2024-02-29 23:59:58. *)
Definition demo_cmos (reg : Z) : Z :=
  match reg with 9 => 0x24 | 8 => 0x02 | 7 => 0x29 | 4 => 0x23 | 2 => 0x59 | 0 => 0x58 | _ => 2 end.

Lemma days_from_civil_counts_witness :
  days_from_civil 1970 1 1 = 0 /\ days_from_civil 2024 3 1 = days_from_civil 2024 2 29 + 1.
Proof.
  apply (days_from_civil_counts 2024 2 29 2024 3 1);
    [repeat split; vm_compute; congruence|lia|reflexivity].
Defined.

Lemma format_epoch_roundtrip_witness :
  read_epoch (format_epoch 1709251198 20) = 1709251198 /\ length (format_epoch 1709251198 20) = 20%nat.
Proof. apply (format_epoch_roundtrip 1709251198); [unfold is_u32; lia|discriminate]. Defined.

Lemma time_now_civil_witness : unix_to_civil (time_now demo_cmos) = Civil 2024 2 29 23 59 58.
Proof.
  apply (time_now_civil demo_cmos 24 2 29 23 59 58); try lia; repeat split; vm_compute; congruence.
Defined.
