(* ===== verification/Pmm.v ===== *)
(** * Physical frames (kernel/pmm.c)

    The bitmap of 4 KiB frames of the first 128 MiB (a set bit is a frame in
    use), filled from the memory map the boot loader leaves in memory.  The
    memory is a function from addresses to bytes.  A walk over the loader's
    tables is [None] when it has not ended after as many turns as a table of
    that size can have (a tag or entry of size 0 keeps the C loop in place). *)

From S2P Require Import Prelude.

Definition MAX_MEMORY_BYTES : Z := 128 * 1024 * 1024.
Definition FRAME_SIZE : Z := 4096.
Definition MAX_FRAMES : Z := MAX_MEMORY_BYTES / FRAME_SIZE.
Definition BITMAP_WORDS : Z := MAX_FRAMES / 32.
Definition MULTIBOOT1_BOOTLOADER_MAGIC : Z := 0x2BADB002.
Definition MULTIBOOT2_BOOTLOADER_MAGIC : Z := 0x36D76289.

Record pmm := mk_pmm { frame_bitmap : list Z; total_frames : Z; free_frames : Z }.
Implicit Types (s : pmm).

Definition word (l : list Z) (i : Z) : Z := default 0 (l !! Z.to_nat i).
Definition frame_test (s : pmm) (frame : Z) : bool := bit_test (word (frame_bitmap s) (frame / 32)) (frame mod 32).

Definition frame_set (s : pmm) (frame : Z) : pmm :=
  if MAX_FRAMES <=? frame then s else
  let w := word (frame_bitmap s) (frame / 32) in
  if bit_test w (frame mod 32) then s
  else mk_pmm (<[Z.to_nat (frame / 32) := bit_set w (frame mod 32)]> (frame_bitmap s)) (total_frames s)
         (if free_frames s =? 0 then 0 else free_frames s - 1).

Definition frame_clear (s : pmm) (frame : Z) : pmm :=
  if MAX_FRAMES <=? frame then s else
  let w := word (frame_bitmap s) (frame / 32) in
  if bit_test w (frame mod 32)
  then mk_pmm (<[Z.to_nat (frame / 32) := bit_clear w (frame mod 32)]> (frame_bitmap s)) (total_frames s)
         (u32 (free_frames s + 1))
  else s.

(** The loops over the frames of a region: [n] frames from [frame] on. *)
Fixpoint clear_frames (n : nat) (s : pmm) (frame : Z) : pmm :=
  match n with
  | O => s
  | S n => clear_frames n (frame_clear s frame) (frame + 1)
  end.
Fixpoint set_frames (n : nat) (s : pmm) (frame : Z) : pmm :=
  match n with
  | O => s
  | S n => set_frames n (frame_set s frame) (frame + 1)
  end.

Definition mark_region_free (s : pmm) (base length : Z) : pmm :=
  let start := ALIGN_UP (u32 base) FRAME_SIZE in
  let stop := ALIGN_DOWN (u32 (base + length)) FRAME_SIZE in
  let stop := if MAX_MEMORY_BYTES <? stop then MAX_MEMORY_BYTES else stop in
  clear_frames (Z.to_nat ((stop - start) / FRAME_SIZE)) s (start / FRAME_SIZE).

Definition reserve_region (s : pmm) (base length : Z) : pmm :=
  let start := ALIGN_DOWN (u32 base) FRAME_SIZE in
  let stop := ALIGN_UP (u32 (base + length)) FRAME_SIZE in
  let stop := if MAX_MEMORY_BYTES <? stop then MAX_MEMORY_BYTES else stop in
  set_frames (Z.to_nat ((stop - start) / FRAME_SIZE)) s (start / FRAME_SIZE).

(** ** The loader's memory map *)

Section Loader.
Context (mem : Z -> Z).

Fixpoint load (n : nat) (a : Z) : list Z :=
  match n with
  | O => []
  | S n => mem (u32 a) :: load n (a + 1)
  end.
Definition ld32 (a : Z) : Z := le_val (load 4 a).
Definition ld64 (a : Z) : Z := le_val (load 8 a).

(** The entries of a memory-map tag: base at 0, length at 8, type at 16. *)
Fixpoint mmap_entries (turns : nat) (s : pmm) (entry mmap_end entry_size : Z) : option pmm :=
  if mmap_end <=? entry then Some s else
  match turns with
  | O => None
  | S turns =>
      let s := if ld32 (entry + 16) =? 1 then mark_region_free s (ld64 entry) (ld64 (entry + 8)) else s in
      mmap_entries turns s (u32 (entry + entry_size)) mmap_end entry_size
  end.

Fixpoint mb2_tags (turns : nat) (s : pmm) (cursor stop : Z) : option pmm :=
  if stop <=? cursor then Some s else
  let type := ld32 cursor in
  let size := ld32 (cursor + 4) in
  if type =? 0 then Some s else
  match turns with
  | O => None
  | S turns =>
      s ← (if type =? 6
           then mmap_entries (Z.to_nat size) s (u32 (cursor + 16)) (u32 (cursor + size)) (ld32 (cursor + 8))
           else Some s);
      mb2_tags turns s (u32 (cursor + ALIGN_UP size 8)) stop
  end.

Definition parse_multiboot2 (s : pmm) (mbi_addr : Z) : option pmm :=
  let total_size := ld32 mbi_addr in
  mb2_tags (Z.to_nat (total_size / 8)) s (u32 (mbi_addr + 8)) (u32 (mbi_addr + total_size)).

(** An entry is its size (4 bytes, not counted in itself), base, length, type. *)
Fixpoint mb1_entries (turns : nat) (s : pmm) (cursor stop : Z) : option pmm :=
  if stop <=? cursor then Some s else
  match turns with
  | O => None
  | S turns =>
      let s := if ld32 (cursor + 20) =? 1
               then mark_region_free s (ld64 (cursor + 4)) (ld64 (cursor + 12)) else s in
      mb1_entries turns s (u32 (cursor + (ld32 cursor + 4))) stop
  end.

Definition parse_multiboot1 (s : pmm) (mbi_addr : Z) : option pmm :=
  let flags := ld32 mbi_addr in
  if negb (Z.land flags (Z.shiftl 1 6) =? 0) then
    let mmap_length := ld32 (mbi_addr + 44) in
    let mmap_addr := ld32 (mbi_addr + 48) in
    mb1_entries (Z.to_nat (mmap_length / 4 + 1)) s mmap_addr (u32 (mmap_addr + mmap_length))
  else if negb (Z.land flags 1 =? 0) then Some (mark_region_free s 0x100000 (ld32 (mbi_addr + 8) * 1024))
  else Some s.

(** Where the linker put the kernel and the bitmap. *)
Context (kernel_start kernel_end bitmap_addr : Z).

(** The three reservations at the end of [pmm_init]. *)
Definition reserve_kernel (s : pmm) : pmm :=
  let s := reserve_region s 0 0x100000 in
  let s := reserve_region s kernel_start (u32 (kernel_end - kernel_start)) in
  reserve_region s bitmap_addr (BITMAP_WORDS * 4).

Definition all_used : pmm := mk_pmm (replicate (Z.to_nat BITMAP_WORDS) 0xFFFFFFFF) MAX_FRAMES 0.

Definition pmm_init (magic mbi_addr : Z) : option pmm :=
  s ← (if magic =? MULTIBOOT2_BOOTLOADER_MAGIC then parse_multiboot2 all_used mbi_addr
       else if magic =? MULTIBOOT1_BOOTLOADER_MAGIC then parse_multiboot1 all_used mbi_addr
       else Some (mark_region_free all_used 0x100000 (15 * 1024 * 1024)));
  Some (reserve_kernel s).
End Loader.

(** ** Allocation *)

(** 0 is failure. *)
Fixpoint alloc_frame_from (n : nat) (s : pmm) (i : Z) : Z * pmm :=
  match n with
  | O => (0, s)
  | S n => if frame_test s i then alloc_frame_from n s (i + 1)
           else (u32 (i * FRAME_SIZE), frame_set s i)
  end.
Definition pmm_alloc_frame : state pmm Z := fun s => alloc_frame_from (Z.to_nat (total_frames s)) s 0.
Definition pmm_free_frame (frame : Z) : state pmm unit := modify (fun s => frame_clear s (frame / FRAME_SIZE)).
Definition pmm_total_memory_kb (s : pmm) : Z := u32 (total_frames s * FRAME_SIZE) / 1024.
Definition pmm_free_memory_kb (s : pmm) : Z := u32 (free_frames s * FRAME_SIZE) / 1024.

(** ** The bitmap as a set of frames *)

(** The number of free frames below [n]. *)
Fixpoint free_below (p : Z -> bool) (n : nat) : Z :=
  match n with
  | O => 0
  | S n => free_below p n + (if p (Z.of_nat n) then 0 else 1)
  end.

Lemma free_below_ext p q n : (forall i, 0 <= i < Z.of_nat n -> q i = p i) -> free_below q n = free_below p n.
Proof. induction n as [|n IH]; intros E; [done|]. cbn [free_below]. rewrite IH by (intros; apply E; lia). by rewrite E by lia. Qed.

Lemma free_below_flip p q n f : 0 <= f < Z.of_nat n -> p f = false -> q f = true ->
  (forall i, 0 <= i -> i <> f -> q i = p i) -> free_below q n = free_below p n - 1.
Proof.
  intros Hf Hp Hq E. induction n as [|n IH]; [lia|]. cbn [free_below].
  destruct (decide (f = Z.of_nat n)) as [->|Hne].
  - rewrite Hp, Hq, (free_below_ext p q n) by (intros; apply E; lia). lia.
  - rewrite IH, E by lia. lia.
Qed.

Lemma free_below_bound p n : 0 <= free_below p n <= Z.of_nat n.
Proof. induction n as [|n IH]; [done|]. cbn [free_below]. destruct (p (Z.of_nat n)); lia. Qed.

Lemma free_below_pos p n f : 0 <= f < Z.of_nat n -> p f = false -> 0 < free_below p n.
Proof.
  intros Hf Hp. induction n as [|n IH]; [lia|]. cbn [free_below]. pose proof (free_below_bound p n).
  destruct (decide (f = Z.of_nat n)) as [->|]; [rewrite Hp; lia|]. specialize (IH ltac:(lia)).
  destruct (p (Z.of_nat n)); lia.
Qed.


Definition frame_ok (f : Z) : Prop := 0 <= f < MAX_FRAMES.

(** The counter agrees with the bitmap. *)
Record pmm_wf s : Prop := {
  wf_words : length (frame_bitmap s) = Z.to_nat BITMAP_WORDS;
  wf_total : total_frames s = MAX_FRAMES;
  wf_free : free_frames s = free_below (frame_test s) (Z.to_nat MAX_FRAMES);
}.

Lemma word_insert l i j v : 0 <= i < Z.of_nat (length l) -> 0 <= j ->
  word (<[Z.to_nat i := v]> l) j = if decide (j = i) then v else word l j.
Proof.
  intros Hi Hj. unfold word. case_decide as E.
  - subst. rewrite list_lookup_insert_eq by lia. done.
  - rewrite list_lookup_insert_ne by lia. done.
Qed.

Lemma frame_split f g : f / 32 = g / 32 -> f mod 32 = g mod 32 -> f = g.
Proof. intros E1 E2. rewrite (Z.div_mod f 32), (Z.div_mod g 32) by lia. lia. Qed.

Lemma frame_word f : frame_ok f -> 0 <= f / 32 < BITMAP_WORDS /\ 0 <= f mod 32 < 32.
Proof.
  intros Hf. unfold frame_ok in Hf. change MAX_FRAMES with 32768 in Hf. change BITMAP_WORDS with 1024.
  pose proof (Z.div_mod f 32). pose proof (Z.mod_pos_bound f 32). lia.
Qed.

(** Writing one bit of one word. *)
Lemma bit_update s f g v : length (frame_bitmap s) = Z.to_nat BITMAP_WORDS -> frame_ok f -> 0 <= g ->
  (forall j, 0 <= j -> j <> f mod 32 -> bit_test v j = bit_test (word (frame_bitmap s) (f / 32)) j) ->
  bit_test (word (<[Z.to_nat (f / 32) := v]> (frame_bitmap s)) (g / 32)) (g mod 32) =
    if decide (g = f) then bit_test v (f mod 32) else frame_test s g.
Proof.
  intros Hl Hf Hg Hv. destruct (frame_word f Hf) as [B1 B2]. pose proof (Z.mod_pos_bound g 32 ltac:(lia)).
  assert (0 <= g / 32) by (apply Z.div_pos; lia). assert (0 <= BITMAP_WORDS) by (vm_compute; congruence).
  rewrite word_insert by lia. case_decide as E1; case_decide as E2; subst; try done.
  unfold frame_test. rewrite E1. apply Hv; [lia|]. intros E3. by apply E2, frame_split.
Qed.

Section Bits.
Context s (Hs : pmm_wf s).

Lemma frame_set_test f g : frame_ok f -> frame_ok g ->
  frame_test (frame_set s f) g = bool_decide (g = f) || frame_test s g.
Proof.
  intros Hf Hg. unfold frame_set. unfold frame_ok in *. rewrite (proj2 (Z.leb_gt MAX_FRAMES f)) by lia.
  destruct (frame_word f Hf) as [B1 B2].
  destruct (bit_test (word (frame_bitmap s) (f / 32)) (f mod 32)) eqn:Et.
  - case_bool_decide as E; [|done]. subst. exact Et.
  - unfold frame_test at 1. cbn [frame_bitmap]. rewrite bit_update; [|apply Hs|done|lia|].
    + rewrite bit_test_set by lia. rewrite bool_decide_eq_true_2 by done. case_decide; case_bool_decide; done.
    + intros j Hj Hne. rewrite bit_test_set by lia. rewrite bool_decide_eq_false_2 by congruence. done.
Qed.

Lemma frame_clear_test f g : frame_ok f -> frame_ok g ->
  frame_test (frame_clear s f) g = negb (bool_decide (g = f)) && frame_test s g.
Proof.
  intros Hf Hg. unfold frame_clear. unfold frame_ok in *. rewrite (proj2 (Z.leb_gt MAX_FRAMES f)) by lia.
  destruct (frame_word f Hf) as [B1 B2].
  destruct (bit_test (word (frame_bitmap s) (f / 32)) (f mod 32)) eqn:Et.
  - unfold frame_test at 1. cbn [frame_bitmap]. rewrite bit_update; [|apply Hs|done|lia|].
    + rewrite bit_test_clear by lia. rewrite bool_decide_eq_true_2 by done. case_decide; case_bool_decide; done.
    + intros j Hj Hne. rewrite bit_test_clear by lia. rewrite bool_decide_eq_false_2 by congruence. done.
  - case_bool_decide as E; [|done]. subst. exact Et.
Qed.
End Bits.

Lemma free_ok s : pmm_wf s -> 0 <= free_frames s <= MAX_FRAMES.
Proof.
  intros Hs. rewrite (wf_free _ Hs). pose proof (free_below_bound (frame_test s) (Z.to_nat MAX_FRAMES)) as B.
  assert (0 <= MAX_FRAMES) by (vm_compute; congruence). lia.
Qed.

(** Tests outside the bitmap do not see a change inside it. *)
Lemma frame_test_past s f g b : frame_ok f -> ~ frame_ok g -> 0 <= g ->
  frame_test (mk_pmm (<[Z.to_nat (f / 32) := b]> (frame_bitmap s)) (total_frames s) (free_frames s)) g = frame_test s g.
Proof.
  intros Hf Hg Hg0. unfold frame_test, word. cbn [frame_bitmap].
  rewrite list_lookup_insert_ne; [done|]. destruct (frame_word f Hf) as [B _].
  unfold frame_ok in *. change MAX_FRAMES with 32768 in *. change BITMAP_WORDS with 1024 in *.
  assert (1024 <= g / 32) by (apply Z.div_le_lower_bound; lia). lia.
Qed.

Lemma frame_set_wf s f : pmm_wf s -> 0 <= f -> pmm_wf (frame_set s f).
Proof.
  intros Hs Hf. destruct (Z.leb_spec MAX_FRAMES f) as [Hp|Hp]; [unfold frame_set; by rewrite (proj2 (Z.leb_le _ _) Hp)|].
  assert (frame_ok f) as Hok by (unfold frame_ok; lia).
  pose proof (frame_set_test s Hs f) as Ht. unfold frame_set in *. rewrite (proj2 (Z.leb_gt _ _) Hp) in *.
  destruct (bit_test _ _) eqn:Et; [done|]. destruct Hs as [Hl Hto Hfr]. split; cbn [frame_bitmap total_frames free_frames].
  - by rewrite length_insert.
  - done.
  - match goal with |- _ = free_below (frame_test ?s') _ => set (s1 := s') in * end.
    assert (0 < free_frames s) as Hpos.
    { rewrite Hfr. apply (free_below_pos _ _ f); [|exact Et]. unfold frame_ok in Hok. lia. }
    rewrite (proj2 (Z.eqb_neq _ 0)) by lia. rewrite Hfr. symmetry.
    apply (free_below_flip _ _ _ f); [unfold frame_ok in Hok; lia|exact Et| |].
    + rewrite Ht by done. by rewrite bool_decide_eq_true_2.
    + intros i Hi Hne. destruct (decide (frame_ok i)) as [Hio|Hio].
      * rewrite Ht by done. by rewrite bool_decide_eq_false_2.
      * rewrite <- (frame_test_past s f i (bit_set (word (frame_bitmap s) (f / 32)) (f mod 32))) by done. done.
Qed.

Lemma frame_clear_wf s f : pmm_wf s -> 0 <= f -> pmm_wf (frame_clear s f).
Proof.
  intros Hs Hf. destruct (Z.leb_spec MAX_FRAMES f) as [Hp|Hp]; [unfold frame_clear; by rewrite (proj2 (Z.leb_le _ _) Hp)|].
  assert (frame_ok f) as Hok by (unfold frame_ok; lia). pose proof (free_ok s Hs) as Hb.
  pose proof (frame_clear_test s Hs f) as Ht. unfold frame_clear in *. rewrite (proj2 (Z.leb_gt _ _) Hp) in *.
  destruct (bit_test _ _) eqn:Et; [|done]. destruct Hs as [Hl Hto Hfr]. split; cbn [frame_bitmap total_frames free_frames].
  - by rewrite length_insert.
  - done.
  - match goal with |- _ = free_below (frame_test ?s') _ => set (s1 := s') in * end.
    change MAX_FRAMES with 32768 in *. rewrite u32_small by (unfold is_u32; lia).
    assert (free_below (frame_test s) (Z.to_nat 32768) = free_below (frame_test s1) (Z.to_nat 32768) - 1); [|lia].
    apply (free_below_flip _ _ _ f); [unfold frame_ok in Hok; lia| |exact Et|].
    + rewrite Ht by done. by rewrite bool_decide_eq_true_2.
    + intros i Hi Hne. destruct (decide (frame_ok i)) as [Hio|Hio].
      * rewrite Ht by done. by rewrite bool_decide_eq_false_2.
      * rewrite <- (frame_test_past s f i (bit_clear (word (frame_bitmap s) (f / 32)) (f mod 32))) by done. done.
Qed.

Lemma clear_frames_wf n : forall s f, pmm_wf s -> 0 <= f -> pmm_wf (clear_frames n s f).
Proof. induction n as [|n IH]; intros s f Hs Hf; [done|]. cbn [clear_frames]. apply IH; [by apply frame_clear_wf|lia]. Qed.

Lemma set_frames_spec n : forall s f, pmm_wf s -> 0 <= f ->
  pmm_wf (set_frames n s f) /\
  forall g, frame_ok g -> frame_test (set_frames n s f) g = bool_decide (f <= g < f + Z.of_nat n) || frame_test s g.
Proof.
  induction n as [|n IH]; intros s f Hs Hf; cbn [set_frames].
  - split; [done|]. intros g Hg. rewrite bool_decide_eq_false_2 by lia. done.
  - destruct (IH (frame_set s f) (f + 1)) as [H1 H2]; [by apply frame_set_wf|lia|]. split; [done|].
    intros g Hg. rewrite H2 by done. destruct (Z.leb_spec MAX_FRAMES f) as [Hp|Hp].
    + unfold frame_set. rewrite (proj2 (Z.leb_le _ _) Hp). unfold frame_ok in Hg.
      rewrite !bool_decide_eq_false_2 by lia. done.
    + rewrite frame_set_test by (done || unfold frame_ok; lia).
      repeat case_bool_decide; try done; lia.
Qed.

Lemma align_down_4k v : is_u32 v -> ALIGN_DOWN v FRAME_SIZE = v / 4096 * 4096.
Proof.
  intros Hv. change FRAME_SIZE with (2 ^ 12). rewrite ALIGN_DOWN_spec by (done || lia).
  change (2 ^ 12) with 4096. pose proof (Z.div_mod v 4096). lia.
Qed.

Lemma mark_region_free_wf s base len : pmm_wf s -> pmm_wf (mark_region_free s base len).
Proof.
  intros Hs. unfold mark_region_free. apply clear_frames_wf; [done|]. apply Z.div_pos; [|done].
  unfold ALIGN_UP. rewrite align_down_4k by apply u32_range.
  pose proof (u32_range (u32 base + (FRAME_SIZE - 1))) as [B _].
  assert (0 <= u32 (u32 base + (FRAME_SIZE - 1)) / 4096) by (apply Z.div_pos; lia). lia.
Qed.

(** Every frame that overlaps a reserved region is in use afterwards, and no
    frame is released. *)
Lemma reserve_region_spec s base len : pmm_wf s -> 0 <= base -> 0 <= len -> base + len + 4095 < 2 ^ 32 ->
  pmm_wf (reserve_region s base len) /\
  (forall g, frame_ok g -> frame_test s g = true -> frame_test (reserve_region s base len) g = true) /\
  (forall b, base <= b < base + len -> b < MAX_MEMORY_BYTES -> frame_test (reserve_region s base len) (b / 4096) = true).
Proof.
  intros Hs Hb Hl Hlt. unfold reserve_region.
  assert (ALIGN_UP (base + len) FRAME_SIZE = (base + len + 4095) / 4096 * 4096) as Eu
    by (apply (ALIGN_UP_spec (base + len) 12); lia).
  rewrite !(u32_small _) by (unfold is_u32; lia). rewrite align_down_4k, Eu by (unfold is_u32; lia).
  change FRAME_SIZE with 4096. change MAX_MEMORY_BYTES with 134217728. cbv zeta.
  set (stop := if 134217728 <? (base + len + 4095) / 4096 * 4096 then 134217728 else (base + len + 4095) / 4096 * 4096).
  rewrite (Z.div_mul (base / 4096)) by lia. assert (0 <= base / 4096) as Hp by (apply Z.div_pos; lia).
  destruct (set_frames_spec (Z.to_nat ((stop - base / 4096 * 4096) / 4096)) s (base / 4096) Hs Hp) as [H1 H2].
  split_and!; [done| |].
  - intros g Hg Hu. rewrite H2, Hu by done. apply orb_true_r.
  - intros b Hbb Hm. assert (frame_ok (b / 4096)) as Hf.
    { unfold frame_ok. change MAX_FRAMES with 32768. pose proof (Z.div_mod b 4096). pose proof (Z.mod_pos_bound b 4096). lia. }
    rewrite H2 by done. rewrite bool_decide_eq_true_2; [done|].
    pose proof (Z.div_mod b 4096 ltac:(lia)). pose proof (Z.mod_pos_bound b 4096 ltac:(lia)).
    pose proof (Z.div_mod base 4096 ltac:(lia)). pose proof (Z.mod_pos_bound base 4096 ltac:(lia)).
    pose proof (Z.div_mod (base + len + 4095) 4096 ltac:(lia)). pose proof (Z.mod_pos_bound (base + len + 4095) 4096 ltac:(lia)).
    assert (stop = 134217728 \/ stop = (base + len + 4095) / 4096 * 4096) as Hst by (unfold stop; case (_ <? _); auto).
    assert (exists k, stop = k * 4096) as [k Hk] by (destruct Hst as [-> | ->]; [by exists 32768|eauto]).
    rewrite Hk, <- Z.mul_sub_distr_r, Z.div_mul by lia. split; [lia|]. lia.
Qed.

Lemma all_used_test g : frame_ok g -> frame_test all_used g = true.
Proof.
  intros Hg. destruct (frame_word g Hg) as [B1 B2]. unfold frame_test, word, all_used. cbn [frame_bitmap].
  rewrite lookup_replicate_2 by lia. cbn [default]. rewrite bit_test_testbit by lia.
  change 4294967295 with (Z.ones 32). by apply Z.ones_spec_low.
Qed.

Lemma all_used_wf : pmm_wf all_used.
Proof.
  split; [apply length_replicate|done|]. symmetry. cbn [free_frames all_used].
  assert (forall n, Z.of_nat n <= MAX_FRAMES -> free_below (frame_test all_used) n = 0) as E.
  { induction n as [|n IH]; intros Hn; [done|]. cbn [free_below].
    rewrite IH, all_used_test by (unfold frame_ok; lia). done. }
  apply E. vm_compute. congruence.
Qed.

Section Init.
Context (mem : Z -> Z).

Lemma mmap_entries_wf n : forall s e stop sz s', pmm_wf s -> mmap_entries mem n s e stop sz = Some s' -> pmm_wf s'.
Proof.
  induction n as [|n IH]; intros s e stop sz s' Hs E; cbn [mmap_entries] in E; (case_match; [by simplify_eq|]); [done|].
  eapply IH; [|exact E]. case_match; [by apply mark_region_free_wf|done].
Qed.

Lemma mb2_tags_wf n : forall s c stop s', pmm_wf s -> mb2_tags mem n s c stop = Some s' -> pmm_wf s'.
Proof.
  induction n as [|n IH]; intros s c stop s' Hs E; cbn [mb2_tags] in E;
    (case_match; [by simplify_eq|]); (case_match; [by simplify_eq|]); [done|].
  destruct (ld32 mem c =? 6).
  - destruct (mmap_entries _ _ _ _ _ _) as [s1|] eqn:E1; [|done]. cbn in E. eapply IH; [|exact E]. by eapply mmap_entries_wf.
  - cbn in E. by eapply IH.
Qed.

Lemma mb1_entries_wf n : forall s c stop s', pmm_wf s -> mb1_entries mem n s c stop = Some s' -> pmm_wf s'.
Proof.
  induction n as [|n IH]; intros s c stop s' Hs E; cbn [mb1_entries] in E; (case_match; [by simplify_eq|]); [done|].
  eapply IH; [|exact E]. case_match; [by apply mark_region_free_wf|done].
Qed.

Context (kernel_start kernel_end bitmap_addr : Z).

(** The addresses the kernel keeps to itself, as the linker laid them out. *)
Definition reserved (b : Z) : Prop :=
  0 <= b < 0x100000 \/ kernel_start <= b < kernel_end \/ bitmap_addr <= b < bitmap_addr + 4096.
Definition link_ok : Prop :=
  0 <= kernel_start <= kernel_end /\ kernel_end + 4095 < 2 ^ 32 /\ 0 <= bitmap_addr /\ bitmap_addr + 8191 < 2 ^ 32.

Lemma pmm_init_spec magic mbi_addr s : link_ok -> pmm_init mem kernel_start kernel_end bitmap_addr magic mbi_addr = Some s ->
  pmm_wf s /\ forall b, reserved b -> b < MAX_MEMORY_BYTES -> frame_test s (b / 4096) = true.
Proof.
  intros (K1 & K2 & K3 & K4) E. unfold pmm_init in E.
  destruct (if magic =? _ then _ else _) as [s0|] eqn:E0; [|done]. cbn in E. injection E as <-.
  assert (pmm_wf s0) as W0.
  { destruct (magic =? _); [by eapply mb2_tags_wf; [apply all_used_wf|]|].
    destruct (magic =? _); [|apply (inj Some) in E0 as <-; apply mark_region_free_wf, all_used_wf].
    unfold parse_multiboot1 in E0. destruct (negb _); [by eapply mb1_entries_wf; [apply all_used_wf|]|].
    destruct (negb _); apply (inj Some) in E0 as <-; [apply mark_region_free_wf|]; apply all_used_wf. }
  unfold reserve_kernel. rewrite u32_small by (unfold is_u32; lia).
  destruct (reserve_region_spec s0 0 0x100000 W0) as (W1 & M1 & R1); [lia..|].
  destruct (reserve_region_spec _ kernel_start (kernel_end - kernel_start) W1) as (W2 & M2 & R2); [lia..|].
  assert (BITMAP_WORDS * 4 = 4096) as Eb by done.
  destruct (reserve_region_spec _ bitmap_addr (BITMAP_WORDS * 4) W2) as (W3 & M3 & R3); [lia..|].
  split; [done|]. intros b Hr Hb.
  assert (frame_ok (b / 4096)) as Hf.
  { unfold frame_ok. change MAX_FRAMES with 32768. change MAX_MEMORY_BYTES with 134217728 in Hb.
    assert (0 <= b) by (unfold reserved in Hr; lia). pose proof (Z.div_mod b 4096). pose proof (Z.mod_pos_bound b 4096). lia. }
  destruct Hr as [Hr|[Hr|Hr]].
  - apply M3, M2, R1; done || lia.
  - apply M3, R2; done || lia.
  - apply R3; lia.
Qed.

(** ** Allocation *)

Lemma alloc_frame_from_spec n : forall s i, pmm_wf s -> 0 <= i -> i + Z.of_nat n <= MAX_FRAMES ->
  let '(a, s') := alloc_frame_from n s i in
  (exists f, i <= f < i + Z.of_nat n /\ a = f * 4096 /\ frame_test s f = false /\ s' = frame_set s f /\
     forall g, i <= g < f -> frame_test s g = true) \/
  (a = 0 /\ s' = s /\ forall g, i <= g < i + Z.of_nat n -> frame_test s g = true).
Proof.
  induction n as [|n IH]; intros s i Hs Hi Hn; cbn [alloc_frame_from].
  - right. split_and!; [done|done|lia].
  - destruct (frame_test s i) eqn:Et.
    + specialize (IH s (i + 1) Hs ltac:(lia) ltac:(lia)). destruct (alloc_frame_from n s (i + 1)) as [a s'].
      destruct IH as [(f & Hf & -> & Hu & -> & Hb)|(-> & -> & Hb)].
      * left. exists f. split_and!; [lia|lia|done|done|done|]. intros g Hg. destruct (decide (g = i)) as [->|]; [done|apply Hb; lia].
      * right. split_and!; [done|done|]. intros g Hg. destruct (decide (g = i)) as [->|]; [done|apply Hb; lia].
    + left. exists i. split_and!; [lia|lia| |done|done|lia]. unfold FRAME_SIZE. change MAX_FRAMES with 32768 in Hn.
      apply u32_small. unfold is_u32. lia.
Qed.

(** States reached from boot by allocating frames and freeing what was
    allocated, with the set of frames (addresses) currently handed out. *)
Inductive pmm_reach (magic mbi_addr : Z) : pmm -> gset Z -> Prop :=
| reach_init s : pmm_init mem kernel_start kernel_end bitmap_addr magic mbi_addr = Some s -> pmm_reach magic mbi_addr s ∅
| reach_alloc s live a s' : pmm_reach magic mbi_addr s live -> pmm_alloc_frame s = (a, s') -> a <> 0 ->
    pmm_reach magic mbi_addr s' ({[a]} ∪ live)
| reach_fail s live s' : pmm_reach magic mbi_addr s live -> pmm_alloc_frame s = (0, s') -> pmm_reach magic mbi_addr s' live
| reach_free s live a : pmm_reach magic mbi_addr s live -> a ∈ live ->
    pmm_reach magic mbi_addr (pmm_free_frame a s).2 (live ∖ {[a]}).

(** A frame that may be handed out. *)
Definition page_of (a f : Z) : Prop :=
  a = f * 4096 /\ frame_ok f /\ forall b, a <= b < a + 4096 -> ~ reserved b.

Lemma alloc_spec s : pmm_wf s -> (forall b, reserved b -> b < MAX_MEMORY_BYTES -> frame_test s (b / 4096) = true) ->
  let '(a, s') := pmm_alloc_frame s in
  (exists f, page_of a f /\ a <> 0 /\ frame_test s f = false /\ s' = frame_set s f) \/
  (a = 0 /\ s' = s /\ free_frames s = 0).
Proof.
  intros Hs Hr. unfold pmm_alloc_frame. rewrite (wf_total _ Hs).
  pose proof (alloc_frame_from_spec (Z.to_nat MAX_FRAMES) s 0 Hs ltac:(lia) ltac:(change MAX_FRAMES with 32768; lia)) as H.
  destruct (alloc_frame_from _ s 0) as [a s']. change MAX_FRAMES with 32768 in H.
  destruct H as [(f & Hf & -> & Hu & -> & _)|(-> & -> & Hall)].
  - left. exists f. assert (frame_ok f) as Hok by (unfold frame_ok; change MAX_FRAMES with 32768; lia).
    assert (forall b, f * 4096 <= b < f * 4096 + 4096 -> ~ reserved b) as Hn.
    { intros b Hb Hres. rewrite (Z.div_unique b 4096 f (b - f * 4096)) in Hu by lia.
      rewrite Hr in Hu; [done|done|]. change MAX_MEMORY_BYTES with 134217728. lia. }
    split_and!; [by split_and!| |done|done]. intros E. apply (Hn 0); [lia|]. unfold reserved. lia.
  - right. split_and!; [done|done|]. rewrite (wf_free _ Hs). change MAX_FRAMES with 32768.
    assert (forall n, (n <= Z.to_nat 32768)%nat -> free_below (frame_test s) n = 0) as E; [|by apply E].
    induction n as [|n IH]; intros Hn; [done|]. cbn [free_below]. rewrite IH, Hall by lia. done.
Qed.

Lemma pmm_reach_inv magic mbi_addr s live : link_ok -> pmm_reach magic mbi_addr s live ->
  pmm_wf s /\ (forall b, reserved b -> b < MAX_MEMORY_BYTES -> frame_test s (b / 4096) = true) /\
  (forall a, a ∈ live -> exists f, page_of a f /\ frame_test s f = true).
Proof.
  intros Hk. induction 1 as [s E|s live a s' _ (Hs & Hr & Hl) E Ha|s live s' _ (Hs & Hr & Hl) E|s live a _ (Hs & Hr & Hl) Ha].
  - destruct (pmm_init_spec _ _ _ Hk E) as [Hs Hr]. split_and!; [done|done|set_solver].
  - pose proof (alloc_spec s Hs Hr) as Hal. rewrite E in Hal.
    destruct Hal as [(f & Hp & _ & Hu & ->)|(-> & _ & _)]; [|done]. pose proof Hp as (_ & Hok & _).
    assert (forall g, frame_ok g -> frame_test s g = true -> frame_test (frame_set s f) g = true) as Hm.
    { intros g Hg Ht. rewrite frame_set_test, Ht by done. apply orb_true_r. }
    split_and!; [apply frame_set_wf; [done|unfold frame_ok in Hok; lia]| |].
    + intros b Hb Hlt. apply Hm; [|by apply Hr]. unfold frame_ok. change MAX_FRAMES with 32768.
      change MAX_MEMORY_BYTES with 134217728 in Hlt. assert (0 <= b) by (unfold reserved, link_ok in *; lia).
      pose proof (Z.div_mod b 4096). pose proof (Z.mod_pos_bound b 4096). lia.
    + intros x [->%elem_of_singleton|Hx]%elem_of_union.
      * exists f. split; [done|]. rewrite frame_set_test by done. by rewrite bool_decide_eq_true_2.
      * destruct (Hl x Hx) as (g & Hg & Ht). exists g. split; [done|]. apply Hm; [apply Hg|done].
  - pose proof (alloc_spec s Hs Hr) as Hal. rewrite E in Hal. destruct Hal as [(f & _ & Hz & _)|(_ & -> & _)]; [done|done].
  - destruct (Hl a Ha) as (f & (-> & Hok & Hn) & Ht). unfold pmm_free_frame, modify. cbn [snd].
    change FRAME_SIZE with 4096. rewrite Z.div_mul by lia. split_and!.
    + apply frame_clear_wf; [done|unfold frame_ok in Hok; lia].
    + intros b Hb Hlt. rewrite frame_clear_test; [|done|done|].
      * rewrite Hr by done. rewrite bool_decide_eq_false_2; [done|]. intros E. apply (Hn b); [|done].
        pose proof (Z.div_mod b 4096 ltac:(lia)). pose proof (Z.mod_pos_bound b 4096 ltac:(lia)). lia.
      * unfold frame_ok. change MAX_FRAMES with 32768. change MAX_MEMORY_BYTES with 134217728 in Hlt.
        assert (0 <= b) by (unfold reserved, link_ok in *; lia).
        pose proof (Z.div_mod b 4096). pose proof (Z.mod_pos_bound b 4096). lia.
    + intros x [Hx Hne]%elem_of_difference. destruct (Hl x Hx) as (g & Hg & Hgt). exists g. split; [done|].
      rewrite frame_clear_test by (done || apply Hg). rewrite Hgt, bool_decide_eq_false_2; [done|].
      intros ->. apply Hne. destruct Hg as (-> & _). by apply elem_of_singleton.
Qed.
End Init.

(** C33: The frame allocator is safe from boot on: in every state reached from
    [pmm_init], with whatever memory map the loader left, [pmm_alloc_frame]
    returns a 4 KiB-aligned frame below 128 MiB that is not handed out already
    and overlaps neither the first megabyte, the kernel image nor the bitmap,
    and it returns 0 exactly when the free counter is 0, changing nothing; the
    counter always equals the number of clear bits. *)
Theorem pmm_alloc_safe mem kernel_start kernel_end bitmap_addr magic mbi_addr s live :
  link_ok kernel_start kernel_end bitmap_addr ->
  pmm_reach mem kernel_start kernel_end bitmap_addr magic mbi_addr s live ->
  free_frames s = free_below (frame_test s) (Z.to_nat MAX_FRAMES) /\
  let '(a, s') := pmm_alloc_frame s in
  (a <> 0 /\ 0 < free_frames s /\ a mod 4096 = 0 /\ 0 <= a < MAX_MEMORY_BYTES /\ (a ∉ live) /\
   forall b, a <= b < a + 4096 -> ~ reserved kernel_start kernel_end bitmap_addr b) \/
  (a = 0 /\ free_frames s = 0 /\ s' = s).
Proof.
  intros Hk Hr. destruct (pmm_reach_inv _ _ _ _ _ _ _ _ Hk Hr) as (Hs & Hres & Hl). split; [exact (wf_free _ Hs)|].
  pose proof (alloc_spec _ _ _ s Hs Hres) as Hal. destruct (pmm_alloc_frame s) as [a s'].
  destruct Hal as [(f & (-> & Hok & Hn) & Hz & Hu & _)|(-> & -> & Hf)]; [left|by right].
  split_and!; [done| |apply Z.mod_mul; lia| | | |done].
  - rewrite (wf_free _ Hs). apply (free_below_pos _ _ f); [|done]. unfold frame_ok in Hok. change MAX_FRAMES with 32768 in *. lia.
  - unfold frame_ok in Hok. lia.
  - unfold frame_ok in Hok. change MAX_FRAMES with 32768 in Hok. change MAX_MEMORY_BYTES with 134217728. lia.
  - intros Hin. destruct (Hl _ Hin) as (g & (E & _ & _) & Ht). assert (g = f) as -> by lia. congruence.
Qed.

(** No loader information: 1 MiB to 16 MiB, a 2 MiB kernel at 1 MiB. *)
Lemma pmm_alloc_safe_witness :
  let k := pmm_init (fun _ => 0) 0x100000 0x300000 0x2F0000 0 0 in
  exists s, k = Some s /\ (pmm_alloc_frame s).1 = 0x300000 /\
  free_frames s = free_below (frame_test s) (Z.to_nat MAX_FRAMES).
Proof.
  cbv zeta.
  assert ((fun s => (pmm_alloc_frame s).1) <$> pmm_init (fun _ => 0) 0x100000 0x300000 0x2F0000 0 0 = Some 0x300000) as E2
    by (vm_compute; reflexivity).
  destruct (pmm_init (fun _ => 0) 0x100000 0x300000 0x2F0000 0 0) as [s|] eqn:E; [|discriminate E2].
  exists s. split; [reflexivity|]. split.
  - apply (inj Some) in E2. exact E2.
  - apply (pmm_alloc_safe (fun _ => 0) 0x100000 0x300000 0x2F0000 0 0 s ∅).
    + vm_compute. repeat split; congruence.
    + apply reach_init. exact E.
Defined.

(** A region above 4 GiB in the loader's memory map releases frames below
    128 MiB: [mark_region_free] cuts the base and the end to 32 bits, so the
    64 KiB of memory at 2^32 + 2 MiB release the frame at 2 MiB, although the
    map never said that memory was there. *)
Theorem high_region_aliases :
  frame_test all_used 512 = true /\ frame_test (mark_region_free all_used (2 ^ 32 + 0x200000) 0x10000) 512 = false.
Proof. vm_compute. split; reflexivity. Qed.
