(* ===== verification/Machine.v ===== *)
(** * The machine under the file systems

    What the file-system code calls outside itself: the two ATA disks behind
    [disk_device_t] (include/pureunix/disk.h), the real-time clock
    ([time_now]), the kernel heap ([kmalloc]/[kfree]) and the credentials of
    the running task ([current_uid]/[current_gid]).  [Machine] lists the
    operations, [MachineOk] what they promise; the file-system theorems are
    proved against these two classes and Platform.v discharges them. *)

From S2P Require Import Prelude.

(** The two devices of drivers/ata.c: [primary] ("ata0") and [slave_dev] ("ata1"). *)
Inductive disk_device := ata0 | ata1.

#[global] Instance disk_device_eq_dec : EqDecision disk_device.
Proof. solve_decision. Defined.

Definition SECTOR_SIZE : Z := 512.

(** The drives are addressed with 28-bit LBAs (ata_select_lba28). *)
Definition lba_ok (lba : Z) : Prop := 0 <= lba < 2 ^ 28.

Class Machine (W : Type) := {
  disk_present : disk_device -> W -> bool;
  (** [disk->read(lba, buffer)]: the 512 bytes, or [None] for a non-zero result. *)
  disk_read : disk_device -> Z -> state W (option (list Z));
  (** [disk->write(lba, buffer)]: [true] for result 0. *)
  disk_write : disk_device -> Z -> list Z -> state W bool;
  time_now : state W Z;
  kmalloc : Z -> state W (option Z);
  kfree : option Z -> state W unit;
  current_uid : W -> Z;
  current_gid : W -> Z;
}.

(** [sector w d l] is what the platter holds; [healthy w d] says that device
    [d] answers every request; [same_rest] relates machine states that agree on
    everything that is neither disk, heap nor clock, the credentials of the
    running task among it.  [quiet] relates two machine states that hold the
    same sectors and the same rest. *)
Class MachineView (W : Type) := {
  sector : W -> disk_device -> Z -> list Z;
  healthy : W -> disk_device -> Prop;
  same_rest : W -> W -> Prop;
}.

Definition quiet {W} `{Machine W, MachineView W} (w w' : W) : Prop :=
  (forall d l, sector w' d l = sector w d l) /\
  (forall d, healthy w d -> healthy w' d) /\ same_rest w w'.

Class MachineOk (W : Type) `{Machine W, MachineView W} := {
  rest_equivalence :: Equivalence same_rest;
  rest_cred w w' : same_rest w w' -> current_uid w' = current_uid w /\ current_gid w' = current_gid w;
  sector_length w d l : length (sector w d l) = 512%nat;
  sector_bytes w d l : bytes_ok (sector w d l);
  disk_read_quiet d l w : quiet w (disk_read d l w).2;
  disk_read_some d l w s : lba_ok l -> (disk_read d l w).1 = Some s -> s = sector w d l;
  disk_read_healthy d l w :
    lba_ok l -> healthy w d -> (disk_read d l w).1 = Some (sector w d l);
  disk_write_other d l b w d' l' :
    lba_ok l -> lba_ok l' -> (d', l') <> (d, l) ->
    sector (disk_write d l b w).2 d' l' = sector w d' l';
  disk_write_true d l b w :
    lba_ok l -> length b = 512%nat -> bytes_ok b -> (disk_write d l b w).1 = true ->
    sector (disk_write d l b w).2 d l = b;
  disk_write_healthy d l b w : lba_ok l -> healthy w d -> (disk_write d l b w).1 = true;
  disk_write_keeps d l b w d' : healthy w d' -> healthy (disk_write d l b w).2 d';
  disk_write_rest d l b w : same_rest w (disk_write d l b w).2;
  time_now_quiet w : quiet w (time_now w).2;
  time_now_range w : is_u32 (time_now w).1;
  kmalloc_quiet n w : quiet w (kmalloc n w).2;
  kfree_quiet p w : quiet w (kfree p w).2;
}.

Section Quiet.
Context {W : Type} `{MachineOk W}.

#[global] Instance quiet_preorder : PreOrder (quiet (W := W)).
Proof.
  split; [intros w; split_and!; [done|done|reflexivity]|].
  intros w1 w2 w3 (A1 & B1 & C1) (A2 & B2 & C2).
  split_and!; [intros; congruence|auto|by etrans].
Qed.

Lemma quiet_sector w w' d l : quiet w w' -> sector w' d l = sector w d l.
Proof. intros Q. apply Q. Qed.

Lemma quiet_healthy w w' d : quiet w w' -> healthy w d -> healthy w' d.
Proof. intros Q. apply Q. Qed.
End Quiet.

#[export] Hint Resolve disk_read_quiet time_now_quiet kmalloc_quiet kfree_quiet
  quiet_healthy disk_write_keeps sector_length sector_bytes : machine.

(** Chains of steps that keep the rest of the machine. *)
Ltac rest_chain :=
  first [assumption | reflexivity |
    match goal with H : same_rest ?a ?b |- same_rest ?a _ => etransitivity; [exact H|]; clear H; rest_chain end].
