(* ===== verification/VfsTypes.v ===== *)
(** * What the VFS and the filesystem drivers share

    The types, limits and error numbers of include/pureunix/vfs.h, config.h,
    errno.h and stat.h.  Names and paths are byte lists without their NUL. *)

From stdpp Require Import strings.
From S2P Require Import Prelude.

(** A string literal as bytes. *)
Definition lit (s : string) : list Z := Z.of_N ∘ Ascii.N_of_ascii <$> String.list_ascii_of_string s.
Arguments lit s%_string_scope.

(** A character constant. *)
Definition ch (c : Ascii.ascii) : Z := Z.of_N (Ascii.N_of_ascii c).
Arguments ch c%_char_scope.

(** errno.h *)
Definition EPERM : Z := 1.
Definition ENOENT : Z := 2.
Definition EIO : Z := 5.
Definition EBADF : Z := 9.
Definition EACCES : Z := 13.
Definition EEXIST : Z := 17.
Definition EXDEV : Z := 18.
Definition ENOTDIR : Z := 20.
Definition EISDIR : Z := 21.
Definition EINVAL : Z := 22.
Definition EMFILE : Z := 24.
Definition ENOSPC : Z := 28.
Definition EROFS : Z := 30.
Definition ENAMETOOLONG : Z := 36.
Definition ENOSYS : Z := 38.
Definition ENOTEMPTY : Z := 39.
Definition ELOOP : Z := 40.

(** config.h *)
Definition PUREUNIX_MAX_PATH : Z := 256.
Definition PUREUNIX_MAX_NAME : Z := 64.

Definition SLASH : Z := 47.
Definition DOT : Z := 46.

(** vfs.h *)
Definition VFS_O_APPEND : Z := 1.
Definition VFS_O_TRUNC : Z := 2.
Definition F_OK : Z := 0.
Definition X_OK : Z := 1.
Definition W_OK : Z := 2.
Definition R_OK : Z := 4.

Inductive vfs_node_type := VFS_FILE | VFS_DIR | VFS_SYMLINK.
Inductive vfs_fs_type := VFS_FS_NONE | VFS_FS_EXT2 | VFS_FS_FAT16.

#[global] Instance vfs_node_type_eq_dec : EqDecision vfs_node_type.
Proof. solve_decision. Defined.

(** [st_attr] is the field [mode] of [vfs_stat_t]. *)
Record vfs_stat := mk_stat {
  st_type : vfs_node_type; st_size : Z; st_attr : Z; st_mode : Z; st_uid : Z; st_gid : Z;
  st_nlink : Z; st_ino : Z; st_atime : Z; st_mtime : Z; st_ctime : Z; st_blocks : Z;
  st_blksize : Z;
}.

Record vfs_dirent := mk_dirent { d_name : list Z; d_type : vfs_node_type; d_size : Z }.

(** [strrchr(path, '/')] as an index. *)
Fixpoint last_slash (p : list Z) : option nat :=
  match p with
  | [] => None
  | c :: p => match last_slash p with
              | Some k => Some (S k)
              | None => if c =? SLASH then Some 0%nat else None
              end
  end.

(** [strtok_r] over '/': the non-empty components of a path. *)
Fixpoint path_tokens (p cur : list Z) : list (list Z) :=
  match p with
  | [] => if decide (cur = []) then [] else [rev cur]
  | c :: p => if c =? SLASH
              then (if decide (cur = []) then path_tokens p [] else rev cur :: path_tokens p [])
              else path_tokens p (c :: cur)
  end.

Lemma path_tokens_skip c p cur : SLASH ∉ c -> path_tokens (c ++ p) cur = path_tokens p (rev c ++ cur).
Proof.
  revert cur. induction c as [|x c IH]; intros cur Hc; [done|]. apply not_elem_of_cons in Hc as [Hx Hc].
  cbn [app path_tokens]. case Z.eqb_spec; [congruence|intros _]. rewrite (IH _ Hc). simpl.
  by rewrite <- (assoc_L (++)).
Qed.
