(* ===== verification/CLib.v ===== *)
(** * The kernel C library (libc/string.c, libc/ctype.c, libc/stdlib.c)

    Memory is a list of bytes and a pointer an index into it; every loop of
    the source is a loop here, so that overlapping arguments behave as they do
    in C.  Reading behind the end of the memory gives 0 and writing there does
    nothing; the theorems ask for arguments that lie inside.  Characters are
    their unsigned byte values: the source only compares them for equality or
    against ASCII ranges, where the sign does not matter. *)

From S2P Require Import Prelude VfsTypes.

(** ** ctype.c *)

Definition isspace (c : Z) : bool :=
  (c =? 32) || (c =? 9) || (c =? 10) || (c =? 13) || (c =? 12) || (c =? 11).
Definition isdigit (c : Z) : bool := (48 <=? c) && (c <=? 57).
Definition isalpha (c : Z) : bool := ((97 <=? c) && (c <=? 122)) || ((65 <=? c) && (c <=? 90)).
Definition isalnum (c : Z) : bool := isalpha c || isdigit c.
Definition islower (c : Z) : bool := (97 <=? c) && (c <=? 122).
Definition isupper (c : Z) : bool := (65 <=? c) && (c <=? 90).
Definition tolower (c : Z) : Z := if isupper c then c + 32 else c.
Definition toupper (c : Z) : Z := if islower c then c - 32 else c.

(** ** string.c *)

Module CStr.

Abbreviation ld := byte_at.
Definition st (m : list Z) (p v : Z) : list Z := put m p [u8 v].

Fixpoint memset_loop (count : nat) (m : list Z) (d value : Z) : list Z :=
  match count with
  | O => m
  | S count => memset_loop count (st m d value) (d + 1) value
  end.
Definition memset (m : list Z) (dest value count : Z) : list Z :=
  memset_loop (Z.to_nat count) m dest value.

(** The upward copy of [memcpy] and [memmove]. *)
Fixpoint copy_up (count : nat) (m : list Z) (d s : Z) : list Z :=
  match count with
  | O => m
  | S count => copy_up count (st m d (ld m s)) (d + 1) (s + 1)
  end.
(** The downward copy of [memmove]. *)
Fixpoint copy_down (count : nat) (m : list Z) (d s : Z) : list Z :=
  match count with
  | O => m
  | S count => copy_down count (st m (d - 1) (ld m (s - 1))) (d - 1) (s - 1)
  end.

Definition memcpy (m : list Z) (dest src count : Z) : list Z := copy_up (Z.to_nat count) m dest src.

Definition memmove (m : list Z) (dest src count : Z) : list Z :=
  if dest <? src then copy_up (Z.to_nat count) m dest src
  else if src <? dest then copy_down (Z.to_nat count) m (dest + count) (src + count)
  else m.

Fixpoint memcmp_loop (count : nat) (m : list Z) (a b : Z) : Z :=
  match count with
  | O => 0
  | S count => if ld m a =? ld m b then memcmp_loop count m (a + 1) (b + 1) else ld m a - ld m b
  end.
Definition memcmp (m : list Z) (a b count : Z) : Z := memcmp_loop (Z.to_nat count) m a b.

(** The length of the string at [p]; the end of the memory stops it. *)
Fixpoint strlen_loop (fuel : nat) (m : list Z) (p : Z) : Z :=
  match fuel with
  | O => 0
  | S fuel => if ld m p =? 0 then 0 else 1 + strlen_loop fuel m (p + 1)
  end.
Definition strlen (m : list Z) (str : option Z) : Z :=
  match str with Some p => strlen_loop (S (length m)) m p | None => 0 end.

Fixpoint strnlen_loop (max : nat) (m : list Z) (p : Z) : Z :=
  match max with
  | O => 0
  | S max => if ld m p =? 0 then 0 else 1 + strnlen_loop max m (p + 1)
  end.
Definition strnlen (m : list Z) (str : option Z) (max : Z) : Z :=
  match str with Some p => strnlen_loop (Z.to_nat max) m p | None => 0 end.

(** The copy loop of [strcpy]: it stops after the NUL. *)
Fixpoint strcpy_loop (fuel : nat) (m : list Z) (d s : Z) : list Z :=
  match fuel with
  | O => m
  | S fuel =>
      let c := ld m s in
      let m := st m d c in
      if c =? 0 then m else strcpy_loop fuel m (d + 1) (s + 1)
  end.
Definition strcpy (m : list Z) (dest src : Z) : list Z := strcpy_loop (S (length m)) m dest src.

(** Both loops of [strncpy]: once the source has ended, zeros follow. *)
Fixpoint strncpy_loop (n : nat) (m : list Z) (d s : Z) : list Z :=
  match n with
  | O => m
  | S n' => if ld m s =? 0 then memset_loop n m d 0
            else strncpy_loop n' (st m d (ld m s)) (d + 1) (s + 1)
  end.
Definition strncpy (m : list Z) (dest src n : Z) : list Z := strncpy_loop (Z.to_nat n) m dest src.

Definition strcat (m : list Z) (dest src : Z) : list Z := strcpy m (dest + strlen m (Some dest)) src.

Fixpoint strcmp_loop (fuel : nat) (m : list Z) (a b : Z) : Z :=
  match fuel with
  | O => 0
  | S fuel => if negb (ld m a =? 0) && (ld m a =? ld m b) then strcmp_loop fuel m (a + 1) (b + 1)
              else ld m a - ld m b
  end.
Definition strcmp (m : list Z) (a b : Z) : Z := strcmp_loop (S (length m)) m a b.

Fixpoint strncmp_loop (n : nat) (m : list Z) (a b : Z) : Z :=
  match n with
  | O => 0
  | S n => if negb (ld m a =? ld m b) || (ld m a =? 0) || (ld m b =? 0) then ld m a - ld m b
           else strncmp_loop n m (a + 1) (b + 1)
  end.
Definition strncmp (m : list Z) (a b n : Z) : Z := strncmp_loop (Z.to_nat n) m a b.

Fixpoint strchr_loop (fuel : nat) (m : list Z) (p ch : Z) : option Z :=
  match fuel with
  | O => None
  | S fuel => if ld m p =? 0 then (if ch =? 0 then Some p else None)
              else if ld m p =? u8 ch then Some p else strchr_loop fuel m (p + 1) ch
  end.
Definition strchr (m : list Z) (p ch : Z) : option Z := strchr_loop (S (length m)) m p ch.

Fixpoint strrchr_loop (fuel : nat) (m : list Z) (p ch : Z) (last : option Z) : option Z :=
  match fuel with
  | O => last
  | S fuel =>
      let last := if ld m p =? u8 ch then Some p else last in
      if ld m p =? 0 then last else strrchr_loop fuel m (p + 1) ch last
  end.
Definition strrchr (m : list Z) (p ch : Z) : option Z := strrchr_loop (S (length m)) m p ch None.

Fixpoint strstr_loop (fuel : nat) (m : list Z) (p needle nlen : Z) : option Z :=
  match fuel with
  | O => None
  | S fuel => if ld m p =? 0 then None
              else if (ld m p =? ld m needle) && (strncmp m p needle nlen =? 0) then Some p
              else strstr_loop fuel m (p + 1) needle nlen
  end.
Definition strstr (m : list Z) (haystack needle : Z) : option Z :=
  if ld m needle =? 0 then Some haystack
  else strstr_loop (S (length m)) m haystack needle (strlen m (Some needle)).

(** [strdup]; [copy] is what [kmalloc(strlen(src) + 1)] returned. *)
Definition strdup (m : list Z) (src : Z) (copy : option Z) : option Z * list Z :=
  let len := strlen m (Some src) + 1 in
  match copy with
  | None => (None, m)
  | Some copy => (Some copy, memcpy m copy src len)
  end.

Fixpoint delim_loop (fuel : nat) (m : list Z) (delim c : Z) : bool :=
  match fuel with
  | O => false
  | S fuel => if ld m delim =? 0 then false
              else if ld m delim =? c then true else delim_loop fuel m (delim + 1) c
  end.
Definition delim_has (m : list Z) (delim c : Z) : bool := delim_loop (S (length m)) m delim c.

(** Both scans of [strtok_r]: over delimiters, or over other characters. *)
Fixpoint skip_loop (fuel : nat) (m : list Z) (delim : Z) (in_delim : bool) (s : Z) : Z :=
  match fuel with
  | O => s
  | S fuel => if negb (ld m s =? 0) && Bool.eqb (delim_has m delim (ld m s)) in_delim
              then skip_loop fuel m delim in_delim (s + 1) else s
  end.

(** [strtok_r]: the token, the new [*saveptr] and the memory. *)
Definition strtok_r (m : list Z) (str : option Z) (delim : Z) (saveptr : option Z)
    : option Z * option Z * list Z :=
  match (match str with Some s => Some s | None => saveptr end) with
  | None => (None, saveptr, m)
  | Some s =>
      let s := skip_loop (S (length m)) m delim true s in
      if ld m s =? 0 then (None, None, m) else
      let token := s in
      let s := skip_loop (S (length m)) m delim false s in
      if ld m s =? 0 then (Some token, Some s, m)
      else (Some token, Some (s + 1), st m s 0)
  end.

End CStr.

(** ** stdlib.c *)

(** The value of a digit character in any base. *)
Definition digit_of (c : Z) : option Z :=
  if isdigit c then Some (c - 48)
  else if islower c then Some (c - 97 + 10)
  else if isupper c then Some (c - 65 + 10)
  else None.

(** [strtol] on the characters of a string: the value ([long] has 32 bits and
    wraps) and what follows the number. *)
Fixpoint skip_space (s : list Z) : list Z :=
  match s with
  | c :: s' => if isspace c then skip_space s' else s
  | [] => []
  end.

Fixpoint digits (base : Z) (s : list Z) (value : Z) : Z * list Z :=
  match s with
  | [] => (value, [])
  | c :: s' =>
      match digit_of c with
      | Some d => if base <=? d then (value, s) else digits base s' (s32 (value * base + d))
      | None => (value, s)
      end
  end.

Definition hex_prefix (s : list Z) : bool :=
  match s with
  | a :: b :: _ => (a =? 48) && ((b =? 120) || (b =? 88))
  | _ => false
  end.

Definition strtol (s : list Z) (base : Z) : Z * list Z :=
  let s := skip_space s in
  let '(sign, s) := match s with
                    | c :: s' => if c =? 45 then (-1, s') else if c =? 43 then (1, s') else (1, s)
                    | [] => (1, [])
                    end in
  let '(base, s) :=
    if ((base =? 0) || (base =? 16)) && hex_prefix s then (16, drop 2 s)
    else if base =? 0 then ((if bool_decide (hd_error s = Some 48) then 8 else 10), s)
    else (base, s) in
  let '(value, s) := digits base s 0 in
  (s32 (value * sign), s).

Definition atoi (s : list Z) : Z := (strtol s 10).1.

(** [reverse]: the swaps of the loop. *)
Fixpoint reverse_loop (n : nat) (m : list Z) (i len : Z) : list Z :=
  match n with
  | O => m
  | S n =>
      let tmp := byte_at m i in
      let m := CStr.st m i (byte_at m (len - i - 1)) in
      reverse_loop n (CStr.st m (len - i - 1) tmp) (i + 1) len
  end.
Definition reverse (m : list Z) : list Z :=
  let len := CStr.strlen m (Some 0) in
  reverse_loop (Z.to_nat (len / 2)) m 0 len.

(** * What the routines guarantee *)

Module CStrOk.
Import CStr.

Lemma bytes_ext (m m' : list Z) :
  length m = length m' ->
  (forall i, 0 <= i < Z.of_nat (length m) -> byte_at m i = byte_at m' i) -> m = m'.
Proof.
  intros Hl H. apply list_eq. intros i.
  destruct (decide (i < length m)%nat) as [Hi|Hi].
  - specialize (H (Z.of_nat i) ltac:(lia)). unfold byte_at in H. rewrite Nat2Z.id in H.
    destruct (lookup_lt_is_Some_2 m i Hi) as [x Ex].
    destruct (lookup_lt_is_Some_2 m' i ltac:(lia)) as [y Ey]. rewrite Ex, Ey in *. by f_equal.
  - rewrite !lookup_ge_None_2 by lia. done.
Qed.

Lemma length_st m p v : length (st m p v) = length m.
Proof. apply length_put. Qed.

Lemma ld_st m p v i :
  0 <= p < Z.of_nat (length m) -> 0 <= i ->
  ld (st m p v) i = if decide (i = p) then u8 v else ld m i.
Proof.
  intros Hp Hi. unfold st. rewrite byte_at_put by lia. simpl.
  repeat case_decide; try lia. by replace (i - p) with 0 by lia.
Qed.

Lemma st_ok m p v : bytes_ok m -> bytes_ok (st m p v).
Proof. intros. apply put_ok; [|done]. repeat constructor; apply u8_range. Qed.

Lemma u8_ld m i : bytes_ok m -> u8 (ld m i) = ld m i.
Proof. intros. by apply u8_small, byte_at_ok. Qed.

#[local] Hint Rewrite length_st : len.
#[local] Hint Resolve st_ok : machine.

Lemma length_copy_up n m : forall d s, length (copy_up n m d s) = length m.
Proof. revert m. induction n; intros m d s; simpl; [done|]. by rewrite IHn, length_st. Qed.
Lemma length_copy_down n m : forall d s, length (copy_down n m d s) = length m.
Proof. revert m. induction n; intros m d s; simpl; [done|]. by rewrite IHn, length_st. Qed.

(** Copying upwards is right when the destination is below the source or
    clear of it. *)
Lemma copy_up_at n : forall m d s i,
  bytes_ok m -> 0 <= d -> 0 <= s ->
  d + Z.of_nat n <= Z.of_nat (length m) -> s + Z.of_nat n <= Z.of_nat (length m) ->
  (d <= s \/ s + Z.of_nat n <= d) -> 0 <= i ->
  ld (copy_up n m d s) i = if decide (d <= i < d + Z.of_nat n) then ld m (s + (i - d)) else ld m i.
Proof.
  induction n as [|n IH]; intros m d s i Hm Hd Hs Hdl Hsl Ho Hi; cbn [copy_up].
  - case_decide; [lia|done].
  - rewrite IH by (len; auto with machine).
    repeat case_decide; try lia; rewrite ld_st, ?u8_ld by (done || lia); case_decide; try lia; try done.
    all: f_equal; lia.
Qed.

(** Copying downwards is right when the destination is above the source. *)
Lemma copy_down_at n : forall m d s i,
  bytes_ok m -> 0 <= s - Z.of_nat n -> s <= d -> d <= Z.of_nat (length m) -> 0 <= i ->
  ld (copy_down n m d s) i =
    if decide (d - Z.of_nat n <= i < d) then ld m (s + (i - d)) else ld m i.
Proof.
  induction n as [|n IH]; intros m d s i Hm Hs Hd Hl Hi; cbn [copy_down].
  - case_decide; [lia|done].
  - rewrite IH by (len; auto with machine).
    repeat case_decide; try lia; rewrite ld_st, ?u8_ld by (done || lia); case_decide; try lia; try done.
    all: f_equal; lia.
Qed.

Lemma ld_put_sub m d s n i :
  0 <= d -> 0 <= s -> 0 <= n -> s + n <= Z.of_nat (length m) -> d + n <= Z.of_nat (length m) ->
  0 <= i ->
  ld (put m d (sub m s n)) i = if decide (d <= i < d + n) then ld m (s + (i - d)) else ld m i.
Proof.
  intros. rewrite byte_at_put, length_sub by lia.
  repeat case_decide; try lia. by rewrite byte_at_sub by lia.
Qed.

Section Moves.
Context (m : list Z) (dest src count : Z).
Context (Hm : bytes_ok m) (Hd : 0 <= dest) (Hs : 0 <= src) (Hn : 0 <= count).
Context (Hdl : dest + count <= Z.of_nat (length m)) (Hsl : src + count <= Z.of_nat (length m)).

Lemma memcpy_put : dest <= src \/ src + count <= dest ->
  memcpy m dest src count = put m dest (sub m src count).
Proof.
  intros Ho. apply bytes_ext; unfold memcpy; rewrite length_copy_up; [by len|]. intros i Hi.
  rewrite copy_up_at, ld_put_sub by (done || lia). by rewrite Z2Nat.id by lia.
Qed.
End Moves.

Lemma memmove_put m dest src count :
  bytes_ok m -> 0 <= dest -> 0 <= src -> 0 <= count ->
  dest + count <= Z.of_nat (length m) -> src + count <= Z.of_nat (length m) ->
  memmove m dest src count = put m dest (sub m src count).
Proof.
  intros Hm Hd Hs Hn Hdl Hsl. unfold memmove.
  destruct (Z.ltb_spec dest src); [by apply memcpy_put; try lia|].
  apply bytes_ext; [repeat case_match; rewrite ?length_copy_down; by len|]. intros i Hi.
  assert (0 <= i) as Hi0 by (destruct (src <? dest); lia).
  destruct (Z.ltb_spec src dest); rewrite ld_put_sub by (done || lia).
  - rewrite copy_down_at by (done || lia). rewrite Z2Nat.id by lia.
    repeat case_decide; try lia; f_equal; lia.
  - case_decide; [f_equal; lia|done].
Qed.

(** [memmove] stores at the destination what the source held before the
    call, whatever the overlap of the two ranges, and changes nothing else. *)
Theorem memmove_correct m dest src count :
  bytes_ok m -> 0 <= dest -> 0 <= src -> 0 <= count ->
  dest + count <= Z.of_nat (length m) -> src + count <= Z.of_nat (length m) ->
  memmove m dest src count = put m dest (sub m src count).
Proof. apply memmove_put. Qed.

Lemma memmove_correct_witness :
  memmove [1;2;3;4;5;6] 1 0 4 = put [1;2;3;4;5;6] 1 (sub [1;2;3;4;5;6] 0 4) /\
  memcpy [1;2;3;4;5;6] 1 0 4 = [1;1;1;1;1;6].
Proof.
  split; [apply (memmove_correct [1;2;3;4;5;6] 1 0 4)|vm_compute; reflexivity];
    try (vm_compute; congruence).
  refine (bool_decide_unpack _ _). vm_compute. exact I.
Defined.

(** ** Strings in memory *)

(** The bytes of [s] and a NUL lie at [p]. *)
Fixpoint cstr (m : list Z) (p : Z) (s : list Z) : Prop :=
  match s with
  | [] => 0 <= p < Z.of_nat (length m) /\ ld m p = 0
  | c :: s => 0 <= p /\ c <> 0 /\ ld m p = c /\ cstr m (p + 1) s
  end.

Lemma cstr_range m s : forall p, cstr m p s -> 0 <= p /\ p + Z.of_nat (length s) < Z.of_nat (length m).
Proof.
  induction s as [|c s IH]; intros p H; simpl in *; [lia|].
  destruct H as (Hp & _ & _ & H). apply IH in H. lia.
Qed.

(** Changes outside a string leave it. *)
Lemma cstr_frame m m' s : forall p,
  cstr m p s -> length m' = length m ->
  (forall i, p <= i <= p + Z.of_nat (length s) -> ld m' i = ld m i) -> cstr m' p s.
Proof.
  induction s as [|c s IH]; intros p H Hl Hf; simpl in *.
  - rewrite Hl, Hf by lia. done.
  - destruct H as (Hp & Hc & E & H). split; [done|]. split; [done|]. rewrite Hf by lia.
    split; [done|]. apply IH; [done|done|]. intros. apply Hf. lia.
Qed.

Lemma strlen_loop_cstr m s : forall p fuel,
  cstr m p s -> (length s < fuel)%nat -> strlen_loop fuel m p = Z.of_nat (length s).
Proof.
  induction s as [|c s IH]; intros p [|fuel] H Hf; cbn [cstr length strlen_loop] in *; try lia.
  - destruct H as [_ ->]. done.
  - destruct H as (_ & Hc & -> & H). case Z.eqb_spec; [done|intros _].
    rewrite (IH _ _ H) by lia. lia.
Qed.

Lemma strlen_cstr m p s : cstr m p s -> strlen m (Some p) = Z.of_nat (length s).
Proof. intros H. pose proof (cstr_range _ _ _ H). apply strlen_loop_cstr; [done|lia]. Qed.

Lemma strcpy_loop_at s : forall fuel m d p,
  cstr m p s -> bytes_ok m -> (length s < fuel)%nat -> 0 <= d ->
  d + Z.of_nat (length s) < Z.of_nat (length m) ->
  (d + Z.of_nat (length s) < p \/ p + Z.of_nat (length s) < d) ->
  let m' := strcpy_loop fuel m d p in
  cstr m' d s /\ length m' = length m /\
  (forall i, 0 <= i -> (i < d \/ d + Z.of_nat (length s) < i) -> ld m' i = ld m i).
Proof.
  induction s as [|c s IH]; intros [|fuel] m d p H Hm Hf Hd Hl Ho m'; subst m';
    cbn [cstr length strcpy_loop] in *; try lia.
  - destruct H as [Hp ->]. change (0 =? 0) with true. cbn [cstr]. rewrite length_st.
    rewrite ld_st, decide_True by lia. split; [split; [lia|done]|]. split; [done|]. intros i Hi Hx.
    rewrite ld_st by lia. case_decide; [lia|done].
  - destruct H as (Hp & Hc & E & H). rewrite E. case Z.eqb_spec; [done|intros _].
    assert (u8 c = c) as Hu by (rewrite <- E; by apply u8_ld).
    destruct (IH fuel (st m d c) (d + 1) (p + 1)) as (H1 & H2 & H3).
    + eapply cstr_frame; [exact H|apply length_st|]. intros i Hi.
      rewrite ld_st by lia. case_decide; [lia|done].
    + by apply st_ok.
    + lia.
    + lia.
    + len.
    + lia.
    + split; [split; [done|split; [done|split; [|done]]]|].
      * rewrite H3, ld_st, decide_True by lia. done.
      * split; [by rewrite H2, length_st|]. intros i Hi Hx. rewrite H3, ld_st by lia.
        case_decide; [lia|done].
Qed.

Lemma cstr_app m s t : forall p, cstr m (p + Z.of_nat (length s)) t ->
  0 <= p -> Forall (fun c => c <> 0) s ->
  (forall k, (k < length s)%nat -> s !! k = Some (ld m (p + Z.of_nat k))) -> cstr m p (s ++ t).
Proof.
  induction s as [|c s IH]; intros p Ht Hp Hs Hk; simpl in *.
  - by rewrite Z.add_0_r in Ht.
  - inversion_clear Hs as [|? ? Hc Hs']. split; [done|split; [done|split]].
    + specialize (Hk 0%nat ltac:(lia)). simpl in Hk. injection Hk as ->. f_equal; lia.
    + apply IH; [by replace (p + 1 + Z.of_nat (length s)) with (p + Z.pos (Pos.of_succ_nat (length s))) by lia|lia|done|].
      intros k Hk'. specialize (Hk (S k) ltac:(lia)). simpl in Hk. rewrite Hk. do 2 f_equal. lia.
Qed.

Lemma cstr_chars m s : forall p, cstr m p s -> Forall (fun c => c <> 0) s /\
  (forall k, (k < length s)%nat -> s !! k = Some (ld m (p + Z.of_nat k))).
Proof.
  induction s as [|c s IH]; intros p H; simpl in *; [split; [constructor|lia]|].
  destruct H as (Hp & Hc & E & H). destruct (IH _ H) as [H1 H2]. split; [by constructor|].
  intros [|k] Hk; simpl; [by rewrite Z.add_0_r, E|]. rewrite H2 by lia. do 2 f_equal. lia.
Qed.

(** [strcat] on two strings in memory leaves their concatenation at the
    destination and every byte outside the appended range unchanged, provided
    the destination has room and its extent is clear of the source. *)
Theorem strcat_correct m dest src s t :
  cstr m dest s -> cstr m src t -> bytes_ok m ->
  dest + Z.of_nat (length s + length t) < Z.of_nat (length m) ->
  dest + Z.of_nat (length s + length t) < src \/ src + Z.of_nat (length t) < dest ->
  let m' := strcat m dest src in
  cstr m' dest (s ++ t) /\ cstr m' src t /\
  (forall i, 0 <= i -> i < dest + Z.of_nat (length s) \/ dest + Z.of_nat (length s + length t) < i ->
     ld m' i = ld m i).
Proof.
  intros Hs Ht Hm Hl Ho m'. subst m'. unfold strcat, strcpy.
  pose proof (cstr_range _ _ _ Hs). pose proof (cstr_range _ _ _ Ht).
  rewrite (strlen_cstr _ _ _ Hs).
  destruct (strcpy_loop_at t (S (length m)) m (dest + Z.of_nat (length s)) src) as (H1 & H2 & H3);
    try done; try lia.
  destruct (cstr_chars _ _ _ Hs) as [Hn Hc]. split; [|split].
  - apply cstr_app; [done|lia|done|]. intros k Hk. rewrite H3 by lia. by apply Hc.
  - eapply cstr_frame; [done|done|]. intros i Hi. apply H3; lia.
  - intros i Hi Hx. apply H3; lia.
Qed.

(** "/a" at 0 with room behind it, "bc" at 8. *)
Definition demo_strings : list Z := [47; 97; 0; 9; 9; 9; 9; 9; 98; 99; 0].

Lemma strcat_correct_witness :
  let m' := strcat demo_strings 0 8 in
  cstr m' 0 ([47; 97] ++ [98; 99]) /\ cstr m' 8 [98; 99] /\
  m' = [47; 97; 98; 99; 0; 9; 9; 9; 98; 99; 0].
Proof.
  destruct (strcat_correct demo_strings 0 8 [47; 97] [98; 99]) as (H1 & H2 & _).
  1,2,4: vm_compute; repeat split; congruence.
  - refine (bool_decide_unpack _ _). vm_compute. exact I.
  - left. vm_compute. congruence.
  - split; [exact H1|]. split; [exact H2|]. vm_compute. reflexivity.
Defined.

(** ** Tokens *)

(** The string at [p]. *)
Fixpoint text_loop (fuel : nat) (m : list Z) (p : Z) : list Z :=
  match fuel with
  | O => []
  | S fuel => if ld m p =? 0 then [] else ld m p :: text_loop fuel m (p + 1)
  end.
Definition text (m : list Z) (p : Z) : list Z := text_loop (S (length m)) m p.

(** What the body of
    [for (tok = strtok_r(str, delim, &save); tok; tok = strtok_r(NULL, delim, &save))]
    sees in each turn; [None] when [fuel] turns do not finish it. *)
Fixpoint strtok_turns (fuel : nat) (m : list Z) (str : option Z) (delim : Z) (save : option Z)
    : option (list (list Z)) :=
  match fuel with
  | O => None
  | S fuel =>
      match strtok_r m str delim save with
      | (None, _, _) => Some []
      | (Some tok, save, m) => rest ← strtok_turns fuel m None delim save; Some (text m tok :: rest)
      end
  end.

Lemma text_cstr m p s : cstr m p s -> text m p = s.
Proof.
  intros H. pose proof (cstr_range _ _ _ H) as Hr. unfold text.
  assert (length s < S (length m))%nat as Hf by lia. clear Hr. revert p H Hf.
  generalize (S (length m)) as fuel. intros fuel. revert s.
  induction fuel as [|fuel IH]; intros [|c s] p H Hf; cbn [cstr length text_loop] in *; try lia.
  - destruct H as [_ ->]. done.
  - destruct H as (_ & Hc & -> & H). case Z.eqb_spec; [done|intros _]. by rewrite (IH s) by (done || lia).
Qed.

Lemma delim_slash m d c : cstr m d [SLASH] -> delim_has m d c = (c =? SLASH).
Proof.
  intros H. pose proof (cstr_range _ _ _ H) as [Hd0 Hr]. simpl in Hr.
  destruct H as (_ & _ & E1 & _ & E2). unfold delim_has.
  destruct (length m) as [|n]; [lia|]. cbn [delim_loop]. rewrite E1, E2.
  change (SLASH =? 0) with false. change (0 =? 0) with true.
  rewrite Z.eqb_sym. by destruct (c =? SLASH).
Qed.

(** A scan stops behind the longest run of (non-)delimiters. *)
Lemma skip_loop_at m d b s t : forall fuel p,
  cstr m p (s ++ t) -> cstr m d [SLASH] -> (length s < fuel)%nat ->
  Forall (fun c => (c =? SLASH) = b) s ->
  (t = [] \/ exists c t', t = c :: t' /\ (c =? SLASH) = negb b) ->
  skip_loop fuel m d b p = p + Z.of_nat (length s) /\ cstr m (p + Z.of_nat (length s)) t.
Proof.
  intros fuel p H Hd. revert fuel p H.
  induction s as [|c s IH]; intros [|fuel] p H Hf Hs Ht; cbn [length app] in *; try lia.
  - rewrite Z.add_0_r. split; [|done]. cbn [skip_loop]. rewrite (delim_slash _ _ _ Hd).
    destruct Ht as [->|(c & t' & -> & Hc)]; cbn [cstr] in H.
    + destruct H as [_ ->]. done.
    + destruct H as (_ & _ & -> & _). rewrite Hc. rewrite andb_comm. by destruct b.
  - inversion_clear Hs as [|? ? Hc Hs']. cbn [cstr] in H. destruct H as (Hp & Hn & E & H).
    cbn [skip_loop]. rewrite (delim_slash _ _ _ Hd), E, Hc, eqb_reflx.
    case Z.eqb_spec; [done|intros _]. cbn [negb andb].
    destruct (IH fuel (p + 1) H ltac:(lia) Hs' Ht) as [-> H2].
    replace (p + Z.of_nat (S (length s))) with (p + 1 + Z.of_nat (length s)) by lia. done.
Qed.

(** Every string is a run of delimiters, or not, and the rest. *)
Lemma run_split b (s : list Z) : exists u t, s = u ++ t /\
  Forall (fun c => (c =? SLASH) = b) u /\ (t = [] \/ exists c t', t = c :: t' /\ (c =? SLASH) = negb b).
Proof.
  induction s as [|c s (u & t & -> & Hu & Ht)]; [exists [], []; by auto|].
  destruct (c =? SLASH) eqn:E, b.
  - exists (c :: u), t. split_and!; [done|by constructor|done].
  - exists [], (c :: u ++ t). split_and!; [done|constructor|right; eauto].
  - exists [], (c :: u ++ t). split_and!; [done|constructor|right; eauto].
  - exists (c :: u), t. split_and!; [done|by constructor|done].
Qed.

Lemma tokens_slashes u t : Forall (fun c => (c =? SLASH) = true) u ->
  path_tokens (u ++ t) [] = path_tokens t [].
Proof. induction 1 as [|c u Hc _ IH]; [done|]. cbn [app path_tokens]. by rewrite Hc. Qed.

Lemma not_slashes u : Forall (fun c => (c =? SLASH) = false) u -> SLASH ∉ u.
Proof. intros H Hin. rewrite Forall_forall in H. by specialize (H _ Hin). Qed.

(** Cutting a string at a byte leaves its front as a string of its own. *)
Lemma cstr_cut m u c t : forall p, cstr m p (u ++ c :: t) ->
  let m' := st m (p + Z.of_nat (length u)) 0 in
  cstr m' p u /\ cstr m' (p + Z.of_nat (length u) + 1) t.
Proof.
  intros p H m'. pose proof (cstr_range _ _ _ H) as [Hp Hr]. len. simpl in Hr.
  destruct (cstr_chars _ _ _ H) as [Hn Hc].
  apply Forall_app in Hn as [Hu _]. split.
  - rewrite <- (app_nil_r u). apply cstr_app; [|done|done|].
    + cbn [cstr]. unfold m'. rewrite length_st, ld_st, decide_True by lia. split; [lia|done].
    + intros k Hk. rewrite <- (lookup_app_l u (c :: t)) by done. rewrite Hc by len.
      unfold m'. rewrite ld_st by lia. case_decide; [lia|done].
  - assert (cstr m (p + Z.of_nat (length u) + 1) t) as Ht.
    { clear m' Hp Hr Hc Hu. revert p H. induction u as [|x u IH]; intros p H; cbn [app cstr length] in *.
      - rewrite Z.add_0_r. apply H.
      - destruct H as (_ & _ & _ & H). apply IH in H. by replace (p + Z.of_nat (S (length u)) + 1) with (p + 1 + Z.of_nat (length u) + 1) by lia. }
    eapply cstr_frame; [exact Ht|apply length_st|]. intros i Hi. unfold m'. rewrite ld_st by lia.
    case_decide; [lia|done].
Qed.

Lemma strtok_turns_slash fuel : forall m p d s str save,
  (match str with Some q => Some q | None => save end) = Some p ->
  cstr m p s -> cstr m d [SLASH] -> (d + 1 < p \/ p + Z.of_nat (length s) < d) ->
  (length s < fuel)%nat ->
  strtok_turns fuel m str d save = Some (path_tokens s []).
Proof.
  induction fuel as [|fuel IH]; intros m p d s str save Hs H Hd Ho Hf; [lia|].
  cbn [strtok_turns]. unfold strtok_r. rewrite Hs.
  destruct (run_split true s) as (u & t & -> & Hu & Ht).
  pose proof (cstr_range _ _ _ H) as Hr. len.
  destruct (skip_loop_at m d true u t (S (length m)) p H Hd ltac:(lia) Hu Ht) as [-> H1].
  rewrite (tokens_slashes _ _ Hu).
  destruct Ht as [->|(c & t' & -> & Hc)].
  { cbn [cstr] in H1. destruct H1 as [_ ->]. done. }
  assert ((ld m (p + Z.of_nat (length u)) =? 0) = false) as ->.
  { cbn [cstr] in H1. destruct H1 as (_ & Hn & -> & _). by apply Z.eqb_neq. }
  destruct (run_split false (c :: t')) as (w & t & E & Hw & Ht). rewrite E in *.
  assert (0 < length w)%nat as Hw0.
  { destruct w; [|simpl; lia]. destruct Ht as [->|(? & ? & -> & Hx)]; [done|].
    injection E as -> _. simpl in *. congruence. }
  set (q := p + Z.of_nat (length u)) in *. pose proof (cstr_range _ _ _ H1) as Hr1. len.
  destruct (skip_loop_at m d false w t (S (length m)) q H1 Hd ltac:(lia) Hw Ht) as [-> H2].
  rewrite path_tokens_skip, app_nil_r by by apply not_slashes.
  destruct Ht as [->|(x & t2 & -> & Hx)].
  - pose proof H2 as [_ ->]. change (0 =? 0) with true. rewrite app_nil_r in *. cbn iota.
    rewrite (IH m (q + Z.of_nat (length w)) d [] None _ eq_refl H2 Hd) by (simpl; lia).
    simpl. rewrite (text_cstr _ _ _ H1), decide_False, rev_involutive; [done|].
    intros E0%(f_equal length). rewrite length_rev in E0. simpl in E0. lia.
  - destruct (cstr_cut _ _ _ _ _ H1) as [H3 H4].
    pose proof H2 as (_ & Hn & -> & _). apply Z.eqb_neq in Hn. rewrite Hn. cbn iota. cbn [length] in *.
    rewrite (IH _ (q + Z.of_nat (length w) + 1) d t2 None _ eq_refl H4); [| |lia|lia].
    + cbn [path_tokens]. simpl in Hx. rewrite Hx. simpl.
      rewrite (text_cstr _ _ _ H3), decide_False, rev_involutive; [done|].
      intros E0%(f_equal length). rewrite length_rev in E0. simpl in E0. lia.
    + eapply cstr_frame; [exact Hd|apply length_st|]. simpl. intros i Hi.
      pose proof (cstr_range _ _ _ Hd). rewrite ld_st by lia. case_decide; [lia|done].
Qed.

(** The loop over [strtok_r(path, "/", &save)] with which the VFS and both
    filesystem drivers split a path ends after at most [strlen(path) + 1]
    calls, and its body sees exactly the non-empty components of the path, in
    order, although every call writes a NUL into the buffer. *)
Theorem strtok_r_path_tokens m p d s :
  cstr m p s -> cstr m d [SLASH] -> d + 1 < p \/ p + Z.of_nat (length s) < d ->
  strtok_turns (S (length s)) m (Some p) d None = Some (path_tokens s []).
Proof. intros. eapply strtok_turns_slash; eauto. Qed.

(** "//a/bc/" at 0 and "/" at 8. *)
Lemma strtok_r_path_tokens_witness :
  strtok_turns 8 [47; 47; 97; 47; 98; 99; 47; 0; 47; 0] (Some 0) 8 None = Some [[97]; [98; 99]].
Proof.
  assert (path_tokens [47; 47; 97; 47; 98; 99; 47] [] = [[97]; [98; 99]]) as <- by (vm_compute; reflexivity).
  apply (strtok_r_path_tokens [47; 47; 97; 47; 98; 99; 47; 0; 47; 0] 0 8 [47; 47; 97; 47; 98; 99; 47]).
  - vm_compute. repeat split; congruence.
  - vm_compute. repeat split; congruence.
  - right. vm_compute. reflexivity.
Defined.

(** ** Searching *)

(** The first place of [p] in [s]. *)
Fixpoint find_text (p s : list Z) : option nat :=
  if decide (take (length p) s = p) then Some 0%nat else
  match s with
  | [] => None
  | _ :: s => S <$> find_text p s
  end.

Lemma strncmp_loop_prefix m p : forall s a q, cstr m a s -> cstr m q p ->
  strncmp_loop (length p) m a q = 0 <-> take (length p) s = p.
Proof.
  induction p as [|c p IH]; intros s a q Ha Hq; [done|]. cbn [cstr length strncmp_loop] in *.
  destruct Hq as (_ & Hc & Eq & Hq). rewrite Eq. destruct s as [|x s]; cbn [cstr take] in *.
  - destruct Ha as [_ ->]. rewrite (proj2 (Z.eqb_neq 0 c)) by done. cbn [negb orb]. split; [lia|done].
  - destruct Ha as (_ & Hx & -> & Ha). destruct (Z.eqb_spec x c) as [->|Hn]; cbn [negb orb].
    + rewrite (proj2 (Z.eqb_neq c 0)) by done. cbn [orb]. rewrite (IH s) by done. split; [by intros ->|by intros [= ->]].
    + split; [lia|intros [= ? _]; congruence].
Qed.

(** [strstr] finds the first occurrence of a string in another. *)
Lemma strstr_find m h q s p : cstr m h s -> cstr m q p -> p <> [] ->
  strstr m h q = (fun k => h + Z.of_nat k) <$> find_text p s.
Proof.
  intros Hs Hp Hne. unfold strstr. destruct p as [|c p]; [done|]. pose proof Hp as (_ & Hc & Eq & _).
  rewrite Eq, (proj2 (Z.eqb_neq c 0)), (strlen_cstr _ _ _ Hp) by done.
  assert (length s < S (length m))%nat as Hf by (pose proof (cstr_range _ _ _ Hs); lia).
  revert h Hs Hf. generalize (S (length m)). induction s as [|x s IH]; intros fuel h Hs Hf; (destruct fuel as [|fuel]; [lia|]);
    pose proof (strncmp_loop_prefix m (c :: p) _ h q Hs Hp) as Hpre; cbn [strstr_loop find_text];
    unfold strncmp; rewrite Nat2Z.id, Eq.
  - destruct Hs as [_ ->]. done.
  - pose proof Hs as (_ & Hx & Ex & Hs'). rewrite Ex, (proj2 (Z.eqb_neq x 0)) by done.
    destruct (decide (take (length (c :: p)) (x :: s) = c :: p)) as [E|E].
    + rewrite (proj2 Hpre E). injection E as -> _. rewrite !Z.eqb_refl. cbn. by rewrite Z.add_0_r.
    + rewrite andb_comm, (proj2 (Z.eqb_neq _ 0)) by tauto. cbn [andb]. unfold strncmp in IH.
      rewrite (IH fuel (h + 1)) by (done || cbn in Hf; lia). rewrite <- option_fmap_compose.
      apply option_fmap_ext. intros k. cbn. lia.
Qed.
End CStrOk.
