(* ===== verification/Printf.v ===== *)
(** * Formatted output (libc/printf.c)

    The formatter emits one character at a time, to the terminal or into a
    bounded buffer.  The characters sent to [vga_putc] are collected in
    [ob_sent].  The variable arguments are a list of machine words and strings;
    using an argument that is not there, or of the other kind, is undefined in
    C, and so is running behind the end of the format, which a format ending in
    a lone percent sign makes the loop do: [None]. *)

From stdpp Require Import strings.
From S2P Require Import Prelude VfsTypes CLib.

Inductive arg := AWord (v : Z) | AText (s : option (list Z)).

Record outbuf := mk_outbuf {
  ob_buf : option (list Z); ob_size : Z; ob_pos : Z; ob_total : Z; ob_terminal : bool;
  ob_sent : list Z;
}.

Definition emit (out : outbuf) (c : Z) : outbuf :=
  let total := u32 (ob_total out + 1) in
  if ob_terminal out then
    mk_outbuf (ob_buf out) (ob_size out) (ob_pos out) total (ob_terminal out) (ob_sent out ++ [c])
  else match ob_buf out with
  | Some b =>
      if (0 <? ob_size out) && (u32 (ob_pos out + 1) <? ob_size out)
      then mk_outbuf (Some (put b (ob_pos out) [c])) (ob_size out) (u32 (ob_pos out + 1)) total
             (ob_terminal out) (ob_sent out)
      else mk_outbuf (ob_buf out) (ob_size out) (ob_pos out) total (ob_terminal out) (ob_sent out)
  | None => mk_outbuf (ob_buf out) (ob_size out) (ob_pos out) total (ob_terminal out) (ob_sent out)
  end.

Definition emit_str (out : outbuf) (s : option (list Z)) : outbuf :=
  foldl emit out (default (lit "(null)") s).

Definition digit_chars (upper : bool) : list Z :=
  if upper then lit "0123456789ABCDEF" else lit "0123456789abcdef".

(** The digits as the loop stores them in [tmp], least significant first; a
    32-bit value has at most 32 of them in any base from 2. *)
Fixpoint number_loop (fuel : nat) (value base : Z) (upper : bool) : list Z :=
  match fuel with
  | O => []
  | S fuel => if value =? 0 then []
              else byte_at (digit_chars upper) (value mod base) :: number_loop fuel (value / base) base upper
  end.

Definition emit_number (out : outbuf) (value base : Z) (sign upper : bool) : outbuf :=
  let negative := sign && (s32 value <? 0) in
  let out := if negative then emit out 45 else out in
  let value := if negative then u32 (- s32 value) else value in
  if value =? 0 then emit out 48
  else foldl emit out (rev (number_loop 32 value base upper)).

(** The [switch] on the character behind the percent sign. *)
Definition directive (out : outbuf) (c : Z) (args : list arg) : option (outbuf * list arg) :=
  if c =? 37 then Some (emit out 37, args)
  else if c =? 99 then
    match args with AWord v :: args => Some (emit out (u8 v), args) | _ => None end
  else if c =? 115 then
    match args with AText s :: args => Some (emit_str out s, args) | _ => None end
  else if (c =? 100) || (c =? 105) then
    match args with AWord v :: args => Some (emit_number out v 10 true false, args) | _ => None end
  else if c =? 117 then
    match args with AWord v :: args => Some (emit_number out v 10 false false, args) | _ => None end
  else if c =? 120 then
    match args with AWord v :: args => Some (emit_number out v 16 false false, args) | _ => None end
  else if c =? 88 then
    match args with AWord v :: args => Some (emit_number out v 16 false true, args) | _ => None end
  else if c =? 112 then
    match args with
    | AWord v :: args => Some (emit_number (emit_str out (Some (lit "0x"))) v 16 false false, args)
    | _ => None
    end
  else Some (emit (emit out 37) c, args).

(** The [for] loop of [vsnprintf] and of [vprintf]. *)
Fixpoint format_loop (fmt : list Z) (args : list arg) (out : outbuf) : option outbuf :=
  match fmt with
  | [] => Some out
  | c :: fmt =>
      if negb (c =? 37) then format_loop fmt args (emit out c)
      else match fmt with
      | [] => None
      | c :: fmt =>
          if c =? 108 then
            match fmt with
            | [] => None
            | c :: fmt => '(out, args) ← directive out c args; format_loop fmt args out
            end
          else '(out, args) ← directive out c args; format_loop fmt args out
      end
  end.

(** The buffer behind [buf] and the result. *)
Definition vsnprintf (buf : option (list Z)) (size : Z) (fmt : list Z) (args : list arg)
    : option (option (list Z) * Z) :=
  out ← format_loop fmt args (mk_outbuf buf size 0 0 false []);
  let b := match ob_buf out with
           | Some b => if 0 <? size
                       then Some (put b (if ob_pos out <? size then ob_pos out else size - 1) [0])
                       else Some b
           | None => None
           end in
  Some (b, s32 (ob_total out)).

Definition snprintf := vsnprintf.

(** The characters sent to the terminal and the result. *)
Definition vprintf (fmt : list Z) (args : list arg) : option (list Z * Z) :=
  out ← format_loop fmt args (mk_outbuf None 0 0 0 true []);
  Some (ob_sent out, s32 (ob_total out)).

Definition printf := vprintf.
Definition putchar (ch : Z) : list Z := [u8 ch].
Definition puts (str : list Z) : list Z := str ++ [10].

(** ** The buffer and the terminal see the same text *)

(** The state of a bounded output after the characters [t]. *)
Definition buffered (b : list Z) (size : Z) (t : list Z) : outbuf :=
  let k := take (Z.to_nat (size - 1)) t in
  mk_outbuf (Some (put b 0 k)) size (Z.of_nat (length k)) (u32 (Z.of_nat (length t))) false [].
Definition sent (t : list Z) : outbuf := mk_outbuf None 0 0 (u32 (Z.of_nat (length t))) true t.

Lemma total_step (t : list Z) c : u32 (u32 (Z.of_nat (length t)) + 1) = u32 (Z.of_nat (length (t ++ [c]))).
Proof. unfold u32. rewrite Zplus_mod_idemp_l. f_equal. len. simpl. lia. Qed.

Lemma emit_sent t c : emit (sent t) c = sent (t ++ [c]).
Proof. unfold emit, sent. simpl. f_equal. apply total_step. Qed.

Lemma foldl_sent cs : forall t, foldl emit (sent t) cs = sent (t ++ cs).
Proof.
  induction cs as [|c cs IH]; intros t; simpl; [by rewrite app_nil_r|].
  by rewrite emit_sent, IH, <- (assoc_L (++)).
Qed.

(** The characters a number contributes. *)
Definition number_text (value base : Z) (sign upper : bool) : list Z :=
  let negative := sign && (s32 value <? 0) in
  let v := if negative then u32 (- s32 value) else value in
  (if negative then [45] else []) ++ (if v =? 0 then [48] else rev (number_loop 32 v base upper)).

Lemma emit_number_sent t v base sg up :
  emit_number (sent t) v base sg up = sent (t ++ number_text v base sg up).
Proof.
  unfold emit_number, number_text.
  destruct (sg && (s32 v <? 0)); rewrite ?emit_sent; case_match; rewrite ?emit_sent, ?foldl_sent;
    by rewrite <- ?(assoc_L (++)).
Qed.

Section Outputs.
Context (b : list Z) (size : Z) (Hsize : 0 < size <= Z.of_nat (length b)) (Hw : size < 2 ^ 32).

Lemma put_snoc (t : list Z) c :
  (length t < length b)%nat -> put (put b 0 t) (Z.of_nat (length t)) [c] = put b 0 (t ++ [c]).
Proof.
  intros Hl. apply list_eq. intros i. unfold put. rewrite !splice_lookup. rewrite length_splice.
  rewrite Nat2Z.id. change (Z.to_nat 0) with 0%nat. rewrite length_app. simpl.
  repeat case_decide; try lia; try done.
  - assert (i = length t) as -> by lia. rewrite lookup_app_r by lia.
    by rewrite !Nat.sub_0_r.
  - rewrite lookup_app_l by lia. done.
Qed.

Lemma emit_buffered t c : emit (buffered b size t) c = buffered b size (t ++ [c]).
Proof.
  unfold emit, buffered. cbn [ob_terminal ob_buf ob_size ob_pos ob_total ob_sent].
  rewrite (total_step t c), length_take.
  rewrite (u32_small (_ + 1)) by (unfold is_u32; lia).
  rewrite (proj2 (Z.ltb_lt 0 size)) by lia. cbn [andb].
  destruct (Z.ltb_spec (Z.of_nat (Z.to_nat (size - 1) `min` length t) + 1) size) as [Hf|Hf].
  - rewrite !take_ge by (len; simpl; lia). rewrite Nat.min_r by lia.
    rewrite put_snoc by lia. f_equal. len. simpl. lia.
  - rewrite take_app_le by lia. by rewrite length_take.
Qed.

Lemma foldl_buffered cs : forall t, foldl emit (buffered b size t) cs = buffered b size (t ++ cs).
Proof.
  induction cs as [|c cs IH]; intros t; simpl; [by rewrite app_nil_r|].
  by rewrite emit_buffered, IH, <- (assoc_L (++)).
Qed.

Lemma emit_number_buffered t v base sg up :
  emit_number (buffered b size t) v base sg up = buffered b size (t ++ number_text v base sg up).
Proof.
  unfold emit_number, number_text.
  destruct (sg && (s32 v <? 0)); rewrite ?emit_buffered; case_match; rewrite ?emit_buffered, ?foldl_buffered;
    by rewrite <- ?(assoc_L (++)).
Qed.

(** Both outputs go through a directive in step. *)
Lemma directive_step t c args :
  match directive (sent t) c args with
  | Some (out, rest) => exists t', out = sent t' /\ directive (buffered b size t) c args = Some (buffered b size t', rest)
  | None => directive (buffered b size t) c args = None
  end.
Proof.
  unfold directive, emit_str.
  repeat (case_match; try done); simplify_eq;
    rewrite ?foldl_sent, ?foldl_buffered, ?emit_sent, ?emit_buffered, ?emit_number_sent, ?emit_number_buffered;
    eauto.
Qed.

Lemma format_step fmt : forall t args,
  match format_loop fmt args (sent t) with
  | Some out => exists t', out = sent t' /\ format_loop fmt args (buffered b size t) = Some (buffered b size t')
  | None => format_loop fmt args (buffered b size t) = None
  end.
Proof.
  assert (forall k fmt c args t,
    (length fmt < k)%nat ->
    (forall fmt' t args, (length fmt' < k)%nat -> match format_loop fmt' args (sent t) with
       | Some out => exists t', out = sent t' /\ format_loop fmt' args (buffered b size t) = Some (buffered b size t')
       | None => format_loop fmt' args (buffered b size t) = None end) ->
    match ('(out, args) ← directive (sent t) c args; format_loop fmt args out) with
    | Some out => exists t', out = sent t' /\
        ('(out, args) ← directive (buffered b size t) c args; format_loop fmt args out) = Some (buffered b size t')
    | None => ('(out, args) ← directive (buffered b size t) c args; format_loop fmt args out) = None
    end) as Hdir.
  { intros k fmt' c args t Hk IH. pose proof (directive_step t c args) as Hd.
    destruct (directive (sent t) c args) as [[out rest]|]; simpl; [|by rewrite Hd].
    destruct Hd as (t' & -> & ->). simpl. by apply IH. }
  induction fmt as [fmt IH] using (well_founded_induction (well_founded_ltof _ (@length Z))).
  unfold ltof in IH. intros t args.
  destruct fmt as [|c fmt]; cbn [format_loop]; [by eauto|].
  destruct (c =? 37); cbn [negb].
  2: { rewrite emit_sent, emit_buffered. apply IH. simpl. lia. }
  destruct fmt as [|c1 fmt]; [done|]. destruct (c1 =? 108).
  - destruct fmt as [|c2 fmt]; [done|]. eapply (Hdir (S (length fmt))); [lia|]. intros. apply IH. simpl. lia.
  - eapply (Hdir (S (length fmt))); [lia|]. intros. apply IH. simpl. lia.
Qed.
End Outputs.

(** C32: [vsnprintf] into a buffer of [size] bytes stores exactly the text
    [vprintf] sends to the terminal for the same format and arguments, cut to
    [size - 1] characters and followed by a NUL, writes no byte behind that,
    and returns the same (uncut) length; the two run into undefined behaviour
    on the same formats and arguments. *)
Theorem vsnprintf_vprintf b size fmt args :
  0 < size <= Z.of_nat (length b) -> size < 2 ^ 32 ->
  vsnprintf (Some b) size fmt args =
    (fun '(t, r) => (Some (put b 0 (take (Z.to_nat (size - 1)) t ++ [0])), r)) <$> vprintf fmt args.
Proof.
  intros Hs Hw. unfold vsnprintf, vprintf.
  pose proof (format_step b size Hs Hw fmt [] args) as H.
  change (sent []) with (mk_outbuf None 0 0 0 true []) in H.
  assert (buffered b size [] = mk_outbuf (Some b) size 0 0 false []) as E.
  { unfold buffered. rewrite take_nil. unfold put, splice. rewrite take_nil. simpl. by rewrite drop_0. }
  rewrite E in H. destruct (format_loop fmt args (mk_outbuf None 0 0 0 true [])) as [out|].
  2: { by rewrite H. }
  destruct H as (t & -> & ->). unfold buffered. cbn [mbind option_bind fmap option_fmap option_map ob_buf ob_pos ob_sent ob_total sent].
  rewrite (proj2 (Z.ltb_lt 0 size)) by lia. rewrite length_take.
  rewrite (proj2 (Z.ltb_lt _ size)) by lia. do 3 f_equal. rewrite <- length_take. apply put_snoc.
  rewrite length_take. lia.
Qed.

(** "x=%d" into five bytes: four characters and the NUL, the result is 6. *)
Lemma vsnprintf_vprintf_witness :
  vsnprintf (Some (zeros 8)) 5 (lit "x=%d!") [AWord 4294967254] = Some (Some (lit "x=-4" ++ zeros 4), 6).
Proof.
  rewrite (vsnprintf_vprintf (zeros 8) 5) by (vm_compute; try split; congruence).
  vm_compute. reflexivity.
Defined.

(** ** Numbers read back *)

Lemma s32_cong x y : u32 x = u32 y -> s32 x = s32 y.
Proof. unfold s32. by intros ->. Qed.

Lemma u32_s32 x : u32 (s32 x) = u32 x.
Proof. pose proof (u32_s32_add x 0) as E. by rewrite !Z.add_0_r in E. Qed.

Lemma s32_step x b d : s32 (s32 x * b + d) = s32 (x * b + d).
Proof.
  apply s32_cong. pose proof (u32_s32 x) as E. unfold u32 in *.
  rewrite <- Zplus_mod_idemp_l, <- Zmult_mod_idemp_l, E, Zmult_mod_idemp_l, Zplus_mod_idemp_l. done.
Qed.

Lemma digit_of_char d : 0 <= d < 16 -> digit_of (byte_at (digit_chars false) d) = Some d.
Proof.
  intros Hd. assert (d ∈ seqZ 0 16) as Hin by (apply elem_of_seqZ; lia).
  clear Hd. revert d Hin. apply Forall_forall. vm_compute. repeat constructor.
Qed.

Lemma digits_number fuel base rest : forall v,
  1 < base <= 16 -> 0 <= v < base ^ Z.of_nat fuel ->
  digits base (rev (number_loop fuel v base false) ++ rest) 0 = digits base rest (s32 v).
Proof.
  intros v Hb. revert v rest. induction fuel as [|fuel IH]; intros v rest Hv; cbn [number_loop].
  - simpl in Hv. assert (v = 0) as -> by lia. done.
  - destruct (Z.eqb_spec v 0) as [->|Hn]; [done|]. cbn [rev]. rewrite <- (assoc_L (++)).
    rewrite Nat2Z.inj_succ, Z.pow_succ_r in Hv by lia.
    rewrite IH by (split; [apply Z.div_pos; lia|apply Z.div_lt_upper_bound; lia]).
    pose proof (Z.mod_pos_bound v base ltac:(lia)). cbn [app digits].
    rewrite digit_of_char by lia. rewrite (proj2 (Z.leb_gt base _)) by lia.
    rewrite s32_step. do 2 f_equal. rewrite (Z.div_mod v base) at 3 by lia. lia.
Qed.

(** No digit of base 16 is a blank, a sign or the x of a prefix. *)
Definition plain_digit (c : Z) : bool :=
  negb (isspace c) && negb (c =? 45) && negb (c =? 43) && negb (c =? 120) && negb (c =? 88).

Lemma plain_digit_char d : 0 <= d < 16 -> plain_digit (byte_at (digit_chars false) d) = true.
Proof.
  intros Hd. assert (d ∈ seqZ 0 16) as Hin by (apply elem_of_seqZ; lia).
  clear Hd. revert d Hin. apply Forall_forall. vm_compute. repeat constructor.
Qed.

Lemma number_loop_plain fuel base : 1 < base <= 16 -> forall v,
  Forall (fun c => plain_digit c = true) (number_loop fuel v base false).
Proof.
  intros Hb. induction fuel as [|fuel IH]; intros v; cbn [number_loop]; [constructor|].
  destruct (v =? 0); constructor; [|apply IH].
  apply plain_digit_char. pose proof (Z.mod_pos_bound v base). lia.
Qed.

(** [strtol] behind the sign, on the digits of a number. *)
Definition digit_text (v base : Z) : list Z :=
  if v =? 0 then [48] else rev (number_loop 32 v base false).

Lemma digit_text_head v base : 1 < base <= 16 -> exists c s, digit_text v base = c :: s /\
  Forall (fun c => plain_digit c = true) (c :: s).
Proof.
  intros Hb. unfold digit_text. destruct (Z.eqb_spec v 0) as [->|Hv]; [exists 48, []; by repeat constructor|].
  pose proof (number_loop_plain 32 base Hb v) as H. apply Forall_rev in H. rewrite rev_alt in H.
  rewrite <- rev_alt in H.
  destruct (rev (number_loop 32 v base false)) as [|c s] eqn:E; [|eauto].
  apply (f_equal length) in E. rewrite length_rev in E. cbn [number_loop] in E.
  rewrite (proj2 (Z.eqb_neq v 0)) in E by done. done.
Qed.

Lemma digit_text_digits v base : 1 < base <= 16 -> 0 <= v < 2 ^ 32 ->
  digits base (digit_text v base) 0 = (s32 v, []).
Proof.
  intros Hb Hv. unfold digit_text. destruct (Z.eqb_spec v 0) as [->|_].
  - cbn [digits]. change (digit_of 48) with (Some 0). cbn iota beta. rewrite (proj2 (Z.leb_gt base 0)) by lia. done.
  - rewrite <- (app_nil_r (rev _)). rewrite digits_number; [done|done|].
    split; [lia|]. apply Z.lt_le_trans with (2 ^ 32); [lia|]. apply Z.pow_le_mono_l. lia.
Qed.

Lemma strtol_digits v base : base = 10 \/ base = 16 -> 0 <= v < 2 ^ 32 ->
  strtol (digit_text v base) base = (s32 v, []) /\
  strtol (45 :: digit_text v base) base = (s32 (- s32 v), []).
Proof.
  intros Hb Hv. assert (1 < base <= 16) as Hb' by lia.
  pose proof (digit_text_digits v base Hb' Hv) as Hd.
  destruct (digit_text_head v base Hb') as (c & s & E & Hp). rewrite E in *.
  assert (hex_prefix (c :: s) = false) as Hx.
  { destruct s as [|x s]; [done|]. apply Forall_cons in Hp as [_ [Hx _]%Forall_cons]. simpl.
    unfold plain_digit in Hx. destruct (x =? 120), (x =? 88); rewrite ?andb_false_r in *; done. }
  apply Forall_cons in Hp as [Hc _]. unfold plain_digit in Hc.
  destruct (isspace c) eqn:Es; [done|]. destruct (c =? 45) eqn:E1; [done|]. destruct (c =? 43) eqn:E2; [done|].
  unfold strtol. cbn [skip_space]. change (isspace 45) with false. rewrite Es. cbn iota. rewrite E1, E2.
  change (45 =? 45) with true. cbn iota. rewrite Hx, andb_false_r.
  rewrite (proj2 (Z.eqb_neq base 0)) by lia. rewrite Hd. split; f_equal.
  - rewrite Z.mul_1_r. apply s32_cong, u32_s32.
  - f_equal. lia.
Qed.

Lemma vprintf_number c v base sg :
  (forall out, directive out c [AWord v] = Some (emit_number out v base sg false, [])) ->
  c <> 108 -> exists r, vprintf [37; c] [AWord v] = Some (number_text v base sg false, r).
Proof.
  intros Hd Hc. unfold vprintf. change (mk_outbuf None 0 0 0 true []) with (sent []).
  cbn [format_loop]. change (37 =? 37) with true. cbn [negb]. rewrite (proj2 (Z.eqb_neq c 108)) by done.
  rewrite Hd. cbn [mbind option_bind]. rewrite emit_number_sent. eexists. reflexivity.
Qed.

Lemma u32_opp x y : u32 x = u32 y -> u32 (- x) = u32 (- y).
Proof.
  unfold u32. intros E. rewrite <- !Z.sub_0_l, <- (Zminus_mod_idemp_r 0 x), <- (Zminus_mod_idemp_r 0 y).
  by rewrite E.
Qed.

(** A negated pattern read as the negative number it stands for. *)
Lemma s32_neg v : s32 (- s32 (u32 (- s32 v))) = s32 v.
Proof.
  apply s32_cong. transitivity (u32 (- - s32 v)); [|by rewrite Z.opp_involutive, u32_s32].
  apply u32_opp. by rewrite u32_s32, u32_idemp.
Qed.

(** What [printf] writes for %d, [atoi] reads back, for every 32-bit value
    including INT_MIN; and [strtol] in base 16 reads back what %x writes. *)
Theorem atoi_printf v :
  0 <= v < 2 ^ 32 ->
  (exists t r, vprintf (lit "%d") [AWord v] = Some (t, r) /\ atoi t = s32 v) /\
  (exists t r, vprintf (lit "%x") [AWord v] = Some (t, r) /\ strtol t 16 = (s32 v, [])).
Proof.
  intros Hv. change (lit "%d") with [37; 100]. change (lit "%x") with [37; 120]. split.
  - destruct (vprintf_number 100 v 10 true) as [r Hr]; [reflexivity|done|].
    exists (number_text v 10 true false), r. split; [exact Hr|]. unfold atoi, number_text. cbn [andb].
    destruct (Z.ltb_spec (s32 v) 0) as [Hn|Hn]; cbn [app].
    + destruct (strtol_digits (u32 (- s32 v)) 10) as [_ E]; [auto|apply u32_range|].
      unfold digit_text in E. rewrite E. apply s32_neg.
    + destruct (strtol_digits v 10) as [E _]; [auto|done|]. unfold digit_text in E. by rewrite E.
  - destruct (vprintf_number 120 v 16 false) as [r Hr]; [reflexivity|done|].
    exists (number_text v 16 false false), r. split; [exact Hr|].
    destruct (strtol_digits v 16) as [E _]; [auto|done|]. exact E.
Qed.

Lemma atoi_printf_witness :
  (exists t r, vprintf (lit "%d") [AWord 2147483648] = Some (t, r) /\ atoi t = s32 2147483648) /\
  (exists t r, vprintf (lit "%x") [AWord 2147483648] = Some (t, r) /\ strtol t 16 = (s32 2147483648, [])).
Proof. apply (atoi_printf 2147483648). split; vm_compute; congruence. Defined.
