(* ===== verification/Vmm.v ===== *)
(** * Paging (kernel/vmm.c)

    The page directory, the page tables as words of physical memory, and the
    frame allocator of Pmm.v the tables come from.  [vmm_map_page] is shown to
    update the map from pages to physical pages that [vmm_get_mapping] reads,
    at the page given and nowhere else; [vmm_init] builds the identity map of
    the first 128 MiB. *)

From stdpp Require Import strings.
From S2P Require Import Prelude VfsTypes Printf Pmm.

Definition PAGE_PRESENT : Z := 0x001.
Definition PAGE_WRITE : Z := 0x002.
Definition PAGE_USER : Z := 0x004.
(** [~0xFFF] *)
Definition PAGE_MASK : Z := u32 (Z.lnot 0xFFF).

(** [page_directory], the words of memory, the frames, and the registers. *)
Record vmm := mk_vmm {
  page_directory : list Z; vm_words : gmap Z Z; vm_pmm : pmm; cr3 : Z; cr0 : Z;
}.
Implicit Types (s : vmm).

Definition load_word s (a : Z) : Z := default 0 (vm_words s !! a).
Definition set_words (w : gmap Z Z) s : vmm := mk_vmm (page_directory s) w (vm_pmm s) (cr3 s) (cr0 s).
Definition set_pde (i v : Z) s : vmm :=
  mk_vmm (<[Z.to_nat i := v]> (page_directory s)) (vm_words s) (vm_pmm s) (cr3 s) (cr0 s).
Definition set_pmm (p : pmm) s : vmm := mk_vmm (page_directory s) (vm_words s) p (cr3 s) (cr0 s).

(** A loop over [n] words from the address [a], the [i]th getting [f i]. *)
Fixpoint fill_words (n : nat) (f : Z -> Z) (a i : Z) (w : gmap Z Z) : gmap Z Z :=
  match n with
  | O => w
  | S n => fill_words n f a (i + 1) (<[a + 4 * i := f i]> w)
  end.

Definition IDENTITY_TABLES : nat := 32.

(** The body of the outer loop of [vmm_init]: one identity table. *)
Definition identity_entry (table i : Z) : Z :=
  Z.lor (Z.lor (u32 ((table * 1024 + i) * 4096)) PAGE_PRESENT) PAGE_WRITE.
Definition identity_table (tables table : Z) s : vmm :=
  let addr := tables + 4096 * table in
  set_pde table (Z.lor (Z.lor addr PAGE_PRESENT) PAGE_WRITE)
    (set_words (fill_words 1024 (identity_entry table) addr 0 (vm_words s)) s).
Fixpoint identity_loop (n : nat) (tables table : Z) s : vmm :=
  match n with
  | O => s
  | S n => identity_loop n tables (table + 1) (identity_table tables table s)
  end.

Definition load_page_directory (pd : Z) s : vmm := mk_vmm (page_directory s) (vm_words s) (vm_pmm s) pd (cr0 s).
Definition enable_paging s : vmm :=
  mk_vmm (page_directory s) (vm_words s) (vm_pmm s) (cr3 s) (Z.lor (cr0 s) 0x80000000).

(** The two [memset]s of [vmm_init]. *)
Definition clear_tables (tables : Z) s : vmm :=
  mk_vmm (replicate 1024 0) (fill_words (1024 * IDENTITY_TABLES) (fun _ => 0) tables 0 (vm_words s)) (vm_pmm s) (cr3 s) (cr0 s).

(** [vmm_init], with the addresses of the two arrays; the result is what it prints. *)
Definition vmm_init (pd tables : Z) : state vmm (option (list Z * Z)) := fun s =>
  let s := clear_tables tables s in
  let s := identity_loop IDENTITY_TABLES tables 0 s in
  let s := enable_paging (load_page_directory pd s) in
  (printf (lit "VMM: identity mapped %u MiB and enabled paging" ++ [10]) [AWord (Z.of_nat IDENTITY_TABLES * 4)], s).

Definition pd_index (virt : Z) : Z := Z.shiftr virt 22.
Definition pt_index (virt : Z) : Z := Z.land (Z.shiftr virt 12) 0x3FF.
Definition pde s (virt : Z) : Z := default 0 (page_directory s !! Z.to_nat (pd_index virt)).
Definition present (entry : Z) : bool := negb (Z.land entry PAGE_PRESENT =? 0).

(** The part of [vmm_map_page] that finds the table, or makes one. *)
Definition find_table (virt flags : Z) : state vmm Z := fun s =>
  if negb (present (pde s virt)) then
    let '(frame, p) := pmm_alloc_frame (vm_pmm s) in
    let s := set_pmm p s in
    let s := set_words (fill_words 1024 (fun _ => 0) frame 0 (vm_words s)) s in
    (frame, set_pde (pd_index virt) (Z.lor (Z.lor (Z.lor frame PAGE_PRESENT) PAGE_WRITE) (Z.land flags PAGE_USER)) s)
  else (Z.land (pde s virt) PAGE_MASK, s).

Definition vmm_map_page (virt phys flags : Z) : state vmm unit :=
  table ← find_table virt flags;
  modify (fun s => set_words (<[table + 4 * pt_index virt :=
    Z.lor (Z.lor (Z.land phys PAGE_MASK) (Z.land flags 0xFFF)) PAGE_PRESENT]> (vm_words s)) s).

Definition vmm_get_mapping (virt : Z) s : Z :=
  if negb (present (pde s virt)) then 0 else
  let pte := load_word s (Z.land (pde s virt) PAGE_MASK + 4 * pt_index virt) in
  if negb (present pte) then 0
  else Z.lor (Z.land pte PAGE_MASK) (Z.land virt 0xFFF).

(** ** Entries *)

Lemma mask_idem x : Z.land (Z.land x PAGE_MASK) PAGE_MASK = Z.land x PAGE_MASK.
Proof. by rewrite <- Z.land_assoc. Qed.

Lemma mask_low x m : Z.land m PAGE_MASK = 0 -> Z.land (Z.land x m) PAGE_MASK = 0.
Proof. intros E. by rewrite <- Z.land_assoc, E, Z.land_0_r. Qed.

Lemma mask_page f : frame_ok f -> Z.land (f * 4096) PAGE_MASK = f * 4096.
Proof.
  intros Hf. unfold frame_ok in Hf. change MAX_FRAMES with 32768 in Hf.
  change (Z.land (f * 4096) PAGE_MASK) with (ALIGN_DOWN (f * 4096) FRAME_SIZE).
  rewrite align_down_4k by (unfold is_u32; lia). by rewrite Z.div_mul by lia.
Qed.

(** An entry: a page and flags that fit below it. *)
Lemma mask_entry a l r : Z.land l PAGE_MASK = 0 -> Z.land r PAGE_MASK = 0 ->
  Z.land (Z.lor (Z.lor a l) r) PAGE_MASK = Z.land a PAGE_MASK.
Proof. intros E1 E2. by rewrite !Z.land_lor_distr_l, E1, E2, !Z.lor_0_r. Qed.

Lemma present_bit e : present e = Z.testbit e 0.
Proof.
  unfold present, PAGE_PRESENT. change 1 with (Z.ones 1). rewrite Z.land_ones by lia. change (2 ^ 1) with 2.
  rewrite <- Z.bit0_mod. by destruct (Z.testbit e 0).
Qed.

Lemma present_lor a b : present (Z.lor a b) = present a || present b.
Proof. by rewrite !present_bit, Z.lor_spec. Qed.

(** ** Indices *)

Lemma pt_range v : 0 <= pt_index v < 1024.
Proof. unfold pt_index. change 0x3FF with (Z.ones 10). rewrite Z.land_ones by lia. apply Z.mod_pos_bound. lia. Qed.

Lemma pd_range v : is_u32 v -> 0 <= pd_index v < 1024.
Proof.
  intros Hv. unfold is_u32 in Hv. unfold pd_index. rewrite Z.shiftr_div_pow2 by lia. split.
  - apply Z.div_pos; lia.
  - apply Z.div_lt_upper_bound; lia.
Qed.

Lemma page_split v : Z.shiftr v 12 = pd_index v * 1024 + pt_index v.
Proof.
  unfold pd_index, pt_index. change 0x3FF with (Z.ones 10). rewrite Z.land_ones by lia.
  change 22 with (12 + 10). rewrite <- Z.shiftr_shiftr by lia. rewrite (Z.shiftr_div_pow2 (Z.shiftr v 12)) by lia.
  rewrite (Z.div_mod (Z.shiftr v 12) 1024) at 1 by lia. change (2 ^ 10) with 1024. lia.
Qed.

Lemma same_page v w : Z.shiftr v 12 = Z.shiftr w 12 <-> pd_index v = pd_index w /\ pt_index v = pt_index w.
Proof. rewrite !page_split. pose proof (pt_range v). pose proof (pt_range w). lia. Qed.

(** ** Loops over words *)

Lemma fill_words_in n f a : forall i w j, i <= j < i + Z.of_nat n -> fill_words n f a i w !! (a + 4 * j) = Some (f j).
Proof.
  assert (forall n i w j, j < i -> fill_words n f a i w !! (a + 4 * j) = w !! (a + 4 * j)) as Hlow.
  { clear n. induction n as [|n IH]; intros i w j Hj; [done|]. cbn. rewrite IH by lia. by rewrite lookup_insert_ne by lia. }
  induction n as [|n IH]; intros i w j Hj; [lia|]. cbn. destruct (decide (j = i)) as [->|].
  - rewrite Hlow by lia. by rewrite lookup_insert_eq.
  - apply IH. lia.
Qed.

Lemma fill_words_out n f a x : forall i w, ~ a + 4 * i <= x < a + 4 * (i + Z.of_nat n) -> fill_words n f a i w !! x = w !! x.
Proof.
  induction n as [|n IH]; intros i w Hx; [done|]. cbn. rewrite IH by lia. by rewrite lookup_insert_ne by lia.
Qed.

(** ** Tables in frames of their own *)

Record vm_ok s : Prop := {
  vo_length : length (page_directory s) = 1024%nat;
  vo_pmm : pmm_wf (vm_pmm s);
  vo_table i e : page_directory s !! i = Some e -> present e = true ->
    exists f, Z.land e PAGE_MASK = f * 4096 /\ frame_ok f /\ frame_test (vm_pmm s) f = true;
  vo_apart i j e e' : page_directory s !! i = Some e -> page_directory s !! j = Some e' ->
    present e = true -> present e' = true -> Z.land e PAGE_MASK = Z.land e' PAGE_MASK -> i = j;
}.

Lemma pde_lookup s v : vm_ok s -> is_u32 v -> page_directory s !! Z.to_nat (pd_index v) = Some (pde s v).
Proof.
  intros Hs Hv. unfold pde. pose proof (pd_range v Hv).
  destruct (page_directory s !! Z.to_nat (pd_index v)) eqn:E; [done|].
  apply lookup_ge_None_1 in E. rewrite (vo_length _ Hs) in E. lia.
Qed.

(** Where the entry of a page is. *)
Definition slot s (v : Z) : Z := Z.land (pde s v) PAGE_MASK + 4 * pt_index v.

Lemma slot_apart s v w : vm_ok s -> is_u32 v -> is_u32 w -> present (pde s v) = true -> present (pde s w) = true ->
  slot s v = slot s w -> Z.shiftr v 12 = Z.shiftr w 12.
Proof.
  intros Hs Hv Hw Pv Pw E. unfold slot in E. pose proof (pt_range v). pose proof (pt_range w).
  pose proof (pde_lookup s v Hs Hv) as Lv. pose proof (pde_lookup s w Hs Hw) as Lw.
  destruct (vo_table _ Hs _ _ Lv Pv) as (f & Ef & _). destruct (vo_table _ Hs _ _ Lw Pw) as (g & Eg & _).
  rewrite Ef, Eg in E. assert (f = g) as -> by lia.
  pose proof (vo_apart _ Hs _ _ _ _ Lv Lw Pv Pw ltac:(congruence)) as Ei.
  apply same_page. pose proof (pd_range v Hv). pose proof (pd_range w Hw). split; lia.
Qed.

(** A frame just allocated, for [pmm_alloc_frame] in a well-formed state. *)
Lemma alloc_fresh p a p' : pmm_wf p -> pmm_alloc_frame p = (a, p') -> a <> 0 ->
  exists f, a = f * 4096 /\ frame_ok f /\ frame_test p f = false /\ pmm_wf p' /\
    forall g, frame_ok g -> frame_test p' g = bool_decide (g = f) || frame_test p g.
Proof.
  intros Hp E Ha. unfold pmm_alloc_frame in E. rewrite (wf_total _ Hp) in E.
  pose proof (alloc_frame_from_spec (Z.to_nat MAX_FRAMES) p 0 Hp ltac:(lia) ltac:(vm_compute; congruence)) as S.
  rewrite E in S. destruct S as [(f & Hf & -> & Hu & -> & _)|(-> & _)]; [|done].
  assert (frame_ok f) by (unfold frame_ok; change MAX_FRAMES with 32768 in *; lia).
  exists f. split_and!; [done|done|done|apply frame_set_wf; [done|lia]|]. intros g Hg. by apply frame_set_test.
Qed.

Lemma pde_set i v s w : is_u32 w -> 0 <= i < 1024 -> length (page_directory s) = 1024%nat ->
  pde (set_pde i v s) w = if decide (pd_index w = i) then v else pde s w.
Proof.
  intros Hw Hi Hl. unfold pde. cbn. pose proof (pd_range w Hw). case_decide as E.
  - subst i. by rewrite list_lookup_insert_eq by lia.
  - by rewrite list_lookup_insert_ne by lia.
Qed.

Lemma new_entry_page f flags : frame_ok f ->
  Z.land (Z.lor (Z.lor (Z.lor (f * 4096) PAGE_PRESENT) PAGE_WRITE) (Z.land flags PAGE_USER)) PAGE_MASK = f * 4096.
Proof.
  intros Hf. rewrite mask_entry by (done || by apply mask_low).
  rewrite Z.land_lor_distr_l, mask_page by done. apply Z.lor_0_r.
Qed.

Lemma new_entry_present a flags :
  present (Z.lor (Z.lor (Z.lor a PAGE_PRESENT) PAGE_WRITE) (Z.land flags PAGE_USER)) = true.
Proof. rewrite !present_lor. destruct (present a); [done|]. by destruct (present (Z.land _ _)). Qed.

(** A fresh table does not overlap a table in use. *)
Lemma fresh_table_ok s i f p' v : vm_ok s -> 0 <= i < 1024 -> frame_ok f -> frame_test (vm_pmm s) f = false -> pmm_wf p' ->
  (forall g, frame_ok g -> frame_test p' g = bool_decide (g = f) || frame_test (vm_pmm s) g) ->
  Z.land v PAGE_MASK = f * 4096 -> forall w,
  vm_ok (set_pde i v (set_words w (set_pmm p' s))).
Proof.
  intros Hs Hi Hf Hu Hp Ht Hv w.
  assert (forall j e, page_directory s !! j = Some e -> present e = true -> Z.land e PAGE_MASK <> f * 4096) as Hne.
  { intros j e Lj Pj E. destruct (vo_table _ Hs _ _ Lj Pj) as (g & Eg & _ & Tg). assert (g = f) as -> by lia. congruence. }
  split; cbn.
  - rewrite length_insert. apply Hs.
  - done.
  - intros j e Lj Pj. apply list_lookup_insert_Some in Lj as [(<- & <- & _)|[_ Lj]].
    + exists f. split_and!; [done|done|]. rewrite Ht by done. by rewrite bool_decide_eq_true_2.
    + destruct (vo_table _ Hs _ _ Lj Pj) as (g & Eg & Hg & Tg). exists g. split_and!; [done|done|].
      rewrite Ht, Tg by done. apply orb_true_r.
  - intros j k e e' Lj Lk Pj Pk E.
    apply list_lookup_insert_Some in Lj as [(<- & <- & _)|[_ Lj]]; apply list_lookup_insert_Some in Lk as [(<- & <- & _)|[_ Lk]].
    + done.
    + destruct (Hne _ _ Lk Pk). congruence.
    + destruct (Hne _ _ Lj Pj). congruence.
    + by apply (vo_apart _ Hs j k e e').
Qed.

(** The table found or made has no entry that was not there. *)
Lemma find_table_ok virt flags s : vm_ok s -> is_u32 virt ->
  (present (pde s virt) = false -> (pmm_alloc_frame (vm_pmm s)).1 <> 0) ->
  run (find_table virt flags) s (fun t s' => vm_ok s' /\ present (pde s' virt) = true /\
    t = Z.land (pde s' virt) PAGE_MASK /\ forall v, is_u32 v -> vmm_get_mapping v s' = vmm_get_mapping v s).
Proof.
  intros Hs Hv Ha. unfold run, find_table. destruct (present (pde s virt)) eqn:P; cbn [negb]; [by split_and!|].
  specialize (Ha eq_refl). destruct (pmm_alloc_frame (vm_pmm s)) as [a p'] eqn:E. cbn [fst] in Ha. cbn [fst snd].
  destruct (alloc_fresh _ _ _ (vo_pmm _ Hs) E Ha) as (f & -> & Hf & Hu & Hp & Ht).
  set (e := Z.lor _ (Z.land flags PAGE_USER)).
  assert (Z.land e PAGE_MASK = f * 4096) as Ee by by apply new_entry_page.
  assert (present e = true) as Pe by apply new_entry_present.
  pose proof (pd_range virt Hv) as Hi. cbn [set_pmm vm_words].
  set (w := fill_words 1024 (fun _ => 0) (f * 4096) 0 (vm_words s)).
  assert (forall v, is_u32 v -> pde (set_pde (pd_index virt) e (set_words w (set_pmm p' s))) v =
    if decide (pd_index v = pd_index virt) then e else pde s v) as Hpde.
  { intros v Hu32. by rewrite pde_set by (done || apply Hs). }
  split; [by eapply fresh_table_ok|]. rewrite Hpde, decide_True by done. split; [done|]. split; [done|].
  intros v Hv'. unfold vmm_get_mapping. rewrite Hpde by done. pose proof (pt_range v). case_decide as Ei.
  - assert (pde s v = pde s virt) as -> by (unfold pde; by rewrite Ei). rewrite P, Pe, Ee. cbn [negb].
    unfold load_word. cbn [vm_words set_pde set_words]. unfold w. by rewrite fill_words_in by lia.
  - destruct (present (pde s v)) eqn:Pv; [|done]. cbn [negb].
    destruct (vo_table _ Hs _ _ (pde_lookup s v Hs Hv') Pv) as (g & Eg & Hg & Tg).
    assert (g <> f) by congruence. rewrite Eg. unfold load_word. cbn [vm_words set_pde set_words]. unfold w.
    by rewrite fill_words_out by lia.
Qed.

Lemma vm_ok_words w s : vm_ok s -> vm_ok (set_words w s).
Proof. intros [A B C E]. by split. Qed.

(** The entry written for a page. *)
Lemma entry_page phys flags : Z.land (Z.lor (Z.lor (Z.land phys PAGE_MASK) (Z.land flags 0xFFF)) PAGE_PRESENT) PAGE_MASK =
  Z.land phys PAGE_MASK.
Proof. rewrite mask_entry by (done || by apply mask_low). apply mask_idem. Qed.


(** ** The identity map *)

Definition table_entry (k i : Z) : Z := Z.lor (Z.lor (k * 4096 + 4096 * i) PAGE_PRESENT) PAGE_WRITE.

(** The first [j] tables are built; the frames of the tables start at [k]. *)
Record built (k j : Z) (p : pmm) s : Prop := {
  bu_length : length (page_directory s) = 1024%nat;
  bu_pmm : vm_pmm s = p;
  bu_done i : 0 <= i < j -> page_directory s !! Z.to_nat i = Some (table_entry k i);
  bu_rest i : j <= i < 1024 -> page_directory s !! Z.to_nat i = Some 0;
  bu_words t i : 0 <= t < j -> 0 <= i < 1024 -> vm_words s !! (k * 4096 + 4096 * t + 4 * i) = Some (identity_entry t i);
}.

Lemma identity_table_built k j p s : 0 <= j < 1024 -> built k j p s -> built k (j + 1) p (identity_table (k * 4096) j s).
Proof.
  intros Hj [A B C E F]. split; cbn [identity_table set_pde set_words page_directory vm_pmm vm_words].
  - by rewrite length_insert.
  - done.
  - intros i Hi. destruct (decide (i = j)) as [->|]; [by rewrite list_lookup_insert_eq by lia|].
    rewrite list_lookup_insert_ne by lia. apply C. lia.
  - intros i Hi. rewrite list_lookup_insert_ne by lia. apply E. lia.
  - intros t i Ht Hi. destruct (decide (t = j)) as [->|]; [by rewrite fill_words_in by lia|].
    rewrite fill_words_out by lia. apply F; lia.
Qed.

Lemma identity_loop_built k p n : forall j s, 0 <= j -> j + Z.of_nat n <= 1024 -> built k j p s ->
  built k (j + Z.of_nat n) p (identity_loop n (k * 4096) j s).
Proof.
  induction n as [|n IH]; intros j s Hj Hn Hb; [by rewrite Z.add_0_r|]. cbn [identity_loop].
  replace (j + Z.of_nat (S n)) with (j + 1 + Z.of_nat n) by lia. apply IH; [lia|lia|]. apply identity_table_built; [lia|done].
Qed.

(** The frames of the tables, in use. *)
Definition tables_used (k : Z) (p : pmm) : Prop :=
  0 <= k /\ k + 32 <= MAX_FRAMES /\ forall i, 0 <= i < 32 -> frame_test p (k + i) = true.

Lemma table_entry_spec k i : frame_ok (k + i) -> Z.land (table_entry k i) PAGE_MASK = (k + i) * 4096 /\ present (table_entry k i) = true.
Proof.
  intros Hf. unfold table_entry. replace (k * 4096 + 4096 * i) with ((k + i) * 4096) by lia. split.
  - rewrite mask_entry by done. by apply mask_page.
  - rewrite !present_lor. by destruct (present _).
Qed.

Lemma built_present k p s i e : built k 32 p s -> page_directory s !! i = Some e -> present e = true ->
  (i < 32)%nat /\ e = table_entry k (Z.of_nat i).
Proof.
  intros Hb Li Pi. assert (i < 1024)%nat by (rewrite <- (bu_length _ _ _ _ Hb); by eapply lookup_lt_Some).
  destruct (decide (i < 32)%nat).
  - split; [done|]. pose proof (bu_done _ _ _ _ Hb (Z.of_nat i) ltac:(lia)) as L. rewrite Nat2Z.id in L. congruence.
  - pose proof (bu_rest _ _ _ _ Hb (Z.of_nat i) ltac:(lia)) as L. rewrite Nat2Z.id, Li in L. injection L as ->. done.
Qed.

Lemma built_ok k p s : pmm_wf p -> tables_used k p -> built k 32 p s -> vm_ok s.
Proof.
  intros Hp (Hk & Hk2 & Hu) Hb. pose proof (bu_pmm _ _ _ _ Hb) as Ep.
  assert (forall i, (i < 32)%nat -> frame_ok (k + Z.of_nat i)) as Hf by (unfold frame_ok; lia).
  split; [apply Hb|by rewrite Ep| |].
  - intros i e Li Pi. destruct (built_present _ _ _ _ _ Hb Li Pi) as [Hi ->]. exists (k + Z.of_nat i).
    split_and!; [by apply table_entry_spec, Hf|by apply Hf|]. rewrite Ep. apply Hu. lia.
  - intros i j e e' Li Lj Pi Pj E. destruct (built_present _ _ _ _ _ Hb Li Pi) as [Hi ->].
    destruct (built_present _ _ _ _ _ Hb Lj Pj) as [Hj ->].
    destruct (table_entry_spec k _ (Hf i Hi)) as [-> _] in E. destruct (table_entry_spec k _ (Hf j Hj)) as [Ej _]. lia.
Qed.

(** An address is its page and its offset. *)
Lemma page_and_offset v : 0 <= v -> Z.lor (Z.shiftr v 12 * 4096) (Z.land v 0xFFF) = v.
Proof.
  intros Hv. rewrite <- (Z.shiftl_mul_pow2 _ 12) by lia. apply Z.bits_inj'. intros i Hi.
  rewrite Z.lor_spec, Z.land_spec. change 0xFFF with (Z.ones 12). rewrite Z.testbit_ones by lia.
  destruct (decide (i < 12)).
  - rewrite Z.shiftl_spec_low by lia. rewrite (proj2 (Z.leb_le 0 i)), (proj2 (Z.ltb_lt i 12)) by lia. by rewrite andb_true_r.
  - rewrite Z.shiftl_spec_high, Z.shiftr_spec by lia. replace (i - 12 + 12) with i by lia.
    rewrite (proj2 (Z.ltb_ge i 12)) by lia. by rewrite andb_false_r, andb_false_r, orb_false_r.
Qed.

Lemma identity_page t i : 0 <= t < 32 -> 0 <= i < 1024 ->
  present (identity_entry t i) = true /\ Z.land (identity_entry t i) PAGE_MASK = (t * 1024 + i) * 4096.
Proof.
  intros Ht Hi. unfold identity_entry. rewrite u32_small by (unfold is_u32; lia). split.
  - rewrite !present_lor. by destruct (present _).
  - rewrite mask_entry by done. apply mask_page. unfold frame_ok. change MAX_FRAMES with 32768. lia.
Qed.

Lemma built_identity k p s v : tables_used k p -> built k 32 p s -> is_u32 v ->
  vmm_get_mapping v s = if decide (v < MAX_MEMORY_BYTES) then v else 0.
Proof.
  intros (Hk & Hk2 & _) Hb Hv. unfold vmm_get_mapping. pose proof (pd_range v Hv). pose proof (pt_range v).
  assert (pd_index v < 32 <-> v < MAX_MEMORY_BYTES) as Hlow.
  { unfold pd_index. rewrite Z.shiftr_div_pow2 by lia. change MAX_MEMORY_BYTES with (32 * 2 ^ 22).
    pose proof (Z.div_lt_upper_bound v (2 ^ 22) 32). pose proof (Z.div_le_lower_bound v (2 ^ 22) 32). lia. }
  case_decide.
  - assert (pde s v = table_entry k (pd_index v)) as ->.
    { unfold pde. by rewrite (bu_done _ _ _ _ Hb) by lia. }
    destruct (table_entry_spec k (pd_index v)) as [Em ->]; [unfold frame_ok; lia|]. cbn [negb]. rewrite Em.
    replace ((k + pd_index v) * 4096 + 4 * pt_index v) with (k * 4096 + 4096 * pd_index v + 4 * pt_index v) by lia.
    unfold load_word. rewrite (bu_words _ _ _ _ Hb) by lia. cbn [from_option id].
    destruct (identity_page (pd_index v) (pt_index v)) as [-> ->]; [lia|lia|]. cbn [negb].
    rewrite <- page_split. apply page_and_offset. unfold is_u32 in Hv. lia.
  - assert (pde s v = 0) as -> by (unfold pde; by rewrite (bu_rest _ _ _ _ Hb) by lia). done.
Qed.

Lemma built_start k w p a b : built k 0 p (mk_vmm (replicate 1024 0) w p a b).
Proof. split; [apply length_replicate|done|lia| |lia]. intros i Hi. apply lookup_replicate_2. lia. Qed.

Lemma built_registers k j p pd s : built k j p s -> built k j p (enable_paging (load_page_directory pd s)).
Proof. intros [A B C E F]. by split. Qed.

Lemma vmm_init_built pd k s : exists s1, built k 32 (vm_pmm s) s1 /\
  (vmm_init pd (k * 4096) s).2 = enable_paging (load_page_directory pd s1).
Proof.
  exists (identity_loop IDENTITY_TABLES (k * 4096) 0 (clear_tables (k * 4096) s)). split; [|reflexivity].
  change 32 with (0 + Z.of_nat IDENTITY_TABLES).
  apply identity_loop_built; [lia|vm_compute; congruence|]. exact (built_start k _ (vm_pmm s) (cr3 s) (cr0 s)).
Qed.

(** C24: [vmm_init], with its tables inside frames the allocator does not hand
    out, maps every address below 128 MiB to itself and none above it, sets the
    two registers, and leaves the tables in frames of their own. *)
Theorem vmm_init_identity pd k s : pmm_wf (vm_pmm s) -> tables_used k (vm_pmm s) ->
  run (vmm_init pd (k * 4096)) s (fun _ s' => vm_ok s' /\ cr3 s' = pd /\ Z.testbit (cr0 s') 31 = true /\
    forall v, is_u32 v -> vmm_get_mapping v s' = if decide (v < MAX_MEMORY_BYTES) then v else 0).
Proof.
  intros Hp Hu. unfold run. destruct (vmm_init_built pd k s) as (s1 & B & ->). apply (built_registers _ _ _ pd) in B.
  split_and!; [by eapply built_ok|done| |intros v Hv; by eapply built_identity].
  cbn [enable_paging cr0 load_page_directory]. rewrite Z.lor_spec. apply orb_true_r.
Qed.

(** A 2 MiB kernel at 1 MiB, with the tables in its last pages. *)
Definition demo_pmm : pmm := default all_used (pmm_init (fun _ => 0) 0x100000 0x300000 0x2F0000 0 0).
Definition demo_vmm : vmm := mk_vmm [] ∅ demo_pmm 0 0x11.

Lemma demo_pmm_wf : pmm_wf demo_pmm.
Proof.
  unfold demo_pmm. destruct (pmm_init _ _ _ _ _ _) as [p|] eqn:E; [|apply all_used_wf].
  eapply pmm_init_spec; [|exact E]. unfold link_ok. vm_compute. split_and!; congruence.
Qed.

Lemma demo_tables_used : tables_used 0x2C0 demo_pmm.
Proof.
  split; [lia|]. split; [vm_compute; congruence|]. intros i Hi.
  assert (forallb (fun i => frame_test demo_pmm (0x2C0 + i)) (seqZ 0 32) = true) as E by (vm_compute; reflexivity).
  rewrite forallb_forall in E. apply E. apply list_elem_of_In, elem_of_seqZ. lia.
Qed.

Lemma vmm_init_identity_witness :
  run (vmm_init 0x2B0000 (0x2C0 * 4096)) demo_vmm (fun _ s' => vmm_get_mapping 0x123456 s' = 0x123456).
Proof.
  refine (run_mono _ _ _ _ (vmm_init_identity 0x2B0000 0x2C0 demo_vmm _ _) _).
  - exact demo_pmm_wf.
  - exact demo_tables_used.
  - intros t s' (_ & _ & _ & Hg). rewrite Hg by (unfold is_u32; lia). reflexivity.
Defined.

Definition demo_paged : vmm := (vmm_init 0x2B0000 (0x2C0 * 4096) demo_vmm).2.

Lemma demo_paged_ok : vm_ok demo_paged.
Proof.
  unfold demo_paged. destruct (vmm_init_built 0x2B0000 0x2C0 demo_vmm) as (s1 & B & ->).
  exact (built_ok 0x2C0 (vm_pmm demo_vmm) _ demo_pmm_wf demo_tables_used (built_registers _ _ _ _ _ B)).
Qed.

