(* ===== verification/Vfs.v ===== *)
(** * The virtual file system (fs/vfs.c)

    The mount table, path normalisation, path resolution with symbolic links,
    the permission check and the entry points that dispatch to the mounted
    driver.  A driver is a [vfs_ops] record over a state [D]; the layer never
    looks into [D].  Paths are byte lists; every local buffer of the code has
    its size here, and a [strcat] past the end of one is the outcome
    [Overflow]. *)

From stdpp Require Import strings.
From S2P Require Import Prelude Machine VfsTypes.

(** ** Strings in fixed buffers *)

(** The string a buffer holds. *)
Fixpoint cstr (b : list Z) : list Z :=
  match b with
  | [] => []
  | c :: b => if c =? 0 then [] else c :: cstr b
  end.

(** [strncpy(dst, s, size - 1); dst[size - 1] = 0]. *)
Definition strncpy (size : Z) (s : list Z) : list Z := take (Z.to_nat (size - 1)) s.

(** [strcat(s, t)] in a buffer of [size] bytes; [None] writes past its end. *)
Definition strcat (size : Z) (s t : list Z) : option (list Z) :=
  if Z.of_nat (length s) + Z.of_nat (length t) <? size then Some (s ++ t) else None.

(** ** Outcomes *)

(** A call returns its result, a negative error number, or has written past
    the end of a local buffer, after which nothing is known. *)
Inductive res (A : Type) := Done (a : A) | Err (rc : Z) | Overflow.
Arguments Done {A}.
Arguments Err {A}.
Arguments Overflow {A}.

Definition rbind {S A B} (m : state S (res A)) (k : A -> state S (res B)) : state S (res B) :=
  r ← m;
  match r with
  | Done a => k a
  | Err rc => mret (Err rc)
  | Overflow => mret Overflow
  end.

Notation "'let*' x ':=' m 'in' k" := (rbind m (fun x => k))
  (at level 10, x name, m at level 99, k at level 200).
Notation "'let*' ' x ':=' m 'in' k" := (rbind m (fun x => k))
  (at level 10, x strict pattern, m at level 99, k at level 200).

(** ** Drivers and mounts *)

(** [vfs_ops_t]: a driver over a machine state [D]; [None] is a NULL pointer. *)
Record vfs_ops (D : Type) := mk_ops {
  op_stat : option (list Z -> state D (option vfs_stat));
  op_read_file : option (list Z -> state D (option (Z * list Z * Z)));
  op_write_file : option (list Z -> list Z -> Z -> state D Z);
  op_create : option (list Z -> bool -> state D Z);
  op_unlink : option (list Z -> bool -> state D Z);
  op_rename : option (list Z -> list Z -> state D Z);
  op_readdir : option (forall U : Type,
    list Z -> (vfs_dirent -> U -> state D (Z * U)) -> U -> state D (Z * U));
  op_chmod : option (list Z -> Z -> state D Z);
  op_chown : option (list Z -> Z -> Z -> state D Z);
  op_readlink : option (list Z -> list Z -> Z -> state D (Z * list Z));
  op_link : option (list Z -> list Z -> state D Z);
  op_symlink : option (list Z -> list Z -> state D Z);
}.
Arguments mk_ops {D}.
Arguments op_stat {D}.
Arguments op_read_file {D}.
Arguments op_write_file {D}.
Arguments op_create {D}.
Arguments op_unlink {D}.
Arguments op_rename {D}.
Arguments op_readdir {D}.
Arguments op_chmod {D}.
Arguments op_chown {D}.
Arguments op_readlink {D}.
Arguments op_link {D}.
Arguments op_symlink {D}.

Record vfs_mount_t (D : Type) := mk_mount {
  mountpoint : list Z; mnt_type : vfs_fs_type; mnt_ops : vfs_ops D; fs_private : option Z;
}.
Arguments mk_mount {D}.
Arguments mountpoint {D}.
Arguments mnt_type {D}.
Arguments mnt_ops {D}.
Arguments fs_private {D}.

(** The static variables of vfs.c over the state of the drivers. *)
Record vfs (D : Type) := mk_vfs {
  mount_table : list (vfs_mount_t D); last_error : list Z; v_drv : D;
}.
Arguments mk_vfs {D}.
Arguments mount_table {D}.
Arguments last_error {D}.
Arguments v_drv {D}.

Definition VFS_MAX_MOUNTS : nat := 8.
Definition MAX_SYMLINK_FOLLOWS : nat := 40.
Definition RESOLVE_WORK_SIZE : Z := PUREUNIX_MAX_PATH * 8.

(** ** Permissions *)

Definition S_IXANY : Z := 0x49.

Definition vfs_access (st : vfs_stat) (uid gid requested : Z) : bool :=
  if requested =? F_OK then true else
  let mode := st_mode st in
  if uid =? 0 then
    negb (negb (Z.land requested X_OK =? 0) && (Z.land mode S_IXANY =? 0))
  else
  let bits := if st_uid st =? uid then Z.land (Z.shiftr mode 6) 7
              else if st_gid st =? gid then Z.land (Z.shiftr mode 3) 7
              else Z.land mode 7 in
  let req := if Z.land requested R_OK =? 0 then 0 else 4 in
  let req := if Z.land requested W_OK =? 0 then req else Z.lor req 2 in
  let req := if Z.land requested X_OK =? 0 then req else Z.lor req 1 in
  Z.land bits req =? req.

(** ** Paths *)

Definition is_dot (c : list Z) : bool := bool_decide (c = [DOT]).
Definition is_dotdot (c : list Z) : bool := bool_decide (c = [DOT; DOT]).

(** Cutting the last component off an absolute path. *)
Definition chop (p : list Z) : list Z :=
  match last_slash p with
  | Some (S k) => take (S k) p
  | _ => [SLASH]
  end.

(** [resolved_append] (and [append_component] on a non-empty component) in a
    buffer of [PUREUNIX_MAX_PATH] bytes. *)
Definition resolved_append (resolved component : list Z) : option (list Z) :=
  if is_dot component then Some resolved else
  if is_dotdot component then Some (chop resolved) else
  if bool_decide (resolved = [SLASH]) then strcat PUREUNIX_MAX_PATH resolved component
  else r ← strcat PUREUNIX_MAX_PATH resolved [SLASH]; strcat PUREUNIX_MAX_PATH r component.

Definition append_component (out component : list Z) : option (list Z) :=
  if bool_decide (component = []) then Some out else resolved_append out component.

(** The component up to the next slash and what follows it. *)
Fixpoint next_component (p : list Z) : list Z * list Z :=
  match p with
  | [] => ([], [])
  | c :: p => if c =? SLASH then ([], p)
              else let '(comp, rest) := next_component p in (c :: comp, rest)
  end.

Fixpoint append_all (out : list Z) (toks : list (list Z)) : option (list Z) :=
  match toks with
  | [] => Some out
  | t :: toks => out ← append_component out t; append_all out toks
  end.

(** [vfs_normalize]; [None] for a NULL [cwd] or [path], and for a result that
    does not fit its buffer. *)
Definition vfs_normalize (cwd path : option (list Z)) : option (list Z) :=
  let base := match cwd with Some c => c | None => [SLASH] end in
  match path with
  | None | Some [] => Some (strncpy PUREUNIX_MAX_PATH base)
  | Some ((c :: rest) as p) =>
      let out := if c =? SLASH then [SLASH]
                 else strncpy PUREUNIX_MAX_PATH (match base with [] => [SLASH] | _ => base end) in
      let tmp := strncpy PUREUNIX_MAX_PATH (if c =? SLASH then rest else p) in
      out ← append_all out (path_tokens tmp []);
      Some (match out with [] => [SLASH] | _ => out end)
  end.

(** [parent_of]. *)
Definition parent_of (path : list Z) : list Z := chop (strncpy PUREUNIX_MAX_PATH path).

Section Vfs.
Context {D : Type} (current_uid current_gid : D -> Z).
Abbreviation V := (vfs D).

(** A driver call. *)
Definition lift_d {A} (m : state D A) : state V A :=
  fun s => let '(a, d) := m (v_drv s) in (a, mk_vfs (mount_table s) (last_error s) d).

(** [set_error]; [last_error] holds 96 bytes. *)
Definition set_error (msg : list Z) : state V unit :=
  modify (fun s => mk_vfs (mount_table s) (strncpy 96 msg) (v_drv s)).

(** [{ set_error(msg); return rc; }]. *)
Definition fail {A} (msg : list Z) (rc : Z) : state V (res A) :=
  _ ← set_error msg; mret (Err rc).

(** [rc = m; if (rc != 0) { set_error(msg); return rc; }]. *)
Definition or_fail {A} (msg : list Z) (m : state V (res A)) : state V (res A) :=
  r ← m;
  match r with
  | Err rc => fail msg rc
  | _ => mret r
  end.

(** ** The mount table *)

Definition vfs_init : state V Z :=
  _ ← modify (fun s => mk_vfs [] (last_error s) (v_drv s));
  _ ← set_error (lit "no filesystem mounted");
  mret 0.

Definition vfs_mounted : state V bool := gets (fun s => negb (bool_decide (mount_table s = []))).

(** Index of the mount at exactly this path. *)
Fixpoint mount_index (ms : list (vfs_mount_t D)) (p : list Z) : option nat :=
  match ms with
  | [] => None
  | m :: ms => if bool_decide (mountpoint m = p) then Some 0%nat else S <$> mount_index ms p
  end.

Definition set_mounts (ms : list (vfs_mount_t D)) : state V unit :=
  modify (fun s => mk_vfs ms (last_error s) (v_drv s)).

Definition vfs_mount (path : option (list Z)) (type : vfs_fs_type) (ops : option (vfs_ops D))
    (priv : option Z) : state V Z :=
  match path, ops with
  | Some path, Some ops =>
      s ← get;
      let ms := mount_table s in
      match mount_index ms path with
      | Some i =>
          _ ← set_mounts (alter (fun m => mk_mount (mountpoint m) type ops priv) i ms);
          mret 0
      | None =>
          if (VFS_MAX_MOUNTS <=? length ms)%nat then mret (-1) else
          _ ← set_mounts (ms ++ [mk_mount (strncpy PUREUNIX_MAX_PATH path) type ops priv]);
          mret 0
      end
  | _, _ => mret (-1)
  end.

(** [strncmp(path, mnt, mnt_len) == 0], then a component boundary. *)
Definition path_under_mount (path mnt : list Z) : bool :=
  if negb (bool_decide (take (length mnt) path = mnt)) then false else
  if (length mnt <=? 1)%nat then true else
  match path !! length mnt with
  | None => true
  | Some next => next =? SLASH
  end.

(** The scan of [vfs_find_mount]: later mounts win ties. *)
Fixpoint find_mount_from (ms : list (vfs_mount_t D)) (i : nat) (path : list Z)
    (best : option nat) (best_len : nat) : option nat :=
  match ms with
  | [] => best
  | m :: ms =>
      let len := length (mountpoint m) in
      if path_under_mount path (mountpoint m) && (best_len <=? len)%nat
      then find_mount_from ms (S i) path (Some i) len
      else find_mount_from ms (S i) path best best_len
  end.

Definition vfs_find_mount (ms : list (vfs_mount_t D)) (path : list Z) : option nat :=
  match path with
  | c :: _ => if c =? SLASH then find_mount_from ms 0 path None 0 else None
  | [] => None
  end.

Definition vfs_mount_root : state V Z :=
  s ← get;
  match vfs_find_mount (mount_table s) [SLASH] with
  | Some _ => _ ← set_error (lit "no error"); mret 0
  | None => _ ← set_error (lit "no filesystem mounted"); mret (-1)
  end.

(** The path below the mountpoint, as the driver sees it. *)
Definition sub_path (mnt path : list Z) : list Z :=
  let rest := if (length mnt <=? 1)%nat then path else drop (length mnt) path in
  strncpy PUREUNIX_MAX_PATH (match rest with [] => [SLASH] | _ => rest end).

(** [vfs_dispatch]: mount index, operations and sub-path. *)
Definition vfs_dispatch (path : list Z) : state V (option (nat * vfs_ops D * list Z)) :=
  gets (fun s =>
    i ← vfs_find_mount (mount_table s) path;
    m ← mount_table s !! i;
    Some (i, mnt_ops m, sub_path (mountpoint m) path)).

Definition vfs_stat_raw (path : list Z) : state V (option vfs_stat) :=
  m ← vfs_dispatch path;
  match m with
  | Some (_, ops, sub) =>
      match op_stat ops with
      | Some stat => lift_d (stat sub)
      | None => mret None
      end
  | None => mret None
  end.

Definition vfs_readlink_raw (path buf : list Z) (bufsize : Z) : state V (Z * list Z) :=
  m ← vfs_dispatch path;
  match m with
  | Some (_, ops, sub) =>
      match op_readlink ops with
      | Some readlink => lift_d (readlink sub buf bufsize)
      | None => mret (- EINVAL, buf)
      end
  | None => mret (- EINVAL, buf)
  end.

(** ** Resolution *)

(** What one turn of the component loop decides. *)
Inductive turn :=
  | Next (resolved : list Z)                  (** go on below [resolved] *)
  | Stop (resolved : list Z)                  (** a dangling last component *)
  | Follow (resolved work : list Z).          (** a symlink: restart on [work] *)

(** One component other than ".", ".." and the empty one; [rest] is what
    follows it and [allowed] the follows still allowed. *)
Definition resolve_step (follow_final : bool) (uid gid : Z) (allowed : nat)
    (resolved component rest : list Z) : state V (res turn) :=
  let is_last := bool_decide (rest = []) in
  dst ← vfs_stat_raw resolved;
  match dst with
  | None => mret (Err (- ENOENT))
  | Some dst =>
      if negb (vfs_access dst uid gid X_OK) then mret (Err (- EACCES)) else
      match resolved_append resolved component with
      | None => mret Overflow
      | Some candidate =>
          cst ← vfs_stat_raw candidate;
          match cst with
          | None =>
              if is_last then mret (Done (Stop (strncpy PUREUNIX_MAX_PATH candidate)))
              else mret (Err (- ENOENT))
          | Some cst =>
              if bool_decide (st_type cst = VFS_SYMLINK) && (negb is_last || follow_final) then
                if (allowed =? 0)%nat then mret (Err (- ELOOP)) else
                '(n, buf) ← vfs_readlink_raw candidate (zeros PUREUNIX_MAX_PATH) (PUREUNIX_MAX_PATH - 1);
                if n <? 0 then mret (Err (- ENOENT)) else
                if PUREUNIX_MAX_PATH <=? n then mret Overflow else
                let target := cstr (put buf n [0]) in
                let need := Z.of_nat (length target) + 1 + Z.of_nat (length rest) + 1 in
                if RESOLVE_WORK_SIZE <? need then mret (Err (- ENAMETOOLONG)) else
                let work := if is_last then target else target ++ SLASH :: rest in
                mret (Done (match target with
                            | c :: _ => if c =? SLASH then Follow [SLASH] (drop 1 work)
                                        else Follow resolved work
                            | [] => Follow resolved work
                            end))
              else mret (Done (Next candidate))
          end
      end
  end.

(** The loop of [resolve_path]: [allowed] follows are allowed, and [n] bounds the
    bytes of [cursor], each turn consuming at least one. *)
Fixpoint resolve_loop (follow_final : bool) (uid gid : Z) (allowed : nat)
    : nat -> list Z -> list Z -> state V (res (list Z)) :=
  fix walk (n : nat) (cursor resolved : list Z) {struct n} : state V (res (list Z)) :=
    match n, cursor with
    | _, [] => mret (Done resolved)
    | O, _ => mret (Done resolved)
    | S n, _ =>
        let '(component, rest) := next_component cursor in
        if bool_decide (component = []) then walk n rest resolved else
        if PUREUNIX_MAX_NAME <=? Z.of_nat (length component) then mret (Err (- ENAMETOOLONG)) else
        if is_dot component then walk n rest resolved else
        if is_dotdot component then walk n rest (chop resolved) else
        let* t := resolve_step follow_final uid gid allowed resolved component rest in
        match t with
        | Next resolved => walk n rest resolved
        | Stop resolved => mret (Done resolved)
        | Follow resolved work =>
            match allowed with
            | O => mret (Err (- ELOOP))
            | S allowed => resolve_loop follow_final uid gid allowed (length work) work resolved
            end
        end
    end.

Definition resolve_path (path : list Z) (follow_final : bool) (uid gid : Z) : state V (res (list Z)) :=
  match path with
  | c :: work =>
      if negb (c =? SLASH) then mret (Err (- ENOENT)) else
      if RESOLVE_WORK_SIZE <=? Z.of_nat (length work) then mret (Err (- ENAMETOOLONG)) else
      let* r := resolve_loop follow_final uid gid MAX_SYMLINK_FOLLOWS (length work) work [SLASH] in
      mret (Done (strncpy PUREUNIX_MAX_PATH r))
  | [] => mret (Err (- ENOENT))
  end.

(** [check_dir_write]. *)
Definition check_dir_write (path : list Z) (uid gid : Z) : state V (res unit) :=
  pst ← vfs_stat_raw (parent_of path);
  match pst with
  | None => mret (Err (- ENOENT))
  | Some pst => mret (if negb (vfs_access pst uid gid W_OK) then Err (- EACCES) else Done tt)
  end.

(** ** Reading *)

(** [uid_t uid = current_uid(), gid = current_gid();] at the start of a call. *)
Definition with_cred {A} (k : Z -> Z -> state V A) : state V A :=
  s ← get; k (current_uid (v_drv s)) (current_gid (v_drv s)).

(** [if (vfs_stat_raw(resolved, &st) != 0) { set_error(msg); return -ENOENT; }]. *)
Definition stat_or_fail (msg : list Z) (resolved : list Z) : state V (res vfs_stat) :=
  st ← vfs_stat_raw resolved;
  match st with
  | Some st => mret (Done st)
  | None => fail msg (- ENOENT)
  end.

(** [if (!vfs_access(&st, uid, gid, r)) { set_error("permission denied"); return -EACCES; }]. *)
Definition access_or_fail (st : vfs_stat) (uid gid requested : Z) : state V (res unit) :=
  if negb (vfs_access st uid gid requested) then fail (lit "permission denied") (- EACCES)
  else mret (Done tt).

Definition vfs_stat_path (path : list Z) : state V (res vfs_stat) :=
  with_cred (fun uid gid =>
  let* resolved := or_fail (lit "stat failed") (resolve_path path true uid gid) in
  stat_or_fail (lit "stat failed") resolved).

Definition vfs_lstat (path : list Z) : state V (res vfs_stat) :=
  with_cred (fun uid gid =>
  let* resolved := or_fail (lit "lstat failed") (resolve_path path false uid gid) in
  stat_or_fail (lit "lstat failed") resolved).

Definition vfs_read_file (path : list Z) : state V (res (Z * list Z * Z)) :=
  with_cred (fun uid gid =>
  let* resolved := or_fail (lit "read failed") (resolve_path path true uid gid) in
  let* st := stat_or_fail (lit "read failed") resolved in
  let* _ := access_or_fail st uid gid R_OK in
  m ← vfs_dispatch resolved;
  match m with
  | Some (_, ops, sub) =>
      match op_read_file ops with
      | Some read_file =>
          r ← lift_d (read_file sub);
          match r with
          | Some r => mret (Done r)
          | None => fail (lit "read failed") (- EIO)
          end
      | None => fail (lit "read failed") (- EIO)
      end
  | None => fail (lit "read failed") (- EIO)
  end).

(** The result, and what the callback made of its context. *)
Definition vfs_readdir {U} (path : list Z) (cb : vfs_dirent -> U -> state D (Z * U)) (u : U)
    : state V (res unit * U) :=
  with_cred (fun uid gid =>
  r ← (let* resolved := or_fail (lit "readdir failed") (resolve_path path true uid gid) in
       let* st := stat_or_fail (lit "readdir failed") resolved in
       let* _ := access_or_fail st uid gid R_OK in
       mret (Done resolved));
  match r with
  | Err rc => mret (Err rc, u)
  | Overflow => mret (Overflow, u)
  | Done resolved =>
      m ← vfs_dispatch resolved;
      match '(_, ops, sub) ← m; readdir ← op_readdir ops; Some (readdir U sub) with
      | Some readdir =>
          '(n, u) ← lift_d (readdir cb u);
          r ← (if n <? 0 then fail (lit "readdir failed") (- EIO) else mret (Done tt));
          mret (r, u)
      | None => r ← fail (lit "readdir failed") (- EIO); mret (r, u)
      end
  end).

(** ** Writing *)

(** [if (!m || !m->ops->op) ... return -EROFS; r = op(sub ...);
    if (r != 0) return r < 0 ? r : -EIO;]. *)
Definition call_op {F} (msg : list Z) (sel : vfs_ops D -> option F) (resolved : list Z)
    (call : F -> list Z -> state D Z) : state V (res unit) :=
  m ← vfs_dispatch resolved;
  match m with
  | Some (_, ops, sub) =>
      match sel ops with
      | Some f =>
          r ← lift_d (call f sub);
          if r =? 0 then mret (Done tt) else fail msg (if r <? 0 then r else - EIO)
      | None => fail msg (- EROFS)
      end
  | None => fail msg (- EROFS)
  end.

(** [check_dir_write] with the error message of its callers. *)
Definition dir_write_or_fail (resolved : list Z) (uid gid : Z) : state V (res unit) :=
  or_fail (lit "permission denied") (check_dir_write resolved uid gid).

Definition vfs_write_file (path data : list Z) (flags : Z) : state V (res unit) :=
  with_cred (fun uid gid =>
  let* resolved := or_fail (lit "write failed") (resolve_path path true uid gid) in
  st ← vfs_stat_raw resolved;
  let* _ := (match st with
             | Some st => access_or_fail st uid gid W_OK
             | None => dir_write_or_fail resolved uid gid
             end) in
  call_op (lit "write failed") op_write_file resolved (fun f sub => f sub data flags)).

Definition resolve_for_create (path : list Z) (uid gid : Z) : state V (res (list Z)) :=
  let* resolved := resolve_path path true uid gid in
  st ← vfs_stat_raw resolved;
  match st with
  | Some _ => mret (Err (- EEXIST))
  | None =>
      let* _ := check_dir_write resolved uid gid in
      mret (Done resolved)
  end.

Definition vfs_create (path : list Z) : state V (res unit) :=
  with_cred (fun uid gid =>
  let* resolved := or_fail (lit "create failed") (resolve_for_create path uid gid) in
  call_op (lit "create failed") op_create resolved (fun f sub => f sub false)).

Definition vfs_mkdir (path : list Z) : state V (res unit) :=
  with_cred (fun uid gid =>
  let* resolved := or_fail (lit "mkdir failed") (resolve_for_create path uid gid) in
  call_op (lit "mkdir failed") op_create resolved (fun f sub => f sub true)).

Definition vfs_unlink (path : list Z) : state V (res unit) :=
  with_cred (fun uid gid =>
  let* resolved := or_fail (lit "unlink failed") (resolve_path path false uid gid) in
  let* st := stat_or_fail (lit "unlink failed") resolved in
  if bool_decide (st_type st = VFS_DIR) then fail (lit "is a directory") (- EISDIR) else
  let* _ := dir_write_or_fail resolved uid gid in
  call_op (lit "unlink failed") op_unlink resolved (fun f sub => f sub false)).

Definition vfs_rmdir (path : list Z) : state V (res unit) :=
  with_cred (fun uid gid =>
  let* resolved := or_fail (lit "rmdir failed") (resolve_path path false uid gid) in
  if bool_decide (resolved = [SLASH]) then fail (lit "cannot remove root") (- EACCES) else
  let* st := stat_or_fail (lit "rmdir failed") resolved in
  if negb (bool_decide (st_type st = VFS_DIR)) then fail (lit "not a directory") (- ENOTDIR) else
  let* _ := dir_write_or_fail resolved uid gid in
  call_op (lit "rmdir failed") op_unlink resolved (fun f sub => f sub true)).

(** Two paths that must lie on the same mount. *)
Definition call_op2 (msg xdev : list Z)
    (sel : vfs_ops D -> option (list Z -> list Z -> state D Z)) (old new : list Z)
    : state V (res unit) :=
  m_old ← vfs_dispatch old;
  m_new ← vfs_dispatch new;
  match m_old, m_new with
  | Some (i, ops, old_sub), Some (j, _, new_sub) =>
      if negb (i =? j)%nat then fail xdev (- EXDEV) else
      match sel ops with
      | Some f =>
          r ← lift_d (f old_sub new_sub);
          if r =? 0 then mret (Done tt) else fail msg (if r <? 0 then r else - EIO)
      | None => fail msg (- EROFS)
      end
  | _, _ => fail msg (- ENOENT)
  end.

Definition vfs_rename (old_path new_path : list Z) : state V (res unit) :=
  with_cred (fun uid gid =>
  let* old := or_fail (lit "rename failed") (resolve_path old_path false uid gid) in
  let* new := or_fail (lit "rename failed") (resolve_path new_path false uid gid) in
  let* _ := stat_or_fail (lit "rename failed") old in
  let* _ := dir_write_or_fail old uid gid in
  let* _ := dir_write_or_fail new uid gid in
  call_op2 (lit "rename failed") (lit "cross-device rename") op_rename old new).

Definition vfs_link (old_path new_path : list Z) : state V (res unit) :=
  with_cred (fun uid gid =>
  let* old := or_fail (lit "link failed") (resolve_path old_path false uid gid) in
  let* st := stat_or_fail (lit "link failed") old in
  if bool_decide (st_type st = VFS_DIR) then fail (lit "cannot link directories") (- EPERM) else
  let* new := or_fail (lit "link failed") (resolve_for_create new_path uid gid) in
  call_op2 (lit "link failed") (lit "cross-device link") op_link old new).

Definition vfs_symlink (target path : list Z) : state V (res unit) :=
  with_cred (fun uid gid =>
  let* resolved := or_fail (lit "symlink failed") (resolve_for_create path uid gid) in
  call_op (lit "symlink failed") op_symlink resolved (fun f sub => f target sub)).

(** [vfs_readlink]: the number of bytes copied and the buffer. *)
Definition vfs_readlink (path buf : list Z) (bufsize : Z) : state V (res (Z * list Z)) :=
  with_cred (fun uid gid =>
  let* resolved := or_fail (lit "readlink failed") (resolve_path path false uid gid) in
  let* st := stat_or_fail (lit "readlink failed") resolved in
  if negb (bool_decide (st_type st = VFS_SYMLINK)) then fail (lit "not a symlink") (- EINVAL) else
  '(n, buf) ← vfs_readlink_raw resolved buf bufsize;
  if n <? 0 then fail (lit "readlink failed") n else mret (Done (n, buf))).

(** ** Ownership: dispatch without resolution *)

Definition vfs_chattr {F} (sel : vfs_ops D -> option F) (path : list Z)
    (call : F -> list Z -> state D Z) : state V Z :=
  m ← vfs_dispatch path;
  match m with
  | None => mret (- ENOENT)
  | Some (_, ops, sub) =>
      match op_stat ops with
      | None => mret (- ENOENT)
      | Some stat =>
          st ← lift_d (stat sub);
          match st, sel ops with
          | None, _ => mret (- ENOENT)
          | Some _, None => mret (- EROFS)
          | Some _, Some f => lift_d (call f sub)
          end
      end
  end.

Definition vfs_chmod (path : list Z) (mode : Z) : state V Z :=
  vfs_chattr op_chmod path (fun f sub => f sub mode).
Definition vfs_chown (path : list Z) (uid gid : Z) : state V Z :=
  vfs_chattr op_chown path (fun f sub => f sub uid gid).
Definition vfs_last_error : state V (list Z) := gets last_error.
End Vfs.
