(* ===== verification/Keyboard.v ===== *)
(** * The keyboard driver (drivers/keyboard.c)

    Scan codes arrive in the interrupt handler, which keeps the state of the
    modifiers and puts keys into a ring of 128 entries; [keyboard_try_getkey]
    takes them out.  A handler runs to its end, but it can run between any two
    accesses of [keyboard_try_getkey] to the ring, so the reader is also modelled
    access by access.  The theorem shows that reader and handler together
    implement a queue of at most 127 keys under every interleaving. *)

From stdpp Require Import strings.
From S2P Require Import Prelude VfsTypes.

(** keyboard.h *)
Definition KEY_NONE : Z := 0.
Definition KEY_BACKSPACE : Z := 8.
Definition KEY_TAB : Z := 9.
Definition KEY_ENTER : Z := 10.
Definition KEY_ESCAPE : Z := 27.
Definition KEY_UP : Z := 0x101.
Definition KEY_DOWN : Z := 0x102.
Definition KEY_LEFT : Z := 0x103.
Definition KEY_RIGHT : Z := 0x104.
Definition KEY_HOME : Z := 0x105.
Definition KEY_END : Z := 0x106.
Definition KEY_PAGE_UP : Z := 0x107.
Definition KEY_PAGE_DOWN : Z := 0x108.
Definition KEY_DELETE : Z := 0x109.
Definition KEY_CTRL_S : Z := 0x10A.
Definition KEY_CTRL_Q : Z := 0x10B.
Definition KEY_CTRL_F : Z := 0x10C.
Definition KEY_CTRL_C : Z := 0x10D.

Definition KEYBUF_SIZE : Z := 128.

Record modifiers := mk_mods {
  shift_down : bool; ctrl_down : bool; alt_down : bool; caps_lock : bool; extended : bool;
}.

Record keyboard := mk_kbd { keybuf : list Z; key_head : Z; key_tail : Z; kb_mods : modifiers }.

(** The codes from 0x00 to 0x39; the rest of the tables is zero. *)
Definition normal_map : list Z :=
  [0; KEY_ESCAPE] ++ lit "1234567890-=" ++ [KEY_BACKSPACE; KEY_TAB] ++ lit "qwertyuiop[]" ++ [KEY_ENTER; 0] ++
  lit "asdfghjkl;'`" ++ [0] ++ lit "\zxcvbnm,./" ++ [0; 0; 0; 32].
Definition shift_map : list Z :=
  [0; KEY_ESCAPE] ++ lit "!@#$%^&*()_+" ++ [KEY_BACKSPACE; KEY_TAB] ++ lit "QWERTYUIOP{}" ++ [KEY_ENTER; 0] ++
  lit "ASDFGHJKL:" ++ [34] ++ lit "~" ++ [0] ++ lit "|ZXCVBNM<>?" ++ [0; 0; 0; 32].

Definition push_key (key : Z) (k : keyboard) : keyboard :=
  let next := u32 (key_head k + 1) mod KEYBUF_SIZE in
  if next =? key_tail k then k
  else mk_kbd (<[Z.to_nat (key_head k) := key]> (keybuf k)) next (key_tail k) (kb_mods k).

Definition extended_key (scancode : Z) : Z :=
  if scancode =? 0x48 then KEY_UP else
  if scancode =? 0x50 then KEY_DOWN else
  if scancode =? 0x4B then KEY_LEFT else
  if scancode =? 0x4D then KEY_RIGHT else
  if scancode =? 0x47 then KEY_HOME else
  if scancode =? 0x4F then KEY_END else
  if scancode =? 0x49 then KEY_PAGE_UP else
  if scancode =? 0x51 then KEY_PAGE_DOWN else
  if scancode =? 0x53 then KEY_DELETE else KEY_NONE.

(** The character of a pressed key under the modifiers. *)
Definition translate (m : modifiers) (sc : Z) : Z :=
  let ch := byte_at (if shift_down m then shift_map else normal_map) sc in
  let ch := if (97 <=? ch) && (ch <=? 122) && caps_lock m then ch - 32
            else if (65 <=? ch) && (ch <=? 90) && caps_lock m && negb (shift_down m) then ch + 32
            else ch in
  if ctrl_down m then
    if (ch =? 115) || (ch =? 83) then KEY_CTRL_S
    else if (ch =? 113) || (ch =? 81) then KEY_CTRL_Q
    else if (ch =? 102) || (ch =? 70) then KEY_CTRL_F
    else if (ch =? 99) || (ch =? 67) then KEY_CTRL_C
    else ch
  else ch.

(** The part of [keyboard_irq] that does not touch the ring: the new modifiers,
    and the key to push. *)
Definition decode (sc : Z) (m : modifiers) : modifiers * option Z :=
  if sc =? 0xE0 then (mk_mods (shift_down m) (ctrl_down m) (alt_down m) (caps_lock m) true, None) else
  let released := negb (Z.land sc 0x80 =? 0) in
  let sc := Z.land sc 0x7F in
  if extended m then
    (mk_mods (shift_down m) (ctrl_down m) (alt_down m) (caps_lock m) false,
     if released then None else Some (extended_key sc))
  else if (sc =? 0x2A) || (sc =? 0x36) then
    (mk_mods (negb released) (ctrl_down m) (alt_down m) (caps_lock m) false, None)
  else if sc =? 0x1D then (mk_mods (shift_down m) (negb released) (alt_down m) (caps_lock m) false, None)
  else if sc =? 0x38 then (mk_mods (shift_down m) (ctrl_down m) (negb released) (caps_lock m) false, None)
  else if released then (m, None)
  else if sc =? 0x3A then (mk_mods (shift_down m) (ctrl_down m) (alt_down m) (negb (caps_lock m)) false, None)
  else let ch := translate m sc in (m, if ch =? 0 then None else Some ch).

(** [keyboard_irq] with the byte read from the data port. *)
Definition keyboard_irq (sc : Z) (k : keyboard) : keyboard :=
  let '(m, key) := decode sc (kb_mods k) in
  let k := mk_kbd (keybuf k) (key_head k) (key_tail k) m in
  match key with
  | Some key => push_key key k
  | None => k
  end.

Definition keyboard_try_getkey (k : keyboard) : Z * keyboard :=
  if key_head k =? key_tail k then (KEY_NONE, k) else
  (byte_at (keybuf k) (key_tail k),
   mk_kbd (keybuf k) (key_head k) (u32 (key_tail k + 1) mod KEYBUF_SIZE) (kb_mods k)).

(** [keyboard_getkey]: every [arch_halt] ends with the next interrupt; [None]
    waits for one that does not come. *)
Fixpoint keyboard_getkey (scs : list Z) (k : keyboard) : option (Z * list Z * keyboard) :=
  let '(key, k) := keyboard_try_getkey k in
  if negb (key =? KEY_NONE) then Some (key, scs, k) else
  match scs with
  | [] => None
  | sc :: scs => keyboard_getkey scs (keyboard_irq sc k)
  end.

Definition keyboard_ctrl_down (k : keyboard) : bool := ctrl_down (kb_mods k).

Definition no_mods : modifiers := mk_mods false false false false false.
Definition keyboard_start : keyboard := mk_kbd (replicate 128 0) 0 0 no_mods.

(** ** Reader and interrupt handler together *)

(** Where [keyboard_try_getkey] stands: before its first access, behind the test
    for an empty ring, or behind the load of the key. *)
Inductive reader := RIdle | RChecked | RLoaded (key : Z).

Inductive event := Irq (sc : Z) | Read.

(** One event, and what the reader returns if it is done with it. *)
Definition ring_step (e : event) (k : keyboard) (r : reader) : keyboard * reader * option Z :=
  match e with
  | Irq sc => (keyboard_irq sc k, r, None)
  | Read =>
      match r with
      | RIdle => if key_head k =? key_tail k then (k, RIdle, Some KEY_NONE) else (k, RChecked, None)
      | RChecked => (k, RLoaded (byte_at (keybuf k) (key_tail k)), None)
      | RLoaded key =>
          (mk_kbd (keybuf k) (key_head k) (u32 (key_tail k + 1) mod KEYBUF_SIZE) (kb_mods k), RIdle, Some key)
      end
  end.

(** The same on a queue: a key that finds 127 others waiting is lost. *)
Record queue := mk_queue { q_keys : list Z; q_mods : modifiers }.
Definition enqueue (key : Z) (q : list Z) : list Z := if (length q <? 127)%nat then q ++ [key] else q.
Definition queue_step (e : event) (q : queue) (r : reader) : queue * reader * option Z :=
  match e with
  | Irq sc =>
      let '(m, key) := decode sc (q_mods q) in
      (mk_queue (match key with Some key => enqueue key (q_keys q) | None => q_keys q end) m, r, None)
  | Read =>
      match r with
      | RIdle => match q_keys q with
                 | [] => (q, RIdle, Some KEY_NONE)
                 | _ :: _ => (q, RChecked, None)
                 end
      | RChecked => (q, RLoaded (default 0 (head (q_keys q))), None)
      | RLoaded key => (mk_queue (drop 1 (q_keys q)) (q_mods q), RIdle, Some key)
      end
  end.

(** What the reader returns over a sequence of events. *)
Fixpoint outputs {S} (step : event -> S -> reader -> S * reader * option Z) (es : list event) (s : S) (r : reader) : list Z :=
  match es with
  | [] => []
  | e :: es => let '(s, r, o) := step e s r in option_list o ++ outputs step es s r
  end.

(** The keys in the ring, oldest first. *)
Definition waiting (k : keyboard) : list Z :=
  (fun i => byte_at (keybuf k) ((key_tail k + i) mod 128)) <$> seqZ 0 ((key_head k - key_tail k) mod 128).

Record ring_ok (k : keyboard) : Prop := {
  rk_len : length (keybuf k) = 128%nat;
  rk_head : 0 <= key_head k < 128;
  rk_tail : 0 <= key_tail k < 128;
}.

Lemma length_waiting k : Z.of_nat (length (waiting k)) = (key_head k - key_tail k) mod 128.
Proof. unfold waiting. rewrite length_fmap, length_seqZ. pose proof (Z.mod_pos_bound (key_head k - key_tail k) 128). lia. Qed.

Lemma waiting_lookup k i : (i < length (waiting k))%nat ->
  waiting k !! i = Some (byte_at (keybuf k) ((key_tail k + Z.of_nat i) mod 128)).
Proof.
  intros Hi. pose proof (length_waiting k) as Hl. unfold waiting. rewrite list_lookup_fmap, lookup_seqZ_lt by lia. done.
Qed.

(** The index arithmetic of the ring. *)
Lemma wrap_succ x : 0 <= x < 128 -> u32 (x + 1) mod KEYBUF_SIZE = if decide (x = 127) then 0 else x + 1.
Proof.
  intros Hx. rewrite u32_small by (unfold is_u32; lia). unfold KEYBUF_SIZE. destruct (decide (x = 127)) as [->|]; [done|].
  apply Z.mod_small. lia.
Qed.

Lemma distance h t : 0 <= h < 128 -> 0 <= t < 128 -> (h - t) mod 128 = if decide (t <= h) then h - t else h - t + 128.
Proof.
  intros Hh Ht. destruct (decide (t <= h)); [apply Z.mod_small; lia|].
  symmetry. apply (Z.mod_unique_pos _ _ (-1)); lia.
Qed.

Lemma waiting_nil k : ring_ok k -> waiting k = [] <-> key_head k = key_tail k.
Proof.
  intros R. destruct R as [_ Rh Rt]. pose proof (length_waiting k) as Hl. rewrite distance in Hl by done.
  split.
  - intros E. rewrite E in Hl. cbn in Hl. destruct (decide _); lia.
  - intros E. apply nil_length_inv. destruct (decide _); lia.
Qed.

Lemma push_key_queue key k : ring_ok k -> ring_ok (push_key key k) /\ waiting (push_key key k) = enqueue key (waiting k) /\
  kb_mods (push_key key k) = kb_mods k.
Proof.
  intros R. pose proof R as [Rl Rh Rt]. pose proof (length_waiting k) as Hl. rewrite distance in Hl by done.
  unfold push_key, enqueue. rewrite wrap_succ by done.
  destruct (Z.eqb_spec (if decide (key_head k = 127) then 0 else key_head k + 1) (key_tail k)) as [E|E].
  { split_and!; [done| |done]. case Nat.ltb_spec; [|done]. intros Hlt. exfalso. repeat case_decide; lia. }
  case Nat.ltb_spec; [intros Hlt|intros Hge; exfalso; repeat case_decide; lia].
  set (k' := mk_kbd _ _ _ _). assert (ring_ok k') as R'.
  { split; cbn; [by rewrite length_insert|case_decide; lia|done]. }
  split_and!; [done| |done]. pose proof (length_waiting k') as Hl'. rewrite distance in Hl' by apply R'. cbn in Hl'.
  assert (length (waiting k') = S (length (waiting k))) as HS by (repeat case_decide; lia).
  apply list_eq_same_length with (n := S (length (waiting k))); [rewrite length_app; cbn; lia|done|].
  intros i x y Hi. rewrite waiting_lookup by lia. cbn [k' keybuf key_tail].
  assert ((key_tail k + Z.of_nat i) mod 128 = if decide (key_tail k + Z.of_nat i < 128) then key_tail k + Z.of_nat i else key_tail k + Z.of_nat i - 128) as Ei.
  { destruct (decide (key_tail k + Z.of_nat i < 128)); [apply Z.mod_small; lia|]. symmetry.
    apply (Z.mod_unique_pos _ _ 1); repeat case_decide; lia. }
  destruct (decide (i = length (waiting k))) as [->|Hne].
  - rewrite lookup_app_r, Nat.sub_diag by lia. cbn [lookup list_lookup]. rewrite Ei. intros [= <-] [= <-].
    unfold byte_at. match goal with |- context [Z.to_nat (if decide ?P then ?a else ?b)] =>
      replace (Z.to_nat (if decide P then a else b)) with (Z.to_nat (key_head k)) by (repeat case_decide; lia) end.
    by rewrite list_lookup_insert_eq by lia.
  - rewrite lookup_app_l, waiting_lookup by lia. rewrite Ei. intros [= <-] [= <-].
    unfold byte_at. rewrite list_lookup_insert_ne by (repeat case_decide; lia). done.
Qed.

Lemma irq_queue sc k : ring_ok k ->
  let '(m, key) := decode sc (kb_mods k) in
  ring_ok (keyboard_irq sc k) /\ kb_mods (keyboard_irq sc k) = m /\
  waiting (keyboard_irq sc k) = match key with Some key => enqueue key (waiting k) | None => waiting k end.
Proof.
  intros R. unfold keyboard_irq. destruct (decode sc (kb_mods k)) as [m key]. set (k0 := mk_kbd _ _ _ m).
  assert (ring_ok k0) as R0 by (destruct R; by split). destruct key as [key|]; [|done].
  by destruct (push_key_queue key k0 R0) as (? & ? & ?).
Qed.

(** The reader's last access takes the oldest key out. *)
Lemma advance_queue k : ring_ok k -> key_head k <> key_tail k ->
  let k' := mk_kbd (keybuf k) (key_head k) (u32 (key_tail k + 1) mod KEYBUF_SIZE) (kb_mods k) in
  ring_ok k' /\ waiting k' = drop 1 (waiting k).
Proof.
  intros R Hne k'. pose proof R as [Rl Rh Rt]. assert (ring_ok k') as R'.
  { split; cbn; [done|done|]. rewrite wrap_succ by done. case_decide; lia. }
  split; [done|]. pose proof (length_waiting k) as Hl. rewrite distance in Hl by done.
  pose proof (length_waiting k') as Hl'. rewrite distance in Hl' by apply R'. cbn in Hl'. rewrite wrap_succ in Hl' by done.
  assert (length (waiting k) = S (length (waiting k'))) as HS by (repeat case_decide; lia).
  apply list_eq_same_length with (n := length (waiting k')); [rewrite length_drop; lia|done|].
  intros i x y Hi. rewrite lookup_drop, !waiting_lookup by lia. intros [= <-] [= <-]. cbn [k' keybuf key_tail].
  f_equal. rewrite wrap_succ by done. destruct (decide (key_tail k = 127)) as [E|E].
  - rewrite <- (Z.mod_add (0 + Z.of_nat i) 1 128) by done. f_equal. lia.
  - f_equal. lia.
Qed.

(** The reader has seen a key that is still in front. *)
Definition reader_ok (k : keyboard) (r : reader) : Prop :=
  match r with
  | RIdle => True
  | RChecked => waiting k <> []
  | RLoaded key => head (waiting k) = Some key
  end.

Lemma head_enqueue key q x : head q = Some x -> head (enqueue key q) = Some x.
Proof. unfold enqueue. destruct q; [done|]. by case_match. Qed.

Lemma reader_irq sc k r : ring_ok k -> reader_ok k r -> reader_ok (keyboard_irq sc k) r.
Proof.
  intros R Hr. pose proof (irq_queue sc k R) as Hq. destruct (decode sc (kb_mods k)) as [m [key|]];
    destruct Hq as (_ & _ & Hw); destruct r as [| |x]; cbn in *; rewrite ?Hw; try done.
  - destruct (waiting k) as [|y q]; [done|]. unfold enqueue. by case_match.
  - by apply head_enqueue.
Qed.

Lemma ring_step_queue e k r : ring_ok k -> reader_ok k r ->
  let '(k', r', o) := ring_step e k r in
  queue_step e (mk_queue (waiting k) (kb_mods k)) r = (mk_queue (waiting k') (kb_mods k'), r', o) /\
  ring_ok k' /\ reader_ok k' r'.
Proof.
  intros R Hr. destruct e as [sc|]; cbn [ring_step queue_step].
  - pose proof (irq_queue sc k R) as Hq. pose proof (reader_irq sc k r R Hr) as Hr'. cbn [q_mods q_keys].
    destruct (decode sc (kb_mods k)) as [m key]. destruct Hq as (R' & -> & ->). done.
  - destruct r as [| |x]; cbn [q_keys q_mods reader_ok] in *.
    + destruct (Z.eqb_spec (key_head k) (key_tail k)) as [E|E].
      * by rewrite (proj2 (waiting_nil k R) E).
      * assert (waiting k <> []) as Hn by (intros Hn; by apply E, waiting_nil).
        split_and!; [by destruct (waiting k)|done|done].
    + destruct (waiting k) as [|y q] eqn:Ew; [done|]. cbn [head default].
      assert (byte_at (keybuf k) (key_tail k) = y) as Hy.
      { pose proof (waiting_lookup k 0 ltac:(rewrite Ew; cbn; lia)) as H0. rewrite Ew in H0. cbn in H0.
        injection H0 as ->. rewrite Z.add_0_r, Z.mod_small by apply R. done. }
      rewrite Hy. split_and!; [done|done|]. unfold reader_ok. by rewrite ?Ew.
    + destruct (advance_queue k R) as [R' Hw]; [intros E; by rewrite (proj2 (waiting_nil k R) E) in Hr|].
      rewrite <- Hw. done.
Qed.

(** C21: The keyboard buffer is a queue, whatever the interleaving: over every
    sequence of interrupts (any scan codes) and single accesses of the reader,
    [keyboard_try_getkey] returns what a queue of at most 127 keys returns, in
    the order typed, without loss (but for keys typed into a full buffer),
    duplication or torn reads. *)
Theorem keyboard_is_queue es :
  outputs ring_step es keyboard_start RIdle = outputs queue_step es (mk_queue [] no_mods) RIdle.
Proof.
  assert (forall k r, ring_ok k -> reader_ok k r ->
    outputs ring_step es k r = outputs queue_step es (mk_queue (waiting k) (kb_mods k)) r) as Hg.
  { induction es as [|e es IH]; intros k r R Hr; [done|]. cbn [outputs].
    pose proof (ring_step_queue e k r R Hr) as Hs. destruct (ring_step e k r) as [[k' r'] o].
    destruct Hs as (-> & R' & Hr'). by rewrite IH. }
  apply (Hg keyboard_start RIdle); [|done]. split; [done|cbn; lia|cbn; lia].
Qed.

(** The three accesses of an undisturbed reader are [keyboard_try_getkey]. *)
Lemma reader_is_try_getkey k :
  let '(key, k') := keyboard_try_getkey k in
  outputs ring_step [Read] k RIdle = [key] /\ k' = k \/
  ring_step Read k RIdle = (k, RChecked, None) /\
  ring_step Read k RChecked = (k, RLoaded key, None) /\ ring_step Read k (RLoaded key) = (k', RIdle, Some key).
Proof.
  unfold keyboard_try_getkey. cbn. destruct (key_head k =? key_tail k); [by left|by right].
Qed.
