(* ===== verification/Vga.v ===== *)
(** * The text terminal (drivers/vga.c, drivers/serial.c)

    The screen memory is a list of 80 x 25 cells of 16 bits.  A write outside
    it would hit other memory and is recorded in [v_oob].  Every character is
    also sent to the serial line; [s_sent] collects the bytes given to the
    port (waiting for the port to be ready changes nothing that the kernel
    sees).  [char] is signed on this machine. *)

From stdpp Require Import strings.
From S2P Require Import Prelude VfsTypes CLib.

(** ** The serial line *)

Record serial := mk_serial { serial_ready : bool; s_sent : list Z }.

Definition serial_init (p : serial) : serial := mk_serial true (s_sent p).

Definition serial_putc (c : Z) (p : serial) : serial :=
  if serial_ready p then mk_serial true (s_sent p ++ (if c =? 10 then [13; 10] else [c])) else p.

Definition serial_write (t : list Z) (p : serial) : serial := foldl (fun p c => serial_putc c p) p t.

(** The digits as the loop stores them; an unsigned value has at most ten. *)
Fixpoint uint_digits (fuel : nat) (value : Z) : list Z :=
  match fuel with
  | O => []
  | S fuel => if value =? 0 then [] else 48 + value mod 10 :: uint_digits fuel (value / 10)
  end.

Definition serial_write_uint (value : Z) (p : serial) : serial :=
  if value =? 0 then serial_putc 48 p else serial_write (rev (uint_digits 12 value)) p.

Definition serial_clear (p : serial) : serial := serial_write (27 :: lit "[2J" ++ 27 :: lit "[H") p.
Definition serial_erase_line (p : serial) : serial := serial_write (27 :: lit "[K") p.

Definition serial_move_cursor (row col : Z) (p : serial) : serial :=
  let p := serial_putc 91 (serial_putc 27 p) in
  let p := serial_write_uint (u32 (row + 1)) p in
  let p := serial_putc 59 p in
  let p := serial_write_uint (u32 (col + 1)) p in
  serial_putc 72 p.

(** ** The screen *)

Definition VGA_WIDTH : Z := 80.
Definition VGA_HEIGHT : Z := 25.
Definition VGA_BLACK : Z := 0.
Definition VGA_LIGHT_GREY : Z := 7.
Definition ESC_BUF_SIZE : Z := 16.

Record vga := mk_vga {
  vga_memory : list Z; row : Z; col : Z; color : Z; esc_state : Z; esc_buf : list Z; esc_len : Z;
  hw_cursor : Z; v_serial : serial; v_oob : bool;
}.
Implicit Types (s : vga).

Definition set_pos (r c : Z) s : vga :=
  mk_vga (vga_memory s) r c (color s) (esc_state s) (esc_buf s) (esc_len s) (hw_cursor s) (v_serial s) (v_oob s).
Definition set_color (k : Z) s : vga :=
  mk_vga (vga_memory s) (row s) (col s) k (esc_state s) (esc_buf s) (esc_len s) (hw_cursor s) (v_serial s) (v_oob s).
Definition set_esc (st : Z) (b : list Z) (n : Z) s : vga :=
  mk_vga (vga_memory s) (row s) (col s) (color s) st b n (hw_cursor s) (v_serial s) (v_oob s).
Definition on_serial (f : serial -> serial) s : vga :=
  mk_vga (vga_memory s) (row s) (col s) (color s) (esc_state s) (esc_buf s) (esc_len s) (hw_cursor s)
    (f (v_serial s)) (v_oob s).

(** [vga_memory[i] = v]. *)
Definition set_cell (i v : Z) s : vga :=
  let inside := (0 <=? i) && (i <? Z.of_nat (length (vga_memory s))) in
  mk_vga (<[Z.to_nat i := v]> (vga_memory s)) (row s) (col s) (color s) (esc_state s) (esc_buf s)
    (esc_len s) (hw_cursor s) (v_serial s) (v_oob s || negb inside).

(** [for (x = from; x < from + n; ++x) vga_memory[base + x] = f(x);] *)
Fixpoint set_cells (n : nat) (i : Z) (f : vga -> Z -> Z) s : vga :=
  match n with
  | O => s
  | S n => set_cells n (i + 1) f (set_cell i (f s i) s)
  end.

Definition vga_entry (c entry_color : Z) : Z := u16 (Z.lor (u16 (s8 c)) (Z.shiftl entry_color 8)).
Definition make_color (fg bg : Z) : Z := u8 (Z.lor fg (Z.shiftl bg 4)).

Definition update_cursor s : vga :=
  mk_vga (vga_memory s) (row s) (col s) (color s) (esc_state s) (esc_buf s) (esc_len s)
    (u16 (u32 (row s * VGA_WIDTH + col s))) (v_serial s) (v_oob s).

Definition blank s : Z := vga_entry 32 (color s).

Definition scroll s : vga :=
  if row s <? VGA_HEIGHT then s else
  let s := set_cells (Z.to_nat ((VGA_HEIGHT - 1) * VGA_WIDTH)) 0 (fun s i => byte_at (vga_memory s) (i + VGA_WIDTH)) s in
  let s := set_cells (Z.to_nat VGA_WIDTH) ((VGA_HEIGHT - 1) * VGA_WIDTH) (fun s _ => blank s) s in
  set_pos (VGA_HEIGHT - 1) (col s) s.

Definition newline s : vga := scroll (set_pos (u32 (row s + 1)) 0 s).

Definition erase_current_line s : vga :=
  let s := on_serial serial_erase_line s in
  let s := set_cells (Z.to_nat VGA_WIDTH) (u32 (row s * VGA_WIDTH)) (fun s _ => blank s) s in
  set_pos (row s) 0 s.

(** One parameter of a colour sequence. *)
Definition sgr_apply (have_value : bool) (value : Z) (k : Z) : Z :=
  if negb have_value || (value =? 0) then make_color VGA_LIGHT_GREY VGA_BLACK
  else if (30 <=? value) && (value <=? 37) then make_color (u8 (value - 30)) (Z.shiftr k 4)
  else if (90 <=? value) && (value <=? 97) then make_color (u8 (value - 90 + 8)) (Z.shiftr k 4)
  else if (40 <=? value) && (value <=? 47) then make_color (Z.land k 0x0F) (u8 (value - 40))
  else k.

(** The loop of [ansi_sgr] over the buffer, up to its NUL; [value] wraps like
    the machine's multiplication. *)
Fixpoint sgr_loop (seq : list Z) (value : Z) (have_value : bool) (k : Z) : Z :=
  match seq with
  | [] => k
  | c :: seq =>
      if (48 <=? c) && (c <=? 57) then sgr_loop seq (s32 (value * 10 + (c - 48))) true k
      else
        let sep := (c =? 59) || (c =? 109) || (c =? 0) in
        let k := if sep then sgr_apply have_value value k else k in
        if (c =? 109) || (c =? 0) then k
        else if sep then sgr_loop seq 0 false k
        else sgr_loop seq value have_value k
  end.
Definition ansi_sgr (seq : list Z) s : vga := set_color (sgr_loop seq 0 false (color s)) s.

Definition vga_clear s : vga :=
  let s := on_serial serial_clear s in
  let s := set_cells (Z.to_nat (VGA_HEIGHT * VGA_WIDTH)) 0 (fun s _ => blank s) s in
  update_cursor (set_esc 0 (esc_buf s) 0 (set_pos 0 0 s)).

Definition ansi_execute s : vga :=
  let s := set_esc (esc_state s) (put (esc_buf s) (esc_len s) [0]) (esc_len s) s in
  let final := if esc_len s =? 0 then 0 else byte_at (esc_buf s) (esc_len s - 1) in
  let s := if final =? 109 then ansi_sgr (esc_buf s) s
           else if final =? 74 then vga_clear s
           else if final =? 75 then erase_current_line s
           else if final =? 72 then set_pos 0 0 s
           else s in
  set_esc 0 (esc_buf s) 0 s.

Definition vga_init s : vga :=
  vga_clear (set_esc 0 (esc_buf s) 0 (set_pos 0 0 (set_color (make_color VGA_LIGHT_GREY VGA_BLACK) s))).

(** A character that is shown. *)
Definition put_glyph (c : Z) s : vga :=
  let s := set_cell (u32 (row s * VGA_WIDTH + col s)) (vga_entry c (color s)) s in
  let s := set_pos (row s) (u32 (col s + 1)) s in
  if col s =? VGA_WIDTH then newline s else s.

(** [do vga_putc(' '); while (col % 4);] outside an escape sequence. *)
Fixpoint tab_loop (turns : nat) s : vga :=
  let s := update_cursor (put_glyph 32 (on_serial (serial_putc 32) s)) in
  if col s mod 4 =? 0 then s
  else match turns with O => s | S turns => tab_loop turns s end.

Definition backspace s : vga :=
  let s := if 0 <? col s then set_pos (row s) (col s - 1) s
           else if 0 <? row s then set_pos (row s - 1) (VGA_WIDTH - 1) s
           else s in
  set_cell (u32 (row s * VGA_WIDTH + col s)) (blank s) s.

(** [vga_putc] outside an escape sequence; a tab ends after at most four blanks. *)
Definition put_plain (c : Z) s : vga :=
  if c =? 27 then set_esc 1 (esc_buf s) (esc_len s) s else
  update_cursor
    (if c =? 10 then newline s
     else if c =? 13 then set_pos (row s) 0 s
     else if c =? 9 then tab_loop 3 s
     else if c =? 8 then backspace s
     else put_glyph c s).

Definition vga_putc (c : Z) s : vga :=
  let s := on_serial (serial_putc c) s in
  if esc_state s =? 1 then
    if c =? 91 then set_esc 2 (esc_buf s) 0 s
    else put_plain c (set_esc 0 (esc_buf s) (esc_len s) s)
  else if esc_state s =? 2 then
    let s := if u32 (esc_len s + 1) <? ESC_BUF_SIZE
             then set_esc (esc_state s) (put (esc_buf s) (esc_len s) [c]) (esc_len s + 1) s else s in
    if ((64 <=? s8 c) && (s8 c <=? 126)) || (ESC_BUF_SIZE <=? u32 (esc_len s + 1)) then ansi_execute s else s
  else put_plain c s.

Definition vga_write_len (t : list Z) s : vga := foldl (fun s c => vga_putc c s) s t.
Definition vga_write (t : list Z) s : vga := vga_write_len t s.
Definition vga_set_color (fg bg : Z) s : vga := set_color (make_color fg bg) s.
Definition vga_color s : Z := color s.
Definition vga_get_cursor s : Z * Z := (row s, col s).

Definition vga_goto (new_row new_col : Z) s : vga :=
  let s := set_pos (if VGA_HEIGHT <=? new_row then VGA_HEIGHT - 1 else new_row)
             (if VGA_WIDTH <=? new_col then VGA_WIDTH - 1 else new_col) s in
  on_serial (serial_move_cursor (row s) (col s)) s.

Definition vga_erase_eol s : vga :=
  let s := on_serial serial_erase_line s in
  set_cells (Z.to_nat (VGA_WIDTH - col s)) (u32 (row s * VGA_WIDTH) + col s) (fun s _ => blank s) s.

Definition vga_set_cursor (new_row new_col : Z) s : vga := update_cursor (vga_goto new_row new_col s).

Definition clamp (x n : Z) : Z := let x := if x <? 0 then 0 else x in if n <=? x then n - 1 else x.
Definition vga_move_cursor_rel (drow dcol : Z) s : vga :=
  update_cursor (set_pos (clamp (s32 (row s + drow)) VGA_HEIGHT) (clamp (s32 (col s + dcol)) VGA_WIDTH) s).

Definition vga_status_bar (left_text right_text : option (list Z)) s : vga :=
  let saved_row := row s in
  let saved_col := col s in
  let saved_color := color s in
  let s := set_pos (VGA_HEIGHT - 1) 0 s in
  let s := on_serial (serial_move_cursor (row s) (col s)) s in
  let s := set_color (make_color VGA_BLACK VGA_LIGHT_GREY) s in
  let s := set_cells (Z.to_nat VGA_WIDTH) (row s * VGA_WIDTH) (fun s _ => blank s) s in
  let s := vga_write (default [] left_text) s in
  let s := match right_text with
           | Some t =>
               if Z.of_nat (length t) <? VGA_WIDTH then
                 let s := set_pos (VGA_HEIGHT - 1) (VGA_WIDTH - Z.of_nat (length t)) s in
                 let s := on_serial (serial_move_cursor (row s) (col s)) s in
                 vga_write t s
               else s
           | None => s
           end in
  let s := set_pos saved_row saved_col (set_color saved_color s) in
  let s := on_serial (serial_move_cursor (row s) (col s)) s in
  update_cursor s.

(** ** What the terminal shows

    The screen as its cells and one position, the cursor counted from the top
    left corner. *)
Record term := mk_term { t_cells : list Z; t_pos : Z }.

Definition SCREEN : Z := 2000.
Definition term_scroll (k : Z) (t : term) : term :=
  if t_pos t <? SCREEN then t
  else mk_term (drop 80 (t_cells t) ++ replicate 80 (vga_entry 32 k)) (t_pos t - 80).
Definition term_glyph (k c : Z) (t : term) : term :=
  term_scroll k (mk_term (<[Z.to_nat (t_pos t) := vga_entry c k]> (t_cells t)) (t_pos t + 1)).
Definition term_putc (k c : Z) (t : term) : term :=
  if c =? 10 then term_scroll k (mk_term (t_cells t) ((t_pos t / 80 + 1) * 80))
  else if c =? 13 then mk_term (t_cells t) (t_pos t / 80 * 80)
  else if c =? 9 then Nat.iter (Z.to_nat (4 - t_pos t mod 4)) (term_glyph k 32) t
  else if c =? 8 then
    let p := Z.max 0 (t_pos t - 1) in
    mk_term (<[Z.to_nat p := vga_entry 32 k]> (t_cells t)) p
  else term_glyph k c t.
Definition term_write (k : Z) (text : list Z) (t : term) : term := foldl (fun t c => term_putc k c t) t text.

Definition shown s : term := mk_term (vga_memory s) (row s * 80 + col s).

(** ** The state the driver keeps *)

(** Everything but the cursor. *)
Record cells_ok s : Prop := {
  ck_len : length (vga_memory s) = 2000%nat;
  ck_cells : Forall is_u16 (vga_memory s);
  ck_color : is_u8 (color s);
  ck_buf : length (esc_buf s) = 16%nat;
  ck_esc : 0 <= esc_len s <= 15;
  ck_state : 0 <= esc_state s <= 2;
  ck_oob : v_oob s = false;
}.
Record vga_ok s : Prop := {
  vk_cells : cells_ok s;
  vk_row : 0 <= row s < 25;
  vk_col : 0 <= col s < 80;
}.

(** The fields a change of the cells leaves alone. *)
Record same_but_cells s s' : Prop := {
  sc_row : row s' = row s; sc_col : col s' = col s; sc_color : color s' = color s;
  sc_state : esc_state s' = esc_state s; sc_buf : esc_buf s' = esc_buf s; sc_esc : esc_len s' = esc_len s;
  sc_serial : v_serial s' = v_serial s; sc_hw : hw_cursor s' = hw_cursor s;
}.

Lemma vga_entry_u16 c k : is_u16 (vga_entry c k).
Proof. apply u16_range. Qed.
Lemma make_color_u8 a b : is_u8 (make_color a b).
Proof. apply u8_range. Qed.
#[local] Hint Resolve vga_entry_u16 make_color_u8 : core.

Lemma byte_at_u16 b i : Forall is_u16 b -> is_u16 (byte_at b i).
Proof.
  intros Hb. unfold byte_at. destruct (b !! Z.to_nat i) as [x|] eqn:E; [|unfold is_u16; cbn; lia].
  by eapply Forall_lookup_1 in Hb.
Qed.

Lemma set_cell_ok i v s : cells_ok s -> 0 <= i < 2000 -> is_u16 v ->
  cells_ok (set_cell i v s) /\ same_but_cells s (set_cell i v s) /\ vga_memory (set_cell i v s) = <[Z.to_nat i := v]> (vga_memory s).
Proof.
  intros [C1 C2 C3 C4 C5 C6 C7] Hi Hv. split_and!; [|done|done].
  split; cbn; [by rewrite length_insert|by apply Forall_insert|done..|].
  rewrite C7, C1. cbn. apply negb_false_iff, andb_true_iff. split; [apply Z.leb_le|apply Z.ltb_lt]; lia.
Qed.

Lemma set_cells_ok n f : forall i s, (forall s j, cells_ok s -> is_u16 (f s j)) ->
  cells_ok s -> 0 <= i -> i + Z.of_nat n <= 2000 ->
  cells_ok (set_cells n i f s) /\ same_but_cells s (set_cells n i f s).
Proof.
  induction n as [|n IH]; intros i s Hf C Hi Hn; [done|]. cbn [set_cells].
  destruct (set_cell_ok i (f s i) s C ltac:(lia) (Hf _ _ C)) as (C1 & S1 & _).
  destruct (IH (i + 1) _ Hf C1 ltac:(lia) ltac:(lia)) as [C2 S2]. split; [done|].
  destruct S1, S2. split; congruence.
Qed.

(** Filling with blanks, and shifting up by one row. *)
Lemma fill_memory n : forall i s, 0 <= i -> i + Z.of_nat n <= Z.of_nat (length (vga_memory s)) ->
  vga_memory (set_cells n i (fun s _ => blank s) s) = splice (Z.to_nat i) (replicate n (blank s)) (vga_memory s).
Proof.
  induction n as [|n IH]; intros i s Hi Hn; cbn [set_cells].
  - apply list_eq. intros j. rewrite splice_lookup_out; [done|]. cbn. lia.
  - rewrite IH by (cbn; rewrite ?length_insert; lia). cbn [vga_memory set_cell]. apply list_eq. intros j.
    change (blank (set_cell i (blank s) s)) with (blank s).
    rewrite !splice_lookup. rewrite length_insert, !length_replicate.
    destruct (decide (j = Z.to_nat i)) as [->|Hne].
    + rewrite decide_False by lia. rewrite decide_True by (cbn [length] in *; lia). rewrite Nat.sub_diag. cbn. by rewrite list_lookup_insert_eq by lia.
    + rewrite list_lookup_insert_ne by lia. destruct (decide (Z.to_nat (i + 1) <= j < Z.to_nat (i + 1) + n /\ j < length (vga_memory s))%nat).
      * rewrite decide_True by lia. rewrite !lookup_replicate_2 by lia. done.
      * rewrite decide_False by lia. done.
Qed.

Lemma shift_memory n : forall i s, 0 <= i -> i + Z.of_nat n + 80 <= Z.of_nat (length (vga_memory s)) ->
  vga_memory (set_cells n i (fun s i => byte_at (vga_memory s) (i + VGA_WIDTH)) s) =
    splice (Z.to_nat i) (take n (drop (Z.to_nat i + 80) (vga_memory s))) (vga_memory s).
Proof.
  induction n as [|n IH]; intros i s Hi Hn; cbn [set_cells].
  - apply list_eq. intros j. rewrite splice_lookup_out; [done|]. rewrite length_take. lia.
  - rewrite IH by (cbn; rewrite ?length_insert; lia). cbn [vga_memory set_cell]. apply list_eq. intros j.
    rewrite !splice_lookup. rewrite length_insert, !length_take, !length_drop, length_insert.
    destruct (decide (j = Z.to_nat i)) as [->|Hne].
    + rewrite decide_False by lia. rewrite decide_True by lia. rewrite Nat.sub_diag, list_lookup_insert_eq by lia.
      rewrite lookup_take_lt, lookup_drop by lia. unfold byte_at, VGA_WIDTH.
      replace (Z.to_nat (i + 80)) with (Z.to_nat i + 80 + 0)%nat by lia.
      destruct (lookup_lt_is_Some_2 (vga_memory s) (Z.to_nat i + 80 + 0)%nat) as [x ->]; [lia|done].
    + rewrite (list_lookup_insert_ne _ (Z.to_nat i) j) by lia.
      match goal with |- (if decide ?P then _ else _) = (if decide ?Q then _ else _) =>
        destruct (decide P); [rewrite (decide_True (P := Q)) by lia|rewrite (decide_False (P := Q)) by lia] end; [|done].
      rewrite !lookup_take_lt, !lookup_drop by lia. rewrite list_lookup_insert_ne by lia. f_equal. lia.
Qed.

(** The fields a shown character leaves alone. *)
Record same_mode s s' : Prop := {
  sm_color : color s' = color s; sm_state : esc_state s' = esc_state s;
  sm_buf : esc_buf s' = esc_buf s; sm_esc : esc_len s' = esc_len s;
}.
#[local] Instance same_mode_preorder : PreOrder same_mode.
Proof. split; [done|]. intros s1 s2 s3 [] []. split; congruence. Qed.

Lemma same_cells_mode s s' : same_but_cells s s' -> same_mode s s'.
Proof. intros []. by split. Qed.

(** [shows f s s']: a well-formed screen again, changed as [f] says. *)
Definition shows (f : term -> term) s s' : Prop := vga_ok s' /\ shown s' = f (shown s) /\ same_mode s s'.

Lemma scroll_cells (n w : nat) (b : Z) (m : list Z) : length m = (n + w)%nat -> (w <= n)%nat ->
  splice n (replicate w b) (splice 0 (take n (drop w m)) m) = drop w m ++ replicate w b.
Proof.
  intros Hl Hw. apply list_eq. intros j. rewrite !splice_lookup, length_splice, length_replicate, length_take, length_drop, Hl.
  destruct (decide (n <= j)%nat).
  - destruct (decide (j < n + w)%nat).
    + rewrite decide_True by lia. rewrite lookup_app_r by (rewrite length_drop; lia).
      rewrite !lookup_replicate_2 by (rewrite ?length_drop; lia). done.
    + rewrite !decide_False by lia. by rewrite !lookup_ge_None_2 by (rewrite ?length_app, ?length_drop, ?length_replicate, ?Hl; lia).
  - rewrite decide_False by lia. rewrite decide_True by lia. rewrite lookup_app_l by (rewrite length_drop; lia).
    rewrite lookup_take_lt by lia. f_equal. lia.
Qed.

(** The two loops of [scroll], and what they leave. *)
Lemma scroll_loops n w i s : n = 1920%nat -> w = 80%nat -> i = 1920 -> cells_ok s ->
  let s1 := set_cells n 0 (fun s i => byte_at (vga_memory s) (i + VGA_WIDTH)) s in
  let s2 := set_cells w i (fun s _ => blank s) s1 in
  cells_ok s2 /\ same_but_cells s s2 /\ vga_memory s2 = drop 80 (vga_memory s) ++ replicate 80 (blank s).
Proof.
  intros Hn Hw Hi C.
  destruct (set_cells_ok n (fun s i => byte_at (vga_memory s) (i + VGA_WIDTH)) 0 s) as [C1 S1];
    [intros ? ? ?; by apply byte_at_u16, ck_cells|done|lia|lia|].
  pose proof (shift_memory n 0 s ltac:(lia) ltac:(rewrite (ck_len _ C); lia)) as Hs.
  set (s1 := set_cells n 0 _ s) in *. clearbody s1.
  destruct (set_cells_ok w (fun s _ => blank s) i s1) as [C2 S2]; [intros; apply vga_entry_u16|exact C1|lia|lia|].
  pose proof (fill_memory w i s1 ltac:(lia) ltac:(rewrite (ck_len _ C1); lia)) as Hf.
  cbv zeta. split_and!; [done|destruct S1, S2; split; congruence|].
  rewrite Hf, Hs. unfold blank. rewrite (sc_color _ _ S1). rewrite Hi, Hn, Hw.
  apply (scroll_cells 1920 80); [by rewrite (ck_len _ C)|by apply Nat.leb_le].
Qed.

Lemma scroll_result s s2 : row s = 25 -> col s = 0 -> cells_ok s2 -> same_but_cells s s2 ->
  vga_memory s2 = drop 80 (vga_memory s) ++ replicate 80 (blank s) ->
  shows (term_scroll (color s)) s (set_pos (VGA_HEIGHT - 1) (col s2) s2).
Proof.
  intros Er Ec C2 S Hm. pose proof (sc_col _ _ S) as E2. split_and!.
  - split; cbn; [destruct C2; by split|unfold VGA_HEIGHT; lia|lia].
  - unfold shown, term_scroll, SCREEN. cbn [vga_memory row col set_pos t_pos t_cells].
    rewrite (proj2 (Z.ltb_ge (row s * 80 + col s) 2000)) by lia. rewrite Hm. f_equal. unfold VGA_HEIGHT. lia.
  - transitivity s2; [by apply same_cells_mode|done].
Qed.

Lemma scroll_spec s : cells_ok s -> 0 <= row s <= 25 -> 0 <= col s < 80 -> (row s = 25 -> col s = 0) ->
  shows (term_scroll (color s)) s (scroll s).
Proof.
  intros C Hr Hc H0. unfold scroll.
  destruct (Z.ltb_spec (row s) VGA_HEIGHT) as [Hlt|Hge]; unfold VGA_HEIGHT in *.
  - split_and!; [by split; [|lia|]| |done]. unfold term_scroll, SCREEN, shown. cbn [t_pos].
    by rewrite (proj2 (Z.ltb_lt (row s * 80 + col s) 2000)) by lia.
  - edestruct (scroll_loops (Z.to_nat ((25 - 1) * VGA_WIDTH)) (Z.to_nat VGA_WIDTH) ((25 - 1) * VGA_WIDTH) s) as (C2 & S2 & Hm);
      [reflexivity|reflexivity|reflexivity|done|].
    apply scroll_result; [lia|apply H0; lia|exact C2|exact S2|exact Hm].
Qed.

Lemma newline_spec s : vga_ok s -> shows (term_putc (color s) 10) s (newline s).
Proof.
  intros [C Hr Hc]. unfold newline. rewrite u32_small by (unfold is_u32; lia).
  set (s1 := set_pos (row s + 1) 0 s). destruct (scroll_spec s1) as (K & E & M); cbn; [by destruct C|lia|lia|done|].
  split_and!; [done| |by etrans; [|exact M]]. rewrite E. cbn. f_equal. unfold shown. cbn. f_equal.
  rewrite Z.div_add_l, Z.div_small by lia. lia.
Qed.

Lemma put_glyph_spec c s : vga_ok s -> shows (term_glyph (color s) c) s (put_glyph c s).
Proof.
  intros [C Hr Hc]. unfold put_glyph, VGA_WIDTH. rewrite u32_small by (unfold is_u32; lia).
  destruct (set_cell_ok (row s * 80 + col s) (vga_entry c (color s)) s C ltac:(lia) ltac:(done)) as (C1 & S1 & Hm).
  set (s1 := set_cell _ _ s) in *. rewrite (sc_row _ _ S1), (sc_col _ _ S1). rewrite u32_small by (unfold is_u32; lia).
  set (s2 := set_pos _ _ s1). cbn [col set_pos].
  assert (same_mode s s2) as M2 by (etrans; [by apply same_cells_mode|done]).
  assert (shown s2 = mk_term (<[Z.to_nat (row s * 80 + col s) := vga_entry c (color s)]> (vga_memory s)) (row s * 80 + col s + 1)) as Es.
  { unfold shown, s2. cbn [vga_memory row col set_pos]. rewrite Hm. f_equal. lia. }
  assert (cells_ok s2) as C2 by (destruct C1; by split).
  change (col s2) with (col s + 1). unfold term_glyph. cbn [shown t_pos t_cells].
  destruct (Z.eqb_spec (col s + 1) 80) as [E80|E80].
  - unfold newline. change (row s2) with (row s). rewrite u32_small by (unfold is_u32; lia).
    set (s3 := set_pos _ 0 s2). destruct (scroll_spec s3) as (K & E & M); cbn; [by destruct C2|lia|lia|done|].
    split_and!; [done| |by etrans; [exact M2|etrans; [|exact M]]]. rewrite E.
    change (color s3) with (color s2). rewrite (sm_color _ _ M2). f_equal. etrans; [|exact Es].
    unfold shown, s3, s2. cbn [vga_memory row col set_pos]. f_equal. lia.
  - split_and!; [by split; cbn; [|lia|lia]| |done]. rewrite Es. unfold term_scroll, SCREEN. cbn [t_pos shown].
    by rewrite (proj2 (Z.ltb_lt (row s * 80 + col s + 1) 2000)) by lia.
Qed.

Lemma shows_frame f s s' s'' : shows f s s' -> vga_memory s'' = vga_memory s' -> row s'' = row s' -> col s'' = col s' ->
  same_mode s' s'' -> v_oob s'' = v_oob s' -> shows f s s''.
Proof.
  intros ([[C1 C2 C3 C4 C5 C6 C7] Kr Kc] & E & M) Hm Hr Hc M' Ho. pose proof M' as [N1 N2 N3 N4]. split_and!.
  - split; [split|..]; rewrite ?Hm, ?Hr, ?Hc, ?N1, ?N2, ?N3, ?N4, ?Ho; done.
  - rewrite <- E. unfold shown. by rewrite Hm, Hr, Hc.
  - by etrans.
Qed.

Lemma shows_compose f g s s1 s2 : shows f s s1 -> shows g s1 s2 -> shows (g ∘ f) s s2.
Proof.
  intros (K1 & E1 & M1) (K2 & E2 & M2). split_and!; [done| |by etrans]. cbn. by rewrite E2, E1.
Qed.

Lemma shows_update f s s' : shows f s s' -> shows f s (update_cursor s').
Proof. intros H. by eapply shows_frame; [exact H|..]. Qed.

Lemma shows_serial f h s s' : shows f (on_serial h s) s' -> shows f s s'.
Proof. intros (K & E & M). split_and!; [done|exact E|by etrans; [|exact M]]. Qed.

Lemma serial_ok h s : vga_ok s -> vga_ok (on_serial h s).
Proof. intros [[C1 C2 C3 C4 C5 C6 C7] Kr Kc]. by split; [split|..]. Qed.

Lemma shown_mod s : t_pos (shown s) mod 4 = col s mod 4.
Proof. cbn. replace (row s * 80 + col s) with (col s + (row s * 20) * 4) by lia. apply Z.mod_add. lia. Qed.

Lemma glyph_mod k c t : t_pos (term_glyph k c t) mod 4 = (t_pos t + 1) mod 4.
Proof.
  unfold term_glyph, term_scroll. cbn [t_pos]. destruct (_ <? SCREEN); [done|]. cbn [t_pos].
  replace (t_pos t + 1 - 80) with (t_pos t + 1 + (-20) * 4) by lia. apply Z.mod_add. lia.
Qed.

Lemma shows_color f s s' : shows f s s' -> color s' = color s.
Proof. intros (_ & _ & M). apply M. Qed.

Lemma tab_loop_spec n : forall s, vga_ok s -> 3 - col s mod 4 <= Z.of_nat n ->
  shows (Nat.iter (Z.to_nat (4 - col s mod 4)) (term_glyph (color s) 32)) s (tab_loop n s).
Proof.
  induction n as [|n IH]; intros s K Hn; pose proof (Z.mod_pos_bound (col s) 4 ltac:(lia)) as Hb; cbn [tab_loop];
    pose proof (shows_update _ _ _ (shows_serial _ (serial_putc 32) s _ (put_glyph_spec 32 _ (serial_ok _ s K)))) as G;
    cbn [color on_serial] in G; set (s1 := update_cursor _) in *; clearbody s1;
    pose proof G as (K1 & E1 & M1); pose proof (shown_mod s1) as Hm; rewrite E1, glyph_mod in Hm;
    rewrite Z.add_mod, (shown_mod s) in Hm by lia; change (1 mod 4) with 1 in Hm.
  - assert (col s mod 4 = 3) as Ec by lia. rewrite Ec in *. rewrite <- Hm. exact G.
  - destruct (decide (col s mod 4 = 3)) as [Ec|Ec].
    + rewrite Ec in *. rewrite <- Hm. exact G.
    + rewrite Z.mod_small in Hm by lia. rewrite <- Hm. rewrite (proj2 (Z.eqb_neq (col s mod 4 + 1) 0)) by lia.
      pose proof (shows_compose _ _ _ _ _ G (IH s1 K1 ltac:(lia))) as G2. rewrite (sm_color _ _ M1), <- Hm in G2.
      replace (Z.to_nat (4 - col s mod 4)) with (S (Z.to_nat (4 - (col s mod 4 + 1)))) by lia.
      destruct G2 as (K2 & E2 & M2). split_and!; [done| |done]. rewrite E2. by rewrite Nat.iter_succ_r.
Qed.

Lemma backspace_spec s : vga_ok s -> shows (term_putc (color s) 8) s (backspace s).
Proof.
  intros [C Hr Hc]. unfold backspace, VGA_WIDTH. set (s1 := if 0 <? col s then _ else _).
  assert (cells_ok s1 /\ same_mode s s1 /\ vga_memory s1 = vga_memory s /\ 0 <= row s1 < 25 /\ 0 <= col s1 < 80 /\
    row s1 * 80 + col s1 = Z.max 0 (row s * 80 + col s - 1)) as (C1 & M1 & Hm & Hr1 & Hc1 & Ep).
  { unfold s1. destruct (Z.ltb_spec 0 (col s)); [|destruct (Z.ltb_spec 0 (row s))];
      (split_and!; [by destruct C|done|done|cbn; lia..]). }
  clearbody s1. rewrite u32_small by (unfold is_u32; lia).
  destruct (set_cell_ok (row s1 * 80 + col s1) (blank s1) s1 C1 ltac:(lia) ltac:(apply vga_entry_u16)) as (C2 & S2 & Hm2).
  set (s2 := set_cell _ _ _) in *. clearbody s2. split_and!.
  - split; [done|rewrite (sc_row _ _ S2); lia|rewrite (sc_col _ _ S2); lia].
  - unfold shown, term_putc. cbn [Z.eqb Pos.eqb t_pos t_cells]. rewrite (sc_row _ _ S2), (sc_col _ _ S2), Hm2, Hm, Ep.
    unfold blank. by rewrite (sm_color _ _ M1).
  - etrans; [exact M1|by apply same_cells_mode].
Qed.

Lemma put_plain_spec c s : vga_ok s -> c <> 27 -> shows (term_putc (color s) c) s (put_plain c s).
Proof.
  intros K Hc. unfold put_plain. rewrite (proj2 (Z.eqb_neq c 27)) by done. apply shows_update.
  unfold term_putc. destruct (Z.eqb_spec c 10) as [->|_]; [by apply newline_spec|].
  destruct (Z.eqb_spec c 13) as [->|_].
  { destruct K as [C Kr Kc]. split_and!; [by split; cbn; [destruct C; by split|lia|lia]| |done].
    unfold shown. cbn. f_equal. rewrite Z.div_add_l, Z.div_small by lia. lia. }
  destruct (Z.eqb_spec c 9) as [->|_].
  { pose proof (Z.mod_pos_bound (col s) 4 ltac:(lia)). destruct (tab_loop_spec 3 s K ltac:(lia)) as (K' & E & M).
    split_and!; [done| |done]. by rewrite E, shown_mod. }
  destruct (Z.eqb_spec c 8) as [->|_]; [by apply backspace_spec|by apply put_glyph_spec].
Qed.

Lemma vga_putc_spec c s : vga_ok s -> esc_state s = 0 -> c <> 27 ->
  shows (term_putc (color s) c) s (vga_putc c s).
Proof.
  intros K He Hc. unfold vga_putc. cbn [esc_state on_serial]. rewrite He. cbn [Z.eqb].
  apply shows_serial with (h := serial_putc c).
  exact (put_plain_spec c (on_serial (serial_putc c) s) (serial_ok _ s K) Hc).
Qed.

(** C26: The terminal shows what is written to it.  For every text without
    escape sequences, control characters included, the driver's screen memory
    and cursor go exactly where a plain description of an 80 by 25 terminal
    says: line feeds and full lines start a new line, the screen scrolls by a
    line at the bottom, tabs fill up to the next column of four, backspace
    blanks the character before the cursor; colour and mode do not change. *)
Theorem vga_write_shows text s : vga_ok s -> esc_state s = 0 -> Forall (fun c => c <> 27) text ->
  let s' := vga_write text s in
  vga_ok s' /\ shown s' = term_write (color s) text (shown s) /\ color s' = color s /\ esc_state s' = 0.
Proof.
  cbv zeta. unfold vga_write, vga_write_len, term_write. revert s.
  induction text as [|c text IH]; intros s K He Ht; [done|]. apply Forall_cons in Ht as [Hc Ht]. cbn [foldl].
  destruct (vga_putc_spec c s K He Hc) as (K1 & E1 & M1). pose proof (sm_state _ _ M1) as Es. rewrite He in Es.
  destruct (IH _ K1 Es Ht) as (K2 & E2 & Ec & Es2). rewrite (sm_color _ _ M1), E1 in E2. rewrite Ec, (sm_color _ _ M1). done.
Qed.

(** ** Every call, escape sequences included *)

Lemma cells_ok_mode s s' : cells_ok s -> vga_memory s' = vga_memory s -> v_oob s' = v_oob s -> is_u8 (color s') ->
  length (esc_buf s') = 16%nat -> 0 <= esc_len s' <= 15 -> 0 <= esc_state s' <= 2 -> cells_ok s'.
Proof. intros [C1 C2 C3 C4 C5 C6 C7] Hm Ho ? ? ? ?. split; rewrite ?Hm, ?Ho; done. Qed.

Lemma sgr_apply_u8 h v k : is_u8 k -> is_u8 (sgr_apply h v k).
Proof. intros Hk. unfold sgr_apply. repeat case_match; first [done|apply make_color_u8]. Qed.

Lemma sgr_loop_u8 seq : forall v h k, is_u8 k -> is_u8 (sgr_loop seq v h k).
Proof.
  induction seq as [|c seq IH]; intros v h k Hk; cbn [sgr_loop]; [done|].
  pose proof (sgr_apply_u8 h v k Hk) as Ha. repeat case_match; auto.
Qed.

Lemma fill_ok n i s : cells_ok s -> 0 <= i -> i + Z.of_nat n <= 2000 ->
  cells_ok (set_cells n i (fun s _ => blank s) s) /\ same_but_cells s (set_cells n i (fun s _ => blank s) s).
Proof. intros C Hi Hn. apply set_cells_ok; [intros; apply vga_entry_u16|done..]. Qed.

Lemma cells_serial h s : cells_ok s -> cells_ok (on_serial h s).
Proof. intros C. eapply cells_ok_mode; [exact C|done|done|apply C..]. Qed.

Lemma set_esc_ok st b n s : vga_ok s -> length b = 16%nat -> 0 <= n <= 15 -> 0 <= st <= 2 -> vga_ok (set_esc st b n s).
Proof. intros [C Kr Kc] Hb Hn Hs. split; [|done|done]. by eapply cells_ok_mode; [exact C|done|done|apply C|done..]. Qed.

Lemma set_pos_ok r c s : cells_ok s -> 0 <= r < 25 -> 0 <= c < 80 -> vga_ok (set_pos r c s).
Proof. intros C Hr Hc. split; [|done|done]. eapply cells_ok_mode; [exact C|done|done|apply C..]. Qed.

Lemma set_color_ok k s : vga_ok s -> is_u8 k -> vga_ok (set_color k s).
Proof. intros [C Kr Kc] Hk. split; [|done|done]. eapply cells_ok_mode; [exact C|done|done|done|apply C..]. Qed.

Lemma update_cursor_ok s : vga_ok s -> vga_ok (update_cursor s).
Proof. intros [C Kr Kc]. split; [|done|done]. eapply cells_ok_mode; [exact C|done|done|apply C..]. Qed.

(** Clearing the screen. *)
Lemma cleared n s : Z.of_nat n = 2000 -> cells_ok s ->
  vga_ok (let s := set_cells n 0 (fun s _ => blank s) (on_serial serial_clear s) in
          update_cursor (set_esc 0 (esc_buf s) 0 (set_pos 0 0 s))).
Proof.
  intros Hn C. destruct (fill_ok n 0 (on_serial serial_clear s)) as [C1 S1]; [by apply cells_serial|lia|lia|].
  cbv zeta. apply update_cursor_ok, set_esc_ok; [by apply set_pos_ok; [|lia|lia]|apply C1|lia|lia].
Qed.
Lemma vga_clear_ok s : cells_ok s -> vga_ok (vga_clear s).
Proof. exact (cleared (Z.to_nat (VGA_HEIGHT * VGA_WIDTH)) s eq_refl). Qed.

(** Blanking [n] cells of the cursor's row from column [c]. *)
Lemma blanked n c i s : vga_ok s -> 0 <= c -> c + Z.of_nat n <= 80 -> i = row s * 80 + c ->
  vga_ok (set_cells n i (fun s _ => blank s) s) /\ row (set_cells n i (fun s _ => blank s) s) = row s.
Proof.
  intros [C Kr Kc] Hc Hn ->. destruct (fill_ok n (row s * 80 + c) s) as [C1 S1]; [done|lia|lia|].
  destruct S1 as [Sr Sc]. split; [split; [done|by rewrite Sr|by rewrite Sc]|done].
Qed.

Lemma erase_row n i s : vga_ok s -> Z.of_nat n = 80 -> i = row s * 80 ->
  vga_ok (let s := set_cells n i (fun s _ => blank s) s in set_pos (row s) 0 s).
Proof.
  intros K Hn ->. destruct (blanked n 0 (row s * 80 + 0) s K) as [K1 Er]; [lia|lia|lia|]. rewrite Z.add_0_r in *.
  cbv zeta. apply set_pos_ok; [apply K1|apply K1|lia].
Qed.
Lemma erase_current_line_ok s : vga_ok s -> vga_ok (erase_current_line s).
Proof.
  intros K. refine (erase_row (Z.to_nat VGA_WIDTH) (u32 (row (on_serial serial_erase_line s) * VGA_WIDTH))
    (on_serial serial_erase_line s) (serial_ok _ s K) eq_refl _).
  destruct K. apply u32_small. unfold is_u32, VGA_WIDTH. cbn [row on_serial]. lia.
Qed.

Lemma ansi_execute_ok s : vga_ok s -> vga_ok (ansi_execute s).
Proof.
  intros K. unfold ansi_execute. set (b := put _ _ _).
  assert (length b = 16%nat) as Hb by (unfold b; rewrite length_put; apply K). clearbody b.
  set (s0 := set_esc _ b _ s). assert (vga_ok s0) as K0 by (apply set_esc_ok; [done|done|apply K|apply K]). clearbody s0.
  set (final := if esc_len s0 =? 0 then _ else _). clearbody final.
  assert (forall s1, vga_ok s1 -> vga_ok (set_esc 0 (esc_buf s1) 0 s1)) as He by (intros s1 K1; apply set_esc_ok; [done|apply K1|lia|lia]).
  destruct (final =? 109); [apply He, set_color_ok; [done|apply sgr_loop_u8, K0]|].
  destruct (final =? 74); [by apply He, vga_clear_ok, K0|].
  destruct (final =? 75); [by apply He, erase_current_line_ok|].
  destruct (final =? 72); [by apply He, set_pos_ok; [apply K0|lia|lia]|by apply He].
Qed.

Lemma vga_putc_ok c s : vga_ok s -> vga_ok (vga_putc c s).
Proof.
  intros K. unfold vga_putc. set (s0 := on_serial _ s). assert (vga_ok s0) as K0 by by apply serial_ok. clearbody s0.
  assert (forall s1, vga_ok s1 -> vga_ok (put_plain c s1)) as Hp.
  { intros s1 K1. destruct (decide (c = 27)) as [->|Hc]; [|by apply put_plain_spec].
    unfold put_plain. cbn [Z.eqb Pos.eqb]. apply set_esc_ok; [done|apply K1|apply K1|lia]. }
  destruct (esc_state s0 =? 1).
  { destruct (c =? 91); [|apply Hp]; (apply set_esc_ok; [done|apply K0|try apply K0; lia|lia]). }
  destruct (esc_state s0 =? 2); [|by apply Hp].
  set (s1 := if _ <? ESC_BUF_SIZE then _ else _). assert (vga_ok s1) as K1.
  { unfold s1, ESC_BUF_SIZE. pose proof (ck_esc _ (vk_cells _ K0)) as Hl. rewrite u32_small by (unfold is_u32; lia).
    destruct (Z.ltb_spec (esc_len s0 + 1) 16); [|done]. apply set_esc_ok; [done|by rewrite length_put; apply K0|lia|apply K0]. }
  clearbody s1. destruct (_ || _); [by apply ansi_execute_ok|done].
Qed.

Lemma vga_write_ok t s : vga_ok s -> vga_ok (vga_write t s).
Proof.
  unfold vga_write, vga_write_len. revert s. induction t as [|c t IH]; intros s K; [done|]. by apply IH, vga_putc_ok.
Qed.

Lemma goto_ok r c s : vga_ok s -> 0 <= r -> 0 <= c -> vga_ok (vga_goto r c s).
Proof.
  intros K Hr Hc. unfold vga_goto, VGA_HEIGHT, VGA_WIDTH. apply serial_ok, set_pos_ok; [apply K|..].
  - destruct (Z.leb_spec 25 r); lia.
  - destruct (Z.leb_spec 80 c); lia.
Qed.

Lemma clamp_range x n : 0 < n -> 0 <= clamp x n < n.
Proof. intros Hn. unfold clamp. destruct (Z.ltb_spec x 0); [destruct (Z.leb_spec n 0)|destruct (Z.leb_spec n x)]; lia. Qed.

Lemma erase_eol_ok s : vga_ok s -> vga_ok (vga_erase_eol s).
Proof.
  intros K. unfold vga_erase_eol. pose proof (serial_ok serial_erase_line s K) as K0.
  set (s0 := on_serial _ s) in *. clearbody s0. pose proof K0 as [_ Kr Kc]. unfold VGA_WIDTH.
  apply (blanked _ (col s0) _ s0 K0); [lia|lia|]. rewrite u32_small by (unfold is_u32; lia). done.
Qed.

(** The bar from the start of its row, with the colours set. *)
Lemma bar_row n i s : vga_ok s -> Z.of_nat n = 80 -> i = row s * 80 ->
  vga_ok (set_cells n i (fun s _ => blank s) s).
Proof. intros K Hn ->. apply (blanked n 0 _ s K); lia. Qed.

Lemma status_bar_ok a b s : vga_ok s -> vga_ok (vga_status_bar a b s).
Proof.
  intros K. unfold vga_status_bar. pose proof K as [C Kr Kc].
  assert (vga_ok (set_pos (VGA_HEIGHT - 1) 0 s)) as K0 by (apply set_pos_ok; [done|unfold VGA_HEIGHT; lia|lia]).
  apply (serial_ok (serial_move_cursor (VGA_HEIGHT - 1) 0)) in K0. apply (set_color_ok (make_color VGA_BLACK VGA_LIGHT_GREY)) in K0; [|done].
  pose proof (bar_row (Z.to_nat VGA_WIDTH) ((VGA_HEIGHT - 1) * VGA_WIDTH) _ K0 eq_refl eq_refl) as K1.
  pose proof (vga_write_ok (default [] a) _ K1) as K2. clear K0 K1. cbn [row col set_pos on_serial set_color].
  set (s2 := vga_write (default [] a) _) in *. clearbody s2.
  set (s3 := match b with Some t => _ | None => _ end). assert (cells_ok s3) as C3.
  { unfold s3. destruct b as [t|]; [|apply K2]. destruct (Z.ltb_spec (Z.of_nat (length t)) VGA_WIDTH) as [Hlt|]; [|apply K2].
    destruct (decide (t = [])) as [->|Ht].
    - cbn [vga_write vga_write_len foldl]. apply cells_serial. by destruct (vk_cells _ K2).
    - apply vga_write_ok, serial_ok, set_pos_ok; [apply K2|unfold VGA_HEIGHT; lia|]. unfold VGA_WIDTH in *. destruct t; [done|cbn [length] in *; lia]. }
  clearbody s3. apply update_cursor_ok, serial_ok, set_pos_ok; [|done|done].
  eapply cells_ok_mode; [exact C3|done|done|apply C|apply C3..].
Qed.

(** The calls of vga.h; sizes are unsigned. *)
Inductive vga_call :=
  | CInit | CClear | CPutc (c : Z) | CText (t : list Z) | CColor (fg bg : Z)
  | CGoto (r c : nat) | CEraseEol | CCursor (r c : nat) | CMove (dr dc : Z)
  | CBar (left_text right_text : option (list Z)).

Definition vga_do (c : vga_call) s : vga :=
  match c with
  | CInit => vga_init s
  | CClear => vga_clear s
  | CPutc c => vga_putc c s
  | CText t => vga_write t s
  | CColor fg bg => vga_set_color fg bg s
  | CGoto r c => vga_goto (Z.of_nat r) (Z.of_nat c) s
  | CEraseEol => vga_erase_eol s
  | CCursor r c => vga_set_cursor (Z.of_nat r) (Z.of_nat c) s
  | CMove dr dc => vga_move_cursor_rel dr dc s
  | CBar a b => vga_status_bar a b s
  end.

Lemma init_cells s : length (vga_memory s) = 2000%nat -> Forall is_u16 (vga_memory s) -> length (esc_buf s) = 16%nat ->
  v_oob s = false -> vga_ok (vga_init s).
Proof.
  intros Hm Hu Hb Ho. unfold vga_init. apply vga_clear_ok. split; cbn; try done; apply u8_range.
Qed.

Lemma vga_do_ok c s : vga_ok s -> vga_ok (vga_do c s).
Proof.
  intros K. destruct c as [| |c|t|fg bg|r c| |r c|dr dc|a b]; cbn [vga_do].
  - apply init_cells; apply K.
  - by apply vga_clear_ok, K.
  - by apply vga_putc_ok.
  - by apply vga_write_ok.
  - apply set_color_ok; [done|apply u8_range].
  - apply goto_ok; [done|lia|lia].
  - by apply erase_eol_ok.
  - apply update_cursor_ok, goto_ok; [done|lia|lia].
  - apply update_cursor_ok, set_pos_ok; [apply K|by apply clamp_range|by apply clamp_range].
  - by apply status_bar_ok.
Qed.

(** C27: The terminal driver never writes outside the screen: from [vga_init] on,
    whatever sequence of its functions is called, with whatever text (escape
    sequences complete, broken or endless) and cursor positions, the cursor
    stays on the screen, the escape buffer is never overrun, and every cell
    access lies within the 2000 cells of the screen memory. *)
Theorem vga_in_bounds calls s :
  length (vga_memory s) = 2000%nat -> Forall is_u16 (vga_memory s) -> length (esc_buf s) = 16%nat -> v_oob s = false ->
  let s' := foldl (fun s c => vga_do c s) (vga_init s) calls in
  v_oob s' = false /\ 0 <= row s' < 25 /\ 0 <= col s' < 80 /\ 0 <= esc_len s' < 16.
Proof.
  intros Hm Hu Hb Ho. cbv zeta. assert (vga_ok (foldl (fun s c => vga_do c s) (vga_init s) calls)) as K.
  { pose proof (init_cells s Hm Hu Hb Ho) as K. revert K. generalize (vga_init s). clear.
    induction calls as [|c calls IH]; intros s K; [done|]. by apply IH, vga_do_ok. }
  destruct K as [[_ _ _ _ Ke _ Ko] Kr Kc]. split_and!; [done|lia..].
Qed.

Definition vga_off : vga := mk_vga (replicate 2000 0) 0 0 0 0 (replicate 16 0) 0 0 (mk_serial true []) false.

Lemma vga_in_bounds_witness :
  let s' := foldl (fun s c => vga_do c s) (vga_init vga_off)
              [CText (27 :: lit "[31mred" ++ 27 :: lit "[99999999999999999"); CGoto 99 99; CText (lit "xy"); CBar None (Some [])] in
  v_oob s' = false /\ 0 <= row s' < 25 /\ 0 <= col s' < 80 /\ 0 <= esc_len s' < 16.
Proof.
  apply (vga_in_bounds [CText (27 :: lit "[31mred" ++ 27 :: lit "[99999999999999999"); CGoto 99 99; CText (lit "xy"); CBar None (Some [])] vga_off).
  - apply length_replicate.
  - apply Forall_replicate. unfold is_u16. lia.
  - reflexivity.
  - reflexivity.
Defined.

Lemma vga_write_shows_witness :
  let s' := vga_write (lit "hi" ++ [10; 9] ++ lit "there") (vga_init vga_off) in
  vga_ok s' /\ shown s' = term_write (color (vga_init vga_off)) (lit "hi" ++ [10; 9] ++ lit "there") (shown (vga_init vga_off)) /\
  color s' = color (vga_init vga_off) /\ esc_state s' = 0.
Proof.
  apply (vga_write_shows (lit "hi" ++ [10; 9] ++ lit "there") (vga_init vga_off)).
  - apply init_cells; [apply length_replicate|apply Forall_replicate; unfold is_u16; lia|reflexivity|reflexivity].
  - vm_compute. reflexivity.
  - refine (bool_decide_unpack _ _). vm_compute. exact I.
Defined.


(** A character above 127 is stored with all colour bits set, whatever the
    colour: [vga_entry] widens the signed [char] before it adds the colour. *)
Lemma high_char_loses_color : Forall (fun k => vga_entry 0xE9 k = 0xFFE9) (seqZ 0 256).
Proof. refine (bool_decide_unpack _ _). vm_compute. exact I. Qed.

(** The escape sequence for red selects colour 1, which is blue on this
    hardware (VGA_RED is 4): the ANSI numbers are used as VGA numbers. *)
Lemma ansi_red_is_blue : sgr_loop (lit "31m") 0 false 7 = 1.
Proof. reflexivity. Qed.
