(* ===== verification/Ports.v ===== *)
(** * Ports and the interrupt controllers (include/pureunix/io.h, arch/i386/pic.c)

    [Ports] lists the port instructions of io.h over an arbitrary bus.  [PicOk]
    states what the two 8259 controllers on it do: a command with bit 4 starts
    the initialisation, which clears the mask and takes three more bytes on
    the data port; outside of it the data port is the mask.  The theorems show
    that [pic_init] moves the lines to the vectors 32 to 47 and keeps the
    masks, and that [irq_enable] and [irq_disable] change one line. *)

From S2P Require Import Prelude.

Class Ports (B : Type) := {
  inb : Z -> state B Z;
  inw : Z -> state B Z;
  outb : Z -> Z -> state B unit;
  outw : Z -> Z -> state B unit;
}.

Definition PIC1_COMMAND : Z := 0x20.
Definition PIC1_DATA : Z := 0x21.
Definition PIC2_COMMAND : Z := 0xA0.
Definition PIC2_DATA : Z := 0xA1.
Definition PIC_EOI : Z := 0x20.

Section Pic.
Context {B : Type} `{Ports B}.

Definition io_wait : state B unit := outb 0x80 0.

Definition pic_init : state B unit :=
  a1 ← inb PIC1_DATA;
  a2 ← inb PIC2_DATA;
  outb PIC1_COMMAND 0x11;; io_wait;;
  outb PIC2_COMMAND 0x11;; io_wait;;
  outb PIC1_DATA 0x20;; io_wait;;
  outb PIC2_DATA 0x28;; io_wait;;
  outb PIC1_DATA 0x04;; io_wait;;
  outb PIC2_DATA 0x02;; io_wait;;
  outb PIC1_DATA 0x01;; io_wait;;
  outb PIC2_DATA 0x01;; io_wait;;
  outb PIC1_DATA a1;;
  outb PIC2_DATA a2.

Definition pic_send_eoi (irq : Z) : state B unit :=
  (if 8 <=? irq then outb PIC2_COMMAND PIC_EOI else mret tt);;
  outb PIC1_COMMAND PIC_EOI.

Definition irq_port (irq : Z) : Z := if irq <? 8 then PIC1_DATA else PIC2_DATA.
Definition irq_line (irq : Z) : Z := if irq <? 8 then irq else u8 (irq - 8).

(** The result of [~] and [|] on the promoted int is cut to the byte of [outb]. *)
Definition irq_enable (irq : Z) : state B unit :=
  m ← inb (irq_port irq);
  outb (irq_port irq) (u8 (Z.land m (Z.lnot (Z.shiftl 1 (irq_line irq))))).

Definition irq_disable (irq : Z) : state B unit :=
  m ← inb (irq_port irq);
  outb (irq_port irq) (u8 (Z.lor m (Z.shiftl 1 (irq_line irq)))).
End Pic.

(** ** The controllers *)

(** [p_icw] is the initialisation byte the data port expects, 0 outside of the
    initialisation; [p_eois] counts the interrupts acknowledged. *)
Record pic8259 := mk_pic { p_mask : Z; p_base : Z; p_icw : Z; p_eois : Z }.

Definition pic_command (v : Z) (p : pic8259) : pic8259 :=
  if Z.testbit v 4 then mk_pic 0 (p_base p) 2 (p_eois p)
  else if v =? PIC_EOI then mk_pic (p_mask p) (p_base p) (p_icw p) (p_eois p + 1)
  else p.

Definition pic_data (v : Z) (p : pic8259) : pic8259 :=
  if p_icw p =? 0 then mk_pic (u8 v) (p_base p) 0 (p_eois p)
  else if p_icw p =? 2 then mk_pic (p_mask p) (Z.land v 0xF8) 3 (p_eois p)
  else if p_icw p =? 3 then mk_pic (p_mask p) (p_base p) 4 (p_eois p)
  else mk_pic (p_mask p) (p_base p) 0 (p_eois p).

(** What a byte written to a port does to the master ([false]) or the slave. *)
Definition pic_out (second : bool) (port v : Z) (p : pic8259) : pic8259 :=
  if port =? (if second then PIC2_COMMAND else PIC1_COMMAND) then pic_command v p
  else if port =? (if second then PIC2_DATA else PIC1_DATA) then pic_data v p
  else p.

Class PicOk (B : Type) `{Ports B} := {
  pic_view : B -> bool -> pic8259;
  pic_view_outb port v b s : pic_view (outb port v b).2 s = pic_out s port v (pic_view b s);
  pic_view_inb port b s : pic_view (inb port b).2 s = pic_view b s;
  pic_inb_mask b s : p_icw (pic_view b s) = 0 ->
    (inb (if s then PIC2_DATA else PIC1_DATA) b).1 = p_mask (pic_view b s);
  pic_mask_range b s : is_u8 (p_mask (pic_view b s));
}.

(** The controller of a line and its number there. *)
Definition line_masked (p : bool -> pic8259) (irq : Z) : bool :=
  Z.testbit (p_mask (p (8 <=? irq))) (irq mod 8).

Section PicOk.
Context {B : Type} `{PicOk B}.

Lemma pic_view_wait b s : pic_view (io_wait b).2 s = pic_view b s.
Proof. unfold io_wait. rewrite pic_view_outb. by destruct s. Qed.

(** The mask of the controller that owns [irq] becomes [f] of itself; the other
    controller, and the vectors, stay. *)
Lemma mask_update (f : Z -> Z) irq b : 0 <= irq < 16 ->
  (forall s, p_icw (pic_view b s) = 0) ->
  let s := 8 <=? irq in let p := pic_view b s in
  run (m ← inb (irq_port irq); outb (irq_port irq) (f m)) b (fun _ b' => forall s',
    pic_view b' s' = if bool_decide (s' = s) then mk_pic (u8 (f (p_mask p))) (p_base p) 0 (p_eois p) else pic_view b s').
Proof.
  intros Hi Hz s p. unfold run. rewrite bind_unfold.
  replace (irq_port irq) with (if s then PIC2_DATA else PIC1_DATA)
    by (unfold s, irq_port; destruct (Z.ltb_spec irq 8), (Z.leb_spec 8 irq); (done || lia)).
  intros s'. rewrite pic_view_outb, pic_view_inb, pic_inb_mask by done. fold p.
  destruct s eqn:Es, s'; unfold pic_out; cbn; unfold pic_data; rewrite ?Hz; done.
Qed.

Lemma irq_line_mod irq : 0 <= irq < 16 -> irq_line irq = irq mod 8.
Proof.
  intros. unfold irq_line, u8. destruct (Z.ltb_spec irq 8).
  - by rewrite Z.mod_small by lia.
  - rewrite Z.mod_small by lia. apply Z.mod_unique with 1; lia.
Qed.

Lemma same_line i j : 0 <= i < 16 -> 0 <= j < 16 -> (8 <=? j) = (8 <=? i) -> j mod 8 = i mod 8 -> j = i.
Proof.
  intros Hi Hj E. rewrite <-!irq_line_mod by done. unfold irq_line, u8.
  destruct (Z.ltb_spec i 8), (Z.ltb_spec j 8), (Z.leb_spec 8 i), (Z.leb_spec 8 j); try (lia || discriminate).
  rewrite !Z.mod_small by lia. lia.
Qed.

(** Setting or clearing one bit of the right mask changes one line. *)
Lemma one_line (f : Z -> Z) (v : bool) irq b b' : 0 <= irq < 16 ->
  (forall m n, is_u8 m -> 0 <= n < 8 -> Z.testbit (u8 (f m)) n = if n =? irq mod 8 then v else Z.testbit m n) ->
  (forall s', pic_view b' s' = if bool_decide (s' = (8 <=? irq))
    then mk_pic (u8 (f (p_mask (pic_view b (8 <=? irq))))) (p_base (pic_view b (8 <=? irq))) 0 (p_eois (pic_view b (8 <=? irq)))
    else pic_view b s') ->
  forall j, 0 <= j < 16 -> line_masked (pic_view b') j = if j =? irq then v else line_masked (pic_view b) j.
Proof.
  intros Hi Hf Hv j Hj. unfold line_masked. rewrite Hv.
  assert (0 <= j mod 8 < 8) by (apply Z.mod_pos_bound; lia).
  case_bool_decide as Es.
  - cbn [p_mask]. rewrite Hf by (try apply pic_mask_range; lia). rewrite Es.
    destruct (Z.eqb_spec j irq) as [->|Hne]; [by rewrite Z.eqb_refl|].
    destruct (Z.eqb_spec (j mod 8) (irq mod 8)) as [E|]; [|done].
    exfalso. by apply Hne, same_line.
  - destruct (Z.eqb_spec j irq) as [->|]; done.
Qed.

Lemma bit_below m n : 0 <= n < 8 -> Z.testbit (u8 m) n = Z.testbit m n.
Proof. intros. unfold u8. apply Z.mod_pow2_bits_low. lia. Qed.

Lemma clear_bit m i n : 0 <= i -> 0 <= n < 8 ->
  Z.testbit (u8 (Z.land m (Z.lnot (Z.shiftl 1 i)))) n = if n =? i then false else Z.testbit m n.
Proof.
  intros. rewrite bit_below, Z.land_spec, Z.lnot_spec, Z.shiftl_1_l, Z.pow2_bits_eqb, (Z.eqb_sym i n) by lia.
  destruct (n =? i); [apply andb_false_r|apply andb_true_r].
Qed.

Lemma set_bit m i n : 0 <= i -> 0 <= n < 8 ->
  Z.testbit (u8 (Z.lor m (Z.shiftl 1 i))) n = if n =? i then true else Z.testbit m n.
Proof.
  intros. rewrite bit_below, Z.lor_spec, Z.shiftl_1_l, Z.pow2_bits_eqb, (Z.eqb_sym i n) by lia.
  destruct (n =? i); [apply orb_true_r|apply orb_false_r].
Qed.

(** A change of the mask that sets bit [irq mod 8] to [v] is a change of line [irq]. *)
Lemma line_update (f : Z -> Z) (v : bool) irq b : 0 <= irq < 16 -> (forall s, p_icw (pic_view b s) = 0) ->
  (forall m n, is_u8 m -> 0 <= n < 8 -> Z.testbit (u8 (f m)) n = if n =? irq mod 8 then v else Z.testbit m n) ->
  run (m ← inb (irq_port irq); outb (irq_port irq) (f m)) b (fun _ b' =>
    (forall s, p_icw (pic_view b' s) = 0 /\ p_base (pic_view b' s) = p_base (pic_view b s)) /\
    forall j, 0 <= j < 16 -> line_masked (pic_view b') j = if j =? irq then v else line_masked (pic_view b) j).
Proof.
  intros Hi Hz Hf. pose proof (mask_update f irq b Hi Hz) as Hv. cbv zeta in Hv. unfold run in *. split.
  - intros s. rewrite Hv. case_bool_decide; subst; auto.
  - exact (one_line f v irq b _ Hi Hf Hv).
Qed.

Lemma irq_enable_line irq b : 0 <= irq < 16 -> (forall s, p_icw (pic_view b s) = 0) ->
  run (irq_enable irq) b (fun _ b' =>
    (forall s, p_icw (pic_view b' s) = 0 /\ p_base (pic_view b' s) = p_base (pic_view b s)) /\
    forall j, 0 <= j < 16 -> line_masked (pic_view b') j = if j =? irq then false else line_masked (pic_view b) j).
Proof.
  intros Hi Hz. apply (line_update (fun m => u8 (Z.land m (Z.lnot (Z.shiftl 1 (irq_line irq))))) false irq b Hi Hz).
  intros m n _ Hn. assert (0 <= irq mod 8 < 8) by (apply Z.mod_pos_bound; lia).
  rewrite irq_line_mod, bit_below by done. apply clear_bit; lia.
Qed.

Lemma irq_disable_line irq b : 0 <= irq < 16 -> (forall s, p_icw (pic_view b s) = 0) ->
  run (irq_disable irq) b (fun _ b' =>
    (forall s, p_icw (pic_view b' s) = 0 /\ p_base (pic_view b' s) = p_base (pic_view b s)) /\
    forall j, 0 <= j < 16 -> line_masked (pic_view b') j = if j =? irq then true else line_masked (pic_view b) j).
Proof.
  intros Hi Hz. apply (line_update (fun m => u8 (Z.lor m (Z.shiftl 1 (irq_line irq)))) true irq b Hi Hz).
  intros m n _ Hn. assert (0 <= irq mod 8 < 8) by (apply Z.mod_pos_bound; lia).
  rewrite irq_line_mod, bit_below by done. apply set_bit; lia.
Qed.

(** [pic_init] takes the controllers, in whatever state their vectors are, to
    the vectors 32 and 40 with the masks they had. *)
Lemma pic_init_view b : (forall s, p_icw (pic_view b s) = 0) ->
  run pic_init b (fun _ b' => forall s,
    pic_view b' s = mk_pic (p_mask (pic_view b s)) (if s then 40 else 32) 0 (p_eois (pic_view b s))).
Proof.
  intros Hz. unfold run, pic_init.
  rewrite bind_unfold, (pic_inb_mask b false), bind_unfold by apply Hz.
  rewrite (pic_inb_mask _ true), pic_view_inb by (rewrite pic_view_inb; apply Hz).
  intros s. repeat (rewrite bind_unfold; cbv beta).
  rewrite !pic_view_outb. repeat rewrite ?pic_view_wait, ?pic_view_outb, ?pic_view_inb.
  pose proof (u8_small _ (pic_mask_range b s)) as Em. revert Em.
  destruct (pic_view b s) as [m ba ic eo] eqn:E. destruct s; rewrite E; cbn [p_mask]; intros Em.
  - transitivity (mk_pic (u8 m) 40 0 eo); [reflexivity|by rewrite Em].
  - transitivity (mk_pic (u8 m) 32 0 eo); [reflexivity|by rewrite Em].
Qed.

Lemma pic_send_eoi_view irq b : 0 <= irq < 16 ->
  run (pic_send_eoi irq) b (fun _ b' => forall s, pic_view b' s =
    if s && (irq <? 8) then pic_view b s
    else mk_pic (p_mask (pic_view b s)) (p_base (pic_view b s)) (p_icw (pic_view b s)) (p_eois (pic_view b s) + 1)).
Proof.
  intros Hi. unfold run, pic_send_eoi. rewrite bind_unfold. intros s. rewrite pic_view_outb.
  destruct (Z.leb_spec 8 irq), (Z.ltb_spec irq 8); try lia.
  - rewrite pic_view_outb. by destruct s.
  - cbn. by destruct s.
Qed.
End PicOk.

(** ** Two controllers on a bus of their own *)

Definition pic_pair : Type := pic8259 * pic8259.
Definition pic_of (b : pic_pair) (s : bool) : pic8259 :=
  let p := if s then b.2 else b.1 in mk_pic (u8 (p_mask p)) (p_base p) (p_icw p) (p_eois p).

#[global] Instance pic_pair_ports : Ports pic_pair := {
  inb port b := (if port =? PIC1_DATA then p_mask (pic_of b false) else if port =? PIC2_DATA then p_mask (pic_of b true) else 0, b);
  inw _ b := (0, b);
  outb port v b := (tt, (pic_out false port v b.1, pic_out true port v b.2));
  outw _ _ b := (tt, b);
}.

Lemma pic_out_mask s port v m ba ic eo : exists m',
  pic_out s port v (mk_pic m ba ic eo) = mk_pic m' (p_base (pic_out s port v (mk_pic m ba ic eo)))
    (p_icw (pic_out s port v (mk_pic m ba ic eo))) (p_eois (pic_out s port v (mk_pic m ba ic eo))) /\
  pic_out s port v (mk_pic (u8 m) ba ic eo) = mk_pic (u8 m') (p_base (pic_out s port v (mk_pic m ba ic eo)))
    (p_icw (pic_out s port v (mk_pic m ba ic eo))) (p_eois (pic_out s port v (mk_pic m ba ic eo))).
Proof.
  unfold pic_out, pic_command, pic_data. cbn [p_icw p_mask p_base p_eois].
  repeat (case_match; cbn [p_icw p_mask p_base p_eois]); eexists; split; try reflexivity.
  all: unfold u8; by rewrite ?Zmod_mod.
Qed.

#[global] Instance pic_pair_ok : PicOk pic_pair.
Proof.
  refine {| pic_view := pic_of |}.
  - intros port v [[m1 a1 i1 e1] [m2 a2 i2 e2]] s. unfold pic_of. cbn [fst snd outb pic_pair_ports].
    destruct s; cbn [p_icw p_mask p_base p_eois];
      [destruct (pic_out_mask true port v m2 a2 i2 e2) as (m' & E1 & E2)|
       destruct (pic_out_mask false port v m1 a1 i1 e1) as (m' & E1 & E2)]; by rewrite E2, E1.
  - done.
  - by intros b [] _.
  - intros b s. apply u8_range.
Defined.
