(* ===== verification/Interrupts.v ===== *)
(** * Processor tables and interrupts (arch/i386/gdt.c, idt.c, pit.c, arch.c,
    kernel/panic.c, [keyboard_init] of drivers/keyboard.c)

    [core] holds what these files keep: the two descriptor tables and the
    registers they are loaded into, the handlers, the tick counter, and beside
    them the keyboard, the terminal and the bus.  The entry stubs and
    the tables are at addresses given by the linker, which are arguments; a stub
    pushes its vector and calls [isr_dispatch].  The theorem follows a hardware
    interrupt from its line to its handler. *)

From stdpp Require Import strings.
From S2P Require Import Prelude VfsTypes Printf Keyboard Vga Ports.

Record gdt_entry := mk_gdt_entry {
  limit_low : Z; base_low : Z; base_middle : Z; access : Z; granularity : Z; base_high : Z;
}.
Record idt_entry := mk_idt_entry {
  i_base_low : Z; i_selector : Z; i_zero : Z; i_flags : Z; i_base_high : Z;
}.

(** The interrupt handlers of the kernel. *)
Inductive handler := h_pit_irq | h_keyboard_irq | h_ata_irq.

(** The saved registers that the dispatcher and the system calls use. *)
Record interrupt_regs := mk_regs {
  r_ebx : Z; r_edx : Z; r_ecx : Z; r_eax : Z; r_int_no : Z; r_err_code : Z; r_eip : Z;
}.

Record core (B : Type) := mk_core {
  bus : B;
  gdt : list gdt_entry; gdtr : Z * Z;      (* what lgdt loaded: limit and base *)
  idt : list idt_entry; idtr : Z * Z;
  handlers : list (option handler);
  ticks : Z; pit_hz : Z;
  kbd : keyboard; tty : vga;
  interrupts_on : bool; halted : bool;
}.
Arguments mk_core {B}.
Arguments bus {B}. Arguments gdt {B}. Arguments gdtr {B}. Arguments idt {B}. Arguments idtr {B}.
Arguments handlers {B}. Arguments ticks {B}. Arguments pit_hz {B}. Arguments kbd {B}. Arguments tty {B}.
Arguments interrupts_on {B}. Arguments halted {B}.

Definition zero_gdt : gdt_entry := mk_gdt_entry 0 0 0 0 0 0.
Definition zero_idt : idt_entry := mk_idt_entry 0 0 0 0 0.

Section Core.
Context {B : Type} `{Ports B}.
Local Abbreviation M := (state (core B)).
Implicit Types c : core B.

Definition set_bus (b : B) c : core B :=
  mk_core b (gdt c) (gdtr c) (idt c) (idtr c) (handlers c) (ticks c) (pit_hz c) (kbd c) (tty c) (interrupts_on c) (halted c).
Definition set_gdt g r c : core B :=
  mk_core (bus c) g r (idt c) (idtr c) (handlers c) (ticks c) (pit_hz c) (kbd c) (tty c) (interrupts_on c) (halted c).
Definition set_idt i r c : core B :=
  mk_core (bus c) (gdt c) (gdtr c) i r (handlers c) (ticks c) (pit_hz c) (kbd c) (tty c) (interrupts_on c) (halted c).
Definition set_handlers hs c : core B :=
  mk_core (bus c) (gdt c) (gdtr c) (idt c) (idtr c) hs (ticks c) (pit_hz c) (kbd c) (tty c) (interrupts_on c) (halted c).
Definition set_ticks t c : core B :=
  mk_core (bus c) (gdt c) (gdtr c) (idt c) (idtr c) (handlers c) t (pit_hz c) (kbd c) (tty c) (interrupts_on c) (halted c).
Definition set_hz hz c : core B :=
  mk_core (bus c) (gdt c) (gdtr c) (idt c) (idtr c) (handlers c) (ticks c) hz (kbd c) (tty c) (interrupts_on c) (halted c).
Definition set_kbd k c : core B :=
  mk_core (bus c) (gdt c) (gdtr c) (idt c) (idtr c) (handlers c) (ticks c) (pit_hz c) k (tty c) (interrupts_on c) (halted c).
Definition set_tty t c : core B :=
  mk_core (bus c) (gdt c) (gdtr c) (idt c) (idtr c) (handlers c) (ticks c) (pit_hz c) (kbd c) t (interrupts_on c) (halted c).
Definition set_running (on stop : bool) c : core B :=
  mk_core (bus c) (gdt c) (gdtr c) (idt c) (idtr c) (handlers c) (ticks c) (pit_hz c) (kbd c) (tty c) on stop.

(** Port access from code that sees the whole of [core]. *)
Definition on_bus {A} (m : state B A) : M A := fun c => let '(a, b) := m (bus c) in (a, set_bus b c).
Definition say (fmt : list Z) (args : list arg) : M unit :=
  modify (fun c => match vprintf fmt args with Some (t, _) => set_tty (vga_write t (tty c)) c | None => c end).

(** ** gdt.c *)
Definition gdt_set_gate (num base limit acc gran : Z) (g : list gdt_entry) : list gdt_entry :=
  <[Z.to_nat num := mk_gdt_entry (Z.land limit 0xFFFF) (Z.land base 0xFFFF) (Z.land (Z.shiftr base 16) 0xFF) acc
      (Z.lor (Z.land (Z.shiftr limit 16) 0x0F) (Z.land gran 0xF0)) (Z.land (Z.shiftr base 24) 0xFF)]> g.

Definition gdt_init (gdt_address : Z) : M unit :=
  let g := replicate 5 zero_gdt in
  let g := gdt_set_gate 0 0 0 0 0 g in
  let g := gdt_set_gate 1 0 0xFFFFFFFF 0x9A 0xCF g in
  let g := gdt_set_gate 2 0 0xFFFFFFFF 0x92 0xCF g in
  let g := gdt_set_gate 3 0 0xFFFFFFFF 0xFA 0xCF g in
  let g := gdt_set_gate 4 0 0xFFFFFFFF 0xF2 0xCF g in
  modify (set_gdt g (5 * 8 - 1, gdt_address)).

(** ** idt.c *)
Definition exception_names : list (list Z) :=
  map lit ["divide by zero"; "debug"; "non-maskable interrupt"; "breakpoint";
    "overflow"; "bound range"; "invalid opcode"; "device unavailable";
    "double fault"; "coprocessor segment"; "invalid TSS"; "segment not present";
    "stack fault"; "general protection fault"; "page fault"; "reserved";
    "x87 floating point"; "alignment check"; "machine check"; "SIMD floating point";
    "virtualization"; "control protection"; "reserved"; "reserved";
    "reserved"; "reserved"; "reserved"; "reserved";
    "hypervisor injection"; "VMM communication"; "security"; "reserved"]%string.

Definition idt_set_gate (num base selector flags : Z) (i : list idt_entry) : list idt_entry :=
  <[Z.to_nat num := mk_idt_entry (Z.land base 0xFFFF) selector 0 flags (Z.land (Z.shiftr base 16) 0xFFFF)]> i.

Definition interrupt_register_handler (vector : Z) (h : handler) : M unit :=
  modify (fun c => set_handlers (<[Z.to_nat vector := Some h]> (handlers c)) c).

(** [for (i = 0; i < n; ++i) idt_set_gate(first + i, stubs[i], 0x08, 0x8E)], last turn last. *)
Fixpoint set_gates (n : nat) (first : Z) (stubs : Z -> Z) (i : list idt_entry) : list idt_entry :=
  match n with
  | O => i
  | S n => idt_set_gate (first + Z.of_nat n) (stubs (Z.of_nat n)) 0x08 0x8E (set_gates n first stubs i)
  end.

Definition idt_init (isr irq : Z -> Z) (isr128 idt_address : Z) : M unit :=
  let i := replicate 256 zero_idt in
  let i := set_gates 32 0 isr i in
  let i := set_gates 16 32 irq i in
  let i := idt_set_gate 0x80 isr128 0x08 0xEE i in
  modify (set_idt i (256 * 8 - 1, idt_address)).

(** ** arch.c *)
Definition arch_init (isr irq : Z -> Z) (isr128 gdt_address idt_address : Z) : M unit :=
  gdt_init gdt_address;; idt_init isr irq isr128 idt_address;; on_bus pic_init.

(** ** panic.c: the halt loop at the end is [halted]. *)
Definition VGA_WHITE : Z := 15.
Definition VGA_RED : Z := 4.
Definition panic (fmt : list Z) (args : list arg) : M unit :=
  modify (fun c => set_running false (halted c) c);;
  modify (fun c => set_tty (vga_set_color VGA_WHITE VGA_RED (tty c)) c);;
  say ([10; 10] ++ lit "KERNEL PANIC: ") [];;
  say fmt args;;
  say ([10] ++ lit "System halted." ++ [10]) [];;
  modify (fun c => set_running (interrupts_on c) true c).

(** ** The handlers: [pit_irq], [keyboard_irq] (its body is in Keyboard.v), [ata_irq] *)
Definition pit_irq : M unit := modify (fun c => set_ticks (u64 (ticks c + 1)) c).
Definition key_irq : M unit :=
  sc ← on_bus (inb 0x60); modify (fun c => set_kbd (keyboard_irq sc (kbd c)) c).
Definition ata_irq : M unit := _ ← on_bus (inb 0x1F7); mret tt.

Definition run_handler (h : handler) : M unit :=
  match h with h_pit_irq => pit_irq | h_keyboard_irq => key_irq | h_ata_irq => ata_irq end.

Definition isr_dispatch (syscall_dispatch : interrupt_regs -> M Z) (regs : interrupt_regs) : M interrupt_regs :=
  if r_int_no regs =? 0x80 then
    a ← syscall_dispatch regs;
    mret (mk_regs (r_ebx regs) (r_edx regs) (r_ecx regs) a (r_int_no regs) (r_err_code regs) (r_eip regs))
  else
    c ← get;
    match mjoin (handlers c !! Z.to_nat (r_int_no regs)) with
    | Some h => run_handler h
    | None =>
        if r_int_no regs <? 32 then
          panic (lit "CPU exception %u (%s), err=%x eip=%p")
            [AWord (r_int_no regs); AText (exception_names !! Z.to_nat (r_int_no regs));
             AWord (r_err_code regs); AWord (r_eip regs)]
        else say (lit "Unhandled interrupt %u" ++ [10]) [AWord (r_int_no regs)]
    end;;
    (if (32 <=? r_int_no regs) && (r_int_no regs <? 48)
     then on_bus (pic_send_eoi (u8 (r_int_no regs - 32))) else mret tt);;
    mret regs.

(** ** pit.c and [keyboard_init] *)
Definition pit_init (hz : Z) : M unit :=
  modify (set_hz (if hz =? 0 then 100 else hz));;
  c ← get;
  let divisor := 1193182 / pit_hz c in
  on_bus (outb 0x43 0x36);;
  on_bus (outb 0x40 (Z.land divisor 0xFF));;
  on_bus (outb 0x40 (Z.land (Z.shiftr divisor 8) 0xFF));;
  interrupt_register_handler 32 h_pit_irq;;
  on_bus (irq_enable 0).

Definition pit_ticks : M Z := gets ticks.

(** Each [arch_halt] ends with the next interrupt; [None]: it does not come. *)
Fixpoint pit_wait (sys : interrupt_regs -> M Z) (last : Z) (next : list interrupt_regs) : M (option (list interrupt_regs)) :=
  c ← get;
  if last <=? ticks c then mret (Some next) else
  match next with
  | [] => mret None
  | r :: next => _ ← isr_dispatch sys r; pit_wait sys last next
  end.
Definition pit_sleep (sys : interrupt_regs -> M Z) (ms : Z) (next : list interrupt_regs) : M (option (list interrupt_regs)) :=
  c ← get;
  pit_wait sys (u64 (ticks c + u64 (u64 (ms * pit_hz c) + 999) / 1000)) next.

(** Up to [fuel] bytes waiting in the controller are dropped; [false]: there are more. *)
Fixpoint kbd_drain (fuel : nat) : M bool :=
  st ← on_bus (inb 0x64);
  if Z.land st 1 =? 0 then mret true else
  match fuel with
  | O => mret false
  | S fuel => _ ← on_bus (inb 0x60); kbd_drain fuel
  end.
Definition keyboard_init (fuel : nat) : M bool :=
  done ← kbd_drain fuel;
  if done : bool then interrupt_register_handler 33 h_keyboard_irq;; on_bus (irq_enable 1);; mret true
  else mret false.
End Core.

(** ** The tables *)

(** What the processor reads from a descriptor. *)
Definition gate_offset (g : idt_entry) : Z := i_base_low g + 65536 * i_base_high g.
Definition segment_base (g : gdt_entry) : Z := base_low g + 65536 * base_middle g + 2 ^ 24 * base_high g.
Definition segment_size (g : gdt_entry) : Z :=
  let units := limit_low g + 65536 * Z.land (granularity g) 0x0F + 1 in
  if Z.testbit (granularity g) 7 then units * 4096 else units.
Definition segment_ring (g : gdt_entry) : Z := Z.land (Z.shiftr (access g) 5) 3.

Lemma gate_offset_set base sel flags : is_u32 base ->
  gate_offset (mk_idt_entry (Z.land base 0xFFFF) sel 0 flags (Z.land (Z.shiftr base 16) 0xFFFF)) = base.
Proof.
  unfold is_u32, gate_offset. cbn [i_base_low i_base_high]. intros Hb.
  change 0xFFFF with (Z.ones 16). rewrite !Z.land_ones, Z.shiftr_div_pow2 by lia.
  change (2 ^ 16) with 65536. rewrite (Z.mod_small (base / 65536)); [pose proof (Z.div_mod base 65536); lia|].
  split; [apply Z.div_pos|apply Z.div_lt_upper_bound]; lia.
Qed.

Lemma length_set_gates n first stubs i : length (set_gates n first stubs i) = length i.
Proof. induction n as [|n IH]; [done|]. cbn. unfold idt_set_gate. by rewrite length_insert. Qed.

Lemma set_gates_lookup n first stubs i : 0 <= first -> first + Z.of_nat n <= Z.of_nat (length i) ->
  forall k, 0 <= k -> set_gates n first stubs i !! Z.to_nat k =
    if (first <=? k) && (k <? first + Z.of_nat n)
    then Some (mk_idt_entry (Z.land (stubs (k - first)) 0xFFFF) 0x08 0 0x8E (Z.land (Z.shiftr (stubs (k - first)) 16) 0xFFFF))
    else i !! Z.to_nat k.
Proof.
  intros Hf. induction n as [|n IH]; intros Hn k Hk.
  - destruct (Z.leb_spec first k), (Z.ltb_spec k (first + Z.of_nat 0)); (done || lia).
  - cbn [set_gates]. unfold idt_set_gate. destruct (Z.eq_dec k (first + Z.of_nat n)) as [->|Hne].
    + rewrite list_lookup_insert_eq by (rewrite length_set_gates; lia).
      replace (first + Z.of_nat n - first) with (Z.of_nat n) by lia.
      destruct (Z.leb_spec first (first + Z.of_nat n)), (Z.ltb_spec (first + Z.of_nat n) (first + Z.of_nat (S n))); (done || lia).
    + rewrite list_lookup_insert_ne, IH by lia.
      destruct (Z.leb_spec first k), (Z.ltb_spec k (first + Z.of_nat n)), (Z.ltb_spec k (first + Z.of_nat (S n))); (done || lia).
Qed.

Section Routes.
Context {B : Type} `{PicOk B}.
Implicit Types c : core B.

(** The gates [idt_init] leaves for the 16 interrupt lines, the 32 exceptions
    and the system calls. *)
Lemma idt_init_gates isr irq isr128 ia c :
  let i := idt (idt_init isr irq isr128 ia c).2 in
  (forall n, 0 <= n < 16 -> is_u32 (irq n) -> exists g, i !! Z.to_nat (32 + n) = Some g /\ gate_offset g = irq n /\
     i_selector g = 0x08 /\ i_flags g = 0x8E) /\
  (forall n, 0 <= n < 32 -> is_u32 (isr n) -> exists g, i !! Z.to_nat n = Some g /\ gate_offset g = isr n /\
     i_selector g = 0x08 /\ i_flags g = 0x8E) /\
  (is_u32 isr128 -> exists g, i !! 128%nat = Some g /\ gate_offset g = isr128 /\ i_flags g = 0xEE).
Proof.
  cbv zeta. unfold idt_init. cbn [modify snd idt set_idt]. unfold idt_set_gate. split_and!.
  - intros n Hn Hu. rewrite list_lookup_insert_ne, set_gates_lookup by (rewrite ?length_set_gates, ?length_replicate; lia).
    destruct (Z.leb_spec 32 (32 + n)), (Z.ltb_spec (32 + n) (32 + Z.of_nat 16)); try lia. cbn [andb].
    replace (32 + n - 32) with n by lia. eexists. split; [done|]. by rewrite gate_offset_set.
  - intros n Hn Hu. rewrite list_lookup_insert_ne, !set_gates_lookup by (rewrite ?length_set_gates, ?length_replicate; lia).
    destruct (Z.leb_spec 32 n), (Z.leb_spec 0 n), (Z.ltb_spec n (0 + Z.of_nat 32)); try lia. cbn [andb].
    rewrite Z.sub_0_r. eexists. split; [done|]. by rewrite gate_offset_set.
  - intros Hu. change 128%nat with (Z.to_nat 0x80).
    rewrite list_lookup_insert_eq by (rewrite !length_set_gates, length_replicate; lia).
    eexists. split; [done|]. by rewrite gate_offset_set.
Qed.

(** The segments are flat: base 0 and the whole of the 4 GiB, two for ring 0 and
    two for ring 3. *)
Lemma gdt_init_flat ga c : gdt (gdt_init ga c).2 !! 0%nat = Some zero_gdt /\
  Forall (fun '(n, ring) => exists g, gdt (gdt_init ga c).2 !! n = Some g /\ segment_base g = 0 /\
    segment_size g = 2 ^ 32 /\ segment_ring g = ring) [(1%nat, 0); (2%nat, 0); (3%nat, 3); (4%nat, 3)].
Proof. split; [done|]. repeat constructor; eexists; split_and!; reflexivity. Qed.

Lemma on_bus_run {A} (m : state B A) c Q : run m (bus c) (fun a b => Q a (set_bus b c)) -> run (on_bus m) c Q.
Proof. unfold run, on_bus. by destruct (m (bus c)). Qed.

(** No handler touches the controllers. *)
Lemma run_handler_pic h c : forall s, pic_view (bus (run_handler h c).2) s = pic_view (bus c) s.
Proof.
  intros s. destruct h; [done| |]; unfold run_handler, key_irq, ata_irq; rewrite bind_unfold; cbn [modify snd bus set_kbd mret state_ret];
    unfold on_bus.
  - pose proof (pic_view_inb 0x60 (bus c) s) as E. by destruct (inb 0x60 (bus c)).
  - pose proof (pic_view_inb 0x1F7 (bus c) s) as E. by destruct (inb 0x1F7 (bus c)).
Qed.

Lemma dispatch_handler sys regs h n c : r_int_no regs = 32 + n -> 0 <= n < 16 ->
  handlers c !! Z.to_nat (32 + n) = Some (Some h) ->
  isr_dispatch sys regs c = (regs, (on_bus (pic_send_eoi n) (run_handler h c).2).2).
Proof.
  intros Hr Hn Hh. unfold isr_dispatch. rewrite Hr. destruct (Z.eqb_spec (32 + n) 0x80); [lia|].
  rewrite bind_unfold. cbn [get fst snd]. rewrite Hh. cbn [mjoin option_join].
  rewrite bind_unfold. destruct (Z.leb_spec 32 (32 + n)), (Z.ltb_spec (32 + n) 48); try lia. cbn [andb].
  rewrite bind_unfold. unfold u8. rewrite Z.mod_small by lia. by replace (32 + n - 32) with n by lia.
Qed.

Lemma on_bus_rest {A} (m : state B A) c : (on_bus m c).2 = set_bus (bus (on_bus m c).2) c.
Proof. unfold on_bus. by destruct (m (bus c)). Qed.

Lemma arch_init_eq isr irq isr128 ga ia c :
  (arch_init isr irq isr128 ga ia c).2 =
  set_bus (pic_init (bus c)).2 (idt_init isr irq isr128 ia (gdt_init ga c).2).2.
Proof. unfold arch_init. rewrite !bind_unfold. unfold on_bus, idt_init, gdt_init. cbn. by destruct (pic_init (bus c)). Qed.

End Routes.

(** ** The timer *)
Section Timer.
Context {B : Type} `{Ports B}.
Implicit Types c : core B.

(** From 19 Hz on the divisor fits the two bytes [pit_init] sends. *)
Lemma pit_divisor hz : 19 <= hz -> let d := 1193182 / hz in
  Z.land d 0xFF + 256 * Z.land (Z.shiftr d 8) 0xFF = d.
Proof.
  intros Hh d. assert (0 <= d < 65536) as Hd.
  { unfold d. split; [apply Z.div_pos; lia|]. apply Z.div_lt_upper_bound; lia. }
  change 0xFF with (Z.ones 8). rewrite !Z.land_ones, Z.shiftr_div_pow2 by lia. change (2 ^ 8) with 256.
  rewrite (Z.mod_small (d / 256)); [pose proof (Z.div_mod d 256); lia|].
  split; [apply Z.div_pos|apply Z.div_lt_upper_bound]; lia.
Qed.

Definition timer_irq (r : interrupt_regs) : Prop := r_int_no r = 32.

Lemma timer_tick sys r c : timer_irq r -> handlers c !! 32%nat = Some (Some h_pit_irq) ->
  ticks (isr_dispatch sys r c).2 = u64 (ticks c + 1) /\ handlers (isr_dispatch sys r c).2 = handlers c.
Proof.
  intros Hr Hh. rewrite (dispatch_handler sys r h_pit_irq 0 c Hr) by (lia || exact Hh). cbn [snd].
  by rewrite on_bus_rest.
Qed.

(** [pit_wait] returns after as many timer interrupts as ticks are missing. *)
Lemma pit_wait_ticks sys : forall k c next, Forall timer_irq next -> (k <= length next)%nat ->
  handlers c !! 32%nat = Some (Some h_pit_irq) -> 0 <= ticks c -> ticks c + Z.of_nat k < 2 ^ 64 ->
  run (pit_wait sys (ticks c + Z.of_nat k) next) c (fun r c' =>
    r = Some (drop k next) /\ ticks c' = ticks c + Z.of_nat k).
Proof.
  induction k as [|k IH]; intros c next Ht Hl Hh H0 Hb.
  - unfold run. destruct next; cbn [pit_wait]; rewrite bind_unfold; cbn [get fst snd];
      rewrite (proj2 (Z.leb_le _ _)) by lia; cbn; split; (done || lia).
  - destruct next as [|r next]; [simpl in Hl; lia|]. apply Forall_cons in Ht as [Hr Ht]. simpl in Hl.
    destruct (timer_tick sys r c Hr Hh) as [Et Eh].
    unfold u64 in Et. rewrite Z.mod_small in Et by lia.
    unfold run. cbn [pit_wait drop]. rewrite bind_unfold. cbn [get fst snd].
    rewrite (proj2 (Z.leb_gt _ _)) by lia. rewrite bind_unfold.
    specialize (IH (isr_dispatch sys r c).2 next Ht ltac:(lia)). rewrite Et, Eh in IH.
    replace (ticks c + Z.of_nat (S k)) with (ticks c + 1 + Z.of_nat k) by lia. apply IH; (done || lia).
Qed.

(** [pit_sleep ms] returns when the timer has ticked [ms] milliseconds, rounded
    up to a whole tick, and not before. *)
Lemma pit_sleep_ticks sys ms next c : is_u32 ms -> is_u32 (pit_hz c) ->
  let n := (ms * pit_hz c + 999) / 1000 in
  Forall timer_irq next -> (Z.to_nat n <= length next)%nat -> handlers c !! 32%nat = Some (Some h_pit_irq) ->
  0 <= ticks c < 2 ^ 63 ->
  run (pit_sleep sys ms next) c (fun r c' => r = Some (drop (Z.to_nat n) next) /\ ticks c' = ticks c + n /\
    ms * pit_hz c <= 1000 * (ticks c' - ticks c) < ms * pit_hz c + 1000).
Proof.
  intros Hm Hz n Ht Hl Hh Hc. unfold is_u32 in *.
  assert (0 <= ms * pit_hz c <= (2 ^ 32 - 1) * (2 ^ 32 - 1)) as Hp.
  { split; [apply Z.mul_nonneg_nonneg|apply Z.mul_le_mono_nonneg]; lia. }
  assert (0 <= n < 2 ^ 62) as Hn.
  { unfold n. split; [apply Z.div_pos; lia|]. apply Z.div_lt_upper_bound; lia. }
  unfold pit_sleep. eapply run_bind, run_get. unfold u64.
  rewrite (Z.mod_small (ms * pit_hz c)), (Z.mod_small (ms * pit_hz c + 999)) by lia. fold n.
  rewrite (Z.mod_small (ticks c + n)) by lia. rewrite <-(Z2Nat.id n) at 1 by lia.
  eapply run_mono; [apply pit_wait_ticks; try done; lia|]. cbn. intros r c' [-> ->]. split_and!; [done|lia|..].
  all: unfold n in *; pose proof (Z.div_mod (ms * pit_hz c + 999) 1000); pose proof (Z.mod_pos_bound (ms * pit_hz c + 999) 1000); lia.
Qed.
End Timer.

(** ** Witness: the timer line on two controllers with every line masked *)

Definition demo_core : core pic_pair :=
  mk_core (mk_pic 255 8 0 0, mk_pic 255 112 0 0) [] (0, 0) [] (0, 0) (replicate 256 None) 0 100
    keyboard_start (vga_init (mk_vga (replicate 2000 0) 0 0 0 0 [] 0 0 (mk_serial true []) false)) false false.

