(* ===== verification/Ata.v ===== *)
(** * The ATA driver (drivers/ata.c)

    The driver on the ports of Ports.v, and [AtaOk]: what a channel with up to
    two drives does in PIO mode.  A drive is busy for less than 100000 reads of
    its status, then it offers or expects the 256 words of a sector, or shows
    an error.  A sector can be [bad] (the request is refused) or [worn] (the data
    is taken, and writing it fails).  Handlers of interrupt 14 only read the
    status, so they shorten the wait and change nothing else. *)

From stdpp Require Import strings.
From S2P Require Import Prelude VfsTypes Printf Ports Interrupts.

Definition ATA_PRIMARY_IO : Z := 0x1F0.
Definition ATA_PRIMARY_CTRL : Z := 0x3F6.
Definition ATA_REG_DATA : Z := 0.
Definition ATA_REG_SECCOUNT0 : Z := 2.
Definition ATA_REG_LBA0 : Z := 3.
Definition ATA_REG_LBA1 : Z := 4.
Definition ATA_REG_LBA2 : Z := 5.
Definition ATA_REG_HDDEVSEL : Z := 6.
Definition ATA_REG_COMMAND : Z := 7.
Definition ATA_REG_STATUS : Z := 7.
Definition ATA_SR_BSY : Z := 0x80.
Definition ATA_SR_DF : Z := 0x20.
Definition ATA_SR_DRQ : Z := 0x08.
Definition ATA_SR_ERR : Z := 0x01.
Definition ATA_CMD_READ_PIO : Z := 0x20.
Definition ATA_CMD_WRITE_PIO : Z := 0x30.
Definition ATA_CMD_IDENTIFY : Z := 0xEC.
Definition ATA_CMD_CACHE_FLUSH : Z := 0xE7.
Definition ATA_DEV_MASTER : Z := 0x00.
Definition ATA_DEV_SLAVE : Z := 0x10.

(** [w[i]] of a byte buffer, and the bytes of a sequence of words. *)
Definition buffer_word (b : list Z) (i : Z) : Z := u16 (byte_at b (2 * i) + 256 * byte_at b (2 * i + 1)).
Definition sector_words (b : list Z) : list Z := map (buffer_word b) (seqZ 0 256).
Definition word_bytes (ws : list Z) : list Z := flat_map (fun w => [u8 w; u8 (Z.shiftr w 8)]) ws.

Section Ata.
Context {B : Type} `{Ports B}.

Definition read_status : state B Z := inb (ATA_PRIMARY_IO + ATA_REG_STATUS).
Definition out_reg (reg v : Z) : state B unit := outb (ATA_PRIMARY_IO + reg) v.

Definition ata_delay : state B unit :=
  _ ← read_status; _ ← read_status; _ ← read_status; _ ← read_status; mret tt.

(** The loops of [ata_bsy_wait] and [ata_wait_ready] with the turns left. *)
Fixpoint bsy_loop (turns : nat) : state B Z :=
  match turns with
  | O => mret (-1)
  | S turns =>
      st ← read_status;
      if Z.land st ATA_SR_BSY =? 0 then mret 0
      else if negb (Z.land st (Z.lor ATA_SR_ERR ATA_SR_DF) =? 0) then mret (-1)
      else bsy_loop turns
  end.
Definition ata_bsy_wait : state B Z := bsy_loop (Z.to_nat 100000).

Fixpoint ready_loop (turns : nat) : state B Z :=
  match turns with
  | O => mret (-1)
  | S turns =>
      status ← read_status;
      if (Z.land status ATA_SR_BSY =? 0) && negb (Z.land status ATA_SR_DRQ =? 0) then mret 0
      else if negb (Z.land status (Z.lor ATA_SR_ERR ATA_SR_DF) =? 0) then mret (-1)
      else ready_loop turns
  end.
Definition ata_wait_ready : state B Z := ready_loop (Z.to_nat 100000).

(** [n] words from, or to, the data port. *)
Fixpoint read_words (n : nat) : state B (list Z) :=
  match n with
  | O => mret []
  | S n => w ← inw (ATA_PRIMARY_IO + ATA_REG_DATA); ws ← read_words n; mret (w :: ws)
  end.
Fixpoint write_words (ws : list Z) : state B unit :=
  match ws with
  | [] => mret tt
  | w :: ws => _ ← outw (ATA_PRIMARY_IO + ATA_REG_DATA) w; write_words ws
  end.

Definition ata_probe (dev_sel : Z) : state B bool :=
  _ ← out_reg ATA_REG_HDDEVSEL (Z.lor 0xA0 dev_sel);
  _ ← ata_delay;
  _ ← out_reg ATA_REG_SECCOUNT0 0;
  _ ← out_reg ATA_REG_LBA0 0;
  _ ← out_reg ATA_REG_LBA1 0;
  _ ← out_reg ATA_REG_LBA2 0;
  _ ← out_reg ATA_REG_COMMAND ATA_CMD_IDENTIFY;
  _ ← ata_delay;
  st ← read_status;
  if st =? 0 then mret false else
  r ← ata_wait_ready;
  if negb (r =? 0) then mret false else
  _ ← read_words 256;
  mret true.

Definition ata_select_lba28 (dev lba count : Z) : state B Z :=
  r ← ata_bsy_wait;
  if negb (r =? 0) then mret (-1) else
  _ ← out_reg ATA_REG_HDDEVSEL (Z.lor (if dev =? 0 then 0xE0 else 0xF0) (Z.land (Z.shiftr lba 24) 0x0F));
  _ ← ata_delay;
  _ ← out_reg ATA_REG_SECCOUNT0 count;
  _ ← out_reg ATA_REG_LBA0 (Z.land lba 0xFF);
  _ ← out_reg ATA_REG_LBA1 (Z.land (Z.shiftr lba 8) 0xFF);
  _ ← out_reg ATA_REG_LBA2 (Z.land (Z.shiftr lba 16) 0xFF);
  mret 0.

(** The body of [ata_read_sector] ([dev] 0) and [ata_slave_read] ([dev] 1), with
    the [present] flag of the device; [None] for the result -1. *)
Definition read_sector (dev : Z) (present : bool) (lba : Z) : state B (option (list Z)) :=
  if negb present then mret None else
  r ← ata_select_lba28 dev lba 1;
  if negb (r =? 0) then mret None else
  _ ← out_reg ATA_REG_COMMAND ATA_CMD_READ_PIO;
  r ← ata_wait_ready;
  if negb (r =? 0) then mret None else
  ws ← read_words 256;
  _ ← ata_delay;
  mret (Some (word_bytes ws)).

(** The same of [ata_write_sector] and [ata_slave_write]. *)
Definition write_sector (dev : Z) (present : bool) (lba : Z) (buffer : list Z) : state B Z :=
  if negb present then mret (-1) else
  r ← ata_select_lba28 dev lba 1;
  if negb (r =? 0) then mret (-1) else
  _ ← out_reg ATA_REG_COMMAND ATA_CMD_WRITE_PIO;
  r ← ata_wait_ready;
  if negb (r =? 0) then mret (-1) else
  _ ← write_words (sector_words buffer);
  _ ← out_reg ATA_REG_COMMAND ATA_CMD_CACHE_FLUSH;
  r ← ata_bsy_wait;
  if negb (r =? 0) then mret (-1) else
  _ ← ata_delay;
  mret 0.

Definition ata_read_sector := read_sector 0.
Definition ata_slave_read := read_sector 1.
Definition ata_write_sector := write_sector 0.
Definition ata_slave_write := write_sector 1.

(** [ata_init]; the result are the [present] flags of [primary] and [slave_dev]. *)
Definition ata_init : state (core B) (bool * bool) :=
  interrupt_register_handler 46 h_ata_irq;;
  on_bus (irq_enable 14);;
  on_bus (outb ATA_PRIMARY_CTRL 0);;
  master ← on_bus (ata_probe ATA_DEV_MASTER);
  slave ← on_bus (ata_probe ATA_DEV_SLAVE);
  (if master : bool then say (lit "ATA: master present" ++ [10]) [] else mret tt);;
  (if slave : bool then say (lit "ATA: slave present" ++ [10]) [] else mret tt);;
  mret (master, slave).
End Ata.
Arguments read_words : simpl never.
Arguments write_words : simpl never.
Arguments sector_words : simpl never.
Arguments word_bytes : simpl never.

(** ** The drives *)

(** What the selected drive is doing: nothing, having refused or failed a
    request, offering words, or expecting them. *)
Inductive ata_phase := Idle | Failed | DataIn (ws : list Z) | DataOut (ws : list Z).

(** [av_busy] is the number of reads of the status that still show BSY. *)
Record ata_view := mk_ata {
  av_reg : Z -> Z; av_busy : Z; av_phase : ata_phase; av_media : bool -> Z -> list Z;
}.

Definition set_reg (r v : Z) (s : ata_view) : ata_view :=
  mk_ata (fun r' => if r' =? r then v else av_reg s r') (av_busy s) (av_phase s) (av_media s).
Definition set_work (n : Z) (p : ata_phase) (s : ata_view) : ata_view := mk_ata (av_reg s) n p (av_media s).
(** [k] reads of the status. *)
Definition pass (k : Z) (s : ata_view) : ata_view := set_work ((av_busy s - k) `max` 0) (av_phase s) s.
Definition set_media (d : bool) (l : Z) (b : list Z) (s : ata_view) : ata_view :=
  mk_ata (av_reg s) (av_busy s) (av_phase s) (fun d' l' => if bool_decide ((d', l') = (d, l)) then b else av_media s d' l').

(** The drive and the sector the registers name. *)
Definition av_drive (s : ata_view) : bool := Z.testbit (av_reg s 6) 4.
Definition av_lba (s : ata_view) : Z :=
  av_reg s 3 + 2 ^ 8 * av_reg s 4 + 2 ^ 16 * av_reg s 5 + 2 ^ 24 * Z.land (av_reg s 6) 0x0F.

Definition resting (p : ata_phase) : bool := match p with Idle | Failed => true | _ => false end.
Definition has_data (p : ata_phase) : bool := negb (resting p).
Definition failed (p : ata_phase) : bool := match p with Failed => true | _ => false end.

(** The reads of the status a command can stay busy for. *)
Definition prompt (n : Z) : Prop := 0 <= n < 100000.

Class AtaOk (B : Type) `{Ports B} := {
  attached : bool -> bool;
  bad : bool -> Z -> bool;
  worn : bool -> Z -> bool;
  ata : B -> ata_view;
  (** Reading the status passes the time. *)
  ata_status b : ata (inb 0x1F7 b).2 = pass 1 (ata b);
  ata_status_bits b : let s := ata b in let st := (inb 0x1F7 b).1 in
    attached (av_drive s) = true -> is_u8 st /\ Z.testbit st 7 = (0 <? av_busy s) /\
    (0 < av_busy s -> Z.testbit st 0 = false /\ Z.testbit st 5 = false) /\
    (av_busy s <= 0 -> Z.testbit st 3 = has_data (av_phase s) /\ Z.testbit st 0 || Z.testbit st 5 = failed (av_phase s));
  ata_absent b : attached (av_drive (ata b)) = false -> (inb 0x1F7 b).1 = 0;
  (** The registers of a channel at rest; another drive can be in another state of rest. *)
  ata_out_reg r v b : 2 <= r <= 5 -> av_busy (ata b) = 0 -> resting (av_phase (ata b)) = true ->
    ata (outb (0x1F0 + r) v b).2 = set_reg r v (ata b);
  ata_out_select v b : av_busy (ata b) = 0 -> resting (av_phase (ata b)) = true ->
    exists p, resting p = true /\ ata (outb 0x1F6 v b).2 = set_work 0 p (set_reg 6 v (ata b));
  ata_other_port port v b : ~ (0x1F0 <= port <= 0x1F7) -> ata (outb port v b).2 = ata b /\ ata (inb port b).2 = ata b;
  (** The commands. *)
  ata_read_command b : let s := ata b in
    attached (av_drive s) = true -> av_busy s = 0 -> resting (av_phase s) = true -> av_reg s 2 = 1 -> Z.testbit (av_reg s 6) 6 = true ->
    exists n, prompt n /\ ata (outb 0x1F7 ATA_CMD_READ_PIO b).2 =
      set_work n (if bad (av_drive s) (av_lba s) then Failed else DataIn (sector_words (av_media s (av_drive s) (av_lba s)))) s;
  ata_write_command b : let s := ata b in
    attached (av_drive s) = true -> av_busy s = 0 -> resting (av_phase s) = true -> av_reg s 2 = 1 -> Z.testbit (av_reg s 6) 6 = true ->
    exists n, prompt n /\ ata (outb 0x1F7 ATA_CMD_WRITE_PIO b).2 =
      set_work n (if bad (av_drive s) (av_lba s) then Failed else DataOut []) s;
  ata_identify_command b : let s := ata b in av_busy s = 0 -> resting (av_phase s) = true ->
    if attached (av_drive s)
    then exists n ws, prompt n /\ length ws = 256%nat /\ ata (outb 0x1F7 ATA_CMD_IDENTIFY b).2 = set_work n (DataIn ws) s
    else ata (outb 0x1F7 ATA_CMD_IDENTIFY b).2 = s;
  (** A flush is carried out, or ignored by a drive that is still busy. *)
  ata_flush_command b : let s := ata b in attached (av_drive s) = true -> resting (av_phase s) = true ->
    exists n p, prompt n /\ resting p = true /\ ata (outb 0x1F7 ATA_CMD_CACHE_FLUSH b).2 = set_work n p s;
  (** The data port. *)
  ata_data_in b w ws : let s := ata b in
    attached (av_drive s) = true -> av_busy s = 0 -> av_phase s = DataIn (w :: ws) ->
    (inw 0x1F0 b).1 = w /\ ata (inw 0x1F0 b).2 = set_work 0 (if bool_decide (ws = []) then Idle else DataIn ws) s;
  ata_data_out b w ws : let s := ata b in
    attached (av_drive s) = true -> av_busy s = 0 -> av_phase s = DataOut ws -> (length ws < 256)%nat ->
    exists n, prompt n /\ ata (outw 0x1F0 w b).2 =
      if bool_decide (length ws = 255%nat) then
        if worn (av_drive s) (av_lba s) then set_work n Failed s
        else set_media (av_drive s) (av_lba s) (word_bytes (ws ++ [w])) (set_work n Idle s)
      else set_work 0 (DataOut (ws ++ [w])) s;
}.

(** ** Words and bytes *)

Lemma word_bytes_length ws : length (word_bytes ws) = (2 * length ws)%nat.
Proof. unfold word_bytes. induction ws as [|w ws IH]; [done|]. cbn. lia. Qed.

Lemma word_bytes_ok ws : bytes_ok (word_bytes ws).
Proof.
  unfold bytes_ok. induction ws as [|w ws IH]; [constructor|].
  change (word_bytes (w :: ws)) with ([u8 w; u8 (Z.shiftr w 8)] ++ word_bytes ws).
  apply Forall_app. split; [repeat constructor; apply u8_range|done].
Qed.

Lemma word_bytes_lookup ws k : word_bytes ws !! k =
  if Nat.even k then u8 <$> ws !! Nat.div2 k else (fun w => u8 (Z.shiftr w 8)) <$> ws !! Nat.div2 k.
Proof.
  revert k. induction ws as [|w ws IH]; intros k; [by destruct (Nat.even k)|].
  change (word_bytes (w :: ws)) with (u8 w :: u8 (Z.shiftr w 8) :: word_bytes ws).
  destruct k as [|[|k]]; [done..|]. cbn [lookup list_lookup Nat.even Nat.div2]. apply IH.
Qed.

Lemma buffer_word_low b i : bytes_ok b -> u8 (buffer_word b i) = byte_at b (2 * i) /\
  u8 (Z.shiftr (buffer_word b i) 8) = byte_at b (2 * i + 1).
Proof.
  intros Hb. pose proof (byte_at_ok b (2 * i) Hb) as H1. pose proof (byte_at_ok b (2 * i + 1) Hb) as H2.
  unfold buffer_word, u16, u8, is_u8 in *. rewrite Z.shiftr_div_pow2 by lia.
  rewrite (Z.mod_small (_ + _)) by lia. split.
  - symmetry. apply Z.mod_unique with (byte_at b (2 * i + 1)); lia.
  - replace ((byte_at b (2 * i) + 256 * byte_at b (2 * i + 1)) / 2 ^ 8) with (byte_at b (2 * i + 1)); [apply Z.mod_small; lia|].
    apply Z.div_unique with (byte_at b (2 * i)); lia.
Qed.

(** A sector survives the way through the data port. *)
Lemma word_bytes_words b : length b = 512%nat -> bytes_ok b -> word_bytes (sector_words b) = b.
Proof.
  intros Hl Hb. apply list_eq. intros k. rewrite word_bytes_lookup.
  assert (length (sector_words b) = 256%nat) as Hw by (unfold sector_words; by rewrite length_map).
  destruct (decide (k < 512)%nat) as [Hk|Hk].
  - pose proof (Nat.div2_odd k) as E. rewrite <-Nat.negb_even in E.
    assert (Nat.div2 k < 256)%nat by (destruct (Nat.even k); cbn in E; lia).
    unfold sector_words. rewrite list_lookup_fmap, lookup_seqZ_lt by lia.
    destruct (buffer_word_low b (Z.of_nat (Nat.div2 k)) Hb) as [E1 E2].
    cbn [fmap option_fmap option_map]. rewrite Z.add_0_l.
    assert (forall z, Z.of_nat k = z -> b !! k = Some (byte_at b z)) as Hat.
    { intros z <-. unfold byte_at. rewrite Nat2Z.id. destruct (lookup_lt_is_Some_2 b k) as [x Hx]; [lia|].
      by rewrite Hx. }
    destruct (Nat.even k); cbn in E; [rewrite E1|rewrite E2]; symmetry; apply Hat; lia.
  - rewrite (lookup_ge_None_2 b) by lia. pose proof (Nat.div2_odd k) as E. rewrite <-Nat.negb_even in E.
    rewrite lookup_ge_None_2 by (destruct (Nat.even k); cbn in E; lia). by destruct (Nat.even k).
Qed.

(** The bits the driver tests. *)
Lemma status_tests st : is_u8 st ->
  (Z.land st ATA_SR_BSY =? 0) = negb (Z.testbit st 7) /\ (Z.land st ATA_SR_DRQ =? 0) = negb (Z.testbit st 3) /\
  (Z.land st (Z.lor ATA_SR_ERR ATA_SR_DF) =? 0) = negb (Z.testbit st 0 || Z.testbit st 5).
Proof.
  intros Hs. assert (forall st, st ∈ seqZ 0 256 -> (Z.land st ATA_SR_BSY =? 0) = negb (Z.testbit st 7) /\
    (Z.land st ATA_SR_DRQ =? 0) = negb (Z.testbit st 3) /\
    (Z.land st (Z.lor ATA_SR_ERR ATA_SR_DF) =? 0) = negb (Z.testbit st 0 || Z.testbit st 5)) as Hall.
  { apply Forall_forall. refine (bool_decide_unpack _ _). vm_compute. exact I. }
  apply Hall, elem_of_seqZ. unfold is_u8 in Hs. lia.
Qed.

(** ** Waiting *)
Section Drives.
Context {B : Type} `{AtaOk B}.
Implicit Types (b : B) (s : ata_view).

(** Every sector holds 512 bytes. *)
Definition media_ok (m : bool -> Z -> list Z) : Prop := forall d l, length (m d l) = 512%nat /\ bytes_ok (m d l).

(** Between two requests: no drive holds or expects data, and the selected one
    will be done in time. *)
Definition ready b : Prop :=
  resting (av_phase (ata b)) = true /\ prompt (av_busy (ata b)) /\
  (attached (av_drive (ata b)) = false -> av_busy (ata b) = 0) /\ media_ok (av_media (ata b)).

Lemma set_work_work n p n' p' s : set_work n p (set_work n' p' s) = set_work n p s.
Proof. done. Qed.
Lemma set_work_id s n p : av_busy s = n -> av_phase s = p -> set_work n p s = s.
Proof. intros <- <-. by destruct s. Qed.

Lemma status_step b Q : Q (inb 0x1F7 b).1 (inb 0x1F7 b).2 -> run read_status b Q.
Proof. done. Qed.

Lemma delay_pass b : 0 <= av_busy (ata b) ->
  run ata_delay b (fun _ b' => exists n, 0 <= n <= av_busy (ata b) /\ ata b' = set_work n (av_phase (ata b)) (ata b)).
Proof.
  intros Hb. unfold ata_delay. do 4 (eapply run_bind, status_step). eapply run_ret.
  rewrite !ata_status. unfold pass. cbn [set_work av_busy av_phase]. rewrite !set_work_work.
  eexists. split; [|done]. lia.
Qed.

Lemma status_idle b : 0 <= av_busy (ata b) -> (attached (av_drive (ata b)) = false -> av_busy (ata b) = 0) ->
  (Z.land (inb 0x1F7 b).1 ATA_SR_BSY =? 0) = (av_busy (ata b) =? 0).
Proof.
  intros Hz Ha. destruct (attached (av_drive (ata b))) eqn:E.
  - destruct (ata_status_bits b E) as (Hu & H7 & _). rewrite (proj1 (status_tests _ Hu)), H7.
    destruct (Z.ltb_spec 0 (av_busy (ata b))), (Z.eqb_spec (av_busy (ata b)) 0); (done || lia).
  - rewrite ata_absent, Ha by done. done.
Qed.

Lemma status_clean b : 0 < av_busy (ata b) -> attached (av_drive (ata b)) = true ->
  (Z.land (inb 0x1F7 b).1 (Z.lor ATA_SR_ERR ATA_SR_DF) =? 0) = true.
Proof.
  intros Hz Ha. destruct (ata_status_bits b Ha) as (Hu & _ & Hc & _). destruct (Hc Hz) as [E1 E2].
  rewrite (proj2 (proj2 (status_tests _ Hu))), E1, E2. done.
Qed.

Lemma bsy_loop_ok turns : forall b, 0 <= av_busy (ata b) < Z.of_nat turns ->
  (attached (av_drive (ata b)) = false -> av_busy (ata b) = 0) ->
  run (bsy_loop turns) b (fun r b' => r = 0 /\ ata b' = set_work 0 (av_phase (ata b)) (ata b)).
Proof.
  induction turns as [|turns IH]; intros b Hb Ha; [lia|]. cbn [bsy_loop]. eapply run_bind, status_step.
  rewrite status_idle by (done || lia). destruct (Z.eqb_spec (av_busy (ata b)) 0) as [E|E].
  - apply run_ret. split; [done|]. rewrite ata_status. unfold pass. rewrite E. done.
  - destruct (attached (av_drive (ata b))) eqn:Eat; [|by rewrite Ha in E].
    rewrite status_clean by (done || lia). cbn [negb].
    eapply run_mono; [apply IH; rewrite ata_status; unfold pass; cbn [set_work av_busy]; [lia|]|].
    + change (av_drive _) with (av_drive (ata b)). by rewrite Eat.
    + intros r b' [-> ->]. split; [done|]. rewrite ata_status. done.
Qed.

Lemma bsy_wait_ok b : prompt (av_busy (ata b)) -> (attached (av_drive (ata b)) = false -> av_busy (ata b) = 0) ->
  run ata_bsy_wait b (fun r b' => r = 0 /\ ata b' = set_work 0 (av_phase (ata b)) (ata b)).
Proof. intros Hp Ha. apply bsy_loop_ok; [|done]. rewrite Z2Nat.id by lia. exact Hp. Qed.

Lemma ready_loop_ok turns : forall b, 0 <= av_busy (ata b) < Z.of_nat turns ->
  attached (av_drive (ata b)) = true -> av_phase (ata b) <> Idle ->
  run (ready_loop turns) b (fun r b' => r = (if failed (av_phase (ata b)) then -1 else 0) /\
    ata b' = set_work 0 (av_phase (ata b)) (ata b)).
Proof.
  induction turns as [|turns IH]; intros b Hb Ha Hp; [lia|]. cbn [ready_loop]. eapply run_bind, status_step.
  rewrite status_idle by (try congruence; lia). destruct (Z.eqb_spec (av_busy (ata b)) 0) as [E|E].
  - destruct (ata_status_bits b Ha) as (Hu & _ & _ & Hr). destruct (Hr ltac:(lia)) as [E3 Ef].
    destruct (status_tests _ Hu) as (_ & T3 & Tf). rewrite T3, Tf, E3, Ef. cbn [andb].
    assert (ata (inb 0x1F7 b).2 = set_work 0 (av_phase (ata b)) (ata b)) as Ev by (rewrite ata_status; unfold pass; by rewrite E).
    destruct (av_phase (ata b)); [done|..]; cbn; apply run_ret; split; done.
  - cbn [andb]. rewrite status_clean by (done || lia). cbn [negb].
    eapply run_mono; [apply IH; rewrite ata_status; unfold pass; cbn [set_work av_busy av_phase]; [lia|done..]|].
    intros r b' [-> ->]. by rewrite ata_status.
Qed.

Lemma wait_ready_ok b : prompt (av_busy (ata b)) -> attached (av_drive (ata b)) = true -> av_phase (ata b) <> Idle ->
  run ata_wait_ready b (fun r b' => r = (if failed (av_phase (ata b)) then -1 else 0) /\
    ata b' = set_work 0 (av_phase (ata b)) (ata b)).
Proof. intros Hp Ha Hf. apply ready_loop_ok; [|done..]. rewrite Z2Nat.id by lia. exact Hp. Qed.

(** ** The registers *)

Lemma lba28_value lba :
  Z.land lba 0xFF + 2 ^ 8 * Z.land (Z.shiftr lba 8) 0xFF + 2 ^ 16 * Z.land (Z.shiftr lba 16) 0xFF +
    2 ^ 24 * Z.land (Z.shiftr lba 24) 0x0F = lba mod 2 ^ 28.
Proof.
  change 0xFF with (Z.ones 8). change 0x0F with (Z.ones 4). rewrite !Z.land_ones, !Z.shiftr_div_pow2 by lia.
  change (2 ^ 28) with (2 ^ 8 * (2 ^ 8 * (2 ^ 8 * 2 ^ 4))).
  rewrite !Z.rem_mul_r by lia. rewrite !Z.div_div by lia.
  change (2 ^ 8 * 2 ^ 8) with (2 ^ 16). change (2 ^ 8 * 2 ^ 16) with (2 ^ 24). change (2 ^ 16 * 2 ^ 8) with (2 ^ 24). lia.
Qed.

Lemma devsel_value (v k : Z) : v = 0xE0 \/ v = 0xF0 -> let x := Z.lor v (Z.land k 0x0F) in
  Z.testbit x 6 = true /\ Z.testbit x 4 = (v =? 0xF0) /\ Z.land x 0x0F = Z.land k 0x0F.
Proof.
  intros Hv x. unfold x. rewrite !Z.lor_spec, !Z.land_spec.
  change (Z.testbit 0x0F 6) with false. change (Z.testbit 0x0F 4) with false. rewrite !andb_false_r.
  split; [by destruct Hv as [-> | ->]|]. split; [by destruct Hv as [-> | ->]|].
  rewrite Z.land_lor_distr_l. rewrite <-Z.land_assoc. change (Z.land 15 15) with 15. by destruct Hv as [-> | ->].
Qed.

Lemma out_reg_ok r v b : 2 <= r <= 5 -> av_busy (ata b) = 0 -> resting (av_phase (ata b)) = true ->
  run (out_reg r v) b (fun _ b' => ata b' = set_reg r v (ata b)).
Proof. apply ata_out_reg. Qed.

(** A drive and a sector are selected. *)
Definition selected (d : bool) (l : Z) b : Prop :=
  let s := ata b in av_busy s = 0 /\ resting (av_phase s) = true /\ av_reg s 2 = 1 /\ Z.testbit (av_reg s 6) 6 = true /\
  av_drive s = d /\ av_lba s = l.

Lemma select_ok dev lba b : ready b ->
  run (ata_select_lba28 dev lba 1) b (fun r b' => r = 0 /\
    selected (negb (dev =? 0)) (lba mod 2 ^ 28) b' /\ av_media (ata b') = av_media (ata b)).
Proof.
  intros Hr. pose proof Hr as (Hp & Hpr & Hpa & _). unfold ata_select_lba28. run_step (bsy_wait_ok b Hpr Hpa) as [-> E1]. cbn [Z.eqb negb].
  set (v := if dev =? 0 then 0xE0 else 0xF0).
  destruct (ata_out_select (Z.lor v (Z.land (Z.shiftr lba 24) 0x0F)) s') as (p & Hrp & E2); [by rewrite E1..|].
  eapply run_bind. change (out_reg ATA_REG_HDDEVSEL) with (outb (B := B) 0x1F6). unfold run at 1. revert E2.
  generalize (outb 0x1F6 (Z.lor v (Z.land (Z.shiftr lba 24) 0x0F)) s').2. intros b2 E2.
  run_step (delay_pass b2 ltac:(by rewrite E2)) as (n & Hn & E3). rewrite E2 in Hn, E3. cbn in Hn.
  assert (n = 0) as -> by lia. cbn [set_work av_phase] in E3.
  run_step (out_reg_ok ATA_REG_SECCOUNT0 1 s'0 ltac:(done) ltac:(by rewrite E3) ltac:(by rewrite E3)) as E4.
  run_step (out_reg_ok ATA_REG_LBA0 _ s'1 ltac:(done) ltac:(by rewrite E4, E3) ltac:(by rewrite E4, E3)) as E5.
  run_step (out_reg_ok ATA_REG_LBA1 _ s'2 ltac:(done) ltac:(by rewrite E5, E4, E3) ltac:(by rewrite E5, E4, E3)) as E6.
  run_step (out_reg_ok ATA_REG_LBA2 _ s'3 ltac:(done) ltac:(by rewrite E6, E5, E4, E3) ltac:(by rewrite E6, E5, E4, E3)) as E7.
  apply run_ret. rewrite E6, E5, E4, E3 in E7. split; [done|].
  destruct (devsel_value v (Z.shiftr lba 24)) as (D6 & D4 & Dl); [unfold v; destruct (dev =? 0); auto|].
  unfold selected, av_drive, av_lba. rewrite E7. cbn [set_reg set_work av_reg av_busy av_phase av_media Z.eqb Pos.eqb].
  split; [|by rewrite E1]. split_and!; try done.
  - etransitivity; [exact D4|]. unfold v. by destruct (dev =? 0).
  - rewrite <-lba28_value. apply (f_equal2 Z.add); [reflexivity|]. apply (f_equal (Z.mul (2 ^ 24))). exact Dl.
Qed.

(** ** The data port *)

Lemma read_words_ok ws : forall b, ws <> [] -> attached (av_drive (ata b)) = true -> av_busy (ata b) = 0 ->
  av_phase (ata b) = DataIn ws ->
  run (read_words (length ws)) b (fun r b' => r = ws /\ ata b' = set_work 0 Idle (ata b)).
Proof.
  induction ws as [|w ws IH]; intros b Hne Ha Hb Hp; [done|].
  change (read_words (length (w :: ws))) with
    (w ← inw (B := B) (ATA_PRIMARY_IO + ATA_REG_DATA); ws ← read_words (length ws); mret (w :: ws)).
  destruct (ata_data_in b w ws Ha Hb Hp) as (Ew & E). eapply run_bind. change (ATA_PRIMARY_IO + ATA_REG_DATA) with 0x1F0.
  unfold run at 1. rewrite Ew. revert E. generalize (inw 0x1F0 b).2. intros b' E. destruct ws as [|w' ws].
  - by apply run_ret.
  - rewrite bool_decide_eq_false_2 in E by done.
    run_step (IH b' ltac:(done) ltac:(by rewrite E) ltac:(by rewrite E) ltac:(by rewrite E)) as (-> & E').
    apply run_ret. split; [done|]. by rewrite E', E.
Qed.

Lemma write_words_ok ws : forall sent b, ws <> [] -> (length sent + length ws = 256)%nat ->
  attached (av_drive (ata b)) = true -> av_busy (ata b) = 0 -> av_phase (ata b) = DataOut sent ->
  let s := ata b in
  run (write_words ws) b (fun _ b' => exists n, prompt n /\ ata b' =
    if worn (av_drive s) (av_lba s) then set_work n Failed s
    else set_media (av_drive s) (av_lba s) (word_bytes (sent ++ ws)) (set_work n Idle s)).
Proof.
  induction ws as [|w ws IH]; intros sent b Hne Hl Ha Hb Hp s; [done|]. cbn [length] in Hl. change (write_words (w :: ws)) with (_ ← outw (B := B) (ATA_PRIMARY_IO + ATA_REG_DATA) w; write_words ws).
  destruct (ata_data_out b w sent Ha Hb Hp ltac:(lia)) as (n & Hn & E). eapply run_bind.
  change (ATA_PRIMARY_IO + ATA_REG_DATA) with 0x1F0. unfold run at 1. revert E. generalize (outw 0x1F0 w b).2. intros b' E.
  destruct ws as [|w' ws].
  - rewrite bool_decide_eq_true_2 in E by (cbn in Hl; lia). apply run_ret. eauto.
  - rewrite bool_decide_eq_false_2 in E by (cbn in Hl; lia).
    run_last (IH (sent ++ [w]) b' ltac:(done) ltac:(rewrite length_app; cbn in *; lia) ltac:(by rewrite E) ltac:(by rewrite E) ltac:(by rewrite E)) as (m & Hm & E').
    exists m. split; [done|]. rewrite E', E, <-app_assoc. done.
Qed.

(** ** Sectors *)

Definition drive_of (dev : Z) : bool := negb (dev =? 0).

Lemma command_step (v : Z) b Q : Q tt (outb 0x1F7 v b).2 -> run (out_reg ATA_REG_COMMAND v) b Q.
Proof. unfold run, out_reg. change (ATA_PRIMARY_IO + ATA_REG_COMMAND) with 0x1F7. by destruct (outb 0x1F7 v b) as [[] ?]. Qed.

Lemma ready_work b n p s : ata b = set_work n p s -> attached (av_drive s) = true -> prompt n -> resting p = true ->
  media_ok (av_media s) -> ready b.
Proof. intros E Ha Hn Hp Hm. unfold ready. rewrite E. split_and!; try done. change (attached (av_drive s) = false -> n = 0). by rewrite Ha. Qed.

Lemma read_sector_ok dev lba b : ready b -> attached (drive_of dev) = true ->
  let d := drive_of dev in let l := lba mod 2 ^ 28 in
  run (read_sector dev true lba) b (fun r b' => ready b' /\ av_media (ata b') = av_media (ata b) /\
    r = if bad d l then None else Some (av_media (ata b) d l)).
Proof.
  intros Hr Ha d l. change (attached d = true) in Ha. pose proof Hr as (_ & _ & _ & Hmed). unfold read_sector. cbn [negb].
  run_step (select_ok dev lba b Hr) as (-> & (Hb & Hp & H2 & H6 & Hd & Hl) & Em). cbn [Z.eqb negb]. fold (drive_of dev) in Hd. fold d l in Hd, Hl.
  destruct (ata_read_command s' ltac:(by rewrite Hd) Hb Hp H2 H6) as (n & Hn & E). rewrite Hd, Hl in E.
  eapply run_bind, command_step. revert E. generalize (outb 0x1F7 ATA_CMD_READ_PIO s').2. intros b1 E.
  assert (attached (av_drive (ata b1)) = true) as Ha1 by (rewrite E; change (attached (av_drive (ata s')) = true); by rewrite Hd).
  run_step (wait_ready_ok b1 ltac:(by rewrite E) Ha1 ltac:(rewrite E; cbn; by destruct (bad d l))) as (-> & E2).
  rewrite E in *. cbn [set_work av_phase] in *. destruct (bad d l); cbn [failed].
  - apply run_ret. split_and!; [|by rewrite E2|done]. eapply ready_work; [exact E2|by rewrite <-Hd in Ha|done..|by rewrite <-Em in Hmed].
  - cbn [Z.eqb negb]. assert (length (sector_words (av_media (ata s') d l)) = 256%nat) as Hw by (unfold sector_words; by rewrite length_map).
    rewrite <-Hw. run_step (read_words_ok _ s'0 ltac:(by intros E0; rewrite E0 in Hw) ltac:(by rewrite E2) ltac:(by rewrite E2) ltac:(by rewrite E2))
      as (-> & E3). rewrite E2 in E3.
    run_step (delay_pass s'1 ltac:(by rewrite E3)) as (k & Hk & E4). rewrite E3 in Hk, E4. cbn in Hk.
    apply run_ret. rewrite Em in *. destruct (Hmed d l) as [L1 L2]. split_and!; [|by rewrite E4|by rewrite word_bytes_words].
    eapply ready_work; [exact E4|by rewrite <-Hd in Ha|unfold prompt; lia|done|by rewrite <-Em in Hmed].
Qed.

Lemma write_sector_ok dev lba buffer b : ready b -> attached (drive_of dev) = true ->
  let d := drive_of dev in let l := lba mod 2 ^ 28 in
  run (write_sector dev true lba buffer) b (fun r b' => ready b' /\ r = (if bad d l then -1 else 0) /\
    forall d' l', av_media (ata b') d' l' =
      if bool_decide ((d', l') = (d, l)) && negb (bad d l) && negb (worn d l)
      then word_bytes (sector_words buffer) else av_media (ata b) d' l').
Proof.
  intros Hr Ha d l. change (attached d = true) in Ha. pose proof Hr as (_ & _ & _ & Hmed). unfold write_sector. cbn [negb].
  run_step (select_ok dev lba b Hr) as (-> & (Hb & Hp & H2 & H6 & Hd & Hl) & Em). cbn [Z.eqb negb]. fold (drive_of dev) in Hd. fold d l in Hd, Hl.
  destruct (ata_write_command s' ltac:(by rewrite Hd) Hb Hp H2 H6) as (n & Hn & E). rewrite Hd, Hl in E.
  eapply run_bind, command_step. revert E. generalize (outb 0x1F7 ATA_CMD_WRITE_PIO s').2. intros b1 E.
  assert (attached (av_drive (ata b1)) = true) as Ha1 by (rewrite E; change (attached (av_drive (ata s')) = true); by rewrite Hd).
  run_step (wait_ready_ok b1 ltac:(by rewrite E) Ha1 ltac:(rewrite E; cbn; by destruct (bad d l))) as (-> & E2).
  rewrite E in *. cbn [set_work av_phase] in *. destruct (bad d l); cbn [failed].
  - apply run_ret. split_and!; [|done|].
    { eapply ready_work; [exact E2|by rewrite <-Hd in Ha|done..|by rewrite <-Em in Hmed]. }
    rewrite E2. intros d' l'. cbn [negb]. rewrite andb_false_r. cbn. by rewrite Em.
  - cbn [Z.eqb negb]. assert (length (sector_words buffer) = 256%nat) as Hw by (unfold sector_words; by rewrite length_map).
    run_step (write_words_ok (sector_words buffer) [] s'0 ltac:(by intros E0; rewrite E0 in Hw) Hw ltac:(by rewrite E2) ltac:(by rewrite E2) ltac:(by rewrite E2))
      as (m & Hm & E3). rewrite E2 in E3. cbn [app] in E3.
    change (av_drive _) with (av_drive (ata s')) in E3. change (av_lba _) with (av_lba (ata s')) in E3. rewrite Hd, Hl in E3.
    assert (attached (av_drive (ata s'1)) = true /\ resting (av_phase (ata s'1)) = true) as [Ha3 Hr3].
    { rewrite E3. destruct (worn d l); split; try done; change (attached (av_drive (ata s')) = true); by rewrite Hd. }
    destruct (ata_flush_command s'1 Ha3 Hr3) as (k & p & Hk & Hrp & E4).
    eapply run_bind, command_step. revert E4. generalize (outb 0x1F7 ATA_CMD_CACHE_FLUSH s'1).2. intros b4 E4.
    run_step (bsy_wait_ok b4 ltac:(by rewrite E4) ltac:(rewrite E4; change (attached (av_drive (ata s'1)) = false -> k = 0); by rewrite Ha3)) as (-> & E5).
    cbn [Z.eqb negb]. run_step (delay_pass s'2 ltac:(by rewrite E5)) as (j & Hj & E6). rewrite E5, E4 in *. cbn in Hj.
    assert (forall d' l', av_media (ata s'3) d' l' = if bool_decide ((d', l') = (d, l)) && negb false && negb (worn d l)
      then word_bytes (sector_words buffer) else av_media (ata b) d' l') as Hnew.
    { intros d' l'. rewrite E6. cbn [set_work av_media]. rewrite E3.
      destruct (worn d l); cbn [negb]; rewrite ?andb_true_r, ?andb_false_r; cbn; by rewrite Em. }
    apply run_ret. split_and!; [|done|done].
    eapply ready_work; [exact E6|exact Ha3|unfold prompt; lia|done|].
    intros d' l'. replace (av_media _) with (av_media (ata s'3)) by (by rewrite E6). rewrite Hnew.
    destruct (_ && _); [|apply Hmed]. rewrite word_bytes_length, Hw. split; [done|apply word_bytes_ok].
Qed.

(** ** Probing *)

(** The channel after reset, and after each probe. *)
Definition at_rest b : Prop := av_busy (ata b) = 0 /\ resting (av_phase (ata b)) = true.

Lemma at_rest_ready b : at_rest b -> media_ok (av_media (ata b)) -> ready b.
Proof. intros [Hb Hp] Hm. unfold ready, prompt. rewrite Hb. split_and!; (done || lia). Qed.

Lemma out_reg_rest r v b : 2 <= r <= 5 -> at_rest b ->
  run (out_reg r v) b (fun _ b' => at_rest b' /\ av_drive (ata b') = av_drive (ata b) /\ av_media (ata b') = av_media (ata b)).
Proof.
  intros Hr [Hb Hp]. run_last (out_reg_ok r v b Hr Hb Hp) as E. unfold at_rest, av_drive. rewrite E. cbn [set_reg av_busy av_phase av_reg av_media].
  split_and!; try done. destruct (Z.eqb_spec 6 r); [lia|done].
Qed.

Lemma probe_select (d : bool) b : at_rest b ->
  run (_ ← out_reg ATA_REG_HDDEVSEL (Z.lor 0xA0 (if d then ATA_DEV_SLAVE else ATA_DEV_MASTER)); ata_delay) b
    (fun _ b' => at_rest b' /\ av_drive (ata b') = d /\ av_media (ata b') = av_media (ata b)).
Proof.
  intros [Hb Hp]. eapply run_bind. set (v := Z.lor _ _). change (out_reg ATA_REG_HDDEVSEL) with (outb (B := B) 0x1F6).
  destruct (ata_out_select v b Hb Hp) as (p & Hrp & E). unfold run at 1. revert E. generalize (outb 0x1F6 v b).2. intros b2 E.
  run_last (delay_pass b2 ltac:(by rewrite E)) as (n & Hn & E3). rewrite E in Hn, E3. cbn in Hn. assert (n = 0) as -> by lia.
  unfold at_rest, av_drive. rewrite E3. split_and!; try done. by destruct d.
Qed.

Lemma status_shows b : 0 <= av_busy (ata b) -> attached (av_drive (ata b)) = true -> has_data (av_phase (ata b)) = true ->
  ((inb 0x1F7 b).1 =? 0) = false.
Proof.
  intros Hb Ha Hd. destruct (ata_status_bits b Ha) as (_ & H7 & _ & H3). apply Z.eqb_neq. intros E. rewrite E in H7, H3.
  rewrite Z.bits_0 in H7, H3. destruct (Z.ltb_spec 0 (av_busy (ata b))); [done|]. destruct H3 as [H3 _]; [lia|].
  by rewrite Hd in H3.
Qed.

Lemma identify_ok b : at_rest b ->
  run (_ ← out_reg ATA_REG_COMMAND ATA_CMD_IDENTIFY; _ ← ata_delay; st ← read_status;
       if st =? 0 then mret false else
       r ← ata_wait_ready; if negb (r =? 0) then mret false else _ ← read_words 256; mret true) b
    (fun r b' => r = attached (av_drive (ata b)) /\ at_rest b' /\ av_media (ata b') = av_media (ata b)).
Proof.
  intros [Hb Hp]. pose proof (ata_identify_command b Hb Hp) as Hi. eapply run_bind, command_step. revert Hi.
  generalize (outb 0x1F7 ATA_CMD_IDENTIFY b).2. intros b1 Hi. destruct (attached (av_drive (ata b))) eqn:Ea.
  - destruct Hi as (n & ws & Hn & Hl & E).
    run_step (delay_pass b1 ltac:(rewrite E; apply Hn)) as (k & Hk & E2). rewrite E in Hk, E2. cbn in Hk.
    eapply run_bind, status_step. rewrite status_shows by (rewrite E2; (apply Ea || done || cbn; lia)).
    pose proof (ata_status s') as E3. revert E3. generalize (inb 0x1F7 s').2. intros b3 E3. rewrite E2 in E3. unfold pass in E3. cbn [set_work av_busy av_phase] in E3.
    run_step (wait_ready_ok b3 ltac:(rewrite E3; unfold prompt in *; cbn; lia) ltac:(rewrite E3; exact Ea) ltac:(by rewrite E3)) as (-> & E4).
    rewrite E3 in *. cbn [set_work av_phase failed Z.eqb negb] in *. rewrite <-Hl.
    run_step (read_words_ok ws s'0 ltac:(by intros ->) ltac:(rewrite E4; exact Ea) ltac:(by rewrite E4) ltac:(by rewrite E4)) as (_ & E5).
    apply run_ret. unfold at_rest. rewrite E5, E4. done.
  - run_step (delay_pass b1 ltac:(by rewrite Hi, Hb)) as (k & Hk & E2). rewrite Hi in Hk, E2. assert (k = 0) as -> by lia.
    eapply run_bind, status_step. rewrite ata_absent by (rewrite E2; exact Ea). cbn [Z.eqb].
    apply run_ret. split; [done|]. unfold at_rest. rewrite ata_status, E2. by split.
Qed.

Lemma probe_ok (d : bool) b : at_rest b ->
  run (ata_probe (if d then ATA_DEV_SLAVE else ATA_DEV_MASTER)) b
    (fun r b' => r = attached d /\ at_rest b' /\ av_media (ata b') = av_media (ata b)).
Proof.
  intros Hb. unfold ata_probe. pose proof (probe_select d b Hb) as Hs. unfold run in Hs. rewrite bind_unfold in Hs.
  eapply run_bind. unfold run at 1. eapply run_bind. unfold run at 1. revert Hs. generalize (ata_delay (out_reg ATA_REG_HDDEVSEL (Z.lor 0xA0 (if d then ATA_DEV_SLAVE else ATA_DEV_MASTER)) b).2).2.
  intros b1 (R1 & D1 & M1).
  run_step (out_reg_rest ATA_REG_SECCOUNT0 0 b1 ltac:(done) R1) as (R2 & D2 & M2).
  run_step (out_reg_rest ATA_REG_LBA0 0 s' ltac:(done) R2) as (R3 & D3 & M3).
  run_step (out_reg_rest ATA_REG_LBA1 0 s'0 ltac:(done) R3) as (R4 & D4 & M4).
  run_step (out_reg_rest ATA_REG_LBA2 0 s'1 ltac:(done) R4) as (R5 & D5 & M5).
  run_last (identify_ok s'2 R5) as (-> & R6 & M6). rewrite D5, D4, D3, D2, D1, M6, M5, M4, M3, M2, M1. done.
Qed.

Lemma say_if (p : bool) fmt (c : core B) :
  run (if p then say fmt [] else mret tt) c (fun _ c' => bus c' = bus c /\ handlers c' = handlers c).
Proof. destruct p; [|done]. unfold run, say, modify. cbn [snd]. by destruct (vprintf fmt []) as [[]|]. Qed.

(** [ata_init] on a channel at rest finds exactly the drives that are attached
    and leaves the channel ready for requests, with the media untouched. *)
Theorem ata_init_finds (c : core B) : at_rest (bus c) -> media_ok (av_media (ata (bus c))) ->
  run ata_init c (fun r c' => r = (attached false, attached true) /\ ready (bus c') /\
    av_media (ata (bus c')) = av_media (ata (bus c)) /\ handlers c' = <[46%nat := Some h_ata_irq]> (handlers c)).
Proof.
  intros Hr Hm. unfold ata_init. eapply run_bind. unfold interrupt_register_handler. apply run_modify.
  eapply run_bind, on_bus_run. unfold irq_enable. change (irq_port 14) with 0xA1. eapply run_bind. unfold run at 1.
  destruct (ata_other_port 0xA1 0 (bus c) ltac:(lia)) as [_ E1]. cbn [set_handlers bus].
  unfold run at 1. set (m := (inb 0xA1 (bus c)).1). revert E1. generalize (inb 0xA1 (bus c)).2. intros b1 E1.
  set (v := u8 _). destruct (ata_other_port 0xA1 v b1 ltac:(lia)) as [E2 _]. revert E2. generalize (outb 0xA1 v b1).2. intros b2 E2.
  eapply run_bind, on_bus_run. destruct (ata_other_port 0x3F6 0 b2 ltac:(lia)) as [E3 _]. unfold run at 1. cbn [set_bus bus].
  change ATA_PRIMARY_CTRL with 0x3F6. revert E3. generalize (outb 0x3F6 0 b2).2. intros b3 E3. rewrite E2, E1 in E3.
  assert (at_rest b3) as R3 by (unfold at_rest; by rewrite E3).
  eapply run_bind, on_bus_run. cbn [set_bus bus]. run_last (probe_ok false b3 R3) as (-> & R4 & M4).
  eapply run_bind, on_bus_run. cbn [set_bus bus]. run_last (probe_ok true s' R4) as (-> & R5 & M5).
  run_step (say_if (attached false) _ _) as [B1 H1']. run_step (say_if (attached true) _ _) as [B2 H2']. apply run_ret.
  rewrite B2, B1, H2', H1'. cbn [bus set_bus handlers set_handlers].
  rewrite E3 in M4. rewrite M4 in M5.
  split_and!; [done|apply at_rest_ready; [done|by rewrite M5]|done|done].
Qed.

(** C38: The driver overlooks a write fault.  The drive takes the data and then
    fails to write it, which it reports in the error bit of the status;
    [ata_write_sector] and [ata_slave_write] return 0 all the same, because
    [ata_bsy_wait] does not look at the error bit of a drive that is no longer
    busy, and the sector keeps its old contents. *)
Theorem ata_write_hides_fault dev lba buffer b : ready b -> attached (drive_of dev) = true ->
  bad (drive_of dev) (lba mod 2 ^ 28) = false -> worn (drive_of dev) (lba mod 2 ^ 28) = true ->
  run (write_sector dev true lba buffer) b (fun r b' => r = 0 /\
    forall d l, av_media (ata b') d l = av_media (ata b) d l).
Proof.
  intros Hr Ha Hb Hw. run_last (write_sector_ok dev lba buffer b Hr Ha) as (_ & Er & Em). rewrite Hb in Er. split; [done|].
  intros d l. rewrite Em, Hw. cbn [negb]. by rewrite andb_false_r.
Qed.

End Drives.
