(* ===== verification/Task.v ===== *)
(** * Tasks and the scheduler (kernel/task.c, arch/i386/context_switch.S)

    The tasks are records at their addresses, linked in a ring through [next]
    as in the C code.  [None] is the NULL pointer, and also the result of a walk
    that has not come back to its start after one turn per task.  The addresses
    of [main_task] and [task_bootstrap] are arguments, and so is what [kcalloc]
    and [kmalloc] return to [task_create].  A context switch stores the running
    stack pointer and gives the one to continue with. *)

From stdpp Require Import strings.
From S2P Require Import Prelude Machine VfsTypes Vfs.

Definition TASK_STACK_SIZE : Z := 16384.
Definition MAX_OPEN_FILES : nat := 16.

(** [data] is the buffer's address and contents. *)
Record fd_entry := mk_fd {
  fd_used : bool; fd_flags : Z; fd_path : list Z; fd_data : option (Z * list Z); fd_size : Z; fd_offset : Z;
}.
Definition no_fd : fd_entry := mk_fd false 0 [] None 0 0.

Inductive task_state := TASK_READY | TASK_RUNNING | TASK_SLEEPING | TASK_ZOMBIE.
#[global] Instance task_state_eq_dec : EqDecision task_state.
Proof. solve_decision. Defined.

Record task := mk_task {
  t_id : Z; t_name : list Z; t_state : task_state; t_stack_ptr : Z; t_stack_base : option Z;
  t_entry : option Z; t_arg : Z; t_next : Z; t_fds : list fd_entry; t_uid : Z; t_gid : Z;
}.

Definition set_state (st : task_state) (t : task) : task :=
  mk_task (t_id t) (t_name t) st (t_stack_ptr t) (t_stack_base t) (t_entry t) (t_arg t) (t_next t) (t_fds t) (t_uid t) (t_gid t).
Definition set_next (n : Z) (t : task) : task :=
  mk_task (t_id t) (t_name t) (t_state t) (t_stack_ptr t) (t_stack_base t) (t_entry t) (t_arg t) n (t_fds t) (t_uid t) (t_gid t).
Definition set_stack_ptr (sp : Z) (t : task) : task :=
  mk_task (t_id t) (t_name t) (t_state t) sp (t_stack_base t) (t_entry t) (t_arg t) (t_next t) (t_fds t) (t_uid t) (t_gid t).
Definition set_fds (fds : list fd_entry) (t : task) : task :=
  mk_task (t_id t) (t_name t) (t_state t) (t_stack_ptr t) (t_stack_base t) (t_entry t) (t_arg t) (t_next t) fds (t_uid t) (t_gid t).
Definition set_cred (u g : Z) (t : task) : task :=
  mk_task (t_id t) (t_name t) (t_state t) (t_stack_ptr t) (t_stack_base t) (t_entry t) (t_arg t) (t_next t) (t_fds t) u g.

Record sched := mk_sched { tasks : gmap Z task; current : option Z; task_list_head : option Z; next_task_id : Z }.
Implicit Types (s : sched).

Definition upd_task (a : Z) (f : task -> task) (s : sched) : sched :=
  mk_sched (alter f a (tasks s)) (current s) (task_list_head s) (next_task_id s).
Definition set_current (a : Z) (s : sched) : sched := mk_sched (tasks s) (Some a) (task_list_head s) (next_task_id s).

(** Descriptors 0, 1 and 2 taken, the rest zeroed. *)
Definition stdio_fds : list fd_entry :=
  let std := mk_fd true 0 [] None 0 0 in
  [std; std; std] ++ replicate (MAX_OPEN_FILES - 3) no_fd.

Section Sched.
Context (main_task task_bootstrap : Z).

Definition tasking_init (s : sched) : sched :=
  let t := mk_task (next_task_id s) (lit "kernel") TASK_RUNNING 0 None None 0 main_task stdio_fds 0 0 in
  mk_sched (<[main_task := t]> (tasks s)) (Some main_task) (Some main_task) (u32 (next_task_id s + 1)).

(** [while (tail->next != task_list_head) tail = tail->next;] *)
Fixpoint ring_tail (turns : nat) (ts : gmap Z task) (head tail : Z) : option Z :=
  match ts !! tail with
  | None => None
  | Some t =>
      if t_next t =? head then Some tail
      else match turns with O => None | S turns => ring_tail turns ts head (t_next t) end
  end.

(** The stack the new task starts on: eight zeroed registers, the flags and the
    address of [task_bootstrap], from [stack_ptr] upwards. *)
Definition initial_stack : list Z := replicate 8 0 ++ [0x202; task_bootstrap].

(** [task_mem] and [stack_mem] are what the two allocations return; the result
    is the task's address. *)
Definition task_create (task_mem stack_mem : option Z) (name : option (list Z)) (entry : option Z) (arg : Z) (s : sched)
    : option Z * sched :=
  match task_mem, stack_mem with
  | Some a, Some base =>
      let '(uid, gid) := match current s ≫= (fun c => tasks s !! c) with
                         | Some c => (t_uid c, t_gid c)
                         | None => (0, 0)
                         end in
      match task_list_head s with
      | None => (None, s)
      | Some head =>
          match ring_tail (size (tasks s)) (tasks s) head head with
          | None => (None, s)
          | Some tail =>
              let t := mk_task (next_task_id s) (strncpy 32 (default (lit "task") name)) TASK_READY
                         (base + TASK_STACK_SIZE - 4 * Z.of_nat (length initial_stack)) (Some base) entry arg head
                         stdio_fds uid gid in
              (Some a, mk_sched (<[a := t]> (alter (set_next a) tail (tasks s))) (current s) (task_list_head s)
                         (u32 (next_task_id s + 1)))
          end
      end
  | _, _ => (None, s)
  end.

(** The walk of [next_ready_task] from [candidate] back to [cur]. *)
Fixpoint ready_from (turns : nat) (ts : gmap Z task) (cur candidate : Z) : option Z :=
  if candidate =? cur then Some cur else
  match ts !! candidate with
  | None => None
  | Some t =>
      if bool_decide (t_state t = TASK_READY) || bool_decide (t_state t = TASK_RUNNING) then Some candidate
      else match turns with O => None | S turns => ready_from turns ts cur (t_next t) end
  end.
Definition next_ready_task (s : sched) : option Z :=
  c ← current s; t ← tasks s !! c; ready_from (size (tasks s)) (tasks s) c (t_next t).

(** [task_yield] with the stack pointer [esp] of the caller: the stack pointer
    execution continues on.  [None] is a walk that does not end. *)
Definition task_yield (esp : Z) (s : sched) : option (Z * sched) :=
  prev ← current s;
  next ← next_ready_task s;
  if next =? prev then Some (esp, s) else
  p ← tasks s !! prev;
  n ← tasks s !! next;
  let s := if bool_decide (t_state p = TASK_RUNNING) then upd_task prev (set_state TASK_READY) s else s in
  let s := upd_task next (set_state TASK_RUNNING) s in
  let s := set_current next s in
  Some (t_stack_ptr n, upd_task prev (set_stack_ptr esp) s).

(** [task_exit] up to the halt loop. *)
Definition task_exit (esp : Z) (s : sched) : option (Z * sched) :=
  c ← current s; task_yield esp (upd_task c (set_state TASK_ZOMBIE) s).

Definition task_current (s : sched) : option Z := current s.
Definition task_of (s : sched) : option task := current s ≫= (fun c => tasks s !! c).
Definition current_uid (s : sched) : Z := match task_of s with Some t => t_uid t | None => 0 end.
Definition current_gid (s : sched) : Z := match task_of s with Some t => t_gid t | None => 0 end.

(** The addresses [task_list] visits. *)
Fixpoint ring_walk (turns : nat) (ts : gmap Z task) (head a : Z) : option (list Z) :=
  match ts !! a with
  | None => None
  | Some t =>
      if t_next t =? head then Some [a]
      else match turns with
      | O => None
      | S turns => (cons a) <$> ring_walk turns ts head (t_next t)
      end
  end.
Definition task_list (s : sched) : option (list Z) :=
  match task_list_head s with
  | None => Some []
  | Some head => ring_walk (size (tasks s)) (tasks s) head head
  end.

(** [task_kill]: the first task of the ring with that id, if it is not [main_task]. *)
Definition task_kill (id : Z) (s : sched) : option (Z * sched) :=
  l ← task_list s;
  match list_find (fun a => (t_id <$> tasks s !! a) = Some id /\ a <> main_task) l with
  | Some (_, a) => Some (0, upd_task a (set_state TASK_ZOMBIE) s)
  | None => Some (-1, s)
  end.
End Sched.


(** ** The ring *)

(** The [i]-th task of the ring, counting round and round. *)
Definition nth_task (l : list Z) (i : nat) : option Z := l !! (i mod length l)%nat.

Record ring (ts : gmap Z task) (l : list Z) : Prop := {
  r_nodup : NoDup l;
  r_dom : forall a, is_Some (ts !! a) <-> a ∈ l;
  r_next : forall i a t, nth_task l i = Some a -> ts !! a = Some t -> nth_task l (S i) = Some (t_next t);
}.

(** The ring [l] starts at the list head, and at most the current task is
    marked as running. *)
Record sched_ok s (l : list Z) : Prop := {
  so_ring : ring (tasks s) l;
  so_head : task_list_head s = head l;
  so_current : exists c, current s = Some c /\ c ∈ l;
  so_running : forall a t, tasks s !! a = Some t -> t_state t = TASK_RUNNING -> current s = Some a;
}.

Section RingLemmas.
Context (ts : gmap Z task) (l : list Z) (R : ring ts l).

Lemma ring_size : size ts = length l.
Proof.
  destruct R as [Hn Hd _]. rewrite <- size_dom.
  assert (dom ts = list_to_set l) as ->.
  { apply set_eq. intros a. rewrite elem_of_dom, elem_of_list_to_set. apply Hd. }
  by apply size_list_to_set.
Qed.

Lemma nth_in i a : nth_task l i = Some a -> a ∈ l.
Proof. apply list_elem_of_lookup_2. Qed.

Lemma nth_exists i : l <> [] -> is_Some (nth_task l i).
Proof.
  intros Hne. apply lookup_lt_is_Some_2. apply Nat.mod_upper_bound. by destruct l.
Qed.

Lemma in_nth a : a ∈ l -> exists i, (i < length l)%nat /\ nth_task l i = Some a.
Proof.
  intros [i Hi]%list_elem_of_lookup_1. pose proof (lookup_lt_Some _ _ _ Hi) as Hlt. exists i. split; [done|].
  unfold nth_task. by rewrite Nat.mod_small.
Qed.

Lemma nth_inj i j a : nth_task l i = Some a -> nth_task l j = Some a -> (i mod length l = j mod length l)%nat.
Proof. intros Hi Hj. by eapply NoDup_lookup; [apply R|..]. Qed.

(** A task comes up again only after a whole turn. *)
Lemma nth_far i d e a : (d < e)%nat -> (e - d < length l)%nat -> nth_task l (i + d) = Some a ->
  nth_task l (i + e) = Some a -> False.
Proof.
  intros Hlt Hle Hd He. pose proof (nth_inj _ _ _ Hd He) as E.
  apply (f_equal Z.of_nat) in E. rewrite !Nat2Z.inj_mod in E.
  pose proof (Z.div_mod (Z.of_nat (i + e)) (Z.of_nat (length l)) ltac:(lia)) as D1.
  pose proof (Z.div_mod (Z.of_nat (i + d)) (Z.of_nat (length l)) ltac:(lia)) as D2.
  rewrite <- E in D1. set (q1 := Z.of_nat (i + e) / _) in *. set (q2 := Z.of_nat (i + d) / _) in *.
  assert (Z.of_nat (e - d) = Z.of_nat (length l) * (q1 - q2)) as D3 by lia.
  destruct (Z.le_gt_cases (q1 - q2) 0); nia.
Qed.

Lemma nth_cycle i : nth_task l (i + length l) = nth_task l i.
Proof.
  unfold nth_task. destruct (decide (length l = 0)%nat) as [E|E]; [destruct l; done|].
  f_equal. rewrite <- (Nat.mul_1_l (length l)) at 1. by rewrite Nat.Div0.mod_add.
Qed.

Definition is_ready (t : task) : bool :=
  bool_decide (t_state t = TASK_READY) || bool_decide (t_state t = TASK_RUNNING).

(** The walk from the [d]-th task behind the current one finds the nearest
    ready one, or comes back to the current task. *)
Lemma ready_from_spec i c k : forall d turns, nth_task l i = Some c -> (1 <= d <= length l)%nat ->
  (length l - d <= turns)%nat -> (length l - d = k)%nat ->
  exists e x, (d <= e <= length l)%nat /\ nth_task l (i + e) = Some x /\
    (forall cand, nth_task l (i + d) = Some cand -> ready_from turns ts c cand = Some x) /\
    (e = length l \/ exists t, ts !! x = Some t /\ is_ready t = true) /\
    (forall e' y t, (d <= e' < e)%nat -> nth_task l (i + e') = Some y -> ts !! y = Some t -> is_ready t = false).
Proof.
  induction k as [|k IH]; intros d turns Hc Hd Ht Hk.
  - exists d, c. assert (d = length l) as -> by lia. rewrite nth_cycle. split_and!; [lia|lia|done| |by left|lia].
    intros cand E. rewrite Hc in E. injection E as <-. destruct turns; cbn; by rewrite Z.eqb_refl.
  - assert (l <> []) as Hne by (destruct l; [cbn in *; lia|done]).
    destruct (nth_exists (i + d) Hne) as [x Hx].
    assert (x <> c) as Hxc.
    { intros ->. apply (nth_far i 0 d c); [lia|lia|by rewrite Nat.add_0_r|done]. }
    destruct (proj2 (r_dom _ _ R x) (nth_in _ _ Hx)) as [t Et].
    destruct (is_ready t) eqn:Er.
    + exists d, x. split_and!; [lia|lia|done| |right; eauto|lia].
      intros cand E. rewrite Hx in E. injection E as <-.
      destruct turns; cbn [ready_from]; rewrite (proj2 (Z.eqb_neq x c)) by done; rewrite Et; unfold is_ready in Er; by rewrite Er.
    + destruct turns as [|turns]; [lia|].
      destruct (IH (S d) turns Hc ltac:(lia) ltac:(lia) ltac:(lia)) as (e & y & He & Hy & Hf & Hend & Hbefore).
      exists e, y. split_and!; [lia|lia|done| |done|].
      * intros cand E. rewrite Hx in E. injection E as <-. cbn [ready_from]. rewrite (proj2 (Z.eqb_neq x c)) by done.
        rewrite Et. unfold is_ready in Er. rewrite Er. apply Hf.
        rewrite Nat.add_succ_r. by eapply (r_next _ _ R).
      * intros e' z t' He' Hz Et'. destruct (decide (e' = d)) as [->|]; [|eapply Hbefore; eauto; lia].
        rewrite Hx in Hz. injection Hz as <-. rewrite Et in Et'. by injection Et' as <-.
Qed.
End RingLemmas.

(** What [next_ready_task] finds. *)
Lemma next_ready_spec s l c i : sched_ok s l -> current s = Some c -> nth_task l i = Some c ->
  exists e x, (1 <= e <= length l)%nat /\ nth_task l (i + e) = Some x /\ next_ready_task s = Some x /\
    (e = length l \/ exists t, tasks s !! x = Some t /\ is_ready t = true) /\
    (forall e' y t, (1 <= e' < e)%nat -> nth_task l (i + e') = Some y -> tasks s !! y = Some t -> is_ready t = false).
Proof.
  intros [R _ _ _] Hc Hi. pose proof (nth_in _ _ _ Hi) as Hin.
  assert (1 <= length l)%nat as Hl by (destruct l; [by apply not_elem_of_nil in Hin|cbn; lia]).
  destruct (ready_from_spec _ _ R i c (length l - 1) 1 (size (tasks s)) Hi) as (e & x & He & Hx & Hf & Hend & Hb);
    [lia|rewrite (ring_size _ _ R); lia|done|].
  destruct (proj2 (r_dom _ _ R c) Hin) as [t Et].
  exists e, x. split_and!; [lia|lia|done| |done|done].
  unfold next_ready_task. rewrite Hc. cbn [mbind option_bind]. rewrite Et. cbn [mbind option_bind].
  apply Hf. rewrite Nat.add_1_r. by eapply (r_next _ _ R).
Qed.

(** Changing states and stack pointers keeps the ring. *)
Lemma ring_alter ts l a f : ring ts l -> (forall t, t_next (f t) = t_next t) -> ring (alter f a ts) l.
Proof.
  intros [Hn Hd Hx] Hf. split; [done| |].
  - intros b. rewrite <- Hd, lookup_alter_is_Some. done.
  - intros i b t Hb Et. destruct (decide (a = b)) as [->|Hne].
    + rewrite lookup_alter_eq in Et. destruct (ts !! b) as [t0|] eqn:E0; [|done]. cbn in Et. injection Et as <-.
      rewrite Hf. by eapply Hx.
    + rewrite lookup_alter_ne in Et by done. by eapply Hx.
Qed.

(** ** Yielding *)

Lemma alter_lookup_Some {f : task -> task} {a b} {ts : gmap Z task} {t} : alter f a ts !! b = Some t ->
  exists t0, ts !! b = Some t0 /\ t = if decide (a = b) then f t0 else t0.
Proof.
  intros E. destruct (decide (a = b)) as [->|Hne].
  - rewrite lookup_alter_eq in E. destruct (ts !! b) as [t0|]; [|done]. cbn in E. injection E as <-. eauto.
  - rewrite lookup_alter_ne in E by done. eauto.
Qed.

(** The state of every task after a yield from [prev] to [next]. *)
Definition yielded (prev next esp : Z) (a : Z) (t : task) : task :=
  if decide (a = next) then set_state TASK_RUNNING t
  else if decide (a = prev) then
    set_stack_ptr esp (if bool_decide (t_state t = TASK_RUNNING) then set_state TASK_READY t else t)
  else t.

Lemma yield_spec s l c i esp : sched_ok s l -> current s = Some c -> nth_task l i = Some c ->
  exists e x, (1 <= e <= length l)%nat /\ nth_task l (i + e) = Some x /\
    (forall e' y t, (1 <= e' < e)%nat -> nth_task l (i + e') = Some y -> tasks s !! y = Some t -> is_ready t = false) /\
    ((x = c /\ task_yield esp s = Some (esp, s)) \/
     (x <> c /\ exists p n s', tasks s !! c = Some p /\ tasks s !! x = Some n /\ is_ready n = true /\
        task_yield esp s = Some (t_stack_ptr n, s') /\ current s' = Some x /\ task_list_head s' = task_list_head s /\
        next_task_id s' = next_task_id s /\
        forall a, tasks s' !! a = yielded c x esp a <$> tasks s !! a)).
Proof.
  intros Hok Hc Hi. destruct (next_ready_spec s l c i Hok Hc Hi) as (e & x & He & Hx & Hn & Hend & Hb).
  pose proof (so_ring _ _ Hok) as R. destruct (proj2 (r_dom _ _ R c) (nth_in _ _ _ Hi)) as [p Ep].
  destruct (proj2 (r_dom _ _ R x) (nth_in _ _ _ Hx)) as [n En].
  exists e, x. split_and!; [lia|lia|done|done|]. unfold task_yield. rewrite Hc, Hn. cbn [mbind option_bind].
  destruct (Z.eqb_spec x c) as [->|Hne]; [by left|right]. split; [done|].
  rewrite Ep, En. cbn [mbind option_bind]. eexists p, n, _. split_and!; [done|done| |done| | | |].
  - destruct Hend as [->|(t & Et & Hr)]; [|by rewrite En in Et; injection Et as <-].
    exfalso. apply Hne. pose proof (nth_cycle _ _ R i) as E. rewrite Hi, Hx in E. congruence.
  - by destruct (bool_decide _).
  - by destruct (bool_decide _).
  - by destruct (bool_decide _).
  - intros a. unfold yielded, upd_task, set_current. cbn [tasks].
    destruct (decide (a = x)) as [->|Hax]; [|destruct (decide (a = c)) as [->|Hac]].
    + rewrite lookup_alter_ne by congruence.
      case_bool_decide; cbn [tasks]; rewrite lookup_alter_eq; [rewrite lookup_alter_ne by congruence|]; done.
    + rewrite lookup_alter_eq, Ep. case_bool_decide as E; cbn [tasks]; rewrite lookup_alter_ne by done.
      * rewrite lookup_alter_eq, Ep. cbn. rewrite bool_decide_eq_true_2 by done. done.
      * rewrite Ep. cbn. rewrite bool_decide_eq_false_2 by done. done.
    + rewrite lookup_alter_ne by done. case_bool_decide; cbn [tasks]; rewrite !lookup_alter_ne by done; by destruct (tasks s !! a).
Qed.

(** Yields in a row; [esps] are the stack pointers the tasks yield on. *)
Fixpoint yields (esps : list Z) s : option sched :=
  match esps with
  | [] => Some s
  | esp :: esps => r ← task_yield esp s; yields esps r.2
  end.

Lemma ring_yielded s s' l c x esp : ring (tasks s) l ->
  (forall a, tasks s' !! a = yielded c x esp a <$> tasks s !! a) -> ring (tasks s') l.
Proof.
  intros [Hn Hd Hx] Ht. assert (forall a t, t_next (yielded c x esp a t) = t_next t) as Hnx.
  { intros a t. unfold yielded. by repeat (case_decide || case_bool_decide). }
  split; [done| |].
  - intros a. rewrite Ht, <- Hd, fmap_is_Some. done.
  - intros i a t Ha Et. rewrite Ht in Et. destruct (tasks s !! a) as [t0|] eqn:E0; [|done]. cbn in Et.
    injection Et as <-. rewrite Hnx. by eapply Hx.
Qed.

Lemma yield_ok s l esp r s' : sched_ok s l -> task_yield esp s = Some (r, s') -> sched_ok s' l.
Proof.
  intros Hok Hy. destruct (so_current _ _ Hok) as (c & Hc & Hin). destruct (in_nth _ _ Hin) as (i & _ & Hi).
  destruct (yield_spec s l c i esp Hok Hc Hi) as (e & x & _ & Hx & _ & [[-> E]|(Hne & p & n & s2 & Ep & En & Hr & E & Hcx & Hh & _ & Ht)]).
  - rewrite E in Hy. by injection Hy as <- <-.
  - rewrite E in Hy. injection Hy as <- <-. split.
    + eapply ring_yielded; [apply Hok|exact Ht].
    + rewrite Hh. apply Hok.
    + exists x. split; [done|by eapply nth_in].
    + intros a t Et Hst. rewrite Ht in Et. destruct (tasks s !! a) as [t0|] eqn:E0; [|done]. cbn in Et. injection Et as <-.
      unfold yielded in Hst. rewrite Hcx. destruct (decide (a = x)) as [->|Hax]; [done|].
      destruct (decide (a = c)) as [->|Hac].
      * case_bool_decide; cbn in Hst; done.
      * pose proof (so_running _ _ Hok a t0 E0 Hst) as E1. congruence.
Qed.

Lemma yields_reach k : forall s l c i T t esps, sched_ok s l -> current s = Some c -> nth_task l i = Some c ->
  nth_task l (i + k) = Some T -> (k < length l)%nat -> tasks s !! T = Some t -> (k <> 0%nat -> t_state t = TASK_READY) ->
  (k <= length esps)%nat ->
  exists m s', (m <= k)%nat /\ yields (take m esps) s = Some s' /\ current s' = Some T.
Proof.
  induction k as [k IH] using lt_wf_ind. intros s l c i T t esps Hok Hc Hi HT Hk Et Hst Hl.
  destruct (decide (k = 0%nat)) as [->|Hk0].
  { exists 0%nat, s. split_and!; [lia|done|]. rewrite Nat.add_0_r, Hi in HT. congruence. }
  destruct esps as [|esp esps]; [cbn in Hl; lia|]. specialize (Hst Hk0).
  pose proof (nth_far _ _ (so_ring _ _ Hok) i) as Hfar. rewrite <- (Nat.add_0_r i) in Hi.
  assert (T <> c) as HTc by (intros ->; eapply (Hfar 0%nat k); [lia|lia|done|done]).
  rewrite Nat.add_0_r in Hi.
  destruct (yield_spec s l c i esp Hok Hc Hi) as (e & x & He & Hx & Hb & Hcase).
  assert (e <= k)%nat as Hek.
  { destruct (le_lt_dec e k) as [|Hlt]; [done|]. exfalso.
    specialize (Hb k T t ltac:(lia) HT Et). unfold is_ready in Hb. rewrite Hst in Hb. done. }
  destruct Hcase as [[-> Hy]|(Hne & p & n & s' & Ep & En & Hr & Hy & Hcx & Hh & _ & Ht)].
  { exfalso. apply (Hfar 0%nat e c); [lia|lia|by rewrite Nat.add_0_r|done]. }
  pose proof (yield_ok _ _ _ _ _ Hok Hy) as Hok'.
  destruct (IH (k - e)%nat ltac:(lia) s' l x (i + e)%nat T (yielded c x esp T t) esps Hok' Hcx Hx) as (m & s2 & Hm & Hys & Hc2).
  - by replace (i + e + (k - e))%nat with (i + k)%nat by lia.
  - lia.
  - by rewrite Ht, Et.
  - intros Hke. unfold yielded. rewrite decide_False; [by rewrite decide_False|].
    intros ->. apply (Hfar e k x); [lia|lia|done|done].
  - cbn in Hl. lia.
  - exists (S m), s2. split_and!; [lia| |done]. cbn [take yields]. rewrite Hy. done.
Qed.

(** ** Creating, ending and killing tasks *)

(** The successor of a task of the ring by its place in the list. *)
Lemma ring_flat ts l : ring ts l <->
  NoDup l /\ (forall a, is_Some (ts !! a) <-> a ∈ l) /\
  (forall i a t, l !! i = Some a -> ts !! a = Some t ->
     if decide (S i = length l) then head l = Some (t_next t) else l !! S i = Some (t_next t)).
Proof.
  split.
  - intros [Hn Hd Hx]. split_and!; [done|done|]. intros i a t Ha Et. pose proof (lookup_lt_Some _ _ _ Ha) as Hi.
    specialize (Hx i a t). unfold nth_task in Hx. rewrite Nat.mod_small in Hx by done. specialize (Hx Ha Et).
    destruct (decide (S i = length l)) as [E|E].
    + rewrite E, Nat.Div0.mod_same in Hx. by destruct l.
    + rewrite Nat.mod_small in Hx by lia. done.
  - intros (Hn & Hd & Hx). split; [done|done|]. intros i a t Ha Et. unfold nth_task in *.
    specialize (Hx _ _ _ Ha Et). pose proof (lookup_lt_Some _ _ _ Ha) as Hi.
    replace (S i mod length l)%nat with (if decide (S (i mod length l) = length l) then 0 else S (i mod length l))%nat.
    + destruct (decide _); [by destruct l|done].
    + rewrite <- (Nat.add_1_r i), Nat.Div0.add_mod. destruct (decide _) as [E|E].
      * destruct (decide (length l = 1)%nat) as [E1|]; [by rewrite E1, !Nat.mod_1_r|].
        rewrite (Nat.mod_small 1) by lia. rewrite Nat.add_1_r, E. by rewrite Nat.Div0.mod_same.
      * rewrite (Nat.mod_small 1) by lia. rewrite (Nat.mod_small (i mod length l + 1)) by lia. by rewrite Nat.add_1_r.
Qed.

Lemma ring_tail_last ts l h k : forall i a turns, ring ts l -> head l = Some h -> l !! i = Some a ->
  (length l - S i = k)%nat -> (k <= turns)%nat -> exists b, last l = Some b /\ ring_tail turns ts h a = Some b.
Proof.
  induction k as [|k IH]; intros i a turns R Hh Hi Hk Ht; pose proof (lookup_lt_Some _ _ _ Hi) as Hlt;
    destruct (proj1 (ring_flat _ _) R) as (Hn & Hd & Hx);
    destruct (proj2 (Hd a) (list_elem_of_lookup_2 _ _ _ Hi)) as [t Et]; specialize (Hx _ _ _ Hi Et).
  - rewrite decide_True in Hx by lia. exists a. split.
    + rewrite last_lookup. by replace (pred (length l)) with i by lia.
    + assert (t_next t = h) as <- by congruence. destruct turns; cbn; by rewrite Et, Z.eqb_refl.
  - rewrite decide_False in Hx by lia. destruct turns as [|turns]; [lia|].
    destruct (IH (S i) (t_next t) turns R Hh Hx ltac:(lia) ltac:(lia)) as (b & Hb & E).
    exists b. split; [done|]. cbn [ring_tail]. rewrite Et.
    rewrite (proj2 (Z.eqb_neq (t_next t) h)); [done|]. intros E2. rewrite E2 in Hx.
    rewrite head_lookup in Hh. pose proof (NoDup_lookup _ _ _ _ Hn Hx Hh). lia.
Qed.

(** Linking a new task behind the last one. *)
Lemma ring_snoc ts l h b a t : ring ts l -> head l = Some h -> last l = Some b -> ts !! a = None -> t_next t = h ->
  ring (<[a := t]> (alter (set_next a) b ts)) (l ++ [a]).
Proof.
  intros R Hh Hb Ha Ht. destruct (proj1 (ring_flat _ _) R) as (Hn & Hd & Hx). apply ring_flat.
  assert (a ∉ l) as Hal by (intros Hin; apply Hd in Hin as [? E]; congruence).
  assert (0 < length l)%nat as Hl by (destruct l; [done|cbn; lia]).
  rewrite last_lookup in Hb. split_and!.
  - apply NoDup_app. split_and!; [done| |apply NoDup_singleton]. intros x Hin ->%list_elem_of_singleton. done.
  - intros x. rewrite elem_of_app, list_elem_of_singleton, lookup_insert_is_Some, lookup_alter_is_Some, Hd.
    split; [intros [->|[_ ?]]; auto|]. intros [?| ->]; [|auto]. destruct (decide (a = x)); auto.
  - intros i x u Hi Eu. rewrite length_app in *. cbn [length].
    destruct (decide (i = length l)) as [->|Hil].
    + rewrite decide_True by lia. rewrite lookup_app_r, Nat.sub_diag in Hi by lia. injection Hi as <-.
      rewrite lookup_insert_eq in Eu. injection Eu as <-. rewrite Ht. by destruct l.
    + pose proof (lookup_lt_Some _ _ _ Hi) as Hlt. rewrite length_app in Hlt. cbn in Hlt.
      rewrite decide_False by lia. rewrite lookup_app_l in Hi by lia.
      assert (x <> a) as Hxa by (intros ->; apply Hal; by eapply list_elem_of_lookup_2).
      rewrite lookup_insert_ne in Eu by done. destruct (alter_lookup_Some Eu) as (u0 & E0 & ->).
      specialize (Hx _ _ _ Hi E0). destruct (decide (S i = length l)) as [E|E].
      * rewrite E. rewrite lookup_app_r, Nat.sub_diag by lia. rewrite decide_True; [done|].
        replace (pred (length l)) with i in Hb by lia. congruence.
      * rewrite lookup_app_l by lia. rewrite decide_False; [done|]. intros ->.
        pose proof (NoDup_lookup _ _ _ _ Hn Hb Hi). lia.
Qed.

Section Steps.
Context (main_task task_bootstrap : Z).

(** What the kernel does with its tasks: every call of the interface, and the
    system calls changing the descriptors or the user of a task.  [kcalloc]
    returns the address of no live task. *)
Inductive sched_step : sched -> sched -> Prop :=
  | step_create a base name entry arg s : tasks s !! a = None ->
      sched_step s (task_create task_bootstrap (Some a) base name entry arg s).2
  | step_yield esp r s s' : task_yield esp s = Some (r, s') -> sched_step s s'
  | step_exit esp r s s' : task_exit esp s = Some (r, s') -> sched_step s s'
  | step_kill id r s s' : task_kill main_task id s = Some (r, s') -> sched_step s s'
  | step_fds a fds s : sched_step s (upd_task a (set_fds fds) s)
  | step_cred a u g s : sched_step s (upd_task a (set_cred u g) s).

(** The boot state, in which nothing is linked yet. *)
Definition boot : sched := mk_sched ∅ None None 1.
Definition reachable (s : sched) : Prop := rtc sched_step (tasking_init main_task boot) s.

Lemma init_ok : sched_ok (tasking_init main_task boot) [main_task].
Proof.
  unfold tasking_init. split; cbn [tasks current task_list_head boot].
  - apply ring_flat. split_and!; [apply NoDup_singleton| |].
    + intros a. rewrite lookup_insert_is_Some, lookup_empty, list_elem_of_singleton. split; [|naive_solver].
      intros [->|[_ [? E]]]; done.
    + intros [|i] a t Hi Et; [|done]. injection Hi as <-. rewrite lookup_insert_eq in Et. injection Et as <-. done.
  - done.
  - exists main_task. split; [done|]. by apply list_elem_of_singleton.
  - intros a t Et _. destruct (decide (a = main_task)) as [->|Hne]; [done|]. rewrite lookup_insert_ne, lookup_empty in Et by done. done.
Qed.

(** Changing the fields of a task other than its successor, without making it run. *)
Lemma upd_ok s l a f : sched_ok s l -> (forall t, t_next (f t) = t_next t) ->
  (forall t, t_state (f t) = TASK_RUNNING -> t_state t = TASK_RUNNING) -> sched_ok (upd_task a f s) l.
Proof.
  intros [R Hh Hc Hr] Hn Hs. split; [by apply ring_alter|done|done|].
  intros b t Et Hst. destruct (alter_lookup_Some Et) as (t0 & E0 & ->). apply (Hr b t0 E0).
  destruct (decide (a = b)); [by apply Hs|done].
Qed.

Lemma create_ok s l a base name entry arg : sched_ok s l -> tasks s !! a = None ->
  exists l', l `prefix_of` l' /\ sched_ok (task_create task_bootstrap (Some a) base name entry arg s).2 l'.
Proof.
  intros Hok Ha. unfold task_create. destruct base as [base|]; [|by exists l].
  destruct (match current s ≫= _ with Some c => _ | None => _ end) as [uid gid].
  destruct (so_current _ _ Hok) as (c & Hc & Hin). rewrite (so_head _ _ Hok).
  destruct (head l) as [h|] eqn:Hh; [|by destruct l; [apply not_elem_of_nil in Hin|]].
  destruct (ring_tail_last _ _ h (length l - 1) 0 h (size (tasks s)) (so_ring _ _ Hok) Hh) as (b & Hb & ->).
  { by rewrite <- head_lookup. } { lia. } { rewrite (ring_size _ _ (so_ring _ _ Hok)). lia. }
  exists (l ++ [a]). split; [by exists [a]|]. split; cbn [snd tasks current task_list_head].
  - eapply ring_snoc; [apply Hok|done..].
  - rewrite <- Hh. by destruct l.
  - exists c. split; [done|]. apply elem_of_app. by left.
  - intros x t Et Hst. destruct (decide (x = a)) as [->|Hne].
    + rewrite lookup_insert_eq in Et. by injection Et as <-.
    + rewrite lookup_insert_ne in Et by done. destruct (alter_lookup_Some Et) as (t0 & E0 & ->).
      apply (so_running _ _ Hok x t0 E0). by destruct (decide (b = x)).
Qed.

Lemma step_ok s s' l : sched_ok s l -> sched_step s s' -> exists l', l `prefix_of` l' /\ sched_ok s' l'.
Proof.
  intros Hok Hs. destruct Hs as [a base name entry arg s Ha|esp r s s' Hy|esp r s s' Hy|id r s s' Hk|a fds s|a u g s].
  - by apply create_ok.
  - exists l. split; [done|]. by eapply yield_ok.
  - exists l. split; [done|]. unfold task_exit in Hy. destruct (current s) as [c|]; [|done]. cbn in Hy.
    eapply yield_ok; [|exact Hy]. by apply upd_ok.
  - exists l. split; [done|]. unfold task_kill in Hk. destruct (task_list s) as [tl|]; [|done]. cbn [mbind option_bind] in Hk.
    destruct (list_find _ tl) as [[? a]|]; injection Hk as <- <-; [by apply upd_ok|done].
  - exists l. split; [done|]. by apply upd_ok.
  - exists l. split; [done|]. by apply upd_ok.
Qed.

Lemma reachable_ok s : reachable s -> exists l, sched_ok s l.
Proof.
  intros Hr. apply rtc_ind_r with (P := fun s => exists l, sched_ok s l) in Hr; [done|exists [main_task]; apply init_ok|].
  intros y z _ Hs (l & Hl). destruct (step_ok _ _ _ Hl Hs) as (l' & _ & Hl'). eauto.
Qed.

(** A task that has ended does not run and stays ended. *)
Definition ended (T : Z) (s : sched) : Prop :=
  current s <> Some T /\ exists t, tasks s !! T = Some t /\ t_state t = TASK_ZOMBIE.

Lemma yield_ended T s l esp r s' : sched_ok s l -> (exists t, tasks s !! T = Some t /\ t_state t = TASK_ZOMBIE) ->
  task_yield esp s = Some (r, s') ->
  (exists t, tasks s' !! T = Some t /\ t_state t = TASK_ZOMBIE) /\ (current s' = Some T -> s' = s).
Proof.
  intros Hok (t & Et & Hz) Hy. destruct (so_current _ _ Hok) as (c & Hc & Hin). destruct (in_nth _ _ Hin) as (i & _ & Hi).
  destruct (yield_spec s l c i esp Hok Hc Hi) as (e & x & _ & Hx & _ & [[-> E]|(Hne & p & n & s2 & Ep & En & Hr & E & Hcx & Hh & _ & Ht)]);
    rewrite E in Hy; injection Hy as <- <-; [eauto|].
  assert (x <> T) as HxT.
  { intros ->. rewrite Et in En. injection En as <-. unfold is_ready in Hr. rewrite Hz in Hr. done. }
  split; [|by rewrite Hcx; intros [= ?]]. exists (yielded c x esp T t). rewrite Ht, Et. split; [done|].
  unfold yielded. rewrite decide_False by done. destruct (decide (T = c)); [|done].
  rewrite bool_decide_eq_false_2 by congruence. done.
Qed.

Lemma step_ended T s s' l : sched_ok s l -> sched_step s s' -> ended T s -> ended T s'.
Proof.
  intros Hok Hs [Hc (t & Et & Hz)].
  destruct Hs as [a base name entry arg s Ha|esp r s s' Hy|esp r s s' Hy|id r s s' Hk|a fds s|a u g s].
  - unfold task_create. destruct base as [base|]; [|by split; eauto].
    destruct (match current s ≫= _ with Some c => _ | None => _ end) as [uid gid].
    destruct (task_list_head s) as [h|]; [|by split; eauto]. destruct (ring_tail _ _ _ _) as [b|]; [|by split; eauto].
    split; [done|]. cbn [snd tasks]. rewrite lookup_insert_ne by congruence.
    destruct (decide (b = T)) as [->|]; [|rewrite lookup_alter_ne by done; eauto].
    rewrite lookup_alter_eq, Et. by eexists.
  - destruct (yield_ended T s l esp r s' Hok ltac:(eauto) Hy) as [Hz' Hs]. split; [|done].
    intros E. rewrite (Hs E) in E. done.
  - unfold task_exit in Hy. destruct (current s) as [c|] eqn:Ec; [|done]. cbn in Hy.
    destruct (yield_ended T _ l esp r s' (upd_ok s l c (set_state TASK_ZOMBIE) Hok ltac:(done) ltac:(done))) as [Hz' Hs]; [|done|].
    + cbn. rewrite lookup_alter_ne by congruence. eauto.
    + split; [|done]. intros E. rewrite (Hs E) in E. cbn in E. congruence.
  - unfold task_kill in Hk. destruct (task_list s) as [tl|]; [|done]. cbn [mbind option_bind] in Hk.
    destruct (list_find _ tl) as [[? a]|]; injection Hk as <- <-; [|by split; eauto].
    split; [done|]. cbn. destruct (decide (a = T)) as [->|]; [|rewrite lookup_alter_ne by done; eauto].
    rewrite lookup_alter_eq, Et. by eexists.
  - split; [done|]. cbn. destruct (decide (a = T)) as [->|]; [|rewrite lookup_alter_ne by done; eauto].
    rewrite lookup_alter_eq, Et. by eexists.
  - split; [done|]. cbn. destruct (decide (a = T)) as [->|]; [|rewrite lookup_alter_ne by done; eauto].
    rewrite lookup_alter_eq, Et. by eexists.
Qed.

(** Once a task has ended, by [task_exit] or [task_kill], and another task
    runs, no later step of the kernel runs it again or brings it back to life. *)
Theorem ended_stays_ended T s s' : reachable s -> ended T s -> rtc sched_step s s' -> ended T s'.
Proof.
  intros Hr He Hs. destruct (reachable_ok s Hr) as (l & Hl). clear Hr. revert l Hl He.
  induction Hs as [s|s s1 s2 H1 Hs IH]; intros l Hl He; [done|].
  destruct (step_ok _ _ _ Hl H1) as (l' & _ & Hl'). exact (IH l' Hl' (step_ended T s s1 l Hl H1 He)).
Qed.

(** C20: The scheduler is fair.  In every state the kernel can reach, a task that
    is ready gets the processor within one turn of the ring, however the tasks
    before it run: if every task that runs yields, it runs after fewer yields
    than there are tasks. *)
Theorem ready_task_runs T t s esps : reachable s -> tasks s !! T = Some t -> t_state t = TASK_READY ->
  (size (tasks s) <= length esps)%nat ->
  exists n s', (n < size (tasks s))%nat /\ yields (take n esps) s = Some s' /\ current s' = Some T.
Proof.
  intros Hr Et Hst Hlen. destruct (reachable_ok s Hr) as (l & Hl). pose proof (so_ring _ _ Hl) as R.
  rewrite (ring_size _ _ R) in *.
  destruct (so_current _ _ Hl) as (c & Hc & Hin). destruct (in_nth _ _ Hin) as (i & Hi & Hci).
  destruct (in_nth _ T (proj1 (r_dom _ _ R T) ltac:(eauto))) as (j & Hj & HTj).
  assert (exists k, (k < length l)%nat /\ nth_task l (i + k) = Some T) as (k & Hk & HT).
  { destruct (le_lt_dec i j).
    - exists (j - i)%nat. split; [lia|]. by replace (i + (j - i))%nat with j by lia.
    - exists (j + length l - i)%nat. split; [lia|]. replace (i + (j + length l - i))%nat with (j + length l)%nat by lia.
      by rewrite (nth_cycle _ _ R). }
  destruct (yields_reach k s l c i T t esps Hl Hc Hci HT Hk Et (fun _ => Hst) ltac:(lia)) as (n & s' & Hn & Hy & Hc').
  exists n, s'. split_and!; [lia|done|done].
Qed.
End Steps.

(** Three tasks at work: the second runs, the first waits. *)
Definition demo_sched : option sched :=
  let s := tasking_init 100 boot in
  let s := (task_create 7 (Some 200) (Some 4096) (Some (lit "a")) (Some 8) 0 s).2 in
  let s := (task_create 7 (Some 300) (Some 65536) None (Some 9) 0 s).2 in
  snd <$> task_yield 11 s.
Definition the_demo : sched := Eval vm_compute in default boot demo_sched.

Lemma demo_reachable : reachable 100 7 the_demo.
Proof.
  eapply rtc_l; [apply (step_create 100 7 200 (Some 4096) (Some (lit "a")) (Some 8) 0); vm_compute; reflexivity|].
  eapply rtc_l; [apply (step_create 100 7 300 (Some 65536) None (Some 9) 0); vm_compute; reflexivity|].
  eapply rtc_l; [|apply rtc_refl]. apply (step_yield 100 7 11 20440). vm_compute. reflexivity.
Qed.

Lemma ready_task_runs_witness : exists n s', (n < 3)%nat /\ yields (take n [1; 2; 3]) the_demo = Some s' /\ current s' = Some 100.
Proof.
  destruct (tasks the_demo !! 100) as [t|] eqn:E; [|vm_compute in E; discriminate E].
  apply (ready_task_runs 100 7 100 t the_demo [1; 2; 3]).
  - apply demo_reachable.
  - exact E.
  - vm_compute in E. injection E as <-. reflexivity.
  - vm_compute. lia.
Defined.

(** The third task is killed while the second runs, and then the second yields. *)
Definition after_kill : sched := Eval vm_compute in default boot (snd <$> task_kill 100 3 the_demo).
Definition after_yield : sched := Eval vm_compute in default boot (snd <$> task_yield 5 after_kill).

Lemma ended_stays_ended_witness : ended 300 after_yield.
Proof.
  apply (ended_stays_ended 100 7 300 after_kill).
  - eapply rtc_r; [apply demo_reachable|]. apply (step_kill 100 7 3 0). vm_compute. reflexivity.
  - split; [vm_compute; discriminate|]. eexists. split; vm_compute; reflexivity.
  - eapply rtc_l; [|apply rtc_refl]. apply (step_yield 100 7 5 (t_stack_ptr (default (mk_task 0 [] TASK_READY 0 None None 0 0 [] 0 0) (tasks after_kill !! 100)))).
    vm_compute. reflexivity.
Defined.
