(* ===== verification/Syscall.v ===== *)
(** * System calls (arch/i386/syscall.c)

    [syscall_dispatch] reads the registers of the caller, works on the
    descriptor table of the current task and calls the VFS.  What it needs of
    the rest of the kernel is the class [Kernel] over the machine state [D] of
    the file systems: the scheduler's state, the heap, the terminal, the keys
    still to be typed and the memory of the running program, in which
    descriptors' buffers do not lie.  A call returns a register value, waits
    for a key that never comes, or does something C leaves undefined (a write
    through NULL or outside a buffer, a signed overflow). *)

From stdpp Require Import strings.
From S2P Require Import Prelude Machine VfsTypes Vfs Keyboard Task.

(** fcntl.h, syscall.h *)
Definition O_WRONLY : Z := 0x001.
Definition O_CREAT : Z := 0x100.
Definition O_APPEND : Z := 0x400.
Definition SEEK_SET : Z := 0.
Definition SEEK_CUR : Z := 1.
Definition SEEK_END : Z := 2.

Class Kernel (D : Type) := {
  k_sched : D -> sched;
  k_set_sched : sched -> D -> D;
  k_malloc : Z -> state D (option Z);
  k_free : option Z -> state D unit;
  k_putchar : Z -> state D unit;
  (** The keys [keyboard_getkey] will return. *)
  k_keys : D -> list Z;
  k_set_keys : list Z -> D -> D;
  (** The memory of the program: [n] bytes, or the string, at an address. *)
  k_bytes : D -> Z -> Z -> list Z;
  k_string : D -> Z -> list Z;
  k_store : Z -> list Z -> D -> D;
  (** The stack pointer at a task switch. *)
  k_esp : D -> Z;
}.

Inductive sysret := Ret (v : Z) | Blocked | Undefined.

(** [return (uint32_t)x;] *)
Definition ret32 {S} (x : Z) : state S sysret := mret (Ret (u32 x)).

Section Syscalls.
Context {D : Type} `{Kernel D}.
Abbreviation V := (vfs D).
Abbreviation sys := (state V sysret).

(** The credentials the VFS checks are the current task's. *)
Definition sys_uid (d : D) : Z := current_uid (k_sched d).
Definition sys_gid (d : D) : Z := current_gid (k_sched d).

Definition on_d (f : D -> D) : state V unit :=
  modify (fun s => mk_vfs (mount_table s) (last_error s) (f (v_drv s))).
Definition with_d {A} (k : D -> state V A) : state V A := s ← get; k (v_drv s).

(** [vfs_...] results as register values. *)
Definition of_res {A} (r : res A) (k : A -> sys) : sys :=
  match r with
  | Done a => k a
  | Err rc => ret32 rc
  | Overflow => mret Undefined
  end.

(** ** The descriptor table of the current task *)

Definition get_fd (fd : Z) (d : D) : option fd_entry := t ← task_of (k_sched d); t_fds t !! Z.to_nat fd.
Definition with_fd (fd : Z) (k : fd_entry -> sys) : sys :=
  with_d (fun d => match get_fd fd d with Some f => k f | None => mret Undefined end).

Definition set_fd (fd : Z) (f : fd_entry) : state V unit :=
  on_d (fun d =>
    match current (k_sched d) with
    | Some c => k_set_sched (upd_task c (fun t => set_fds (<[Z.to_nat fd := f]> (t_fds t)) t) (k_sched d)) d
    | None => d
    end).

(** [fd < 3 || fd >= MAX_OPEN_FILES] *)
Definition bad_fd (fd : Z) : bool := (fd <? 3) || (Z.of_nat MAX_OPEN_FILES <=? fd).

(** ** write, read, lseek, close *)

Fixpoint putchars (bytes : list Z) : state V unit :=
  match bytes with
  | [] => mret tt
  | c :: bytes => _ ← lift_d (k_putchar c); putchars bytes
  end.

Definition fd_with (data : option (Z * list Z)) (size offset : Z) (f : fd_entry) : fd_entry :=
  mk_fd (fd_used f) (fd_flags f) (fd_path f) data size offset.

(** The part of SYS_WRITE that makes room: [None] when the heap has none. *)
Definition grow_fd (fd new_end : Z) (f : fd_entry) : state V (option fd_entry) :=
  if fd_size f <? new_end then
    p ← lift_d (k_malloc new_end);
    match p with
    | None => mret None
    | Some p =>
        let old := match fd_data f with Some (_, b) => sub b 0 (fd_size f) | None => [] end in
        let grown := put (zeros new_end) 0 old in
        _ ← lift_d (k_free (fst <$> fd_data f));
        let f := fd_with (Some (p, grown)) new_end (fd_offset f) f in
        _ ← set_fd fd f;
        mret (Some f)
    end
  else mret (Some f).

Definition sys_write (ebx ecx edx : Z) : sys :=
  let fd := s32 ebx in
  if (fd =? 1) || (fd =? 2) then
    with_d (fun d => _ ← putchars (k_bytes d ecx edx); ret32 edx)
  else if bad_fd fd then ret32 (- EBADF) else
  with_fd fd (fun f =>
    if negb (fd_used f) || (Z.land (fd_flags f) O_WRONLY =? 0) then ret32 (- EBADF) else
    if ecx =? 0 then ret32 (- EINVAL) else
    if edx =? 0 then ret32 0 else
    let new_end := u32 (fd_offset f + edx) in
    g ← grow_fd fd new_end f;
    match g with
    | None => ret32 (- ENOSPC)
    | Some f =>
        match fd_data f with
        | None => mret Undefined
        | Some (p, b) =>
            if fd_offset f + edx <=? Z.of_nat (length b) then
              with_d (fun d =>
                _ ← set_fd fd (fd_with (Some (p, put b (fd_offset f) (k_bytes d ecx edx))) (fd_size f)
                                 (u32 (fd_offset f + edx)) f);
                ret32 edx)
            else mret Undefined
        end
    end).

(** The loop of SYS_READ on the keyboard: bytes stored and keys left. *)
Fixpoint read_keys (keys : list Z) (len : nat) : option (list Z * list Z) :=
  match len with
  | O => Some ([], keys)
  | S len' =>
      match keys with
      | [] => None
      | key :: keys =>
          if key =? KEY_ENTER then Some ([10], keys)
          else if (0 <? key) && (key <? 128) then '(b, keys) ← read_keys keys len'; Some (key :: b, keys)
          else read_keys keys len
      end
  end.

Definition sys_read (ebx ecx edx : Z) : sys :=
  let fd := s32 ebx in
  if fd =? 0 then
    if ecx =? 0 then ret32 (- EINVAL) else
    with_d (fun d =>
      match read_keys (k_keys d) (Z.to_nat edx) with
      | None => mret Blocked
      | Some (b, keys) => _ ← on_d (fun d => k_store ecx b (k_set_keys keys d)); ret32 (Z.of_nat (length b))
      end)
  else if bad_fd fd then ret32 (- EBADF) else
  with_d (fun d =>
    if bool_decide (task_current (k_sched d) = None) then ret32 (- EBADF) else
    with_fd fd (fun f =>
      match fd_data f with
      | Some (_, b) =>
          if negb (fd_used f) then ret32 (- EBADF) else
          if ecx =? 0 then ret32 (- EINVAL) else
          if edx =? 0 then ret32 0 else
          if fd_size f <=? fd_offset f then ret32 0 else
          let available := fd_size f - fd_offset f in
          let to_copy := if edx <? available then edx else available in
          _ ← on_d (k_store ecx (sub b (fd_offset f) to_copy));
          _ ← set_fd fd (fd_with (fd_data f) (fd_size f) (u32 (fd_offset f + to_copy)) f);
          ret32 to_copy
      | None => ret32 (- EBADF)
      end)).

(** [(int)base + offset], undefined when it overflows. *)
Definition seek_to (whence offset : Z) (f : fd_entry) : option (option Z) :=
  let add base := let x := s32 base + offset in
                  if (- 2 ^ 31 <=? x) && (x <? 2 ^ 31) then Some (Some x) else None in
  if whence =? SEEK_SET then Some (Some offset)
  else if whence =? SEEK_CUR then add (fd_offset f)
  else if whence =? SEEK_END then add (fd_size f)
  else Some None.

Definition sys_lseek (ebx ecx edx : Z) : sys :=
  let fd := s32 ebx in
  if bad_fd fd then ret32 (- EBADF) else
  with_fd fd (fun f =>
    if negb (fd_used f) then ret32 (- EBADF) else
    match seek_to (s32 edx) (s32 ecx) f with
    | None => mret Undefined
    | Some None => ret32 (- EINVAL)
    | Some (Some new_offset) =>
        if new_offset <? 0 then ret32 (- EINVAL) else
        _ ← set_fd fd (fd_with (fd_data f) (fd_size f) new_offset f);
        ret32 new_offset
    end).

(** What SYS_CLOSE hands to the file system. *)
Definition fd_contents (f : fd_entry) : list Z :=
  match fd_data f with Some (_, b) => sub b 0 (fd_size f) | None => [] end.

Definition sys_close (ebx : Z) : sys :=
  let fd := s32 ebx in
  if bad_fd fd then ret32 (- EBADF) else
  with_fd fd (fun f =>
    if negb (fd_used f) then ret32 (- EBADF) else
    r ← (if negb (Z.land (fd_flags f) O_WRONLY =? 0)
         then vfs_write_file sys_uid sys_gid (fd_path f) (fd_contents f) 0
         else mret (Done tt));
    match r with
    | Overflow => mret Undefined
    | _ =>
        _ ← lift_d (k_free (fst <$> fd_data f));
        _ ← set_fd fd no_fd;
        ret32 (match r with Err rc => rc | _ => 0 end)
    end).

(** ** open *)

(** The first free descriptor from 3 on. *)
Fixpoint free_fd (fds : list fd_entry) (i : Z) : option Z :=
  match fds with
  | [] => None
  | f :: fds => if (3 <=? i) && negb (fd_used f) then Some i else free_fd fds (i + 1)
  end.

(** The writable open: the file's metadata, after creating it where asked. *)
Definition stat_or_create (path : list Z) (want_creat : bool) : state V (res vfs_stat) :=
  r ← vfs_stat_path sys_uid sys_gid path;
  match r with
  | Err rc =>
      if negb (rc =? - ENOENT) then mret (Err rc) else
      if negb want_creat then mret (Err (- ENOENT)) else
      c ← vfs_create sys_uid sys_gid path;
      match c with
      | Overflow => mret Overflow
      | Err rc => if negb (rc =? - EEXIST) then mret (Err rc) else vfs_stat_path sys_uid sys_gid path
      | Done _ => vfs_stat_path sys_uid sys_gid path
      end
  | _ => mret r
  end.

Definition sys_open (ebx ecx : Z) : sys :=
  if ebx =? 0 then ret32 (- EINVAL) else
  m ← vfs_mounted;
  if negb m then ret32 (- ENOENT) else
  with_d (fun d =>
  let path := k_string d ebx in
  let flags := s32 ecx in
  let want_write := negb (Z.land flags O_WRONLY =? 0) in
  let want_creat := negb (Z.land flags O_CREAT =? 0) in
  let want_append := negb (Z.land flags O_APPEND =? 0) in
  match task_of (k_sched d) with
  | None => mret Undefined
  | Some t =>
  match free_fd (t_fds t) 0 with
  | None => ret32 (- EMFILE)
  | Some fd =>
  let entry data size offset := mk_fd true flags (strncpy PUREUNIX_MAX_PATH path) data size offset in
  if negb want_write then
    r ← vfs_stat_path sys_uid sys_gid path;
    of_res r (fun st =>
      if negb (bool_decide (st_type st = VFS_FILE)) then ret32 (- EISDIR) else
      with_d (fun d =>
      if negb (vfs_access st (sys_uid d) (sys_gid d) R_OK) then ret32 (- EACCES) else
      r ← vfs_read_file sys_uid sys_gid path;
      of_res r (fun '(p, b, size) => _ ← set_fd fd (entry (Some (p, b)) size 0); ret32 fd)))
  else
    r ← stat_or_create path want_creat;
    of_res r (fun st =>
      if negb (bool_decide (st_type st = VFS_FILE)) then ret32 (- EISDIR) else
      with_d (fun d =>
      if negb (vfs_access st (sys_uid d) (sys_gid d) W_OK) then ret32 (- EACCES) else
      if want_append then
        r ← vfs_read_file sys_uid sys_gid path;
        match r with
        | Done (p, b, size) => _ ← set_fd fd (entry (Some (p, b)) size size); ret32 fd
        | Err _ => _ ← set_fd fd (entry None 0 0); ret32 fd
        | Overflow => mret Undefined
        end
      else _ ← set_fd fd (entry None 0 0); ret32 fd))
  end
  end).

(** ** Metadata and names *)

(** [vfs_node_type_t] as a number. *)
Definition type_code (t : vfs_node_type) : Z := match t with VFS_FILE => 1 | VFS_DIR => 2 | VFS_SYMLINK => 3 end.

(** [struct pureunix_stat]: ten bytes, two of padding, forty bytes. *)
Definition store_stat (addr : Z) (st : vfs_stat) (d : D) : D :=
  let d := k_store addr (le_bytes 4 (st_size st) ++ le_bytes 4 (type_code (st_type st)) ++ le_bytes 2 (st_attr st)) d in
  k_store (addr + 12)
    (le_bytes 4 (st_mode st) ++ le_bytes 4 (st_uid st) ++ le_bytes 4 (st_gid st) ++ le_bytes 4 (st_nlink st) ++
     le_bytes 4 (st_ino st) ++ le_bytes 4 (st_atime st) ++ le_bytes 4 (st_mtime st) ++ le_bytes 4 (st_ctime st) ++
     le_bytes 4 (st_blocks st) ++ le_bytes 4 (st_blksize st)) d.

(** [if (!path) return -EINVAL; if (!vfs_mounted()) return -ENOENT;] *)
Definition with_path (ebx : Z) (k : list Z -> sys) : sys :=
  if ebx =? 0 then ret32 (- EINVAL) else
  m ← vfs_mounted;
  if negb m then ret32 (- ENOENT) else
  with_d (fun d => k (k_string d ebx)).
Definition with_paths (ebx ecx : Z) (k : list Z -> list Z -> sys) : sys :=
  if (ebx =? 0) || (ecx =? 0) then ret32 (- EINVAL) else
  m ← vfs_mounted;
  if negb m then ret32 (- ENOENT) else
  with_d (fun d => k (k_string d ebx) (k_string d ecx)).

Definition sys_stat (ebx ecx : Z) : sys :=
  with_paths ebx ecx (fun path _ =>
    r ← vfs_stat_path sys_uid sys_gid path;
    of_res r (fun st => _ ← on_d (store_stat ecx st); ret32 0)).

Definition sys_lstat (ebx ecx : Z) : sys :=
  with_paths ebx ecx (fun path _ =>
    r ← vfs_lstat sys_uid sys_gid path;
    of_res r (fun st => _ ← on_d (store_stat ecx st); ret32 0)).

Definition sys_access (ebx ecx : Z) : sys :=
  with_path ebx (fun path =>
    r ← vfs_stat_path sys_uid sys_gid path;
    of_res r (fun st => with_d (fun d =>
      if negb (vfs_access st (sys_uid d) (sys_gid d) (s32 ecx)) then ret32 (- EACCES) else ret32 0))).

Definition sys_readlink (ebx ecx edx : Z) : sys :=
  with_paths ebx ecx (fun path _ => with_d (fun d =>
    r ← vfs_readlink sys_uid sys_gid path (k_bytes d ecx edx) edx;
    of_res r (fun '(n, buf) => _ ← on_d (k_store ecx buf); ret32 n))).

(** The calls that only pass their paths on. *)
Definition done_zero (m : state V (res unit)) : sys := r ← m; of_res r (fun _ => ret32 0).
Definition sys_mkdir (ebx : Z) : sys := with_path ebx (fun p => done_zero (vfs_mkdir sys_uid sys_gid p)).
Definition sys_unlink (ebx : Z) : sys := with_path ebx (fun p => done_zero (vfs_unlink sys_uid sys_gid p)).
Definition sys_rmdir (ebx : Z) : sys := with_path ebx (fun p => done_zero (vfs_rmdir sys_uid sys_gid p)).
Definition sys_rename (ebx ecx : Z) : sys :=
  with_paths ebx ecx (fun p q => done_zero (vfs_rename sys_uid sys_gid p q)).
Definition sys_link (ebx ecx : Z) : sys :=
  with_paths ebx ecx (fun p q => done_zero (vfs_link sys_uid sys_gid p q)).
Definition sys_symlink (ebx ecx : Z) : sys :=
  with_paths ebx ecx (fun t p => done_zero (vfs_symlink sys_uid sys_gid t p)).
Definition sys_chmod (ebx ecx : Z) : sys := with_path ebx (fun p => r ← vfs_chmod p ecx; ret32 r).
Definition sys_chown (ebx ecx edx : Z) : sys := with_path ebx (fun p => r ← vfs_chown p ecx edx; ret32 r).

(** [readdir_collect_cb]: the entry goes to [out[count]], 72 bytes each. *)
Definition DIRENT_BYTES : Z := 72.
Definition readdir_collect_cb (out max : Z) (e : vfs_dirent) (count : Z) : state D (Z * Z) := fun d =>
  if max <=? count then ((1, count), d) else
  let name := take 63 (d_name e) in
  let bytes := name ++ zeros (64 - Z.of_nat (length name)) ++ le_bytes 4 (type_code (d_type e)) ++ le_bytes 4 (d_size e) in
  ((0, count + 1), k_store (out + DIRENT_BYTES * count) bytes d).

Definition sys_readdir (ebx ecx edx : Z) : sys :=
  let max := s32 edx in
  if (ebx =? 0) || (ecx =? 0) || (max <=? 0) then ret32 (- EINVAL) else
  m ← vfs_mounted;
  if negb m then ret32 (- ENOENT) else
  with_d (fun d =>
    '(r, count) ← vfs_readdir sys_uid sys_gid (k_string d ebx) (readdir_collect_cb ecx max) 0;
    of_res r (fun _ => ret32 count)).

(** ** Tasks *)

Definition sys_getpid : sys :=
  with_d (fun d => ret32 (match task_of (k_sched d) with Some t => t_id t | None => 0 end)).

(** SYS_YIELD: the caller gets 0 when it runs again; [Blocked] if the walk over
    the tasks does not end. *)
Definition sys_yield : sys :=
  with_d (fun d =>
    match task_yield (k_esp d) (k_sched d) with
    | None => mret Blocked
    | Some (_, sch) => _ ← on_d (k_set_sched sch); ret32 0
    end).

Definition sys_setcred (ebx ecx : Z) : sys :=
  with_d (fun d =>
    match current (k_sched d) with
    | None => ret32 (- EINVAL)
    | Some c => _ ← on_d (fun d => k_set_sched (upd_task c (set_cred ebx ecx) (k_sched d)) d); ret32 0
    end).

Definition syscall_dispatch (eax ebx ecx edx : Z) : sys :=
  if eax =? 1 then mret (Ret ebx)
  else if eax =? 2 then sys_write ebx ecx edx
  else if eax =? 3 then sys_read ebx ecx edx
  else if eax =? 4 then sys_getpid
  else if eax =? 5 then sys_yield
  else if eax =? 6 then sys_open ebx ecx
  else if eax =? 7 then sys_close ebx
  else if eax =? 8 then sys_lseek ebx ecx edx
  else if eax =? 9 then sys_stat ebx ecx
  else if eax =? 10 then sys_access ebx ecx
  else if eax =? 11 then sys_chmod ebx ecx
  else if eax =? 12 then sys_chown ebx ecx edx
  else if eax =? 13 then sys_readdir ebx ecx edx
  else if eax =? 14 then sys_setcred ebx ecx
  else if eax =? 15 then sys_readlink ebx ecx edx
  else if eax =? 16 then sys_lstat ebx ecx
  else if eax =? 17 then sys_mkdir ebx
  else if eax =? 18 then sys_unlink ebx
  else if eax =? 19 then sys_rmdir ebx
  else if eax =? 20 then sys_rename ebx ecx
  else if eax =? 21 then sys_link ebx ecx
  else if eax =? 22 then sys_symlink ebx ecx
  else ret32 (-1).
End Syscalls.
