(* ===== verification/LibPure.v ===== *)
(** * The library of the user programs (user/libpure.c)

    The stubs put the number and the arguments of a call into the registers the
    dispatcher of Syscall.v reads; the result is the register as an int, [None]
    when the call does not return.  The text functions work on strings, and
    [pu_puti] is the list of the texts it hands to [pu_write].  The theorem
    shows that [pu_atoi] reads back what [pu_puti] prints. *)

From stdpp Require Import strings.
From S2P Require Import Prelude VfsTypes CLib Printf Vfs Task Syscall.

Section Stubs.
Context {D : Type} `{Kernel D}.
Abbreviation call := (state (vfs D) (option Z)).

Definition syscall3 (n a b c : Z) : call :=
  r ← syscall_dispatch (u32 n) (u32 a) (u32 b) (u32 c);
  mret (match r with Ret v => Some (s32 v) | _ => None end).

Definition pu_syscall_raw (n a b c : Z) : call := syscall3 n a b c.
Definition pu_getpid : call := syscall3 4 0 0 0.
Definition pu_yield : call := syscall3 5 0 0 0.
Definition pu_write (fd buf len : Z) : call := syscall3 2 fd buf len.
Definition pu_read (fd buf len : Z) : call := syscall3 3 fd buf len.
Definition pu_open (path flags : Z) : call := syscall3 6 path flags 0.
Definition pu_close (fd : Z) : call := syscall3 7 fd 0 0.
Definition pu_lseek (fd offset whence : Z) : call := syscall3 8 fd offset whence.
Definition pu_stat (path st : Z) : call := syscall3 9 path st 0.
Definition pu_access (path mode : Z) : call := syscall3 10 path mode 0.
Definition pu_chmod (path mode : Z) : call := syscall3 11 path mode 0.
Definition pu_chown (path uid gid : Z) : call := syscall3 12 path uid gid.
Definition pu_readdir (path entries max_entries : Z) : call := syscall3 13 path entries max_entries.
Definition pu_debug_setcred (uid gid : Z) : call := syscall3 14 uid gid 0.
Definition pu_lstat (path st : Z) : call := syscall3 16 path st 0.
Definition pu_readlink (path buf bufsize : Z) : call := syscall3 15 path buf bufsize.
Definition pu_mkdir (path : Z) : call := syscall3 17 path 0 0.
Definition pu_unlink (path : Z) : call := syscall3 18 path 0 0.
Definition pu_rmdir (path : Z) : call := syscall3 19 path 0 0.
Definition pu_rename (old_path new_path : Z) : call := syscall3 20 old_path new_path 0.
Definition pu_link (old_path new_path : Z) : call := syscall3 21 old_path new_path 0.
Definition pu_symlink (target path : Z) : call := syscall3 22 target path 0.
Definition O_TRUNC : Z := 0x200.
Definition pu_creat (path : Z) : call := pu_open path (Z.lor O_WRONLY (Z.lor O_CREAT O_TRUNC)).
End Stubs.

(** ** Texts *)

(** [s] with its NUL; a null pointer has length 0. *)
Definition pu_strlen (s : option (list Z)) : Z :=
  match s with None => 0 | Some s => Z.of_nat (length (cstr s)) end.

Definition pu_puts (s : list Z) : list (list Z) := [take (Z.to_nat (pu_strlen (Some (s ++ [0])))) s].

(** [while (value) { buf[i++] = '0' + value % 10; value /= 10; }]: the buffer from
    the last digit on; ten turns are enough for an int. *)
Fixpoint puti_digits (turns : nat) (value : Z) : list Z :=
  match turns with
  | O => []
  | S turns => if value =? 0 then [] else 48 + value mod 10 :: puti_digits turns (value / 10)
  end.

(** [None]: the negation of the smallest int is undefined. *)
Definition pu_puti (value : Z) : option (list (list Z)) :=
  if value =? 0 then Some (pu_puts (lit "0")) else
  if value =? - 2 ^ 31 then None else
  let '(minus, value) := if value <? 0 then (pu_puts (lit "-"), - value) else ([], value) in
  Some (minus ++ map (fun c => [c]) (rev (puti_digits 10 value))).

(** The loop of [pu_atoi]; a value outside of int is undefined. *)
Fixpoint atoi_loop (s : list Z) (value : Z) : option Z :=
  match s with
  | c :: s => if (48 <=? c) && (c <=? 57)
              then let v := value * 10 + (c - 48) in if v <? 2 ^ 31 then atoi_loop s v else None
              else Some value
  | [] => Some value
  end.
Definition pu_atoi (s : list Z) : option Z :=
  match s with
  | 45 :: s => (fun v => v * -1) <$> atoi_loop s 0
  | _ => atoi_loop s 0
  end.

(** ** Printing and reading *)

Lemma puti_digits_ok turns : forall v, Forall (fun c => 48 <= c <= 57) (puti_digits turns v).
Proof.
  induction turns as [|turns IH]; intros v; cbn; [constructor|]. destruct (v =? 0); constructor; [|done].
  pose proof (Z.mod_pos_bound v 10). lia.
Qed.

(** Reading the digits of [v] behind those of [a]. *)
Lemma atoi_digits turns : forall v a rest, 0 <= v < 10 ^ Z.of_nat turns -> 0 <= a ->
  (exists k, a * 10 ^ Z.of_nat k + v < 2 ^ 31 /\ length (puti_digits turns v) = k) ->
  atoi_loop (rev (puti_digits turns v) ++ rest) a =
  atoi_loop rest (a * 10 ^ Z.of_nat (length (puti_digits turns v)) + v).
Proof.
  induction turns as [|turns IH]; intros v a rest Hv Ha (k & Hk & El).
  - cbn. cbn in Hv. assert (v = 0) as -> by lia. f_equal. lia.
  - cbn [puti_digits] in *. destruct (Z.eqb_spec v 0) as [->|Hz]; [cbn; f_equal; lia|].
    cbn [rev length] in *. rewrite <-(assoc_L (++)). set (d := length (puti_digits turns (v / 10))) in *. subst k.
    rewrite Nat2Z.inj_succ, Z.pow_succ_r in * by lia.
    assert (0 <= v / 10 < 10 ^ Z.of_nat turns) as Hq by (split; [apply Z.div_pos; lia|apply Z.div_lt_upper_bound; lia]).
    pose proof (Z.div_mod v 10). pose proof (Z.mod_pos_bound v 10).
    assert (0 <= 10 ^ Z.of_nat d) by (apply Z.pow_nonneg; lia).
    rewrite IH; [|done|done|exists d; split; [nia|done]]. fold d. cbn [app atoi_loop].
    destruct (Z.leb_spec 48 (48 + v mod 10)), (Z.leb_spec (48 + v mod 10) 57); try lia. cbn [andb].
    replace ((a * 10 ^ Z.of_nat d + v / 10) * 10 + (48 + v mod 10 - 48)) with (a * (10 * 10 ^ Z.of_nat d) + v) by lia.
    by destruct (Z.ltb_spec (a * (10 * 10 ^ Z.of_nat d) + v) (2 ^ 31)); [|lia].
Qed.

Lemma concat_chars t : concat (map (fun c : Z => [c]) t) = t.
Proof. induction t as [|c t IH]; cbn; [done|]. by rewrite IH. Qed.

Lemma atoi_positive v : 0 < v < 2 ^ 31 -> atoi_loop (rev (puti_digits 10 v)) 0 = Some v.
Proof.
  intros Hv. rewrite <-(app_nil_r (rev _)), atoi_digits; [cbn [atoi_loop]; f_equal; lia|lia|done|].
  eexists. split; [|done]. lia.
Qed.

Lemma digits_head v : 0 < v -> exists c t, rev (puti_digits 10 v) = c :: t /\ c <> 45.
Proof.
  intros Hv. pose proof (puti_digits_ok 10 v) as Hd. apply Forall_rev in Hd. rewrite rev_alt in Hd. rewrite <-rev_alt in Hd.
  destruct (rev (puti_digits 10 v)) as [|c t] eqn:E.
  - apply (f_equal length) in E. rewrite length_rev in E. cbn [puti_digits] in E. destruct (Z.eqb_spec v 0); [lia|done].
  - exists c, t. split; [done|]. apply Forall_cons in Hd as [Hd _]. lia.
Qed.

(** Numbers survive printing: for every int except the smallest, what
    [pu_puti] writes, one call after the other, is a text that [pu_atoi] reads back
    as the same number. *)
Theorem puti_atoi v : - 2 ^ 31 < v < 2 ^ 31 ->
  exists calls, pu_puti v = Some calls /\ pu_atoi (concat calls) = Some v.
Proof.
  intros Hv. unfold pu_puti. destruct (Z.eqb_spec v 0) as [->|Hz]; [by eexists|]. destruct (Z.eqb_spec v (- 2 ^ 31)); [lia|].
  destruct (Z.ltb_spec v 0) as [Hn|Hn]; eexists; (split; [done|]); rewrite concat_app, concat_chars.
  - change (concat (pu_puts (lit "-"))) with [45]. cbn [app pu_atoi]. rewrite atoi_positive by lia. cbn. f_equal. lia.
  - cbn [concat app]. destruct (digits_head v ltac:(lia)) as (c & t & E & Hc). unfold pu_atoi. rewrite <-(atoi_positive v) by lia. rewrite E.
    destruct c as [|p|p]; [done| |done]. do 6 (try (destruct p as [p|p|]; try done)).
Qed.

Lemma puti_atoi_witness : exists calls, pu_puti (-2147483647) = Some calls /\ pu_atoi (concat calls) = Some (-2147483647).
Proof. apply (puti_atoi (-2147483647)). lia. Defined.
