(* ===== verification/SyscallFd.v ===== *)
(** * Open files

    What the system calls on an open descriptor promise, proved against the
    laws of the [Kernel] class.  A descriptor stands for a byte string and a
    position; SYS_WRITE, SYS_READ and SYS_LSEEK work on it as on such a file,
    and SYS_CLOSE hands exactly the bytes written to the file system. *)

From stdpp Require Import strings.
From S2P Require Import Prelude Machine VfsTypes Vfs Keyboard Task Syscall.

(** The parts of the kernel keep to themselves: heap, terminal, keyboard and
    program memory do not change the scheduler's state, and a store is read
    back.  [k_frame] relates machine states that are the same to a file system:
    the same disks and, as long as the current task's credentials stay, the
    same user. *)
Class KernelOk (D : Type) `{Kernel D} := {
  k_frame : D -> D -> Prop;
  kf_preorder :: PreOrder k_frame;
  kf_set sch d : current_uid sch = current_uid (k_sched d) -> current_gid sch = current_gid (k_sched d) ->
    k_frame d (k_set_sched sch d);
  kf_malloc n d : k_frame d (k_malloc n d).2;
  kf_free p d : k_frame d (k_free p d).2;
  kf_store a b d : k_frame d (k_store a b d);
  kf_putchar c d : k_frame d (k_putchar c d).2;
  ks_set sch d : k_sched (k_set_sched sch d) = sch;
  ks_malloc n d : k_sched (k_malloc n d).2 = k_sched d;
  ks_free p d : k_sched (k_free p d).2 = k_sched d;
  ks_putchar c d : k_sched (k_putchar c d).2 = k_sched d;
  ks_keys keys d : k_sched (k_set_keys keys d) = k_sched d;
  ks_store a b d : k_sched (k_store a b d) = k_sched d;
  kb_length d a n : length (k_bytes d a n) = Z.to_nat n;
  kb_bytes d a n : bytes_ok (k_bytes d a n);
  kb_set sch d a n : k_bytes (k_set_sched sch d) a n = k_bytes d a n;
  kb_malloc n d a m : k_bytes (k_malloc n d).2 a m = k_bytes d a m;
  kb_free p d a m : k_bytes (k_free p d).2 a m = k_bytes d a m;
  kb_store a b d : bytes_ok b -> k_bytes (k_store a b d) a (Z.of_nat (length b)) = b;
  kt_set sch d a : k_string (k_set_sched sch d) a = k_string d a;
  kt_malloc n d a : k_string (k_malloc n d).2 a = k_string d a;
  kt_free p d a : k_string (k_free p d).2 a = k_string d a;
}.

(** ** Files *)

(** A file open for reading or for writing. *)
Record ofile := mk_ofile { of_write : bool; of_path : list Z; of_bytes : list Z; of_pos : Z }.

(** Writing [data] at [pos], with zeros in a gap behind the end. *)
Definition overwrite (c : list Z) (pos : Z) (data : list Z) : list Z :=
  take (Z.to_nat pos) c ++ replicate (Z.to_nat pos - length c) 0 ++ data ++ drop (Z.to_nat pos + length data) c.

Inductive fop := FWrite (addr len : Z) | FRead (addr len : Z) | FSeek (offset whence : Z).

Definition do_fop {D} `{Kernel D} (fd : Z) (op : fop) : state (vfs D) sysret :=
  match op with
  | FWrite a n => sys_write fd a n
  | FRead a n => sys_read fd a n
  | FSeek off whence => sys_lseek fd (u32 off) whence
  end.

(** Where a seek starts. *)
Definition seek_base (whence : Z) (a : ofile) : option Z :=
  if whence =? SEEK_SET then Some 0
  else if whence =? SEEK_CUR then Some (of_pos a)
  else if whence =? SEEK_END then Some (Z.of_nat (length (of_bytes a)))
  else None.

(** The calls a program makes on such a file: buffers are not NULL, and
    positions stay below 2 GiB. *)
Definition fop_ok (op : fop) (a : ofile) : Prop :=
  match op with
  | FWrite addr n => of_write a = true /\ addr <> 0 /\ 0 <= n /\ of_pos a + n < 2 ^ 31
  | FRead addr n => of_write a = false /\ addr <> 0 /\ 0 <= n < 2 ^ 32
  | FSeek off whence => - 2 ^ 31 <= off < 2 ^ 31 /\ 0 <= whence < 2 ^ 31 /\
      match seek_base whence a with Some b => - 2 ^ 31 <= b + off < 2 ^ 31 | None => True end
  end.

(** What a call does: [d] and [d'] are the machine before and after it. *)
Definition file_step {D} `{Kernel D} (op : fop) (a : ofile) (d : D) (r : sysret) (a' : ofile) (d' : D) : Prop :=
  match op with
  | FWrite addr n =>
      (r = Ret n /\ a' = mk_ofile true (of_path a) (if n =? 0 then of_bytes a else overwrite (of_bytes a) (of_pos a) (k_bytes d addr n))
                           (of_pos a + n)) \/
      (r = Ret (u32 (- ENOSPC)) /\ a' = a /\ (k_malloc (of_pos a + n) d).1 = None)
  | FRead addr n =>
      let got := sub (of_bytes a) (of_pos a) n in
      let m := Z.of_nat (length got) in
      r = Ret m /\ a' = mk_ofile false (of_path a) (of_bytes a) (of_pos a + m) /\ k_bytes d' addr m = got
  | FSeek off whence =>
      match seek_base whence a with
      | Some b => if b + off <? 0 then r = Ret (u32 (- EINVAL)) /\ a' = a
                  else r = Ret (b + off) /\ a' = mk_ofile (of_write a) (of_path a) (of_bytes a) (b + off)
      | None => r = Ret (u32 (- EINVAL)) /\ a' = a
      end
  end.

(** ** Descriptors *)

Record fd_rep (f : fd_entry) (a : ofile) : Prop := {
  fr_used : fd_used f = true;
  fr_flags : negb (Z.land (fd_flags f) O_WRONLY =? 0) = of_write a;
  fr_path : fd_path f = of_path a;
  fr_size : fd_size f = Z.of_nat (length (of_bytes a));
  fr_pos : fd_offset f = of_pos a;
  fr_data : match fd_data f with
            | Some (_, b) => sub b 0 (fd_size f) = of_bytes a
            | None => of_bytes a = [] /\ of_write a = true
            end;
}.

Record file_ok (a : ofile) : Prop := {
  fo_len : Z.of_nat (length (of_bytes a)) < 2 ^ 31;
  fo_pos : 0 <= of_pos a < 2 ^ 31;
  fo_bytes : bytes_ok (of_bytes a);
}.

(** The current task has the entry [f] in slot [fd]. *)
Definition fd_here {D} `{Kernel D} (fd : Z) (f : fd_entry) (s : vfs D) : Prop :=
  exists c t, current (k_sched (v_drv s)) = Some c /\ tasks (k_sched (v_drv s)) !! c = Some t /\
    t_fds t !! Z.to_nat fd = Some f.

(** In [s] the current task has the file [a] open as [fd]. *)
Definition open_file {D} `{Kernel D} (fd : Z) (a : ofile) (s : vfs D) : Prop :=
  3 <= fd < 16 /\ file_ok a /\ exists f, fd_here fd f s /\ fd_rep f a.

(** Nothing but slot [fd] of the current task has changed in the tables. *)
Record others_kept {D} `{KernelOk D} (fd : Z) (s s' : vfs D) : Prop := {
  ok_frame : k_frame (v_drv s) (v_drv s');
  ok_mounts : mount_table s' = mount_table s;
  ok_current : current (k_sched (v_drv s')) = current (k_sched (v_drv s));
  ok_tasks c t : tasks (k_sched (v_drv s)) !! c = Some t -> exists t', tasks (k_sched (v_drv s')) !! c = Some t' /\
    t_uid t' = t_uid t /\ t_gid t' = t_gid t /\ length (t_fds t') = length (t_fds t) /\
    (current (k_sched (v_drv s)) <> Some c -> t' = t) /\
    forall i, i <> Z.to_nat fd -> t_fds t' !! i = t_fds t !! i;
}.

(** The program's memory is the same. *)
Definition mem_kept {D} `{Kernel D} (d d' : D) : Prop :=
  (forall a n, k_bytes d' a n = k_bytes d a n) /\ (forall a, k_string d' a = k_string d a).

#[global] Instance mem_kept_preorder {D} `{Kernel D} : PreOrder (mem_kept (D := D)).
Proof. split; [done|]. intros d1 d2 d3 [A1 A2] [B1 B2]. split; intros; congruence. Qed.

Section Descriptors.
Context {D : Type} `{KernelOk D}.
Abbreviation V := (vfs D).
Implicit Types (s : V) (d : D).

#[local] Instance others_kept_preorder fd : PreOrder (others_kept (D := D) fd).
Proof.
  split.
  - intros s. split; [done|done|done|]. intros c t E. exists t. done.
  - intros s1 s2 s3 [A0 A1 A2 A3] [B0 B1 B2 B3]. split; [by etrans|congruence|congruence|]. intros c t E.
    destruct (A3 c t E) as (t' & E' & U1 & G1 & S1 & N1 & F1). destruct (B3 c t' E') as (t2 & E2 & U2 & G2 & S2 & N2 & F2).
    exists t2. split_and!; [done|congruence..| |].
    + intros Hne. rewrite N2 by congruence. by apply N1.
    + intros i Hi. rewrite F2, F1; done.
Qed.

(** Only the machine below the scheduler changes. *)
Lemma quiet_d_kept fd s d : k_frame (v_drv s) d -> k_sched d = k_sched (v_drv s) ->
  others_kept fd s (mk_vfs (mount_table s) (last_error s) d).
Proof. intros F E. split; cbn; rewrite ?E; [done|done|done|]. intros c t Et. exists t. done. Qed.

Lemma fd_here_quiet fd f s d : fd_here fd f s -> k_sched d = k_sched (v_drv s) ->
  fd_here fd f (mk_vfs (mount_table s) (last_error s) d).
Proof. intros (c & t & E) Hd. exists c, t. cbn. by rewrite Hd. Qed.

Lemma run_lift_d {A} (m : state D A) s Q :
  Q (m (v_drv s)).1 (mk_vfs (mount_table s) (last_error s) (m (v_drv s)).2) -> run (lift_d m) s Q.
Proof. intros HQ. unfold run, lift_d. by destruct (m (v_drv s)). Qed.

Lemma with_fd_run fd f k s Q : fd_here fd f s -> run (k f) s Q -> run (with_fd fd k) s Q.
Proof.
  intros (c & t & Ec & Et & Ef) HQ. unfold with_fd, with_d. apply run_bind, run_get.
  unfold get_fd, task_of. rewrite Ec. cbn [mbind option_bind]. rewrite Et. cbn [mbind option_bind]. by rewrite Ef.
Qed.

Lemma set_fd_run fd f f0 s : fd_here fd f0 s ->
  run (set_fd fd f) s (fun _ s' => fd_here fd f s' /\ others_kept fd s s' /\
    mem_kept (v_drv s) (v_drv s')).
Proof.
  intros (c & t & Ec & Et & Ef). unfold set_fd, on_d. apply run_modify. rewrite Ec.
  set (g := fun t => set_fds (<[Z.to_nat fd := f]> (t_fds t)) t). split_and!.
  - exists c, (g t). cbn. rewrite ks_set. cbn. rewrite lookup_alter_eq, Et. split_and!; [done|done|].
    cbn. apply list_lookup_insert_eq. by eapply lookup_lt_Some.
  - split; cbn; rewrite ?ks_set; cbn; [|done|done|].
    { apply kf_set; unfold current_uid, current_gid, task_of; cbn; rewrite Ec; cbn; by rewrite lookup_alter_eq, Et. }
    intros c' t' Et'. destruct (decide (c = c')) as [<-|Hne].
    + rewrite Et in Et'. injection Et' as <-. exists (g t). rewrite lookup_alter_eq, Et.
      split_and!; [done|done|done|by cbn; rewrite length_insert|by intros []|]. intros i Hi. cbn. by apply list_lookup_insert_ne.
    + exists t'. rewrite lookup_alter_ne by done. done.
  - split; intros; cbn; [apply kb_set|apply kt_set].
Qed.

(** ** Contents *)

Lemma overwrite_inside c pos (data : list Z) : 0 <= pos -> pos + Z.of_nat (length data) <= Z.of_nat (length c) ->
  overwrite c pos data = put c pos data.
Proof.
  intros Hp Hl. unfold overwrite, put, splice. replace (Z.to_nat pos - length c)%nat with 0%nat by lia.
  cbn [replicate app]. do 2 f_equal. rewrite take_ge by lia. done.
Qed.

Lemma overwrite_grow c pos (data : list Z) : 0 <= pos -> Z.of_nat (length c) < pos + Z.of_nat (length data) ->
  overwrite c pos data = put (put (zeros (pos + Z.of_nat (length data))) 0 c) pos data.
Proof.
  intros Hp Hl. apply list_eq. intros j. unfold put, overwrite.
  rewrite !splice_lookup, !length_splice, length_zeros.
  destruct (decide (Z.to_nat pos <= j < Z.to_nat pos + length data)%nat) as [Hj|Hj].
  - rewrite decide_True by lia. rewrite lookup_app_r by (rewrite length_take; lia). rewrite lookup_app_r by (rewrite length_take, length_replicate; lia).
    rewrite lookup_app_l by (rewrite length_take, length_replicate; lia). f_equal. rewrite length_take, length_replicate. lia.
  - rewrite decide_False by lia. destruct (decide (j < Z.to_nat pos)%nat) as [Hlt|Hge].
    + destruct (decide (j < length c)%nat) as [Hc|Hc].
      * rewrite decide_True by lia. rewrite lookup_app_l by (rewrite length_take; lia). rewrite lookup_take_lt by lia. f_equal. lia.
      * rewrite decide_False by lia. rewrite lookup_app_r by (rewrite length_take; lia).
        rewrite lookup_app_l by (rewrite length_take, length_replicate; lia). unfold zeros.
        rewrite !lookup_replicate_2 by (rewrite ?length_take; lia). done.
    + rewrite decide_False by lia. rewrite !lookup_ge_None_2; [done|rewrite length_zeros; lia|].
      rewrite !length_app, length_take, length_replicate, length_drop. lia.
Qed.

(** ** The calls *)

Lemma fd_register fd : 3 <= fd < 16 -> s32 fd = fd /\ bad_fd fd = false /\ (fd =? 0) = false /\ ((fd =? 1) || (fd =? 2)) = false.
Proof.
  intros Hfd. split_and!.
  - apply s32_small. lia.
  - unfold bad_fd. apply orb_false_iff. change (Z.of_nat MAX_OPEN_FILES) with 16. split; [apply Z.ltb_ge|apply Z.leb_gt]; lia.
  - apply Z.eqb_neq. lia.
  - apply orb_false_iff. split; apply Z.eqb_neq; lia.
Qed.

(** Making room keeps the file and leaves a buffer that holds the new end. *)
Lemma grow_fd_run fd f a n s : fd_here fd f s -> fd_rep f a -> file_ok a -> of_write a = true -> 0 < n -> of_pos a + n < 2 ^ 31 ->
  let ne := of_pos a + n in
  run (grow_fd fd ne f) s (fun r s' => others_kept fd s s' /\ mem_kept (v_drv s) (v_drv s') /\
    ((r = None /\ fd_here fd f s' /\ (k_malloc ne (v_drv s)).1 = None) \/
     exists f' p b, r = Some f' /\ fd_here fd f' s' /\ fd_data f' = Some (p, b) /\ ne <= Z.of_nat (length b) /\
       fd_size f' = Z.max (Z.of_nat (length (of_bytes a))) ne /\ fd_size f' <= Z.of_nat (length b) /\ fd_offset f' = of_pos a /\ fd_used f' = true /\ fd_flags f' = fd_flags f /\ fd_path f' = fd_path f /\
       sub b 0 (fd_size f') = (if Z.of_nat (length (of_bytes a)) <? ne then put (zeros ne) 0 (of_bytes a) else of_bytes a))).
Proof.
  intros Hh R [Hlen Hpos Hby] Hw Hn Hne ne. pose proof R as [R1 R2 R3 R4 R5 R6]. unfold grow_fd. rewrite R4.
  destruct (Z.ltb_spec (Z.of_nat (length (of_bytes a))) ne) as [Hlt|Hge].
  - apply run_bind, run_lift_d. destruct (k_malloc ne (v_drv s)).1 as [p|] eqn:Em.
    2: { apply run_ret. split_and!; [by (apply quiet_d_kept; [apply kf_malloc|apply ks_malloc])|split; intros; [apply kb_malloc|apply kt_malloc]|]. left.
         split_and!; [done|by apply fd_here_quiet, ks_malloc|done]. }
    set (s1 := mk_vfs _ _ _). assert (others_kept fd s s1) as K1 by (apply quiet_d_kept; [apply kf_malloc|apply ks_malloc]).
    assert (fd_here fd f s1) as H1 by (apply fd_here_quiet; [done|apply ks_malloc]).
    apply run_bind, run_lift_d. set (s2 := mk_vfs _ _ _).
    assert (others_kept fd s1 s2) as K2 by (apply quiet_d_kept; [apply kf_free|apply ks_free]).
    assert (fd_here fd f s2) as H2 by (apply (fd_here_quiet fd f s1); [done|apply ks_free]).
    run_step set_fd_run as (H3 & K3 & B3); [exact H2|]. apply run_ret. split_and!; [by do 2 (etrans; [done|])| |].
    { etrans; [|exact B3]. split; intros; cbn; [by rewrite kb_free, kb_malloc|by rewrite kt_free, kt_malloc]. }
    right. eexists _, p, _. split_and!; [done|exact H3|done| | | | |done|done|done|]; cbn [fd_with fd_size fd_offset].
    + rewrite length_put, length_zeros. lia.
    + lia.
    + rewrite length_put, length_zeros. lia.
    + done.
    + assert (match fd_data f with Some (_, b) => sub b 0 (Z.of_nat (length (of_bytes a))) | None => [] end = of_bytes a) as ->.
      { rewrite R4 in R6. destruct (fd_data f) as [[? b]|]; [done|by destruct R6]. }
      unfold sub. rewrite drop_0, take_ge; [done|]. rewrite length_put, length_zeros. lia.
  - apply run_ret. split_and!; [done|done|right]. destruct (fd_data f) as [[p b]|] eqn:Ed.
    + exists f, p, b. assert (of_bytes a = sub b 0 (fd_size f)) as E by done.
      assert (fd_size f <= Z.of_nat (length b)) as Hb.
      { rewrite E in R4. unfold sub in R4. rewrite drop_0, length_take in R4. lia. }
      split_and!; try done; lia.
    + destruct R6 as [E _]. rewrite E in Hge. cbn in Hge. lia.
Qed.

(** Storing into the buffer, seen through the size. *)
Lemma sub_put_size b size pos (data : list Z) : 0 <= pos -> pos + Z.of_nat (length data) <= size -> size <= Z.of_nat (length b) ->
  sub (put b pos data) 0 size = put (sub b 0 size) pos data.
Proof.
  intros Hp Hs Hb. unfold sub. rewrite !drop_0. unfold put. apply list_eq. intros j.
  destruct (decide (j < Z.to_nat size)%nat) as [Hj|Hj].
  - rewrite lookup_take_lt by done. rewrite !splice_lookup, length_take.
    destruct (decide (Z.to_nat pos <= j < Z.to_nat pos + length data /\ j < length b)%nat).
    + rewrite decide_True by lia. done.
    + rewrite decide_False by lia. by rewrite lookup_take_lt.
  - rewrite !lookup_ge_None_2; [done|rewrite length_splice, length_take; lia|rewrite length_take; lia].
Qed.

Lemma sys_write_run fd a addr n s : open_file fd a s -> fop_ok (FWrite addr n) a ->
  run (sys_write fd addr n) s (fun r s' => exists a', open_file fd a' s' /\ others_kept fd s s' /\ mem_kept (v_drv s) (v_drv s') /\
    file_step (FWrite addr n) a (v_drv s) r a' (v_drv s')).
Proof.
  intros (Hfd & Ho & f & Hh & R) (Hw & Ha & Hn & Hend). pose proof (fd_register fd Hfd) as (E1 & E2 & _ & E3).
  pose proof R as [R1 R2 R3 R4 R5 R6]. pose proof Ho as [Hlen Hpos Hby].
  unfold sys_write. rewrite E1, E3, E2. eapply with_fd_run; [exact Hh|]. rewrite R1. rewrite Hw in R2.
  apply negb_true_iff in R2. rewrite R2. cbn [negb orb]. rewrite (proj2 (Z.eqb_neq addr 0)) by done.
  destruct (Z.eqb_spec n 0) as [->|Hn0].
  { apply run_ret. exists a. split; [by split_and!; [lia|lia|done|eauto]|split; [done|split; [done|]]]. left. cbn. rewrite Z.add_0_r.
    split; [done|]. destruct a. cbn in *. by subst. }
  rewrite R5. rewrite u32_small by (unfold is_u32; lia).
  run_step grow_fd_run as (K1 & B1 & Hg); [exact Hh|exact R|done|done|lia|done|].
  destruct Hg as [(-> & H1 & Em)|(f' & p & b & -> & H1 & Ed & Hb1 & Hsz & Hb2 & Eo & Eu & Ef & Ep & Es)].
  { apply run_ret. exists a. split; [by split_and!; [lia|lia|done|eauto]|split; [done|split; [done|]]]. by right. }
  rewrite Ed, Eo. rewrite (proj2 (Z.leb_le _ _)) by done. unfold with_d. apply run_bind, run_get.
  rewrite u32_small by (unfold is_u32; lia).
  run_step set_fd_run as (H2 & K2 & B2); [exact H1|]. apply run_ret.
  set (data := k_bytes (v_drv s') addr n) in *.
  assert (data = k_bytes (v_drv s) addr n) as Edata by apply B1.
  assert (length data = Z.to_nat n) as Hld by apply kb_length. assert (bytes_ok data) as Hbd by apply kb_bytes.
  assert (Z.of_nat (length (sub b 0 (fd_size f'))) = fd_size f') as Hls by (unfold sub; rewrite drop_0, length_take; lia).
  assert (bytes_ok (sub b 0 (fd_size f'))) as Hbs by (rewrite Es; case_match; auto with machine).
  assert (overwrite (of_bytes a) (of_pos a) data = put (sub b 0 (fd_size f')) (of_pos a) data) as Eov.
  { rewrite Es. destruct (Z.ltb_spec (Z.of_nat (length (of_bytes a))) (of_pos a + n)).
    - rewrite overwrite_grow by lia. by replace (Z.of_nat (length data)) with n by lia.
    - apply overwrite_inside; lia. }
  exists (mk_ofile true (of_path a) (overwrite (of_bytes a) (of_pos a) data) (of_pos a + n)). split; [split_and!; [lia|lia| |]|split; [by etrans|split; [by etrans|]]].
  - split; cbn [of_bytes of_pos]; [rewrite Eov, length_put; lia|lia|]. rewrite Eov. by apply put_ok.
  - eexists. split; [exact H2|]. split; cbn [fd_with fd_used fd_flags fd_path fd_size fd_offset fd_data of_write of_path of_bytes of_pos]; try done.
    + rewrite Ef. by rewrite R2.
    + by rewrite Ep.
    + rewrite Eov, length_put. lia.
    + rewrite Eov. apply sub_put_size; lia.
  - left. cbn. split; [by rewrite u32_small by (unfold is_u32; lia)|]. rewrite (proj2 (Z.eqb_neq n 0)) by done. by rewrite <- Edata.
Qed.

Lemma sub_prefix (b : list Z) size pos n m : 0 <= pos -> pos + m <= size -> m <= n -> (m = n \/ pos + m = size) ->
  0 <= m -> size <= Z.of_nat (length b) -> sub b pos m = sub (sub b 0 size) pos n.
Proof.
  intros Hp Hs Hm Hc H0' Hb. unfold sub. rewrite drop_0. apply list_eq. intros j.
  destruct (decide (j < Z.to_nat m)%nat) as [Hj|Hj].
  - rewrite !lookup_take_lt, !lookup_drop, lookup_take_lt by lia. done.
  - rewrite !lookup_ge_None_2; [done| |]; rewrite ?length_take, ?length_drop, ?length_take; lia.
Qed.

Lemma length_sub_min (c : list Z) pos n : 0 <= pos -> 0 <= n ->
  Z.of_nat (length (sub c pos n)) = Z.max 0 (Z.min n (Z.of_nat (length c) - pos)).
Proof. intros Hp Hn. unfold sub. rewrite length_take, length_drop. lia. Qed.

Lemma kb_nil d a : k_bytes d a 0 = [].
Proof. apply nil_length_inv. by rewrite kb_length. Qed.

(** A call that leaves the file where it is. *)
Lemma open_file_intro fd f a s : 3 <= fd < 16 -> file_ok a -> fd_here fd f s -> fd_rep f a -> open_file fd a s.
Proof. intros. split_and!; try lia; eauto. Qed.

Lemma sys_read_run fd a addr n s : open_file fd a s -> fop_ok (FRead addr n) a ->
  run (sys_read fd addr n) s (fun r s' => exists a', open_file fd a' s' /\ others_kept fd s s' /\
    file_step (FRead addr n) a (v_drv s) r a' (v_drv s')).
Proof.
  intros (Hfd & Ho & f & Hh & R) (Hw & Ha & Hn). pose proof (fd_register fd Hfd) as (E1 & E2 & E3 & _).
  pose proof R as [R1 R2 R3 R4 R5 R6]. pose proof Ho as [Hlen Hpos Hby].
  unfold sys_read. rewrite E1, E3, E2. unfold with_d at 1. apply run_bind, run_get.
  pose proof Hh as (c & t & Ec & _). unfold task_current. rewrite bool_decide_eq_false_2 by congruence.
  eapply with_fd_run; [exact Hh|]. destruct (fd_data f) as [[p b]|] eqn:Ed; [|destruct R6; congruence].
  rewrite R1. cbn [negb]. rewrite (proj2 (Z.eqb_neq addr 0)) by done. rewrite R4, R5 in *.
  pose proof (length_sub_min (of_bytes a) (of_pos a) n ltac:(lia) ltac:(lia)) as Hm.
  assert (forall x, 0 = Z.of_nat (length (sub (of_bytes a) (of_pos a) n)) -> x = Ret (u32 0) ->
    run (mret x) s (fun r s' => exists a', open_file fd a' s' /\ others_kept fd s s' /\
      file_step (FRead addr n) a (v_drv s) r a' (v_drv s'))) as Hnone.
  { intros x E ->. apply run_ret. exists a. split_and!; [by eapply open_file_intro|done|]. cbn. rewrite <- E, Z.add_0_r, kb_nil.
    split_and!; [done|destruct a; cbn in *; by subst|]. symmetry. apply nil_length_inv. lia. }
  destruct (Z.eqb_spec n 0) as [->|Hn0]; [apply Hnone; [lia|done]|].
  destruct (Z.leb_spec (Z.of_nat (length (of_bytes a))) (of_pos a)) as [Hge|Hlt]; [apply Hnone; [lia|done]|].
  set (m := if n <? _ then n else _). assert (m = Z.of_nat (length (sub (of_bytes a) (of_pos a) n))) as Em.
  { unfold m. destruct (Z.ltb_spec n (Z.of_nat (length (of_bytes a)) - of_pos a)); lia. }
  assert (Z.of_nat (length (of_bytes a)) <= Z.of_nat (length b)) as Hb.
  { rewrite <- R6 at 1. unfold sub. rewrite drop_0, length_take. lia. }
  assert (sub b (of_pos a) m = sub (of_bytes a) (of_pos a) n) as Eg.
  { transitivity (sub (sub b 0 (Z.of_nat (length (of_bytes a)))) (of_pos a) n); [apply sub_prefix; lia|by rewrite R6]. }
  rewrite Eg. set (got := sub (of_bytes a) (of_pos a) n) in *.
  apply run_bind. unfold on_d at 1. apply run_modify. set (s1 := mk_vfs _ _ _).
  assert (fd_here fd f s1) as H1 by (apply fd_here_quiet; [done|apply ks_store]).
  assert (others_kept fd s s1) as K1 by (apply quiet_d_kept; [apply kf_store|apply ks_store]).
  run_step set_fd_run as (H2 & K2 & B2); [exact H1|]. apply run_ret.
  exists (mk_ofile false (of_path a) (of_bytes a) (of_pos a + m)). split; [|split; [by etrans|]].
  - eapply open_file_intro; [lia| |exact H2|].
    + split; cbn; [lia|lia|done].
    + rewrite Hw in R2. split; try done. cbn. by rewrite u32_small by (unfold is_u32; lia).
  - cbn. rewrite Em. split_and!; [by rewrite u32_small by (unfold is_u32; lia)|done|].
    rewrite (proj1 B2). cbn. apply kb_store. unfold got. by apply sub_ok.
Qed.

Lemma sys_lseek_run fd a off whence s : open_file fd a s -> fop_ok (FSeek off whence) a ->
  run (sys_lseek fd (u32 off) whence) s (fun r s' => exists a', open_file fd a' s' /\ others_kept fd s s' /\
    file_step (FSeek off whence) a (v_drv s) r a' (v_drv s')).
Proof.
  intros (Hfd & Ho & f & Hh & R) (Hoff & Hwh & Hb). pose proof (fd_register fd Hfd) as (E1 & E2 & _ & _).
  pose proof R as [R1 R2 R3 R4 R5 R6]. pose proof Ho as [Hlen Hpos Hby].
  assert (s32 (u32 off) = off) as Eo by (unfold s32; rewrite u32_idemp; by apply s32_small).
  assert (s32 whence = whence) as Ew by (apply s32_small; lia).
  unfold sys_lseek. rewrite E1, E2. eapply with_fd_run; [exact Hh|]. rewrite R1, Eo, Ew. cbn [negb].
  assert (seek_to whence off f = Some ((fun b => b + off) <$> seek_base whence a)) as ->.
  { unfold seek_to, seek_base in *. rewrite R4, R5, !s32_small by lia.
    destruct (whence =? SEEK_SET); [done|]. destruct (whence =? SEEK_CUR); [|destruct (whence =? SEEK_END); [|done]];
      rewrite (proj2 (Z.leb_le _ _)), (proj2 (Z.ltb_lt _ _)) by lia; done. }
  destruct (seek_base whence a) as [b|] eqn:Eb; cbn [fmap option_fmap option_map].
  2: { apply run_ret. exists a. cbn. rewrite Eb. split_and!; [by eapply open_file_intro|done|done|done]. }
  destruct (Z.ltb_spec (b + off) 0) as [Hneg|Hpos'].
  { apply run_ret. exists a. cbn. rewrite Eb, (proj2 (Z.ltb_lt _ _)) by done. split_and!; [by eapply open_file_intro|done|done|done]. }
  run_step set_fd_run as (H2 & K2 & B2); [exact Hh|]. apply run_ret.
  exists (mk_ofile (of_write a) (of_path a) (of_bytes a) (b + off)). split; [|split; [done|]].
  - eapply open_file_intro; [lia| |exact H2|by split]. split; cbn; [lia|lia|done].
  - cbn. rewrite Eb, (proj2 (Z.ltb_ge _ _)) by done. by rewrite u32_small by (unfold is_u32; lia).
Qed.
End Descriptors.

