(* ===== verification/SyscallFiles.v ===== *)
(** * Programs that save and load files

    A program opens a file for writing, writes it in pieces, closes it, opens
    it again and reads it.  [file_store] is what the VFS and the file system
    below must promise for the file's path; against this interface the system
    calls are shown never to lose data silently: either some call reports an
    error, or the bytes read are the bytes written. *)

From stdpp Require Import strings.
From S2P Require Import Prelude Machine VfsTypes Vfs Keyboard Task Syscall SyscallFd.

Section Files.
Context {D : Type} `{KernelOk D}.
Abbreviation V := (vfs D).
Abbreviation sys := (state V sysret).
Implicit Types (s : V) (d : D).

(** ** The program *)

(** Stop at the first call that fails; error numbers are above 2^31. *)
Definition call {B} (m : sys) (k : Z -> state V (B + sysret)) : state V (B + sysret) :=
  r ← m;
  match r with
  | Ret v => if v <? 2 ^ 31 then k v else mret (inr r)
  | _ => mret (inr r)
  end.

Fixpoint write_all {B} (fd : Z) (chunks : list (Z * Z)) (k : state V (B + sysret)) : state V (B + sysret) :=
  match chunks with
  | [] => k
  | (a, n) :: chunks => call (sys_write fd a n) (fun _ => write_all fd chunks k)
  end.

Definition save_load (path : Z) (chunks : list (Z * Z)) (buf n : Z) : state V (list Z + sysret) :=
  call (sys_open path O_WRONLY) (fun fd =>
  write_all fd chunks (
  call (sys_close fd) (fun _ =>
  call (sys_open path 0) (fun fd =>
  call (sys_read fd buf n) (fun m =>
  with_d (fun d => mret (inl (k_bytes d buf m)))))))).

(** What the pieces hold. *)
Definition chunk_data d (chunks : list (Z * Z)) : list Z := concat ((fun '(a, n) => k_bytes d a n) <$> chunks).

(** ** What the file system promises *)

(** The task tables and the program's memory are not the file system's. *)
Definition calm d d' : Prop := k_sched d' = k_sched d /\ mem_kept d d'.

Definition neg_err (rc : Z) : Prop := - 2 ^ 31 <= rc < 0.

Lemma neg_err_u32 rc : neg_err rc -> 2 ^ 31 <= u32 rc.
Proof.
  unfold neg_err, u32. intros Hn. replace rc with (rc + 2 ^ 32 + (-1) * 2 ^ 32) by lia. rewrite Z.mod_add, Z.mod_small by lia. lia.
Qed.

(** [Before] holds of the states in which the caller may write the file at
    [path], [Holds c] of those in which it holds [c] and may be read; [limit] is
    the size up to which files can be read. *)
Record file_store (path : list Z) (limit : Z) (Before : V -> Prop) (Holds : list Z -> V -> Prop) : Prop := {
  fs_before_frame s s' : Before s -> mount_table s' = mount_table s -> k_frame (v_drv s) (v_drv s') -> Before s';
  fs_holds_frame c s s' : Holds c s -> mount_table s' = mount_table s -> k_frame (v_drv s) (v_drv s') -> Holds c s';
  fs_before_mounted s : Before s -> mount_table s <> [];
  fs_holds_mounted c s : Holds c s -> mount_table s <> [];
  fs_before_stat s : Before s -> run (vfs_stat_path sys_uid sys_gid path) s (fun r s' =>
    Before s' /\ calm (v_drv s) (v_drv s') /\
    exists st, r = Done st /\ st_type st = VFS_FILE /\ vfs_access st (sys_uid (v_drv s)) (sys_gid (v_drv s)) W_OK = true);
  fs_holds_stat c s : Holds c s -> run (vfs_stat_path sys_uid sys_gid path) s (fun r s' =>
    Holds c s' /\ calm (v_drv s) (v_drv s') /\
    exists st, r = Done st /\ st_type st = VFS_FILE /\ vfs_access st (sys_uid (v_drv s)) (sys_gid (v_drv s)) R_OK = true);
  fs_write data s : Before s -> bytes_ok data -> Z.of_nat (length data) < 2 ^ 31 -> Z.of_nat (length data) <= limit ->
    run (vfs_write_file sys_uid sys_gid path data 0) s (fun r s' => calm (v_drv s) (v_drv s') /\
      ((r = Done tt /\ Holds data s') \/ exists rc, r = Err rc /\ neg_err rc));
  fs_read c s : Holds c s -> run (vfs_read_file sys_uid sys_gid path) s (fun r s' => calm (v_drv s) (v_drv s') /\
      ((exists p, r = Done (p, c ++ [0], Z.of_nat (length c))) \/ exists rc, r = Err rc /\ neg_err rc));
}.

(** A state in which slot [fd] is the first free descriptor of the current task. *)
Definition has_free_fd (fd : Z) s : Prop :=
  exists c t, current (k_sched (v_drv s)) = Some c /\ tasks (k_sched (v_drv s)) !! c = Some t /\
    length (t_fds t) = 16%nat /\ free_fd (t_fds t) 0 = Some fd.

Lemma free_fd_spec fds : forall i fd, 0 <= i -> free_fd fds i = Some fd ->
  3 <= fd /\ i <= fd < i + Z.of_nat (length fds) /\ exists f, fds !! Z.to_nat (fd - i) = Some f.
Proof.
  induction fds as [|f fds IH]; intros i fd Hi E; [done|]. cbn [free_fd] in E.
  destruct ((3 <=? i) && negb (fd_used f)) eqn:Eb.
  - injection E as <-. apply andb_true_iff in Eb as [Hge _]. apply Z.leb_le in Hge. cbn [length].
    split_and!; [lia|lia|lia|]. rewrite Z.sub_diag. by exists f.
  - destruct (IH (i + 1) fd ltac:(lia) E) as (H3 & Hr & g & Eg). cbn [length]. split_and!; [lia|lia|lia|].
    exists g. by replace (Z.to_nat (fd - i)) with (S (Z.to_nat (fd - (i + 1)))) by lia.
Qed.

Lemma free_fd_exists fds f : forall i j, fds !! j = Some f -> fd_used f = false -> 3 <= i + Z.of_nat j -> is_Some (free_fd fds i).
Proof.
  induction fds as [|g fds IH]; intros i j Ej Hu Hj; [done|]. cbn [free_fd].
  destruct ((3 <=? i) && negb (fd_used g)) eqn:Eb; [done|]. destruct j as [|j].
  - injection Ej as ->. rewrite Hu in Eb. rewrite (proj2 (Z.leb_le 3 i)) in Eb by lia. done.
  - apply (IH (i + 1) j); [done|done|lia].
Qed.

Lemma has_free_here fd s : has_free_fd fd s -> 3 <= fd < 16 /\ exists f, fd_here fd f s.
Proof.
  intros (c & t & Ec & Et & Hl & Ef). destruct (free_fd_spec _ 0 fd ltac:(lia) Ef) as (H3 & Hr & f & E).
  rewrite Hl in Hr. rewrite Z.sub_0_r in E. split; [lia|]. exists f, c, t. done.
Qed.

Lemma has_free_calm fd s s' : has_free_fd fd s -> calm (v_drv s) (v_drv s') -> has_free_fd fd s'.
Proof. intros (c & t & E) [Es _]. exists c, t. by rewrite Es. Qed.

Lemma fd_here_calm fd f s s' : fd_here fd f s -> calm (v_drv s) (v_drv s') -> fd_here fd f s'.
Proof. intros (c & t & E) [Es _]. exists c, t. by rewrite Es. Qed.

Lemma run_with_d {A} (k : D -> state V A) s Q : run (k (v_drv s)) s Q -> run (with_d k) s Q.
Proof. intros HQ. unfold with_d. by apply run_bind, run_get. Qed.

Lemma run_mounted s Q : mount_table s <> [] -> Q true s -> run vfs_mounted s Q.
Proof. intros Hm HQ. unfold vfs_mounted. apply run_gets. by rewrite bool_decide_eq_false_2. Qed.

Lemma run_call {B} m (k : Z -> state V (B + sysret)) s Q :
  run m s (fun r s' => match r with
    | Ret v => if v <? 2 ^ 31 then run (k v) s' Q else Q (inr r) s'
    | _ => Q (inr r) s'
    end) -> run (call m k) s Q.
Proof.
  intros Hm. unfold call. eapply run_bind, run_mono; [exact Hm|]. intros [v| |] s' HQ; [|done|done]. by destruct (v <? 2 ^ 31).
Qed.

(** ** The calls of the program *)

Section Store.
Context {path : list Z} {limit : Z} {Before : V -> Prop} {Holds : list Z -> V -> Prop} (FS : file_store path limit Before Holds).
Context (p : Z) (Hp : p <> 0) (Hpath : Z.of_nat (length path) < PUREUNIX_MAX_PATH).

Lemma path_fits : strncpy PUREUNIX_MAX_PATH path = path.
Proof. unfold strncpy. apply take_ge. unfold PUREUNIX_MAX_PATH in *. lia. Qed.

(** The current task has a table of sixteen entries. *)
Definition table16 s : Prop :=
  exists c t, current (k_sched (v_drv s)) = Some c /\ tasks (k_sched (v_drv s)) !! c = Some t /\ length (t_fds t) = 16%nat.

Lemma table16_kept fd s s' : table16 s -> others_kept fd s s' -> table16 s'.
Proof.
  intros (c & t & Ec & Et & Hl) [_ _ Kc Kt]. destruct (Kt c t Et) as (t' & Et' & _ & _ & Hl' & _).
  exists c, t'. split_and!; [by rewrite Kc|done|by rewrite Hl'].
Qed.
Lemma table16_calm s s' : table16 s -> calm (v_drv s) (v_drv s') -> table16 s'.
Proof. intros (c & t & E) [Es _]. exists c, t. by rewrite Es. Qed.
Lemma has_free_table fd s : has_free_fd fd s -> table16 s.
Proof. intros (c & t & Ec & Et & Hl & _). by exists c, t. Qed.

(** The descriptor [open] sets up. *)
Lemma fresh_entry_rep flags data size pos :
  fd_rep (mk_fd true flags (strncpy PUREUNIX_MAX_PATH path) data size pos)
    (mk_ofile (negb (Z.land flags O_WRONLY =? 0)) path
       (match data with Some (_, b) => sub b 0 size | None => [] end) pos) <->
  (match data with Some (_, b) => 0 <= size <= Z.of_nat (length b) | None => size = 0 /\ negb (Z.land flags O_WRONLY =? 0) = true end).
Proof.
  rewrite path_fits. split.
  - intros [_ _ _ R4 _ R6]. cbn in *. destruct data as [[q b]|]; [|by split; [|apply R6]].
    unfold sub in R4. rewrite drop_0, length_take in R4. lia.
  - intros Hd. split; cbn; try done.
    + destruct data as [[q b]|]; [|by destruct Hd]. unfold sub. rewrite drop_0, length_take. lia.
    + destruct data as [[q b]|]; [done|by destruct Hd].
Qed.

Lemma open_write_run fd s : Before s -> has_free_fd fd s -> k_string (v_drv s) p = path ->
  run (sys_open p O_WRONLY) s (fun r s' => r = Ret fd /\ Before s' /\ table16 s' /\ mem_kept (v_drv s) (v_drv s') /\
    open_file fd (mk_ofile true path [] 0) s').
Proof.
  intros HB HF Hs. destruct (has_free_here fd s HF) as (Hfd & f0 & Hf0). pose proof HF as (c & t & Ec & Et & Hl & Ef).
  unfold sys_open. rewrite (proj2 (Z.eqb_neq p 0)) by done. apply run_bind, run_mounted; [by apply (fs_before_mounted _ _ _ _ FS)|].
  cbn [negb]. apply run_with_d. rewrite Hs. unfold task_of. rewrite Ec. cbn [mbind option_bind]. rewrite Et, Ef.
  change (s32 O_WRONLY) with 1. cbn [Z.land Pos.land O_WRONLY O_CREAT O_APPEND Z.eqb negb].
  apply run_bind. unfold stat_or_create. eapply run_bind, run_mono; [by apply (fs_before_stat _ _ _ _ FS)|].
  intros r s1 (HB1 & C1 & st & -> & Hty & Hacc). apply run_ret. cbn [of_res]. rewrite bool_decide_eq_true_2 by done. cbn [negb].
  apply run_with_d. replace (sys_uid (v_drv s1)) with (sys_uid (v_drv s)) by (unfold sys_uid; by rewrite (proj1 C1)).
  replace (sys_gid (v_drv s1)) with (sys_gid (v_drv s)) by (unfold sys_gid; by rewrite (proj1 C1)). rewrite Hacc. cbn [negb].
  run_step set_fd_run as (H2 & K2 & M2); [by eapply fd_here_calm|]. apply run_ret.
  split; [|split; [|split; [|split]]].
  - by rewrite u32_small by (unfold is_u32; lia).
  - by eapply (fs_before_frame _ _ _ _ FS); [exact HB1|apply K2|apply K2].
  - eapply table16_kept; [|exact K2]. eapply table16_calm; [|exact C1]. by eapply has_free_table.
  - etrans; [apply C1|exact M2].
  - eapply open_file_intro; [done| |exact H2|by apply (fresh_entry_rep 1 None 0 0)]. split; cbn; [lia|lia|by constructor].
Qed.

Lemma overwrite_end (c data : list Z) : overwrite c (Z.of_nat (length c)) data = c ++ data.
Proof.
  unfold overwrite. rewrite Nat2Z.id, take_ge by lia. rewrite Nat.sub_diag, drop_ge by lia. by rewrite app_nil_r.
Qed.

(** Writing the pieces, then [k]. *)
Lemma write_all_run {B} fd (k : state V (B + sysret)) (Q : B + sysret -> V -> Prop) chunks : forall s c,
  Before s -> table16 s -> open_file fd (mk_ofile true path c (Z.of_nat (length c))) s ->
  Forall (fun '(a, n) => a <> 0 /\ 0 <= n) chunks ->
  Z.of_nat (length c) + Z.of_nat (length (chunk_data (v_drv s) chunks)) < 2 ^ 31 ->
  (forall s', Before s' -> table16 s' -> mem_kept (v_drv s) (v_drv s') ->
     open_file fd (mk_ofile true path (c ++ chunk_data (v_drv s) chunks) (Z.of_nat (length (c ++ chunk_data (v_drv s) chunks)))) s' -> run k s' Q) ->
  (forall v s', 2 ^ 31 <= v -> Q (inr (Ret v)) s') ->
  run (write_all fd chunks k) s Q.
Proof.
  induction chunks as [|[a n] chunks IH]; intros s c HB HT HO Hc Hlen Hk HE; cbn [write_all].
  - apply Hk; [done|done|done|]. cbn. by rewrite app_nil_r.
  - apply Forall_cons in Hc as [[Ha Hn] Hc]. assert (chunk_data (v_drv s) ((a, n) :: chunks) = k_bytes (v_drv s) a n ++ chunk_data (v_drv s) chunks) as Ed by done.
    rewrite Ed in *. rewrite length_app, kb_length in Hlen.
    apply run_call. eapply run_mono; [apply sys_write_run; [exact HO|split_and!; [done|done|done|cbn; lia]]|].
    intros r s1 (a1 & O1 & K1 & M1 & [[-> E1]|(-> & _ & _)]).
    2: { rewrite (proj2 (Z.ltb_ge _ _)) by (vm_compute; discriminate). apply HE. vm_compute. discriminate. }
    rewrite (proj2 (Z.ltb_lt n (2 ^ 31))) by lia.
    assert (a1 = mk_ofile true path (c ++ k_bytes (v_drv s) a n) (Z.of_nat (length (c ++ k_bytes (v_drv s) a n)))) as ->.
    { rewrite E1. cbn [of_path of_bytes of_pos]. rewrite length_app, kb_length. f_equal; [|lia].
      destruct (Z.eqb_spec n 0) as [->|]; [by rewrite kb_nil, app_nil_r|apply overwrite_end]. }
    assert (chunk_data (v_drv s1) chunks = chunk_data (v_drv s) chunks) as Ec.
    { unfold chunk_data. f_equal. apply list_fmap_ext. intros i [x m] _. apply M1. }
    apply (IH s1 (c ++ k_bytes (v_drv s) a n)); [by eapply (fs_before_frame _ _ _ _ FS); [exact HB|apply K1|apply K1]|by eapply table16_kept|exact O1|done| | |done].
    + rewrite Ec, length_app, kb_length. lia.
    + intros s2 B2 T2 M2 O2. rewrite Ec, <- (assoc_L (++)) in O2. apply Hk; [done|done|by etrans|done].
Qed.

Lemma open_file_calm fd a s s' : open_file fd a s -> calm (v_drv s) (v_drv s') -> open_file fd a s'.
Proof. intros (Hfd & Ho & f & Hh & R) C. eapply open_file_intro; [done|done|by eapply fd_here_calm|done]. Qed.

Lemma freed_slot fd s : 3 <= fd < 16 -> table16 s -> fd_here fd no_fd s -> exists fd', has_free_fd fd' s.
Proof.
  intros Hfd (c & t & Ec & Et & Hl) (c' & t' & Ec' & Et' & Ef). assert (c' = c) as -> by congruence. assert (t' = t) as -> by congruence.
  destruct (free_fd_exists (t_fds t) no_fd 0 (Z.to_nat fd) Ef) as [fd' E]; [done|lia|]. exists fd', c, t. done.
Qed.

(** Closing hands exactly the file's bytes to the VFS and frees the slot. *)
Lemma close_run fd c pos s : Z.of_nat (length c) <= limit -> Before s -> table16 s -> open_file fd (mk_ofile true path c pos) s ->
  run (sys_close fd) s (fun r s' => mem_kept (v_drv s) (v_drv s') /\ ((exists v, r = Ret v /\ 2 ^ 31 <= v) \/
    (r = Ret 0 /\ Holds c s' /\ exists fd', has_free_fd fd' s'))).
Proof.
  intros Hlim HB HT HO. pose proof HO as (Hfd & Hok & f & Hh & R). pose proof R as [R1 R2 R3 R4 R5 R6].
  pose proof Hok as [Hlen _ Hby]. cbn in Hlen, Hby, R2, R3, R4, R6.
  pose proof (fd_register fd Hfd) as (E1 & E2 & _ & _). unfold sys_close. rewrite E1, E2.
  eapply with_fd_run; [exact Hh|]. rewrite R1, R2, R3. cbn [negb].
  assert (fd_contents f = c) as ->. { unfold fd_contents. destruct (fd_data f) as [[q b]|]; [done|by destruct R6]. }
  eapply run_bind, run_mono; [by apply (fs_write _ _ _ _ FS)|]. intros r s1 [C1 Hr].
  assert (exists rc, r <> Overflow /\ rc = match r with Err rc => rc | _ => 0 end /\
    ((rc = 0 /\ Holds c s1) \/ neg_err rc)) as (rc & Hov & Erc & Hrc).
  { destruct Hr as [[-> HH]|(rc & -> & Hn)]; [exists 0; auto|exists rc; auto]. }
  destruct r as [u|e|]; [| |done]; rewrite <- Erc;
    (apply run_bind, run_lift_d; set (s2 := mk_vfs _ _ _);
     assert (others_kept fd s1 s2) as K2 by (apply quiet_d_kept; [apply kf_free|apply ks_free]);
     assert (fd_here fd f s2) as H2 by (apply fd_here_quiet; [by eapply fd_here_calm|apply ks_free]);
     assert (mem_kept (v_drv s1) (v_drv s2)) as M2 by (split; intros; cbn; [apply kb_free|apply kt_free]);
     run_step set_fd_run as (H3 & K3 & M3); [exact H2|]; apply run_ret; split; [by etrans; [apply C1|etrans]|];
     destruct Hrc as [[-> HH]|Hn]; [right|left]).
  1,3: split; [done|split; [by eapply (fs_holds_frame _ _ _ _ FS); [|apply K3|apply K3]; eapply (fs_holds_frame _ _ _ _ FS); [exact HH|apply K2|apply K2]|]];
       apply (freed_slot fd); [lia|by eapply table16_kept; [|exact K3]; eapply table16_kept; [|exact K2]; eapply table16_calm|exact H3].
  all: exists (u32 rc); split; [done|by apply neg_err_u32].
Qed.

Lemma open_read_run fd c s : Holds c s -> bytes_ok c -> Z.of_nat (length c) < 2 ^ 31 -> has_free_fd fd s -> k_string (v_drv s) p = path ->
  run (sys_open p 0) s (fun r s' => (exists v, r = Ret v /\ 2 ^ 31 <= v) \/
    (r = Ret fd /\ 3 <= fd < 16 /\ open_file fd (mk_ofile false path c 0) s')).
Proof.
  intros HH Hby Hlen HF Hs. destruct (has_free_here fd s HF) as (Hfd & f0 & Hf0). pose proof HF as (cu & t & Ec & Et & Hl & Ef).
  unfold sys_open. rewrite (proj2 (Z.eqb_neq p 0)) by done. apply run_bind, run_mounted; [by apply (fs_holds_mounted _ _ _ _ FS c)|].
  cbn [negb]. apply run_with_d. rewrite Hs. unfold task_of. rewrite Ec. cbn [mbind option_bind]. rewrite Et, Ef.
  change (s32 0) with 0. cbn [Z.land Z.eqb negb].
  eapply run_bind, run_mono; [by apply (fs_holds_stat _ _ _ _ FS c)|].
  intros r s1 (H1 & C1 & st & -> & Hty & Hacc). cbn [of_res]. rewrite bool_decide_eq_true_2 by done. cbn [negb].
  apply run_with_d. replace (sys_uid (v_drv s1)) with (sys_uid (v_drv s)) by (unfold sys_uid; by rewrite (proj1 C1)).
  replace (sys_gid (v_drv s1)) with (sys_gid (v_drv s)) by (unfold sys_gid; by rewrite (proj1 C1)). rewrite Hacc. cbn [negb].
  eapply run_bind, run_mono; [by apply (fs_read _ _ _ _ FS c)|]. intros r s2 [C2 [[q ->]|(rc & -> & Hn)]]; cbn [of_res].
  2: { apply run_ret. left. eexists. split; [done|by apply neg_err_u32]. }
  run_step set_fd_run as (H3 & K3 & M3); [by eapply fd_here_calm; [eapply fd_here_calm|]|]. apply run_ret. right.
  rewrite u32_small by (unfold is_u32; lia). split_and!; [done|lia|lia|].
  assert (sub (c ++ [0]) 0 (Z.of_nat (length c)) = c) as Esub by (unfold sub; rewrite drop_0, Nat2Z.id; by apply take_app_length).
  eapply open_file_intro; [lia| |exact H3|].
  - split; cbn; [lia|lia|done].
  - rewrite <- Esub at 3. apply (fresh_entry_rep 0 (Some (q, c ++ [0])) (Z.of_nat (length c)) 0). rewrite length_app. cbn. lia.
Qed.

(** The whole program; the last read asks for at least the whole file. *)
Lemma save_load_run fd chunks buf n s : Before s -> has_free_fd fd s -> k_string (v_drv s) p = path ->
  Forall (fun '(a, n) => a <> 0 /\ 0 <= n) chunks -> buf <> 0 ->
  Z.of_nat (length (chunk_data (v_drv s) chunks)) < 2 ^ 31 -> Z.of_nat (length (chunk_data (v_drv s) chunks)) <= limit ->
  Z.of_nat (length (chunk_data (v_drv s) chunks)) <= n < 2 ^ 32 ->
  run (save_load p chunks buf n) s (fun r _ =>
    r = inl (chunk_data (v_drv s) chunks) \/ exists v, r = inr (Ret v) /\ 2 ^ 31 <= v).
Proof.
  intros HB HF Hs Hc Hbuf Hlen Hlim Hn. destruct (has_free_here fd s HF) as (Hfd & _).
  apply run_call. eapply run_mono; [by apply open_write_run|]. intros r s1 (-> & B1 & T1 & M1 & O1).
  rewrite (proj2 (Z.ltb_lt fd (2 ^ 31))) by lia.
  assert (chunk_data (v_drv s1) chunks = chunk_data (v_drv s) chunks) as Ed.
  { unfold chunk_data. f_equal. apply list_fmap_ext. intros i [x m] _. apply M1. }
  assert (bytes_ok (chunk_data (v_drv s) chunks)) as Hby.
  { unfold chunk_data. apply Forall_concat, Forall_fmap, Forall_true. intros [x m]. apply kb_bytes. }
  set (data := chunk_data (v_drv s) chunks) in *.
  apply (write_all_run fd _ _ chunks s1 []); [done|done|exact O1|done|rewrite Ed; cbn; lia| |intros v s' Hv; right; eauto].
  rewrite Ed. cbn [app]. intros s2 B2 T2 M2 O2.
  apply run_call. eapply run_mono; [by eapply close_run|]. intros r s3 [M3 [(v & -> & Hv)|(-> & H3 & fd' & F3)]].
  { rewrite (proj2 (Z.ltb_ge _ _)) by done. right. eauto. }
  cbn [Z.ltb Z.compare]. apply run_call. eapply run_mono; [apply (open_read_run fd' data); try done|].
  { by rewrite (proj2 M3), (proj2 M2), (proj2 M1). }
  intros r s4 [(v & -> & Hv)|(-> & Hfd' & O4)]; [rewrite (proj2 (Z.ltb_ge _ _)) by done; right; eauto|].
  rewrite (proj2 (Z.ltb_lt fd' (2 ^ 31))) by lia.
  apply run_call. eapply run_mono; [apply sys_read_run; [exact O4|split_and!; [done|done|lia|lia]]|].
  intros r s5 (a5 & _ & _ & -> & _ & Eb). cbn [of_bytes of_pos] in *.
  assert (sub data 0 n = data) as Esub by (unfold sub; rewrite drop_0, take_ge; [done|lia]). rewrite Esub in *.
  rewrite (proj2 (Z.ltb_lt _ _)) by lia. apply run_with_d, run_ret. left. by rewrite Eb.
Qed.
End Store.
End Files.

(** No silent loss.  A program that opens a file for writing, writes it in
    any number of pieces, closes it, opens it again and reads it, either gets
    an error number from one of its calls, or reads back exactly the bytes it
    wrote, over every file system that keeps the contract of [file_store] for
    the file's path, as long as the file is within the size the file system
    can read back.  No call blocks or runs into undefined behaviour. *)
Theorem save_load_roundtrip {D} `{KernelOk D} path limit Before Holds p fd chunks buf n (s : vfs D) :
  file_store path limit Before Holds -> Before s -> has_free_fd fd s -> k_string (v_drv s) p = path -> p <> 0 ->
  Z.of_nat (length path) < PUREUNIX_MAX_PATH -> Forall (fun '(a, n) => a <> 0 /\ 0 <= n) chunks -> buf <> 0 ->
  Z.of_nat (length (chunk_data (v_drv s) chunks)) < 2 ^ 31 -> Z.of_nat (length (chunk_data (v_drv s) chunks)) <= limit ->
  Z.of_nat (length (chunk_data (v_drv s) chunks)) <= n < 2 ^ 32 ->
  run (save_load p chunks buf n) s (fun r _ =>
    r = inl (chunk_data (v_drv s) chunks) \/ exists v, r = inr (Ret v) /\ 2 ^ 31 <= v).
Proof. intros FS HB HF Hs Hp Hpath Hc Hbuf Hlen Hlim Hn. by eapply (save_load_run FS). Qed.
