(* ===== verification/ShellParser.v ===== *)
(** * The shell's command-line parser (shell/parser.c)

    Lines and tokens are byte lists without their NUL.  A token holds at most
    95 characters (the buffer has 96); the rest of a longer word is the next
    token.  Filling the fixed arrays of [shell_pipeline_t] is appending to
    lists, with the array bounds as the code checks them. *)

From stdpp Require Import strings.
From S2P Require Import Prelude VfsTypes.

Definition SHELL_MAX_ARGS : nat := 16.
Definition SHELL_MAX_ARG_LEN : nat := 96.
Definition SHELL_MAX_COMMANDS : nat := 4.

Record shell_command := mk_command {
  c_args : list (list Z); c_input : list Z; c_output : list Z; c_append : bool;
}.
Definition command_init : shell_command := mk_command [] [] [] false.

(** A parse gives the pipeline, or -1 with a message on [err]. *)
Inductive parsed := Pipeline (commands : list shell_command) | SyntaxError (msg : list Z).

Definition is_blank (c : Z) : bool := (c =? 32) || (c =? 9).
Definition is_meta (c : Z) : bool := (c =? 124) || (c =? 60) || (c =? 62).
Definition is_quote (c : Z) : bool := (c =? 39) || (c =? 34).

Fixpoint skip_blanks (p : list Z) : list Z :=
  match p with
  | c :: p' => if is_blank c then skip_blanks p' else p
  | [] => []
  end.

(** At most [n] characters that satisfy [f]: the token and the cursor behind it. *)
Fixpoint take_span (n : nat) (f : Z -> bool) (p : list Z) : list Z * list Z :=
  match n, p with
  | S n, c :: p' => if f c then let '(t, q) := take_span n f p' in (c :: t, q) else ([], p)
  | _, _ => ([], p)
  end.

Definition next_token (cursor : list Z) : option (list Z * list Z) :=
  match skip_blanks cursor with
  | [] => None
  | c :: p =>
      if is_meta c then
        match p with
        | c2 :: p2 => if (c =? 62) && (c2 =? 62) then Some ([c; c2], p2) else Some ([c], p)
        | [] => Some ([c], p)
        end
      else if is_quote c then
        let '(tok, q) := take_span (SHELL_MAX_ARG_LEN - 1) (fun x => negb (x =? c)) p in
        match q with
        | x :: q' => if x =? c then Some (tok, q') else Some (tok, q)
        | [] => Some (tok, q)
        end
      else Some (take_span (SHELL_MAX_ARG_LEN - 1) (fun x => negb (is_blank x) && negb (is_meta x)) (c :: p))
  end.

Definition PIPE : list Z := [124].
Definition LESS : list Z := [60].
Definition GREATER : list Z := [62].
Definition APPEND : list Z := [62; 62].

(** The loop of [shell_parse]: [dn] are the finished commands, [cmd] the
    current one.  Every token consumes a character, so [fuel] is the length of
    the line. *)
Fixpoint parse_loop (fuel : nat) (cursor : list Z) (dn : list shell_command) (cmd : shell_command) : parsed :=
  match next_token cursor with
  | None =>
      match c_args cmd, dn with
      | [], _ :: _ => SyntaxError (lit "empty command at end of pipeline")
      | _, _ => Pipeline (dn ++ [cmd])
      end
  | Some (tok, cursor) =>
      match fuel with
      | O => SyntaxError []
      | S fuel =>
          if bool_decide (tok = PIPE) then
            match c_args cmd with
            | [] => SyntaxError (lit "syntax error near '|'")
            | _ => if (SHELL_MAX_COMMANDS <=? S (length dn))%nat then SyntaxError (lit "pipeline too long")
                   else parse_loop fuel cursor (dn ++ [cmd]) command_init
            end
          else if bool_decide (tok = LESS) || bool_decide (tok = GREATER) || bool_decide (tok = APPEND) then
            match next_token cursor with
            | None => SyntaxError (lit "redirection missing filename")
            | Some (name, cursor) =>
                parse_loop fuel cursor dn
                  (if bool_decide (tok = LESS) then mk_command (c_args cmd) name (c_output cmd) (c_append cmd)
                   else mk_command (c_args cmd) (c_input cmd) name (bool_decide (tok = APPEND)))
            end
          else if (SHELL_MAX_ARGS <=? length (c_args cmd))%nat then SyntaxError (lit "too many arguments")
          else parse_loop fuel cursor dn (mk_command (c_args cmd ++ [tok]) (c_input cmd) (c_output cmd) (c_append cmd))
      end
  end.

Definition shell_parse (line : list Z) : parsed := parse_loop (length line) line [] command_init.

(** ** Writing a pipeline as a line *)

(** A word that needs no quotes. *)
Definition plain_word (w : list Z) : bool :=
  match w with
  | [] => false
  | c :: _ => negb (is_quote c) && forallb (fun x => negb (is_blank x) && negb (is_meta x)) w
  end.

Definition show_word (w : list Z) : list Z := if plain_word w then w else 39 :: w ++ [39].

(** Words a line can express: short enough, without the quote character where
    quotes are needed, and not spelled like an operator. *)
Definition word_ok (w : list Z) : Prop :=
  (length w <= 95)%nat /\ (plain_word w = true \/ Forall (fun c => c <> 39) w) /\
  w <> PIPE /\ w <> LESS /\ w <> GREATER /\ w <> APPEND.

Definition show_redirect (op name : list Z) : list Z :=
  match name with [] => [] | _ => 32 :: op ++ 32 :: show_word name end.
Definition show_command (c : shell_command) : list Z :=
  mjoin ((fun w => 32 :: show_word w) <$> c_args c) ++
  show_redirect LESS (c_input c) ++ show_redirect (if c_append c then APPEND else GREATER) (c_output c).
Fixpoint show_pipeline (cs : list shell_command) : list Z :=
  match cs with
  | [] => []
  | [c] => show_command c
  | c :: cs => show_command c ++ 32 :: PIPE ++ show_pipeline cs
  end.

Definition command_ok (c : shell_command) : Prop :=
  c_args c <> [] /\ (length (c_args c) <= SHELL_MAX_ARGS)%nat /\ Forall word_ok (c_args c) /\
  (c_input c = [] \/ word_ok (c_input c)) /\ (c_output c = [] \/ word_ok (c_output c)) /\
  (c_output c = [] -> c_append c = false).

(** ** Reading it back *)

Lemma take_span_all n f (w q : list Z) : (length w <= n)%nat -> forallb f w = true ->
  (length w = n \/ q = [] \/ exists c q', q = c :: q' /\ f c = false) -> take_span n f (w ++ q) = (w, q).
Proof.
  revert w. induction n as [|n IH]; intros [|c w] Hl Hf Hq; cbn [take_span app length] in *; try lia; try done.
  - destruct Hq as [?|[->|(c & q' & -> & Hc)]]; [lia|done|]. by rewrite Hc.
  - cbn [forallb] in Hf. apply andb_true_iff in Hf as [-> Hf]. rewrite (IH w); [done|lia|done|].
    destruct Hq as [?|?]; [left; lia|by right].
Qed.

(** What may follow a word: the end of the line, or a blank. *)
Definition at_blank (q : list Z) : Prop := q = [] \/ exists q', q = 32 :: q'.

Lemma next_word w q : word_ok w -> at_blank q -> next_token (32 :: show_word w ++ q) = Some (w, q).
Proof.
  intros (Hl & Hw & _) Hq. unfold next_token, show_word. cbn [skip_blanks]. change (is_blank 32) with true. cbn iota.
  destruct (plain_word w) eqn:Ep.
  - destruct w as [|c w]; [done|]. unfold plain_word in Ep. apply andb_true_iff in Ep as [Hc Hf].
    pose proof Hf as Hf'. cbn [forallb] in Hf'. apply andb_true_iff in Hf' as [Hc' _].
    apply andb_true_iff in Hc' as [Hb Hm]. cbn [app skip_blanks].
    rewrite (negb_true_iff _) in Hb. rewrite Hb. rewrite (negb_true_iff _) in Hm. rewrite Hm.
    rewrite (negb_true_iff _) in Hc. rewrite Hc. f_equal.
    change (c :: w ++ q) with ((c :: w) ++ q). apply take_span_all; [done|done|]. right.
    destruct Hq as [->|[q' ->]]; [by left|right; eexists _, _; by split].
  - destruct Hw as [?|Hw]; [congruence|]. cbn [app skip_blanks]. change (is_blank 39) with false. cbn iota.
    change (is_meta 39) with false. change (is_quote 39) with true. cbn iota. rewrite <- (assoc_L (++)). cbn [app].
    rewrite take_span_all.
    + change (39 =? 39) with true. done.
    + done.
    + apply forallb_forall. intros x Hx. rewrite Forall_forall in Hw. apply list_elem_of_In, Hw in Hx.
      apply negb_true_iff. by apply Z.eqb_neq.
    + right. right. eexists _, _. split; [done|]. done.
Qed.

Lemma next_op op q : op = PIPE \/ op = LESS \/ op = GREATER \/ op = APPEND -> at_blank q ->
  next_token (32 :: op ++ q) = Some (op, q).
Proof. intros Hop Hq. destruct Hq as [->|[q' ->]], Hop as [->|[->|[->| ->]]]; reflexivity. Qed.

Lemma at_blank_show cs q : at_blank q -> at_blank (show_command cs ++ q).
Proof.
  intros Hq. unfold show_command. destruct (c_args cs); cbn; [|right; eauto].
  unfold show_redirect. destruct (c_input cs); cbn; [|right; eauto]. destruct (c_output cs); cbn; [done|right; eauto].
Qed.

Lemma at_blank_redirect op name q : at_blank q -> at_blank (show_redirect op name ++ q).
Proof. intros Hq. unfold show_redirect. destruct name; [done|right; cbn; eauto]. Qed.

Lemma word_not_op w : word_ok w -> bool_decide (w = PIPE) = false /\ bool_decide (w = LESS) = false /\
  bool_decide (w = GREATER) = false /\ bool_decide (w = APPEND) = false.
Proof. intros (_ & _ & ? & ? & ? & ?). rewrite !bool_decide_eq_false_2 by done. done. Qed.

(** The arguments of a command. *)
Lemma parse_args ws : forall fuel q dn cmd, Forall word_ok ws -> at_blank q ->
  (length (c_args cmd) + length ws <= SHELL_MAX_ARGS)%nat ->
  parse_loop (length ws + fuel) (mjoin ((fun w => 32 :: show_word w) <$> ws) ++ q) dn cmd =
  parse_loop fuel q dn (mk_command (c_args cmd ++ ws) (c_input cmd) (c_output cmd) (c_append cmd)).
Proof.
  induction ws as [|w ws IH]; intros fuel q dn cmd Hw Hq Hl.
  - cbn. rewrite app_nil_r. by destruct cmd.
  - apply Forall_cons in Hw as [Hw Hws]. destruct (word_not_op w Hw) as (E1 & E2 & E3 & E4).
    cbn [length Nat.add] in *.
    change (mjoin ((fun w => 32 :: show_word w) <$> w :: ws)) with ((32 :: show_word w) ++ mjoin ((fun w => 32 :: show_word w) <$> ws)).
    rewrite <- (assoc_L (++)).
    assert (at_blank (mjoin ((fun w => 32 :: show_word w) <$> ws) ++ q)) as Hq'.
    { destruct ws; [done|]. right. cbn. eauto. }
    cbn [parse_loop]. pose proof (next_word w _ Hw Hq') as En. cbn [app] in *. rewrite En. rewrite E1, E2, E3, E4. cbn [orb].
    rewrite (proj2 (Nat.leb_gt _ _)) by lia. rewrite IH; [|done|done|cbn; rewrite length_app; cbn; lia].
    cbn. by rewrite <- (assoc_L (++)).
Qed.

Definition redirects (name : list Z) : nat := match name with [] => 0 | _ => 1 end.

Lemma parse_input name fuel q dn cmd : name = [] \/ word_ok name -> at_blank q ->
  c_input cmd = [] ->
  parse_loop (redirects name + fuel) (show_redirect LESS name ++ q) dn cmd =
  parse_loop fuel q dn (mk_command (c_args cmd) name (c_output cmd) (c_append cmd)).
Proof.
  intros Hn Hq Hi. destruct name as [|c name]; [cbn; rewrite <- Hi; by destruct cmd|].
  destruct Hn as [?|Hn]; [done|]. unfold show_redirect, redirects. cbn [Nat.add parse_loop].
  change ((32 :: LESS ++ 32 :: show_word (c :: name)) ++ q) with (32 :: LESS ++ (32 :: show_word (c :: name) ++ q)).
  rewrite next_op by (auto || right; eauto). change (bool_decide (LESS = PIPE)) with false. cbn [orb].
  rewrite (next_word _ _ Hn Hq). done.
Qed.

Lemma parse_output name app fuel q dn cmd : name = [] \/ word_ok name -> at_blank q ->
  c_output cmd = [] -> c_append cmd = false -> (name = [] -> app = false) ->
  parse_loop (redirects name + fuel) (show_redirect (if app : bool then APPEND else GREATER) name ++ q) dn cmd =
  parse_loop fuel q dn (mk_command (c_args cmd) (c_input cmd) name app).
Proof.
  intros Hn Hq Ho Ha Hna. destruct name as [|c name].
  { cbn. rewrite Hna by done. rewrite <- Ho, <- Ha. by destruct cmd. }
  destruct Hn as [?|Hn]; [done|]. unfold show_redirect, redirects. cbn [Nat.add parse_loop].
  change ((32 :: (if app then APPEND else GREATER) ++ 32 :: show_word (c :: name)) ++ q) with
    (32 :: ((if app then APPEND else GREATER) ++ 32 :: show_word (c :: name)) ++ q).
  rewrite <- (assoc_L (++)). change ((32 :: show_word (c :: name)) ++ q) with (32 :: show_word (c :: name) ++ q).
  rewrite next_op by (destruct app; auto || right; eauto).
  destruct app; cbn; rewrite (next_word _ _ Hn Hq); done.
Qed.

Definition tokens_of (c : shell_command) : nat :=
  (length (c_args c) + (redirects (c_input c) + redirects (c_output c)))%nat.

Lemma parse_command c fuel q dn : command_ok c -> at_blank q ->
  parse_loop (tokens_of c + fuel) (show_command c ++ q) dn command_init = parse_loop fuel q dn c.
Proof.
  intros (_ & Hl & Hw & Hi & Ho & Ha) Hq. unfold show_command, tokens_of. rewrite <- !(assoc_L (++)), <- Nat.add_assoc.
  rewrite parse_args; [|done|by apply at_blank_redirect, at_blank_redirect|done].
  rewrite <- Nat.add_assoc, parse_input; [|done|by apply at_blank_redirect|done]. cbn [c_args c_output c_append app].
  rewrite parse_output by done. by destruct c.
Qed.

Fixpoint pipeline_tokens (cs : list shell_command) : nat :=
  match cs with [] => 0 | [c] => tokens_of c | c :: cs => tokens_of c + S (pipeline_tokens cs) end.

Lemma parse_pipeline cs : forall fuel dn, cs <> [] -> Forall command_ok cs ->
  (length dn + length cs <= SHELL_MAX_COMMANDS)%nat ->
  parse_loop (pipeline_tokens cs + fuel) (show_pipeline cs) dn command_init = Pipeline (dn ++ cs).
Proof.
  induction cs as [|c cs IH]; intros fuel dn Hne Hok Hl; [done|]. apply Forall_cons in Hok as [Hc Hcs].
  assert (c_args c <> []) as Hca by apply Hc. destruct cs as [|c2 cs].
  - cbn [pipeline_tokens show_pipeline]. rewrite <- (app_nil_r (show_command c)), parse_command by (done || by left).
    destruct fuel; cbn; destruct (c_args c); done.
  - cbn [pipeline_tokens show_pipeline]. rewrite <- Nat.add_assoc.
    assert (at_blank (show_pipeline (c2 :: cs))) as Hb.
    { destruct cs; cbn [show_pipeline]; [rewrite <- (app_nil_r (show_command c2)); apply at_blank_show; by left|].
      apply at_blank_show. right. eauto. }
    rewrite parse_command by (done || right; eauto). cbn [Nat.add parse_loop].
    rewrite next_op by auto. change (bool_decide (PIPE = PIPE)) with true. cbn iota.
    destruct (c_args c) as [|a args] eqn:Ea; [done|]. cbn [length] in Hl.
    rewrite (proj2 (Nat.leb_gt _ _)) by (cbn [length] in *; lia). rewrite IH; [|done|done|].
    + by rewrite <- (assoc_L (++)).
    + rewrite length_app. cbn [length]. lia.
Qed.

Lemma show_args_length ws : (length ws <= length (mjoin ((fun w => 32%Z :: show_word w) <$> ws)))%nat.
Proof.
  induction ws as [|w ws IH]; [done|].
  change (mjoin ((fun w => 32 :: show_word w) <$> w :: ws)) with ((32 :: show_word w) ++ mjoin ((fun w => 32 :: show_word w) <$> ws)).
  rewrite length_app. cbn [length]. lia.
Qed.

Lemma show_redirect_length op name : (redirects name <= length (show_redirect op name))%nat.
Proof. destruct name; cbn; lia. Qed.

Lemma show_command_length c : (tokens_of c <= length (show_command c))%nat.
Proof.
  unfold tokens_of, show_command. rewrite !length_app. pose proof (show_args_length (c_args c)).
  pose proof (show_redirect_length LESS (c_input c)).
  pose proof (show_redirect_length (if c_append c then APPEND else GREATER) (c_output c)). lia.
Qed.

Lemma show_pipeline_length cs : (pipeline_tokens cs <= length (show_pipeline cs))%nat.
Proof.
  induction cs as [|c cs IH]; [done|]. pose proof (show_command_length c). destruct cs as [|c2 cs]; [done|].
  change (pipeline_tokens (c :: c2 :: cs)) with (tokens_of c + S (pipeline_tokens (c2 :: cs)))%nat.
  change (show_pipeline (c :: c2 :: cs)) with (show_command c ++ [32; 124] ++ show_pipeline (c2 :: cs)).
  rewrite !length_app. cbn [length]. lia.
Qed.


Definition demo_pipeline : list shell_command :=
  [mk_command [lit "cat"; lit "a file"] [] [] false; mk_command [lit "grep"; lit "x"] [] (lit "out.txt") true].


(** ** What any line gives *)

Lemma take_span_bounds n f : forall p, let '(t, q) := take_span n f p in
  (length t <= n)%nat /\ (length t + length q = length p)%nat.
Proof.
  induction n as [|n IH]; intros [|c p]; cbn [take_span]; try (cbn; lia). destruct (f c); [|cbn; lia].
  specialize (IH p). destruct (take_span n f p) as [t q]. cbn. lia.
Qed.

Lemma take_span_cons n f c p : f c = true -> take_span (S n) f (c :: p) = let '(t, q) := take_span n f p in (c :: t, q).
Proof. intros Hc. cbn [take_span]. by rewrite Hc. Qed.

Lemma skip_blanks_length p : (length (skip_blanks p) <= length p)%nat.
Proof. induction p as [|c p IH]; [done|]. cbn. destruct (is_blank c); cbn; lia. Qed.

Lemma next_token_bounds p t q : next_token p = Some (t, q) -> (length t <= 95)%nat /\ (length q < length p)%nat.
Proof.
  unfold next_token. pose proof (skip_blanks_length p) as Hs. destruct (skip_blanks p) as [|c r] eqn:Es; [done|].
  cbn [length] in Hs. destruct (is_meta c) eqn:Em.
  - destruct r as [|c2 r]; [intros [= <- <-]; cbn in *; lia|].
    destruct (_ && _); intros [= <- <-]; cbn in *; lia.
  - destruct (is_quote c).
    + pose proof (take_span_bounds (SHELL_MAX_ARG_LEN - 1) (fun x => negb (x =? c)) r) as Hb.
      destruct (take_span _ _ r) as [t1 q1]. unfold SHELL_MAX_ARG_LEN in Hb. destruct q1 as [|x q1]; [intros [= <- <-]; cbn in *; lia|].
      destruct (x =? c); intros [= <- <-]; cbn in *; lia.
    + destruct (is_blank c) eqn:Eb.
      { exfalso. clear Hs Em. revert c r Es Eb. induction p as [|x p IH]; intros c r Es Eb; [done|]. cbn in Es.
        destruct (is_blank x) eqn:Ex; [by eapply IH|]. congruence. }
      change (SHELL_MAX_ARG_LEN - 1)%nat with (S 94). rewrite take_span_cons by by rewrite Eb, Em.
      pose proof (take_span_bounds 94 (fun x => negb (is_blank x) && negb (is_meta x)) r) as Hb.
      destruct (take_span 94 _ r) as [t1 q1]. intros [= <- <-]. cbn in *. lia.
Qed.

(** A command that fits [shell_command_t]. *)
Definition fits_command (c : shell_command) : Prop :=
  (length (c_args c) <= SHELL_MAX_ARGS)%nat /\ Forall (fun w => length w < SHELL_MAX_ARG_LEN)%nat (c_args c) /\
  Z.of_nat (length (c_input c)) < PUREUNIX_MAX_PATH /\ Z.of_nat (length (c_output c)) < PUREUNIX_MAX_PATH.

(** A result that fits [shell_pipeline_t]. *)
Definition fits (r : parsed) : Prop :=
  match r with
  | Pipeline cs => cs <> [] /\ (length cs <= SHELL_MAX_COMMANDS)%nat /\ Forall fits_command cs /\
      (Forall (fun c => c_args c <> []) cs \/ exists c, cs = [c] /\ c_args c = [])
  | SyntaxError msg => msg <> []
  end.

Lemma parse_end dn cmd : (length dn < SHELL_MAX_COMMANDS)%nat ->
  Forall (fun c => fits_command c /\ c_args c <> []) dn -> fits_command cmd ->
  fits match c_args cmd, dn with
       | [], _ :: _ => SyntaxError (lit "empty command at end of pipeline")
       | _, _ => Pipeline (dn ++ [cmd])
       end.
Proof.
  intros Hd Hdn Hc.
  assert (c_args cmd <> [] -> fits (Pipeline (dn ++ [cmd]))) as Hok.
  { intros Ha. unfold fits. split_and!; [by destruct dn|rewrite length_app; cbn; lia| |left].
    - apply Forall_app_2; [eapply Forall_impl; [exact Hdn|by intros ? [? _]]|by constructor].
    - apply Forall_app_2; [eapply Forall_impl; [exact Hdn|by intros ? [_ ?]]|by constructor]. }
  destruct (c_args cmd) as [|a args] eqn:Ea; [|by apply Hok].
  destruct dn as [|x dn]; [|done]. unfold fits. split_and!; [done|cbn; lia|by constructor|right]. by exists cmd.
Qed.

Lemma parse_loop_fits fuel : forall p dn cmd, (length p <= fuel)%nat -> (length dn < SHELL_MAX_COMMANDS)%nat ->
  Forall (fun c => fits_command c /\ c_args c <> []) dn -> fits_command cmd -> fits (parse_loop fuel p dn cmd).
Proof.
  induction fuel as [|fuel IH]; intros p dn cmd Hp Hd Hdn Hc; cbn [parse_loop];
    (destruct (next_token p) as [[t q]|] eqn:En; [|by apply parse_end]).
  { apply next_token_bounds in En as Hb. lia. }
  apply next_token_bounds in En as [Ht Hq]. destruct Hc as (Hc1 & Hc2 & Hc3 & Hc4).
  case_bool_decide as Ep.
  { destruct (c_args cmd) as [|a args] eqn:Ea; [done|]. destruct (Nat.leb_spec SHELL_MAX_COMMANDS (S (length dn))); [done|].
    apply IH; [lia|rewrite length_app; cbn; lia| |].
    - apply Forall_app_2; [done|]. constructor; [|constructor]. split; [unfold fits_command; rewrite Ea; done|by rewrite Ea].
    - unfold fits_command, PUREUNIX_MAX_PATH. cbn. split_and!; [lia|constructor|lia|lia]. }
  destruct (_ || _ || _).
  { destruct (next_token q) as [[name q2]|] eqn:En2; [|done]. apply next_token_bounds in En2 as [Ht2 Hq2].
    apply IH; [lia|done|done|]. unfold fits_command, PUREUNIX_MAX_PATH in *. case_bool_decide; cbn; split_and!; (done || lia). }
  destruct (Nat.leb_spec SHELL_MAX_ARGS (length (c_args cmd))); [done|].
  apply IH; [lia|done|done|]. unfold fits_command. cbn. split_and!; [rewrite length_app; cbn; lia| |done|done].
  apply Forall_app_2; [done|]. constructor; [unfold SHELL_MAX_ARG_LEN; lia|constructor].
Qed.

(** Whatever is typed, [shell_parse] ends and its result fits
    [shell_pipeline_t]: at most four commands, sixteen arguments of at most 95
    characters and file names below the path limit, with no empty command in a
    pipeline (only an empty line gives one); a failure always has a message. *)
Theorem shell_parse_fits line : fits (shell_parse line).
Proof.
  apply parse_loop_fits; [done|cbn; unfold SHELL_MAX_COMMANDS; lia|constructor|].
  unfold fits_command, PUREUNIX_MAX_PATH. cbn. split_and!; [lia|constructor|lia|lia].
Qed.

(** Quotes do not protect an operator: a quoted vertical bar is the same
    token as a bare one, so the argument of "echo '|' cat" starts a pipe. *)
Theorem quoted_bar_is_a_pipe : shell_parse (lit "echo '|' cat") = shell_parse (lit "echo | cat").
Proof. vm_compute. reflexivity. Qed.
