(* ===== verification/ShellLine.v ===== *)
(** * The shell's line editor (shell/line.c)

    The editor works in a 256-byte buffer with a length and a cursor; the
    history keeps the last 64 lines.  Keys are a list ([keyboard_getkey] blocks
    when it is empty).  What is drawn on the screen is left out.  The names
    Tab completes from are arguments: the builtin commands and the entries of
    the root directory as [vfs_readdir] passes them. *)

From S2P Require Import Prelude Machine VfsTypes CLib Vfs Keyboard.


Definition HISTORY_MAX : nat := 64.
Definition LINE_MAX : Z := 256.

(** ** History *)

Definition shell_history_get (history : list (list Z)) (index : nat) : list Z := default [] (history !! index).

Definition shell_history_add (history : list (list Z)) (line : list Z) : list (list Z) :=
  match line with
  | [] => history
  | _ =>
      if bool_decide (last history = Some line) then history else
      let history := if bool_decide (length history = HISTORY_MAX) then drop 1 history else history in
      history ++ [strncpy LINE_MAX line]
  end.

(** ** Editing *)

Record editor := mk_editor { e_line : list Z; e_len : Z; e_cursor : Z; e_hist : nat }.

(** [strncpy(dst, s, n)] in place: the string, cut, and zeros. *)
Definition strncpy_at (b : list Z) (s : list Z) (n : nat) : list Z :=
  put b 0 (take n s ++ replicate (n - length s) 0).

(** The names that start with [prefix]; the first of them, as [ctx.match] holds it. *)
Definition matching (prefix : list Z) (names : list (list Z)) : list (list Z) :=
  filter (fun n => take (length prefix) n = prefix) names.

(** The characters before the cursor back to a blank. *)
Fixpoint word_start (n : nat) (line : list Z) : nat :=
  match n with
  | O => 0%nat
  | S k => if byte_at line (Z.of_nat k) =? 32 then n else word_start k line
  end.

(** Appending the rest of the match while there is room. *)
Fixpoint extend (suffix : list Z) (line : list Z) (len : Z) : list Z * Z :=
  match suffix with
  | [] => (line, len)
  | c :: suffix => if len + 1 <? LINE_MAX then extend suffix (CStr.st line len c) (len + 1) else (line, len)
  end.

Definition complete_line (builtins root : list (list Z)) (e : editor) : editor :=
  if negb (e_cursor e =? e_len e) then e else
  let start := word_start (Z.to_nat (e_cursor e)) (e_line e) in
  let prefix := cstr (drop start (e_line e)) in
  let found := match matching prefix builtins with [] => matching prefix root | l => l end in
  match found with
  | [name] =>
      let m := strncpy PUREUNIX_MAX_NAME name in
      let '(line, len) := extend (drop (length prefix) m) (e_line e) (e_len e) in
      mk_editor (CStr.st line len 0) len (e_cursor e + (len - e_len e)) (e_hist e)
  | _ => e
  end.

(** One key other than Enter and Ctrl-C. *)
Definition edit_key (builtins root history : list (list Z)) (key : Z) (e : editor) : editor :=
  let '(mk_editor line len cursor hc) := e in
  if key =? KEY_BACKSPACE then
    if 0 <? cursor
    then mk_editor (CStr.memmove line (cursor - 1) cursor (len - cursor + 1)) (len - 1) (cursor - 1) hc
    else e
  else if key =? KEY_DELETE then
    if cursor <? len then mk_editor (CStr.memmove line cursor (cursor + 1) (len - cursor)) (len - 1) cursor hc
    else e
  else if key =? KEY_LEFT then if 0 <? cursor then mk_editor line len (cursor - 1) hc else e
  else if key =? KEY_RIGHT then if cursor <? len then mk_editor line len (cursor + 1) hc else e
  else if key =? KEY_HOME then mk_editor line len 0 hc
  else if key =? KEY_END then mk_editor line len len hc
  else if (key =? KEY_UP) || (key =? KEY_DOWN) then
    let hc := if (key =? KEY_UP) && (0 <? hc)%nat then pred hc
              else if (key =? KEY_DOWN) && (hc <? length history)%nat then S hc else hc in
    match history !! hc with
    | Some old =>
        let line := strncpy_at line old 255 in
        let len := Z.of_nat (length (cstr line)) in
        mk_editor line len len hc
    | None => mk_editor (CStr.st line 0 0) 0 0 hc
    end
  else if key =? KEY_TAB then complete_line builtins root e
  else if (32 <=? key) && (key <? 127) && (len + 1 <? LINE_MAX) then
    let line := CStr.memmove line (cursor + 1) cursor (len - cursor + 1) in
    mk_editor (CStr.st line cursor key) (len + 1) (cursor + 1) hc
  else e.

(** The text left in [out], the result and the history; [None] waits for keys. *)
Fixpoint readline_loop (builtins root history : list (list Z)) (max : Z) (keys : list Z) (e : editor)
    : option (list Z * Z * list (list Z)) :=
  match keys with
  | [] => None
  | key :: keys =>
      if key =? KEY_ENTER then
        let out := strncpy max (cstr (CStr.st (e_line e) (e_len e) 0)) in
        Some (out, e_len e, shell_history_add history out)
      else if key =? KEY_CTRL_C then Some ([], 0, history)
      else readline_loop builtins root history max keys (edit_key builtins root history key e)
  end.

Definition shell_readline (builtins root history : list (list Z)) (max : Z) (keys : list Z)
    : option (list Z * Z * list (list Z)) :=
  readline_loop builtins root history max keys (mk_editor (zeros LINE_MAX) 0 0 (length history)).

(** ** The editor as text before and behind the cursor *)

Record zipper := mk_zipper { z_before : list Z; z_after : list Z; z_hist : nat }.

Definition show_line (s : list Z) (hc : nat) : zipper := mk_zipper s [] hc.

(** The word before the cursor. *)
Fixpoint last_word (s acc : list Z) : list Z :=
  match s with
  | [] => acc
  | c :: s => if c =? 32 then last_word s [] else last_word s (acc ++ [c])
  end.

Definition zip_complete (builtins root : list (list Z)) (z : zipper) : zipper :=
  match z_after z with
  | [] =>
      let prefix := last_word (z_before z) [] in
      let found := match matching prefix builtins with [] => matching prefix root | l => l end in
      match found with
      | [name] => mk_zipper (take 255 (z_before z ++ drop (length prefix) (strncpy PUREUNIX_MAX_NAME name))) [] (z_hist z)
      | _ => z
      end
  | _ => z
  end.

Definition zip_key (builtins root history : list (list Z)) (key : Z) (z : zipper) : zipper :=
  let '(mk_zipper b a hc) := z in
  if key =? KEY_BACKSPACE then mk_zipper (take (length b - 1) b) a hc
  else if key =? KEY_DELETE then mk_zipper b (drop 1 a) hc
  else if key =? KEY_LEFT then
    match last b with Some c => mk_zipper (take (length b - 1) b) (c :: a) hc | None => z end
  else if key =? KEY_RIGHT then match a with c :: a => mk_zipper (b ++ [c]) a hc | [] => z end
  else if key =? KEY_HOME then mk_zipper [] (b ++ a) hc
  else if key =? KEY_END then mk_zipper (b ++ a) [] hc
  else if (key =? KEY_UP) || (key =? KEY_DOWN) then
    let hc := if (key =? KEY_UP) && (0 <? hc)%nat then pred hc
              else if (key =? KEY_DOWN) && (hc <? length history)%nat then S hc else hc in
    show_line (shell_history_get history hc) hc
  else if key =? KEY_TAB then zip_complete builtins root z
  else if (32 <=? key) && (key <? 127) && (length (b ++ a) <? 255)%nat then mk_zipper (b ++ [key]) a hc
  else z.

Fixpoint zip_readline (builtins root history : list (list Z)) (max : Z) (keys : list Z) (z : zipper)
    : option (list Z * Z * list (list Z)) :=
  match keys with
  | [] => None
  | key :: keys =>
      if key =? KEY_ENTER then
        let out := strncpy max (z_before z ++ z_after z) in
        Some (out, Z.of_nat (length (z_before z ++ z_after z)), shell_history_add history out)
      else if key =? KEY_CTRL_C then Some ([], 0, history)
      else zip_readline builtins root history max keys (zip_key builtins root history key z)
  end.

(** ** The buffer implements the text *)

Definition char_ok (c : Z) : Prop := 0 < c < 256.
Definition text_ok (s : list Z) : Prop := Forall char_ok s.

Record edits (e : editor) (z : zipper) : Prop := {
  ed_line : exists junk, e_line e = z_before z ++ z_after z ++ 0 :: junk /\ length (e_line e) = 256%nat;
  ed_bytes : bytes_ok (e_line e);
  ed_last : last (e_line e) = Some 0;
  ed_text : text_ok (z_before z) /\ text_ok (z_after z);
  ed_len : e_len e = Z.of_nat (length (z_before z) + length (z_after z));
  ed_cursor : e_cursor e = Z.of_nat (length (z_before z));
  ed_hist : e_hist e = z_hist z;
}.

Lemma text_bytes s : text_ok s -> bytes_ok s.
Proof. intros H. eapply Forall_impl; [exact H|]. unfold char_ok, is_u8. lia. Qed.

Lemma cstr_text s junk : text_ok s -> cstr (s ++ 0 :: junk) = s.
Proof.
  induction 1 as [|c s Hc _ IH]; [done|]. cbn [app cstr]. unfold char_ok in Hc.
  rewrite (proj2 (Z.eqb_neq c 0)) by lia. by rewrite IH.
Qed.

(** A 256-byte buffer that ends in a NUL. *)
Definition buffer_ok (line : list Z) : Prop := length line = 256%nat /\ bytes_ok line /\ last line = Some 0.

Lemma edits_intro line len cur junk b a hc : line = b ++ a ++ 0 :: junk -> buffer_ok line ->
  text_ok b -> text_ok a -> len = Z.of_nat (length b + length a) -> cur = Z.of_nat (length b) ->
  edits (mk_editor line len cur hc) (mk_zipper b a hc).
Proof. intros ? (? & ? & ?) ? ? -> ->. split; cbn; try done. by exists junk. Qed.

Lemma last_app_ne {A} (l k : list A) : k <> [] -> last (l ++ k) = last k.
Proof. intros Hk. rewrite last_app. destruct (last k) eqn:E; [done|]. by apply last_None in E. Qed.

Lemma last_drop {A} n (l : list A) : (n < length l)%nat -> last (drop n l) = last l.
Proof.
  intros Hn. rewrite <- (take_drop n l) at 2. rewrite last_app_ne; [done|]. intros E%(f_equal length).
  rewrite length_drop in E. cbn in E. lia.
Qed.

(** Moving a tail of the text within the buffer. *)
Lemma move_tail pre mid tail junk dst src n :
  bytes_ok (pre ++ mid ++ tail ++ junk) -> dst = Z.of_nat (length pre) -> src = Z.of_nat (length pre + length mid) ->
  n = Z.of_nat (length tail) ->
  CStr.memmove (pre ++ mid ++ tail ++ junk) dst src n =
    pre ++ tail ++ drop (length tail) (mid ++ tail) ++ junk.
Proof.
  intros Hb -> -> ->. rewrite CStrOk.memmove_put by (done || rewrite ?length_app; lia).
  assert (sub (pre ++ mid ++ tail ++ junk) (Z.of_nat (length pre + length mid)) (Z.of_nat (length tail)) = tail) as ->.
  { rewrite (assoc_L (++) pre mid). replace (Z.of_nat (length pre + length mid)) with (Z.of_nat (length (pre ++ mid)) + 0) by (rewrite length_app; lia).
    rewrite sub_app_mid by lia. unfold sub. rewrite drop_0, Nat2Z.id, take_ge by lia. done. }
  rewrite (assoc_L (++) mid). rewrite <- (take_drop (length tail) (mid ++ tail)) at 1. rewrite <- (assoc_L (++)).
  rewrite (put_at pre (take (length tail) (mid ++ tail))); [done| |done]. rewrite length_take, length_app. lia.
Qed.

(** Opening a gap for one character. *)
Lemma open_gap b tail j junk key : bytes_ok (b ++ tail ++ j :: junk) -> tail <> [] -> is_u8 key ->
  CStr.st (CStr.memmove (b ++ tail ++ j :: junk) (Z.of_nat (length b) + 1) (Z.of_nat (length b)) (Z.of_nat (length tail)))
    (Z.of_nat (length b)) key = b ++ key :: tail ++ junk.
Proof.
  intros Hb Ht Hk. rewrite CStrOk.memmove_put by (done || rewrite ?length_app; cbn [length]; lia).
  assert (sub (b ++ tail ++ j :: junk) (Z.of_nat (length b)) (Z.of_nat (length tail)) = tail) as ->.
  { replace (Z.of_nat (length b)) with (Z.of_nat (length b) + 0) by lia.
    rewrite sub_app_mid by lia. unfold sub. rewrite drop_0, Nat2Z.id, take_ge by lia. done. }
  destruct tail as [|t tail]; [done|].
  assert (b ++ (t :: tail) ++ j :: junk = (b ++ [t]) ++ (tail ++ [j]) ++ junk) as -> by (by rewrite <- !(assoc_L (++))).
  rewrite (put_at (b ++ [t]) (tail ++ [j]) junk (t :: tail)) by (rewrite ?length_app; cbn; lia).
  unfold CStr.st. rewrite u8_small by done. rewrite <- (assoc_L (++) b). by rewrite (put_at b [t]).
Qed.

Section Refine.
Context (builtins root history : list (list Z)).
Context (Hhist : Forall (fun l => text_ok l /\ (length l <= 255)%nat) history).
Context (Hnames : Forall text_ok builtins /\ Forall text_ok root).

Lemma edits_cases e z : edits e z -> exists b a junk hc, z = mk_zipper b a hc /\
  e = mk_editor (b ++ a ++ 0 :: junk) (Z.of_nat (length b + length a)) (Z.of_nat (length b)) hc /\
  buffer_ok (b ++ a ++ 0 :: junk) /\ text_ok b /\ text_ok a.
Proof.
  intros [(junk & El & Hl) Hb Hz [H1 H2] E1 E2 E3]. destruct e as [line len cur hc], z as [b a h]. cbn in *. subst.
  exists b, a, junk, h. split_and!; done.
Qed.

(** Taking [mid] out of the text. *)
Lemma cut_ok pre mid tail junk : buffer_ok (pre ++ mid ++ tail ++ junk) -> mid <> [] ->
  buffer_ok (pre ++ tail ++ drop (length tail) (mid ++ tail) ++ junk).
Proof.
  intros (Hl & Hb & Hz) Hm. assert (0 < length mid)%nat as Hm0 by (destruct mid; [done|cbn; lia]).
  unfold buffer_ok, bytes_ok in *. rewrite !Forall_app in *. destruct Hb as (B1 & B2 & B3 & B4). split_and!; try done.
  - rewrite !length_app, length_drop, !length_app in *. lia.
  - apply Forall_drop. rewrite Forall_app. done.
  - rewrite <- Hz. rewrite (assoc_L (++) pre tail), (assoc_L (++) pre mid). rewrite (assoc_L (++) (pre ++ mid)).
    rewrite (assoc_L (++) (pre ++ tail)). rewrite !last_app. destruct (last junk); [done|].
    rewrite last_drop by (rewrite length_app; lia). rewrite last_app. destruct (last tail) eqn:Et; [done|].
    rewrite last_None in Et. subst. destruct (last mid) eqn:Em; [done|]. by apply last_None in Em.
Qed.

Lemma backspace_edits b a junk hc : buffer_ok (b ++ a ++ 0 :: junk) -> text_ok b -> text_ok a ->
  edits (if 0 <? Z.of_nat (length b)
         then mk_editor (CStr.memmove (b ++ a ++ 0 :: junk) (Z.of_nat (length b) - 1) (Z.of_nat (length b))
                           (Z.of_nat (length b + length a) - Z.of_nat (length b) + 1))
                (Z.of_nat (length b + length a) - 1) (Z.of_nat (length b) - 1) hc
         else mk_editor (b ++ a ++ 0 :: junk) (Z.of_nat (length b + length a)) (Z.of_nat (length b)) hc)
    (mk_zipper (take (length b - 1) b) a hc).
Proof.
  intros Hb H1 H2. destruct b as [|x b _] using rev_ind; [by eapply edits_intro|].
  rewrite length_app in *. cbn [length]. rewrite (proj2 (Z.ltb_lt 0 _)) by lia.
  apply Forall_app in H1 as [H1 _]. rewrite Nat.add_sub, take_app_le, take_ge by lia.
  assert ((b ++ [x]) ++ a ++ 0 :: junk = b ++ [x] ++ (a ++ [0]) ++ junk) as E by (by rewrite <- !(assoc_L (++))).
  rewrite E in *. rewrite move_tail by (apply Hb || rewrite ?length_app; cbn; lia).
  eapply edits_intro; [|by apply cut_ok|done|done|lia|lia]. by rewrite <- (assoc_L (++) a).
Qed.

Lemma delete_edits b a junk hc : buffer_ok (b ++ a ++ 0 :: junk) -> text_ok b -> text_ok a ->
  edits (if Z.of_nat (length b) <? Z.of_nat (length b + length a)
         then mk_editor (CStr.memmove (b ++ a ++ 0 :: junk) (Z.of_nat (length b)) (Z.of_nat (length b) + 1)
                           (Z.of_nat (length b + length a) - Z.of_nat (length b)))
                (Z.of_nat (length b + length a) - 1) (Z.of_nat (length b)) hc
         else mk_editor (b ++ a ++ 0 :: junk) (Z.of_nat (length b + length a)) (Z.of_nat (length b)) hc)
    (mk_zipper b (drop 1 a) hc).
Proof.
  intros Hb H1 H2. destruct a as [|x a]; cbn [length drop].
  { rewrite (proj2 (Z.ltb_ge _ _)) by lia. by eapply edits_intro. }
  rewrite (proj2 (Z.ltb_lt _ _)) by lia. rewrite drop_0. apply Forall_cons in H2 as [_ H2].
  assert ((x :: a) ++ 0 :: junk = [x] ++ (a ++ [0]) ++ junk) as E by (by rewrite <- (assoc_L (++))).
  rewrite E in *. rewrite move_tail by (apply Hb || rewrite ?length_app; cbn; lia).
  eapply edits_intro; [|by apply cut_ok|done|done|lia|lia]. by rewrite <- (assoc_L (++) a).
Qed.

Lemma insert_edits b a junk hc key : buffer_ok (b ++ a ++ 0 :: junk) -> text_ok b -> text_ok a ->
  32 <= key < 127 -> (length (b ++ a) < 255)%nat ->
  edits (mk_editor (CStr.st (CStr.memmove (b ++ a ++ 0 :: junk) (Z.of_nat (length b) + 1) (Z.of_nat (length b))
             (Z.of_nat (length b + length a) - Z.of_nat (length b) + 1)) (Z.of_nat (length b)) key)
           (Z.of_nat (length b + length a) + 1) (Z.of_nat (length b) + 1) hc)
    (mk_zipper (b ++ [key]) a hc).
Proof.
  intros (Hl & Hb & Hz) H1 H2 Hk Hr. rewrite length_app in Hr.
  destruct junk as [|j junk]; [rewrite !length_app in Hl; cbn in Hl; lia|].
  assert (b ++ a ++ 0 :: j :: junk = b ++ (a ++ [0]) ++ j :: junk) as E by (by rewrite <- (assoc_L (++) a)). rewrite E in *.
  replace (Z.of_nat (length b + length a) - Z.of_nat (length b) + 1) with (Z.of_nat (length (a ++ [0]))) by (rewrite length_app; cbn; lia).
  rewrite open_gap by (done || (by destruct a) || unfold is_u8; lia).
  assert (b ++ key :: (a ++ [0]) ++ junk = (b ++ [key]) ++ a ++ 0 :: junk) as -> by (by rewrite <- !(assoc_L (++))).
  eapply edits_intro; [reflexivity|split_and!| |done|rewrite length_app; cbn; lia|rewrite length_app; cbn; lia].
  - rewrite !length_app in *. cbn [length] in *. lia.
  - unfold bytes_ok in *. rewrite !Forall_app, !Forall_cons in *. destruct Hb as (B1 & (B2 & B3) & B4 & B5).
    split_and!; try done. unfold is_u8. lia.
  - rewrite (assoc_L (++)), last_app_ne by done. rewrite (assoc_L (++)), last_app_ne in Hz by done.
    destruct junk; [done|]. done.
  - apply Forall_app_2; [done|]. constructor; [unfold char_ok; lia|constructor].
Qed.

Lemma history_edits l0 hc old : buffer_ok l0 -> text_ok old -> (length old <= 255)%nat ->
  let line := strncpy_at l0 old 255 in
  edits (mk_editor line (Z.of_nat (length (cstr line))) (Z.of_nat (length (cstr line))) hc) (show_line old hc).
Proof.
  intros (Hl & Hb & Hz) Ho Hlen line. apply last_Some in Hz as [l1 ->]. rewrite length_app in Hl. cbn in Hl.
  assert (line = old ++ replicate (255 - length old) 0 ++ [0]) as E.
  { unfold line, strncpy_at. rewrite take_ge by lia. change (l1 ++ [0]) with ([] ++ l1 ++ [0]).
    rewrite (put_at [] l1) by (rewrite ?length_app, ?length_replicate; cbn; lia). by rewrite <- (assoc_L (++)). }
  clearbody line. subst line.
  assert (replicate (255 - length old) 0 ++ [0] = 0 :: replicate (255 - length old) 0) as E2.
  { change [0] with (replicate 1 0). rewrite <- replicate_add, Nat.add_comm. done. }
  rewrite E2, cstr_text by done.
  eapply (edits_intro _ _ _ (replicate (255 - length old) 0) old []); [done| |done|constructor|cbn; lia|done].
  rewrite <- E2. split_and!.
  - rewrite !length_app, length_replicate. cbn. lia.
  - apply Forall_app_2; [by apply text_bytes|]. apply Forall_app_2; [apply Forall_replicate; unfold is_u8; lia|].
    constructor; [unfold is_u8; lia|constructor].
  - by rewrite (assoc_L (++)), last_snoc.
Qed.

Lemma last_word_snoc b c acc : last_word (b ++ [c]) acc = if c =? 32 then [] else last_word b acc ++ [c].
Proof. revert acc. induction b as [|x b IH]; intros acc; cbn; [by destruct (c =? 32)|]. destruct (x =? 32); apply IH. Qed.

Lemma word_start_spec b : forall q, (word_start (length b) (b ++ q) <= length b)%nat /\
  drop (word_start (length b) (b ++ q)) b = last_word b [].
Proof.
  induction b as [|c b IH] using rev_ind; intros q; [done|]. rewrite length_app, Nat.add_1_r. cbn [word_start].
  assert (byte_at ((b ++ [c]) ++ q) (Z.of_nat (length b)) = c) as ->.
  { rewrite <- (assoc_L (++)). unfold byte_at. rewrite Nat2Z.id, lookup_app_r, Nat.sub_diag by lia. done. }
  rewrite last_word_snoc. destruct (c =? 32).
  - split; [lia|]. rewrite drop_ge; [done|]. rewrite length_app. cbn. lia.
  - rewrite <- (assoc_L (++)). destruct (IH ([c] ++ q)) as [H1 H2]. split; [lia|].
    rewrite drop_app_le by done. by rewrite H2.
Qed.

Lemma extend_spec suffix : forall b rest, text_ok suffix -> length (b ++ rest) = 256%nat -> (length b <= 255)%nat ->
  let b' := take 255 (b ++ suffix) in
  extend suffix (b ++ rest) (Z.of_nat (length b)) = (b' ++ drop (length b' - length b) rest, Z.of_nat (length b')).
Proof.
  induction suffix as [|c suffix IH]; intros b rest Hs Hl Hb; cbv zeta; cbn [extend].
  - rewrite app_nil_r, take_ge by done. rewrite Nat.sub_diag, drop_0. done.
  - apply Forall_cons in Hs as [Hc Hs]. unfold LINE_MAX. destruct (Z.ltb_spec (Z.of_nat (length b) + 1) 256) as [Hlt|Hge].
    + rewrite length_app in Hl. destruct rest as [|r rest]; [cbn in Hl; lia|].
      assert (CStr.st (b ++ r :: rest) (Z.of_nat (length b)) c = (b ++ [c]) ++ rest) as ->.
      { unfold CStr.st. rewrite u8_small by (unfold char_ok in Hc; unfold is_u8; lia).
        change (b ++ r :: rest) with (b ++ [r] ++ rest). rewrite (put_at b [r]) by done. by rewrite <- (assoc_L (++)). }
      replace (Z.of_nat (length b) + 1) with (Z.of_nat (length (b ++ [c]))) by (rewrite length_app; cbn; lia).
      rewrite IH by (done || rewrite !length_app in *; cbn in *; lia). rewrite <- (assoc_L (++)). cbn [app].
      f_equal. f_equal. rewrite length_app. cbn [length].
      assert (length b < length (take 255 (b ++ c :: suffix)))%nat by (rewrite length_take, length_app; cbn [length]; lia).
      replace (length (take 255 (b ++ c :: suffix)) - length b)%nat with (S (length (take 255 (b ++ c :: suffix)) - (length b + 1))) by lia.
      done.
    + assert (take 255 (b ++ c :: suffix) = b) as -> by (rewrite take_app_le, take_ge by lia; done).
      by rewrite Nat.sub_diag, drop_0.
Qed.

Lemma matching_text prefix names : Forall text_ok names -> Forall text_ok (matching prefix names).
Proof. intros H. unfold matching. apply Forall_forall. intros x [_ Hx]%list_elem_of_filter. by apply (proj1 (Forall_forall _ _) H). Qed.

Lemma complete_edits b a junk hc : buffer_ok (b ++ a ++ 0 :: junk) -> text_ok b -> text_ok a ->
  edits (complete_line builtins root
           (mk_editor (b ++ a ++ 0 :: junk) (Z.of_nat (length b + length a)) (Z.of_nat (length b)) hc))
    (zip_complete builtins root (mk_zipper b a hc)).
Proof.
  intros Hb H1 H2. unfold complete_line, zip_complete. cbn [e_cursor e_len e_line e_hist z_after z_before z_hist].
  destruct a as [|x a].
  2: { rewrite (proj2 (Z.eqb_neq _ _)) by (cbn [length]; lia). by eapply edits_intro. }
  cbn [length app] in *. rewrite Nat.add_0_r, Z.eqb_refl. cbn [negb]. rewrite Nat2Z.id.
  destruct (word_start_spec b (0 :: junk)) as [Hs Hw]. rewrite drop_app_le by done. rewrite Hw.
  assert (text_ok (last_word b [])) as Hlw by (rewrite <- Hw; by apply Forall_drop).
  rewrite cstr_text by done. set (prefix := last_word b []) in *.
  set (found := match matching prefix builtins with [] => matching prefix root | l => l end).
  assert (Forall text_ok found) as Hf.
  { unfold found. destruct Hnames as [N1 N2]. pose proof (matching_text prefix _ N1) as M1.
    destruct (matching prefix builtins); [by apply matching_text|done]. }
  clearbody found. assert (edits (mk_editor (b ++ 0 :: junk) (Z.of_nat (length b)) (Z.of_nat (length b)) hc) (mk_zipper b [] hc)) as Hsame
    by (eapply edits_intro; [done|done|done|done|cbn; lia|done]).
  destruct found as [|name [|]]; [done| |done].
  apply Forall_cons in Hf as [Hn _].
  assert (text_ok (drop (length prefix) (strncpy PUREUNIX_MAX_NAME name))) as Hsuf by (by apply Forall_drop, Forall_take).
  destruct Hb as (Hl & Hb & Hz). assert (length b <= 255)%nat as Hlb by (rewrite length_app in Hl; cbn in Hl; lia).
  rewrite extend_spec by done. set (b' := take 255 (b ++ _)).
  assert (length b' <= 255)%nat as Hlb' by (unfold b'; rewrite length_take; lia).
  assert (length b <= length b')%nat as Hge by (unfold b'; rewrite length_take, length_app; lia).
  destruct (drop (length b' - length b) (0 :: junk)) as [|r rest] eqn:Er.
  { apply (f_equal length) in Er. rewrite length_drop, length_app in *. cbn in *. lia. }
  assert (CStr.st (b' ++ r :: rest) (Z.of_nat (length b')) 0 = b' ++ 0 :: rest) as ->.
  { unfold CStr.st. change (b' ++ r :: rest) with (b' ++ [r] ++ rest). by rewrite (put_at b' [r]). }
  assert (r :: rest = drop (length b') (b ++ 0 :: junk)) as Er'.
  { rewrite drop_app_ge by done. done. }
  assert (text_ok b') as Hb' by (apply Forall_take, Forall_app_2; done).
  eapply edits_intro; [reflexivity|split_and!|done|constructor|cbn [length]; lia|lia].
  - apply (f_equal length) in Er'. rewrite length_drop, length_app in *. cbn in *. lia.
  - apply Forall_app_2; [by apply text_bytes|]. constructor; [unfold is_u8; lia|].
    apply (Forall_drop _ (length b')) in Hb. rewrite <- Er' in Hb. by apply Forall_cons in Hb as [_ Hb].
  - rewrite last_app_ne by done. destruct rest as [|r2 rest]; [done|]. rewrite <- Hz.
    rewrite <- (last_drop (length b') (b ++ 0 :: junk)) by (rewrite Hl; lia). by rewrite <- Er'.
Qed.

Lemma edit_key_edits key e z : edits e z ->
  edits (edit_key builtins root history key e) (zip_key builtins root history key z).
Proof.
  intros He. destruct (edits_cases e z He) as (b & a & junk & hc & -> & -> & Hb & H1 & H2).
  clear He. unfold edit_key, zip_key.
  destruct (key =? KEY_BACKSPACE); [by apply backspace_edits|].
  destruct (key =? KEY_DELETE); [by apply delete_edits|].
  destruct (key =? KEY_LEFT).
  { destruct b as [|x b _] using rev_ind; [by eapply edits_intro|]. rewrite last_snoc, length_app. cbn [length].
    rewrite (proj2 (Z.ltb_lt 0 _)) by lia. rewrite Nat.add_sub, take_app_le, take_ge by lia.
    apply Forall_app in H1 as [H1 Hx]. eapply edits_intro; [|done|done| |cbn; lia|lia]; [by rewrite <- (assoc_L (++))|].
    apply Forall_cons in Hx as [Hx _]. by constructor. }
  destruct (key =? KEY_RIGHT).
  { destruct a as [|x a]; cbn [length]; [rewrite (proj2 (Z.ltb_ge _ _)) by lia; by eapply edits_intro|].
    rewrite (proj2 (Z.ltb_lt _ _)) by lia. apply Forall_cons in H2 as [Hx H2].
    eapply edits_intro; [|done| |done|rewrite length_app; cbn; lia|rewrite length_app; cbn; lia].
    - by rewrite <- (assoc_L (++)).
    - apply Forall_app_2; [done|]. by constructor. }
  destruct (key =? KEY_HOME).
  { eapply edits_intro; [|done|constructor|by apply Forall_app_2|rewrite length_app; cbn; lia|done]. by rewrite <- (assoc_L (++)). }
  destruct (key =? KEY_END).
  { eapply (edits_intro _ _ _ junk (b ++ a) []); [by rewrite <- (assoc_L (++))|done|by apply Forall_app_2|constructor| |]; rewrite length_app; cbn; lia. }
  destruct ((key =? KEY_UP) || (key =? KEY_DOWN)).
  { set (hc' := if (key =? KEY_UP) && (0 <? hc)%nat then _ else _). clearbody hc'. unfold shell_history_get.
    destruct (history !! hc') as [old|] eqn:Eh; cbn [default].
    - apply (proj1 (Forall_lookup _ _) Hhist) in Eh as [Ho Hl]. by apply history_edits.
    - destruct (b ++ a ++ 0 :: junk) as [|r rest] eqn:El; [by destruct Hb|].
      destruct Hb as (Hl & Hbb & Hz).
      eapply (edits_intro _ _ _ rest [] []); [|split_and!|constructor|constructor|done|done].
      + unfold CStr.st. change (r :: rest) with ([] ++ [r] ++ rest). by rewrite (put_at [] [r]).
      + unfold CStr.st. by rewrite length_put.
      + unfold CStr.st. apply put_ok; [constructor; [apply u8_range|constructor]|done].
      + unfold CStr.st. change (r :: rest) with ([] ++ [r] ++ rest). rewrite (put_at [] [r]) by done.
        destruct rest; [done|]. done. }
  destruct (key =? KEY_TAB); [by apply complete_edits|].
  assert ((Z.of_nat (length b + length a) + 1 <? LINE_MAX) = (length (b ++ a) <? 255)%nat) as ->.
  { unfold LINE_MAX. rewrite length_app. destruct (Z.ltb_spec (Z.of_nat (length b + length a) + 1) 256), (Nat.ltb_spec (length b + length a) 255); lia || done. }
  destruct (Z.leb_spec 32 key), (Z.ltb_spec key 127), (Nat.ltb_spec (length (b ++ a)) 255); cbn [andb];
    try by eapply edits_intro.
  by apply insert_edits.
Qed.

Lemma readline_edits max keys : forall e z, edits e z ->
  readline_loop builtins root history max keys e = zip_readline builtins root history max keys z.
Proof.
  induction keys as [|key keys IH]; intros e z He; [done|]. cbn [readline_loop zip_readline].
  destruct (key =? KEY_ENTER); [|destruct (key =? KEY_CTRL_C); [done|by apply IH, edit_key_edits]].
  destruct (edits_cases e z He) as (b & a & junk & hc & -> & -> & Hb & H1 & H2). cbn [e_line e_len z_before z_after].
  assert (CStr.st (b ++ a ++ 0 :: junk) (Z.of_nat (length b + length a)) 0 = (b ++ a) ++ 0 :: junk) as ->.
  { unfold CStr.st. rewrite (assoc_L (++)). change ((b ++ a) ++ 0 :: junk) with ((b ++ a) ++ [0] ++ junk).
    rewrite (put_at (b ++ a) [0]) by (done || by rewrite length_app). done. }
  rewrite cstr_text by by apply Forall_app_2. by rewrite length_app.
Qed.
End Refine.


