(* ===== verification/VfsPaths.v ===== *)
(** * Paths and mounts of the VFS: what the string code computes

    Absolute paths as lists of components ([render]).  On them the string
    operations of fs/vfs.c are list operations: appending a component is a
    snoc, ".." removes the last one, and [vfs_normalize] runs the components
    of its argument over a stack.  Also: [vfs_find_mount] is a longest-prefix
    match and [vfs_access] tests the permission bits of one class. *)

From stdpp Require Import strings.
From S2P Require Import Prelude Machine VfsTypes Vfs.

(** ** Absolute paths *)

(** A component: not empty, without slashes. *)
Definition comp (c : list Z) : Prop := c <> [] /\ SLASH ∉ c.
(** One that is neither "." nor "..". *)
Definition plain (c : list Z) : Prop := comp c /\ c <> [DOT] /\ c <> [DOT; DOT].

#[global] Instance comp_dec c : Decision (comp c).
Proof. unfold comp. apply _. Defined.
#[global] Instance plain_dec c : Decision (plain c).
Proof. unfold plain. apply _. Defined.

Definition joined (cs : list (list Z)) : list Z := mjoin (cons SLASH <$> cs).
Definition render (cs : list (list Z)) : list Z :=
  match cs with [] => [SLASH] | _ => joined cs end.

Section Render.
Implicit Types (c : list Z) (cs : list (list Z)).

Lemma joined_app cs cs' : joined (cs ++ cs') = joined cs ++ joined cs'.
Proof. unfold joined. by rewrite fmap_app, join_app. Qed.

Lemma joined_one c : joined [c] = SLASH :: c.
Proof. unfold joined. simpl. by rewrite app_nil_r. Qed.

Lemma render_snoc cs c : render (cs ++ [c]) = joined cs ++ SLASH :: c.
Proof.
  transitivity (joined (cs ++ [c])); [by destruct cs|]. by rewrite joined_app, joined_one.
Qed.

Lemma render_not_root cs c : c <> [] -> render (cs ++ [c]) <> [SLASH].
Proof.
  intros Hc E. rewrite render_snoc in E. apply (f_equal length) in E. rewrite length_app in E.
  destruct c; [done|simpl in E; lia].
Qed.

Lemma render_length cs : (length (joined cs) <= length (render cs) <= S (length (joined cs)))%nat.
Proof. destruct cs; simpl; lia. Qed.

Lemma last_slash_None p : SLASH ∉ p -> last_slash p = None.
Proof.
  induction p as [|c p IH]; [done|]. rewrite not_elem_of_cons. intros [Hc Hp]. simpl.
  rewrite (IH Hp). case Z.eqb_spec; congruence.
Qed.

Lemma last_slash_app p c : SLASH ∉ c -> last_slash (p ++ SLASH :: c) = Some (length p).
Proof.
  intros Hc. induction p as [|x p IH]; simpl; [by rewrite last_slash_None|by rewrite IH].
Qed.

(** ".." on an absolute path. *)
Lemma chop_render cs c : comp c -> chop (render (cs ++ [c])) = render cs.
Proof.
  intros [_ Hc]. unfold chop. rewrite render_snoc, last_slash_app by done.
  destruct cs as [|c0 cs]; [done|]. change (render (c0 :: cs)) with (joined (c0 :: cs)).
  destruct (length (joined (c0 :: cs))) eqn:El; [done|]. rewrite <- El. by rewrite take_app_length.
Qed.

Lemma chop_root : chop (render []) = render [].
Proof. done. Qed.

Lemma strcat_fits size s t : Z.of_nat (length s + length t) < size -> strcat size s t = Some (s ++ t).
Proof. intros Hl. unfold strcat. case Z.ltb_spec; [done|lia]. Qed.

Lemma strcat_over size s t : size <= Z.of_nat (length s + length t) -> strcat size s t = None.
Proof. intros Hl. unfold strcat. case Z.ltb_spec; [lia|done]. Qed.

(** Appending a component, where it fits. *)
Lemma resolved_append_plain cs c :
  plain c -> Forall comp cs -> Z.of_nat (length (render (cs ++ [c]))) < PUREUNIX_MAX_PATH ->
  resolved_append (render cs) c = Some (render (cs ++ [c])).
Proof.
  intros (Hc & H1 & H2) Hcs Hl. unfold resolved_append, is_dot, is_dotdot.
  rewrite !bool_decide_eq_false_2 by done. rewrite render_snoc in *. rewrite length_app in Hl. simpl in Hl.
  destruct cs as [|c0 cs].
  - change (render []) with [SLASH]. rewrite bool_decide_eq_true_2 by done. unfold strcat.
    case Z.ltb_spec; [done|]. simpl in *. lia.
  - assert (render (c0 :: cs) <> [SLASH]) as Hr.
    { intros E. apply Forall_cons in Hcs as [[Hne _] _]. simpl in E. destruct c0; [done|]. simpl in E. done. }
    rewrite bool_decide_eq_false_2 by done. change (render (c0 :: cs)) with (joined (c0 :: cs)).
    set (J := joined (c0 :: cs)) in *. clearbody J.
    rewrite strcat_fits by (cbn [length]; lia). cbn [mbind option_bind].
    rewrite strcat_fits by (rewrite length_app; cbn [length]; lia). by rewrite <- (assoc_L (++)).
Qed.

(** It overflows exactly when the result does not fit. *)
Lemma resolved_append_overflow cs c :
  plain c -> Forall comp cs -> PUREUNIX_MAX_PATH <= Z.of_nat (length (render (cs ++ [c]))) ->
  resolved_append (render cs) c = None.
Proof.
  intros (Hc & H1 & H2) Hcs Hl. unfold resolved_append, is_dot, is_dotdot.
  rewrite !bool_decide_eq_false_2 by done. rewrite render_snoc in *. rewrite length_app in Hl. simpl in Hl.
  destruct cs as [|c0 cs].
  - change (render []) with [SLASH]. rewrite bool_decide_eq_true_2 by done. unfold strcat.
    case Z.ltb_spec; [|done]. simpl in *. lia.
  - assert (render (c0 :: cs) <> [SLASH]) as Hr.
    { intros E. apply Forall_cons in Hcs as [[Hne _] _]. simpl in E. destruct c0; [done|]. simpl in E. done. }
    rewrite bool_decide_eq_false_2 by done. change (render (c0 :: cs)) with (joined (c0 :: cs)).
    set (J := joined (c0 :: cs)) in *. clearbody J.
    destruct (strcat _ _ [SLASH]) as [r|] eqn:Er; [|done]. unfold strcat in Er.
    destruct (_ <? _); [|done]. injection Er as <-. cbn [mbind option_bind].
    apply strcat_over. rewrite length_app. cbn [length]. lia.
Qed.
End Render.

(** ** Normalisation *)

(** One component over a stack. *)
Definition norm_step (cs : list (list Z)) (c : list Z) : list (list Z) :=
  if is_dot c then cs else if is_dotdot c then removelast cs else cs ++ [c].
Definition normal (base toks : list (list Z)) : list (list Z) := foldl norm_step base toks.

Section Normalise.
Implicit Types (c : list Z) (cs toks : list (list Z)).

Lemma comp_cases c : comp c -> c = [DOT] \/ c = [DOT; DOT] \/ plain c.
Proof.
  intros Hc. destruct (decide (c = [DOT])); [by left|]. destruct (decide (c = [DOT; DOT])); [by right; left|].
  by right; right.
Qed.

Lemma norm_step_plain cs c : plain c -> norm_step cs c = cs ++ [c].
Proof.
  intros (_ & H1 & H2). unfold norm_step, is_dot, is_dotdot. by rewrite !bool_decide_eq_false_2.
Qed.

Lemma removelast_cases cs : cs = [] \/ exists cs' c, cs = cs' ++ [c] /\ removelast cs = cs'.
Proof.
  destruct cs as [|c cs] using rev_ind; [by left|right]. exists cs, c. split; [done|].
  rewrite removelast_app by done. by rewrite app_nil_r.
Qed.

Lemma norm_step_ok P cs c : (forall c, plain c -> P c) -> comp c -> Forall P cs -> Forall P (norm_step cs c).
Proof.
  intros HP Hc Hcs. destruct (comp_cases c Hc) as [->|[->|Hp]]; [done| |].
  - change (norm_step cs [DOT; DOT]) with (removelast cs).
    destruct (removelast_cases cs) as [->|(cs' & x & -> & ->)]; [done|]. by apply Forall_app in Hcs as [? _].
  - rewrite norm_step_plain by done. apply Forall_app_2; [done|]. apply Forall_cons_2; [by apply HP|done].
Qed.

Lemma norm_step_length cs c : comp c ->
  (length (joined (norm_step cs c)) <= length (joined cs) + S (length c))%nat.
Proof.
  intros Hc. destruct (comp_cases c Hc) as [->|[->|Hp]].
  - change (norm_step cs [DOT]) with cs. lia.
  - change (norm_step cs [DOT; DOT]) with (removelast cs).
    destruct (removelast_cases cs) as [->|(cs' & x & -> & ->)]; [simpl; lia|].
    rewrite joined_app, length_app. lia.
  - rewrite norm_step_plain, joined_app, joined_one, length_app by done. simpl. lia.
Qed.

Lemma append_component_step cs c :
  comp c -> Forall comp cs ->
  Z.of_nat (length (joined cs)) + Z.of_nat (length c) + 1 < PUREUNIX_MAX_PATH ->
  append_component (render cs) c = Some (render (norm_step cs c)).
Proof.
  intros Hc Hcs Hl. unfold append_component. rewrite bool_decide_eq_false_2 by apply Hc.
  destruct (comp_cases c Hc) as [->|[->|Hp]]; [done| |].
  - change (norm_step cs [DOT; DOT]) with (removelast cs).
    change (resolved_append (render cs) [DOT; DOT]) with (Some (chop (render cs))). f_equal.
    destruct (removelast_cases cs) as [->|(cs' & x & -> & ->)]; [done|].
    apply chop_render. apply Forall_app in Hcs as [_ Hx]. by apply Forall_cons in Hx as [? _].
  - rewrite norm_step_plain by done. apply resolved_append_plain; [done|done|].
    rewrite render_snoc, length_app. simpl. lia.
Qed.

Lemma append_all_normal toks : forall cs,
  Forall comp toks -> Forall comp cs ->
  Z.of_nat (length (joined cs)) + Z.of_nat (length (joined toks)) < PUREUNIX_MAX_PATH ->
  append_all (render cs) toks = Some (render (normal cs toks)).
Proof.
  induction toks as [|t toks IH]; intros cs Ht Hcs Hl; [done|]. cbn [append_all].
  apply Forall_cons in Ht as [Ht Hts]. pose proof (norm_step_length cs t Ht) as Hn.
  change (t :: toks) with ([t] ++ toks) in Hl. rewrite joined_app, joined_one, length_app in Hl. simpl in Hl.
  rewrite append_component_step by (done || lia). cbn [mbind option_bind]. apply IH; [done| |lia].
  apply norm_step_ok; [|done|done]. by intros ? [? _].
Qed.

(** The tokens of a path are components, and no longer than it. *)
Lemma path_tokens_comps p : forall cur, SLASH ∉ cur -> Forall comp (path_tokens p cur).
Proof.
  assert (forall cur, cur <> [] -> SLASH ∉ cur -> comp (rev cur)) as Hrev.
  { intros cur Hne Hn. split; [|by rewrite list_elem_of_In, <- in_rev, <- list_elem_of_In].
    intros E. apply Hne. by rewrite <- (rev_involutive cur), E. }
  induction p as [|c p IH]; intros cur Hcur; cbn [path_tokens].
  - case_decide; [done|]. apply Forall_cons_2; [by apply Hrev|done].
  - case Z.eqb_spec; intros Hc.
    + case_decide; [apply IH; apply not_elem_of_nil|]. apply Forall_cons_2; [by apply Hrev|]. apply IH, not_elem_of_nil.
    + apply IH. apply not_elem_of_cons. split; [congruence|done].
Qed.

Lemma path_tokens_joined p : forall cur,
  (length (joined (path_tokens p cur)) <= S (length p + length cur))%nat.
Proof.
  induction p as [|c p IH]; intros cur; cbn [path_tokens].
  - case_decide as Hc; [simpl; lia|]. rewrite joined_one. simpl. rewrite length_rev. lia.
  - case Z.eqb_spec; intros Hs.
    + case_decide as Hc; [subst cur; etrans; [apply IH|simpl; lia]|].
      change (rev cur :: path_tokens p []) with ([rev cur] ++ path_tokens p []).
      rewrite joined_app, joined_one, length_app. simpl. rewrite length_rev. specialize (IH []). simpl in IH. lia.
    + etrans; [apply IH|]. simpl. lia.
Qed.
End Normalise.

(** ** Parsing a rendered path *)

Section Parse.
Implicit Types (c p r : list Z) (cs : list (list Z)).

(** Empty, or at a component boundary. *)
Definition boundary (r : list Z) : Prop := r = [] \/ hd_error r = Some SLASH.

Lemma boundary_joined cs : boundary (joined cs).
Proof. destruct cs; [by left|by right]. Qed.

Lemma cut_unique c c' r r' :
  SLASH ∉ c -> SLASH ∉ c' -> boundary r -> boundary r' -> c ++ r = c' ++ r' -> c = c' /\ r = r'.
Proof.
  revert c'. induction c as [|x c IH]; intros [|x' c'] Hc Hc' Hr Hr' E; simpl in E.
  - done.
  - exfalso. destruct Hr as [->|Hr]; [done|]. rewrite E in Hr. injection Hr as ->. apply Hc'. left.
  - exfalso. destruct Hr' as [->|Hr']; [done|]. rewrite <- E in Hr'. injection Hr' as ->. apply Hc. left.
  - injection E as -> E. rewrite not_elem_of_cons in Hc, Hc'.
    destruct (IH c') as [-> ->]; [apply Hc|apply Hc'|done..].
Qed.

Lemma joined_cons c cs : joined (c :: cs) = SLASH :: c ++ joined cs.
Proof. done. Qed.

Lemma joined_prefix ms : forall ps tail,
  Forall comp ms -> Forall comp ps -> boundary tail -> joined ms ++ tail = joined ps ->
  exists rest, ps = ms ++ rest /\ tail = joined rest.
Proof.
  induction ms as [|m ms IH]; intros ps tail Hm Hp Ht E; [by exists ps|].
  apply Forall_cons in Hm as [[_ Hm] Hms]. rewrite joined_cons in E.
  destruct ps as [|p ps]; [done|]. apply Forall_cons in Hp as [[_ Hp] Hps]. rewrite joined_cons in E.
  injection E as E. rewrite <- (assoc_L (++)) in E. apply cut_unique in E as [-> E]; [|done|done| |apply boundary_joined].
  - destruct (IH ps tail) as (rest & -> & ->); [done..|]. by exists rest.
  - destruct ms; [done|by right].
Qed.

(** Rendering and splitting are inverse. *)
Lemma path_tokens_render cs : Forall comp cs -> path_tokens (joined cs) [] = cs.
Proof.
  induction 1 as [|c cs [Hne Hc] _ IH]; [done|]. rewrite joined_cons. cbn [path_tokens].
  change (SLASH =? SLASH) with true. rewrite decide_True by done. rewrite path_tokens_skip, app_nil_r by done.
  assert (rev c <> []) as Hr by (intros E; apply Hne; by rewrite <- (rev_involutive c), E).
  destruct cs as [|c' cs].
  - cbn [joined fmap list_fmap mjoin list_join path_tokens]. rewrite decide_False by done. by rewrite rev_involutive.
  - rewrite joined_cons in *. cbn [path_tokens] in *. change (SLASH =? SLASH) with true in *.
    rewrite decide_True in IH by done. rewrite decide_False by done. by rewrite rev_involutive, IH.
Qed.
End Parse.

(** ** Mounts *)

Section Mounts.
Context {D : Type}.
Implicit Types (m : vfs_mount_t D) (ms : list (vfs_mount_t D)) (cs rest : list (list Z)).

(** A mount at [cs] covers a path exactly when its components start with [cs]. *)
Lemma path_under_mount_prefix cs ps : Forall comp cs -> Forall comp ps ->
  path_under_mount (render ps) (render cs) = true <-> cs `prefix_of` ps.
Proof.
  intros Hcs Hps. unfold path_under_mount. destruct cs as [|c cs].
  { split; [intros _; apply prefix_nil|]. intros _. destruct ps; done. }
  assert (1 < length (render (c :: cs)))%nat as Hlen.
  { apply Forall_cons in Hcs as [[Hne _] _]. destruct c; [done|]. simpl. lia. }
  change (render (c :: cs)) with (joined (c :: cs)) in *. set (M := joined (c :: cs)) in *.
  split.
  - case_bool_decide as Ht; [|done]. cbn [negb]. rewrite (proj2 (Nat.leb_gt _ _)) by done.
    assert (render ps = joined ps) as Er.
    { destruct ps; [|done]. apply (f_equal length) in Ht. rewrite length_take in Ht.
      change (length (render [])) with 1%nat in Ht. lia. }
    rewrite Er in *. intros Hb. rewrite <- (take_drop (length M) (joined ps)) in Hb.
    pose proof (take_drop (length M) (joined ps)) as E. rewrite Ht in E.
    destruct (joined_prefix (c :: cs) ps (drop (length M) (joined ps))) as (rest & -> & _); [done|done| |done|].
    + rewrite Ht, lookup_app_r, Nat.sub_diag in Hb by done.
      destruct (drop (length M) (joined ps)) as [|x l]; [by left|right]. simpl in *.
      by apply Z.eqb_eq in Hb as ->.
    + by exists rest.
  - intros [rest ->]. change (render ((c :: cs) ++ rest)) with (joined ((c :: cs) ++ rest)).
    rewrite joined_app. fold M. rewrite take_app_length, bool_decide_eq_true_2 by done. cbn [negb].
    rewrite (proj2 (Nat.leb_gt _ _)) by done. rewrite lookup_app_r, Nat.sub_diag by done.
    destruct rest; done.
Qed.

(** What the driver sees of a path below its mountpoint. *)
Lemma sub_path_render cs rest : Forall comp cs -> Forall comp rest ->
  Z.of_nat (length (render rest)) < PUREUNIX_MAX_PATH ->
  sub_path (render cs) (render (cs ++ rest)) = render rest.
Proof.
  intros Hcs Hrest Hl. unfold sub_path.
  assert (forall p, p = render rest -> strncpy PUREUNIX_MAX_PATH p = render rest) as Hs.
  { intros p ->. unfold strncpy. apply take_ge. unfold PUREUNIX_MAX_PATH in *. lia. }
  destruct cs as [|c cs]; [cbn [app]; apply Hs; by destruct rest|].
  assert (1 < length (render (c :: cs)))%nat as Hlen.
  { apply Forall_cons in Hcs as [[Hne _] _]. destruct c; [done|]. simpl. lia. }
  rewrite (proj2 (Nat.leb_gt _ _)) by done.
  change (render ((c :: cs) ++ rest)) with (joined ((c :: cs) ++ rest)).
  change (render (c :: cs)) with (joined (c :: cs)). rewrite joined_app, drop_app_length.
  apply Hs. by destruct rest.
Qed.

(** The scan keeps the last of the longest. *)
Lemma find_mount_from_spec path : forall ms i best best_len,
  match find_mount_from ms i path best best_len with
  | Some k =>
      (exists j m, k = (i + j)%nat /\ ms !! j = Some m /\ path_under_mount path (mountpoint m) = true /\
         (best_len <= length (mountpoint m))%nat /\
         forall j' m', ms !! j' = Some m' -> path_under_mount path (mountpoint m') = true ->
           (length (mountpoint m') <= length (mountpoint m))%nat /\
           (length (mountpoint m') = length (mountpoint m) -> (j' <= j)%nat)) \/
      (best = Some k /\ forall j m, ms !! j = Some m -> path_under_mount path (mountpoint m) = true ->
         (length (mountpoint m) < best_len)%nat)
  | None => best = None /\ forall j m, ms !! j = Some m -> path_under_mount path (mountpoint m) = true ->
      (length (mountpoint m) < best_len)%nat
  end.
Proof.
  induction ms as [|m ms IH]; intros i best best_len; cbn [find_mount_from].
  { destruct best; [right|]; (split; [done|]); by intros. }
  destruct (path_under_mount path (mountpoint m)) eqn:Em; cbn [andb].
  2:{ specialize (IH (S i) best best_len). destruct (find_mount_from _ _ _ _ _) as [k|].
      - destruct IH as [(j & m' & -> & Hj & Hu & Hb & Hmax)|[-> Hb]].
        + left. exists (S j), m'. split_and!; [lia|done..|]. intros [|j'] m'' Hj' Hu'; simpl in Hj'.
          * injection Hj' as <-. congruence.
          * destruct (Hmax j' m'' Hj' Hu'). split; [done|]. intros. apply le_n_S; auto.
        + right. split; [done|]. intros [|j] m' Hj Hu; simpl in Hj; [injection Hj as <-; congruence|by eapply Hb].
      - destruct IH as [-> Hb]. split; [done|].
        intros [|j] m' Hj Hu; simpl in Hj; [injection Hj as <-; congruence|by eapply Hb]. }
  case Nat.leb_spec; intros Hle.
  - specialize (IH (S i) (Some i) (length (mountpoint m))). destruct (find_mount_from _ _ _ _ _) as [k|].
    + left. destruct IH as [(j & m' & -> & Hj & Hu & Hb & Hmax)|[[= <-] Hb]].
      * exists (S j), m'. split_and!; [lia|done|done|lia|]. intros [|j'] m'' Hj' Hu'; simpl in Hj'.
        -- injection Hj' as <-. split; [done|lia].
        -- destruct (Hmax j' m'' Hj' Hu') as [? Hm]. split; [done|]. intros He. specialize (Hm He). lia.
      * exists 0%nat, m. split_and!; [lia|done|done|done|]. intros [|j'] m'' Hj' Hu'; simpl in Hj'.
        -- injection Hj' as <-. done.
        -- specialize (Hb _ _ Hj' Hu'). lia.
    + by destruct IH as [? _].
  - specialize (IH (S i) best best_len). destruct (find_mount_from _ _ _ _ _) as [k|].
    + destruct IH as [(j & m' & -> & Hj & Hu & Hb & Hmax)|[-> Hb]].
      * left. exists (S j), m'. split_and!; [lia|done..|]. intros [|j'] m'' Hj' Hu'; simpl in Hj'.
        -- injection Hj' as <-. lia.
        -- destruct (Hmax j' m'' Hj' Hu') as [? Hm]. split; [done|]. intros He. specialize (Hm He). lia.
      * right. split; [done|]. intros [|j] m' Hj Hu; simpl in Hj; [injection Hj as <-; lia|by eapply Hb].
    + destruct IH as [-> Hb]. split; [done|].
      intros [|j] m' Hj Hu; simpl in Hj; [injection Hj as <-; lia|by eapply Hb].
Qed.
End Mounts.

(** ** Main results *)

(** C35: [vfs_normalize] of a path against an absolute working directory
    runs the path's components over a stack: "." is dropped, ".." removes the
    last component (none at the root), anything else is added; an absolute
    path starts from the root.  The result is an absolute path without ".",
    ".." or empty components.  (Where working directory and path together fit
    the 256-byte buffer.) *)
Theorem vfs_normalize_correct cwd path :
  Forall plain cwd -> path <> [] ->
  Z.of_nat (length (render cwd)) + Z.of_nat (length path) + 1 < PUREUNIX_MAX_PATH ->
  let cs := normal (if bool_decide (hd_error path = Some SLASH) then [] else cwd) (path_tokens path []) in
  vfs_normalize (Some (render cwd)) (Some path) = Some (render cs) /\ Forall plain cs.
Proof.
  intros Hcwd Hne Hl cs. set (base := if bool_decide (hd_error path = Some SLASH) then [] else cwd) in cs.
  assert (Forall plain base) as Hbase by (unfold base; by case_bool_decide).
  assert (Forall comp base) as Hcomp by (eapply Forall_impl; [exact Hbase|by intros ? [? _]]).
  assert (Forall comp (path_tokens path [])) as Ht by apply path_tokens_comps, not_elem_of_nil.
  split.
  - assert (append_all (render base) (path_tokens path []) = Some (render cs)) as Ha.
    { apply append_all_normal; [done|done|]. pose proof (path_tokens_joined path []). simpl in *.
      pose proof (render_length cwd). unfold base. case_bool_decide; simpl in *; lia. }
    assert (render cs <> []) as Hr by (by destruct cs).
    unfold vfs_normalize, strncpy, PUREUNIX_MAX_PATH in *. destruct path as [|c rest]; [done|]. simpl in Hl.
    destruct (Z.eqb_spec c SLASH) as [->|Hc].
    + unfold base in Ha. rewrite bool_decide_eq_true_2 in Ha by done.
      rewrite take_ge by lia. cbn [path_tokens] in Ha. change (SLASH =? SLASH) with true in Ha.
      rewrite decide_True in Ha by done. change [SLASH] with (render []). rewrite Ha. simpl. by destruct (render cs).
    + unfold base in Ha. rewrite bool_decide_eq_false_2 in Ha by (simpl; congruence).
      rewrite (take_ge (match render cwd with [] => _ | _ => _ end)), (take_ge (c :: rest))
        by (destruct (render cwd); simpl in *; lia).
      replace (match render cwd with [] => [SLASH] | _ => render cwd end) with (render cwd) by (by destruct cwd).
      rewrite Ha. simpl. by destruct (render cs).
  - unfold cs, normal. clear cs Hcomp Hl. clearbody base. revert base Hbase.
    induction Ht as [|t toks Ht _ IH]; intros base Hbase; [done|]. simpl. apply IH. by apply norm_step_ok.
Qed.

Lemma vfs_normalize_correct_witness :
  let cs := normal [lit "home"; lit "user"] (path_tokens (lit "../a/.//b") []) in
  vfs_normalize (Some (render [lit "home"; lit "user"])) (Some (lit "../a/.//b")) = Some (render cs) /\
  Forall plain cs.
Proof.
  apply (vfs_normalize_correct [lit "home"; lit "user"] (lit "../a/.//b")).
  - apply (bool_decide_unpack _). vm_compute. exact I.
  - discriminate.
  - reflexivity.
Defined.

(** Normalising an absolute path that has no ".", ".." or empty
    component gives the same path back, whatever the working directory. *)
Theorem vfs_normalize_idempotent cwd cs :
  Forall plain cs -> Z.of_nat (length (render cs)) + 2 < PUREUNIX_MAX_PATH ->
  vfs_normalize cwd (Some (render cs)) = Some (render cs).
Proof.
  intros Hcs Hl. assert (Forall comp cs) as Hc by (eapply Forall_impl; [exact Hcs|by intros ? [? _]]).
  unfold vfs_normalize. destruct (render cs) as [|c rest] eqn:Er; [by destruct cs|].
  assert (c = SLASH /\ path_tokens rest [] = cs) as [-> Ht].
  { destruct cs as [|c0 cs]; [by injection Er as <- <-|]. change (joined (c0 :: cs) = c :: rest) in Er.
    pose proof (path_tokens_render _ Hc) as Hp. rewrite Er in Hp. rewrite joined_cons in Er. injection Er as <- _.
    done. }
  change (SLASH =? SLASH) with true. cbn beta iota. unfold strncpy. rewrite take_ge
    by (unfold PUREUNIX_MAX_PATH in *; simpl in Hl; lia).
  rewrite Ht. change (append_all [SLASH] cs) with (append_all (render []) cs).
  rewrite append_all_normal; [|done|done|].
  - assert (forall base, normal base cs = base ++ cs) as ->.
    { clear -Hcs. induction Hcs as [|c cs Hc _ IH]; intros base; [by rewrite app_nil_r|]. cbn [normal foldl].
      rewrite norm_step_plain by done. fold (normal (base ++ [c]) cs). by rewrite IH, <- (assoc_L (++)). }
    cbn [mbind option_bind app]. by rewrite Er.
  - pose proof (render_length cs) as Hr. rewrite Er in Hr. simpl in *. lia.
Qed.

Lemma vfs_normalize_idempotent_witness :
  vfs_normalize None (Some (render [lit "usr"; lit "bin"])) = Some (render [lit "usr"; lit "bin"]).
Proof.
  apply (vfs_normalize_idempotent None [lit "usr"; lit "bin"]);
    [apply (bool_decide_unpack _); vm_compute; exact I|reflexivity].
Defined.

(** [vfs_normalize] can write past its 256-byte output buffer: a
    working directory of 201 bytes and a relative path of 100 bytes, each
    accepted on its own, do not fit together. *)
Theorem vfs_normalize_overflow :
  vfs_normalize (Some (render [replicate 200 97])) (Some (replicate 100 98)) = None.
Proof. vm_compute. reflexivity. Qed.

(** ** Permission bits *)

Lemma land_7_range x : 0 <= Z.land x 7 < 8.
Proof. change 7 with (Z.ones 3). rewrite Z.land_ones by lia. apply Z.mod_pos_bound. lia. Qed.

Lemma land_mask_zero m :
  (Z.land m S_IXANY =? 0) = negb (Z.testbit m 0 || Z.testbit m 3 || Z.testbit m 6).
Proof.
  assert (forall k, Z.testbit (Z.land m S_IXANY) k = Z.testbit m k && Z.testbit S_IXANY k) as Hb
    by (intros; apply Z.land_spec).
  case Z.eqb_spec; intros E.
  - rewrite E in Hb. pose proof (Hb 0) as H0. pose proof (Hb 3) as H3. pose proof (Hb 6) as H6.
    change (Z.testbit S_IXANY 0) with true in H0. change (Z.testbit S_IXANY 3) with true in H3.
    change (Z.testbit S_IXANY 6) with true in H6. rewrite Z.testbit_0_l, andb_true_r in *.
    by rewrite <- H0, <- H3, <- H6.
  - destruct (Z.testbit m 0) eqn:B0, (Z.testbit m 3) eqn:B3, (Z.testbit m 6) eqn:B6; try done.
    exfalso. apply E. apply Z.bits_inj'. intros k Hk. rewrite Hb, Z.testbit_0_l.
    destruct (Z.lt_ge_cases k 7) as [Hlt|Hge].
    + assert (k = 0 \/ k = 1 \/ k = 2 \/ k = 3 \/ k = 4 \/ k = 5 \/ k = 6) as Hk7 by lia.
      destruct_or! Hk7; subst k; rewrite ?B0, ?B3, ?B6; try done; apply andb_false_r.
    + rewrite (Z.bits_above_log2 S_IXANY k) by (done || (change (Z.log2 S_IXANY) with 6; lia)). apply andb_false_r.
Qed.

Section Main.
Context {D : Type}.
Implicit Types (s : vfs D) (ms : list (vfs_mount_t D)).

(** The components of the mountpoints of a table. *)
Definition mounted_at ms (pts : list (list (list Z))) : Prop :=
  mountpoint <$> ms = render <$> pts /\ Forall (Forall comp) pts.

Lemma dispatch_longest s pts ps :
  mounted_at (mount_table s) pts -> Forall comp ps ->
  Z.of_nat (length (render ps)) < PUREUNIX_MAX_PATH ->
  run (vfs_dispatch (render ps)) s (fun r s' => s' = s /\
    match r with
    | Some (i, ops, sub) => exists cs rest m, pts !! i = Some cs /\ ps = cs ++ rest /\ sub = render rest /\
        mount_table s !! i = Some m /\ ops = mnt_ops m /\
        forall j cs', pts !! j = Some cs' -> cs' `prefix_of` ps ->
          (length (render cs') <= length (render cs))%nat /\
          (length (render cs') = length (render cs) -> (j <= i)%nat)
    | None => forall j cs', pts !! j = Some cs' -> ~ cs' `prefix_of` ps
    end).
Proof.
  intros [Hm Hp] Hps Hl. split; [done|]. cbn [vfs_dispatch gets fst]. unfold vfs_find_mount.
  assert (forall j m, mount_table s !! j = Some m -> exists cs, pts !! j = Some cs /\ mountpoint m = render cs /\
    Forall comp cs) as Hmp.
  { intros j m Hj. assert ((mountpoint <$> mount_table s) !! j = Some (mountpoint m)) as Hj'
      by (by rewrite list_lookup_fmap, Hj).
    rewrite Hm, list_lookup_fmap in Hj'. destruct (pts !! j) as [cs|] eqn:Ej; [|done].
    injection Hj' as Hj'. exists cs. split_and!; [done|done|]. by eapply (Forall_lookup_1 _ _ _ _ Hp). }
  assert (forall j cs, pts !! j = Some cs -> exists m, mount_table s !! j = Some m /\ mountpoint m = render cs /\
    Forall comp cs) as Hpm.
  { intros j cs Hj. assert ((mountpoint <$> mount_table s) !! j = Some (render cs)) as Hj'
      by (by rewrite Hm, list_lookup_fmap, Hj).
    rewrite list_lookup_fmap in Hj'. destruct (mount_table s !! j) as [m|] eqn:Ej; [|done].
    injection Hj' as Hj'. exists m. split_and!; [done|done|]. by eapply (Forall_lookup_1 _ _ _ _ Hp). }
  assert (exists p, render ps = SLASH :: p) as [p Ep] by (destruct ps; [by exists []|eexists; apply joined_cons]).
  pose proof (find_mount_from_spec (render ps) (mount_table s) 0 None 0) as HF. rewrite Ep in HF |- *.
  change (SLASH =? SLASH) with true. cbn beta iota. rewrite <- Ep in *.
  destruct (find_mount_from _ _ _ _ _) as [k|].
  - destruct HF as [(j & m & -> & Hj & Hu & _ & Hmax)|[? _]]; [|done]. cbn [plus mbind option_bind].
    rewrite Hj. cbn [mbind option_bind]. destruct (Hmp j m Hj) as (cs & Hcs & Ems & Hcomp).
    rewrite Ems in *. apply path_under_mount_prefix in Hu as [rest ->]; [|done|done].
    exists cs, rest, m. apply Forall_app in Hps as [_ Hrest]. split_and!; try done.
    + apply sub_path_render; [done|done|]. assert (length (render rest) <= length (render (cs ++ rest)))%nat; [|lia].
      destruct cs as [|c cs]; [done|]. change (render ((c :: cs) ++ rest)) with (joined ((c :: cs) ++ rest)).
      rewrite joined_app, joined_cons, length_app. pose proof (render_length rest). simpl. lia.
    + intros j' cs' Hj' Hpre. destruct (Hpm _ _ Hj') as (m' & Hm' & Em' & Hc').
      rewrite <- Em'. apply Hmax; [done|]. rewrite Em'. apply path_under_mount_prefix; [done| |done].
      by apply Forall_app_2.
  - intros j cs' Hj Hpre. destruct (Hpm _ _ Hj) as (m & Hm' & Em & Hc).
    destruct HF as [_ HF]. enough (length (mountpoint m) < 0)%nat by lia. apply (HF j); [done|].
    rewrite Em. by apply path_under_mount_prefix.
Qed.

(** [vfs_dispatch] sends an absolute path to the mount whose
    components are the longest prefix of the path's (the latest of equals),
    with the remaining components as the path the driver sees; it finds none
    exactly when no mountpoint is a prefix. *)
Theorem vfs_dispatch_longest s pts ps :
  mounted_at (mount_table s) pts -> Forall comp ps ->
  Z.of_nat (length (render ps)) < PUREUNIX_MAX_PATH ->
  run (vfs_dispatch (render ps)) s (fun r s' => s' = s /\
    match r with
    | Some (i, ops, sub) => exists cs rest m, pts !! i = Some cs /\ ps = cs ++ rest /\ sub = render rest /\
        mount_table s !! i = Some m /\ ops = mnt_ops m /\
        forall j cs', pts !! j = Some cs' -> cs' `prefix_of` ps ->
          (length (render cs') <= length (render cs))%nat /\
          (length (render cs') = length (render cs) -> (j <= i)%nat)
    | None => forall j cs', pts !! j = Some cs' -> ~ cs' `prefix_of` ps
    end).
Proof. apply dispatch_longest. Qed.

(** For a user other than root [vfs_access] grants a request exactly
    when every requested bit is set in the permission bits of the one class
    that applies: owner, else group, else others.  Root is granted everything
    except execution of a file no class may execute. *)
Theorem vfs_access_correct st uid gid (r w x : bool) :
  let requested := (if r then R_OK else 0) + (if w then W_OK else 0) + (if x then X_OK else 0) in
  let shift := if st_uid st =? uid then 6 else if st_gid st =? gid then 3 else 0 in
  let bit b := Z.testbit (st_mode st) b in
  vfs_access st uid gid requested =
    if uid =? 0 then negb x || bit 0 || bit 3 || bit 6
    else (negb r || bit (shift + 2)) && (negb w || bit (shift + 1)) && (negb x || bit shift).
Proof.
  cbv zeta. unfold vfs_access. destruct (uid =? 0) eqn:Eu.
  - assert ((Z.land (st_mode st) S_IXANY =? 0) =
      negb (Z.testbit (st_mode st) 0 || Z.testbit (st_mode st) 3 || Z.testbit (st_mode st) 6)) as ->.
    { apply land_mask_zero. }
    by destruct (Z.testbit (st_mode st) 0), (Z.testbit (st_mode st) 3), (Z.testbit (st_mode st) 6), r, w, x.
  - set (sh := if st_uid st =? uid then 6 else if st_gid st =? gid then 3 else 0).
    replace (if st_uid st =? uid then Z.land (Z.shiftr (st_mode st) 6) 7
             else if st_gid st =? gid then Z.land (Z.shiftr (st_mode st) 3) 7 else Z.land (st_mode st) 7)
      with (Z.land (Z.shiftr (st_mode st) sh) 7)
      by (unfold sh; destruct (st_uid st =? uid); [done|]; by destruct (st_gid st =? gid)).
    assert (0 <= sh) as Hsh by (unfold sh; repeat case_match; lia). clearbody sh.
    assert (forall k, 0 <= k < 3 -> Z.testbit (st_mode st) (sh + k) = Z.testbit (Z.land (Z.shiftr (st_mode st) sh) 7) k) as Hb.
    { intros k Hk. rewrite Z.land_spec, Z.shiftr_spec, (Z.add_comm k) by lia.
      assert (k = 0 \/ k = 1 \/ k = 2) as Hk3 by lia. destruct_or! Hk3; subst k; by rewrite andb_true_r. }
    replace (Z.testbit (st_mode st) sh) with (Z.testbit (st_mode st) (sh + 0)) by (by rewrite Z.add_0_r).
    rewrite !Hb by lia.
    assert (0 <= Z.land (Z.shiftr (st_mode st) sh) 7 < 8) as Hr by apply land_7_range.
    set (b := Z.land _ 7) in *. clearbody b.
    assert (b = 0 \/ b = 1 \/ b = 2 \/ b = 3 \/ b = 4 \/ b = 5 \/ b = 6 \/ b = 7) as Hb8 by lia.
    destruct_or! Hb8; subst b; by destruct r, w, x.
Qed.
End Main.

Definition no_ops : vfs_ops unit :=
  mk_ops None None None None None None None None None None None None.

Lemma vfs_dispatch_longest_witness :
  let s := mk_vfs [mk_mount (lit "/") VFS_FS_EXT2 no_ops None; mk_mount (lit "/fat") VFS_FS_FAT16 no_ops None]
             [] tt in
  let pts := [[]; [lit "fat"]] in
  let ps := [lit "fat"; lit "a"] in
  run (vfs_dispatch (render ps)) s (fun r s' => s' = s /\
    match r with
    | Some (i, ops, sub) => exists cs rest m, pts !! i = Some cs /\ ps = cs ++ rest /\ sub = render rest /\
        mount_table s !! i = Some m /\ ops = mnt_ops m /\
        forall j cs', pts !! j = Some cs' -> cs' `prefix_of` ps ->
          (length (render cs') <= length (render cs))%nat /\
          (length (render cs') = length (render cs) -> (j <= i)%nat)
    | None => forall j cs', pts !! j = Some cs' -> ~ cs' `prefix_of` ps
    end).
Proof.
  intros s pts ps. apply (vfs_dispatch_longest s pts ps).
  - split; [reflexivity|]. apply (bool_decide_unpack _). vm_compute. exact I.
  - apply (bool_decide_unpack _). vm_compute. exact I.
  - reflexivity.
Defined.
