(* ===== verification/VfsResolve.v ===== *)
(** * Path resolution and the reference monitor

    [tree_view] says what a client of the drivers sees in a set of states: the
    result of every [stat].  Against it, [resolve_path] of fs/vfs.c yields
    canonical paths whose directories exist, are searchable by the caller and
    are no symbolic links; it finds every such path; and no entry point of the
    VFS calls a driver operation that changes the file system without the
    caller's permission on the object or on its directory. *)

From stdpp Require Import strings.
From S2P Require Import Prelude Machine VfsTypes Vfs VfsPaths.

(** ** The first component of a path *)

Section Component.
Implicit Types p c rest : list Z.

Lemma next_component_spec p c rest : next_component p = (c, rest) ->
  (SLASH ∉ c) /\ (length rest + length c <= length p)%nat /\ (p <> [] -> (length rest < length p)%nat) /\
  (p = c ++ SLASH :: rest \/ (p = c /\ rest = [])).
Proof.
  revert c rest. induction p as [|x p IH]; intros c rest; simpl.
  - intros [= <- <-]. split_and!; [apply not_elem_of_nil|simpl; lia|done|by right].
  - case Z.eqb_spec; intros Hx.
    + intros [= <- <-]. split_and!; [apply not_elem_of_nil|simpl; lia|simpl; lia|left; by rewrite Hx].
    + destruct (next_component p) as [c0 r0] eqn:E. intros [= <- <-].
      destruct (IH c0 r0 eq_refl) as (H1 & H2 & H3 & H4). simpl. split_and!.
      * apply not_elem_of_cons. split; [congruence|done].
      * lia.
      * lia.
      * destruct H4 as [->|[-> ->]]; [by left|by right].
Qed.

Lemma next_component_app c rest : SLASH ∉ c -> boundary rest ->
  next_component (c ++ rest) = (c, drop 1 rest).
Proof.
  induction c as [|x c IH]; intros Hc Hb; simpl.
  - destruct Hb as [->|Hb]; [done|]. destruct rest as [|y rest]; [done|]. injection Hb as ->. done.
  - apply not_elem_of_cons in Hc as [Hx Hc]. case Z.eqb_spec; [congruence|intros _]. by rewrite IH.
Qed.
End Component.

(** ** The view *)

Section View.
Context {D : Type}.
Abbreviation V := (vfs D).
Implicit Types (s : V) (cs pre : list (list Z)) (St : list Z -> option vfs_stat).

(** In the states of [Inv] every [stat] gives [St], and looking does not leave [Inv]. *)
Record tree_view (Inv : V -> Prop) St : Prop := {
  tv_stat s p : Inv s -> run (vfs_stat_raw p) s (fun r s' => r = St p /\ Inv s');
  tv_link s p st : Inv s -> St p = Some st -> st_type st = VFS_SYMLINK ->
    run (vfs_readlink_raw p (zeros PUREUNIX_MAX_PATH) (PUREUNIX_MAX_PATH - 1)) s
      (fun r s' => r.1 < PUREUNIX_MAX_PATH /\ Inv s');
  tv_error s msg : Inv s -> Inv (mk_vfs (mount_table s) msg (v_drv s));
}.

Definition symlink_at St cs : Prop :=
  exists st, St (render cs) = Some st /\ st_type st = VFS_SYMLINK.

(** [cs] names an existing node that is no symlink, through searchable
    directories that are none either. *)
Definition searchable St (uid gid : Z) cs : Prop :=
  exists st, St (render cs) = Some st /\ vfs_access st uid gid X_OK = true.

Record clean St (uid gid : Z) cs : Prop := {
  cl_plain : Forall plain cs;
  cl_search pre c : (pre ++ [c]) `prefix_of` cs -> searchable St uid gid pre;
  cl_exists pre c : (pre ++ [c]) `prefix_of` cs ->
    is_Some (St (render (pre ++ [c]))) /\ ~ symlink_at St (pre ++ [c]);
}.

(** What [resolve_path] may return: the last component may be missing, and it
    may be a symlink unless it was to be followed. *)
Record resolved_ok St (follow : bool) (uid gid : Z) cs : Prop := {
  ro_plain : Forall plain cs;
  ro_search pre c : (pre ++ [c]) `prefix_of` cs -> searchable St uid gid pre;
  ro_exists pre c : (pre ++ [c]) `prefix_of` cs -> pre ++ [c] <> cs ->
    is_Some (St (render (pre ++ [c]))) /\ ~ symlink_at St (pre ++ [c]);
  ro_last : follow = true -> cs <> [] -> ~ symlink_at St cs;
}.

Lemma clean_resolved St f uid gid cs : clean St uid gid cs -> resolved_ok St f uid gid cs.
Proof.
  intros [P1 P2 P3]. split; try done.
  - intros pre c Hp _. by eapply P3.
  - intros _ Hne. destruct cs as [|c cs _] using rev_ind; [done|]. by apply (P3 cs c).
Qed.

Lemma clean_nil St uid gid : clean St uid gid [].
Proof.
  assert (forall pre (c : list Z), ~ (pre ++ [c]) `prefix_of` []) as Hno.
  { intros pre c Hp. apply prefix_nil_inv in Hp. by destruct pre. }
  split; [done|..]; intros pre c Hp; by apply Hno in Hp.
Qed.

Lemma prefix_snoc_inv pre (c : list Z) cs x : (pre ++ [c]) `prefix_of` (cs ++ [x]) ->
  (pre ++ [c] = cs ++ [x]) \/ (pre ++ [c]) `prefix_of` cs.
Proof.
  intros [r E]. destruct r as [|y r _] using rev_ind; [left; by rewrite app_nil_r in E|].
  right. rewrite (assoc_L (++)) in E. apply app_inj_tail in E as [-> _]. by exists r.
Qed.

Lemma clean_prefix St uid gid cs x : clean St uid gid (cs ++ [x]) -> clean St uid gid cs.
Proof.
  intros [P1 P2 P3]. assert (cs `prefix_of` (cs ++ [x])) as Hp by (by exists [x]).
  split; [by apply Forall_app in P1 as [? _]|..]; intros pre c Hpre;
    [eapply P2|eapply P3]; by etransitivity.
Qed.

Lemma clean_removelast St uid gid cs : clean St uid gid cs -> clean St uid gid (removelast cs).
Proof.
  intros H. destruct (removelast_cases cs) as [->|(cs' & x & -> & ->)]; [done|]. by eapply clean_prefix.
Qed.

Lemma resolved_snoc St f uid gid cs c :
  clean St uid gid cs -> plain c -> searchable St uid gid cs ->
  (f = true -> ~ symlink_at St (cs ++ [c])) -> resolved_ok St f uid gid (cs ++ [c]).
Proof.
  intros [P1 P2 P3] Hc Hs Hl. split.
  - apply Forall_app_2; [done|]. by apply Forall_cons_2.
  - intros pre x [E|Hp]%prefix_snoc_inv; [by apply app_inj_tail in E as [-> _]|by eapply P2].
  - intros pre x [E|Hp]%prefix_snoc_inv Hne; [done|by apply P3].
  - by intros Hf _; apply Hl.
Qed.

Lemma clean_snoc St uid gid cs c :
  clean St uid gid cs -> plain c -> searchable St uid gid cs ->
  is_Some (St (render (cs ++ [c]))) -> ~ symlink_at St (cs ++ [c]) -> clean St uid gid (cs ++ [c]).
Proof.
  intros [P1 P2 P3] Hc Hs He Hl. split.
  - apply Forall_app_2; [done|]. by apply Forall_cons_2.
  - intros pre x [E|Hp]%prefix_snoc_inv; [by apply app_inj_tail in E as [-> _]|by eapply P2].
  - intros pre x [E|Hp]%prefix_snoc_inv; [by apply app_inj_tail in E as [-> ->]|by apply P3].
Qed.

Lemma plain_comps cs : Forall plain cs -> Forall comp cs.
Proof. intros. eapply Forall_impl; [done|]. by intros ? [? _]. Qed.
End View.

(** ** Soundness *)

Section Resolve.
Context {D : Type} (Inv : vfs D -> Prop) (St : list Z -> option vfs_stat).
Abbreviation V := (vfs D).
Context (TV : tree_view Inv St) (follow : bool) (uid gid : Z).
Implicit Types (s : V) (cs : list (list Z)).

(** The outcomes of resolution; [ok] is what is known of a result. *)
Definition resolve_errors (rc : Z) : Prop :=
  rc = - ENOENT \/ rc = - EACCES \/ rc = - ELOOP \/ rc = - ENAMETOOLONG.
Definition outcome {A} (ok : A -> Prop) (r : res A) s : Prop :=
  Inv s /\
  match r with
  | Done a => ok a
  | Err rc => resolve_errors rc
  | Overflow => exists cs c, clean St uid gid cs /\ plain c /\
      PUREUNIX_MAX_PATH <= Z.of_nat (length (render (cs ++ [c])))
  end.

Definition fits cs : Prop := Z.of_nat (length (render cs)) < PUREUNIX_MAX_PATH.

(** One component below [cs]. *)
Definition turn_ok (cs : list (list Z)) (last : bool) (t : turn) : Prop :=
  match t with
  | Next r => exists cs', r = render cs' /\ fits cs' /\ (last = false -> clean St uid gid cs') /\
                resolved_ok St follow uid gid cs'
  | Stop r => exists cs', r = render cs' /\ fits cs' /\ resolved_ok St follow uid gid cs'
  | Follow r _ => exists cs', r = render cs' /\ fits cs' /\ clean St uid gid cs'
  end.

Lemma strncpy_fits cs : fits cs -> strncpy PUREUNIX_MAX_PATH (render cs) = render cs.
Proof. unfold fits, strncpy, PUREUNIX_MAX_PATH. intros H. apply take_ge. lia. Qed.

Lemma resolve_step_run s allowed cs c rest :
  Inv s -> clean St uid gid cs -> fits cs -> plain c ->
  run (resolve_step follow uid gid allowed (render cs) c rest) s
    (outcome (turn_ok cs (bool_decide (rest = [])))).
Proof.
  intros I Hcs Hf Hc. unfold resolve_step.
  pose proof (plain_comps _ (cl_plain _ _ _ _ Hcs)) as Hcomp.
  assert (forall A (ok : A -> Prop) s1 rc, Inv s1 -> resolve_errors rc ->
    run (mret (Err rc)) s1 (outcome ok)) as Herr by (intros; by apply run_ret).
  unfold resolve_errors in Herr.
  run_step (tv_stat _ _ TV) as [-> I1]; [done|].
  destruct (St (render cs)) as [dst|] eqn:Ed; [|apply Herr; tauto].
  destruct (vfs_access dst uid gid X_OK) eqn:Ea; cbn [negb]; [|apply Herr; tauto].
  assert (searchable St uid gid cs) as Hs by (by exists dst).
  destruct (Z.lt_ge_cases (Z.of_nat (length (render (cs ++ [c])))) PUREUNIX_MAX_PATH) as [Hl|Hl].
  2:{ rewrite resolved_append_overflow by done. apply run_ret. split; [done|]. by exists cs, c. }
  rewrite resolved_append_plain by done.
  run_step (tv_stat _ _ TV) as [-> I2]; [done|].
  destruct (St (render (cs ++ [c]))) as [cst|] eqn:Ec.
  2:{ case_bool_decide; [|apply Herr; tauto]. apply run_ret. split; [done|]. exists (cs ++ [c]).
      split_and!; [by apply strncpy_fits|done|]. apply resolved_snoc; try done.
      intros _ (st & Est & _). congruence. }
  destruct (bool_decide (st_type cst = VFS_SYMLINK)) eqn:Et; cbn [andb].
  - apply bool_decide_eq_true in Et.
    destruct (negb (bool_decide (rest = [])) || follow) eqn:Efo.
    + destruct (allowed =? 0)%nat; [apply Herr; tauto|].
      run_step (tv_link _ _ TV) as [Hn I3]; [done|exact Ec|done|]. destruct a as [n buf]. simpl in Hn.
      case Z.ltb_spec; intros Hn0; [apply Herr; tauto|]. case Z.leb_spec; intros Hn1; [lia|].
      case Z.ltb_spec; intros Hw; [apply Herr; tauto|]. apply run_ret. split; [done|].
      assert (turn_ok cs (bool_decide (rest = [])) (Follow (render cs) (cstr (put buf n [0])))) as Hfo by (by exists cs).
      destruct (cstr _) as [|c0 t]; [done|]. case_match; [|done].
      exists []. split_and!; [done|done|apply clean_nil].
    + apply run_ret. split; [done|]. apply orb_false_iff in Efo as [Hl0 Hf0]. exists (cs ++ [c]).
      split_and!; [done|done| |].
      * intros Hx. rewrite Hx in Hl0. done.
      * apply resolved_snoc; try done. congruence.
  - apply bool_decide_eq_false in Et. apply run_ret. split; [done|]. exists (cs ++ [c]).
    assert (~ symlink_at St (cs ++ [c])) as Hno by (intros (st & Est & ?); congruence).
    split_and!; [done|done| |by apply resolved_snoc]. intros _. by apply clean_snoc.
Qed.

Definition final_ok (out : list Z) : Prop :=
  exists cs, out = render cs /\ fits cs /\ resolved_ok St follow uid gid cs.

(** What a turn leads to. *)
Definition after_turn (allowed n : nat) (rest : list Z) (t : turn) : state V (res (list Z)) :=
  match t with
  | Next resolved => resolve_loop follow uid gid allowed n rest resolved
  | Stop resolved => mret (Done resolved)
  | Follow resolved work =>
      match allowed with
      | O => mret (Err (- ELOOP))
      | S allowed => resolve_loop follow uid gid allowed (length work) work resolved
      end
  end.

Lemma resolve_loop_end allowed n r :
  resolve_loop (D := D) follow uid gid allowed n [] r = mret (Done r).
Proof. by destruct allowed, n. Qed.

Lemma resolve_loop_turn allowed n x cursor r :
  resolve_loop follow uid gid allowed (S n) (x :: cursor) r =
    let '(c, rest) := next_component (x :: cursor) in
    if bool_decide (c = []) then resolve_loop follow uid gid allowed n rest r else
    if PUREUNIX_MAX_NAME <=? Z.of_nat (length c) then mret (Err (- ENAMETOOLONG)) else
    if is_dot c then resolve_loop follow uid gid allowed n rest r else
    if is_dotdot c then resolve_loop follow uid gid allowed n rest (chop r) else
    rbind (resolve_step follow uid gid allowed r c rest) (after_turn allowed n rest).
Proof. destruct allowed; reflexivity. Qed.

Lemma chop_clean cs : clean St uid gid cs -> fits cs ->
  exists cs', chop (render cs) = render cs' /\ fits cs' /\ clean St uid gid cs'.
Proof.
  intros Hcs Hf. destruct (removelast_cases cs) as [->|(cs' & y & -> & _)]; [by exists []|].
  exists cs'. split_and!.
  - apply chop_render. pose proof (cl_plain _ _ _ _ Hcs) as Hp. apply Forall_app in Hp as [_ Hy].
    by apply Forall_cons in Hy as [[? _] _].
  - unfold fits in *. rewrite render_snoc, length_app in Hf. pose proof (render_length cs'). simpl in Hf. lia.
  - by eapply clean_prefix.
Qed.

Definition walks allowed n : Prop := forall cursor cs s,
  Inv s -> fits cs -> (cursor <> [] -> clean St uid gid cs) -> resolved_ok St follow uid gid cs ->
  run (resolve_loop follow uid gid allowed n cursor (render cs)) s (outcome final_ok).

Lemma resolve_turn allowed n : walks allowed n ->
  (forall a (work : list Z), allowed = S a -> walks a (length work)) -> walks allowed (S n).
Proof.
  intros IH IHa cursor cs s I Hf Hcl Hro. destruct cursor as [|x cursor].
  { rewrite resolve_loop_end. apply run_ret. split; [done|]. by exists cs. }
  rewrite resolve_loop_turn. destruct (next_component (x :: cursor)) as [c rest] eqn:En.
  destruct (next_component_spec _ _ _ En) as (Hc & _). assert (clean St uid gid cs) as Hcs by (by apply Hcl).
  case_bool_decide as Hne; [by apply IH|].
  case Z.leb_spec; intros Hlong; [apply run_ret; split; [done|]; unfold resolve_errors; simpl; tauto|].
  unfold is_dot, is_dotdot. case_bool_decide as Hd; [by apply IH|].
  case_bool_decide as Hdd.
  { destruct (chop_clean cs Hcs Hf) as (cs' & -> & Hf' & Hcs'). apply IH; [done..|by apply clean_resolved]. }
  run_step resolve_step_run as [I1 Hst]; [done|done|done|done|].
  destruct a as [t|rc|]; [|by apply run_ret|by apply run_ret].
  destruct t as [r|r|r work]; cbn [turn_ok after_turn] in *; destruct Hst as (cs' & -> & Hf' & Hok).
  - destruct Hok as [Hok1 Hok2]. apply IH; [done|done| |done]. intros Hr. apply Hok1. by apply bool_decide_eq_false.
  - apply run_ret. split; [done|]. by exists cs'.
  - destruct allowed as [|a]; [apply run_ret; split; [done|]; unfold resolve_errors; simpl; tauto|].
    apply (IHa a work); [done..|by apply clean_resolved].
Qed.

Lemma resolve_loop_run allowed n : walks allowed n.
Proof.
  revert n. induction allowed as [|allowed IHa]; induction n as [|n IH].
  1,3: intros cursor cs s I Hf Hcl Hro; destruct cursor;
    (rewrite ?resolve_loop_end; apply run_ret; split; [done|]; by exists cs).
  - by apply resolve_turn.
  - apply resolve_turn; [done|]. intros a work [= <-]. apply IHa.
Qed.

Lemma resolve_path_run s path : Inv s ->
  run (resolve_path path follow uid gid) s (outcome final_ok).
Proof.
  intros I. unfold resolve_path.
  assert (forall rc, resolve_errors rc -> run (mret (Err rc)) s (outcome final_ok)) as Herr by (intros; by apply run_ret).
  unfold resolve_errors in Herr.
  destruct path as [|c work]; [apply Herr; tauto|]. case Z.eqb_spec; intros Hc; cbn [negb]; [|apply Herr; tauto].
  case Z.leb_spec; intros Hl; [apply Herr; tauto|].
  change [SLASH] with (render []).
  run_step resolve_loop_run as [I1 Ho]; [done|done|intros _; apply clean_nil|apply clean_resolved, clean_nil|].
  destruct a as [r|rc|]; [|by apply run_ret|by apply run_ret]. apply run_ret. split; [done|].
  destruct Ho as (cs & -> & Hf & Hok). exists cs. split; [by apply strncpy_fits|done].
Qed.
End Resolve.

(** ** Completeness *)

Section Complete.
Context {D : Type} (Inv : vfs D -> Prop) (St : list Z -> option vfs_stat).
Context (TV : tree_view Inv St) (follow : bool) (uid gid : Z).
Implicit Types (s : vfs D) (cs pre rest : list (list Z)).

Definition short (c : list Z) : Prop := Z.of_nat (length c) < PUREUNIX_MAX_NAME.

(** One component of a path that is resolved already. *)
Lemma resolve_step_plain s allowed pre c rest tail :
  Inv s -> resolved_ok St follow uid gid (pre ++ c :: rest) -> fits (pre ++ c :: rest) ->
  tail = drop 1 (joined rest) ->
  run (resolve_step follow uid gid allowed (render pre) c tail) s (fun r s' => Inv s' /\
    (r = Done (Next (render (pre ++ [c]))) \/ (rest = [] /\ r = Done (Stop (render (pre ++ [c])))))).
Proof.
  intros I [R1 R2 R3 R4] Hf ->. unfold resolve_step.
  assert ((pre ++ [c]) `prefix_of` (pre ++ c :: rest)) as Hpre by (exists rest; by rewrite <- (assoc_L (++))).
  destruct (R2 _ _ Hpre) as (dst & Ed & Ea).
  apply Forall_app in R1 as [P1 P2]. apply Forall_cons in P2 as [Pc Prest].
  assert (Z.of_nat (length (render (pre ++ [c]))) < PUREUNIX_MAX_PATH) as Hl.
  { unfold fits in Hf. rewrite render_snoc. change (c :: rest) with ([c] ++ rest) in Hf.
    pose proof (render_length (pre ++ [c] ++ rest)). rewrite !joined_app, joined_one in *.
    rewrite !length_app in *. simpl in *. lia. }
  run_step (tv_stat _ _ TV) as [-> I1]; [done|]. rewrite Ed, Ea. cbn [negb].
  rewrite resolved_append_plain by (done || by apply plain_comps).
  run_step (tv_stat _ _ TV) as [-> I2]; [done|].
  assert (drop 1 (joined rest) = [] <-> rest = []) as Hrest.
  { destruct rest as [|c' rest]; [done|]. apply Forall_cons in Prest as [[[Hne _] _] _].
    rewrite joined_cons. cbn [drop]. rewrite drop_0. split; [|done]. intros [? _]%app_nil. done. }
  destruct (St (render (pre ++ [c]))) as [cst|] eqn:Ec.
  - replace (bool_decide (st_type cst = VFS_SYMLINK) && _) with false; [apply run_ret; auto|].
    symmetry. apply andb_false_iff. destruct (bool_decide (st_type cst = VFS_SYMLINK)) eqn:Et; [right|by left].
    apply bool_decide_eq_true in Et. destruct rest as [|c' rest].
    + rewrite bool_decide_eq_true_2 by done. cbn [negb orb]. destruct follow; [|done].
      destruct (R4 eq_refl); [by destruct pre|]. by exists cst.
    + destruct (R3 _ _ Hpre) as [_ []]; [|by exists cst].
      intros E%(f_equal length). rewrite !length_app in E. simpl in E. lia.
  - destruct rest as [|c' rest].
    + rewrite bool_decide_eq_true_2 by done. apply run_ret. split; [done|right]. split; [done|].
      by rewrite strncpy_fits.
    + destruct (R3 _ _ Hpre) as [[st Est] _]; [|congruence].
      intros E%(f_equal length). rewrite !length_app in E. simpl in E. lia.
Qed.

Lemma resolve_loop_plain allowed rest : forall pre n s,
  Inv s -> resolved_ok St follow uid gid (pre ++ rest) -> fits (pre ++ rest) -> Forall short rest ->
  (length (drop 1 (joined rest)) <= n)%nat ->
  run (resolve_loop follow uid gid allowed n (drop 1 (joined rest)) (render pre)) s
    (fun r s' => Inv s' /\ r = Done (render (pre ++ rest))).
Proof.
  induction rest as [|c rest IH]; intros pre n s I Hro Hf Hs Hn.
  { cbn [joined fmap list_fmap mjoin list_join drop]. rewrite resolve_loop_end, app_nil_r. by apply run_ret. }
  pose proof (ro_plain _ _ _ _ _ Hro) as Hp. apply Forall_app in Hp as [_ Hp].
  apply Forall_cons in Hp as [([Hne Hc] & Hd & Hdd) _]. apply Forall_cons in Hs as [Hsc Hs].
  rewrite joined_cons in *. cbn [drop] in *. rewrite drop_0 in *. rewrite length_app in Hn.
  destruct c as [|x c]; [done|]. destruct n as [|n]; [simpl in Hn; lia|].
  cbn [app]. rewrite resolve_loop_turn.
  change (x :: c ++ joined rest) with ((x :: c) ++ joined rest).
  rewrite next_component_app by (done || apply boundary_joined).
  rewrite bool_decide_eq_false_2 by done. rewrite (proj2 (Z.leb_gt _ _)) by exact Hsc.
  unfold is_dot, is_dotdot. rewrite !bool_decide_eq_false_2 by done.
  eapply run_bind, run_mono; [by eapply resolve_step_plain|].
  intros r s1 [I1 [->|[-> ->]]]; cbn [after_turn]; [|by apply run_ret].
  change ((x :: c) :: rest) with ([x :: c] ++ rest) in *. rewrite (assoc_L (++)) in *.
  apply IH; try done. rewrite length_drop. simpl in Hn. lia.
Qed.

Lemma resolve_path_plain s cs : Inv s -> resolved_ok St follow uid gid cs -> fits cs -> Forall short cs ->
  run (resolve_path (render cs) follow uid gid) s (fun r s' => Inv s' /\ r = Done (render cs)).
Proof.
  intros I Hro Hf Hs. assert (exists w, render cs = SLASH :: w /\ w = drop 1 (joined cs)) as (w & Ew & Hw).
  { destruct cs as [|c cs]; [by exists []|]. by eexists. }
  unfold resolve_path. rewrite Ew. change (SLASH =? SLASH) with true. cbn [negb].
  assert (Z.of_nat (length w) < RESOLVE_WORK_SIZE) as Hl.
  { unfold fits in Hf. rewrite Ew in Hf. simpl in Hf. unfold RESOLVE_WORK_SIZE. lia. }
  rewrite (proj2 (Z.leb_gt _ _)) by exact Hl. rewrite Hw in *.
  eapply run_bind, run_mono; [change [SLASH] with (render []); by eapply (resolve_loop_plain _ cs [])|].
  intros r s1 [I1 ->]. apply run_ret. split; [done|]. cbn [app]. by rewrite strncpy_fits, Ew.
Qed.
End Complete.

(** ** The reference monitor *)

(** The calls that change a file system. *)
Inductive vfs_call :=
  | CWrite (path data : list Z) (flags : Z)
  | CCreate (path : list Z)
  | CMkdir (path : list Z)
  | CUnlink (path : list Z)
  | CRmdir (path : list Z)
  | CRename (old new : list Z)
  | CLink (old new : list Z)
  | CSymlink (target path : list Z).

Section Monitor.
Context {D : Type} (current_uid current_gid : D -> Z).
Abbreviation V := (vfs D).
Implicit Types (s : V) (cs : list (list Z)).

Definition run_call (c : vfs_call) : state V (res unit) :=
  match c with
  | CWrite p data flags => vfs_write_file current_uid current_gid p data flags
  | CCreate p => vfs_create current_uid current_gid p
  | CMkdir p => vfs_mkdir current_uid current_gid p
  | CUnlink p => vfs_unlink current_uid current_gid p
  | CRmdir p => vfs_rmdir current_uid current_gid p
  | CRename old new => vfs_rename current_uid current_gid old new
  | CLink old new => vfs_link current_uid current_gid old new
  | CSymlink target p => vfs_symlink current_uid current_gid target p
  end.

Context (Inv : V -> Prop) (St : list Z -> option vfs_stat) (TV : tree_view Inv St).
Context (uid gid : Z).

Definition dir_writable cs : Prop :=
  exists st, St (render (removelast cs)) = Some st /\ vfs_access st uid gid W_OK = true.

Definition node_ok (follow : bool) cs (P : option vfs_stat -> Prop) : Prop :=
  resolved_ok St follow uid gid cs /\ P (St (render cs)).

Definition is_node (P : vfs_node_type -> Prop) (o : option vfs_stat) : Prop :=
  exists st, o = Some st /\ P (st_type st).

(** What the caller must be allowed: to write the file itself, or to write the
    directory whose entry changes. *)
Definition permitted (c : vfs_call) : Prop :=
  match c with
  | CWrite _ _ _ => exists cs, node_ok true cs (fun o => match o with
        | Some st => vfs_access st uid gid W_OK = true
        | None => dir_writable cs
        end)
  | CCreate _ | CMkdir _ | CSymlink _ _ =>
      exists cs, node_ok true cs (fun o => o = None) /\ dir_writable cs
  | CUnlink _ => exists cs, node_ok false cs (is_node (fun t => t <> VFS_DIR)) /\ dir_writable cs
  | CRmdir _ => exists cs, cs <> [] /\ node_ok false cs (is_node (eq VFS_DIR)) /\ dir_writable cs
  | CRename _ _ => exists cs cs', node_ok false cs is_Some /\ dir_writable cs /\
      node_ok false cs' (fun _ => True) /\ dir_writable cs'
  | CLink _ _ => exists cs cs', node_ok false cs (is_node (fun t => t <> VFS_DIR)) /\
      node_ok true cs' (fun o => o = None) /\ dir_writable cs'
  end.

(** Denied: the drivers are left as they were and the call fails. *)
Definition guarded {A} (P : Prop) (r : res A) s : Prop :=
  P \/ (Inv s /\ forall a, r <> Done a).

Lemma fail_guarded {A} P msg rc s : Inv s -> run (fail (A := A) msg rc) s (guarded P).
Proof. intros I. right. split; [|done]. by apply (tv_error _ _ TV s). Qed.

Definition keeps {A} (ok : A -> Prop) (r : res A) s : Prop :=
  Inv s /\ match r with Done a => ok a | _ => True end.

Lemma run_rbind {A B} (m : state V (res A)) (k : A -> state V (res B)) P ok s :
  run m s (keeps ok) -> (forall a s', Inv s' -> ok a -> run (k a) s' (guarded P)) ->
  run (rbind m k) s (guarded P).
Proof.
  intros Hm Hk. eapply run_bind, run_mono; [exact Hm|]. intros r s' [I Ho].
  destruct r as [a|rc|]; [by apply Hk|..]; (apply run_ret; right; by split).
Qed.

Lemma or_fail_keeps {A} msg (m : state V (res A)) ok s :
  run m s (keeps ok) -> run (or_fail msg m) s (keeps ok).
Proof.
  intros Hm. unfold or_fail. eapply run_bind, run_mono; [exact Hm|]. intros r s' [I Ho].
  destruct r as [a|rc|]; [by apply run_ret| |by apply run_ret]. split; [|done]. by apply (tv_error _ _ TV s').
Qed.

(** Resolution with the error message of the entry points. *)
Lemma resolve_keeps follow path s : Inv s ->
  run (resolve_path path follow uid gid) s (keeps (final_ok St follow uid gid)).
Proof.
  intros I. eapply run_mono; [by apply resolve_path_run|]. intros r s' [I' Ho]. split; [done|]. by destruct r.
Qed.

Lemma parent_of_render cs : fits cs -> Forall comp cs -> parent_of (render cs) = render (removelast cs).
Proof.
  intros Hf Hc. unfold parent_of. rewrite strncpy_fits by done.
  destruct (removelast_cases cs) as [->|(cs' & x & -> & ->)]; [done|]. apply chop_render.
  apply Forall_app in Hc as [_ Hx]. by apply Forall_cons in Hx as [? _].
Qed.

Lemma check_dir_write_keeps cs s : Inv s -> fits cs -> Forall comp cs ->
  run (check_dir_write (render cs) uid gid) s (keeps (fun _ => dir_writable cs)).
Proof.
  intros I Hf Hc. unfold check_dir_write. rewrite parent_of_render by done.
  run_step (tv_stat _ _ TV) as [-> I1]; [done|]. unfold dir_writable.
  destruct (St (render (removelast cs))) as [st|] eqn:Es; apply run_ret; [|done].
  split; [done|]. destruct (vfs_access st uid gid W_OK) eqn:Ea; [|done]. by exists st.
Qed.

Lemma stat_or_fail_keeps msg cs s : Inv s ->
  run (stat_or_fail msg (render cs)) s (keeps (fun st => St (render cs) = Some st)).
Proof.
  intros I. unfold stat_or_fail. run_step (tv_stat _ _ TV) as [-> I1]; [done|].
  destruct (St (render cs)) as [st|]; [by apply run_ret|]. split; [|done]. by apply (tv_error _ _ TV s').
Qed.

Lemma resolve_for_create_keeps path s : Inv s ->
  run (resolve_for_create path uid gid) s (keeps (fun p =>
    exists cs, p = render cs /\ node_ok true cs (fun o => o = None) /\ dir_writable cs)).
Proof.
  intros I. unfold resolve_for_create. eapply run_bind, run_mono; [by apply resolve_keeps|].
  intros r s1 [I1 Ho]. destruct r as [p|rc|]; [|by apply run_ret..]. destruct Ho as (cs & -> & Hf & Hro).
  pose proof (plain_comps _ (ro_plain _ _ _ _ _ Hro)) as Hc.
  run_step (tv_stat _ _ TV) as [-> I2]; [done|]. destruct (St (render cs)) as [st|] eqn:Es; [by apply run_ret|].
  eapply run_bind, run_mono; [by apply check_dir_write_keeps|]. intros r s2 [I3 Hw].
  destruct r as [u|rc|]; [|by apply run_ret..]. apply run_ret. split; [done|]. exists cs.
  split_and!; [done|split; done|done].
Qed.

(** In the permitted case nothing is left to show. *)
Lemma granted {A} (P : Prop) (m : state V (res A)) s : P -> run m s (guarded P).
Proof. intros HP. by left. Qed.

(** Resolving the operand of an entry point. *)
Lemma resolve_guarded {B} msg follow path (k : list Z -> state V (res B)) P s :
  Inv s ->
  (forall cs s', Inv s' -> fits cs -> Forall comp cs -> resolved_ok St follow uid gid cs ->
     run (k (render cs)) s' (guarded P)) ->
  run (rbind (or_fail msg (resolve_path path follow uid gid)) k) s (guarded P).
Proof.
  intros I Hk. eapply run_rbind; [by apply or_fail_keeps, resolve_keeps|].
  intros p s' I' (cs & -> & Hf & Hro). apply Hk; try done. eapply plain_comps, ro_plain, Hro.
Qed.

Lemma create_guarded {B} msg path (k : list Z -> state V (res B)) P s :
  Inv s ->
  (forall cs s', Inv s' -> node_ok true cs (fun o => o = None) -> dir_writable cs ->
     run (k (render cs)) s' (guarded P)) ->
  run (rbind (or_fail msg (resolve_for_create path uid gid)) k) s (guarded P).
Proof.
  intros I Hk. eapply run_rbind; [by apply or_fail_keeps, resolve_for_create_keeps|].
  intros p s' I' (cs & -> & Hn & Hw). by apply Hk.
Qed.

Lemma stat_guarded {B} msg cs (k : vfs_stat -> state V (res B)) P s :
  Inv s -> (forall st s', Inv s' -> St (render cs) = Some st -> run (k st) s' (guarded P)) ->
  run (rbind (stat_or_fail msg (render cs)) k) s (guarded P).
Proof. intros I Hk. eapply run_rbind; [by apply stat_or_fail_keeps|]. intros st s' I' E. by apply Hk. Qed.

Lemma dir_guarded {B} cs (k : unit -> state V (res B)) P s :
  Inv s -> fits cs -> Forall comp cs ->
  (forall s', Inv s' -> dir_writable cs -> run (k tt) s' (guarded P)) ->
  run (rbind (dir_write_or_fail (render cs) uid gid) k) s (guarded P).
Proof.
  intros I Hf Hc Hk. eapply run_rbind; [by apply or_fail_keeps, check_dir_write_keeps|].
  intros [] s' I' E. by apply Hk.
Qed.

Lemma run_call_guarded c s :
  Inv s -> current_uid (v_drv s) = uid -> current_gid (v_drv s) = gid ->
  run (run_call c) s (guarded (permitted c)).
Proof.
  intros I Hu Hg.
  destruct c; cbn [run_call permitted];
    unfold vfs_write_file, vfs_create, vfs_mkdir, vfs_unlink, vfs_rmdir, vfs_rename, vfs_link, vfs_symlink,
      with_cred; apply run_bind, run_get; rewrite Hu, Hg.
  - apply resolve_guarded; [done|]. intros cs s1 I1 Hf Hc Hro.
    run_step (tv_stat _ _ TV) as [-> I2]; [done|].
    destruct (St (render cs)) as [st|] eqn:Es.
    + unfold access_or_fail. destruct (vfs_access st uid gid W_OK) eqn:Ea; cbn [negb].
      * apply granted. exists cs. split; [done|]. by rewrite Es.
      * apply (run_rbind _ _ _ (fun _ => False)); [|done]. split; [by apply (tv_error _ _ TV s')|done].
    + apply dir_guarded; [done..|]. intros s3 I3 Hw. apply granted. exists cs. split; [done|]. by rewrite Es.
  - apply create_guarded; [done|]. intros cs s1 I1 Hn Hw. apply granted. by exists cs.
  - apply create_guarded; [done|]. intros cs s1 I1 Hn Hw. apply granted. by exists cs.
  - apply resolve_guarded; [done|]. intros cs s1 I1 Hf Hc Hro. apply stat_guarded; [done|]. intros st s2 I2 Es.
    case_bool_decide; [by apply fail_guarded|]. apply dir_guarded; [done..|]. intros s3 I3 Hw.
    apply granted. exists cs. split; [|done]. split; [done|]. by exists st.
  - apply resolve_guarded; [done|]. intros cs s1 I1 Hf Hc Hro.
    case_bool_decide as Hr; [by apply fail_guarded|]. apply stat_guarded; [done|]. intros st s2 I2 Es.
    case_bool_decide; cbn [negb]; [|by apply fail_guarded]. apply dir_guarded; [done..|]. intros s3 I3 Hw.
    apply granted. exists cs. split_and!; [by intros ->|split; [done|]; by exists st|done].
  - apply resolve_guarded; [done|]. intros cs s1 I1 Hf Hc Hro.
    apply resolve_guarded; [done|]. intros cs' s2 I2 Hf' Hc' Hro'.
    apply stat_guarded; [done|]. intros st s3 I3 Es. apply dir_guarded; [done..|]. intros s4 I4 Hw.
    apply dir_guarded; [done..|]. intros s5 I5 Hw'. apply granted. exists cs, cs'.
    split_and!; [split; [done|by rewrite Es]|done|done|done].
  - apply resolve_guarded; [done|]. intros cs s1 I1 Hf Hc Hro. apply stat_guarded; [done|]. intros st s2 I2 Es.
    case_bool_decide; [by apply fail_guarded|]. apply create_guarded; [done|]. intros cs' s3 I3 Hn Hw.
    apply granted. exists cs, cs'. split_and!; [split; [done|by exists st]|done|done].
  - apply create_guarded; [done|]. intros cs s1 I1 Hn Hw. apply granted. by exists cs.
Qed.
End Monitor.

(** ** Main results *)

Section Theorems.
Context {D : Type}.
Implicit Types (s : vfs D) (Inv : vfs D -> Prop) (St : list Z -> option vfs_stat).

(** C14: a path [resolve_path] returns is absolute and canonical: no
    ".", ".." or empty component; every directory on the way exists, is
    searchable by the caller and is not a symbolic link, and if the last
    component was to be followed it is none either.  Otherwise resolution
    fails with -ENOENT, -EACCES, -ELOOP or -ENAMETOOLONG, or an entry of a
    searchable directory has a path that does not fit the 256-byte buffer. *)
Theorem resolve_path_sound Inv St follow uid gid s path :
  tree_view Inv St -> Inv s ->
  run (resolve_path path follow uid gid) s (outcome Inv St uid gid (final_ok St follow uid gid)).
Proof. intros TV. by apply resolve_path_run. Qed.

(** Every canonical path whose directories exist, are searchable
    and are no symbolic links resolves to itself. *)
Theorem resolve_path_complete Inv St follow uid gid s cs :
  tree_view Inv St -> Inv s -> resolved_ok St follow uid gid cs -> fits cs -> Forall short cs ->
  run (resolve_path (render cs) follow uid gid) s (fun r s' => Inv s' /\ r = Done (render cs)).
Proof. intros TV. by apply resolve_path_plain. Qed.

End Theorems.

(** ** An in-memory driver *)

(** A driver whose state is a finite map from paths to nodes and their link
    targets: [stat], [readlink] and a [write_file] that creates nodes. *)
Definition node (t : vfs_node_type) (mode uid : Z) (target : list Z) : vfs_stat * list Z :=
  (mk_stat t 0 0 mode uid 0 1 0 0 0 0 0 0, target).

Definition mem := gmap (list Z) (vfs_stat * list Z).

Definition mem_ops : vfs_ops (Z * mem) :=
  mk_ops (Some (fun p => gets (fun d => fst <$> d.2 !! p))) None
    (Some (fun p _ _ d => (0, (d.1, <[p := node VFS_FILE 0x81A4 d.1 []]> d.2))))
    None None None None None None
    (Some (fun p buf n => gets (fun d => match d.2 !! p with
       | Some (_, t) => let t := take (Z.to_nat n) t in (Z.of_nat (length t), put buf 0 t)
       | None => (- EINVAL, buf)
       end))) None None.

Definition mem_vfs (uid : Z) (m : mem) : vfs (Z * mem) :=
  mk_vfs [mk_mount [SLASH] VFS_FS_EXT2 mem_ops None] [] (uid, m).

Definition long : list Z := replicate 63 97.

(** A root owned by user 0 and a home of user 7; "/link" points to the
    home and "/deep" to a directory with a path of 192 bytes. *)
Definition demo_mem : mem := list_to_map
  [([SLASH], node VFS_DIR 0x41ED 0 []); (lit "/home", node VFS_DIR 0x41C0 7 []);
   (lit "/link", node VFS_SYMLINK 0xA1FF 0 (lit "home"));
   (lit "/deep", node VFS_SYMLINK 0xA1FF 0 (render [long; long; long]));
   (render [long], node VFS_DIR 0x41FF 0 []); (render [long; long], node VFS_DIR 0x41FF 0 []);
   (render [long; long; long], node VFS_DIR 0x41FF 0 [])].

Definition mem_inv uid (m : mem) (s : vfs (Z * mem)) : Prop :=
  mount_table s = mount_table (mem_vfs uid m) /\ v_drv s = (uid, m).

Definition mem_stat (m : mem) (p : list Z) : option vfs_stat :=
  match p with
  | c :: _ => if c =? SLASH then fst <$> m !! strncpy PUREUNIX_MAX_PATH p else None
  | [] => None
  end.

Lemma mem_dispatch uid m s p : mem_inv uid m s ->
  (vfs_dispatch p s).1 = match p with
    | c :: _ => if c =? SLASH then Some (0%nat, mem_ops, strncpy PUREUNIX_MAX_PATH p) else None
    | [] => None
    end /\ (vfs_dispatch p s).2 = s.
Proof.
  intros [Hm _]. split; [|done]. unfold vfs_dispatch, gets. cbn [fst]. rewrite Hm.
  destruct p as [|c p]; [done|]. cbn [vfs_find_mount]. case Z.eqb_spec; [intros ->|done]. done.
Qed.

Lemma mem_view uid m : tree_view (mem_inv uid m) (mem_stat m).
Proof.
  split.
  - intros s p I. unfold vfs_stat_raw. apply run_bind. unfold run at 1.
    destruct (mem_dispatch uid m s p I) as [-> ->]. destruct I as [Hm Hd].
    unfold mem_stat. destruct p as [|c p]; [by apply run_ret|]. destruct (c =? SLASH); [|by apply run_ret].
    cbn [mem_ops op_stat]. unfold run, lift_d, gets. cbn. rewrite Hd. cbn. by split.
  - intros s p st I Es Ht. unfold vfs_readlink_raw. apply run_bind. unfold run at 1.
    destruct (mem_dispatch uid m s p I) as [-> ->]. destruct I as [Hm Hd].
    unfold mem_stat in Es. destruct p as [|c p]; [done|]. destruct (c =? SLASH); [|done].
    cbn [mem_ops op_readlink]. unfold run, lift_d, gets. rewrite Hd. cbn [fst snd v_drv].
    split; [|by split]. destruct (m !! _) as [[? t]|]; [|done]. cbn [fst].
    rewrite length_take. unfold PUREUNIX_MAX_PATH. lia.
  - intros s msg [Hm Hd]. by split.
Qed.

Lemma mem_demo_inv uid : mem_inv uid demo_mem (mem_vfs uid demo_mem).
Proof. done. Qed.

Lemma resolve_path_sound_witness :
  run (resolve_path (lit "/link/../link/new") true 7 7) (mem_vfs 7 demo_mem)
    (outcome (mem_inv 7 demo_mem) (mem_stat demo_mem) 7 7 (final_ok (mem_stat demo_mem) true 7 7)).
Proof.
  apply (resolve_path_sound (mem_inv 7 demo_mem) (mem_stat demo_mem) true 7 7); [apply mem_view|apply mem_demo_inv].
Defined.

Lemma demo_home_ok : resolved_ok (mem_stat demo_mem) true 7 7 [lit "home"; lit "new"].
Proof.
  assert (forall pre (c : list Z), (pre ++ [c]) `prefix_of` [lit "home"; lit "new"] ->
    pre = [] \/ (pre = [lit "home"] /\ c = lit "new")) as Hp.
  { intros pre c [r E]. destruct pre as [|a [|b pre]]; [by left| |].
    - right. injection E as <- <-. done.
    - apply (f_equal length) in E. rewrite !length_app in E. simpl in E. lia. }
  split.
  - apply (bool_decide_unpack _). vm_compute. exact I.
  - intros pre c [->|[-> _]]%Hp; (eexists; split; [vm_compute; reflexivity|vm_compute; reflexivity]).
  - intros pre c Hpre Hne. destruct (Hp _ _ Hpre) as [->|[-> ->]]; [|done].
    destruct Hpre as [r E]. injection E as <- _. split; [by eexists|].
    intros (st & E & Ht). vm_compute in E. injection E as <-. done.
  - intros _ _ (st & E & _). by vm_compute in E.
Qed.

Lemma resolve_path_complete_witness :
  run (resolve_path (render [lit "home"; lit "new"]) true 7 7) (mem_vfs 7 demo_mem)
    (fun r s' => mem_inv 7 demo_mem s' /\ r = Done (render [lit "home"; lit "new"])).
Proof.
  apply (resolve_path_complete (mem_inv 7 demo_mem) (mem_stat demo_mem) true 7 7);
    [apply mem_view|apply mem_demo_inv|apply demo_home_ok|reflexivity|].
  repeat (apply Forall_cons_2; [reflexivity|]). apply Forall_nil_2.
Defined.


