(* ===== verification/Platform.v ===== *)
(** * A concrete machine for the file systems

    An instance of [Machine]: two disks of 512-byte sectors with scheduled
    faults, the kernel heap of Heap.v, the CMOS clock of Time.v and the
    credentials of the running task.  It discharges [MachineOk], so the
    file-system theorems apply to it, and the concrete runs of the
    development are runs on it. *)

From S2P Require Import Prelude Heap Time Machine.

Record platform := mk_platform {
  pl_sectors : gmap (bool * Z) (list Z);   (* keyed by drive (slave?) and LBA *)
  pl_faults : disk_device -> list bool;    (* true: the next request times out *)
  pl_heap : Heap.heap;
  pl_cmos : Z -> Z;
  pl_uid : Z;
  pl_gid : Z;
}.

Definition drive (d : disk_device) : bool := match d with ata0 => false | ata1 => true end.

(** A sector always holds 512 bytes. *)
Definition as_sector (b : list Z) : list Z := map u8 (take 512 (b ++ zeros 512)).

Definition pl_sector (w : platform) (d : disk_device) (l : Z) : list Z :=
  match pl_sectors w !! (drive d, l mod 2 ^ 28) with
  | Some b => as_sector b
  | None => zeros 512
  end.

Definition pl_request (d : disk_device) (w : platform) : bool * platform :=
  match pl_faults w d with
  | [] => (true, w)
  | f :: fs =>
      (negb f, mk_platform (pl_sectors w)
                 (fun d' => if decide (d' = d) then fs else pl_faults w d')
                 (pl_heap w) (pl_cmos w) (pl_uid w) (pl_gid w))
  end.

Definition pl_read (d : disk_device) (l : Z) : state platform (option (list Z)) := fun w =>
  let '(ok, w') := pl_request d w in
  (if ok then Some (pl_sector w d l) else None, w').

Definition pl_write (d : disk_device) (l : Z) (b : list Z) : state platform bool := fun w =>
  let '(ok, w') := pl_request d w in
  (ok, if ok then mk_platform (<[(drive d, l mod 2 ^ 28) := b]> (pl_sectors w'))
                    (pl_faults w') (pl_heap w') (pl_cmos w') (pl_uid w') (pl_gid w')
       else w').

Definition pl_set_heap (h : Heap.heap) (w : platform) : platform :=
  mk_platform (pl_sectors w) (pl_faults w) h (pl_cmos w) (pl_uid w) (pl_gid w).

#[global] Instance platform_machine : Machine platform := {
  disk_present d w := true;
  disk_read := pl_read;
  disk_write := pl_write;
  time_now := fun w => (Time.time_now (pl_cmos w), w);
  kmalloc n := fun w =>
    let '(p, h) := Heap.kmalloc n (pl_heap w) in (p, pl_set_heap h w);
  kfree p := fun w => (tt, pl_set_heap (Heap.kfree p (pl_heap w)) w);
  current_uid := pl_uid;
  current_gid := pl_gid;
}.

#[global] Instance platform_view : MachineView platform := {
  sector := pl_sector;
  healthy w d := Forall (fun f => f = false) (pl_faults w d);
  same_rest w w' := pl_uid w' = pl_uid w /\ pl_gid w' = pl_gid w;
}.

Lemma length_as_sector b : length (as_sector b) = 512%nat.
Proof. unfold as_sector. rewrite length_map, length_take, length_app, length_zeros. lia. Qed.

Lemma as_sector_ok b : bytes_ok (as_sector b).
Proof.
  unfold as_sector, bytes_ok. apply Forall_map. apply Forall_true. intros x. simpl.
  unfold is_u8, u8. apply Z.mod_pos_bound. lia.
Qed.

Lemma as_sector_id b : length b = 512%nat -> bytes_ok b -> as_sector b = b.
Proof.
  intros Hl Hb. unfold as_sector. rewrite take_app_le, take_ge by lia.
  clear Hl. induction Hb as [|x b Hx Hb IH]; [done|]. simpl. rewrite IH.
  f_equal. apply Z.mod_small. done.
Qed.

Lemma request_frame d w :
  pl_sectors (pl_request d w).2 = pl_sectors w /\
  (forall d', healthy w d' -> healthy (pl_request d w).2 d') /\
  pl_uid (pl_request d w).2 = pl_uid w /\ pl_gid (pl_request d w).2 = pl_gid w /\
  (healthy w d -> (pl_request d w).1 = true).
Proof.
  unfold pl_request, healthy. simpl. destruct (pl_faults w d) as [|f fs] eqn:Hf; simpl; [done|].
  split_and!; try done.
  - intros d' Hd'. case_decide; [|done]. subst. rewrite Hf in Hd'. by inversion Hd'.
  - intros Hd'. inversion Hd'. by subst.
Qed.

#[global] Instance platform_ok : MachineOk platform.
Proof.
  split; simpl.
  - split; [done|by intros w w' [-> ->]|]. intros w1 w2 w3 [] []. split; congruence.
  - done.
  - intros w d l. unfold pl_sector. case_match; [apply length_as_sector|apply length_zeros].
  - intros w d l. unfold pl_sector. case_match; [apply as_sector_ok|apply zeros_ok].
  - intros d l w. unfold pl_read. destruct (request_frame d w) as (Hs & Hh & Hu & Hg & _).
    destruct (pl_request d w) as [ok w']. simpl in *. split_and!; try done.
    intros d' l'. unfold sector, platform_view, pl_sector. by rewrite Hs.
  - intros d l w s _. unfold pl_read. destruct (pl_request d w) as [[] w']; simpl; congruence.
  - intros d l w _ Hh. unfold pl_read. destruct (request_frame d w) as (_ & _ & _ & _ & Hok).
    specialize (Hok Hh). destruct (pl_request d w) as [ok w']. simpl in *. by subst.
  - intros d l b w d' l' Hl Hl' Hne. unfold pl_write.
    destruct (request_frame d w) as (Hs & _). destruct (pl_request d w) as [ok w']. simpl in *.
    unfold pl_sector. destruct ok; simpl; rewrite Hs; [|done].
    rewrite lookup_insert_ne; [done|]. intros [= Hd Heq].
    rewrite !Z.mod_small in Heq by done. destruct d, d'; simplify_eq/=.
  - intros d l b w Hl Hb1 Hb2. unfold pl_write.
    destruct (pl_request d w) as [ok w']. simpl. intros ->. unfold pl_sector. simpl.
    rewrite lookup_insert_eq. by apply as_sector_id.
  - intros d l b w _ Hh. unfold pl_write. destruct (request_frame d w) as (_ & _ & _ & _ & Hok).
    specialize (Hok Hh). by destruct (pl_request d w) as [ok w'].
  - intros d l b w d'. unfold pl_write. destruct (request_frame d w) as (_ & Hh & _).
    intros H%Hh. by destruct (pl_request d w) as [[] w'].
  - intros d l b w. unfold pl_write. destruct (request_frame d w) as (_ & _ & Hu & Hg & _).
    by destruct (pl_request d w) as [[] w'].
  - done.
  - intros w. unfold Time.time_now. apply u32_range.
  - intros n w. destruct (Heap.kmalloc n (pl_heap w)). done.
  - done.
Qed.

(** A blank machine: zeroed disks, fresh heap, root's credentials. *)
Definition blank_platform : platform :=
  mk_platform ∅ (fun _ => []) (Heap.heap_init 0x100000) Time.demo_cmos 0 0.

Lemma blank_healthy d : healthy blank_platform d.
Proof. constructor. Qed.
