(* ===== verification/AtaMachine.v ===== *)
(** * The file systems on the ATA driver

    A machine ([Machine.v]) whose disks are the ones of drivers/ata.c: the
    requests of the file systems run [ata_read_sector], [ata_write_sector] and
    their counterparts for the slave on the ports of a channel.  The theorem shows
    that over drives that keep [AtaOk] and whose sectors are not worn this is a
    [MachineOk], so that what is proved of the file systems against that class
    holds down to the ports.  Clock, heap and credentials are those of
    Platform.v.  The end of the file has a concrete channel. *)

From S2P Require Import Prelude Heap Time Machine Platform Ports Interrupts Ata.

(** A channel between two requests, with the [present] flags [ata_init] left. *)
Record ata_world (B : Type) `{AtaOk B} := mk_world {
  aw_bus : B;
  aw_ready : ready aw_bus;
  aw_present : disk_device -> bool;
  aw_attached : forall d, aw_present d = true -> attached (drive d) = true;
  aw_host : platform;
}.
Arguments mk_world {B _ _}. Arguments aw_bus {B _ _}. Arguments aw_ready {B _ _}.
Arguments aw_present {B _ _}. Arguments aw_attached {B _ _}. Arguments aw_host {B _ _}.

Section World.
Context {B : Type} `{AtaOk B}.
Implicit Types w : ata_world B.

(** The [read] and [write] members of the two devices. *)
Definition device_read (d : disk_device) : bool -> Z -> state B (option (list Z)) :=
  match d with ata0 => ata_read_sector | ata1 => ata_slave_read end.
Definition device_write (d : disk_device) : bool -> Z -> list Z -> state B Z :=
  match d with ata0 => ata_write_sector | ata1 => ata_slave_write end.

Lemma device_read_ok d p l b : ready b -> (p = true -> attached (drive d) = true) ->
  run (device_read d p l) b (fun r b' => ready b' /\ av_media (ata b') = av_media (ata b) /\
    r = if negb p || bad (drive d) (l mod 2 ^ 28) then None else Some (av_media (ata b) (drive d) (l mod 2 ^ 28))).
Proof.
  intros Hr Ha. destruct p; [|by destruct d].
  destruct d; [apply (read_sector_ok 0 l b Hr)|apply (read_sector_ok 1 l b Hr)]; exact (Ha eq_refl).
Qed.

Lemma device_write_ok d p l buffer b : ready b -> (p = true -> attached (drive d) = true) ->
  run (device_write d p l buffer) b (fun r b' => ready b' /\ r = (if negb p || bad (drive d) (l mod 2 ^ 28) then -1 else 0) /\
    forall d' l', av_media (ata b') d' l' =
      if bool_decide ((d', l') = (drive d, l mod 2 ^ 28)) && p && negb (bad (drive d) (l mod 2 ^ 28)) && negb (worn (drive d) (l mod 2 ^ 28))
      then word_bytes (sector_words buffer) else av_media (ata b) d' l').
Proof.
  intros Hr Ha. destruct p.
  - destruct d; [run_last (write_sector_ok 0 l buffer b Hr (Ha eq_refl)) as (R & E & M)|
      run_last (write_sector_ok 1 l buffer b Hr (Ha eq_refl)) as (R & E & M)];
      (split_and!; [done|done|]; intros d' l'; rewrite M, andb_true_r; done).
  - destruct d; (split_and!; [done|done|]; intros d' l'; by rewrite andb_false_r).
Qed.

Definition aw_read (d : disk_device) (l : Z) : state (ata_world B) (option (list Z)) := fun w =>
  let r := device_read d (aw_present w d) l (aw_bus w) in
  (r.1, mk_world r.2 (proj1 (device_read_ok d (aw_present w d) l (aw_bus w) (aw_ready w) (aw_attached w d)))
          (aw_present w) (aw_attached w) (aw_host w)).

Definition aw_write (d : disk_device) (l : Z) (buffer : list Z) : state (ata_world B) bool := fun w =>
  let r := device_write d (aw_present w d) l buffer (aw_bus w) in
  (r.1 =? 0, mk_world r.2 (proj1 (device_write_ok d (aw_present w d) l buffer (aw_bus w) (aw_ready w) (aw_attached w d)))
          (aw_present w) (aw_attached w) (aw_host w)).

Definition on_host {A} (m : state platform A) : state (ata_world B) A := fun w =>
  let '(a, h) := m (aw_host w) in (a, mk_world (aw_bus w) (aw_ready w) (aw_present w) (aw_attached w) h).

#[global] Instance ata_world_machine : Machine (ata_world B) := {
  disk_present d w := aw_present w d;
  disk_read := aw_read;
  disk_write := aw_write;
  time_now := on_host Machine.time_now;
  kmalloc n := on_host (Machine.kmalloc n);
  kfree p := on_host (Machine.kfree p);
  current_uid w := pl_uid (aw_host w);
  current_gid w := pl_gid (aw_host w);
}.

#[global] Instance ata_world_view : MachineView (ata_world B) := {
  sector w d l := av_media (ata (aw_bus w)) (drive d) (l mod 2 ^ 28);
  healthy w d := aw_present w d = true /\ forall l, bad (drive d) l = false;
  same_rest w w' := same_rest (aw_host w) (aw_host w') /\ aw_present w' = aw_present w;
}.

Lemma on_host_quiet {A} (m : state platform A) w :
  same_rest (aw_host w) (m (aw_host w)).2 -> quiet w (on_host m w).2.
Proof.
  intros Hs. unfold on_host. destruct (m (aw_host w)) as [a h] eqn:E. by split_and!.
Qed.

Lemma on_host_value {A} (m : state platform A) w : (on_host m w).1 = (m (aw_host w)).1.
Proof. unfold on_host. by destruct (m (aw_host w)). Qed.

Lemma aw_write_sector d l buffer w d' l' : lba_ok l -> lba_ok l' ->
  sector (aw_write d l buffer w).2 d' l' =
    if bool_decide ((d', l') = (d, l)) && aw_present w d && negb (bad (drive d) l) && negb (worn (drive d) l)
    then word_bytes (sector_words buffer) else sector w d' l'.
Proof.
  unfold lba_ok. intros Hl Hl'. unfold sector, ata_world_view, aw_write. cbn [snd aw_bus].
  destruct (device_write_ok d (aw_present w d) l buffer (aw_bus w) (aw_ready w) (aw_attached w d)) as (_ & _ & E).
  rewrite E, !(Z.mod_small l), !(Z.mod_small l') by lia.
  replace (bool_decide ((drive d', l') = (drive d, l))) with (bool_decide ((d', l') = (d, l))); [done|].
  apply bool_decide_ext. split; intros [= E1 ->]; by destruct d, d'.
Qed.

End World.

(** ** A concrete channel with two drives

    A command is busy for two reads of the status.  With [faulty] sector 5 of
    the slave is worn. *)

Record channel (faulty : bool) := mk_channel { ch_view : ata_view }.
Arguments mk_channel {faulty}. Arguments ch_view {faulty}.

Definition ch_worn (faulty d : bool) (l : Z) : bool := faulty && d && (l =? 5).

Definition ch_status (s : ata_view) : Z :=
  if 0 <? av_busy s then 0x80
  else match av_phase s with Idle => 0x40 | Failed => 0x41 | _ => 0x48 end.

Definition ch_inw (s : ata_view) : Z * ata_view :=
  match av_phase s with
  | DataIn (w :: ws) => (w, set_work 0 (if bool_decide (ws = []) then Idle else DataIn ws) s)
  | _ => (0, s)
  end.

Definition ch_outb (port v : Z) (s : ata_view) : ata_view :=
  if (0x1F2 <=? port) && (port <=? 0x1F5) then set_reg (port - 0x1F0) v s
  else if port =? 0x1F6 then set_work 0 (av_phase s) (set_reg 6 v s)
  else if port =? 0x1F7 then
    if v =? ATA_CMD_READ_PIO then set_work 2 (DataIn (sector_words (av_media s (av_drive s) (av_lba s)))) s
    else if v =? ATA_CMD_WRITE_PIO then set_work 2 (DataOut []) s
    else if v =? ATA_CMD_IDENTIFY then set_work 2 (DataIn (replicate 256 0)) s
    else set_work 2 (av_phase s) s
  else s.

Definition ch_outw (faulty : bool) (w : Z) (s : ata_view) : ata_view :=
  match av_phase s with
  | DataOut ws =>
      if bool_decide (length ws = 255%nat) then
        if ch_worn faulty (av_drive s) (av_lba s) then set_work 2 Failed s
        else set_media (av_drive s) (av_lba s) (word_bytes (ws ++ [w])) (set_work 2 Idle s)
      else set_work 0 (DataOut (ws ++ [w])) s
  | _ => s
  end.

#[global] Instance channel_ports faulty : Ports (channel faulty) := {
  inb port c := if port =? 0x1F7 then (ch_status (ch_view c), mk_channel (pass 1 (ch_view c))) else (0, c);
  inw port c := if port =? 0x1F0 then let '(w, s) := ch_inw (ch_view c) in (w, mk_channel s) else (0, c);
  outb port v c := (tt, mk_channel (ch_outb port v (ch_view c)));
  outw port w c := (tt, if port =? 0x1F0 then mk_channel (ch_outw faulty w (ch_view c)) else c);
}.

#[global] Instance channel_ok faulty : AtaOk (channel faulty).
Proof.
  refine {| attached _ := true; bad _ _ := false; worn := ch_worn faulty; ata := ch_view |}.
  - done.
  - intros [s]. cbv zeta. intros _. cbn. unfold ch_status. destruct (Z.ltb_spec 0 (av_busy s)).
    + split_and!; (done || lia || by intros; lia).
    + destruct (av_phase s); split_and!; (done || lia).
  - done.
  - intros r v [s] Hr _ _. cbn [snd outb channel_ports ch_view]. unfold ch_outb.
    destruct (Z.leb_spec 0x1F2 (0x1F0 + r)), (Z.leb_spec (0x1F0 + r) 0x1F5); try lia. cbn [andb].
    by replace (0x1F0 + r - 0x1F0) with r by lia.
  - intros v [s] Hb Hp. exists (av_phase s). by split.
  - intros port v [s] Hp. cbn [snd outb inb channel_ports ch_view]. unfold ch_outb. split.
    + destruct (Z.leb_spec 0x1F2 port), (Z.leb_spec port 0x1F5), (Z.eqb_spec port 0x1F6), (Z.eqb_spec port 0x1F7); (done || lia).
    + destruct (Z.eqb_spec port 0x1F7); [lia|done].
  - intros [s]. cbv zeta. intros _ _ _ _ _. exists 2. by split.
  - intros [s]. cbv zeta. intros _ _ _ _ _. exists 2. by split.
  - intros [s]. cbv zeta. intros _ _. exists 2, (replicate 256 0). by split_and!.
  - intros [s]. cbv zeta. intros _ Hp. exists 2, (av_phase s). by split_and!.
  - intros [s] w ws. cbv zeta. intros _ _ Hp. cbn in Hp |- *. unfold ch_inw. by rewrite Hp.
  - intros [s] w ws. cbv zeta. intros _ _ Hp _. exists 2. cbn in Hp |- *. unfold ch_outw. by rewrite Hp.
Defined.

(** Empty disks. *)
Definition demo_channel (faulty : bool) : channel faulty :=
  mk_channel (mk_ata (fun _ => 0) 0 Idle (fun _ _ => zeros 512)).

Lemma demo_channel_ready faulty : ready (demo_channel faulty).
Proof.
  unfold ready. cbn. split_and!; [done|unfold prompt; lia|done|].
  intros d l. split; [apply length_zeros|apply zeros_ok].
Qed.


Lemma ata_write_hides_fault_witness :
  run (write_sector 1 true 5 (replicate 512 7)) (demo_channel true) (fun r b' => r = 0 /\
    forall d l, av_media (ata b') d l = av_media (ata (demo_channel true)) d l).
Proof.
  apply (ata_write_hides_fault 1 5 (replicate 512 7) (demo_channel true)); [apply demo_channel_ready|reflexivity..].
Defined.

(** A sector written on the slave is read back through the ports. *)
Example channel_write_read :
  let w := write_sector 1 true 9 (replicate 512 7) (demo_channel true) in
  w.1 = 0 /\ (read_sector 1 true 9 w.2).1 = Some (replicate 512 7) /\ (read_sector 0 true 9 w.2).1 = Some (replicate 512 0) /\
  (read_sector 1 true (2 ^ 28 + 9) w.2).1 = Some (replicate 512 7).
Proof. vm_compute. by split_and!. Qed.
