(* ===== verification/KernelState.v ===== *)
(** * A concrete kernel

    The platform of Platform.v together with the scheduler of Task.v, the
    terminal of Vga.v, the keys to be typed and the memory of the running
    program.  It is a machine for the file systems, whose credentials are those
    of the current task, and a kernel for the system calls; the classes'
    laws hold of it. *)

From stdpp Require Import strings.
From S2P Require Import Prelude Heap Time Machine Platform VfsTypes Vfs Keyboard Vga Task Syscall SyscallFd.

Record kernel := mk_kernel {
  kn_pl : platform; kn_sched : sched; kn_vga : vga; kn_keys : list Z; kn_mem : gmap Z Z; kn_esp : Z;
}.
Implicit Types (w : kernel).

Definition with_pl (p : platform) w : kernel :=
  mk_kernel p (kn_sched w) (kn_vga w) (kn_keys w) (kn_mem w) (kn_esp w).
Definition lift_pl {A} (m : state platform A) : state kernel A :=
  fun w => let '(a, p) := m (kn_pl w) in (a, with_pl p w).

#[global] Instance kernel_machine : Machine kernel := {
  disk_present d w := disk_present d (kn_pl w);
  disk_read d l := lift_pl (disk_read d l);
  disk_write d l b := lift_pl (disk_write d l b);
  time_now := lift_pl time_now;
  kmalloc n := lift_pl (kmalloc n);
  kfree p := lift_pl (kfree p);
  Machine.current_uid w := Task.current_uid (kn_sched w);
  Machine.current_gid w := Task.current_gid (kn_sched w);
}.

#[global] Instance kernel_view : MachineView kernel := {
  sector w := sector (kn_pl w);
  healthy w := healthy (kn_pl w);
  same_rest w w' := w' = with_pl (kn_pl w') w;
}.

Lemma lift_pl_1 {A} (m : state platform A) w : (lift_pl m w).1 = (m (kn_pl w)).1.
Proof. unfold lift_pl. by destruct (m (kn_pl w)). Qed.
Lemma lift_pl_2 {A} (m : state platform A) w : (lift_pl m w).2 = with_pl (m (kn_pl w)).2 w.
Proof. unfold lift_pl. by destruct (m (kn_pl w)). Qed.

Lemma with_pl_quiet p w : quiet (kn_pl w) p -> quiet w (with_pl p w).
Proof. intros (Hs & Hh & _). split_and!; [exact Hs|exact Hh|done]. Qed.

#[global] Instance kernel_ok : MachineOk kernel.
Proof.
  split; cbn [disk_read disk_write time_now kmalloc kfree kernel_machine sector healthy same_rest kernel_view].
  - split; [by intros []|by intros w w' ->; destruct w|by intros w1 w2 w3 E1 E2; rewrite E2, E1; destruct w1].
  - by intros w w' ->.
  - intros w. apply sector_length.
  - intros w. apply sector_bytes.
  - intros d l w. rewrite lift_pl_2. apply with_pl_quiet, disk_read_quiet.
  - intros d l w s Hl. rewrite lift_pl_1. by apply disk_read_some.
  - intros d l w Hl Hh. rewrite lift_pl_1. by apply disk_read_healthy.
  - intros d l b w d' l' Hl Hl' Hne. rewrite lift_pl_2. by apply (disk_write_other d l b (kn_pl w)).
  - intros d l b w Hl Hb Hbo. rewrite lift_pl_1, lift_pl_2. by apply (disk_write_true d l b (kn_pl w)).
  - intros d l b w Hl Hh. rewrite lift_pl_1. by apply disk_write_healthy.
  - intros d l b w d' Hh. rewrite lift_pl_2. by apply (disk_write_keeps d l b (kn_pl w)).
  - intros d l b w. by rewrite lift_pl_2.
  - intros w. rewrite lift_pl_2. apply with_pl_quiet, time_now_quiet.
  - intros w. rewrite lift_pl_1. apply time_now_range.
  - intros n w. rewrite lift_pl_2. apply with_pl_quiet, kmalloc_quiet.
  - intros p w. rewrite lift_pl_2. apply with_pl_quiet, kfree_quiet.
Qed.

(** ** The memory of the program *)

Definition load_at (m : gmap Z Z) (a n : Z) : list Z := (fun i => u8 (default 0 (m !! (a + i)))) <$> seqZ 0 n.
Fixpoint store_at (a : Z) (b : list Z) (m : gmap Z Z) : gmap Z Z :=
  match b with
  | [] => m
  | x :: b => <[a := x]> (store_at (a + 1) b m)
  end.

(** Strings end within a page. *)
Definition MAX_STRING : Z := 4096.

#[global] Instance kernel_kernel : Kernel kernel := {
  k_sched := kn_sched;
  k_set_sched sch w := mk_kernel (kn_pl w) sch (kn_vga w) (kn_keys w) (kn_mem w) (kn_esp w);
  k_malloc n := lift_pl (kmalloc n);
  k_free p := lift_pl (kfree p);
  k_putchar c := fun w => (tt, mk_kernel (kn_pl w) (kn_sched w) (vga_putc c (kn_vga w)) (kn_keys w) (kn_mem w) (kn_esp w));
  k_keys := kn_keys;
  k_set_keys keys w := mk_kernel (kn_pl w) (kn_sched w) (kn_vga w) keys (kn_mem w) (kn_esp w);
  k_bytes w := load_at (kn_mem w);
  k_string w a := cstr (load_at (kn_mem w) a MAX_STRING);
  k_store a b w := mk_kernel (kn_pl w) (kn_sched w) (kn_vga w) (kn_keys w) (store_at a b (kn_mem w)) (kn_esp w);
  k_esp := kn_esp;
}.

Lemma length_load_at m a n : length (load_at m a n) = Z.to_nat n.
Proof. unfold load_at. by rewrite length_fmap, length_seqZ. Qed.

Lemma store_at_lookup b : forall a m i, (i < length b)%nat -> store_at a b m !! (a + Z.of_nat i) = b !! i.
Proof.
  induction b as [|x b IH]; intros a m i Hi; [cbn in Hi; lia|]. cbn [store_at]. destruct i as [|i].
  - rewrite Z.add_0_r. by rewrite lookup_insert_eq.
  - rewrite lookup_insert_ne by lia. replace (a + Z.of_nat (S i)) with (a + 1 + Z.of_nat i) by lia.
    rewrite IH by (cbn in Hi; lia). done.
Qed.

Lemma load_store a b m : bytes_ok b -> load_at (store_at a b m) a (Z.of_nat (length b)) = b.
Proof.
  intros Hb. apply list_eq_same_length with (n := length b); [done|rewrite length_load_at; lia|].
  intros i x y Hi Hx Hy. unfold load_at in Hx. rewrite list_lookup_fmap, lookup_seqZ_lt in Hx by lia.
  cbn [fmap option_fmap option_map] in Hx. rewrite Z.add_0_l in Hx.
  rewrite store_at_lookup, Hy in Hx by done. injection Hx as <-. cbn. apply u8_small.
  by apply (Forall_lookup_1 _ _ _ _ Hb Hy).
Qed.

(** What a file system sees of the machine. *)
Definition fs_same {W} `{Machine W, MachineView W} (w w' : W) : Prop :=
  (forall d l, sector w' d l = sector w d l) /\ (forall d, healthy w d -> healthy w' d) /\
  Machine.current_uid w' = Machine.current_uid w /\ Machine.current_gid w' = Machine.current_gid w.

#[global] Instance fs_same_preorder {W} `{Machine W, MachineView W} : PreOrder (fs_same (W := W)).
Proof.
  split; [done|]. intros w1 w2 w3 (A1 & B1 & C1 & D1) (A2 & B2 & C2 & D2).
  split_and!; [intros; congruence|auto|congruence|congruence].
Qed.

Lemma quiet_fs_same {W} `{MachineOk W} (w w' : W) : quiet w w' -> fs_same w w'.
Proof. intros (A & B & C). destruct (rest_cred _ _ C). done. Qed.

#[global] Instance kernel_kernel_ok : KernelOk kernel.
Proof.
  apply (Build_KernelOk _ _ fs_same);
    cbn [k_sched k_set_sched k_malloc k_free k_putchar k_set_keys k_bytes k_string k_store kernel_kernel];
    intros; rewrite ?lift_pl_2; try done.
  - apply _.
  - apply quiet_fs_same, with_pl_quiet, kmalloc_quiet.
  - apply length_load_at.
  - unfold load_at. apply Forall_fmap, Forall_true. intros i. apply u8_range.
  - by apply load_store.
Defined.

(** ** A task with an open file *)

Definition demo_fds : list fd_entry :=
  <[3%nat := mk_fd true O_WRONLY (lit "/f") (Some (0x9000, [1; 2; 3])) 3 2]> stdio_fds.
Definition demo_kernel : kernel :=
  mk_kernel (mk_platform ∅ (fun _ => []) (Heap.heap_init 0x100000) Time.demo_cmos 1 1)
    (mk_sched {[0x500 := mk_task 1 (lit "prog") TASK_RUNNING 0 None None 0 0x500 demo_fds 1 1]} (Some 0x500) (Some 0x500) 2)
    vga_off [] (store_at 0x2000 [7; 8; 9] ∅) 0.
Definition demo_kvfs : vfs kernel := mk_vfs [] [] demo_kernel.
Definition demo_file : ofile := mk_ofile true (lit "/f") [1; 2; 3] 2.

