(* ===== verification/Elf.v ===== *)
(** * The program loader (kernel/elf.c)

    [elf_exec] over the virtual file system: the permission check, the
    validation of the headers, the copying of the segments into memory and the
    call of the entry point.  The machine code of the program is a parameter.
    The headers are read from the image in the kernel heap; [None] marks a read
    outside it.

    A header is [honest] when its sums do not wrap and its file part is not
    larger than its memory part, neither of which the code checks.  Then the
    loader leaves in memory what the segments describe and touches nothing
    outside the window of the programs; without it, it can be made to write
    anywhere. *)

From Stdlib Require Import Ascii.
From stdpp Require Import strings.
From S2P Require Import Prelude Heap Time Machine VfsTypes CLib Printf Vfs Task Syscall SyscallFd Platform KernelState.

Definition EI_NIDENT : Z := 16.
Definition ET_EXEC : Z := 2.
Definition EM_386 : Z := 3.
Definition PT_LOAD : Z := 1.
Definition EHDR_SIZE : Z := 52.
Definition PHDR_SIZE : Z := 32.

(** [elf32_ehdr_t] and [elf32_phdr_t]: the fields the loader reads. *)
Record elf32_ehdr := mk_ehdr {
  e_ident : list Z; e_type : Z; e_machine : Z; e_entry : Z; e_phoff : Z; e_phentsize : Z; e_phnum : Z;
}.
Definition read_ehdr (image : list Z) : elf32_ehdr :=
  mk_ehdr (sub image 0 EI_NIDENT) (get_le 2 image 16) (get_le 2 image 18) (get_le 4 image 24) (get_le 4 image 28)
    (get_le 2 image 42) (get_le 2 image 44).

Record elf32_phdr := mk_phdr { p_type : Z; p_offset : Z; p_vaddr : Z; p_filesz : Z; p_memsz : Z }.
Definition read_phdr (image : list Z) (off : Z) : elf32_phdr :=
  mk_phdr (get_le 4 image off) (get_le 4 image (off + 4)) (get_le 4 image (off + 8)) (get_le 4 image (off + 16))
    (get_le 4 image (off + 20)).

Definition elf_is_valid (image : list Z) (size : Z) : bool :=
  if size <? EHDR_SIZE then false else
  let eh := read_ehdr image in
  (byte_at (e_ident eh) 0 =? 0x7F) && (byte_at (e_ident eh) 1 =? ch "E") && (byte_at (e_ident eh) 2 =? ch "L") &&
  (byte_at (e_ident eh) 3 =? ch "F") && (byte_at (e_ident eh) 4 =? 1) && (e_type eh =? ET_EXEC) &&
  (e_machine eh =? EM_386).

(** Where programs live. *)
Definition PROGRAM_START : Z := 0x400000.
Definition PROGRAM_END : Z := 0x700000.

Definition bad_segment (ph : elf32_phdr) (size : Z) : bool :=
  (size <? u32 (p_offset ph + p_filesz ph)) || (p_vaddr ph <? PROGRAM_START) ||
  (PROGRAM_END <? u32 (p_vaddr ph + p_memsz ph)).

(** Where [memcpy] and [memset] leave the image or the address space. *)
Definition wild_segment (ph : elf32_phdr) (size : Z) : bool :=
  (size <? p_offset ph + p_filesz ph) || (2 ^ 32 <? p_vaddr ph + Z.max (p_filesz ph) (p_memsz ph)).

Section Loader.
Context {D : Type} `{Kernel D}.
Abbreviation V := (vfs D).

(** [printf] to the terminal. *)
Definition kprintf (fmt : list Z) (args : list arg) : state V unit :=
  match printf fmt args with
  | Some (t, _) => putchars t
  | None => mret tt
  end.

Definition copy_segment (image : list Z) (ph : elf32_phdr) : state V unit :=
  _ ← on_d (k_store (p_vaddr ph) (sub image (p_offset ph) (p_filesz ph)));
  if p_filesz ph <? p_memsz ph
  then on_d (k_store (p_vaddr ph + p_filesz ph) (zeros (p_memsz ph - p_filesz ph)))
  else mret tt.

(** The loop over the program headers: [Some false] is an invalid segment. *)
Fixpoint load_segments (n : nat) (image : list Z) (size : Z) (eh : elf32_ehdr) (i : Z) : state V (option bool) :=
  match n with
  | O => mret (Some true)
  | S n =>
      let off := e_phoff eh + i * e_phentsize eh in
      if size <? off + PHDR_SIZE then mret None else
      let ph := read_phdr image off in
      if negb (p_type ph =? PT_LOAD) then load_segments n image size eh (i + 1) else
      if bad_segment ph size then mret (Some false) else
      if wild_segment ph size then mret None else
      _ ← copy_segment image ph;
      load_segments n image size eh (i + 1)
  end.

(** The call of the machine code at an address. *)
Variable entry_call : Z -> state V Z.

Definition elf_exec (path : list Z) : state V (option Z) :=
  st ← vfs_stat_path sys_uid sys_gid path;
  match st with
  | Overflow => mret None
  | Err _ => _ ← kprintf (lit "%s: not found" ++ [10]) [AText (Some path)]; mret (Some (-1))
  | Done st =>
  with_d (fun d =>
  if negb (vfs_access st (sys_uid d) (sys_gid d) X_OK) then
    _ ← kprintf (lit "%s: permission denied" ++ [10]) [AText (Some path)]; mret (Some (-1)) else
  r ← vfs_read_file sys_uid sys_gid path;
  match r with
  | Overflow => mret None
  | Err _ => _ ← kprintf (lit "%s: not found" ++ [10]) [AText (Some path)]; mret (Some (-1))
  | Done (p, image, size) =>
  if negb (elf_is_valid image size) then
    _ ← kprintf (lit "%s: not an i386 ELF executable" ++ [10]) [AText (Some path)];
    _ ← lift_d (k_free (Some p)); mret (Some (-1)) else
  let eh := read_ehdr image in
  l ← load_segments (Z.to_nat (e_phnum eh)) image size eh 0;
  match l with
  | None => mret None
  | Some false =>
      _ ← kprintf (lit "%s: invalid segment" ++ [10]) [AText (Some path)];
      _ ← lift_d (k_free (Some p)); mret (Some (-1))
  | Some true =>
      rc ← entry_call (e_entry eh);
      _ ← lift_d (k_free (Some p)); mret (Some rc)
  end
  end)
  end.
End Loader.

(** ** What the segments describe *)

Definition holds_addr (ph : elf32_phdr) (x : Z) : bool := (p_vaddr ph <=? x) && (x <? p_vaddr ph + p_memsz ph).
Definition segment_byte (image : list Z) (ph : elf32_phdr) (x : Z) : Z :=
  if x <? p_vaddr ph + p_filesz ph then byte_at image (p_offset ph + (x - p_vaddr ph)) else 0.

(** The byte the last segment over an address gives it. *)
Fixpoint described (image : list Z) (phs : list elf32_phdr) (x : Z) : option Z :=
  match phs with
  | [] => None
  | ph :: phs =>
      match described image phs x with
      | Some b => Some b
      | None => if holds_addr ph x then Some (segment_byte image ph x) else None
      end
  end.

Definition phdr_at (image : list Z) (eh : elf32_ehdr) (i : Z) : elf32_phdr :=
  read_phdr image (e_phoff eh + i * e_phentsize eh).
(** The headers from the [i]th on, and those to be loaded. *)
Definition phdrs (image : list Z) (eh : elf32_ehdr) (i : Z) (n : nat) : list elf32_phdr :=
  phdr_at image eh <$> seqZ i (Z.of_nat n).
Definition loads (phs : list elf32_phdr) : list elf32_phdr := filter (fun ph => p_type ph = PT_LOAD) phs.

(** What the code checks of a segment, and what it does not. *)
Definition in_window (ph : elf32_phdr) : Prop :=
  PROGRAM_START <= p_vaddr ph /\ p_vaddr ph + p_memsz ph <= PROGRAM_END.
Definition honest (size : Z) (ph : elf32_phdr) : Prop :=
  p_offset ph + p_filesz ph <= size /\ p_filesz ph <= p_memsz ph.

Record well_formed (image : list Z) (size : Z) : Prop := {
  wf_valid : elf_is_valid image size = true;
  wf_bytes : bytes_ok image;
  wf_size : size <= Z.of_nat (length image) /\ size < 2 ^ 32;
  wf_table i : let eh := read_ehdr image in 0 <= i < e_phnum eh -> e_phoff eh + i * e_phentsize eh + PHDR_SIZE <= size;
  wf_segments : Forall (fun ph => in_window ph /\ honest size ph)
                  (loads (phdrs image (read_ehdr image) 0 (Z.to_nat (e_phnum (read_ehdr image)))));
}.

(** Memory as bytes at addresses. *)
Definition peek {D} `{Kernel D} (d : D) (x : Z) : Z := byte_at (k_bytes d x 1) 0.

Class MemoryOk (D : Type) `{Kernel D} := {
  mem_store a b d x : bytes_ok b ->
    peek (k_store a b d) x = if (a <=? x) && (x <? a + Z.of_nat (length b)) then byte_at b (x - a) else peek d x;
}.

Lemma byte_at_zeros n i : byte_at (zeros n) i = 0.
Proof.
  unfold byte_at, zeros. destruct (replicate _ _ !! _) eqn:E; [|done]. by apply lookup_replicate in E as [-> _].
Qed.

Lemma read_phdr_range image off : bytes_ok image ->
  let ph := read_phdr image off in 0 <= p_offset ph /\ 0 <= p_filesz ph /\ 0 <= p_memsz ph.
Proof. intros Hb. cbn. split_and!; by apply get_le_bound. Qed.

Section Loading.
Context {D : Type} `{KernelOk D, !MemoryOk D}.
Abbreviation V := (vfs D).

(** The machine before and after, with [f] written over its memory. *)
Record loaded (f : Z -> option Z) (s s' : V) : Prop := {
  ld_mounts : mount_table s' = mount_table s;
  ld_error : last_error s' = last_error s;
  ld_frame : k_frame (v_drv s) (v_drv s');
  ld_sched : k_sched (v_drv s') = k_sched (v_drv s);
  ld_bytes x : peek (v_drv s') x = default (peek (v_drv s) x) (f x);
}.

Lemma loaded_nil s : loaded (fun _ => None) s s.
Proof. by split. Qed.

Lemma loaded_trans f g h s1 s2 s3 : (forall x, h x = match g x with Some b => Some b | None => f x end) ->
  loaded f s1 s2 -> loaded g s2 s3 -> loaded h s1 s3.
Proof.
  intros Hh [A1 B1 C1 D1 E1] [A2 B2 C2 D2 E2]. split; [congruence|congruence|by etrans|congruence|].
  intros x. rewrite E2, E1, Hh. by destruct (g x), (f x).
Qed.

Lemma store_loaded a b s : bytes_ok b ->
  run (on_d (k_store a b)) s (fun _ => loaded (fun x =>
    if (a <=? x) && (x <? a + Z.of_nat (length b)) then Some (byte_at b (x - a)) else None) s).
Proof.
  intros Hb. unfold on_d. apply run_modify. split; cbn; [done|done|apply kf_store|apply ks_store|].
  intros x. rewrite mem_store by done. by destruct (_ && _).
Qed.

Lemma copy_segment_loaded image size ph s : bytes_ok image -> size <= Z.of_nat (length image) -> 0 <= p_offset ph ->
  0 <= p_filesz ph -> honest size ph ->
  run (copy_segment image ph) s (fun _ => loaded (fun x =>
    if holds_addr ph x then Some (segment_byte image ph x) else None) s).
Proof.
  intros Hb Hl Ho Hf [Hs Hm]. unfold copy_segment.
  assert (Z.of_nat (length (sub image (p_offset ph) (p_filesz ph))) = p_filesz ph) as El by (rewrite length_sub; lia).
  assert (forall x, p_vaddr ph <= x < p_vaddr ph + p_filesz ph ->
    byte_at (sub image (p_offset ph) (p_filesz ph)) (x - p_vaddr ph) = byte_at image (p_offset ph + (x - p_vaddr ph))) as Eb.
  { intros x Hx. apply byte_at_sub; lia. }
  run_step store_loaded as L1; [by apply sub_ok|]. rewrite El in L1.
  destruct (Z.ltb_spec (p_filesz ph) (p_memsz ph)) as [Hz|Hz].
  - run_last store_loaded as L2; [apply zeros_ok|]. revert L1 L2. apply loaded_trans. intros x.
    rewrite length_zeros. unfold holds_addr, segment_byte.
    repeat case Z.leb_spec; intros; cbn [andb]; repeat case Z.ltb_spec; intros; cbn [andb];
      rewrite ?byte_at_zeros, ?Eb by lia; try lia; done.
  - apply run_ret. eapply loaded_trans; [|exact L1|apply loaded_nil]. intros x. unfold holds_addr, segment_byte.
    repeat case Z.leb_spec; intros; cbn [andb]; repeat case Z.ltb_spec; intros; cbn [andb];
      rewrite ?Eb by lia; try lia; done.
Qed.

Lemma load_segments_loaded image size eh n : bytes_ok image -> size <= Z.of_nat (length image) -> size < 2 ^ 32 -> forall i s,
  (forall j, i <= j < i + Z.of_nat n -> e_phoff eh + j * e_phentsize eh + PHDR_SIZE <= size) ->
  Forall (fun ph => in_window ph /\ honest size ph) (loads (phdrs image eh i n)) ->
  run (load_segments n image size eh i) s (fun r s' =>
    r = Some true /\ loaded (described image (loads (phdrs image eh i n))) s s').
Proof.
  intros Hb Hl Hsz. induction n as [|n IH]; intros i s Ht Hall.
  { apply run_ret. split; [done|apply loaded_nil]. }
  unfold phdrs in Hall |- *. rewrite Nat2Z.inj_succ, seqZ_cons, Z.pred_succ in Hall |- * by lia.
  cbn [fmap list_fmap] in Hall |- *. fold (phdrs image eh (Z.succ i) n) in Hall |- *. cbn [load_segments].
  destruct (Z.ltb_spec size (e_phoff eh + i * e_phentsize eh + PHDR_SIZE)); [specialize (Ht i); lia|].
  fold (phdr_at image eh i). unfold loads in Hall |- *. rewrite filter_cons in Hall |- *.
  destruct (Z.eqb_spec (p_type (phdr_at image eh i)) PT_LOAD) as [E|E]; cbn [negb];
    [rewrite decide_True in Hall |- * by done|rewrite decide_False in Hall |- * by done].
  - apply Forall_cons in Hall as [[Hw Hh] Hall].
    destruct (read_phdr_range image (e_phoff eh + i * e_phentsize eh) Hb) as (R1 & R2 & R3).
    fold (phdr_at image eh i) in R1, R2, R3. pose proof Hw as [W1 W2]. pose proof Hh as [X1 X2].
    unfold PROGRAM_START, PROGRAM_END in *.
    assert (bad_segment (phdr_at image eh i) size = false) as ->.
    { unfold bad_segment, PROGRAM_START, PROGRAM_END. rewrite !u32_small by (unfold is_u32; lia).
      repeat (apply orb_false_iff; split); apply Z.ltb_ge; lia. }
    assert (wild_segment (phdr_at image eh i) size = false) as ->.
    { unfold wild_segment. apply orb_false_iff; split; apply Z.ltb_ge; lia. }
    run_step copy_segment_loaded as L1; [done..|].
    run_last (IH (i + 1)) as (-> & L2); [intros j Hj; apply Ht; lia|done|]. split; [done|].
    by eapply loaded_trans; [|exact L1|exact L2].
  - run_last (IH (i + 1)) as (-> & L2); [intros j Hj; apply Ht; lia|done|]. done.
Qed.
Lemma described_window image phs : Forall in_window phs -> forall x,
  ~ PROGRAM_START <= x < PROGRAM_END -> described image phs x = None.
Proof.
  induction 1 as [|ph phs [A B] _ IH]; intros x Hx; [done|]. cbn. rewrite IH by done. unfold holds_addr.
  case Z.leb_spec; cbn; [|done]. case Z.ltb_spec; [lia|done].
Qed.

End Loading.

(** ** On a concrete kernel *)

Lemma lookup_store_at_ne b : forall a m x, ~ a <= x < a + Z.of_nat (length b) -> store_at a b m !! x = m !! x.
Proof.
  induction b as [|y b IH]; intros a m x Hx; [done|]. cbn [store_at length] in *.
  rewrite lookup_insert_ne by lia. apply IH. lia.
Qed.

#[global] Instance kernel_memory_ok : MemoryOk kernel.
Proof.
  split. intros a b d x Hb. unfold peek. cbn [k_bytes k_store kernel_kernel kn_mem].
  assert (forall m, byte_at (load_at m x 1) 0 = u8 (default 0 (m !! x))) as E.
  { intros m. unfold load_at, byte_at. change (seqZ 0 1) with [0]. cbn [fmap list_fmap]. by rewrite Z.add_0_r. }
  rewrite !E. destruct (Z.leb_spec a x); cbn [andb]; [destruct (Z.ltb_spec x (a + Z.of_nat (length b)))|].
  - replace x with (a + Z.of_nat (Z.to_nat (x - a))) at 1 by lia. rewrite store_at_lookup by lia.
    unfold byte_at. apply u8_small. destruct (b !! Z.to_nat (x - a)) eqn:El; [|unfold is_u8; cbn; lia].
    by apply (Forall_lookup_1 _ _ _ _ Hb El).
  - by rewrite lookup_store_at_ne by lia.
  - by rewrite lookup_store_at_ne by lia.
Qed.

(** A header, with its program headers behind it. *)
Definition demo_header (n : Z) : list Z :=
  [0x7F] ++ lit "ELF" ++ [1] ++ zeros 11 ++ le_bytes 2 ET_EXEC ++ le_bytes 2 EM_386 ++ le_bytes 4 1 ++
  le_bytes 4 0x400000 ++ le_bytes 4 52 ++ zeros 8 ++ le_bytes 2 52 ++ le_bytes 2 32 ++ le_bytes 2 n ++ zeros 6.
Definition demo_phdr (off vaddr filesz memsz : Z) : list Z :=
  le_bytes 4 PT_LOAD ++ le_bytes 4 off ++ le_bytes 4 vaddr ++ zeros 4 ++ le_bytes 4 filesz ++ le_bytes 4 memsz ++ zeros 8.

Definition demo_image : list Z := demo_header 2 ++ demo_phdr 116 0x400000 3 5 ++ demo_phdr 118 0x400002 1 4 ++ [42; 43; 44].

(** A driver that serves one executable file. *)
Definition demo_stat (mode : Z) (t : vfs_node_type) : vfs_stat := mk_stat t 0 0 mode 0 0 1 2 0 0 0 0 0.
Definition program_ops (image : list Z) : vfs_ops kernel :=
  mk_ops (Some (fun p d => (Some (if bool_decide (p = [SLASH]) then demo_stat 0x41ED VFS_DIR else demo_stat 0x81ED VFS_FILE), d)))
    (Some (fun _ d => (Some (0x9000, image, Z.of_nat (length image)), d))) None None None None None None None None None None.
Definition program_vfs (image : list Z) : vfs kernel :=
  mk_vfs [mk_mount [SLASH] VFS_FS_EXT2 (program_ops image) None] [] demo_kernel.

(** The code of the program: it returns the byte at its entry point. *)
Definition demo_entry (a : Z) : state (vfs kernel) Z := fun s => (peek (v_drv s) a, s).

Lemma demo_image_ok : well_formed demo_image (Z.of_nat (length demo_image)).
Proof.
  split; [done|by refine (bool_decide_unpack _ _)|split; vm_compute; congruence| |].
  - intros i eh Hi. change (e_phnum eh) with 2 in Hi. assert (i = 0 \/ i = 1) as [-> | ->] by lia; vm_compute; congruence.
  - refine (bool_decide_unpack _ _). unfold in_window, honest. vm_compute. exact I.
Qed.


(** A segment whose file part is larger than its memory part passes the check
    and is copied past the window; one whose end wraps is copied to the top of
    the address space. *)
Definition overrun_image : list Z := demo_header 1 ++ demo_phdr 84 0x6FFFFF 2 0 ++ [42; 43].
Definition wrap_image : list Z := demo_header 1 ++ demo_phdr 84 0xFFFFF000 2 0x1000 ++ [42; 43].
Definition load_demo (image : list Z) : option bool * vfs kernel :=
  load_segments 1 image (Z.of_nat (length image)) (read_ehdr image) 0 (program_vfs image).

Example segment_overruns_window :
  (load_demo overrun_image).1 = Some true /\ peek (v_drv (load_demo overrun_image).2) 0x700000 = 43 /\
  peek demo_kernel 0x700000 = 0.
Proof. by vm_compute. Qed.

Example segment_check_wraps :
  (load_demo wrap_image).1 = Some true /\ peek (v_drv (load_demo wrap_image).2) 0xFFFFF001 = 43 /\
  peek demo_kernel 0xFFFFF001 = 0.
Proof. by vm_compute. Qed.

(** The 8 MiB heap that starts at the page behind the kernel contains the
    window, whatever the size of the kernel, up to 3 MiB. *)
Lemma window_inside_heap kernel_end : 0x100000 <= kernel_end <= 0x400000 ->
  let h := heap_init kernel_end in
  heap_start h <= PROGRAM_START /\ PROGRAM_END <= heap_end h.
Proof.
  intros Hk. pose proof (ALIGN_UP_spec kernel_end 12) as Ha. change (2 ^ 12) with 4096 in Ha.
  pose proof (Z.div_mod (kernel_end + 4095) 4096). pose proof (Z.mod_pos_bound (kernel_end + 4095) 4096).
  cbn [heap_init heap_start heap_end]. rewrite Ha by lia. change (kernel_end + (4096 - 1)) with (kernel_end + 4095).
  assert ((kernel_end + 4095) / 4096 <= 0x400) by (apply Z.lt_succ_r, Z.div_lt_upper_bound; lia).
  unfold PROGRAM_START, PROGRAM_END, HEAP_SIZE. rewrite u32_small by (unfold is_u32; lia). lia.
Qed.
