(* ===== verification/Fat16.v ===== *)
(** * The FAT16 driver (fs/fat16.c)

    The driver's static [fs] and the machine are the state.  A loop that
    follows the allocation table has no bound of its own in C: it is given one
    turn per possible cluster here, and [ft_hung] is raised when that does not
    finish it, after which the C code would still be in the loop and the rest
    of the state means nothing.  The [printf] calls are left out. *)

From S2P Require Import Prelude Machine VfsTypes CLib Vfs.

Definition FAT_ATTR_VOLUME_ID : Z := 0x08.
Definition FAT_ATTR_DIRECTORY : Z := 0x10.
Definition FAT_ATTR_ARCHIVE : Z := 0x20.
Definition FAT_ATTR_LFN : Z := 0x0F.
Definition FAT_EOC : Z := 0xFFF8.
Definition FAT_FREE : Z := 0.

(** One turn per 16-bit cluster number. *)
Definition chain_turns : nat := Z.to_nat 65536.

Record fat_dir_entry := mk_entry {
  fe_name : list Z; fe_attr : Z; fe_nt_reserved : Z; fe_create_time_tenth : Z;
  fe_create_time : Z; fe_create_date : Z; fe_last_access_date : Z; fe_first_cluster_high : Z;
  fe_write_time : Z; fe_write_date : Z; fe_first_cluster_low : Z; fe_size : Z;
}.

(** The packed struct in memory. *)
Definition entry_of_bytes (b : list Z) : fat_dir_entry :=
  mk_entry (sub b 0 11) (get_le 1 b 11) (get_le 1 b 12) (get_le 1 b 13) (get_le 2 b 14)
    (get_le 2 b 16) (get_le 2 b 18) (get_le 2 b 20) (get_le 2 b 22) (get_le 2 b 24)
    (get_le 2 b 26) (get_le 4 b 28).
Definition bytes_of_entry (e : fat_dir_entry) : list Z :=
  fe_name e ++ le_bytes 1 (fe_attr e) ++ le_bytes 1 (fe_nt_reserved e) ++
  le_bytes 1 (fe_create_time_tenth e) ++ le_bytes 2 (fe_create_time e) ++
  le_bytes 2 (fe_create_date e) ++ le_bytes 2 (fe_last_access_date e) ++
  le_bytes 2 (fe_first_cluster_high e) ++ le_bytes 2 (fe_write_time e) ++
  le_bytes 2 (fe_write_date e) ++ le_bytes 2 (fe_first_cluster_low e) ++ le_bytes 4 (fe_size e).

Definition ENTRY_SIZE : Z := 32.

(** [memset(&entry, 0, sizeof(entry))]. *)
Definition zero_entry : fat_dir_entry := mk_entry (zeros 11) 0 0 0 0 0 0 0 0 0 0 0.

Definition set_name (n : list Z) (e : fat_dir_entry) : fat_dir_entry :=
  mk_entry n (fe_attr e) (fe_nt_reserved e) (fe_create_time_tenth e) (fe_create_time e)
    (fe_create_date e) (fe_last_access_date e) (fe_first_cluster_high e) (fe_write_time e)
    (fe_write_date e) (fe_first_cluster_low e) (fe_size e).
Definition set_attr (a : Z) (e : fat_dir_entry) : fat_dir_entry :=
  mk_entry (fe_name e) a (fe_nt_reserved e) (fe_create_time_tenth e) (fe_create_time e)
    (fe_create_date e) (fe_last_access_date e) (fe_first_cluster_high e) (fe_write_time e)
    (fe_write_date e) (fe_first_cluster_low e) (fe_size e).
Definition set_size (n : Z) (e : fat_dir_entry) : fat_dir_entry :=
  mk_entry (fe_name e) (fe_attr e) (fe_nt_reserved e) (fe_create_time_tenth e) (fe_create_time e)
    (fe_create_date e) (fe_last_access_date e) (fe_first_cluster_high e) (fe_write_time e)
    (fe_write_date e) (fe_first_cluster_low e) n.

Definition entry_first_cluster (e : fat_dir_entry) : Z :=
  Z.lor (u32 (Z.shiftl (fe_first_cluster_high e) 16)) (fe_first_cluster_low e).
Definition entry_set_first_cluster (cluster : Z) (e : fat_dir_entry) : fat_dir_entry :=
  mk_entry (fe_name e) (fe_attr e) (fe_nt_reserved e) (fe_create_time_tenth e) (fe_create_time e)
    (fe_create_date e) (fe_last_access_date e) (u16 (Z.shiftr cluster 16)) (fe_write_time e)
    (fe_write_date e) (u16 (Z.land cluster 0xFFFF)) (fe_size e).

Definition has_attr (e : fat_dir_entry) (a : Z) : bool := negb (Z.land (fe_attr e) a =? 0).
Definition entry_is_free (e : fat_dir_entry) : bool :=
  (byte_at (fe_name e) 0 =? 0) || (byte_at (fe_name e) 0 =? 0xE5).
Definition entry_is_visible (e : fat_dir_entry) : bool :=
  negb (entry_is_free e) && negb (fe_attr e =? FAT_ATTR_LFN) && negb (has_attr e FAT_ATTR_VOLUME_ID).

Record fat16_fs := mk_fs {
  f_disk : option disk_device; f_mounted : bool; f_bytes_per_sector : Z;
  f_sectors_per_cluster : Z; f_reserved_sectors : Z; f_fat_count : Z; f_root_entry_count : Z;
  f_sectors_per_fat : Z; f_total_sectors : Z; f_root_dir_sectors : Z; f_first_fat_sector : Z;
  f_root_dir_sector : Z; f_first_data_sector : Z; f_max_cluster : Z;
}.

Record found_entry := mk_found { fd_entry : fat_dir_entry; fd_dir_cluster : Z; fd_index : Z; fd_found : bool }.

Record fat (W : Type) := mk_fat { ft_fs : fat16_fs; ft_w : W; ft_hung : bool }.
Arguments mk_fat {W}. Arguments ft_fs {W}. Arguments ft_w {W}. Arguments ft_hung {W}.

(** ** 8.3 names *)

Definition bad_char (c : Z) : bool := (c =? SLASH) || (c =? 92) || (c =? 32).

(** [strrchr(name, '.')] as an index. *)
Fixpoint last_dot (p : list Z) : option nat :=
  match p with
  | [] => None
  | c :: p => match last_dot p with
              | Some k => Some (S k)
              | None => if c =? DOT then Some 0%nat else None
              end
  end.

Definition pad (n : nat) (s : list Z) : list Z := s ++ replicate (n - length s) 32.

Definition name_to_83 (name : list Z) : option (list Z) :=
  if bool_decide (name = []) || is_dot name || is_dotdot name then None else
  let base := match last_dot name with Some k => take k name | None => name end in
  let ext := match last_dot name with Some k => drop (S k) name | None => [] end in
  if bool_decide (base = []) || (8 <? Z.of_nat (length base)) || (3 <? Z.of_nat (length ext)) then None
  else if existsb bad_char base then None
  else if existsb bad_char ext then None
  else Some (pad 8 (map toupper base) ++ pad 3 (map toupper ext)).

(** The characters before the first blank. *)
Fixpoint before_blank (s : list Z) : list Z :=
  match s with
  | [] => []
  | c :: s => if c =? 32 then [] else c :: before_blank s
  end.

Definition name_from_83 (e : fat_dir_entry) : list Z :=
  let base := sub (fe_name e) 0 8 in
  let ext := sub (fe_name e) 8 3 in
  map tolower (before_blank base) ++
  (if existsb (fun c => negb (c =? 32)) ext then DOT :: map tolower (before_blank ext) else []).

(** ** Dates *)

Definition is_leap_year (year : Z) : bool :=
  ((year mod 4 =? 0) && negb (year mod 100 =? 0)) || (year mod 400 =? 0).

(** The month field of a date has four bits: for months above 13 the loop below
    reads behind the table, which continues with zeros here. *)
Definition days_in_month (year month : Z) : Z :=
  if (month =? 2) && is_leap_year year then 29
  else byte_at [31; 28; 31; 30; 31; 30; 31; 31; 30; 31; 30; 31] (month - 1).

Definition fat_datetime_to_unix (date time : Z) : Z :=
  if date =? 0 then 0 else
  let year := 1980 + Z.shiftr date 9 in
  let month := Z.land (Z.shiftr date 5) 0x0F in
  let day := Z.land date 0x1F in
  let hour := Z.land (Z.shiftr time 11) 0x1F in
  let minute := Z.land (Z.shiftr time 5) 0x3F in
  let second := Z.land time 0x1F * 2 in
  let month := if month <? 1 then 1 else month in
  let day := if day <? 1 then 1 else day in
  let days := foldl (fun d y => u32 (d + (if is_leap_year y then 366 else 365))) 0 (seqZ 1970 (year - 1970)) in
  let days := foldl (fun d m => u32 (d + days_in_month year m)) days (seqZ 1 (month - 1)) in
  let days := u32 (days + (day - 1)) in
  u32 (days * 86400 + hour * 3600 + minute * 60 + second).

Section Driver.
Context {W : Type} `{Machine W}.
Abbreviation F := (fat W).

(** What fresh heap memory holds: [junk p n] are the [n] bytes at [p]. *)
Context (junk : Z -> Z -> list Z).

Definition on_w {A} (m : state W A) : state F A := fun s =>
  let '(a, w) := m (ft_w s) in (a, mk_fat (ft_fs s) w (ft_hung s)).
Definition hang : state F unit := modify (fun s => mk_fat (ft_fs s) (ft_w s) true).
Definition set_fs (fs : fat16_fs) : state F unit := modify (fun s => mk_fat fs (ft_w s) (ft_hung s)).

Definition cluster_size_of (fs : fat16_fs) : Z := f_bytes_per_sector fs * f_sectors_per_cluster fs.
Definition cluster_size : state F Z := gets (fun s => cluster_size_of (ft_fs s)).

Definition cluster_to_lba_of (fs : fat16_fs) (cluster : Z) : Z :=
  u32 (f_first_data_sector fs + (cluster - 2) * f_sectors_per_cluster fs).
Definition cluster_to_lba (cluster : Z) : state F Z := gets (fun s => cluster_to_lba_of (ft_fs s) cluster).

Definition disk_read (lba : Z) : state F (option (list Z)) :=
  fs ← gets ft_fs;
  match f_disk fs with
  | Some d => on_w (Machine.disk_read d (u32 lba))
  | None => mret None
  end.
Definition disk_write (lba : Z) (buf : list Z) : state F bool :=
  fs ← gets ft_fs;
  match f_disk fs with
  | Some d => on_w (Machine.disk_write d (u32 lba) buf)
  | None => mret false
  end.

(** ** The allocation table *)

Definition fat_read (cluster : Z) : state F (option Z) :=
  fs ← gets ft_fs;
  let offset := u32 (cluster * 2) in
  let sector_lba := f_first_fat_sector fs + offset / f_bytes_per_sector fs in
  let sector_off := offset mod f_bytes_per_sector fs in
  r ← disk_read sector_lba;
  mret ((fun sector => Z.lor (byte_at sector sector_off) (Z.shiftl (byte_at sector (sector_off + 1)) 8)) <$> r).

(** The copies [fat], [fat + 1], ... of the table. *)
Fixpoint fat_write_copies (n : nat) (fat offset value : Z) : state F bool :=
  match n with
  | O => mret true
  | S n =>
      fs ← gets ft_fs;
      let sector_off := offset mod f_bytes_per_sector fs in
      let sector_lba := f_first_fat_sector fs + fat * f_sectors_per_fat fs + offset / f_bytes_per_sector fs in
      r ← disk_read sector_lba;
      match r with
      | None => mret false
      | Some sector =>
          let sector := put sector sector_off [Z.land value 0xFF] in
          let sector := put sector (sector_off + 1) [Z.shiftr value 8] in
          ok ← disk_write sector_lba sector;
          if ok : bool then fat_write_copies n (fat + 1) offset value else mret false
      end
  end.
Definition fat_write (cluster value : Z) : state F bool :=
  fs ← gets ft_fs;
  fat_write_copies (Z.to_nat (f_fat_count fs)) 0 (u32 (cluster * 2)) value.

Fixpoint zero_sectors (n : nat) (lba : Z) : state F bool :=
  match n with
  | O => mret true
  | S n => ok ← disk_write lba (zeros 512);
           if ok : bool then zero_sectors n (lba + 1) else mret false
  end.
Definition zero_cluster (cluster : Z) : state F bool :=
  fs ← gets ft_fs;
  lba ← cluster_to_lba cluster;
  zero_sectors (Z.to_nat (f_sectors_per_cluster fs)) lba.

(** 0 is failure. *)
Fixpoint alloc_from (n : nat) (c : Z) : state F Z :=
  match n with
  | O => mret 0
  | S n =>
      r ← fat_read c;
      match r with
      | None => mret 0
      | Some value =>
          if value =? FAT_FREE then
            ok ← fat_write c 0xFFFF;
            if negb ok then mret 0 else
            _ ← zero_cluster c;
            mret c
          else alloc_from n (c + 1)
      end
  end.
Definition alloc_cluster : state F Z :=
  fs ← gets ft_fs;
  alloc_from (Z.to_nat (f_max_cluster fs - 2)) 2.

Fixpoint free_chain_loop (turns : nat) (cluster : Z) : state F unit :=
  if (2 <=? cluster) && (cluster <? FAT_EOC) then
    match turns with
    | O => hang
    | S turns =>
        r ← fat_read cluster;
        match r with
        | None => mret tt
        | Some next =>
            _ ← fat_write cluster FAT_FREE;
            if (FAT_EOC <=? next) || (next =? 0) then mret tt
            else free_chain_loop turns next
        end
    end
  else mret tt.
Definition free_chain (cluster : Z) : state F unit := free_chain_loop chain_turns cluster.

(** ** Directory entries *)

(** [while (cluster_skip--)]: the cluster reached. *)
Fixpoint skip_clusters (n : nat) (cluster : Z) : state F (option Z) :=
  match n with
  | O => mret (Some cluster)
  | S n =>
      r ← fat_read cluster;
      match r with
      | None => mret None
      | Some next => if FAT_EOC <=? next then mret None else skip_clusters n next
      end
  end.

(** Where entry [index] lies: its sector and offset, computed at the head of
    both [read_dir_entry_at] and [write_dir_entry_at]. *)
Definition dir_entry_place (dir_cluster index : Z) : state F (option (Z * Z)) :=
  fs ← gets ft_fs;
  let entries_per_sector := f_bytes_per_sector fs / ENTRY_SIZE in
  if dir_cluster =? 0 then
    if f_root_entry_count fs <=? index then mret None
    else mret (Some (f_root_dir_sector fs + index / entries_per_sector,
                     (index mod entries_per_sector) * ENTRY_SIZE))
  else
  let entries_per_cluster := cluster_size_of fs / ENTRY_SIZE in
  let in_cluster := index mod entries_per_cluster in
  r ← skip_clusters (Z.to_nat (index / entries_per_cluster)) dir_cluster;
  match r with
  | None => mret None
  | Some cluster =>
      mret (Some (cluster_to_lba_of fs cluster + in_cluster * ENTRY_SIZE / f_bytes_per_sector fs,
                  (in_cluster * ENTRY_SIZE) mod f_bytes_per_sector fs))
  end.

Definition read_dir_entry_at (dir_cluster index : Z) : state F (option fat_dir_entry) :=
  r ← dir_entry_place dir_cluster index;
  match r with
  | None => mret None
  | Some (lba, off) =>
      b ← disk_read lba;
      mret ((fun sector => entry_of_bytes (sub sector off ENTRY_SIZE)) <$> b)
  end.

Definition write_dir_entry_at (dir_cluster index : Z) (entry : fat_dir_entry) : state F Z :=
  r ← dir_entry_place dir_cluster index;
  match r with
  | None => mret (-1)
  | Some (lba, off) =>
      b ← disk_read lba;
      match b with
      | None => mret (-1)
      | Some sector =>
          ok ← disk_write lba (put sector off (bytes_of_entry entry));
          mret (if ok : bool then 0 else -1)
      end
  end.

Definition dir_max (fs : fat16_fs) (dir_cluster : Z) : nat :=
  if dir_cluster =? 0 then Z.to_nat (f_root_entry_count fs) else Z.to_nat 65536.

Fixpoint find_loop (n : nat) (dir_cluster : Z) (fat_name : list Z) (i : Z) : state F (option found_entry) :=
  match n with
  | O => mret None
  | S n =>
      r ← read_dir_entry_at dir_cluster i;
      match r with
      | None => mret None
      | Some entry =>
          if byte_at (fe_name entry) 0 =? 0 then mret None
          else if entry_is_visible entry && bool_decide (fe_name entry = fat_name)
          then mret (Some (mk_found entry dir_cluster i true))
          else find_loop n dir_cluster fat_name (i + 1)
      end
  end.
Definition find_in_dir (dir_cluster : Z) (fat_name : list Z) : state F (option found_entry) :=
  fs ← gets ft_fs;
  find_loop (dir_max fs dir_cluster) dir_cluster fat_name 0.

(** ** Paths *)

Fixpoint lookup_tokens (dir : Z) (toks : list (list Z)) : state F (option found_entry) :=
  match toks with
  | [] => mret None
  | tok :: toks =>
      match name_to_83 tok with
      | None => mret None
      | Some fat_name =>
          r ← find_in_dir dir fat_name;
          match r with
          | None => mret None
          | Some found =>
              match toks with
              | [] => mret (Some found)
              | _ => if negb (has_attr (fd_entry found) FAT_ATTR_DIRECTORY) then mret None
                     else lookup_tokens (entry_first_cluster (fd_entry found)) toks
              end
          end
      end
  end.

Definition root_found : found_entry := mk_found (set_attr FAT_ATTR_DIRECTORY zero_entry) 0 0 true.

Definition path_lookup (path : list Z) : state F (option found_entry) :=
  fs ← gets ft_fs;
  if negb (f_mounted fs) then mret None else
  match path with
  | [] => mret None
  | c :: rest =>
      if negb (c =? SLASH) then mret None
      else match rest with
      | [] => mret (Some root_found)
      | _ => lookup_tokens 0 (path_tokens (strncpy PUREUNIX_MAX_PATH rest) [])
      end
  end.

(** The parent directory and the last component. *)
Definition path_parent (path : list Z) : state F (option (found_entry * list Z)) :=
  if bool_decide (path = [SLASH]) || negb (byte_at path 0 =? SLASH) then mret None else
  let tmp := strncpy PUREUNIX_MAX_PATH path in
  match last_slash tmp with
  | None => mret None
  | Some k =>
      let leaf := strncpy PUREUNIX_MAX_NAME (drop (S k) tmp) in
      r ← path_lookup (match k with O => [SLASH] | _ => take k tmp end);
      mret ((fun parent => (parent, leaf)) <$> r)
  end.

(** ** Free slots *)

(** [while (fat_read(last, &next) == 0 && next < FAT_EOC) last = next;] *)
Fixpoint chain_last (turns : nat) (last : Z) : state F Z :=
  r ← fat_read last;
  match r with
  | None => mret last
  | Some next =>
      if next <? FAT_EOC then
        match turns with
        | O => _ ← hang; mret last
        | S turns => chain_last turns next
        end
      else mret last
  end.

Fixpoint free_slot_loop (n : nat) (dir_cluster i : Z) : state F (option Z) :=
  match n with
  | O => mret None
  | S n =>
      r ← read_dir_entry_at dir_cluster i;
      match r with
      | None =>
          if dir_cluster =? 0 then mret None else
          last ← chain_last chain_turns dir_cluster;
          c ← alloc_cluster;
          if c =? 0 then mret None else
          _ ← fat_write last (u16 c);
          _ ← fat_write c 0xFFFF;
          fs ← gets ft_fs;
          let entries_per_cluster := cluster_size_of fs / ENTRY_SIZE in
          mret (Some ((i + entries_per_cluster - 1) / entries_per_cluster * entries_per_cluster))
      | Some entry => if entry_is_free entry then mret (Some i) else free_slot_loop n dir_cluster (i + 1)
      end
  end.
Definition find_free_slot (dir_cluster : Z) : state F (option Z) :=
  fs ← gets ft_fs;
  free_slot_loop (dir_max fs dir_cluster) dir_cluster 0.

Fixpoint empty_loop (n : nat) (cluster i : Z) : state F bool :=
  match n with
  | O => mret true
  | S n =>
      r ← read_dir_entry_at cluster i;
      match r with
      | None => mret true
      | Some entry =>
          if byte_at (fe_name entry) 0 =? 0 then mret true
          else if negb (entry_is_visible entry) then empty_loop n cluster (i + 1)
          else let name := cstr (name_from_83 entry) in
               if negb (is_dot name) && negb (is_dotdot name) then mret false
               else empty_loop n cluster (i + 1)
      end
  end.
Definition dir_is_empty (cluster : Z) : state F bool := empty_loop (Z.to_nat 65536) cluster 0.

(** ** File contents *)

(** The first loop of [write_new_chain]: the first and the last cluster. *)
Fixpoint alloc_chain (needed : nat) (first prev : Z) : state F (option (Z * Z)) :=
  match needed with
  | O => mret (Some (first, prev))
  | S needed =>
      c ← alloc_cluster;
      if c =? 0 then
        _ ← (if first =? 0 then mret tt else free_chain first);
        mret None
      else
      let first := if first =? 0 then c else first in
      _ ← (if prev =? 0 then mret true else fat_write prev (u16 c));
      alloc_chain needed first c
  end.

(** The sectors of one cluster: [true] and the data not yet written. *)
Fixpoint write_sectors (n : nat) (lba : Z) (data : list Z) : state F (bool * list Z) :=
  match n with
  | O => mret (true, data)
  | S n =>
      fs ← gets ft_fs;
      let chunk := take (Z.to_nat (f_bytes_per_sector fs)) data in
      ok ← disk_write lba (put (zeros 512) 0 chunk);
      let data := drop (Z.to_nat (f_bytes_per_sector fs)) data in
      if ok : bool then write_sectors n (lba + 1) data else mret (false, data)
  end.

(** The second loop: [false] when a sector could not be written. *)
Fixpoint write_clusters (turns : nat) (cluster : Z) (data : list Z) : state F bool :=
  if (2 <=? cluster) && (cluster <? FAT_EOC) && negb (bool_decide (data = [])) then
    match turns with
    | O => _ ← hang; mret true
    | S turns =>
        fs ← gets ft_fs;
        '(ok, data) ← write_sectors (Z.to_nat (f_sectors_per_cluster fs)) (cluster_to_lba_of fs cluster) data;
        if negb ok then mret false else
        r ← fat_read cluster;
        match r with
        | None => mret true
        | Some next => write_clusters turns next data
        end
    end
  else mret true.

(** The first cluster of the new chain. *)
Definition write_new_chain (data : list Z) : state F (option Z) :=
  let size := Z.of_nat (length data) in
  if size =? 0 then mret (Some 0) else
  cs ← cluster_size;
  let needed := u32 (size + cs - 1) / cs in
  r ← alloc_chain (Z.to_nat needed) 0 0;
  match r with
  | None => mret None
  | Some (first, prev) =>
      _ ← fat_write prev 0xFFFF;
      ok ← write_clusters (length data) first data;
      if negb ok then (_ ← free_chain first; mret None)
      else mret (Some first)
  end.

(** The loop over the sectors of a cluster when reading: [None] on a read
    error, else the buffer and the bytes read. *)
Fixpoint read_sectors (n : nat) (lba size read : Z) (data : list Z) : state F (option (Z * list Z)) :=
  match n with
  | O => mret (Some (read, data))
  | S n =>
      if size <=? read then mret (Some (read, data)) else
      fs ← gets ft_fs;
      r ← disk_read lba;
      match r with
      | None => mret None
      | Some sector =>
          let remaining := size - read in
          let chunk := if f_bytes_per_sector fs <? remaining then f_bytes_per_sector fs else remaining in
          read_sectors n (lba + 1) size (read + chunk) (put data read (sub sector 0 chunk))
      end
  end.

Fixpoint read_clusters (turns : nat) (cluster size read : Z) (data : list Z) : state F (option (list Z)) :=
  if (2 <=? cluster) && (cluster <? FAT_EOC) && (read <? size) then
    match turns with
    | O => _ ← hang; mret (Some data)
    | S turns =>
        fs ← gets ft_fs;
        r ← read_sectors (Z.to_nat (f_sectors_per_cluster fs)) (cluster_to_lba_of fs cluster) size read data;
        match r with
        | None => mret None
        | Some (read, data) =>
            r ← fat_read cluster;
            match r with
            | None => mret (Some data)
            | Some next => read_clusters turns next size read data
            end
        end
    end
  else mret (Some data).

(** ** Mounting *)

Definition empty_fs (disk : option disk_device) : fat16_fs := mk_fs disk false 0 0 0 0 0 0 0 0 0 0 0 0.

(** The geometry from the boot sector; [None] is the divide fault of a zero
    cluster size. *)
Definition bpb_geometry (d : disk_device) (sector : list Z) : option fat16_fs :=
  let bytes_per_sector := get_le 2 sector 11 in
  let sectors_per_cluster := get_le 1 sector 13 in
  let reserved_sectors := get_le 2 sector 14 in
  let fat_count := get_le 1 sector 16 in
  let root_entry_count := get_le 2 sector 17 in
  let sectors_per_fat := get_le 2 sector 22 in
  let total_sectors := if get_le 2 sector 19 =? 0 then get_le 4 sector 32 else get_le 2 sector 19 in
  let root_dir_sectors := (root_entry_count * 32 + (bytes_per_sector - 1)) / bytes_per_sector in
  let first_fat_sector := reserved_sectors in
  let root_dir_sector := first_fat_sector + fat_count * sectors_per_fat in
  let first_data_sector := root_dir_sector + root_dir_sectors in
  if sectors_per_cluster =? 0 then None else
  let max_cluster := u32 (u32 (total_sectors - first_data_sector) / sectors_per_cluster + 2) in
  Some (mk_fs (Some d) true bytes_per_sector sectors_per_cluster reserved_sectors fat_count
    root_entry_count sectors_per_fat total_sectors root_dir_sectors first_fat_sector
    root_dir_sector first_data_sector max_cluster).

(** [None] is the divide fault. *)
Definition fat16_mount (disk : option disk_device) : state F (option Z) :=
  _ ← set_fs (empty_fs disk);
  w ← gets ft_w;
  match disk with
  | None => mret (Some (-1))
  | Some d =>
      if negb (disk_present d w) then mret (Some (-1)) else
      r ← disk_read 0;
      match r with
      | None => mret (Some (-1))
      | Some sector =>
          if negb (byte_at sector 510 =? 0x55) || negb (byte_at sector 511 =? 0xAA) then mret (Some (-1)) else
          if negb (get_le 2 sector 11 =? 512) || (get_le 2 sector 22 =? 0) then mret (Some (-1)) else
          match bpb_geometry d sector with
          | None => mret None
          | Some fs => _ ← set_fs fs; mret (Some 0)
          end
      end
  end.

Definition fat16_is_mounted : state F bool := gets (fun s => f_mounted (ft_fs s)).

(** ** Operations *)

Definition fat16_stat (path : list Z) : state F (option vfs_stat) :=
  r ← path_lookup path;
  fs ← gets ft_fs;
  mret ((fun found =>
    let e := fd_entry found in
    let is_dir := has_attr e FAT_ATTR_DIRECTORY in
    mk_stat (if is_dir then VFS_DIR else VFS_FILE) (fe_size e) (fe_attr e)
      (if is_dir then 0x41ED else 0x81A4) 0 0 1
      (Z.lor (u32 (Z.shiftl (fd_dir_cluster found) 16)) (Z.land (fd_index found) 0xFFFF))
      (fat_datetime_to_unix (fe_last_access_date e) 0)
      (fat_datetime_to_unix (fe_write_date e) (fe_write_time e))
      (fat_datetime_to_unix (fe_create_date e) (fe_create_time e))
      (u32 (fe_size e + 511) / 512) (cluster_size_of fs)) <$> r).

(** A fresh buffer of [n] bytes at [p]. *)
Definition fresh (p n : Z) : list Z := take (Z.to_nat n) (junk p n ++ zeros n).

(** The buffer's address, the contents and the size. *)
Definition fat16_read_file (path : list Z) : state F (option (Z * list Z * Z)) :=
  r ← path_lookup path;
  match r with
  | None => mret None
  | Some found =>
      if has_attr (fd_entry found) FAT_ATTR_DIRECTORY then mret None else
      let size := fe_size (fd_entry found) in
      p ← on_w (kmalloc (u32 (size + 1)));
      match p with
      | None => mret None
      | Some p =>
          r ← read_clusters (Z.to_nat size) (entry_first_cluster (fd_entry found)) size 0 (fresh p size);
          match r with
          | None => _ ← on_w (kfree (Some p)); mret None
          | Some data => mret (Some (p, data, size))
          end
      end
  end.

Definition fat16_create (path : list Z) (directory : bool) : state F Z :=
  r ← path_parent path;
  match r with
  | None => mret (-1)
  | Some (parent, leaf) =>
      match name_to_83 leaf with
      | None => mret (-1)
      | Some fat_name =>
          if negb (has_attr (fd_entry parent) FAT_ATTR_DIRECTORY) then mret (-1) else
          let parent_cluster := entry_first_cluster (fd_entry parent) in
          there ← find_in_dir parent_cluster fat_name;
          if bool_decide (is_Some there) then mret (-1) else
          slot ← find_free_slot parent_cluster;
          match slot with
          | None => mret (-1)
          | Some index =>
              let entry := set_attr (if directory then FAT_ATTR_DIRECTORY else FAT_ATTR_ARCHIVE)
                             (set_name fat_name zero_entry) in
              if directory then
                c ← alloc_cluster;
                if c =? 0 then mret (-1) else
                let entry := entry_set_first_cluster c entry in
                let dot := entry_set_first_cluster c
                  (set_attr FAT_ATTR_DIRECTORY (set_name (pad 11 [DOT]) zero_entry)) in
                _ ← write_dir_entry_at c 0 dot;
                let dotdot := entry_set_first_cluster parent_cluster (set_name (pad 11 [DOT; DOT]) dot) in
                _ ← write_dir_entry_at c 1 dotdot;
                write_dir_entry_at parent_cluster index entry
              else write_dir_entry_at parent_cluster index entry
          end
      end
  end.

(** The bytes [fat16_write_file] stores and the buffer to free ([combined]);
    [None] when the buffer of an append cannot be allocated. *)
Definition fat_append_data (path data : list Z) (flags : Z) : state F (option (list Z * option Z)) :=
  if Z.land flags VFS_O_APPEND =? 0 then mret (Some (data, None)) else
  r ← fat16_read_file path;
  match r with
  | None => mret (Some (data, None))
  | Some (old, old_data, old_size) =>
      let combined_size := u32 (old_size + Z.of_nat (length data)) in
      p ← on_w (kmalloc combined_size);
      match p with
      | None => _ ← on_w (kfree (Some old)); mret None
      | Some p => _ ← on_w (kfree (Some old)); mret (Some (old_data ++ data, Some p))
      end
  end.

(** Looking the file up, creating it first when it is not there. *)
Definition lookup_or_create (path : list Z) : state F (option found_entry) :=
  r ← path_lookup path;
  match r with
  | Some found => mret (Some found)
  | None =>
      rc ← fat16_create path false;
      if negb (rc =? 0) then mret None else path_lookup path
  end.

Definition fat16_write_file (path data : list Z) (flags : Z) : state F Z :=
  r ← lookup_or_create path;
  match r with
  | None => mret (-1)
  | Some found =>
      if has_attr (fd_entry found) FAT_ATTR_DIRECTORY then mret (-1) else
      d ← fat_append_data path data flags;
      match d with
      | None => mret (-1)
      | Some (data, combined) =>
          r ← write_new_chain data;
          match r with
          | None => _ ← on_w (kfree combined); mret (-1)
          | Some new_first =>
              let old_first := entry_first_cluster (fd_entry found) in
              _ ← (if old_first =? 0 then mret tt else free_chain old_first);
              let entry := set_attr FAT_ATTR_ARCHIVE (set_size (u32 (Z.of_nat (length data)))
                             (entry_set_first_cluster new_first (fd_entry found))) in
              rc ← write_dir_entry_at (fd_dir_cluster found) (fd_index found) entry;
              _ ← on_w (kfree combined);
              mret rc
          end
      end
  end.

Definition deleted (e : fat_dir_entry) : fat_dir_entry := set_name (put (fe_name e) 0 [0xE5]) e.

Definition fat16_unlink (path : list Z) (directory : bool) : state F Z :=
  r ← path_lookup path;
  match r with
  | None => mret (-1)
  | Some found =>
      if bool_decide (path = [SLASH]) then mret (-1) else
      let is_dir := has_attr (fd_entry found) FAT_ATTR_DIRECTORY in
      if negb (eqb directory is_dir) then mret (-1) else
      let first := entry_first_cluster (fd_entry found) in
      empty ← (if is_dir then dir_is_empty first else mret true);
      if negb empty then mret (-1) else
      _ ← (if first =? 0 then mret tt else free_chain first);
      write_dir_entry_at (fd_dir_cluster found) (fd_index found) (deleted (fd_entry found))
  end.

Definition fat16_rename (old_path new_path : list Z) : state F Z :=
  r ← path_lookup old_path;
  match r with
  | None => mret (-1)
  | Some old_entry =>
      r ← path_parent new_path;
      match r with
      | None => mret (-1)
      | Some (parent, leaf) =>
          match name_to_83 leaf with
          | None => mret (-1)
          | Some fat_name =>
              let parent_cluster := entry_first_cluster (fd_entry parent) in
              there ← find_in_dir parent_cluster fat_name;
              if bool_decide (is_Some there) then mret (-1) else
              slot ← find_free_slot parent_cluster;
              match slot with
              | None => mret (-1)
              | Some new_index =>
                  rc ← write_dir_entry_at parent_cluster new_index (set_name fat_name (fd_entry old_entry));
                  if negb (rc =? 0) then mret (-1) else
                  write_dir_entry_at (fd_dir_cluster old_entry) (fd_index old_entry)
                    (deleted (fd_entry old_entry))
              end
          end
      end
  end.

Fixpoint readdir_loop {U} (n : nat) (dir_cluster i : Z) (cb : vfs_dirent -> U -> state F (Z * U)) (u : U)
    : state F U :=
  match n with
  | O => mret u
  | S n =>
      r ← read_dir_entry_at dir_cluster i;
      match r with
      | None => mret u
      | Some entry =>
          if byte_at (fe_name entry) 0 =? 0 then mret u
          else if negb (entry_is_visible entry) then readdir_loop n dir_cluster (i + 1) cb u
          else
          let dirent := mk_dirent (cstr (name_from_83 entry))
            (if has_attr entry FAT_ATTR_DIRECTORY then VFS_DIR else VFS_FILE) (fe_size entry) in
          '(stop, u) ← cb dirent u;
          if negb (stop =? 0) then mret u else readdir_loop n dir_cluster (i + 1) cb u
      end
  end.
Definition fat16_readdir {U} (path : list Z) (cb : vfs_dirent -> U -> state F (Z * U)) (u : U)
    : state F (Z * U) :=
  r ← path_lookup path;
  match r with
  | None => mret (-1, u)
  | Some found =>
      if negb (has_attr (fd_entry found) FAT_ATTR_DIRECTORY) then mret (-1, u) else
      fs ← gets ft_fs;
      let dir_cluster := entry_first_cluster (fd_entry found) in
      u ← readdir_loop (dir_max fs dir_cluster) dir_cluster 0 cb u;
      mret (0, u)
  end.

Fixpoint count_free (n : nat) (c free_clusters : Z) : state F Z :=
  match n with
  | O => mret free_clusters
  | S n =>
      r ← fat_read c;
      match r with
      | None => mret free_clusters
      | Some value => count_free n (c + 1) (if value =? FAT_FREE then free_clusters + 1 else free_clusters)
      end
  end.
Definition fat16_free_bytes : state F Z :=
  fs ← gets ft_fs;
  if negb (f_mounted fs) then mret 0 else
  n ← count_free (Z.to_nat (f_max_cluster fs - 2)) 2 0;
  mret (u32 (n * cluster_size_of fs)).
Definition fat16_total_bytes : state F Z :=
  fs ← gets ft_fs;
  if negb (f_mounted fs) then mret 0
  else mret (u32 ((f_max_cluster fs - 2) * cluster_size_of fs)).

(** [fat16_vfs_ops_table]. *)
Definition fat16_vfs_ops : vfs_ops F :=
  mk_ops (Some fat16_stat) (Some fat16_read_file) (Some fat16_write_file) (Some fat16_create)
    (Some fat16_unlink) (Some fat16_rename) (Some (fun U => fat16_readdir (U := U)))
    None None None None None.
End Driver.
