(* ===== verification/Fat16Table.v ===== *)
(** * The FAT16 allocation table and cluster chains

    A consistent geometry, the table the driver reads and writes as a function
    from clusters to values (one per copy), and what the table operations of
    Fat16.v do to it: allocation, release of a chain, writing and reading the
    clusters of a file. *)

From S2P Require Import Prelude Machine VfsTypes CLib Vfs Fat16.

(** The geometry of a volume on drive [d] whose table has an entry for every
    cluster and whose sectors can all be addressed. *)
Record geometry (d : disk_device) (fs : fat16_fs) : Prop := {
  g_disk : f_disk fs = Some d;
  g_mounted : f_mounted fs = true;
  g_bps : f_bytes_per_sector fs = 512;
  g_spc : 1 <= f_sectors_per_cluster fs < 256;
  g_copies : 1 <= f_fat_count fs < 256;
  g_first : 0 <= f_first_fat_sector fs;
  g_spf : 1 <= f_sectors_per_fat fs < 2 ^ 16;
  g_rootn : 0 <= f_root_entry_count fs < 2 ^ 16;
  g_rootsec : f_root_entry_count fs * 32 <= f_root_dir_sectors fs * 512;
  g_root : f_root_dir_sector fs = f_first_fat_sector fs + f_fat_count fs * f_sectors_per_fat fs;
  g_data : f_first_data_sector fs = f_root_dir_sector fs + f_root_dir_sectors fs;
  g_max : 2 <= f_max_cluster fs <= FAT_EOC;
  g_table : f_max_cluster fs * 2 <= f_sectors_per_fat fs * 512;
  g_end : f_first_data_sector fs + (f_max_cluster fs - 2) * f_sectors_per_cluster fs <= 2 ^ 28;
}.

(** A cluster number the volume has. *)
Definition in_vol (fs : fat16_fs) (c : Z) : Prop := 2 <= c < f_max_cluster fs.

Section Table.
Context {W : Type} `{MachineOk W}.
Context (d : disk_device) (fs : fat16_fs) (G : geometry d fs).
Abbreviation F := (fat W).
Implicit Types (s : F) (l c k : Z).

Definition sec s l : list Z := sector (ft_w s) d l.

(** [moved s s' f]: the driver is still on the volume, has not hung, and the
    drive now holds [f]. *)
Definition ready s : Prop := ft_fs s = fs /\ healthy (ft_w s) d.
Definition moved s s' (f : Z -> list Z) : Prop :=
  ready s' /\ ft_hung s' = ft_hung s /\ (forall l, lba_ok l -> sec s' l = f l).

Lemma moved_ready s s' f : moved s s' f -> ready s'.
Proof. by intros [? _]. Qed.
Lemma moved_refl s : ready s -> moved s s (sec s).
Proof. done. Qed.
Lemma moved_trans s s1 s2 f g :
  moved s s1 f -> moved s1 s2 g -> moved s s2 g.
Proof. intros (_ & E1 & _) (R & E2 & Hg). split_and!; [done|congruence|done]. Qed.
Lemma moved_ext s s' f g : moved s s' f -> (forall l, lba_ok l -> f l = g l) -> moved s s' g.
Proof. intros (R & E & Hf) Hg. split_and!; [done|done|]. intros l Hl. by rewrite Hf, Hg. Qed.

Lemma lba_u32 l : lba_ok l -> u32 l = l.
Proof. intros Hl. apply u32_small. unfold lba_ok, is_u32 in *. lia. Qed.

Lemma disk_read_run s l : ready s -> lba_ok l ->
  run (disk_read l) s (fun r s' => r = Some (sec s l) /\ moved s s' (sec s)).
Proof.
  intros [E Hh] Hl. unfold run, disk_read, mbind, state_bind, gets. rewrite E, (g_disk _ _ G), lba_u32 by done.
  unfold on_w. pose proof (disk_read_healthy d l (ft_w s) Hl Hh) as Hr.
  pose proof (disk_read_quiet d l (ft_w s)) as Q.
  destruct (Machine.disk_read d l (ft_w s)) as [r w'] eqn:Er. cbn in *. split; [done|].
  split_and!; [split; [done|by eapply quiet_healthy]|done|]. intros l' _. by apply quiet_sector.
Qed.

Lemma disk_write_run s l b : ready s -> lba_ok l -> length b = 512%nat -> bytes_ok b ->
  run (disk_write l b) s (fun r s' => r = true /\
    moved s s' (fun l' => if decide (l' = l) then b else sec s l')).
Proof.
  intros [E Hh] Hl Hb1 Hb2. unfold run, disk_write, mbind, state_bind, gets.
  rewrite E, (g_disk _ _ G), lba_u32 by done. unfold on_w.
  pose proof (disk_write_healthy d l b (ft_w s) Hl Hh) as Hr.
  pose proof (disk_write_true d l b (ft_w s) Hl Hb1 Hb2 Hr) as Hs.
  pose proof (disk_write_keeps d l b (ft_w s) d Hh) as Hk.
  pose proof (fun l' Hl' => disk_write_other d l b (ft_w s) d l' Hl Hl') as Ho.
  destruct (Machine.disk_write d l b (ft_w s)) as [r w'] eqn:Er. cbn in *. split; [done|].
  split_and!; [done|done|]. intros l' Hl'. unfold sec. cbn. case_decide as El; [by subst|].
  apply Ho; [done|]. congruence.
Qed.

Lemma sec_length s l : length (sec s l) = 512%nat.
Proof. apply sector_length. Qed.
Lemma sec_bytes s l : bytes_ok (sec s l).
Proof. apply sector_bytes. Qed.

(** ** The table *)

(** Entry [c] of copy [k]. *)
Definition entry_lba k c : Z := f_first_fat_sector fs + k * f_sectors_per_fat fs + c * 2 / 512.
Definition entry_off c : Z := c * 2 mod 512.
Definition fent s k c : Z := get_le 2 (sec s (entry_lba k c)) (entry_off c).

Definition copy_ok k : Prop := 0 <= k < f_fat_count fs.
Definition slot_ok c : Prop := 0 <= c < f_max_cluster fs.
(** Sectors that hold no copy of the table. *)
Definition past_table l : Prop := f_root_dir_sector fs <= l.

Lemma entry_bounds k c : copy_ok k -> slot_ok c ->
  0 <= entry_off c <= 510 /\ lba_ok (entry_lba k c) /\ entry_lba k c < f_root_dir_sector fs /\
  0 <= c * 2 / 512 < f_sectors_per_fat fs.
Proof.
  intros Hk Hc. unfold copy_ok, slot_ok, entry_off, entry_lba, lba_ok in *.
  destruct G. pose proof (Z.div_mod (c * 2) 512 ltac:(lia)). pose proof (Z.mod_pos_bound (c * 2) 512 ltac:(lia)).
  unfold FAT_EOC in *. assert (0 <= c * 2 / 512 < f_sectors_per_fat fs) by (split; [apply Z.div_pos; lia|apply Z.div_lt_upper_bound; lia]).
  assert (0 <= (f_max_cluster fs - 2) * f_sectors_per_cluster fs) by (apply Z.mul_nonneg_nonneg; lia).
  assert (k * f_sectors_per_fat fs + f_sectors_per_fat fs <= f_fat_count fs * f_sectors_per_fat fs) by nia.
  assert (0 <= k * f_sectors_per_fat fs) by nia.
  assert ((c * 2) mod 512 mod 2 = 0) as Hev.
  { rewrite Z.mod_mod_divide by (by exists 256). apply Z.mod_mul. lia. }
  pose proof (Z.div_mod ((c * 2) mod 512) 2 ltac:(lia)).
  split_and!; lia.
Qed.

(** Entries of different copies or clusters do not share bytes. *)
Lemma entry_apart k c k' c' : copy_ok k -> slot_ok c -> copy_ok k' -> slot_ok c' ->
  entry_lba k c = entry_lba k' c' ->
  k = k' /\ (c = c' \/ entry_off c + 2 <= entry_off c' \/ entry_off c' + 2 <= entry_off c).
Proof.
  intros Hk Hc Hk' Hc' E. destruct (entry_bounds k c Hk Hc) as (_ & _ & _ & B1).
  destruct (entry_bounds k' c' Hk' Hc') as (_ & _ & _ & B2).
  unfold entry_lba in E. assert (k = k') as <- by nia. split; [done|].
  assert (c * 2 / 512 = c' * 2 / 512) as Ed by lia. unfold entry_off.
  pose proof (Z.div_mod (c * 2) 512 ltac:(lia)). pose proof (Z.div_mod (c' * 2) 512 ltac:(lia)). lia.
Qed.

(** The sector a copy's update leaves. *)
Definition with_entry (b : list Z) c v : list Z := put_le 2 b (entry_off c) v.

Lemma two_bytes (b : list Z) o v : 0 <= o -> o + 2 <= Z.of_nat (length b) -> is_u16 v ->
  put (put b o [Z.land v 0xFF]) (o + 1) [Z.shiftr v 8] = put_le 2 b o v.
Proof.
  intros Ho Hl Hv. unfold put_le, is_u16 in *. cbn [le_bytes].
  assert (Z.land v 255 = v mod 256) as -> by (change 255 with (Z.ones 8); rewrite Z.land_ones by lia; done).
  rewrite Z.shiftr_div_pow2 by lia. change (2 ^ 8) with 256.
  rewrite (Z.mod_small (v / 256)) by (split; [apply Z.div_pos; lia|apply Z.div_lt_upper_bound; lia]).
  apply CStrOk.bytes_ext; [by rewrite !length_put|]. intros i Hi. rewrite !length_put in Hi.
  rewrite !byte_at_put by lia. rewrite ?length_put. simpl length.
  repeat case_decide; try lia; try done.
  - by replace (i - (o + 1)) with 0 by lia; replace (i - o) with 1 by lia.
  - by replace (i - o) with 0 by lia.
Qed.

Lemma two_bytes_get (b : list Z) o : bytes_ok b -> 0 <= o -> o + 2 <= Z.of_nat (length b) ->
  Z.lor (byte_at b o) (Z.shiftl (byte_at b (o + 1)) 8) = get_le 2 b o.
Proof.
  intros Hb Ho Hl. unfold get_le.
  assert (sub b o 2 = [byte_at b o; byte_at b (o + 1)]) as E.
  { apply CStrOk.bytes_ext; [rewrite length_sub by lia; done|]. rewrite length_sub by lia. intros i Hi.
    rewrite byte_at_sub by lia. assert (i = 0 \/ i = 1) as [-> | ->] by lia; [by rewrite Z.add_0_r|done]. }
  change (Z.of_nat 2) with 2. rewrite E. cbn [le_val].
  pose proof (byte_at_ok b o Hb) as H1'. unfold is_u8 in H1'.
  rewrite Z.shiftl_mul_pow2 by lia.
  pose proof (Z.add_lor_land (byte_at b o) (byte_at b (o + 1) * 2 ^ 8)) as Ea.
  assert (Z.land (byte_at b o) (byte_at b (o + 1) * 2 ^ 8) = 0) as E0; [|lia].
  apply Z.bits_inj'. intros j Hj. rewrite Z.land_spec, Z.bits_0.
  destruct (Z.lt_ge_cases j 8).
  - rewrite Z.mul_pow2_bits_low by lia. apply andb_false_r.
  - rewrite (testbit_u8_high _ j) by done. done.
Qed.

Lemma fat_read_run s c : ready s -> slot_ok c ->
  run (fat_read c) s (fun r s' => r = Some (fent s 0 c) /\ moved s s' (sec s)).
Proof.
  intros R Hc. assert (copy_ok 0) as Hk by (unfold copy_ok; destruct G; lia).
  destruct (entry_bounds 0 c Hk Hc) as (B1 & B2 & _). unfold fat_read.
  eapply run_bind, run_gets. destruct R as [E Hh]. rewrite E, (g_bps _ _ G).
  rewrite u32_small by (unfold slot_ok, is_u32 in *; destruct G; unfold FAT_EOC in *; lia).
  replace (f_first_fat_sector fs + c * 2 / 512) with (entry_lba 0 c) by (unfold entry_lba; lia).
  run_step disk_read_run as (-> & M); [by split|done|]. apply run_ret. split; [|done]. cbn [fmap option_fmap option_map]. f_equal.
  unfold entry_off in B1. apply two_bytes_get; [apply sec_bytes|lia|]. rewrite sec_length. lia.
Qed.

(** One copy of the entry is rewritten. *)
Lemma fent_put s s' k c v : copy_ok k -> slot_ok c -> is_u16 v ->
  moved s s' (fun l => if decide (l = entry_lba k c) then with_entry (sec s (entry_lba k c)) c v else sec s l) ->
  forall k' c', copy_ok k' -> slot_ok c' ->
    fent s' k' c' = if decide (k' = k /\ c' = c) then v else fent s k' c'.
Proof.
  intros Hk Hc Hv (_ & _ & Hs) k' c' Hk' Hc'. unfold fent.
  destruct (entry_bounds k c Hk Hc) as (B1 & _). destruct (entry_bounds k' c' Hk' Hc') as (B2 & L2 & _).
  rewrite Hs by done. case_decide as El; case_decide as Ee; try done.
  - destruct Ee as [-> ->]. apply get_put_le; [by unfold is_u16 in Hv; simpl|lia|]. rewrite sec_length. lia.
  - rewrite El. destruct (entry_apart _ _ _ _ Hk' Hc' Hk Hc El) as [-> [-> |Ho]]; [tauto|].
    apply get_put_le_ne; lia.
  - destruct Ee as [-> ->]. done.
Qed.

Lemma fat_write_copies_run n : forall s k c v, ready s -> 0 <= k -> k + Z.of_nat n <= f_fat_count fs ->
  slot_ok c -> is_u16 v ->
  run (fat_write_copies n k (c * 2) v) s (fun ok s' => ok = true /\
    (exists f, moved s s' f) /\ (forall l, lba_ok l -> past_table l -> sec s' l = sec s l) /\
    (forall k' c', copy_ok k' -> slot_ok c' ->
       fent s' k' c' = if decide (k <= k' < k + Z.of_nat n /\ c' = c) then v else fent s k' c')).
Proof.
  induction n as [|n IH]; intros s k c v R Hk Hn Hc Hv; cbn [fat_write_copies].
  - apply run_ret. split_and!; [done|by exists (sec s)|done|]. intros. case_decide; [lia|done].
  - assert (copy_ok k) as Hk' by (unfold copy_ok; lia).
    destruct (entry_bounds k c Hk' Hc) as (B1 & B2 & B3 & _).
    eapply run_bind, run_gets. pose proof R as [E _]. rewrite E, (g_bps _ _ G).
    change (f_first_fat_sector fs + k * f_sectors_per_fat fs + c * 2 / 512) with (entry_lba k c).
    change (c * 2 mod 512) with (entry_off c).
    run_step disk_read_run as (-> & M1); [done|done|].
    rewrite two_bytes by (rewrite ?sec_length; done || lia).
    run_step disk_write_run as (-> & M2); [by eapply moved_ready|done| | |].
    1: by rewrite length_put_le, sec_length. 1: by apply put_le_ok, sec_bytes.
    assert (moved s s'0 (fun l => if decide (l = entry_lba k c) then with_entry (sec s (entry_lba k c)) c v else sec s l)) as M.
    { eapply moved_ext; [by eapply moved_trans|]. intros l Hl. cbn. case_decide; [done|]. by apply M1. }
    pose proof (fent_put _ _ _ _ _ Hk' Hc Hv M) as Hf.
    run_last IH as (-> & [f M3] & Hp & Hr); [by eapply moved_ready|lia|lia|done|done|].
    split_and!; [done|exists f; by eapply moved_trans| |].
    + intros l Hl Hpl. rewrite Hp by done. destruct M as (_ & _ & Hs). rewrite Hs by done.
      case_decide; [|done]. subst. unfold past_table in Hpl. lia.
    + intros k' c' Hk2 Hc2. rewrite Hr, Hf by done. repeat case_decide; try done; lia.
Qed.

(** [effect s s' t D]: the driver went from [s] to a state whose table is [t],
    with no sector behind the table changed outside [D]. *)
Definition tab s c : Z := fent s 0 c.
Definition mirrored s : Prop := forall k c, copy_ok k -> slot_ok c -> fent s k c = tab s c.
Record effect s s' (t : Z -> Z) (D : Z -> Prop) : Prop := {
  e_ready : ready s';
  e_hung : ft_hung s' = ft_hung s;
  e_mirror : mirrored s -> mirrored s';
  e_tab : forall c, slot_ok c -> tab s' c = t c;
  e_data : forall l, lba_ok l -> past_table l -> ~ D l -> sec s' l = sec s l;
}.
Definition nowhere : Z -> Prop := fun _ => False.

Lemma effect_trans s s1 s2 t1 t2 D1 D2 (D : Z -> Prop) :
  effect s s1 t1 D1 -> effect s1 s2 t2 D2 -> (forall l, D1 l \/ D2 l -> D l) -> effect s s2 t2 D.
Proof.
  intros [R1 U1 M1 T1 K1] [R2 U2 M2 T2 K2] HD. split; [done|congruence|auto|done|].
  intros l Hl Hp Hn. rewrite K2, K1; [done|done|done|..]; auto.
Qed.
Lemma effect_tab s s' t t' D : effect s s' t D -> (forall c, slot_ok c -> t c = t' c) -> effect s s' t' D.
Proof. intros [R U M T K] Ht. split; [done..| |done]. intros c Hc. by rewrite T, Ht. Qed.

Definition upd_tab (t : Z -> Z) (c v : Z) : Z -> Z := fun c' => if decide (c' = c) then v else t c'.

Lemma fat_write_run s c v : ready s -> slot_ok c -> is_u16 v ->
  run (fat_write c v) s (fun ok s' => ok = true /\ effect s s' (upd_tab (tab s) c v) nowhere).
Proof.
  intros R Hc Hv. unfold fat_write. eapply run_bind, run_gets. pose proof R as [E _]. rewrite E.
  rewrite u32_small by (unfold slot_ok, is_u32 in *; destruct G; unfold FAT_EOC in *; lia).
  assert (0 <= f_fat_count fs) as Hcnt by (destruct G; lia).
  run_last fat_write_copies_run as (-> & [f M] & Hp & Hf); [done|lia|lia|done|done|].
  split; [done|]. rewrite Z2Nat.id in Hf by done.
  assert (copy_ok 0) as H0' by (unfold copy_ok; destruct G; lia).
  split; [by eapply moved_ready|by destruct M as (_ & ? & _)| | |auto].
  - intros Hm k c' Hk Hc'. unfold tab. rewrite !Hf by done. unfold copy_ok in *.
    repeat case_decide; try lia; try done. by apply Hm.
  - intros c' Hc'. unfold tab, upd_tab. rewrite Hf by done. unfold copy_ok in *.
    repeat case_decide; try lia; done.
Qed.

(** ** Clusters *)

Definition clus_lba c : Z := f_first_data_sector fs + (c - 2) * f_sectors_per_cluster fs.
Definition clus c l : Prop := clus_lba c <= l < clus_lba c + f_sectors_per_cluster fs.
Abbreviation spc := (Z.to_nat (f_sectors_per_cluster fs)).

Lemma in_vol_slot c : in_vol fs c -> slot_ok c.
Proof. unfold in_vol, slot_ok. lia. Qed.

Lemma clus_bounds c l : in_vol fs c -> clus c l -> lba_ok l /\ past_table l /\ f_first_data_sector fs <= l.
Proof.
  intros Hc Hl. unfold in_vol, clus, clus_lba, lba_ok, past_table in *. destruct G.
  assert (0 <= (c - 2) * f_sectors_per_cluster fs) by nia.
  assert ((c - 2) * f_sectors_per_cluster fs + f_sectors_per_cluster fs <= (f_max_cluster fs - 2) * f_sectors_per_cluster fs) by nia.
  nia.
Qed.

Lemma clus_apart c c' l : clus c l -> clus c' l -> c = c'.
Proof. unfold clus, clus_lba. destruct G. intros. nia. Qed.

Lemma clus_lba_of c : in_vol fs c -> cluster_to_lba_of fs c = clus_lba c.
Proof.
  intros Hc. unfold cluster_to_lba_of. apply u32_small. destruct G.
  destruct (clus_bounds c (clus_lba c) Hc) as [[H1' H2'] _]; [unfold clus; lia|]. unfold is_u32. fold (clus_lba c). lia.
Qed.

Lemma zero_sectors_run n : forall s l, ready s -> 0 <= l -> l + Z.of_nat n <= 2 ^ 28 ->
  run (zero_sectors n l) s (fun ok s' => ok = true /\
    moved s s' (fun l' => if decide (l <= l' < l + Z.of_nat n) then zeros 512 else sec s l')).
Proof.
  induction n as [|n IH]; intros s l R Hl Hn; cbn [zero_sectors].
  - apply run_ret. split; [done|]. eapply moved_ext; [by apply moved_refl|]. intros. cbn. case_decide; [lia|done].
  - run_step disk_write_run as (-> & M); [done|unfold lba_ok; lia|by rewrite length_zeros|apply zeros_ok|].
    run_last IH as (-> & M2); [by eapply moved_ready|lia|lia|]. split; [done|].
    eapply moved_ext; [by eapply moved_trans|]. intros l' Hl'. cbn. destruct M as (_ & _ & Hs).
    repeat case_decide; try lia; try done; rewrite Hs by done; case_decide; done || lia.
Qed.

Lemma zero_cluster_run s c : ready s -> in_vol fs c ->
  run (zero_cluster c) s (fun _ s' => effect s s' (tab s) (clus c) /\ forall l, clus c l -> sec s' l = zeros 512).
Proof.
  intros R Hc. unfold zero_cluster. eapply run_bind, run_gets. pose proof R as [E _]. rewrite E.
  eapply run_bind, run_gets. rewrite E, clus_lba_of by done.
  pose proof (clus_bounds c (clus_lba c) Hc ltac:(unfold clus; destruct G; lia)) as ([B1 B2] & _ & Bd).
  pose proof (clus_bounds c (clus_lba c + f_sectors_per_cluster fs - 1) Hc ltac:(unfold clus; destruct G; lia)) as ([B3 B4] & _).
  destruct G as []. assert (0 <= f_root_dir_sectors fs) by lia.
  run_last zero_sectors_run as (-> & M); [done|lia|lia|]. pose proof M as (R' & U & Hs).
  rewrite Z2Nat.id in Hs by lia.
  assert (forall l, lba_ok l -> ~ clus c l -> sec s' l = sec s l) as Hk.
  { intros l Hl Hn. rewrite Hs by done. unfold clus in Hn. case_decide; [lia|done]. }
  assert (forall k c', copy_ok k -> slot_ok c' -> fent s' k c' = fent s k c') as Hf.
  { intros k c' Hk' Hc'. unfold fent. destruct (entry_bounds k c' Hk' Hc') as (_ & L & P & _).
    rewrite Hk; [done|done|]. unfold clus. lia. }
  split; [split|]; [done|done| | |auto|].
  - intros Hm k c' Hk' Hc'. unfold tab. rewrite !Hf; [by apply Hm| | |done|]; try done. unfold copy_ok in *; lia.
  - intros c' Hc'. unfold tab. apply Hf; [|done]. unfold copy_ok. lia.
  - intros l Hl. destruct (clus_bounds c l Hc Hl) as [L _]. rewrite Hs by done. unfold clus in Hl. case_decide; [done|lia].
Qed.

(** ** Allocation *)

Lemma tab_u16 s c : slot_ok c -> is_u16 (tab s c).
Proof. intros Hc. unfold tab, fent. apply (get_le_bound 2). apply sec_bytes. Qed.

Lemma moved_effect s s' : ready s -> moved s s' (sec s) -> effect s s' (tab s) nowhere.
Proof.
  intros R (R' & U & Hs).
  assert (forall k c', copy_ok k -> slot_ok c' -> fent s' k c' = fent s k c') as Hf.
  { intros k c' Hk Hc. unfold fent. destruct (entry_bounds k c' Hk Hc) as (_ & L & _). by rewrite Hs. }
  assert (copy_ok 0) as H0' by (unfold copy_ok; destruct G; lia).
  split; [done|done| | |auto].
  - intros Hm k c Hk Hc. unfold tab. rewrite !Hf by done. by apply Hm.
  - intros c Hc. by apply Hf.
Qed.

Definition got_cluster s (c : Z) s' : Prop :=
  in_vol fs c /\ tab s c = 0 /\ effect s s' (upd_tab (tab s) c 0xFFFF) (clus c) /\
  forall l, clus c l -> sec s' l = zeros 512.

Lemma alloc_from_run n : forall s c, ready s -> 2 <= c -> c + Z.of_nat n <= f_max_cluster fs ->
  run (alloc_from n c) s (fun r s' =>
    (r = 0 /\ (forall c', c <= c' < c + Z.of_nat n -> tab s c' <> 0) /\ effect s s' (tab s) nowhere) \/
    (c <= r < c + Z.of_nat n /\ (forall c', c <= c' < r -> tab s c' <> 0) /\ got_cluster s r s')).
Proof.
  induction n as [|n IH]; intros s c R Hc Hn; cbn [alloc_from].
  - apply run_ret. left. split_and!; [done|lia|]. apply moved_effect; [done|by apply moved_refl].
  - assert (in_vol fs c) as Hv by (unfold in_vol; lia). pose proof (in_vol_slot c Hv) as Hs.
    run_step fat_read_run as (-> & M); [done|done|]. pose proof (moved_effect _ _ R M) as E1. fold (tab s c).
    destruct (Z.eqb_spec (tab s c) FAT_FREE) as [Hz|Hz].
    + run_step fat_write_run as (-> & E2); [by eapply moved_ready|done|unfold is_u16; lia|]. cbn [negb].
      run_step zero_cluster_run as (E3 & Hzero); [apply E2|done|]. apply run_ret. right.
      split_and!; [lia|lia|lia|]. split_and!; [done|done| |done].
      eapply effect_tab; [eapply (effect_trans _ _ _ _ _ nowhere (clus c)); [eapply effect_trans; [exact E1|exact E2|]|exact E3|]|].
      * intros l [[]|[]].
      * intros l [[]|?]; done.
      * intros c' Hc'. rewrite (e_tab _ _ _ _ E2) by done. unfold upd_tab.
        case_decide; [done|]. by apply E1.
    + run_last IH as Hr; [by eapply moved_ready|lia|lia|].
      assert (forall c', slot_ok c' -> tab s' c' = tab s c') as Ht by apply E1.
      destruct Hr as [(-> & Hu & E2)|(Hr & Hu & Hg)].
      * left. split_and!; [done| |].
        -- intros c' Hc'. destruct (decide (c' = c)) as [->|]; [done|]. rewrite <- Ht by (unfold slot_ok; lia). apply Hu. lia.
        -- eapply effect_tab; [eapply effect_trans; [exact E1|exact E2|]|done]. intros l [[]|[]].
      * right. split_and!; [lia|lia| |].
        -- intros c' Hc'. destruct (decide (c' = c)) as [->|]; [done|]. rewrite <- Ht by (unfold slot_ok; lia). apply Hu. lia.
        -- destruct Hg as (Hv' & Hz' & E2 & Hzero). pose proof (in_vol_slot _ Hv') as Hs'.
           split_and!; [done|by rewrite <- Ht| |done].
           eapply effect_tab; [eapply effect_trans; [exact E1|exact E2|]|].
           ++ intros l [[]|?]; done.
           ++ intros c' Hc'. unfold upd_tab. case_decide; [done|]. by apply Ht.
Qed.

Lemma alloc_cluster_run s : ready s ->
  run alloc_cluster s (fun r s' =>
    (r = 0 /\ (forall c, in_vol fs c -> tab s c <> 0) /\ effect s s' (tab s) nowhere) \/
    ((forall c, in_vol fs c -> c < r -> tab s c <> 0) /\ got_cluster s r s')).
Proof.
  intros R. unfold alloc_cluster. eapply run_bind, run_gets. pose proof R as [E _]. rewrite E.
  assert (2 <= f_max_cluster fs) by (destruct G; lia).
  run_last alloc_from_run as Hr; [done|lia|lia|]. rewrite Z2Nat.id in Hr by lia.
  destruct Hr as [(-> & Hu & E2)|(Hr & Hu & Hg)]; [left|right].
  - split_and!; [done| |done]. intros c Hc. unfold in_vol in Hc. apply Hu. lia.
  - split; [|done]. intros c Hc Hlt. unfold in_vol in Hc. apply Hu. lia.
Qed.

(** ** Chains *)

(** Membership in lists built by [++] and [::]. *)
Ltac in_lists :=
  repeat match goal with
  | H : context [_ ∈ _ ++ _] |- _ => rewrite elem_of_app in H
  | H : context [_ ∈ _ :: _] |- _ => rewrite elem_of_cons in H
  | |- context [_ ∈ _ ++ _] => rewrite elem_of_app
  | |- context [_ ∈ _ :: _] => rewrite elem_of_cons
  end; rewrite ?elem_of_nil in *; intuition (subst; (done || congruence || auto)).

(** [chain t c cs]: the clusters [cs] from [c] on, linked by [t] to an end mark. *)
Inductive chain (t : Z -> Z) : Z -> list Z -> Prop :=
| chain_end c : in_vol fs c -> FAT_EOC <= t c -> chain t c [c]
| chain_link c cs : in_vol fs c -> chain t (t c) cs -> chain t c (c :: cs).

Lemma chain_head t c cs : chain t c cs -> in_vol fs c /\ exists cs', cs = c :: cs'.
Proof. destruct 1; eauto. Qed.

Lemma chain_inv t c a cs : chain t c (a :: cs) ->
  a = c /\ in_vol fs c /\ ((cs = [] /\ FAT_EOC <= t c) \/ chain t (t c) cs).
Proof. intros Hch. inversion Hch; subst; auto. Qed.

Lemma chain_vol t c cs : chain t c cs -> Forall (in_vol fs) cs.
Proof. induction 1; auto. Qed.

Lemma chain_ext t t' c cs : chain t c cs -> (forall x, x ∈ cs -> t' x = t x) -> chain t' c cs.
Proof.
  induction 1 as [c Hc He|c cs Hc Hcs IH]; intros Ht.
  - apply chain_end; [done|]. rewrite Ht; [done|left].
  - apply chain_link; [done|]. rewrite Ht by left. apply IH. intros x Hx. apply Ht. by right.
Qed.

(** A new cluster behind the last one. *)
Lemma chain_snoc t c cs x y : chain t c (cs ++ [x]) -> NoDup (cs ++ [x]) -> in_vol fs y -> y ∉ cs ++ [x] ->
  forall t', (forall z, z ∈ cs -> t' z = t z) -> t' x = y -> FAT_EOC <= t' y -> chain t' c ((cs ++ [x]) ++ [y]).
Proof.
  revert c. induction cs as [|a cs IH]; intros c Hch Hnd Hy Hny t' Ht Hx He; cbn [app] in *.
  - inversion Hch as [? Hc Hce|? ? Hc Hcs]; subst; [|by inversion Hcs].
    apply chain_link; [done|]. by apply chain_end.
  - inversion Hch as [? ? ? E|? ? Hc Hcs]; subst; [by destruct cs|].
    apply NoDup_cons in Hnd as [Hn Hnd]. apply not_elem_of_cons in Hny as [_ Hny].
    apply chain_link; [done|]. rewrite Ht by left. apply IH; try done. intros z Hz. apply Ht. by right.
Qed.

Lemma chain_fits cs : NoDup cs -> Forall (in_vol fs) cs -> (length cs < chain_turns)%nat.
Proof.
  intros Hnd Hv. assert (cs ⊆ seqZ 2 (f_max_cluster fs - 2)) as Hs.
  { intros c Hc. rewrite Forall_forall in Hv. specialize (Hv c Hc). unfold in_vol in Hv. apply elem_of_seqZ. lia. }
  pose proof (NoDup_submseteq _ _ Hnd Hs) as Hm.
  apply submseteq_length in Hm. rewrite length_seqZ in Hm. unfold chain_turns. destruct G. unfold FAT_EOC in *. lia.
Qed.

Lemma free_chain_loop_run cs : forall n s c, ready s -> chain (tab s) c cs -> NoDup cs -> (length cs <= n)%nat ->
  run (free_chain_loop n c) s (fun _ s' =>
    effect s s' (fun x => if decide (x ∈ cs) then 0 else tab s x) nowhere).
Proof.
  induction cs as [|a cs IH]; intros [|n] s c R Hch Hnd Hn; try by inversion Hch.
  { apply chain_head in Hch as [_ [? ?]]. simplify_eq/=. lia. }
  pose proof (chain_head _ _ _ Hch) as [Hv [cs0 Ecs]]. simplify_eq/=. pose proof (in_vol_slot _ Hv) as Hs.
  apply NoDup_cons in Hnd as [Hna Hnd].
  rewrite (proj2 (Z.leb_le 2 c)) by (unfold in_vol in Hv; lia).
  rewrite (proj2 (Z.ltb_lt c FAT_EOC)) by (unfold in_vol in Hv; destruct G; lia). cbn [andb].
  run_step fat_read_run as (-> & M); [done|done|]. fold (tab s c). pose proof (moved_effect _ _ R M) as E1.
  run_step fat_write_run as (_ & E2); [by eapply moved_ready|done|unfold is_u16, FAT_FREE; lia|].
  assert (effect s s'0 (upd_tab (tab s) c 0) nowhere) as E3.
  { eapply effect_tab; [eapply effect_trans; [exact E1|exact E2|]|]; [intros l [[]|[]]|].
    intros x Hx. unfold upd_tab. case_decide; [done|]. by apply E1. }
  inversion Hch as [? ? He|? ? ? Hcs]; subst.
  - rewrite (proj2 (Z.leb_le FAT_EOC _)) by done. apply run_ret. eapply effect_tab; [exact E3|].
    intros x Hx. unfold upd_tab. repeat case_decide; in_lists.
  - pose proof (chain_head _ _ _ Hcs) as [Hv' _]. unfold in_vol in Hv'.
    rewrite (proj2 (Z.leb_gt FAT_EOC _)) by (destruct G; lia). rewrite (proj2 (Z.eqb_neq _ 0)) by lia. cbn [orb].
    pose proof (chain_vol _ _ _ Hcs) as Hcv. rewrite Forall_forall in Hcv.
    run_last IH as E4; [apply E3| |done|lia|].
    + eapply chain_ext; [exact Hcs|]. intros x Hx. rewrite (e_tab _ _ _ _ E3) by by apply in_vol_slot, Hcv.
      unfold upd_tab. case_decide; [in_lists|done].
    + eapply effect_tab; [eapply effect_trans; [exact E3|exact E4|]|]; [intros l [[]|[]]|].
      intros x Hx. cbn. rewrite (e_tab _ _ _ _ E3) by done. unfold upd_tab. repeat case_decide; in_lists.
Qed.

Lemma free_chain_run s c cs : ready s -> chain (tab s) c cs -> NoDup cs ->
  run (free_chain c) s (fun _ s' => effect s s' (fun x => if decide (x ∈ cs) then 0 else tab s x) nowhere).
Proof.
  intros R Hch Hnd. apply free_chain_loop_run; [done|done|done|].
  pose proof (chain_fits cs Hnd (chain_vol _ _ _ Hch)). lia.
Qed.

(** ** Building a chain *)

(** The clusters [cs] have been taken from the free ones of [s0] and linked. *)
Record grown s0 s (first prev : Z) (cs : list Z) : Prop := {
  gr_shape : (cs = [] /\ first = 0 /\ prev = 0) \/
    (first <> 0 /\ prev <> 0 /\ chain (tab s) first cs /\ last cs = Some prev);
  gr_end : prev <> 0 -> tab s prev = 0xFFFF;
  gr_nodup : NoDup cs;
  gr_free : Forall (fun c => in_vol fs c /\ tab s0 c = 0) cs;
  gr_used : Forall (fun c => tab s c <> 0) cs;
  gr_rest : forall c, slot_ok c -> c ∉ cs -> tab s c = tab s0 c;
  gr_eff : effect s0 s (tab s) (fun l => exists c, c ∈ cs /\ clus c l);
}.

Lemma grown_nil s : ready s -> grown s s 0 0 [].
Proof.
  intros R. split; [by left|done|constructor|constructor|constructor|done|].
  split; [done|done|done|done|done].
Qed.

Lemma grown_snoc s0 s s1 s2 first prev cs c :
  grown s0 s first prev cs -> got_cluster s c s1 ->
  effect s1 s2 (if decide (prev = 0) then tab s1 else upd_tab (tab s1) prev c) nowhere ->
  grown s0 s2 (if first =? 0 then c else first) c (cs ++ [c]).
Proof.
  intros Gr (Hv & Hz & E1 & _) E2. destruct Gr as [Sh _ Nd Fr Us Re Ef].
  pose proof (in_vol_slot _ Hv) as Hs. rewrite Forall_forall in Us, Fr.
  assert (c ∉ cs) as Hn by (intros Hin; by apply (Us c)).
  assert (c <> 0) as Hc0 by (unfold in_vol in Hv; lia).
  assert (forall x, slot_ok x -> tab s2 x = if decide (x = c) then 0xFFFF
            else if decide (prev <> 0 /\ x = prev) then c else tab s x) as Ht.
  { assert (last cs = Some prev -> prev <> c) as Hpc by (intros Hl ->; by apply Hn, last_Some_elem_of).
    intros x Hx. rewrite (e_tab _ _ _ _ E2) by done.
    destruct Sh as [(-> & _ & ->)|(_ & Hp & _ & Hl)].
    - rewrite decide_True by done. rewrite (e_tab _ _ _ _ E1) by done. unfold upd_tab. repeat case_decide; done || tauto.
    - rewrite decide_False by done. unfold upd_tab. specialize (Hpc Hl). rewrite (e_tab _ _ _ _ E1) by done.
      unfold upd_tab. repeat case_decide; try done; subst; tauto. }
  assert (forall x, x ∈ cs -> slot_ok x) as Hcs by (intros x Hx; by apply in_vol_slot, Fr).
  split.
  - right. destruct Sh as [(-> & -> & ->)|(Hf & Hp & Hch & Hl)].
    + split_and!; [done|done| |done]. apply chain_end; [done|]. rewrite Ht, decide_True by done. done.
    + rewrite (proj2 (Z.eqb_neq first 0)) by done. split_and!; [done|done| |by rewrite last_snoc].
      apply last_Some in Hl as [cs' ->].
      assert (prev ∈ cs' ++ [prev]) as Hpin by in_lists.
      apply NoDup_app in Nd as Hnd. destruct Hnd as (_ & Hdis & _).
      eapply chain_snoc; try done.
      * intros z Hz'. assert (z ∈ cs' ++ [prev]) as Hzin by (apply elem_of_app; by left).
        rewrite Ht by by apply Hcs. rewrite !decide_False; [done| |by intros ->].
        intros [_ ->]. apply (Hdis prev Hz'). left.
      * rewrite Ht by by apply Hcs. rewrite decide_False by (by intros ->). by rewrite decide_True.
      * rewrite Ht, decide_True by done. done.
  - intros _. by rewrite Ht, decide_True.
  - apply NoDup_app. split_and!; [done|by intros x Hx ->%list_elem_of_singleton|apply NoDup_singleton].
  - apply Forall_app_2; [by apply Forall_forall|]. constructor; [|constructor]. by rewrite <- Re.
  - apply Forall_app_2; [|constructor; [by rewrite Ht, decide_True by done|constructor]].
    apply Forall_forall. intros x Hx. rewrite Ht by by apply Hcs.
    destruct (decide (x = c)); [lia|]. destruct (decide (prev <> 0 /\ x = prev)); [done|]. by apply Us.
  - intros x Hx [Hnx Hxc]%not_elem_of_app. rewrite Ht, decide_False; [|by intros ->; apply Hxc; left|done].
    rewrite decide_False; [by apply Re|]. intros [Hp ->].
    destruct Sh as [(-> & _ & ->)|(_ & _ & _ & Hl)]; [done|]. by apply last_Some_elem_of in Hl.
  - eapply (effect_tab _ _ (tab s2)); [|done].
    eapply effect_trans; [exact Ef|eapply effect_trans; [exact E1| |]|].
    + eapply effect_tab; [exact E2|]. intros x Hx. symmetry. by apply E2.
    + intros l [Hl|[]]. exact Hl.
    + intros l [(x & Hx & Hl)|Hl]; [exists x|exists c]; (split; [in_lists|done]).
Qed.

(** The volume has no free cluster outside [cs]. *)
Definition only_free s (cs : list Z) : Prop :=
  NoDup cs /\ Forall (fun c => in_vol fs c /\ tab s c = 0) cs /\
  forall c, in_vol fs c -> tab s c = 0 -> c ∈ cs.
Definition clusters (cs : list Z) l : Prop := exists c, c ∈ cs /\ clus c l.

Lemma alloc_chain_run s0 n : forall s first prev cs, grown s0 s first prev cs ->
  run (alloc_chain n first prev) s (fun r s' =>
    match r with
    | Some (first', prev') => exists cs', length cs' = n /\ grown s0 s' first' prev' (cs ++ cs')
    | None => exists cs', only_free s0 cs' /\ (length cs' < length cs + n)%nat /\
        effect s0 s' (tab s0) (clusters cs')
    end).
Proof.
  induction n as [|n IH]; intros s first prev cs Gr; cbn [alloc_chain].
  - apply run_ret. exists []. by rewrite app_nil_r.
  - pose proof (gr_eff _ _ _ _ _ Gr) as Ef.
    run_step alloc_cluster_run as [(-> & Hfull & E1)|(_ & Hg)]; [apply Ef| |].
    + cbn [Z.eqb]. assert (only_free s0 cs) as Ho.
      { split_and!; [apply Gr|apply Gr|]. intros c Hv Hz. destruct (decide (c ∈ cs)) as [|Hn]; [done|].
        destruct (Hfull c Hv). rewrite (gr_rest _ _ _ _ _ Gr) by (done || by apply in_vol_slot). done. }
      assert (effect s0 s' (tab s) (clusters cs)) as E2.
      { eapply effect_trans; [exact Ef|exact E1|]. intros l [Hl|[]]. exact Hl. }
      destruct (gr_shape _ _ _ _ _ Gr) as [(-> & -> & ->)|(Hf & Hp & Hch & Hl)].
      * cbn. apply run_ret. exists []. split_and!; [done|simpl; lia|]. eapply effect_tab; [exact E2|].
        intros c Hc. apply (gr_rest _ _ _ _ _ Gr); [done|apply not_elem_of_nil].
      * rewrite (proj2 (Z.eqb_neq first 0)) by done.
        run_step free_chain_run as E3; [apply E1| |apply Gr|].
        { eapply chain_ext; [exact Hch|]. intros x Hx. apply (e_tab _ _ _ _ E1).
          apply in_vol_slot. by apply (proj1 (Forall_forall _ _) (chain_vol _ _ _ Hch)). }
        apply run_ret. exists cs. split_and!; [done|lia|].
        eapply effect_tab; [eapply effect_trans; [exact E2|exact E3|]|]; [intros l [?|[]]; done|].
        intros c Hc. cbn. destruct Ho as (_ & Hfr & _). rewrite Forall_forall in Hfr.
        destruct (decide (c ∈ cs)) as [Hin|Hn]; [symmetry; by apply Hfr|].
        rewrite (e_tab _ _ _ _ E1) by done. by apply (gr_rest _ _ _ _ _ Gr).
    + pose proof Hg as (Hv & _ & Eg & _). unfold in_vol in Hv.
      rewrite (proj2 (Z.eqb_neq a 0)) by lia.
      destruct (Z.eqb_spec prev 0) as [Hp|Hp].
      * eapply run_bind, run_ret. run_last (IH s' _ a (cs ++ [a])) as Hr.
        { eapply grown_snoc; [exact Gr|exact Hg|]. rewrite decide_True by done.
          split; [apply Eg|done|done|done|done]. }
        destruct a0 as [[f p]|].
        -- destruct Hr as (cs' & <- & Hr). exists (a :: cs'). split; [done|]. by rewrite <- (assoc_L (++)) in Hr.
        -- destruct Hr as (cs' & Ho & Hl & Er). exists cs'. split_and!; [done..| |done]. rewrite length_app in Hl. simpl in Hl. lia.
      * assert (u16 a = a) as -> by (apply u16_small; unfold is_u16; destruct G; unfold FAT_EOC in *; lia).
        assert (slot_ok prev) as Hsp.
        { destruct (gr_shape _ _ _ _ _ Gr) as [(_ & _ & ?)|(_ & _ & Hch & Hl)]; [done|]. apply in_vol_slot.
          apply (proj1 (Forall_forall _ _) (chain_vol _ _ _ Hch)). by apply last_Some_elem_of. }
        run_step fat_write_run as (_ & Ew); [apply Eg|done|unfold is_u16; destruct G; unfold FAT_EOC in *; lia|].
        run_last (IH s'0 _ a (cs ++ [a])) as Hr.
        { eapply grown_snoc; [exact Gr|exact Hg|]. by rewrite decide_False. }
        destruct a1 as [[f p]|].
        -- destruct Hr as (cs' & <- & Hr). exists (a :: cs'). split; [done|]. by rewrite <- (assoc_L (++)) in Hr.
        -- destruct Hr as (cs' & Ho & Hl & Er). exists cs'. split_and!; [done..| |done]. rewrite length_app in Hl. simpl in Hl. lia.
Qed.

(** ** The contents of a chain *)

#[local] Arguments Nat.mul : simpl never.

Definition run_of s l (n : nat) : list Z := concat (map (sec s) (seqZ l (Z.of_nat n))).
Definition contents s (cs : list Z) : list Z := concat (map (fun c => run_of s (clus_lba c) spc) cs).

(** [data] cut or filled up with zeros to [n] bytes. *)
Definition padto (n : nat) (data : list Z) : list Z := take n data ++ replicate (n - length data) 0.

Lemma padto_split n m data : padto (n + m) data = padto n data ++ padto m (drop n data).
Proof.
  unfold padto. rewrite length_drop. destruct (decide (length data <= n)%nat) as [Hl|Hl].
  - rewrite (drop_ge data n), take_nil, !take_ge by lia. cbn [app]. rewrite <- (assoc_L (++)). f_equal.
    rewrite <- replicate_add. f_equal. lia.
  - replace (n - length data)%nat with 0%nat by lia. cbn [replicate]. rewrite app_nil_r.
    rewrite (assoc_L (++)). f_equal; [|f_equal; lia]. by rewrite take_take_drop.
Qed.

Lemma padto_put data : put (zeros 512) 0 (take 512 data) = padto 512 data.
Proof.
  unfold put, splice, padto, zeros. rewrite length_replicate. change (Z.to_nat 0) with 0%nat.
  change (Z.to_nat 512) with 512%nat. rewrite take_0, app_nil_l, Nat.sub_0_r, take_take, Nat.min_id. f_equal.
  rewrite drop_replicate, length_take. f_equal. lia.
Qed.

Lemma length_run_of s l n : length (run_of s l n) = (512 * n)%nat.
Proof.
  unfold run_of. revert l. induction n as [|n IH]; intros l; [done|].
  rewrite Nat2Z.inj_succ, seqZ_cons by lia. cbn [map concat]. rewrite length_app, sec_length.
  replace (Z.pred (Z.succ (Z.of_nat n))) with (Z.of_nat n) by lia. rewrite IH. lia.
Qed.

Lemma run_of_S s l n : run_of s l (S n) = sec s l ++ run_of s (l + 1) n.
Proof.
  unfold run_of. rewrite Nat2Z.inj_succ, seqZ_cons by lia. cbn [map concat].
  replace (Z.pred (Z.succ (Z.of_nat n))) with (Z.of_nat n) by lia. by rewrite Z.add_1_r.
Qed.

Lemma run_of_ext s s' l n : (forall l', l <= l' < l + Z.of_nat n -> sec s' l' = sec s l') -> run_of s' l n = run_of s l n.
Proof.
  intros Hs. unfold run_of. f_equal. apply map_ext_in. intros l' Hl. apply Hs.
  apply list_elem_of_In, elem_of_seqZ in Hl. lia.
Qed.

Lemma write_sectors_run n : forall s l data, ready s -> bytes_ok data -> 0 <= l -> l + Z.of_nat n <= 2 ^ 28 ->
  run (write_sectors n l data) s (fun r s' => r = (true, drop (512 * n) data) /\
    (exists f, moved s s' f) /\ run_of s' l n = padto (512 * n) data /\
    (forall l', lba_ok l' -> ~ (l <= l' < l + Z.of_nat n) -> sec s' l' = sec s l')).
Proof.
  induction n as [|n IH]; intros s l data R Hd Hl Hn; cbn [write_sectors].
  - apply run_ret. rewrite drop_0. split_and!; [done|by exists (sec s)|done|done].
  - eapply run_bind, run_gets. pose proof R as [E _]. rewrite E, (g_bps _ _ G). change (Z.to_nat 512) with 512%nat.
    rewrite padto_put. assert (length (padto 512 data) = 512)%nat as Hlen by (unfold padto; len).
    assert (bytes_ok (padto 512 data)) as Hok.
    { unfold padto. apply Forall_app_2; [by apply Forall_take|apply Forall_replicate; unfold is_u8; lia]. }
    run_step disk_write_run as (-> & M); [done|unfold lba_ok; lia|done|done|].
    run_last IH as (-> & [f M2] & Hr & Hk); [by eapply moved_ready|by apply Forall_drop|lia|lia|].
    destruct M as (R1 & U1 & Hs).
    split_and!.
    + rewrite drop_drop. do 2 f_equal. lia.
    + exists f. eapply moved_trans; [|exact M2]. by split_and!.
    + replace (512 * S n)%nat with (512 + 512 * n)%nat by lia. rewrite padto_split, run_of_S, <- Hr. f_equal.
      rewrite Hk by (unfold lba_ok; lia). rewrite Hs by (unfold lba_ok; lia). by rewrite decide_True.
    + intros l' Hl' Hn'. rewrite Hk by (done || lia). rewrite Hs by done. rewrite decide_False by lia. done.
Qed.

Lemma run_step_bounds c : in_vol fs c ->
  0 <= clus_lba c /\ clus_lba c + Z.of_nat spc <= 2 ^ 28 /\ Z.of_nat spc = f_sectors_per_cluster fs.
Proof.
  intros Hc. destruct G.
  destruct (clus_bounds c (clus_lba c) Hc) as [[B1 _] _]; [unfold clus; lia|].
  destruct (clus_bounds c (clus_lba c + f_sectors_per_cluster fs - 1) Hc) as [[_ B2] _]; [unfold clus; lia|]. lia.
Qed.

(** Changes inside the data of clusters leave the table. *)
Lemma data_effect s s' c f : in_vol fs c -> moved s s' f ->
  (forall l, lba_ok l -> ~ clus c l -> sec s' l = sec s l) -> effect s s' (tab s) (clus c).
Proof.
  intros Hc (R & U & _) Hk.
  assert (forall k c', copy_ok k -> slot_ok c' -> fent s' k c' = fent s k c') as Hf.
  { intros k c' Hk' Hc'. unfold fent. destruct (entry_bounds k c' Hk' Hc') as (_ & L & P & _).
    rewrite Hk; [done|done|]. intros Hl. destruct (clus_bounds _ _ Hc Hl) as (_ & Hp & _). unfold past_table in Hp. lia. }
  assert (copy_ok 0) as H0' by (unfold copy_ok; destruct G; lia).
  split; [done|done| | |auto].
  - intros Hm k c' Hk' Hc'. unfold tab. rewrite !Hf by done. by apply Hm.
  - intros c' Hc'. by apply Hf.
Qed.

Lemma contents_ext s s' cs : Forall (in_vol fs) cs ->
  (forall l, clusters cs l -> sec s' l = sec s l) -> contents s' cs = contents s cs.
Proof.
  intros Hv Hs. unfold contents. f_equal. apply map_ext_in. intros c Hc%list_elem_of_In. apply run_of_ext.
  intros l Hl. apply Hs. exists c. split; [done|]. unfold clus.
  destruct (run_step_bounds c) as (_ & _ & <-); [|done]. by apply (proj1 (Forall_forall _ _) Hv).
Qed.

(** The condition of both loops over a chain, at a cluster of the volume. *)
Lemma on_chain c b : in_vol fs c -> (2 <=? c) && (c <? FAT_EOC) && b = b.
Proof.
  intros Hc. unfold in_vol in Hc. destruct G.
  rewrite (proj2 (Z.leb_le 2 c)), (proj2 (Z.ltb_lt c FAT_EOC)) by lia. done.
Qed.

Abbreviation csize := (512 * spc)%nat.

Lemma contents_cons s c cs : contents s (c :: cs) = run_of s (clus_lba c) spc ++ contents s cs.
Proof. done. Qed.

Lemma spc_pos : (1 <= spc)%nat.
Proof. destruct G. lia. Qed.

(** Writing [data] to a chain that has just enough clusters for it. *)
Lemma write_clusters_run cs : forall n s c data, ready s -> chain (tab s) c cs -> NoDup cs -> bytes_ok data ->
  (csize * (length cs - 1) < length data)%nat -> (length data <= csize * length cs)%nat -> (length cs <= n)%nat ->
  run (write_clusters n c data) s (fun r s' => r = true /\ effect s s' (tab s) (clusters cs) /\
    contents s' cs = padto (csize * length cs) data).
Proof.
  induction cs as [|a cs IH]; intros [|n] s c data R Hch Hnd Hb Hlo Hhi Hn; try by inversion Hch.
  { apply chain_head in Hch as [_ [? ?]]. simplify_eq/=. lia. }
  pose proof (chain_head _ _ _ Hch) as [Hv [cs0 [= -> <-]]]. cbn [length write_clusters] in *. rewrite Nat.sub_succ, Nat.sub_0_r in Hlo.
  pose proof (in_vol_slot _ Hv) as Hs. apply NoDup_cons in Hnd as [Hna Hnd]. pose proof spc_pos. destruct (run_step_bounds c Hv) as (B1 & B2 & B3).
  rewrite on_chain by done. rewrite bool_decide_eq_false_2 by (intros ->; simpl in Hlo; lia). cbn [negb].
  eapply run_bind, run_gets. pose proof R as [E _]. rewrite E, clus_lba_of by done.
  run_step write_sectors_run as (-> & [f M] & Hw & Hk); [done|done|lia|lia|].
  rewrite B3 in Hk. pose proof (data_effect _ _ c _ Hv M ltac:(intros; apply Hk; [done|by unfold clus in *])) as E1.
  run_step fat_read_run as (-> & M2); [apply E1|done|]. fold (tab s' c). rewrite (e_tab _ _ _ _ E1) by done.
  pose proof (moved_effect _ _ (e_ready _ _ _ _ E1) M2) as E2.
  assert (effect s s'0 (tab s) (clus c)) as E3.
  { eapply effect_tab; [eapply effect_trans; [exact E1|exact E2|]|]; [intros l [?|[]]; done|].
    intros x Hx. by apply E1. }
  assert (run_of s'0 (clus_lba c) spc = padto csize data) as Hw2.
  { rewrite <- Hw. apply run_of_ext. intros l Hl. destruct M2 as (_ & _ & Hs2). apply Hs2. unfold lba_ok. lia. }
  inversion Hch as [? ? He|? ? ? Hcs]; subst.
  - destruct n as [|n]; cbn [write_clusters];
      rewrite (proj2 (Z.ltb_ge _ FAT_EOC)), andb_false_r by done; cbn [andb]; apply run_ret.
    all: split_and!; [done| |].
    all: try (destruct E3 as [? ? ? ? K]; split; [done..|]; intros l Hl Hp Hnl; apply K; [done|done|];
              intros Hcl; apply Hnl; exists c; split; [left|done]).
    all: rewrite contents_cons, Hw2; cbn [contents map concat length]; rewrite app_nil_r; f_equal; lia.
  - pose proof (chain_vol _ _ _ Hcs) as Hcv. pose proof (chain_head _ _ _ Hcs) as [_ [cs1 Ecs1]].
    assert (1 <= length cs)%nat as Hl1 by (subst; simpl; lia).
    run_last IH as (-> & E4 & Hc4); [apply E3| |done|by apply Forall_drop| | |lia|].
    + eapply chain_ext; [exact Hcs|]. intros x Hx. apply (e_tab _ _ _ _ E3).
      by apply in_vol_slot, (proj1 (Forall_forall _ _) Hcv).
    + rewrite length_drop. nia.
    + rewrite length_drop. nia.
    + split_and!; [done| |].
      * eapply effect_tab; [eapply effect_trans; [exact E3|exact E4|]|]; [|intros x Hx; by apply E3].
        intros l [Hl|(x & Hx & Hl)]; [exists c; split; [left|done]|exists x; split; [by right|done]].
      * rewrite contents_cons, Hc4. replace (csize * S (length cs))%nat with (csize + csize * length cs)%nat by lia.
        rewrite padto_split. f_equal. rewrite <- Hw2. apply run_of_ext. intros l Hl.
        assert (clus c l) as Hcl by (unfold clus; lia). destruct (clus_bounds c l Hv Hcl) as (L1 & L2 & _).
        apply (e_data _ _ _ _ E4); [done|done|]. intros (x & Hx & Hl'). apply Hna.
        by rewrite (clus_apart c x l Hcl Hl').
Qed.

Lemma take_put (b : list Z) o (k : list Z) : 0 <= o -> o + Z.of_nat (length k) <= Z.of_nat (length b) ->
  take (Z.to_nat o + length k) (put b o k) = take (Z.to_nat o) b ++ k.
Proof.
  intros Ho Hl. unfold put, splice. rewrite take_app_ge by len. rewrite length_take.
  rewrite take_app_ge by len. f_equal. rewrite (take_ge k) by lia.
  replace (Z.to_nat o + length k - Z.to_nat o `min` length b - length k)%nat with 0%nat by lia.
  rewrite take_0. by rewrite app_nil_r.
Qed.

Lemma read_sectors_run n : forall s l size read data, ready s -> 0 <= l -> l + Z.of_nat n <= 2 ^ 28 ->
  0 <= read <= size -> length data = Z.to_nat size ->
  run (read_sectors n l size read data) s (fun r s' => moved s s' (sec s) /\ exists read' data',
    r = Some (read', data') /\ read' = Z.min size (read + 512 * Z.of_nat n) /\ length data' = length data /\
    take (Z.to_nat read') data' = take (Z.to_nat read) data ++ take (Z.to_nat (read' - read)) (run_of s l n)).
Proof.
  induction n as [|n IH]; intros s l size read data R Hl Hn Hr Hd; cbn [read_sectors].
  - apply run_ret. split; [by apply moved_refl|]. exists read, data. split_and!; [done|lia|done|].
    rewrite Z.sub_diag. change (Z.to_nat 0) with 0%nat. rewrite take_0. by rewrite app_nil_r.
  - destruct (Z.leb_spec size read) as [Hsr|Hsr].
    { apply run_ret. split; [by apply moved_refl|]. exists read, data. split_and!; [done|lia|done|].
      rewrite Z.sub_diag. change (Z.to_nat 0) with 0%nat. rewrite take_0. by rewrite app_nil_r. }
    eapply run_bind, run_gets. pose proof R as [E _]. rewrite E, (g_bps _ _ G).
    run_step disk_read_run as (-> & M); [done|unfold lba_ok; lia|].
    set (chunk := if 512 <? size - read then 512 else size - read).
    assert (chunk = Z.min 512 (size - read)) as Hch by (unfold chunk; case (Z.ltb_spec 512 (size - read)); lia).
    clearbody chunk.
    assert (length (sub (sec s l) 0 chunk) = Z.to_nat chunk) as Hcl by (apply length_sub; rewrite ?sec_length; lia).
    run_last IH as (M2 & read' & data' & -> & -> & Hl2 & Ht); [by eapply moved_ready|lia|lia|lia|by rewrite length_put|].
    assert (moved s s'0 (sec s)) as M3.
    { eapply moved_ext; [by eapply moved_trans|]. intros l' Hl'. by apply M. }
    split; [done|]. eexists _, _. split_and!; [done|lia|by rewrite Hl2, length_put|].
    rewrite Ht. replace (Z.to_nat (read + chunk)) with (Z.to_nat read + length (sub (sec s l) 0 chunk))%nat by lia.
    rewrite take_put by lia. rewrite <- (assoc_L (++)). f_equal.
    assert (run_of s' (l + 1) n = run_of s (l + 1) n) as ->.
    { apply run_of_ext. intros l' Hl'. apply M. unfold lba_ok. lia. }
    rewrite run_of_S. destruct (Z.lt_ge_cases chunk 512) as [Hlt|Hge].
    + replace (Z.min size (read + chunk + 512 * Z.of_nat n) - (read + chunk)) with 0 by lia.
      rewrite take_0, app_nil_r, take_app_le by (rewrite sec_length; lia).
      unfold sub. rewrite drop_0. f_equal. lia.
    + assert (chunk = 512) as -> by lia. unfold sub. rewrite drop_0. rewrite (take_ge (sec s l)) by (rewrite sec_length; lia).
      rewrite (take_app_ge (sec s l)) by (rewrite sec_length; lia). f_equal. f_equal. rewrite sec_length. lia.
Qed.

Lemma length_contents s cs : length (contents s cs) = (csize * length cs)%nat.
Proof.
  induction cs as [|c cs IH]; [simpl; lia|]. rewrite contents_cons, length_app, length_run_of, IH. simpl. lia.
Qed.

Lemma read_clusters_run cs : forall n s c size read data, ready s -> chain (tab s) c cs ->
  0 <= read <= size -> length data = Z.to_nat size -> (Z.to_nat (size - read) <= n)%nat ->
  (Z.to_nat (size - read) <= csize * length cs)%nat ->
  run (read_clusters n c size read data) s (fun r s' => moved s s' (sec s) /\
    r = Some (take (Z.to_nat read) data ++ take (Z.to_nat (size - read)) (contents s cs))).
Proof.
  induction cs as [|a cs IH]; intros n s c size read data R Hch Hr Hd Hn Hc; try by inversion Hch.
  pose proof (chain_head _ _ _ Hch) as [Hv [cs0 [= -> <-]]]. pose proof (in_vol_slot _ Hv) as Hs.
  destruct (run_step_bounds c Hv) as (B1 & B2 & B3). pose proof spc_pos.
  destruct (Z.ltb_spec read size) as [Hlt|Hge].
  2: { assert (read = size) as -> by lia.
    assert (read_clusters n c size size data = mret (Some data)) as ->.
    { destruct n; cbn [read_clusters]; rewrite on_chain, (proj2 (Z.ltb_ge size size)) by (done || lia); done. }
    apply run_ret. split; [by apply moved_refl|]. rewrite Z.sub_diag. change (Z.to_nat 0) with 0%nat.
    rewrite take_0, app_nil_r, take_ge by lia. done. }
  destruct n as [|n]; [lia|]. cbn [read_clusters]. rewrite on_chain by done.
  rewrite (proj2 (Z.ltb_lt read size)) by done.
  eapply run_bind, run_gets. pose proof R as [E _]. rewrite E, clus_lba_of by done.
  run_step read_sectors_run as (M & read' & data' & -> & Hr' & Hl' & Ht); [done|lia|lia|lia|done|].
  run_step fat_read_run as (-> & M2); [by eapply moved_ready|done|]. fold (tab s' c).
  pose proof (moved_effect _ _ R M) as E1. rewrite (e_tab _ _ _ _ E1) by done.
  assert (moved s s'0 (sec s)) as M3 by (eapply moved_ext; [by eapply moved_trans|]; intros l Hl; by apply M).
  rewrite B3 in Hr'. rewrite contents_cons. cbn [length] in Hc.
  assert (take (Z.to_nat (size - read)) (run_of s (clus_lba c) spc ++ contents s cs) =
    take (Z.to_nat (read' - read)) (run_of s (clus_lba c) spc) ++ take (Z.to_nat (size - read')) (contents s cs)) as Hsplit.
  { destruct (Z.le_gt_cases size (read + 512 * f_sectors_per_cluster fs)) as [Hle|Hgt].
    - replace read' with size by lia. rewrite Z.sub_diag. change (Z.to_nat 0) with 0%nat. rewrite take_0, app_nil_r.
      rewrite take_app_le; [done|]. rewrite length_run_of. lia.
    - rewrite take_app_ge by (rewrite length_run_of; lia). rewrite length_run_of.
      rewrite (take_ge (run_of _ _ _)) by (rewrite length_run_of; lia). do 2 f_equal. lia. }
  rewrite Hsplit, (assoc_L (++)), <- Ht.
  destruct (chain_inv _ _ _ _ Hch) as (_ & _ & [[-> He]|Hcs]).
  - cbn [length] in Hc. assert (read' = size) as Hrs by lia.
    assert (read_clusters n (tab s c) size read' data' = mret (Some data')) as ->.
    { destruct n; cbn [read_clusters]; rewrite (proj2 (Z.ltb_ge _ FAT_EOC)), andb_false_r by done; done. }
    apply run_ret. split; [done|]. rewrite Hrs, Z.sub_diag. change (Z.to_nat 0) with 0%nat.
    rewrite take_0, app_nil_r, take_ge by lia. done.
  - run_last IH as (M4 & ->); [by eapply moved_ready| |lia|lia|lia|lia|].
    + eapply chain_ext; [exact Hcs|]. intros x Hx. pose proof (moved_effect _ _ R M3) as E3. apply (e_tab _ _ _ _ E3).
      by apply in_vol_slot, (proj1 (Forall_forall _ _) (chain_vol _ _ _ Hcs)).
    + split; [eapply moved_ext; [by eapply moved_trans|]; intros l Hl; by apply M3|].
      do 2 f_equal. f_equal. apply contents_ext; [by eapply chain_vol|].
      intros l (x & Hx & Hl). apply M3.
      apply (clus_bounds x l); [by apply (proj1 (Forall_forall _ _) (chain_vol _ _ _ Hcs))|done].
Qed.

(** What [write_new_chain] does: the data is in a new chain of clusters that
    were free, or there are too few of them and the table is as it was. *)
Definition stored s s' (data : list Z) (first : Z) (cs : list Z) : Prop :=
  chain (tab s') first cs /\ NoDup cs /\ Forall (fun c => in_vol fs c /\ tab s c = 0) cs /\
  (forall c, slot_ok c -> c ∉ cs -> tab s' c = tab s c) /\
  effect s s' (tab s') (clusters cs) /\
  (length data <= csize * length cs)%nat /\ take (length data) (contents s' cs) = data.
Definition no_room s s' (data : list Z) : Prop :=
  exists cs, only_free s cs /\ (csize * length cs < length data)%nat /\ effect s s' (tab s) (clusters cs).

Lemma take_padto n data : (length data <= n)%nat -> take (length data) (padto n data) = data.
Proof. intros Hn. unfold padto. rewrite (take_ge data n), take_app_le, take_ge by lia. done. Qed.

Lemma csize_of : cluster_size_of fs = Z.of_nat csize.
Proof. unfold cluster_size_of. destruct G. lia. Qed.

Lemma write_new_chain_run s data : ready s -> data <> [] -> bytes_ok data ->
  Z.of_nat (length data) + cluster_size_of fs < 2 ^ 32 ->
  run (write_new_chain data) s (fun r s' =>
    match r with
    | Some first => exists cs, stored s s' data first cs
    | None => no_room s s' data
    end).
Proof.
  intros R Hne Hb Hlen. pose proof spc_pos as Hspc. rewrite csize_of in Hlen.
  assert (0 < length data)%nat as Hl0 by (destruct data; [done|simpl; lia]).
  unfold write_new_chain. rewrite (proj2 (Z.eqb_neq _ 0)) by lia.
  eapply run_bind, run_gets. pose proof R as [E _]. rewrite E, csize_of.
  rewrite u32_small by (unfold is_u32; lia).
  set (needed := Z.to_nat ((Z.of_nat (length data) + Z.of_nat csize - 1) / Z.of_nat csize)).
  assert ((csize * (needed - 1) < length data)%nat /\ (length data <= csize * needed)%nat) as [Hlo Hhi].
  { pose proof (Z.div_mod (Z.of_nat (length data) + Z.of_nat csize - 1) (Z.of_nat csize) ltac:(lia)).
    pose proof (Z.mod_pos_bound (Z.of_nat (length data) + Z.of_nat csize - 1) (Z.of_nat csize) ltac:(lia)).
    assert (0 <= (Z.of_nat (length data) + Z.of_nat csize - 1) / Z.of_nat csize) by (apply Z.div_pos; lia).
    unfold needed. split; nia. }
  clearbody needed. assert (1 <= needed)%nat as Hn1 by nia.
  run_step (alloc_chain_run s needed s 0 0 []) as Hr; [by apply grown_nil|].
  destruct a as [[first prev]|].
  2: { destruct Hr as (cs & Ho & Hl & Er). apply run_ret. exists cs. split_and!; [done| |done]. simpl in Hl. nia. }
  destruct Hr as (cs & Hl & Gr). cbn [app] in Gr. destruct Gr as [Sh En Nd Fr Us Re Ef].
  destruct Sh as [(-> & _)|(Hf & Hp & Hch & Hla)]; [simpl in Hl; lia|]. specialize (En Hp).
  assert (slot_ok prev) as Hsp.
  { apply in_vol_slot, (proj1 (Forall_forall _ _) (chain_vol _ _ _ Hch)). by apply last_Some_elem_of. }
  run_step fat_write_run as (_ & E1); [apply Ef|done|unfold is_u16; lia|].
  assert (forall c, slot_ok c -> tab s'0 c = tab s' c) as Ht.
  { intros c Hc. rewrite (e_tab _ _ _ _ E1) by done. unfold upd_tab. case_decide; [by subst|done]. }
  pose proof (chain_vol _ _ _ Hch) as Hcv. rewrite Forall_forall in Hcv.
  assert (chain (tab s'0) first cs) as Hch1 by (eapply chain_ext; [exact Hch|]; intros x Hx; by apply Ht, in_vol_slot, Hcv).
  run_step write_clusters_run as (-> & E2 & Hc2); [apply E1|exact Hch1|done|done|by rewrite Hl|by rewrite Hl|nia|].
  cbn [negb]. apply run_ret. exists cs.
  assert (forall c, slot_ok c -> tab s'1 c = tab s' c) as Ht2.
  { intros c Hc. rewrite (e_tab _ _ _ _ E2) by done. by apply Ht. }
  split_and!; [|done|done| | |by rewrite Hl|].
  - eapply chain_ext; [exact Hch|]. intros x Hx. by apply Ht2, in_vol_slot, Hcv.
  - intros c Hc Hn. rewrite Ht2 by done. by apply Re.
  - eapply effect_tab; [eapply effect_trans; [exact Ef|eapply effect_trans; [exact E1|exact E2|]|]|].
    + intros l [[]|Hl']. exact Hl'.
    + intros l [Hl'|Hl']; exact Hl'.
    + intros c Hc. by rewrite (e_tab _ _ _ _ E2).
  - rewrite Hc2. apply take_padto. by rewrite Hl.
Qed.
End Table.
