(* ===== verification/Fat16Files.v ===== *)
(** * Files of a FAT16 volume

    Entries in memory and on disk, the root directory as a sequence of entries,
    and what writing and reading a file of the root directory do. *)

From S2P Require Import Prelude Machine VfsTypes CLib Vfs Fat16 Fat16Table.

(** ** Entries *)

(** A record the packed struct can hold. *)
Record entry_ok (e : fat_dir_entry) : Prop := {
  eo_name : length (fe_name e) = 11%nat /\ bytes_ok (fe_name e);
  eo_attr : is_u8 (fe_attr e);
  eo_nt : is_u8 (fe_nt_reserved e);
  eo_tenth : is_u8 (fe_create_time_tenth e);
  eo_ctime : is_u16 (fe_create_time e);
  eo_cdate : is_u16 (fe_create_date e);
  eo_adate : is_u16 (fe_last_access_date e);
  eo_high : is_u16 (fe_first_cluster_high e);
  eo_wtime : is_u16 (fe_write_time e);
  eo_wdate : is_u16 (fe_write_date e);
  eo_low : is_u16 (fe_first_cluster_low e);
  eo_size : is_u32 (fe_size e);
}.

Lemma entry_of_bytes_ok b : bytes_ok b -> length b = 32%nat -> entry_ok (entry_of_bytes b).
Proof.
  intros Hb Hl. split; cbn; try apply (get_le_bound 1 b _ Hb); try apply (get_le_bound 2 b _ Hb);
    try apply (get_le_bound 4 b _ Hb).
  split; [rewrite length_sub; lia|by apply sub_ok].
Qed.

Lemma length_bytes_of_entry e : entry_ok e -> length (bytes_of_entry e) = 32%nat.
Proof. intros He. unfold bytes_of_entry. rewrite !length_app, !length_le_bytes. destruct He as [[-> _]]. done. Qed.

Lemma bytes_of_entry_bytes e : entry_ok e -> bytes_ok (bytes_of_entry e).
Proof.
  intros He. unfold bytes_of_entry. repeat (apply Forall_app_2; [try apply le_bytes_ok|]); try apply le_bytes_ok.
  apply He.
Qed.

Lemma entry_roundtrip e : entry_ok e -> entry_of_bytes (bytes_of_entry e) = e.
Proof.
  intros [[Hn _] H1 H2 H3 H4 H5 H6 H7 H8 H9 H10 H11]. destruct e as [n a1 a2 a3 a4 a5 a6 a7 a8 a9 a10 a11]. cbn in *.
  do 11 (destruct n as [|? n]; [done|]). destruct n; [|done].
  match goal with |- entry_of_bytes ?x = _ => set (L := x) end.
  assert (forall k v off, sub L off (Z.of_nat k) = le_bytes k v -> 0 <= v < 256 ^ Z.of_nat k -> get_le k L off = v) as Hg.
  { intros k v off E Hv. unfold get_le. rewrite E, le_val_le_bytes. by apply Z.mod_small. }
  unfold entry_of_bytes.
  rewrite (Hg 1%nat a1 11 eq_refl H1), (Hg 1%nat a2 12 eq_refl H2), (Hg 1%nat a3 13 eq_refl H3),
    (Hg 2%nat a4 14 eq_refl H4), (Hg 2%nat a5 16 eq_refl H5), (Hg 2%nat a6 18 eq_refl H6),
    (Hg 2%nat a7 20 eq_refl H7), (Hg 2%nat a8 22 eq_refl H8), (Hg 2%nat a9 24 eq_refl H9),
    (Hg 2%nat a10 26 eq_refl H10), (Hg 4%nat a11 28 eq_refl H11).
  reflexivity.
Qed.

Lemma first_cluster_set c e : 0 <= c < 2 ^ 16 -> entry_first_cluster (entry_set_first_cluster c e) = c.
Proof.
  intros Hc. unfold entry_first_cluster, entry_set_first_cluster. cbn [fe_first_cluster_high fe_first_cluster_low].
  rewrite Z.shiftr_div_pow2, Z.div_small by lia. change (Z.land c 65535) with (Z.land c (Z.ones 16)).
  rewrite Z.land_ones, Z.mod_small by lia. change (u32 (Z.shiftl (u16 0) 16)) with 0.
  rewrite u16_small by (unfold is_u16; lia). apply Z.lor_0_l.
Qed.

(** ** The root directory *)

Section Root.
Context {W : Type} `{MachineOk W}.
Context (d : disk_device) (fs : fat16_fs) (G : geometry d fs) (junk : Z -> Z -> list Z).
Abbreviation F := (fat W).
Implicit Types (s : F).
Abbreviation sec := (sec d).
Abbreviation tab := (tab d fs).
Abbreviation ready := (ready d fs).
Abbreviation moved := (moved d fs).
Abbreviation effect := (effect d fs).

Definition root_lba (i : Z) : Z := f_root_dir_sector fs + i / 16.
Definition root_off (i : Z) : Z := i mod 16 * ENTRY_SIZE.
Definition root_entry s (i : Z) : fat_dir_entry := entry_of_bytes (sub (sec s (root_lba i)) (root_off i) ENTRY_SIZE).
Definition root_index (i : Z) : Prop := 0 <= i < f_root_entry_count fs.

Lemma root_bounds i : root_index i ->
  lba_ok (root_lba i) /\ f_root_dir_sector fs <= root_lba i < f_first_data_sector fs /\ 0 <= root_off i <= 480.
Proof.
  unfold root_index, lba_ok, root_lba, root_off, ENTRY_SIZE. intros Hi. destruct G. unfold FAT_EOC in *.
  pose proof (Z.div_mod i 16 ltac:(lia)). pose proof (Z.mod_pos_bound i 16 ltac:(lia)).
  assert (0 <= i / 16) by (apply Z.div_pos; lia).
  assert (0 <= (f_max_cluster fs - 2) * f_sectors_per_cluster fs) by (apply Z.mul_nonneg_nonneg; lia).
  assert (0 <= f_fat_count fs * f_sectors_per_fat fs) by (apply Z.mul_nonneg_nonneg; lia). lia.
Qed.

Lemma root_place_run s i : ready s -> 0 <= i ->
  run (dir_entry_place 0 i) s (fun r s' => s' = s /\
    r = if decide (root_index i) then Some (root_lba i, root_off i) else None).
Proof.
  intros [E _] Hi. unfold dir_entry_place. eapply run_bind, run_gets. rewrite E. cbn [Z.eqb].
  rewrite (g_bps _ _ G). change (512 / ENTRY_SIZE) with 16. unfold root_index.
  destruct (Z.leb_spec (f_root_entry_count fs) i); apply run_ret; (split; [done|]).
  - rewrite decide_False by lia. done.
  - rewrite decide_True by lia. done.
Qed.

Lemma root_read_run s i : ready s -> 0 <= i ->
  run (read_dir_entry_at 0 i) s (fun r s' => moved s s' (sec s) /\
    r = if decide (root_index i) then Some (root_entry s i) else None).
Proof.
  intros R Hi. unfold read_dir_entry_at. run_step root_place_run as (-> & ->); [done|done|].
  destruct (decide (root_index i)) as [Hx|Hx]; [|by apply run_ret; split; [apply moved_refl|]].
  destruct (root_bounds i Hx) as (B & _ & _).
  run_step (disk_read_run d fs G) as (-> & M); [done|done|]. apply run_ret. done.
Qed.

Lemma root_entry_ok s i : root_index i -> entry_ok (root_entry s i).
Proof.
  intros Hi. destruct (root_bounds i Hi) as (_ & _ & B). apply entry_of_bytes_ok.
  - apply sub_ok, sec_bytes.
  - unfold ENTRY_SIZE. rewrite length_sub; [done|lia|lia|]. rewrite sec_length. lia.
Qed.

(** [find_in_dir] on a sequence of entries. *)
Fixpoint find_entry (n : nat) (ent : Z -> fat_dir_entry) (name : list Z) (i : Z) : option found_entry :=
  match n with
  | O => None
  | S n => if byte_at (fe_name (ent i)) 0 =? 0 then None
           else if entry_is_visible (ent i) && bool_decide (fe_name (ent i) = name)
           then Some (mk_found (ent i) 0 i true)
           else find_entry n ent name (i + 1)
  end.

Lemma find_entry_ext n ent ent' name : forall i, (forall j, i <= j < i + Z.of_nat n -> ent' j = ent j) ->
  find_entry n ent' name i = find_entry n ent name i.
Proof.
  induction n as [|n IH]; intros i He; [done|]. cbn [find_entry]. rewrite He by lia.
  rewrite IH; [done|]. intros j Hj. apply He. lia.
Qed.

Lemma find_loop_run n name : forall s i, ready s -> 0 <= i -> i + Z.of_nat n <= f_root_entry_count fs ->
  run (find_loop n 0 name i) s (fun r s' => moved s s' (sec s) /\ r = find_entry n (root_entry s) name i).
Proof.
  induction n as [|n IH]; intros s i R Hi Hn; cbn [find_loop find_entry].
  - apply run_ret. split; [by apply moved_refl|done].
  - run_step root_read_run as (M & ->); [done|done|]. rewrite decide_True by (unfold root_index; lia).
    destruct (_ =? 0); [by apply run_ret|]. destruct (_ && _); [by apply run_ret|].
    run_last IH as (M2 & ->); [by eapply moved_ready|lia|lia|].
    assert (moved s s'0 (sec s)) as M3 by (eapply moved_ext; [by eapply moved_trans|]; intros l Hl; by apply M).
    split; [done|]. apply find_entry_ext. intros j Hj. unfold root_entry.
    destruct (root_bounds j) as (B & _); [unfold root_index; lia|]. destruct M as (_ & _ & Hs). by rewrite Hs.
Qed.

Definition root_find s (name : list Z) : option found_entry :=
  find_entry (Z.to_nat (f_root_entry_count fs)) (root_entry s) name 0.

Lemma find_in_root_run s name : ready s ->
  run (find_in_dir 0 name) s (fun r s' => moved s s' (sec s) /\ r = root_find s name).
Proof.
  intros R. unfold find_in_dir. eapply run_bind, run_gets. pose proof R as [E _]. rewrite E.
  change (dir_max fs 0) with (Z.to_nat (f_root_entry_count fs)). apply find_loop_run; [done|lia|]. destruct G. lia.
Qed.

Lemma find_entry_found n ent name : forall i f, find_entry n ent name i = Some f ->
  i <= fd_index f < i + Z.of_nat n /\ f = mk_found (ent (fd_index f)) 0 (fd_index f) true /\
  fe_name (ent (fd_index f)) = name /\ entry_is_visible (ent (fd_index f)) = true /\
  forall ent', (forall j, i <= j < fd_index f -> ent' j = ent j) ->
    fe_name (ent' (fd_index f)) = name -> entry_is_visible (ent' (fd_index f)) = true ->
    find_entry n ent' name i = Some (mk_found (ent' (fd_index f)) 0 (fd_index f) true).
Proof.
  induction n as [|n IH]; intros i f Hf; [done|]. cbn [find_entry] in *.
  destruct (byte_at (fe_name (ent i)) 0 =? 0) eqn:E0; [done|].
  destruct (entry_is_visible (ent i) && bool_decide (fe_name (ent i) = name)) eqn:E1.
  - injection Hf as <-. cbn [fd_index]. apply andb_true_iff in E1 as [E1 E2%bool_decide_eq_true].
    split_and!; [lia|lia|done|done|done|]. intros ent' _ Hn Hv. rewrite Hn, Hv, <- E2, E0.
    rewrite bool_decide_eq_true_2 by done. done.
  - destruct (IH _ _ Hf) as (Hi & Ef & Hn & Hv & Hu). split_and!; [lia|lia|done|done|done|].
    intros ent' He Hn' Hv'. rewrite He by lia. rewrite E0, E1. apply Hu; [|done|done]. intros j Hj. apply He. lia.
Qed.

Lemma root_write_run s i e : ready s -> root_index i -> entry_ok e ->
  run (write_dir_entry_at 0 i e) s (fun r s' => r = 0 /\
    effect s s' (tab s) (fun l => f_root_dir_sector fs <= l < f_first_data_sector fs) /\
    forall j, root_index j -> root_entry s' j = if decide (j = i) then e else root_entry s j).
Proof.
  intros R Hi He. unfold write_dir_entry_at. destruct (root_bounds i Hi) as (B1 & B2 & B3).
  run_step root_place_run as (-> & ->); [done|by destruct Hi|]. rewrite decide_True by done.
  run_step (disk_read_run d fs G) as (-> & M); [done|done|].
  run_step (disk_write_run d fs G) as (-> & M2); [by eapply moved_ready|done| | |].
  { by rewrite length_put, sec_length. }
  { apply put_ok; [by apply bytes_of_entry_bytes|apply sec_bytes]. }
  apply run_ret. destruct M as (R1 & U1 & Hs1), M2 as (R2 & U2 & Hs2). split; [done|]. split.
  - assert (forall k c, copy_ok fs k -> slot_ok fs c -> fent d fs s'0 k c = fent d fs s k c) as Hf.
    { intros k c Hk Hc. unfold fent. destruct (entry_bounds d fs G k c Hk Hc) as (_ & L & P & _).
      rewrite Hs2 by done. rewrite decide_False by lia. by rewrite Hs1. }
    assert (copy_ok fs 0) as H0' by (unfold copy_ok; destruct G; lia).
    split; [done|congruence| | |].
    + intros Hm k c Hk Hc. unfold Fat16Table.tab. rewrite !Hf by done. by apply Hm.
    + intros c Hc. by apply Hf.
    + intros l Hl Hp Hn. rewrite Hs2 by done. rewrite decide_False by (intros ->; lia). by rewrite Hs1.
  - intros j Hj. unfold root_entry. destruct (root_bounds j Hj) as (L & _ & O). rewrite Hs2 by done.
    pose proof (length_bytes_of_entry e He) as Hle. unfold ENTRY_SIZE.
    destruct (decide (j = i)) as [->|Hne].
    + rewrite decide_True by done. rewrite sub_put_same; [by apply entry_roundtrip|by rewrite Hle|lia|].
      rewrite sec_length. lia.
    + case_decide as El; [|by rewrite Hs1]. rewrite sub_put_disjoint; [by rewrite El|lia|lia|lia|].
      rewrite Hle. unfold root_lba, root_off, ENTRY_SIZE in *.
      pose proof (Z.div_mod i 16 ltac:(lia)). pose proof (Z.div_mod j 16 ltac:(lia)). lia.
Qed.

(** ** Files of the root directory *)

Abbreviation chain := (chain fs).
Abbreviation contents := (contents d fs).
Abbreviation csize := (512 * Z.to_nat (f_sectors_per_cluster fs))%nat.
#[local] Arguments Nat.mul : simpl never.

(** [path] names an entry of the root directory by the 8.3 name [name]. *)
Definition root_path (path name : list Z) : Prop :=
  exists rest tok, path = SLASH :: rest /\ rest <> [] /\
    path_tokens (strncpy PUREUNIX_MAX_PATH rest) [] = [tok] /\ name_to_83 tok = Some name.

(** The clusters of an entry, and the bytes it stands for. *)
Definition owns s (e : fat_dir_entry) (cs : list Z) : Prop :=
  (entry_first_cluster e = 0 /\ cs = []) \/
  (entry_first_cluster e <> 0 /\ chain (tab s) (entry_first_cluster e) cs /\ NoDup cs).
Definition file_data s (e : fat_dir_entry) (data : list Z) : Prop :=
  exists cs, owns s e cs /\ fe_size e = Z.of_nat (length data) /\ (length data <= csize * length cs)%nat /\
    take (length data) (contents s cs) = data.

Lemma path_lookup_run s path name : ready s -> root_path path name ->
  run (path_lookup path) s (fun r s' => moved s s' (sec s) /\ r = root_find s name).
Proof.
  intros R (rest & tok & -> & Hne & Ht & Hn). unfold path_lookup. eapply run_bind, run_gets.
  pose proof R as [E _]. rewrite E, (g_mounted _ _ G). cbn [negb]. change (SLASH =? SLASH) with true. cbn [negb].
  destruct rest as [|c rest]; [done|]. rewrite Ht. cbn [lookup_tokens]. rewrite Hn.
  run_step find_in_root_run as (M & ->); [done|]. destruct (root_find s name); by apply run_ret.
Qed.

Lemma on_w_run {A} (m : state W A) s : ready s -> quiet (ft_w s) (m (ft_w s)).2 ->
  run (on_w m) s (fun r s' => moved s s' (sec s) /\ r = (m (ft_w s)).1).
Proof.
  intros [E Hh] Q. unfold run, on_w. destruct (m (ft_w s)) as [a w] eqn:Em. cbn in *. split; [|done].
  split_and!; [split; [done|by eapply quiet_healthy]|done|]. intros l _. by apply quiet_sector.
Qed.

Lemma moved_sec s s1 s2 : moved s s1 (sec s) -> moved s1 s2 (sec s1) -> moved s s2 (sec s).
Proof. intros M1 M2. eapply moved_ext; [by eapply moved_trans|]. intros l Hl. by apply M1. Qed.

Lemma owns_vol s e cs : owns s e cs -> Forall (in_vol fs) cs.
Proof. intros [[_ ->]|(_ & Hch & _)]; [constructor|]. by eapply chain_vol. Qed.

(** What keeps a file: its table entries and its sectors. *)
Lemma file_kept s s' e cs data : owns s e cs -> fe_size e = Z.of_nat (length data) ->
  (length data <= csize * length cs)%nat -> take (length data) (contents s cs) = data ->
  (forall c, c ∈ cs -> tab s' c = tab s c) -> (forall l, clusters fs cs l -> sec s' l = sec s l) ->
  owns s' e cs /\ file_data s' e data.
Proof.
  intros Ho Hs Hl Hd Ht Hk. assert (owns s' e cs) as Ho'.
  { destruct Ho as [?|(? & Hch & ?)]; [by left|right]. split_and!; [done| |done].
    eapply chain_ext; [exact Hch|done]. }
  split; [done|]. exists cs. split_and!; [done|done|done|].
  rewrite (contents_ext d fs G s s' cs); [done|by eapply owns_vol|done].
Qed.

Definition heap_failed s (n : Z) : Prop :=
  exists s1, moved s s1 (sec s) /\ (kmalloc n (ft_w s1)).1 = None.

Lemma fresh_length p n : 0 <= n -> length (fresh junk p n) = Z.to_nat n.
Proof. intros Hn. unfold fresh. rewrite length_take, length_app, length_zeros. lia. Qed.

Lemma read_clusters_file s e cs data p : ready s -> owns s e cs -> (length data <= csize * length cs)%nat ->
  take (length data) (contents s cs) = data ->
  run (read_clusters (length data) (entry_first_cluster e) (Z.of_nat (length data)) 0
         (fresh junk p (Z.of_nat (length data)))) s
    (fun r s' => moved s s' (sec s) /\ r = Some data).
Proof.
  intros R Ho Hl Hd. destruct Ho as [[-> ->]|(Hf & Hch & Hnd)].
  - assert (data = []) as -> by (apply nil_length_inv; simpl in Hl; lia). apply run_ret.
    split; [by apply moved_refl|done].
  - run_last (read_clusters_run d fs G cs) as (M & ->); [done|exact Hch|lia|rewrite fresh_length; lia|lia|lia|].
    split; [done|]. by rewrite Z.sub_0_r, Nat2Z.id, Hd.
Qed.

Lemma fat16_read_file_run s path name f data : ready s -> root_path path name -> root_find s name = Some f ->
  has_attr (fd_entry f) FAT_ATTR_DIRECTORY = false -> file_data s (fd_entry f) data ->
  run (fat16_read_file junk path) s (fun r s' => moved s s' (sec s) /\
    ((exists p, r = Some (p, data, Z.of_nat (length data))) \/
     (r = None /\ heap_failed s (u32 (Z.of_nat (length data) + 1))))).
Proof.
  intros R Hp Hf Hd (cs & Ho & Hs & Hl & Hc). unfold fat16_read_file.
  run_step path_lookup_run as (M & ->); [done|exact Hp|]. rewrite Hf, Hd, Hs.
  run_step on_w_run as (M2 & Hk); [by eapply moved_ready|apply kmalloc_quiet|].
  pose proof (moved_sec _ _ _ M M2) as M3. destruct a as [p|].
  2: { apply run_ret. split; [done|]. right. split; [done|]. by exists s'. }
  rewrite Nat2Z.id.
  destruct (file_kept s s'0 (fd_entry f) cs data Ho Hs Hl Hc) as (Ho' & _).
  { intros c Hcc. pose proof (moved_effect d fs G _ _ R M3) as E3. apply (e_tab _ _ _ _ _ _ E3).
    by apply in_vol_slot, (proj1 (Forall_forall _ _) (owns_vol _ _ _ Ho)). }
  { intros l (x & Hx & Hlx). apply M3.
    apply (clus_bounds d fs G x l); [by apply (proj1 (Forall_forall _ _) (owns_vol _ _ _ Ho))|done]. }
  run_step read_clusters_file as (M4 & ->); [by eapply moved_ready|exact Ho'|exact Hl| |].
  { rewrite <- Hc at 2. f_equal. apply (contents_ext d fs G); [by eapply owns_vol|]. intros l (x & Hx & Hlx). apply M3.
    apply (clus_bounds d fs G x l); [by apply (proj1 (Forall_forall _ _) (owns_vol _ _ _ Ho))|done]. }
  apply run_ret. split; [by eapply moved_sec|]. left. eauto.
Qed.

(** A chain for any data; no data needs none. *)
Definition chained s (first : Z) (cs : list Z) : Prop :=
  (first = 0 /\ cs = []) \/ (first <> 0 /\ chain (tab s) first cs /\ NoDup cs).

Lemma write_new_chain_any s data : ready s -> bytes_ok data ->
  Z.of_nat (length data) + cluster_size_of fs < 2 ^ 32 ->
  run (write_new_chain data) s (fun r s' =>
    match r with
    | Some first => 0 <= first < 2 ^ 16 /\ exists cs, chained s' first cs /\
        Forall (fun c => in_vol fs c /\ tab s c = 0) cs /\
        (forall c, slot_ok fs c -> c ∉ cs -> tab s' c = tab s c) /\ effect s s' (tab s') (clusters fs cs) /\
        (length data <= csize * length cs)%nat /\ take (length data) (contents s' cs) = data
    | None => no_room d fs s s' data
    end).
Proof.
  intros R Hb Hl. destruct (decide (data = [])) as [->|Hne].
  - apply run_ret. split; [lia|]. exists []. split_and!; [by left|constructor|done| |simpl; lia|done].
    split; [done..|]. done.
  - run_last write_new_chain_run as Hr; [done|done|done|done|done|]. destruct a as [first|]; [|done].
    destruct Hr as (cs & Hch & Hnd & Hfr & Hre & Ef & Hle & Hd). pose proof (chain_head _ _ _ _ Hch) as [Hv _].
    unfold in_vol in Hv. split; [destruct G; unfold FAT_EOC in *; lia|]. exists cs.
    split_and!; [right; split_and!; [lia|done|done]|done..].
Qed.

(** The table entries of a chain are in use. *)
Lemma chain_used t c cs : chain t c cs -> forall x, x ∈ cs -> t x <> 0.
Proof.
  induction 1 as [c Hc He|c cs Hc Hcs IH]; intros x Hx.
  - apply list_elem_of_singleton in Hx as ->. unfold FAT_EOC in He. lia.
  - apply elem_of_cons in Hx as [->|Hx]; [|by apply IH]. pose proof (chain_head _ _ _ _ Hcs) as [Hv _]. unfold in_vol in Hv. lia.
Qed.

Definition file_entry (e : fat_dir_entry) (first size : Z) : fat_dir_entry :=
  set_attr FAT_ATTR_ARCHIVE (set_size size (entry_set_first_cluster first e)).

Lemma file_entry_ok e first size : entry_ok e -> 0 <= first < 2 ^ 16 -> is_u32 size -> entry_ok (file_entry e first size).
Proof.
  intros [] Hf Hs. split; cbn; try done; try apply u16_range.
Qed.

Lemma file_entry_visible e first size : entry_is_visible e = true -> entry_is_visible (file_entry e first size) = true.
Proof.
  unfold entry_is_visible, file_entry, entry_is_free. cbn. intros Hv.
  apply andb_true_iff in Hv as [Hv _]. apply andb_true_iff in Hv as [-> _]. done.
Qed.

(** The file's bytes are [data] now; its old clusters [ocs] are free, and
    everything else in use is as it was. *)
Record rewritten s s' (name : list Z) (f : found_entry) (ocs data : list Z) : Prop := {
  rw_ready : ready s';
  rw_hung : ft_hung s' = ft_hung s;
  rw_mirror : mirrored d fs s -> mirrored d fs s';
  rw_file : exists f', root_find s' name = Some f' /\ fd_index f' = fd_index f /\
    has_attr (fd_entry f') FAT_ATTR_DIRECTORY = false /\ file_data s' (fd_entry f') data;
  rw_entries : forall j, root_index j -> j <> fd_index f -> root_entry s' j = root_entry s j;
  rw_freed : forall c, c ∈ ocs -> tab s' c = 0;
  rw_used : forall c, in_vol fs c -> tab s c <> 0 -> c ∉ ocs -> tab s' c = tab s c /\
    forall l, clus fs c l -> sec s' l = sec s l;
}.

Lemma free_old_run s first cs : ready s -> chained s first cs ->
  run (if first =? 0 then mret tt else free_chain first) s (fun _ s' =>
    effect s s' (fun x => if decide (x ∈ cs) then 0 else tab s x) (nowhere)).
Proof.
  intros R [[-> ->]|(Hf & Hch & Hnd)].
  - apply run_ret. split; [done..| |done]. intros c Hc. rewrite decide_False; [done|apply not_elem_of_nil].
  - rewrite (proj2 (Z.eqb_neq first 0)) by done. by apply free_chain_run.
Qed.

Definition root_sectors (l : Z) : Prop := f_root_dir_sector fs <= l < f_first_data_sector fs.

(** The end of [fat16_write_file], from the new chain on. *)
Lemma replace_chain_run s s1 name f ocs first ncs data :
  ready s -> root_find s name = Some f -> owns s (fd_entry f) ocs ->
  is_u32 (Z.of_nat (length data)) -> 0 <= first < 2 ^ 16 -> chained s1 first ncs ->
  Forall (fun c => in_vol fs c /\ tab s c = 0) ncs ->
  (forall c, slot_ok fs c -> c ∉ ncs -> tab s1 c = tab s c) -> effect s s1 (tab s1) (clusters fs ncs) ->
  (length data <= csize * length ncs)%nat -> take (length data) (contents s1 ncs) = data ->
  run (_ ← (if entry_first_cluster (fd_entry f) =? 0 then mret tt else free_chain (entry_first_cluster (fd_entry f)));
       write_dir_entry_at (fd_dir_cluster f) (fd_index f) (file_entry (fd_entry f) first (Z.of_nat (length data)))) s1
    (fun rc s' => rc = 0 /\ rewritten s s' name f ocs data).
Proof.
  intros R Hfind Ho Hlen Hfirst Hch Hfree Hrest E1 Hfit Hcont.
  destruct (find_entry_found _ _ _ _ _ Hfind) as (Hi & Ef & Hn & Hv & Hagain).
  assert (root_index (fd_index f)) as Hri by (unfold root_index; destruct G; lia).
  pose proof (owns_vol _ _ _ Ho) as Hov. rewrite Forall_forall in Hov. rewrite Forall_forall in Hfree.
  assert (forall x, x ∈ ocs -> tab s x <> 0) as Hused.
  { destruct Ho as [[_ ->]|(_ & Hc & _)]; [by intros x ?%not_elem_of_nil|by eapply chain_used]. }
  assert (forall x, x ∈ ocs -> x ∉ ncs) as Hdis by (intros x Hx Hx'; by apply (Hused x Hx), Hfree).
  assert (chained s1 (entry_first_cluster (fd_entry f)) ocs) as Hoc.
  { destruct Ho as [?|(Hf0 & Hc & Hnd)]; [by left|right]. split_and!; [done| |done]. eapply chain_ext; [exact Hc|].
    intros x Hx. apply Hrest; [by apply in_vol_slot, Hov|by apply Hdis]. }
  run_step free_old_run as E2; [apply E1|exact Hoc|].
  rewrite Ef. cbn [fd_dir_cluster fd_index fd_entry].
  assert (entry_ok (file_entry (root_entry s (fd_index f)) first (Z.of_nat (length data)))) as Hok.
  { apply file_entry_ok; [by apply root_entry_ok|done|done]. }
  run_last root_write_run as (-> & E3 & Hent); [apply E2|done|exact Hok|]. split; [done|].
  assert (forall j, root_index j -> root_entry s' j = root_entry s j) as Hsame.
  { intros j Hj. unfold root_entry. destruct (root_bounds j Hj) as (L & B & _).
    rewrite (e_data _ _ _ _ _ _ E2), (e_data _ _ _ _ _ _ E1); [done|done| | |done| |]; try (unfold past_table; lia).
    - intros (x & Hx & Hl). destruct (clus_bounds d fs G x _ (proj1 (Hfree x Hx)) Hl) as (_ & _ & ?). lia.
    - intros []. }
  assert (forall x, slot_ok fs x -> tab s'0 x = if decide (x ∈ ocs) then 0 else tab s1 x) as Ht.
  { intros x Hx. rewrite (e_tab _ _ _ _ _ _ E3), (e_tab _ _ _ _ _ _ E2) by done. done. }
  assert (forall c l, in_vol fs c -> clus fs c l -> sec s'0 l = sec s1 l) as Hkeep.
  { intros c l Hc Hl. destruct (clus_bounds d fs G c l Hc Hl) as (L1 & L2 & L3).
    rewrite (e_data _ _ _ _ _ _ E3), (e_data _ _ _ _ _ _ E2); [done|done|done|by intros []|done|done|lia]. }
  split.
  - apply E3.
  - by rewrite (e_hung _ _ _ _ _ _ E3), (e_hung _ _ _ _ _ _ E2), (e_hung _ _ _ _ _ _ E1).
  - intros Hm. by apply E3, E2, E1.
  - eexists. split_and!.
    + apply Hagain.
      * intros j Hj. rewrite Hent by (unfold root_index in *; lia). rewrite decide_False by lia.
        apply Hsame. unfold root_index in *. lia.
      * rewrite Hent, decide_True by done. exact Hn.
      * rewrite Hent, decide_True by done. by apply file_entry_visible.
    + done.
    + cbn [fd_entry]. rewrite Hent, decide_True by done. done.
    + cbn [fd_entry]. rewrite Hent, decide_True by done.
      assert (forall x, x ∈ ncs -> in_vol fs x) as Hnv by (intros x Hx; by apply Hfree).
      exists ncs. split_and!; [|done|done|].
      * assert (entry_first_cluster (file_entry (root_entry s (fd_index f)) first (Z.of_nat (length data))) = first) as Hfc
          by (apply (first_cluster_set first (root_entry s (fd_index f))); done).
        unfold owns. rewrite Hfc. destruct Hch as [?|(? & Hc & ?)]; [by left|right]. split_and!; [done| |done].
        eapply chain_ext; [exact Hc|]. intros x Hx. rewrite Ht by by apply in_vol_slot, Hnv.
        rewrite decide_False; [done|]. intros Hx'. by apply (Hdis x Hx').
      * rewrite <- Hcont at 2. f_equal. apply (contents_ext d fs G); [by apply Forall_forall|].
        intros l (x & Hx & Hl). apply (Hkeep x); [by apply Hnv|done].
  - intros j Hj Hne. rewrite Hent, decide_False by done. by apply Hsame.
  - intros c Hc. rewrite Ht, decide_True by (done || by apply in_vol_slot, Hov). done.
  - intros c Hc Hz Hn'. assert (c ∉ ncs) as Hnn by (intros Hx; by apply Hz, Hfree).
    pose proof (in_vol_slot fs c Hc) as Hs. split; [rewrite Ht, decide_False by done; by apply Hrest|].
    intros l Hl. rewrite (Hkeep c) by done. destruct (clus_bounds d fs G c l Hc Hl) as (L1 & L2 & _).
    apply (e_data _ _ _ _ _ _ E1); [done|done|]. intros (x & Hx & Hl'). by rewrite (clus_apart d fs G c x l Hl Hl') in Hnn.
Qed.

(** ** Steps that only move the machine *)

Lemma moved_tab s s1 c : ready s -> moved s s1 (sec s) -> slot_ok fs c -> tab s1 c = tab s c.
Proof. intros R M Hc. pose proof (moved_effect d fs G _ _ R M) as E. by apply E. Qed.

Lemma moved_entry s s1 j : moved s s1 (sec s) -> root_index j -> root_entry s1 j = root_entry s j.
Proof. intros (_ & _ & Hs) Hj. unfold root_entry. rewrite Hs; [done|]. by apply root_bounds. Qed.

Lemma moved_find s s1 name : moved s s1 (sec s) -> root_find s1 name = root_find s name.
Proof.
  intros M. apply find_entry_ext. intros j Hj. apply (moved_entry _ _ _ M). unfold root_index. destruct G. lia.
Qed.

Lemma moved_owns s s1 e cs : ready s -> moved s s1 (sec s) -> owns s e cs -> owns s1 e cs.
Proof.
  intros R M Ho. pose proof (owns_vol _ _ _ Ho) as Hv. rewrite Forall_forall in Hv.
  destruct Ho as [?|(? & Hch & ?)]; [by left|right]. split_and!; [done| |done].
  eapply chain_ext; [exact Hch|]. intros x Hx. by apply moved_tab, in_vol_slot, Hv.
Qed.

Lemma moved_clus s s1 cs l : moved s s1 (sec s) -> Forall (in_vol fs) cs -> clusters fs cs l -> sec s1 l = sec s l.
Proof.
  intros (_ & _ & Hs) Hv (x & Hx & Hl). apply Hs.
  apply (clus_bounds d fs G x l); [by apply (proj1 (Forall_forall _ _) Hv)|done].
Qed.

Lemma moved_file s s1 e data : ready s -> moved s s1 (sec s) -> file_data s e data -> file_data s1 e data.
Proof.
  intros R M (cs & Ho & Hs & Hl & Hc). exists cs. split_and!; [by eapply moved_owns|done|done|].
  rewrite <- Hc at 2. f_equal. apply (contents_ext d fs G); [by eapply owns_vol|].
  intros l Hx. eapply moved_clus; [done|by eapply owns_vol|done].
Qed.

Lemma rewritten_moved s s1 s2 s3 name f ocs data : ready s -> Forall (in_vol fs) ocs ->
  moved s s1 (sec s) -> rewritten s1 s2 name f ocs data -> moved s2 s3 (sec s2) -> rewritten s s3 name f ocs data.
Proof.
  intros R Hov M1 [R2 U2 Mi (f' & Hf & Hi & Ha & Hd) He Hfr Hus] M3. pose proof (moved_effect d fs G _ _ R M1) as E1.
  pose proof (moved_effect d fs G _ _ R2 M3) as E3. rewrite Forall_forall in Hov. split.
  - apply E3.
  - by rewrite (e_hung _ _ _ _ _ _ E3), U2, (e_hung _ _ _ _ _ _ E1).
  - intros Hm. by apply E3, Mi, E1.
  - exists f'. rewrite (moved_find _ _ _ M3). split_and!; [done..|]. by eapply moved_file.
  - intros j Hj Hne. rewrite (moved_entry _ _ _ M3), He, (moved_entry _ _ _ M1) by done. done.
  - intros c Hc. rewrite (e_tab _ _ _ _ _ _ E3) by by apply in_vol_slot, Hov. by apply Hfr.
  - intros c Hc Hz Hn. pose proof (in_vol_slot fs c Hc) as Hs. pose proof (e_tab _ _ _ _ _ _ E1 c Hs) as Et.
    destruct (Hus c Hc) as [Ht Hl]; [by rewrite Et|done|]. split; [by rewrite (e_tab _ _ _ _ _ _ E3), Ht|].
    intros l Hcl. destruct (clus_bounds d fs G c l Hc Hcl) as (L & _ & _).
    destruct M1 as (_ & _ & Hs1), M3 as (_ & _ & Hs3). by rewrite Hs3, Hl, Hs1.
Qed.

Lemma no_room_moved s s1 s2 s3 data : ready s -> moved s s1 (sec s) -> no_room d fs s1 s2 data ->
  moved s2 s3 (sec s2) -> no_room d fs s s3 data.
Proof.
  intros R M1 (cs & (Nd & Hf & Ho) & Hl & E) M3. pose proof (moved_effect d fs G _ _ R M1) as E1.
  pose proof (moved_effect d fs G _ _ (e_ready _ _ _ _ _ _ E) M3) as E3.
  exists cs. split_and!; [split_and!; [done| |]|done|].
  - eapply Forall_impl; [exact Hf|]. intros c [Hv Hz]. split; [done|].
    by rewrite <- (e_tab _ _ _ _ _ _ E1) by by apply in_vol_slot.
  - intros c Hv Hz. apply Ho; [done|]. by rewrite (e_tab _ _ _ _ _ _ E1) by by apply in_vol_slot.
  - eapply effect_tab; [eapply effect_trans; [exact E1|eapply effect_trans; [exact E|exact E3|]|]|].
    + intros l [Hx|[]]. exact Hx.
    + intros l [[]|Hx]. exact Hx.
    + intros c Hc. rewrite (e_tab _ _ _ _ _ _ E), (e_tab _ _ _ _ _ _ E1) by done. done.
Qed.

Lemma run_bind_end {A B C} (m : state F A) (f : A -> state F B) (g : B -> state F C) s Q :
  run (mbind f m) s (fun b s' => run (g b) s' Q) -> run (x ← m; mbind g (f x)) s Q.
Proof.
  unfold run, mbind, state_bind. destruct (m s) as [a s1]. by destruct (f a s1).
Qed.

Lemma fat16_write_file_run s path name f ocs data flags : ready s -> root_path path name ->
  root_find s name = Some f -> has_attr (fd_entry f) FAT_ATTR_DIRECTORY = false -> owns s (fd_entry f) ocs ->
  bytes_ok data -> Z.of_nat (length data) + cluster_size_of fs < 2 ^ 32 -> Z.land flags VFS_O_APPEND = 0 ->
  run (fat16_write_file junk path data flags) s (fun rc s' =>
    (rc = 0 /\ rewritten s s' name f ocs data) \/ (rc = -1 /\ no_room d fs s s' data)).
Proof.
  intros R Hp Hf Hd Ho Hb Hl Hfl. pose proof (owns_vol _ _ _ Ho) as Hov. pose proof (csize_of d fs G) as Hcs.
  unfold fat16_write_file, lookup_or_create.
  eapply run_bind. run_step path_lookup_run as (M & ->); [done|exact Hp|]. rewrite Hf. apply run_ret. rewrite Hd.
  unfold fat_append_data. rewrite Hfl. cbn [Z.eqb]. eapply run_bind, run_ret.
  run_step write_new_chain_any as Hr; [by eapply moved_ready|done|done|]. destruct a as [first|].
  2: { run_step on_w_run as (M2 & _); [|apply kfree_quiet|].
       - destruct Hr as (cs & _ & _ & E). apply E.
       - apply run_ret. right. split; [done|]. by eapply no_room_moved. }
  destruct Hr as (Hfirst & ncs & Hch & Hfree & Hrest & E & Hfit & Hcont).
  rewrite u32_small by (unfold is_u32; lia). fold (file_entry (fd_entry f) first (Z.of_nat (length data))).
  apply run_bind_end. run_last (replace_chain_run s' s'0 name f ocs) as (-> & Rw).
  1: by eapply moved_ready. 1: by rewrite (moved_find _ _ _ M). 1: by eapply moved_owns.
  1: unfold is_u32; lia. all: try done.
  run_step on_w_run as (M2 & _); [apply Rw|apply kfree_quiet|]. apply run_ret. left. split; [done|].
  by eapply rewritten_moved.
Qed.
End Root.

(** C17: Writing a file of the root directory of a FAT16 volume and reading it
    back gives the bytes written.  The write ends (no loop hangs), releases
    exactly the file's old clusters, keeps every other directory entry, every
    other cluster in use and the mirroring of the table copies; it fails only
    when the free clusters cannot hold the data, and then nothing in use has
    changed.  The read fails only when the heap cannot hold the file. *)
Theorem fat16_write_read {W} `{MachineOk W} d fs junk (s : fat W) path name f ocs data flags :
  geometry d fs -> ready d fs s -> root_path path name ->
  root_find d fs s name = Some f -> has_attr (fd_entry f) FAT_ATTR_DIRECTORY = false ->
  owns d fs s (fd_entry f) ocs -> bytes_ok data ->
  Z.of_nat (length data) + cluster_size_of fs < 2 ^ 32 -> Z.land flags VFS_O_APPEND = 0 ->
  run (fat16_write_file junk path data flags) s (fun rc s' =>
    (rc = 0 /\ rewritten d fs s s' name f ocs data /\
     run (fat16_read_file junk path) s' (fun r _ =>
       (exists p, r = Some (p, data, Z.of_nat (length data))) \/
       (r = None /\ heap_failed d fs s' (u32 (Z.of_nat (length data) + 1))))) \/
    (rc = -1 /\ no_room d fs s s' data)).
Proof.
  intros G R Hp Hf Hd Ho Hb Hl Hfl.
  run_last (fat16_write_file_run d fs G junk) as [[-> Rw]|[-> Hn]]; [done|exact Hp|exact Hf|done|exact Ho|done|done|done|..].
  - left. split_and!; [done|done|]. destruct (rw_file _ _ _ _ _ _ _ _ Rw) as (f' & Hf' & _ & Hd' & Hdat).
    run_last (fat16_read_file_run d fs G junk) as (_ & Hr); [apply Rw|exact Hp|exact Hf'|done|exact Hdat|done].
  - by right.
Qed.
