(* ===== verification/Fat16Demo.v ===== *)
(** * A concrete FAT16 volume, names and termination

    8.3 names, the end of every walk over the table, and a small volume on the
    concrete machine on which the theorems of Fat16Files.v are used. *)

From stdpp Require Import strings.
From S2P Require Import Prelude Heap Time Machine Platform VfsTypes CLib Vfs Fat16 Fat16Table Fat16Files.

(** ** 8.3 names *)

Lemma tolower_toupper c : tolower (toupper c) = tolower c.
Proof.
  unfold tolower, toupper, isupper, islower.
  destruct (Z.leb_spec 97 c), (Z.leb_spec c 122), (Z.leb_spec 65 c), (Z.leb_spec c 90); cbn [andb];
    repeat match goal with |- context [?a <=? ?b] => destruct (Z.leb_spec a b) end; cbn [andb]; lia.
Qed.

Lemma toupper_blank c : (toupper c =? 32) = (c =? 32).
Proof.
  unfold toupper, islower. destruct (Z.leb_spec 97 c), (Z.leb_spec c 122); cbn [andb]; try done.
  rewrite (proj2 (Z.eqb_neq _ _)), (proj2 (Z.eqb_neq _ _)) by lia. done.
Qed.

(** Padding is cut off again. *)
Lemma before_blank_pad n s : existsb bad_char s = false -> before_blank (pad n (map toupper s)) = map toupper s.
Proof.
  unfold pad. generalize (n - length (map toupper s))%nat as k. induction s as [|c s IH]; intros k Hs; cbn [map app before_blank].
  - destruct k; done.
  - cbn [existsb] in Hs. apply orb_false_iff in Hs as [Hc Hs]. unfold bad_char in Hc. apply orb_false_iff in Hc as [_ Hc].
    rewrite toupper_blank, Hc. f_equal. by apply IH.
Qed.

Lemma ext_blank n s : existsb bad_char s = false ->
  existsb (fun c => negb (c =? 32)) (pad n (map toupper s)) = negb (bool_decide (s = [])).
Proof.
  intros Hs. unfold pad. destruct s as [|c s].
  - cbn. induction n as [|n IH]; [done|]. rewrite Nat.sub_0_r in IH. cbn. done.
  - cbn [map app existsb existsb] in *. apply orb_false_iff in Hs as [Hc _]. unfold bad_char in Hc.
    apply orb_false_iff in Hc as [_ Hc]. by rewrite toupper_blank, Hc.
Qed.

Lemma last_dot_split name k : last_dot name = Some k -> name = take k name ++ DOT :: drop (S k) name.
Proof.
  revert k. induction name as [|c name IH]; intros k Hk; [done|]. cbn [last_dot] in Hk.
  destruct (last_dot name) as [j|].
  - injection Hk as <-. cbn. f_equal. by apply IH.
  - destruct (Z.eqb_spec c DOT) as [->|]; [|done]. by injection Hk as <-.
Qed.

(** A name without its trailing dot, if it has one. *)
Definition undotted (name : list Z) : list Z :=
  match last_dot name with
  | Some k => if bool_decide (drop (S k) name = []) then take k name else name
  | None => name
  end.

Lemma length_pad n s : (length s <= n)%nat -> length (pad n s) = n.
Proof. intros Hs. unfold pad. len. Qed.

(** A name the driver accepts is stored in eleven bytes from which
    [name_from_83] gives it back in lower case (an empty extension loses its
    dot), so that readdir shows, up to case, the name a file was created with,
    and two names that differ in more than case never share an entry. *)
Theorem name_83_roundtrip name fat_name e :
  name_to_83 name = Some fat_name -> fe_name e = fat_name ->
  length fat_name = 11%nat /\ name_from_83 e = map tolower (undotted name).
Proof.
  intros Hn He. unfold name_to_83 in Hn. destruct (_ || is_dotdot name); [done|].
  set (base := match last_dot name with Some k => take k name | None => name end) in *.
  set (ext := match last_dot name with Some k => drop (S k) name | None => [] end) in *.
  destruct (_ || _ || _) eqn:El in Hn; [done|].
  destruct (existsb bad_char base) eqn:Eb; [done|]. destruct (existsb bad_char ext) eqn:Ee; [done|].
  injection Hn as Hn. apply orb_false_iff in El as [[_ L1]%orb_false_iff L2]. apply Z.ltb_ge in L1, L2.
  assert (length (pad 8 (map toupper base)) = 8%nat) as Hl8 by (apply length_pad; rewrite length_map; lia).
  assert (length (pad 3 (map toupper ext)) = 3%nat) as Hl3 by (apply length_pad; rewrite length_map; lia).
  split; [rewrite <- Hn, length_app; lia|]. unfold name_from_83. rewrite He, <- Hn.
  assert (sub (pad 8 (map toupper base) ++ pad 3 (map toupper ext)) 0 8 = pad 8 (map toupper base)) as ->.
  { unfold sub. rewrite drop_0, take_app_le, take_ge by lia. done. }
  assert (sub (pad 8 (map toupper base) ++ pad 3 (map toupper ext)) 8 3 = pad 3 (map toupper ext)) as ->.
  { unfold sub. rewrite drop_app_ge, Hl8 by lia. change (Z.to_nat 8 - 8)%nat with 0%nat. rewrite drop_0, take_ge by lia. done. }
  rewrite !before_blank_pad, ext_blank by done. rewrite !map_map.
  rewrite !(map_ext _ tolower tolower_toupper). unfold undotted, base, ext in *.
  destruct (last_dot name) as [k|] eqn:Ek; [|cbn; by rewrite app_nil_r].
  destruct (decide (drop (S k) name = [])) as [E0|E0].
  - rewrite bool_decide_eq_true_2, E0 by done. cbn. by rewrite app_nil_r.
  - rewrite bool_decide_eq_false_2 by done. cbn [negb]. rewrite (last_dot_split name k Ek) at 3.
    by rewrite map_app.
Qed.

Lemma name_83_roundtrip_witness :
  length (lit "README  TXT") = 11%nat /\
  name_from_83 (set_name (lit "README  TXT") zero_entry) = map tolower (undotted (lit "ReadMe.txt")).
Proof. apply (name_83_roundtrip (lit "ReadMe.txt")); vm_compute; reflexivity. Defined.

(** ** Releasing a damaged chain ends *)

Section Ends.
Context {W : Type} `{MachineOk W}.
Context (d : disk_device) (fs : fat16_fs) (G : geometry d fs).
Implicit Types (s : fat W) (t : Z -> Z).

(** Every link of the table stays on the volume or is an end mark. *)
Definition links t : Prop := forall c, in_vol fs c -> t c < f_max_cluster fs \/ FAT_EOC <= t c.

Definition in_use t : nat := length (filter (fun c => t c <> 0) (seqZ 2 (f_max_cluster fs - 2))).

Lemma filter_same t t' (l : list Z) : (forall x, x ∈ l -> t' x = t x) ->
  filter (fun c => t' c <> 0) l = filter (fun c => t c <> 0) l.
Proof.
  induction l as [|a l IH]; intros Hx; [done|]. rewrite !filter_cons, (Hx a), IH by (left || (intros; apply Hx; by right)).
  done.
Qed.

Lemma in_use_drop t t' c : in_vol fs c -> t c <> 0 -> t' c = 0 ->
  (forall x, in_vol fs x -> x <> c -> t' x = t x) -> (in_use t' < in_use t)%nat.
Proof.
  intros Hc Hz Hz' Ho. unfold in_use.
  assert (c ∈ seqZ 2 (f_max_cluster fs - 2)) as Hin by (apply elem_of_seqZ; unfold in_vol in Hc; lia).
  assert (forall x, x ∈ seqZ 2 (f_max_cluster fs - 2) -> x <> c -> t' x = t x) as Ho'.
  { intros x Hx. apply Ho. apply elem_of_seqZ in Hx. unfold in_vol. lia. }
  clear Hc Ho. pose proof (NoDup_seqZ 2 (f_max_cluster fs - 2)) as Hnd.
  induction (seqZ 2 (f_max_cluster fs - 2)) as [|a l IH]; [by apply not_elem_of_nil in Hin|].
  apply NoDup_cons in Hnd as [Hna Hnd]. rewrite !filter_cons. destruct (decide (a = c)) as [->|Hac].
  - rewrite (decide_False (P := t' c <> 0)), (decide_True (P := t c <> 0)) by (done || by intros []). cbn [length].
    assert (filter (fun c0 => t' c0 <> 0) l = filter (fun c0 => t c0 <> 0) l) as ->; [|lia].
    apply filter_same. intros x Hx. rewrite Ho'; [done|by right|]. by intros ->.
  - apply elem_of_cons in Hin as [?|Hin]; [done|]. rewrite (Ho' a) by (done || left).
    specialize (IH Hin ltac:(intros x Hx; apply Ho'; by right) Hnd). case_decide; cbn [length]; lia.
Qed.

Lemma in_use_bound t : (in_use t < chain_turns)%nat.
Proof.
  unfold in_use. pose proof (length_filter (fun c => t c <> 0) (seqZ 2 (f_max_cluster fs - 2))) as Hl.
  rewrite length_seqZ in Hl. unfold chain_turns. destruct G. unfold FAT_EOC in *. lia.
Qed.

Lemma free_chain_loop_ends n : forall s c, ready d fs s -> links (tab d fs s) ->
  c < f_max_cluster fs \/ FAT_EOC <= c -> (in_use (tab d fs s) < n)%nat ->
  run (free_chain_loop n c) s (fun _ s' => ready d fs s' /\ ft_hung s' = ft_hung s).
Proof.
  induction n as [|n IH]; intros s c R Hl Hc Hn; [lia|]. cbn [free_chain_loop].
  destruct ((2 <=? c) && (c <? FAT_EOC)) eqn:Ec; [|by apply run_ret].
  apply andb_true_iff in Ec as [E1%Z.leb_le E2%Z.ltb_lt].
  assert (in_vol fs c) as Hv by (unfold in_vol; lia). pose proof (in_vol_slot fs c Hv) as Hs.
  run_step (fat_read_run d fs G) as (-> & M); [done|done|]. fold (tab d fs s c).
  pose proof (moved_effect d fs G _ _ R M) as Em.
  run_step (fat_write_run d fs G) as (_ & Ew); [apply Em|done|unfold is_u16, FAT_FREE; lia|].
  assert (forall x, in_vol fs x -> tab d fs s'0 x = if decide (x = c) then 0 else tab d fs s x) as Ht.
  { intros x Hx%in_vol_slot. rewrite (e_tab _ _ _ _ _ _ Ew) by done. unfold upd_tab.
    case_decide; [done|]. by apply Em. }
  assert (ft_hung s'0 = ft_hung s) as Hu by (rewrite (e_hung _ _ _ _ _ _ Ew); apply Em).
  destruct ((FAT_EOC <=? tab d fs s c) || (tab d fs s c =? 0)) eqn:En.
  { apply run_ret. split; [apply Ew|done]. }
  apply orb_false_iff in En as [N1%Z.leb_gt N2%Z.eqb_neq].
  run_last IH as (R' & ->); [apply Ew| | | |done].
  - intros x Hx. rewrite Ht by done. case_decide; [destruct G; lia|by apply Hl].
  - left. destruct (Hl c Hv); lia.
  - enough (in_use (tab d fs s'0) < in_use (tab d fs s))%nat by lia.
    apply (in_use_drop _ _ c); [done|done|by rewrite Ht, decide_True|].
    intros x Hx Hne. rewrite Ht, decide_False by done. done.
Qed.
End Ends.


(** ** A small volume *)

(** 20 sectors: the boot sector, two tables, one sector of root directory, and
    16 clusters of one sector.  "/A.TXT" holds "abc" in cluster 2; cluster 3 is
    linked to itself. *)
Definition demo_boot : list Z :=
  let b := put (zeros 512) 11 [0; 2; 1; 1; 0; 2; 16; 0; 20; 0; 0xF8; 1; 0] in
  put b 510 [0x55; 0xAA].
Definition demo_table : list Z := put (zeros 512) 0 [0xF8; 0xFF; 0xFF; 0xFF; 0xFF; 0xFF; 3; 0].
Definition demo_file : fat_dir_entry :=
  set_size 3 (entry_set_first_cluster 2 (set_attr FAT_ATTR_ARCHIVE (set_name (lit "A       TXT") zero_entry))).
Definition demo_root : list Z := put (zeros 512) 0 (bytes_of_entry demo_file).

Definition demo_disk : platform :=
  mk_platform (<[(false, 0) := demo_boot]> (<[(false, 1) := demo_table]> (<[(false, 2) := demo_table]>
    (<[(false, 3) := demo_root]> (<[(false, 4) := put (zeros 512) 0 (lit "abc")]> ∅)))))
    (fun _ => []) (Heap.heap_init 0x100000) Time.demo_cmos 0 0.

Definition demo_fs : fat16_fs := mk_fs (Some ata0) true 512 1 1 2 16 1 20 1 1 3 4 18.
Definition no_junk (p n : Z) : list Z := [].

(** The state after [fat16_mount]. *)
Definition demo_fat : fat platform := (fat16_mount (Some ata0) (mk_fat (empty_fs None) demo_disk false)).2.

Lemma demo_mounted : (fat16_mount (Some ata0) (mk_fat (empty_fs None) demo_disk false)).1 = Some 0 /\
  ft_fs demo_fat = demo_fs /\ ft_hung demo_fat = false.
Proof. vm_compute. repeat split. Qed.

Lemma demo_geometry : geometry ata0 demo_fs.
Proof. split; vm_compute; repeat split; congruence. Qed.

Lemma demo_ready : ready ata0 demo_fs demo_fat.
Proof. split; [vm_compute; reflexivity|]. vm_compute. constructor. Qed.

Lemma demo_find : root_find ata0 demo_fs demo_fat (lit "A       TXT") = Some (mk_found demo_file 0 0 true).
Proof. vm_compute. reflexivity. Qed.

Lemma demo_path : root_path (lit "/a.txt") (lit "A       TXT").
Proof. exists (lit "a.txt"), (lit "a.txt"). vm_compute. repeat split; congruence. Qed.

Lemma demo_owns : owns ata0 demo_fs demo_fat demo_file [2].
Proof.
  right. split_and!; [vm_compute; congruence| |apply NoDup_singleton].
  apply chain_end; vm_compute; [split; congruence|congruence].
Qed.

Lemma demo_links : links demo_fs (tab ata0 demo_fs demo_fat).
Proof.
  intros c Hc. assert (c ∈ seqZ 2 16) as Hin by (apply elem_of_seqZ; unfold in_vol in Hc; cbn in Hc; lia).
  clear Hc. revert c Hin. apply Forall_forall. refine (bool_decide_unpack _ _). vm_compute. exact I.
Qed.


Lemma fat16_write_read_witness :
  let data := replicate 600 65 in
  run (fat16_write_file no_junk (lit "/a.txt") data 0) demo_fat (fun rc s' =>
    (rc = 0 /\ rewritten ata0 demo_fs demo_fat s' (lit "A       TXT") (mk_found demo_file 0 0 true) [2] data /\
     run (fat16_read_file no_junk (lit "/a.txt")) s' (fun r _ =>
       (exists p, r = Some (p, data, Z.of_nat (length data))) \/
       (r = None /\ heap_failed ata0 demo_fs s' (u32 (Z.of_nat (length data) + 1))))) \/
    (rc = -1 /\ no_room ata0 demo_fs demo_fat s' data)) /\
  (fat16_write_file no_junk (lit "/a.txt") data 0 demo_fat).1 = 0.
Proof.
  intros data. split; [|vm_compute; reflexivity].
  apply (fat16_write_read ata0 demo_fs no_junk demo_fat (lit "/a.txt") (lit "A       TXT")
    (mk_found demo_file 0 0 true) [2] data 0 demo_geometry demo_ready demo_path demo_find).
  - vm_compute. reflexivity.
  - exact demo_owns.
  - refine (bool_decide_unpack _ _). vm_compute. exact I.
  - vm_compute. reflexivity.
  - reflexivity.
Defined.

(** Renaming the root directory of a FAT16 volume ("/" to "/b") reports
    success and destroys the first entry of the root directory: [path_lookup]
    gives the root no entry of its own but index 0, which [fat16_rename] then
    marks as deleted.  The file "/a.txt" can no longer be found. *)
Theorem rename_root_loses_file :
  let '(rc, s) := fat16_rename (lit "/") (lit "/b") demo_fat in
  is_Some (path_lookup (lit "/a.txt") demo_fat).1 /\ rc = 0 /\ (path_lookup (lit "/a.txt") s).1 = None.
Proof. vm_compute. split; [eexists; reflexivity|split; reflexivity]. Qed.

(** A boot sector with zero sectors per cluster passes every check of
    [fat16_mount] and makes it divide by zero. *)
Lemma mount_divides_by_zero :
  (fat16_mount (Some ata0) (mk_fat (empty_fs None)
     (mk_platform {[ (false, 0) := put demo_boot 13 [0] ]} (fun _ => []) (Heap.heap_init 0x100000) Time.demo_cmos 0 0)
     false)).1 = None.
Proof. vm_compute. reflexivity. Qed.
