(* ===== verification/Ext2Layout.v ===== *)
(** * EXT2 on-disk structures (fs/ext2/ext2.h)

    The packed structures of the driver as field lists with their widths,
    the codec between an in-memory [ext2_inode] and its 128 bytes, and the
    accessors the code uses on raw superblock, group-descriptor and directory
    buffers.  The round-trip theorems show that [memcpy] of a structure loses
    nothing. *)

From S2P Require Import Prelude Machine.

(** ** Packed structures *)

(** A packed struct is the concatenation of its little-endian fields. *)
Fixpoint pack (ws : list nat) (vs : list Z) : list Z :=
  match ws, vs with
  | w :: ws, v :: vs => le_bytes w v ++ pack ws vs
  | _, _ => []
  end.

Fixpoint unpack (ws : list nat) (b : list Z) : list Z :=
  match ws with
  | [] => []
  | w :: ws => le_val (take w b) :: unpack ws (drop w b)
  end.

Definition packed_size (ws : list nat) : nat := sum_list ws.

Definition field_ok (w : nat) (v : Z) : Prop := 0 <= v < 256 ^ Z.of_nat w.

Lemma unpack_pack ws vs : Forall2 field_ok ws vs -> unpack ws (pack ws vs) = vs.
Proof.
  induction 1 as [|w v ws vs Hv Hvs IH]; simpl; [done|].
  rewrite take_app_length', drop_app_length' by (by rewrite length_le_bytes).
  rewrite le_val_le_bytes, IH, Z.mod_small by done. done.
Qed.

Lemma length_pack ws vs : length ws = length vs -> length (pack ws vs) = packed_size ws.
Proof.
  revert vs. induction ws as [|w ws IH]; intros [|v vs] E; simpl; try done.
  rewrite length_app, length_le_bytes, IH by (simpl in E; lia). done.
Qed.

Lemma pack_unpack ws b :
  bytes_ok b -> length b = packed_size ws -> pack ws (unpack ws b) = b.
Proof.
  revert b. induction ws as [|w ws IH]; intros b Hb Hl; simpl in *.
  - by destruct b.
  - assert (length (take w b) = w) as Hw by (rewrite length_take; lia).
    rewrite IH; [| by apply Forall_drop | rewrite length_drop; unfold packed_size in *; lia].
    rewrite <- Hw at 1. rewrite le_bytes_le_val by (by apply Forall_take).
    apply take_drop.
Qed.

Lemma pack_ok ws vs : bytes_ok (pack ws vs).
Proof.
  revert vs. induction ws as [|w ws IH]; intros [|v vs]; simpl; try apply Forall_nil_2.
  apply Forall_app_2; [apply le_bytes_ok | apply IH].
Qed.

Lemma length_unpack ws b : length (unpack ws b) = length ws.
Proof. revert b. induction ws; intros; simpl; auto. Qed.

Lemma unpack_ok ws b :
  bytes_ok b -> length b = packed_size ws -> Forall2 field_ok ws (unpack ws b).
Proof.
  revert b. induction ws as [|w ws IH]; intros b Hb Hl; simpl in *; constructor.
  - pose proof (le_val_bound (take w b) (Forall_take _ _ _ Hb)) as B.
    rewrite length_take, Nat.min_l in B by lia. done.
  - apply IH; [by apply Forall_drop|]. rewrite length_drop. unfold packed_size in *. lia.
Qed.

(** ** Constants *)

Definition EXT2_MAGIC : Z := 0xEF53.
Definition EXT2_ROOT_INODE : Z := 2.
Definition EXT2_MIN_INODE_SIZE : Z := 128.
Definition EXT2_DYNAMIC_REV : Z := 1.
Definition EXT2_SUPPORTED_INCOMPAT : Z := 2.
Definition EXT2_S_IFREG : Z := 0x8000.
Definition EXT2_S_IFDIR : Z := 0x4000.
Definition EXT2_S_IFLNK : Z := 0xA000.
Definition EXT2_S_IFMT : Z := 0xF000.
Definition EXT2_FT_REG_FILE : Z := 1.
Definition EXT2_FT_DIR : Z := 2.
Definition EXT2_FT_SYMLINK : Z := 7.

(** ** Inodes (128 bytes) *)

Record ext2_inode := mk_inode {
  i_mode : Z; i_uid : Z; i_size : Z; i_atime : Z; i_ctime : Z; i_mtime : Z;
  i_dtime : Z; i_gid : Z; i_links_count : Z; i_blocks : Z; i_flags : Z; i_osd1 : Z;
  i_block : list Z;       (* 15 block pointers *)
  i_generation : Z; i_file_acl : Z; i_dir_acl : Z; i_faddr : Z;
  i_osd2 : list Z;        (* 12 bytes *)
}.

Definition inode_widths : list nat :=
  [2; 2; 4; 4; 4; 4; 4; 2; 2; 4; 4; 4]%nat ++ replicate 15 4%nat ++
  [4; 4; 4; 4]%nat ++ replicate 12 1%nat.

Definition inode_fields (i : ext2_inode) : list Z :=
  [i_mode i; i_uid i; i_size i; i_atime i; i_ctime i; i_mtime i; i_dtime i;
   i_gid i; i_links_count i; i_blocks i; i_flags i; i_osd1 i] ++ i_block i ++
  [i_generation i; i_file_acl i; i_dir_acl i; i_faddr i] ++ i_osd2 i.

Definition inode_of_fields (f : list Z) : ext2_inode :=
  let g k := default 0 (f !! k) in
  mk_inode (g 0%nat) (g 1%nat) (g 2%nat) (g 3%nat) (g 4%nat) (g 5%nat) (g 6%nat) (g 7%nat)
    (g 8%nat) (g 9%nat) (g 10%nat) (g 11%nat) (take 15 (drop 12 f))
    (g 27%nat) (g 28%nat) (g 29%nat) (g 30%nat) (take 12 (drop 31 f)).

(** [memcpy(buf, in, EXT2_MIN_INODE_SIZE)] and [memcpy(out, buf, EXT2_MIN_INODE_SIZE)]. *)
Definition inode_encode (i : ext2_inode) : list Z := pack inode_widths (inode_fields i).
Definition inode_decode (b : list Z) : ext2_inode := inode_of_fields (unpack inode_widths b).

(** [memset(&inode, 0, sizeof(inode))]. *)
Definition inode_zero : ext2_inode :=
  mk_inode 0 0 0 0 0 0 0 0 0 0 0 0 (replicate 15 0) 0 0 0 0 (replicate 12 0).

(** The fields hold values of their C types. *)
Definition inode_wf (i : ext2_inode) : Prop :=
  length (i_block i) = 15%nat /\ length (i_osd2 i) = 12%nat /\
  Forall2 field_ok inode_widths (inode_fields i).

Section InodeCodec.
Lemma inode_fields_inv i :
  length (i_block i) = 15%nat -> length (i_osd2 i) = 12%nat ->
  inode_of_fields (inode_fields i) = i.
Proof.
  destruct i as [m u sz at_ ct mt dt g lc bl fl o1 blk ge fa da fd o2]; simpl.
  intros H1 H2.
  do 15 (destruct blk as [|? blk]; [discriminate|]). destruct blk; [|discriminate].
  do 12 (destruct o2 as [|? o2]; [discriminate|]). destruct o2; [|discriminate].
  reflexivity.
Qed.

Lemma inode_decode_encode i : inode_wf i -> inode_decode (inode_encode i) = i.
Proof.
  intros (H1 & H2 & H3). unfold inode_decode, inode_encode.
  rewrite unpack_pack by done. by apply inode_fields_inv.
Qed.

Lemma length_inode_encode i :
  length (i_block i) = 15%nat -> length (i_osd2 i) = 12%nat ->
  length (inode_encode i) = 128%nat.
Proof.
  intros H1 H2. unfold inode_encode. rewrite length_pack; [reflexivity|].
  unfold inode_fields. rewrite !length_app, H1, H2. reflexivity.
Qed.

Lemma inode_encode_ok i : bytes_ok (inode_encode i).
Proof. apply pack_ok. Qed.

Lemma inode_fields_of f :
  length f = 43%nat -> inode_fields (inode_of_fields f) = f.
Proof.
  intros H. do 43 (destruct f as [|? f]; [discriminate|]). destruct f; [|discriminate].
  reflexivity.
Qed.

Lemma inode_encode_decode b :
  bytes_ok b -> length b = 128%nat -> inode_encode (inode_decode b) = b.
Proof.
  intros Hb Hl. unfold inode_encode, inode_decode.
  rewrite inode_fields_of by (rewrite length_unpack; reflexivity).
  by apply pack_unpack.
Qed.

Lemma inode_decode_wf b : bytes_ok b -> length b = 128%nat -> inode_wf (inode_decode b).
Proof.
  intros Hb Hl. unfold inode_decode.
  pose proof (length_unpack inode_widths b) as L.
  split_and!.
  - cbn [i_block inode_of_fields]. rewrite length_take, length_drop, L. reflexivity.
  - cbn [i_osd2 inode_of_fields]. rewrite length_take, length_drop, L. reflexivity.
  - rewrite inode_fields_of by (rewrite L; reflexivity). by apply unpack_ok.
Qed.

Lemma inode_zero_wf : inode_wf inode_zero.
Proof.
  split_and!; try reflexivity.
  apply Forall2_same_length_lookup. split; [reflexivity|].
  intros k w v Hw Hv. unfold field_ok.
  assert (v = 0) as ->.
  { apply (Forall_lookup_1 (fun x => x = 0) (inode_fields inode_zero) k); [|done].
    repeat constructor. }
  split; [lia|]. apply Z.pow_pos_nonneg; lia.
Qed.
End InodeCodec.

(** Assignments to inode fields. *)
Definition set_i_size (v : Z) (i : ext2_inode) : ext2_inode :=
  mk_inode (i_mode i) (i_uid i) v (i_atime i) (i_ctime i) (i_mtime i) (i_dtime i) (i_gid i)
    (i_links_count i) (i_blocks i) (i_flags i) (i_osd1 i) (i_block i) (i_generation i)
    (i_file_acl i) (i_dir_acl i) (i_faddr i) (i_osd2 i).
Definition set_i_atime (v : Z) (i : ext2_inode) : ext2_inode :=
  mk_inode (i_mode i) (i_uid i) (i_size i) v (i_ctime i) (i_mtime i) (i_dtime i) (i_gid i)
    (i_links_count i) (i_blocks i) (i_flags i) (i_osd1 i) (i_block i) (i_generation i)
    (i_file_acl i) (i_dir_acl i) (i_faddr i) (i_osd2 i).
Definition set_i_ctime (v : Z) (i : ext2_inode) : ext2_inode :=
  mk_inode (i_mode i) (i_uid i) (i_size i) (i_atime i) v (i_mtime i) (i_dtime i) (i_gid i)
    (i_links_count i) (i_blocks i) (i_flags i) (i_osd1 i) (i_block i) (i_generation i)
    (i_file_acl i) (i_dir_acl i) (i_faddr i) (i_osd2 i).
Definition set_i_mtime (v : Z) (i : ext2_inode) : ext2_inode :=
  mk_inode (i_mode i) (i_uid i) (i_size i) (i_atime i) (i_ctime i) v (i_dtime i) (i_gid i)
    (i_links_count i) (i_blocks i) (i_flags i) (i_osd1 i) (i_block i) (i_generation i)
    (i_file_acl i) (i_dir_acl i) (i_faddr i) (i_osd2 i).
Definition set_i_links_count (v : Z) (i : ext2_inode) : ext2_inode :=
  mk_inode (i_mode i) (i_uid i) (i_size i) (i_atime i) (i_ctime i) (i_mtime i) (i_dtime i)
    (i_gid i) v (i_blocks i) (i_flags i) (i_osd1 i) (i_block i) (i_generation i)
    (i_file_acl i) (i_dir_acl i) (i_faddr i) (i_osd2 i).
Definition set_i_blocks (v : Z) (i : ext2_inode) : ext2_inode :=
  mk_inode (i_mode i) (i_uid i) (i_size i) (i_atime i) (i_ctime i) (i_mtime i) (i_dtime i)
    (i_gid i) (i_links_count i) v (i_flags i) (i_osd1 i) (i_block i) (i_generation i)
    (i_file_acl i) (i_dir_acl i) (i_faddr i) (i_osd2 i).
Definition set_i_block (v : list Z) (i : ext2_inode) : ext2_inode :=
  mk_inode (i_mode i) (i_uid i) (i_size i) (i_atime i) (i_ctime i) (i_mtime i) (i_dtime i)
    (i_gid i) (i_links_count i) (i_blocks i) (i_flags i) (i_osd1 i) v (i_generation i)
    (i_file_acl i) (i_dir_acl i) (i_faddr i) (i_osd2 i).

(** [inode->i_block[k]] and [inode->i_block[k] = v]. *)
Definition i_block_at (i : ext2_inode) (k : Z) : Z := default 0 (i_block i !! Z.to_nat k).
Definition set_i_block_at (k v : Z) (i : ext2_inode) : ext2_inode :=
  set_i_block (<[Z.to_nat k := v]> (i_block i)) i.

Definition inode_is (ty : Z) (i : ext2_inode) : bool := Z.land (i_mode i) EXT2_S_IFMT =? ty.

(** ** Inode fields *)

Lemma inode_wf_iff i :
  inode_wf i <->
  length (i_block i) = 15%nat /\ length (i_osd2 i) = 12%nat /\
  Forall2 field_ok [2; 2; 4; 4; 4; 4; 4; 2; 2; 4; 4; 4]%nat
    [i_mode i; i_uid i; i_size i; i_atime i; i_ctime i; i_mtime i; i_dtime i;
     i_gid i; i_links_count i; i_blocks i; i_flags i; i_osd1 i] /\
  Forall is_u32 (i_block i) /\
  Forall2 field_ok [4; 4; 4; 4]%nat [i_generation i; i_file_acl i; i_dir_acl i; i_faddr i] /\
  Forall is_u8 (i_osd2 i).
Proof.
  assert (forall (l : list Z) w, Forall2 field_ok (replicate (length l) w) l <-> Forall (field_ok w) l) as Hr.
  { intros l w. induction l as [|x l IH]; simpl; [split; constructor|].
    by rewrite Forall2_cons, Forall_cons, IH. }
  pose proof (Hr (i_block i) 4%nat) as H4. pose proof (Hr (i_osd2 i) 1%nat) as H1.
  unfold inode_wf, inode_widths, inode_fields. split.
  - intros (L1 & L2 & HF). rewrite L1 in H4. rewrite L2 in H1.
    apply Forall2_app_inv in HF as [HF1 HF]; [|done].
    apply Forall2_app_inv in HF as [HF2 HF]; [|by rewrite length_replicate].
    apply Forall2_app_inv in HF as [HF3 HF4]; [|done].
    split_and!; try done; [by apply H4|by apply H1].
  - intros (L1 & L2 & HF1 & HF2 & HF3 & HF4). rewrite L1 in H4. rewrite L2 in H1.
    split_and!; [done|done|]. repeat apply Forall2_app; try done; [by apply H4|by apply H1].
Qed.

(** Only the block map and the sector count differ. *)
Definition same_attrs (i i' : ext2_inode) : Prop :=
  i' = set_i_blocks (i_blocks i') (set_i_block (i_block i') i).

#[global] Instance same_attrs_preorder : PreOrder same_attrs.
Proof.
  split; [by intros []|]. unfold same_attrs. intros i1 i2 i3 E1 E2. rewrite E2, E1. done.
Qed.

Lemma inode_wf_map i l n :
  inode_wf i -> length l = 15%nat -> Forall is_u32 l -> is_u32 n ->
  inode_wf (set_i_blocks n (set_i_block l i)).
Proof.
  intros Hw Hl HF Hn. apply inode_wf_iff in Hw as (L1 & L2 & HF1 & HF2 & HF3 & HF4).
  apply inode_wf_iff. cbn. split_and!; try done.
  do 12 (apply Forall2_cons in HF1 as [? HF1]). repeat (apply Forall2_cons_2; [done|]). done.
Qed.

Lemma i_block_u32 i k : inode_wf i -> is_u32 (i_block_at i k).
Proof.
  intros Hw. apply inode_wf_iff in Hw as (_ & _ & _ & HF & _). unfold i_block_at.
  destruct (i_block i !! _) as [x|] eqn:E; [by eapply Forall_lookup_1|]. unfold is_u32. simpl. lia.
Qed.

Lemma i_block_at_set i k x k' :
  inode_wf i -> 0 <= k < 15 -> 0 <= k' ->
  i_block_at (set_i_block_at k x i) k' = if decide (k' = k) then x else i_block_at i k'.
Proof.
  intros (L1 & _) Hk Hk'. unfold i_block_at, set_i_block_at. cbn [i_block set_i_block].
  case_decide as D; [subst k'; by rewrite list_lookup_insert_eq by lia|].
  by rewrite list_lookup_insert_ne by lia.
Qed.

(** ** Superblock fields (offsets in the 1024-byte superblock) *)

Definition s_inodes_count (raw : list Z) : Z := get_le 4 raw 0.
Definition s_blocks_count (raw : list Z) : Z := get_le 4 raw 4.
Definition s_free_blocks_count (raw : list Z) : Z := get_le 4 raw 12.
Definition s_free_inodes_count (raw : list Z) : Z := get_le 4 raw 16.
Definition s_first_data_block (raw : list Z) : Z := get_le 4 raw 20.
Definition s_log_block_size (raw : list Z) : Z := get_le 4 raw 24.
Definition s_blocks_per_group (raw : list Z) : Z := get_le 4 raw 32.
Definition s_inodes_per_group (raw : list Z) : Z := get_le 4 raw 40.
Definition s_magic (raw : list Z) : Z := get_le 2 raw 56.
Definition s_rev_level (raw : list Z) : Z := get_le 4 raw 76.
Definition s_inode_size (raw : list Z) : Z := get_le 2 raw 88.
Definition s_feature_incompat (raw : list Z) : Z := get_le 4 raw 96.

(** ** Block group descriptors (32 bytes each) *)

Definition BGDT_ENTRY_SIZE : Z := 32.
Definition bg_block_bitmap (bgdt : list Z) (g : Z) : Z := get_le 4 bgdt (32 * g).
Definition bg_inode_bitmap (bgdt : list Z) (g : Z) : Z := get_le 4 bgdt (32 * g + 4).
Definition bg_inode_table (bgdt : list Z) (g : Z) : Z := get_le 4 bgdt (32 * g + 8).
Definition bg_free_blocks_count (bgdt : list Z) (g : Z) : Z := get_le 2 bgdt (32 * g + 12).
Definition bg_free_inodes_count (bgdt : list Z) (g : Z) : Z := get_le 2 bgdt (32 * g + 14).
Definition bg_used_dirs_count (bgdt : list Z) (g : Z) : Z := get_le 2 bgdt (32 * g + 16).

(** The counters are [uint16_t]: increments and decrements wrap. *)
Definition add_free_blocks (bgdt : list Z) (g d : Z) : list Z :=
  put_le 2 bgdt (32 * g + 12) (u16 (bg_free_blocks_count bgdt g + d)).
Definition add_free_inodes (bgdt : list Z) (g d : Z) : list Z :=
  put_le 2 bgdt (32 * g + 14) (u16 (bg_free_inodes_count bgdt g + d)).
Definition add_used_dirs (bgdt : list Z) (g d : Z) : list Z :=
  put_le 2 bgdt (32 * g + 16) (u16 (bg_used_dirs_count bgdt g + d)).

(** ** Directory entries (8-byte header, then the name) *)

Definition DIRENT_SIZE : Z := 8.
Definition de_inode (buf : list Z) (off : Z) : Z := get_le 4 buf off.
Definition de_rec_len (buf : list Z) (off : Z) : Z := get_le 2 buf (off + 4).
Definition de_name_len (buf : list Z) (off : Z) : Z := byte_at buf (off + 6).
Definition de_file_type (buf : list Z) (off : Z) : Z := byte_at buf (off + 7).
Definition de_name (buf : list Z) (off : Z) : list Z := sub buf (off + 8) (de_name_len buf off).

(** ** In-memory file-system state *)

(** [bgdt] is the [kmalloc]'d copy of the descriptor table, whole blocks long,
    with the heap pointer it lives at; [None] is NULL. *)
Record ext2_fs := mk_ext2_fs {
  fs_disk : option disk_device;
  fs_mounted : bool;
  fs_block_size : Z;
  fs_sectors_per_block : Z;
  fs_inodes_per_group : Z;
  fs_blocks_per_group : Z;
  fs_inode_size : Z;
  fs_first_data_block : Z;
  fs_num_groups : Z;
  fs_total_inodes : Z;
  fs_total_blocks : Z;
  fs_rev_level : Z;
  fs_bgdt_block : Z;
  fs_bgdt_blocks : Z;
  fs_bgdt : option (Z * list Z);
}.

(** [memset(&g_ext2_fs, 0, sizeof(g_ext2_fs))]. *)
Definition ext2_fs_zero : ext2_fs :=
  mk_ext2_fs None false 0 0 0 0 0 0 0 0 0 0 0 0 None.

Definition set_fs_bgdt (b : option (Z * list Z)) (fs : ext2_fs) : ext2_fs :=
  mk_ext2_fs (fs_disk fs) (fs_mounted fs) (fs_block_size fs) (fs_sectors_per_block fs)
    (fs_inodes_per_group fs) (fs_blocks_per_group fs) (fs_inode_size fs)
    (fs_first_data_block fs) (fs_num_groups fs) (fs_total_inodes fs) (fs_total_blocks fs)
    (fs_rev_level fs) (fs_bgdt_block fs) (fs_bgdt_blocks fs) b.

Definition set_fs_mounted (m : bool) (fs : ext2_fs) : ext2_fs :=
  mk_ext2_fs (fs_disk fs) m (fs_block_size fs) (fs_sectors_per_block fs)
    (fs_inodes_per_group fs) (fs_blocks_per_group fs) (fs_inode_size fs)
    (fs_first_data_block fs) (fs_num_groups fs) (fs_total_inodes fs) (fs_total_blocks fs)
    (fs_rev_level fs) (fs_bgdt_block fs) (fs_bgdt_blocks fs) (fs_bgdt fs).

(** The bytes behind [fs->bgdt] (read only where the code has a table). *)
Definition bgdt_bytes (fs : ext2_fs) : list Z :=
  match fs_bgdt fs with Some (_, b) => b | None => [] end.
Definition set_bgdt_bytes (b : list Z) (fs : ext2_fs) : ext2_fs :=
  set_fs_bgdt ((fun p => (p.1, b)) <$> fs_bgdt fs) fs.
