(* ===== verification/Ext2Block.v ===== *)
(** * EXT2 block layer (fs/ext2/block.c)

    The four-slot LRU block cache over the sectors of the mounted disk.
    [ext2_read_block] returns a pointer into the cache, modelled as the slot
    index: the bytes are read through the cache at the time of use
    ([deref]), so a pointer that outlives its slot would read someone else's
    block.  The invariant is coherence (every used slot holds what the disk
    holds, no block is cached twice); reads preserve it whatever the disk
    answers, writes preserve it when they succeed, and the two together
    refine an uncached array of blocks. *)

From S2P Require Import Prelude Machine VfsTypes Ext2Layout.

Definition EXT2_BLOCK_CACHE_SLOTS : nat := 4.
Definition EXT2_BLOCK_SIZE_MAX : Z := 4096.

(** [block_cache_slot_t]: block number 0 marks an empty slot. *)
Record cache_slot := mk_slot { blk_no : Z; lru_seq : Z; slot_data : list Z }.

(** The static variables of the driver and the machine below it. *)
Record ext2 (W : Type) := mk_ext2 {
  e_fs : ext2_fs;
  g_cache : list cache_slot;
  g_lru_seq : Z;
  e_w : W;
}.
Arguments mk_ext2 {W}. Arguments e_fs {W}. Arguments g_cache {W}.
Arguments g_lru_seq {W}. Arguments e_w {W}.

Section Block.
Context {W : Type} `{Machine W}.
Abbreviation E := (ext2 W).

Definition set_e_fs (f : ext2_fs) (s : E) : E := mk_ext2 f (g_cache s) (g_lru_seq s) (e_w s).
Definition set_cache (c : list cache_slot) (s : E) : E :=
  mk_ext2 (e_fs s) c (g_lru_seq s) (e_w s).
Definition set_lru (n : Z) (s : E) : E := mk_ext2 (e_fs s) (g_cache s) n (e_w s).
Definition set_e_w (w : W) (s : E) : E := mk_ext2 (e_fs s) (g_cache s) (g_lru_seq s) w.

(** A call into the machine. *)
Definition lift_w {A} (m : state W A) : state E A :=
  fun s => let '(a, w) := m (e_w s) in (a, set_e_w w s).

(** [fs->disk->read] and [fs->disk->write]. *)
Definition fs_disk_read (lba : Z) : state E (option (list Z)) :=
  fun s => match fs_disk (e_fs s) with
           | Some d => lift_w (disk_read d lba) s
           | None => (None, s)
           end.
Definition fs_disk_write (lba : Z) (b : list Z) : state E bool :=
  fun s => match fs_disk (e_fs s) with
           | Some d => lift_w (disk_write d lba b) s
           | None => (false, s)
           end.

Definition slot_at (s : E) (i : nat) : cache_slot :=
  default (mk_slot 0 0 []) (g_cache s !! i).
Definition deref (s : E) (p : nat) : list Z := slot_data (slot_at s p).

Definition flush_slot (c : cache_slot) : cache_slot := mk_slot 0 (lru_seq c) (slot_data c).

(** [ext2_block_cache_flush]: the slots keep their [lru_seq]. *)
Definition ext2_block_cache_flush : state E unit :=
  modify (fun s => set_lru 0 (set_cache (flush_slot <$> g_cache s) s)).

(** Index of the first slot that holds block [b]. *)
Fixpoint cache_find (b : Z) (cs : list cache_slot) : option nat :=
  match cs with
  | [] => None
  | c :: cs => if blk_no c =? b then Some 0%nat else S <$> cache_find b cs
  end.

(** The slot with the lowest [lru_seq], the first one of several. *)
Fixpoint pick_victim (cs : list cache_slot) (i best : nat) (best_seq : Z) : nat :=
  match cs with
  | [] => best
  | c :: cs => if lru_seq c <? best_seq
               then pick_victim cs (S i) i (lru_seq c)
               else pick_victim cs (S i) best best_seq
  end.
Definition cache_victim (cs : list cache_slot) : nat :=
  match cs with
  | [] => 0%nat
  | c :: cs => pick_victim cs 1 0 (lru_seq c)
  end.

Definition upd_slot (i : nat) (f : cache_slot -> cache_slot) : state E unit :=
  modify (fun s => set_cache (alter f i (g_cache s)) s).

(** [g_cache[i].lru_seq = ++g_lru_seq]. *)
Definition touch_slot (i : nat) : state E unit :=
  fun s => let n := u32 (g_lru_seq s + 1) in
           upd_slot i (fun c => mk_slot (blk_no c) n (slot_data c)) (set_lru n s).

(** The sector loop of a cache miss: [n] sectors left, [k] the next one. *)
Fixpoint fill_slot (n : nat) (k lba : Z) (victim : nat) : state E bool :=
  match n with
  | O => mret true
  | S n =>
      r ← fs_disk_read (u32 (lba + k));
      match r with
      | None => _ ← upd_slot victim (fun c => mk_slot 0 (lru_seq c) (slot_data c)); mret false
      | Some d =>
          _ ← upd_slot victim (fun c => mk_slot (blk_no c) (lru_seq c)
                                          (put (slot_data c) (k * 512) d));
          fill_slot n (k + 1) lba victim
      end
  end.

(** [ext2_read_block]: a pointer into the cache, or NULL. *)
Definition ext2_read_block (b : Z) : state E (option nat) := fun s =>
  if b =? 0 then (None, s) else
  match cache_find b (g_cache s) with
  | Some i => (_ ← touch_slot i; mret (Some i)) s
  | None =>
      let victim := cache_victim (g_cache s) in
      let fs := e_fs s in
      (ok ← fill_slot (Z.to_nat (fs_sectors_per_block fs)) 0
              (u32 (b * fs_sectors_per_block fs)) victim;
       if (ok : bool) then
         _ ← upd_slot victim (fun c => mk_slot b (lru_seq c) (slot_data c));
         _ ← touch_slot victim;
         mret (Some victim)
       else mret None) s
  end.

(** The sector loop of a write. *)
Fixpoint store_sectors (n : nat) (k lba : Z) (data : list Z) : state E bool :=
  match n with
  | O => mret true
  | S n =>
      ok ← fs_disk_write (u32 (lba + k)) (sub data (k * 512) 512);
      if (ok : bool) then store_sectors n (k + 1) lba data else mret false
  end.

(** [ext2_write_block]: 0 or -1. *)
Definition ext2_write_block (b : Z) (data : list Z) : state E Z := fun s =>
  if b =? 0 then (-1, s) else
  let fs := e_fs s in
  (ok ← store_sectors (Z.to_nat (fs_sectors_per_block fs)) 0
          (u32 (b * fs_sectors_per_block fs)) data;
   if (ok : bool) then
     cs ← gets g_cache;
     match cache_find b cs with
     | Some i =>
         _ ← upd_slot i (fun c => mk_slot (blk_no c) (lru_seq c)
                           (put (slot_data c) 0 (sub data 0 (fs_block_size fs))));
         mret 0
     | None => mret 0
     end
   else mret (-1)) s.

(** [ro = ext2_read_block(b); if (!ro) ...; memcpy(buf, ro, fs->block_size)]:
    the copy-out every modifying loop starts with. *)
Definition read_block_copy (b : Z) : state E (option (list Z)) :=
  p ← ext2_read_block b;
  s ← get;
  mret (match p with
        | Some p => Some (sub (deref s p) 0 (fs_block_size (e_fs s)))
        | None => None
        end).
End Block.

(** ** What the disk holds *)

(** [n] consecutive sectors. *)
Definition sectors {W} `{MachineView W} (w : W) (d : disk_device) (base : Z) (n : nat) : list Z :=
  concat ((fun k => sector w d (base + Z.of_nat k)) <$> seq 0 n).

(** Geometry that a mount establishes: 1, 2, 4 or 8 sectors per block, all
    blocks addressable with 28-bit LBAs. *)
Record geom (fs : ext2_fs) (d : disk_device) : Prop := {
  geom_disk : fs_disk fs = Some d;
  geom_spb : 1 <= fs_sectors_per_block fs <= 8;
  geom_bs : fs_block_size fs = 512 * fs_sectors_per_block fs;
}.

(** A block the driver may address through the cache: past the superblock
    (sectors 2 and 3, which are accessed directly) and within 28-bit LBAs. *)
Definition blk_valid (fs : ext2_fs) (b : Z) : Prop :=
  3 < b * fs_sectors_per_block fs /\ (b + 1) * fs_sectors_per_block fs <= 2 ^ 28.

Section BlockSpec.
Context {W : Type} `{MachineOk W}.
Abbreviation E := (ext2 W).
Implicit Types (s : E) (b : Z) (d : disk_device).

Definition disk_block s d b : list Z :=
  sectors (e_w s) d (b * fs_sectors_per_block (e_fs s))
    (Z.to_nat (fs_sectors_per_block (e_fs s))).

Definition slot_ok (c : cache_slot) : Prop :=
  length (slot_data c) = 4096%nat /\ bytes_ok (slot_data c).

(** Cache coherence. *)
Record block_inv d s : Prop := {
  bi_geom : geom (e_fs s) d;
  bi_len : length (g_cache s) = EXT2_BLOCK_CACHE_SLOTS;
  bi_slots : Forall slot_ok (g_cache s);
  bi_coherent i c : g_cache s !! i = Some c -> blk_no c <> 0 ->
    blk_valid (e_fs s) (blk_no c) /\
    sub (slot_data c) 0 (fs_block_size (e_fs s)) = disk_block s d (blk_no c);
  bi_unique i j c c' : g_cache s !! i = Some c -> g_cache s !! j = Some c' ->
    blk_no c = blk_no c' -> blk_no c <> 0 -> i = j;
}.

Lemma sectors_S w d base n :
  sectors w d base (S n) = sectors w d base n ++ sector w d (base + Z.of_nat n).
Proof.
  unfold sectors. rewrite seq_S, fmap_app, concat_app. simpl. by rewrite app_nil_r.
Qed.

Lemma length_sectors w d base n : length (sectors w d base n) = (512 * n)%nat.
Proof.
  induction n as [|n IH]; [done|].
  rewrite sectors_S, length_app, IH, sector_length. lia.
Qed.

Lemma sectors_ok w d base n : bytes_ok (sectors w d base n).
Proof.
  induction n as [|n IH]; [apply Forall_nil_2|].
  rewrite sectors_S. apply Forall_app_2; [done | apply sector_bytes].
Qed.

Lemma sectors_ext w w' d base n :
  (forall k, (k < n)%nat -> sector w' d (base + Z.of_nat k) = sector w d (base + Z.of_nat k)) ->
  sectors w' d base n = sectors w d base n.
Proof.
  induction n as [|n IH]; intros He; [done|].
  rewrite !sectors_S, IH, He by auto. done.
Qed.

Lemma sectors_sub w d base n k :
  (k < n)%nat -> sub (sectors w d base n) (Z.of_nat k * 512) 512 = sector w d (base + Z.of_nat k).
Proof.
  induction n as [|n IH]; intros Hk; [lia|]. rewrite sectors_S. unfold sub in *.
  pose proof (length_sectors w d base n) as L.
  destruct (decide (k = n)) as [->|Hne].
  - rewrite drop_app_length' by lia. apply take_ge. rewrite sector_length. lia.
  - rewrite drop_app_le, take_app_le by (rewrite ?length_drop; lia).
    apply IH. lia.
Qed.

Lemma length_disk_block s d b :
  geom (e_fs s) d -> length (disk_block s d b) = Z.to_nat (fs_block_size (e_fs s)).
Proof. intros G. unfold disk_block. rewrite length_sectors, (geom_bs _ _ G). destruct G. lia. Qed.

Lemma disk_block_ok s d b : bytes_ok (disk_block s d b).
Proof. apply sectors_ok. Qed.

Lemma disk_block_quiet s s' d b :
  e_fs s' = e_fs s -> quiet (e_w s) (e_w s') -> disk_block s' d b = disk_block s d b.
Proof.
  intros Hf Q. unfold disk_block. rewrite Hf. apply sectors_ext.
  intros. by apply quiet_sector.
Qed.

(** Two valid blocks share no sector. *)
Lemma block_sectors_disjoint b b' n k k' :
  1 <= n -> b <> b' -> 0 <= k < n -> 0 <= k' < n -> b * n + k <> b' * n + k'.
Proof. nia. Qed.

(** ** Cache search *)

Lemma cache_find_Some b cs i :
  cache_find b cs = Some i -> exists c, cs !! i = Some c /\ blk_no c = b.
Proof.
  revert i. induction cs as [|c cs IH]; intros i; simpl; [done|].
  destruct (Z.eqb_spec (blk_no c) b).
  - intros [= <-]. exists c. done.
  - destruct (cache_find b cs) as [j|] eqn:E; [|done]. intros [= <-].
    destruct (IH j eq_refl) as (c' & Hc & Hb). exists c'. done.
Qed.

Lemma cache_find_None b cs i c : cache_find b cs = None -> cs !! i = Some c -> blk_no c <> b.
Proof.
  revert i. induction cs as [|c' cs IH]; intros i; simpl; [done|].
  destruct (Z.eqb_spec (blk_no c') b); [done|].
  destruct (cache_find b cs) eqn:E; [done|]. intros _.
  destruct i; simpl; [naive_solver | eauto].
Qed.

Lemma pick_victim_lt cs i best q : (best < i)%nat -> (pick_victim cs i best q < i + length cs)%nat.
Proof.
  revert i best q. induction cs as [|c cs IH]; intros i best q Hb; simpl; [lia|].
  destruct (lru_seq c <? q); eapply Nat.lt_le_trans; try apply IH; lia.
Qed.

Lemma cache_victim_lt cs : cs <> [] -> (cache_victim cs < length cs)%nat.
Proof.
  destruct cs as [|c cs]; [done|]. intros _. simpl.
  apply (pick_victim_lt cs 1 0). lia.
Qed.

(** The victim is a least recently used slot. *)
Lemma pick_victim_min cs pre i best q :
  length pre = i -> (exists c, pre !! best = Some c /\ lru_seq c = q) ->
  Forall (fun c => q <= lru_seq c) pre ->
  exists v, (pre ++ cs) !! pick_victim cs i best q = Some v /\
            Forall (fun c => lru_seq v <= lru_seq c) (pre ++ cs).
Proof.
  revert pre i best q. induction cs as [|c cs IH]; intros pre i best q Hl (v & Hv & Hq) Hf; simpl.
  - exists v. rewrite app_nil_r. subst q. done.
  - rewrite cons_middle, app_assoc. destruct (Z.ltb_spec (lru_seq c) q).
    + apply IH; [rewrite length_app; simpl; lia | |].
      * exists c. split; [|done]. rewrite lookup_app_r by lia.
        replace (i - length pre)%nat with 0%nat by lia. done.
      * apply Forall_app_2; [|repeat constructor; lia].
        eapply Forall_impl; [exact Hf|]. simpl. lia.
    + apply IH; [rewrite length_app; simpl; lia | |].
      * exists v. split; [|done]. by apply lookup_app_l_Some.
      * apply Forall_app_2; [done | repeat constructor; lia].
Qed.

Lemma cache_victim_min cs :
  cs <> [] -> exists v, cs !! cache_victim cs = Some v /\
                        Forall (fun c => lru_seq v <= lru_seq c) cs.
Proof.
  destruct cs as [|c cs]; [done|]. intros _.
  apply (pick_victim_min cs [c] 1 0 (lru_seq c)); [done | by exists c | repeat constructor; lia].
Qed.
End BlockSpec.

Section BlockOps.
Context {W : Type} `{MachineOk W}.
Abbreviation E := (ext2 W).
Implicit Types (s : E) (b : Z) (d : disk_device).

Lemma fs_disk_read_spec s d lba :
  fs_disk (e_fs s) = Some d -> lba_ok lba ->
  exists w, quiet (e_w s) w /\
    fs_disk_read lba s = ((disk_read d lba (e_w s)).1, set_e_w w s) /\
    (forall x, (disk_read d lba (e_w s)).1 = Some x -> x = sector (e_w s) d lba) /\
    (healthy (e_w s) d -> (disk_read d lba (e_w s)).1 = Some (sector (e_w s) d lba)).
Proof.
  intros Hd Hl. exists (disk_read d lba (e_w s)).2.
  split_and!; [apply disk_read_quiet | | by intros b; apply disk_read_some | by intros; apply disk_read_healthy].
  unfold fs_disk_read, lift_w. rewrite Hd. by destruct (disk_read d lba (e_w s)).
Qed.

(** What a cache miss leaves behind: only the victim slot changes, and on
    success it holds the sectors read. *)
Lemma fill_slot_spec d n : forall k base v c s ok s',
  fs_disk (e_fs s) = Some d ->
  0 <= k -> 0 <= base -> base + k + Z.of_nat n <= 2 ^ 28 -> (k + Z.of_nat n) * 512 <= 4096 ->
  g_cache s !! v = Some c -> slot_ok c ->
  sub (slot_data c) 0 (k * 512) = sectors (e_w s) d base (Z.to_nat k) ->
  fill_slot n k base v s = (ok, s') ->
  e_fs s' = e_fs s /\ g_lru_seq s' = g_lru_seq s /\ quiet (e_w s) (e_w s') /\
  (exists c', g_cache s' = <[v := c']> (g_cache s) /\ slot_ok c' /\ lru_seq c' = lru_seq c /\
    (if ok then blk_no c' = blk_no c /\
       sub (slot_data c') 0 ((k + Z.of_nat n) * 512) =
       sectors (e_w s) d base (Z.to_nat (k + Z.of_nat n))
     else blk_no c' = 0)) /\
  (healthy (e_w s) d -> ok = true).
Proof.
  induction n as [|n IH]; intros k base v c s ok s' Hd Hk Hb Hub Hlen Hv Hc Hsub; simpl.
  - intros [= <- <-]. split_and!; try done. exists c.
    rewrite list_insert_id by done. split_and!; try done.
    rewrite Z.add_0_r. done.
  - rewrite u32_small by (unfold is_u32; lia). unfold mbind, state_bind.
    destruct (fs_disk_read_spec s d (base + k) Hd) as (w & Q & -> & Hsome & Hheal).
    { unfold lba_ok; lia. }
    destruct ((disk_read d (base + k) (e_w s)).1) as [bs|] eqn:Er.
    + specialize (Hsome bs eq_refl). subst bs. unfold upd_slot, modify.
      set (c1 := mk_slot (blk_no c) (lru_seq c)
                   (put (slot_data c) (k * 512) (sector (e_w s) d (base + k)))).
      assert (alter (fun c => mk_slot (blk_no c) (lru_seq c)
                 (put (slot_data c) (k * 512) (sector (e_w s) d (base + k)))) v
                 (g_cache (set_e_w w s)) = <[v := c1]> (g_cache s)) as ->.
      { simpl. by rewrite (alter_as_insert _ _ _ c). }
      intros Hf. destruct Hc as [Hc1 Hc2].
      edestruct (IH (k + 1) base v c1) as (F1 & F2 & F3 & (c' & Hcache & Hok & Hlru & Hres) & F5);
        [ .. | exact Hf | ]; simpl; try done; try lia.
      * rewrite list_lookup_insert_eq; [done|]. by eapply lookup_lt_Some.
      * split; simpl; [by rewrite length_put | apply put_ok; [apply sector_bytes | done]].
      * replace (Z.to_nat (k + 1)) with (S (Z.to_nat k)) by lia. rewrite sectors_S.
        rewrite (sectors_ext (e_w s)) by (intros; by apply quiet_sector).
        rewrite <- Hsub, Z2Nat.id by lia. rewrite (quiet_sector _ _ _ _ Q).
        pose proof (sector_length (e_w s) d (base + k)) as Ls.
        unfold sub, put. rewrite !drop_0.
        replace (Z.to_nat ((k + 1) * 512)) with (Z.to_nat (k * 512) + 512)%nat by lia.
        unfold splice. rewrite (take_ge (sector _ _ _)) by lia.
        rewrite take_app, length_take, Nat.min_l by lia.
        rewrite take_take, Nat.min_r by lia. f_equal.
        rewrite take_app_le by lia. apply take_ge. lia.
      * simpl in *. split_and!; try done.
        -- by transitivity w.
        -- exists c'. rewrite Hcache, list_insert_insert_eq. split_and!; try done.
           destruct ok; [|done]. destruct Hres as [-> Hres]. split; [done|].
           replace (k + Z.of_nat (S n)) with (k + 1 + Z.of_nat n) by lia.
           rewrite Hres. apply sectors_ext. intros. by apply quiet_sector.
        -- intros Hh. apply F5. eauto with machine.
    + unfold upd_slot, modify, mret, state_ret. intros [= <- <-]. simpl.
      split_and!; try done.
      * exists (mk_slot 0 (lru_seq c) (slot_data c)). split_and!; try done.
        by rewrite (alter_as_insert _ _ _ c).
      * intros Hh. specialize (Hheal Hh). done.
Qed.

(** Replacing one slot by a coherent or an empty one. *)
Lemma block_inv_slot d s s' i c' :
  block_inv d s -> e_fs s' = e_fs s -> quiet (e_w s) (e_w s') ->
  g_cache s' = <[i := c']> (g_cache s) -> slot_ok c' ->
  (blk_no c' <> 0 ->
    blk_valid (e_fs s) (blk_no c') /\
    sub (slot_data c') 0 (fs_block_size (e_fs s)) = disk_block s d (blk_no c') /\
    (forall j c, j <> i -> g_cache s !! j = Some c -> blk_no c <> blk_no c')) ->
  block_inv d s'.
Proof.
  intros [G L S C U] Hf Q Hc Hok Hnew. split.
  - by rewrite Hf.
  - by rewrite Hc, length_insert.
  - rewrite Hc. by apply Forall_insert.
  - intros j c Hj Hb. rewrite Hf, (disk_block_quiet s s') by done.
    rewrite Hc in Hj. apply list_lookup_insert_Some in Hj as [(-> & <- & _)|(Hne & Hj)].
    + destruct (Hnew Hb) as (? & ? & _). done.
    + by apply C with j.
  - intros j k c1 c2 Hj Hk Heq Hb. rewrite Hc in Hj, Hk.
    apply list_lookup_insert_Some in Hj as [(-> & <- & _)|(Hnej & Hj)];
    apply list_lookup_insert_Some in Hk as [(-> & <- & _)|(Hnek & Hk)]; try done.
    + destruct (Hnew Hb) as (_ & _ & Hu). by destruct (Hu k c2).
    + rewrite Heq in Hb. destruct (Hnew Hb) as (_ & _ & Hu). by destruct (Hu j c1).
    + by eapply U.
Qed.

(** Outcome of [ext2_read_block], whatever the disk answers. *)
Lemma ext2_read_block_spec d s b p s' :
  block_inv d s -> blk_valid (e_fs s) b -> ext2_read_block b s = (p, s') ->
  block_inv d s' /\ e_fs s' = e_fs s /\ quiet (e_w s) (e_w s') /\
  (forall i, p = Some i ->
     blk_no (slot_at s' i) = b /\
     sub (deref s' i) 0 (fs_block_size (e_fs s)) = disk_block s d b) /\
  (healthy (e_w s) d -> is_Some p).
Proof.
  intros I [Hb0 Hb1] Hr. pose proof (bi_geom _ _ I) as [Gd Gs Gb].
  unfold ext2_read_block in Hr. destruct (Z.eqb_spec b 0); [lia|].
  destruct (cache_find b (g_cache s)) as [i|] eqn:Ef.
  - apply cache_find_Some in Ef as (c & Hc & Hcb).
    unfold mbind, state_bind, touch_slot, upd_slot, modify, mret, state_ret in Hr.
    injection Hr as <- <-. simpl.
    assert (slot_ok c) as Hok by (eapply Forall_lookup_1; [apply I | done]).
    destruct (bi_coherent _ _ I i c Hc ltac:(lia)) as [V D].
    rewrite (alter_as_insert _ _ _ c) by done.
    assert (i < length (g_cache s))%nat by (by eapply lookup_lt_Some).
    split_and!; try done.
    + eapply (block_inv_slot d s _ i); [done.. | |]; [by destruct Hok|].
      simpl. intros _. split_and!; [by subst | by subst | ].
      intros j c2 Hne Hj Heq. apply Hne. eapply (bi_unique _ _ I); eauto. lia.
    + intros k [= <-]. unfold deref, slot_at. simpl.
      rewrite list_lookup_insert_eq by done. simpl. by subst b.
  - set (v := cache_victim (g_cache s)) in *.
    assert (v < length (g_cache s))%nat as Hv.
    { apply cache_victim_lt. intros E0. pose proof (bi_len _ _ I) as L. by rewrite E0 in L. }
    destruct (lookup_lt_is_Some_2 (g_cache s) v Hv) as [c Hc].
    assert (slot_ok c) as Hok by (eapply Forall_lookup_1; [apply I | done]).
    rewrite u32_small in Hr by (unfold is_u32; nia).
    unfold mbind at 1, state_bind at 1 in Hr.
    destruct (fill_slot _ 0 _ v s) as [ok s1] eqn:Hfill.
    eapply (fill_slot_spec d _ 0 _ v c) in Hfill as (F1 & F2 & F3 & (c1 & Hc1 & Hok1 & Hl1 & Hres) & F5);
      [ | done | lia | nia | nia | lia | done | done | done ].
    rewrite !Z.add_0_l, Z2Nat.id in Hres by lia.
    destruct ok.
    + destruct Hres as [_ Hdata].
      unfold mbind, state_bind, touch_slot, upd_slot, modify, mret, state_ret in Hr.
      injection Hr as <- <-. simpl.
      rewrite Hc1. rewrite (alter_as_insert _ (<[v:=c1]> _) v c1) by (by apply list_lookup_insert_eq).
      rewrite list_insert_insert_eq.
      rewrite (alter_as_insert _ _ _ (mk_slot b (lru_seq c1) (slot_data c1)))
        by (by apply list_lookup_insert_eq).
      rewrite list_insert_insert_eq. simpl.
      assert (sub (slot_data c1) 0 (fs_block_size (e_fs s)) = disk_block s d b) as Hdb.
      { rewrite Gb, Z.mul_comm. unfold disk_block. done. }
      split_and!; try done.
      * eapply (block_inv_slot d s _ v); [done.. | by destruct Hok1 |].
        simpl. intros _. split_and!; [done | done |].
        intros j c2 _ Hj. by eapply cache_find_None.
      * intros k [= <-]. unfold deref, slot_at. simpl.
        rewrite list_lookup_insert_eq by done. simpl. done.
    + injection Hr as <- <-. split_and!; try done.
      * by eapply (block_inv_slot d s _ v).
      * intros Hh. by specialize (F5 Hh).
Qed.

(** [w'] differs from [w] at most in [n] sectors of [d] from [base]. *)
Definition only_sectors d (base n : Z) (w w' : W) : Prop :=
  (forall d' l, lba_ok l -> ~ (d' = d /\ base <= l < base + n) ->
     sector w' d' l = sector w d' l) /\
  (forall d', healthy w d' -> healthy w' d') /\ same_rest w w'.

Lemma only_sectors_refl d base n w : only_sectors d base n w w.
Proof. by split_and!. Qed.

Lemma fs_disk_write_spec s d lba x ok s' :
  fs_disk (e_fs s) = Some d -> lba_ok lba -> length x = 512%nat -> bytes_ok x ->
  fs_disk_write lba x s = (ok, s') ->
  exists w, s' = set_e_w w s /\ only_sectors d lba 1 (e_w s) w /\
    (ok = true -> sector w d lba = x) /\ (healthy (e_w s) d -> ok = true).
Proof.
  intros Hd Hl Hx Hb. unfold fs_disk_write, lift_w. rewrite Hd.
  destruct (disk_write d lba x (e_w s)) as [r w] eqn:Ew. intros [= <- <-].
  exists w. pose proof (disk_write_rest d lba x (e_w s)) as Hcr. rewrite Ew in Hcr.
  unfold only_sectors. split_and!; try done.
  - intros d' l Hl' Hne. pose proof (disk_write_other d lba x (e_w s) d' l Hl Hl') as O.
    rewrite Ew in O. apply O. intros [= -> ->]. apply Hne. split; [done|lia].
  - intros d'. pose proof (disk_write_keeps d lba x (e_w s) d') as K. by rewrite Ew in K.
  - pose proof (disk_write_true d lba x (e_w s) Hl Hx Hb) as T. by rewrite Ew in T.
  - pose proof (disk_write_healthy d lba x (e_w s) Hl) as T. by rewrite Ew in T.
Qed.

Lemma store_sectors_spec d n : forall k base data s ok s',
  fs_disk (e_fs s) = Some d -> 0 <= k -> 0 <= base -> base + k + Z.of_nat n <= 2 ^ 28 ->
  (k + Z.of_nat n) * 512 <= Z.of_nat (length data) -> bytes_ok data ->
  store_sectors n k base data s = (ok, s') ->
  exists w, s' = set_e_w w s /\ only_sectors d (base + k) (Z.of_nat n) (e_w s) w /\
    (ok = true -> forall j, k <= j < k + Z.of_nat n ->
       sector w d (base + j) = sub data (j * 512) 512) /\
    (healthy (e_w s) d -> ok = true).
Proof.
  induction n as [|n IH]; intros k base data s ok s' Hd Hk Hb Hub Hl Hok; simpl.
  - intros [= <- <-]. exists (e_w s). unfold only_sectors. split_and!; try done; [by destruct s|].
    intros _ j Hj. lia.
  - rewrite u32_small by (unfold is_u32; lia). unfold mbind, state_bind.
    destruct (fs_disk_write _ _ s) as [ok1 s1] eqn:Ew.
    eapply fs_disk_write_spec in Ew as (w1 & -> & (O1 & K1 & C1) & T1 & H1');
      [ | done | unfold lba_ok; lia | rewrite length_sub; lia | auto with machine ].
    destruct ok1.
    + intros Hs. eapply IH in Hs as (w & -> & (O2 & K2 & C2) & T2 & H2'); simpl in *; try done; try lia.
      exists w. unfold only_sectors. split_and!; try done.
      * intros d' l Hl' Hne. rewrite O2, O1; auto; intros [-> ?]; apply Hne; split; [done|lia | done|lia].
      * auto.
      * by etrans.
      * intros -> j Hj. destruct (decide (j = k)) as [->|].
        -- rewrite O2; [by apply T1 | unfold lba_ok; lia | intros [_ ?]; lia].
        -- apply T2; [done|lia].
      * auto.
    + intros [= <- <-]. exists w1. unfold only_sectors. split_and!; try done.
      * intros d' l Hl' Hne. apply O1; [done|]. intros [-> ?]. apply Hne. split; [done|lia].
Qed.

(** Blocks other than [b], and every sector outside it, are as before. *)
Definition only_block d s b s' : Prop :=
  e_fs s' = e_fs s /\
  only_sectors d (b * fs_sectors_per_block (e_fs s)) (fs_sectors_per_block (e_fs s))
    (e_w s) (e_w s').

Lemma only_block_other d s b s' b' :
  geom (e_fs s) d -> only_block d s b s' -> blk_valid (e_fs s) b' -> b' <> b ->
  disk_block s' d b' = disk_block s d b'.
Proof.
  intros [Gd Gs Gb] [Hf [O _]] [Hb0 Hb1] Hne. unfold disk_block. rewrite Hf.
  apply sectors_ext. intros k Hk. apply O; [unfold lba_ok; nia|].
  intros [_ ?]. nia.
Qed.

(** A block whose sectors hold the data. *)
Lemma sectors_written w d base n data : 0 <= base -> Z.of_nat n * 512 <= Z.of_nat (length data) ->
  (forall k, 0 <= k < Z.of_nat n -> sector w d (base + k) = sub data (k * 512) 512) ->
  sectors w d base n = sub data 0 (Z.of_nat n * 512).
Proof.
  intros Hb Hl T. apply list_eq. intros i. destruct (decide (i < n * 512)%nat) as [Hi|Hi].
  2: { rewrite !lookup_ge_None_2; [done | |].
       - unfold sub. rewrite length_take. lia.
       - rewrite length_sectors. lia. }
  assert (i / 512 < n)%nat as Hq by (apply Nat.Div0.div_lt_upper_bound; lia).
  pose proof (sectors_sub w d base n (i / 512) Hq) as Hs. rewrite T in Hs by lia.
  assert (sub (sectors w d base n) (Z.of_nat (i / 512) * 512) 512 !! (i mod 512)%nat =
          sub data (Z.of_nat (i / 512) * 512) 512 !! (i mod 512)%nat) as Hl2 by (by rewrite Hs).
  pose proof (Nat.div_mod_eq i 512). pose proof (Nat.mod_upper_bound i 512 ltac:(lia)).
  unfold sub in Hl2. rewrite !lookup_take_lt, !lookup_drop in Hl2 by lia.
  replace (Z.to_nat (Z.of_nat (i / 512) * 512) + i mod 512)%nat with i in Hl2 by lia.
  rewrite Hl2. unfold sub. rewrite lookup_take_lt, lookup_drop by lia. done.
Qed.

(** Outcome of [ext2_write_block].  A failed write may leave the block half
    written; every other block is untouched in all cases. *)
Lemma ext2_write_block_spec d s b data rc s' :
  block_inv d s -> blk_valid (e_fs s) b -> bytes_ok data ->
  fs_block_size (e_fs s) <= Z.of_nat (length data) ->
  ext2_write_block b data s = (rc, s') ->
  only_block d s b s' /\ (rc = 0 \/ rc = -1) /\
  (rc = 0 -> block_inv d s' /\
     disk_block s' d b = sub data 0 (fs_block_size (e_fs s))) /\
  (healthy (e_w s) d -> rc = 0).
Proof.
  intros I [Hb0 Hb1] Hok Hl. pose proof (bi_geom _ _ I) as G. destruct (G) as [Gd Gs Gb].
  unfold ext2_write_block. destruct (Z.eqb_spec b 0) as [?|_]; [lia|].
  rewrite u32_small by (unfold is_u32; nia).
  unfold mbind at 1, state_bind at 1.
  destruct (store_sectors _ _ _ _ s) as [ok s1] eqn:Es.
  eapply store_sectors_spec in Es as (w & -> & O & T & Hh); [ | done | lia | nia | nia | lia | done ].
  rewrite Z.add_0_r, Z2Nat.id in O by lia. rewrite Z.add_0_l, Z2Nat.id in T by lia.
  destruct ok.
  2: { intros [= <- <-]. split_and!; try done; [by right |]. intros h. by specialize (Hh h). }
  assert (disk_block (set_e_w w s) d b = sub data 0 (fs_block_size (e_fs s))) as Hdb.
  { unfold disk_block; simpl. rewrite (sectors_written w d _ _ data); [|nia|nia|intros; apply T; lia].
    by rewrite Z2Nat.id, Gb, Z.mul_comm by lia. }
  assert (forall j c, g_cache s !! j = Some c -> blk_no c <> 0 -> blk_no c <> b ->
            sub (slot_data c) 0 (fs_block_size (e_fs s)) = disk_block (set_e_w w s) d (blk_no c)) as Hcoh.
  { intros j c Hj Hc0 Hcb. destruct (bi_coherent _ _ I j c Hj Hc0) as [V D]. rewrite D.
    symmetry. apply (only_block_other d s b); try done. }
  unfold mbind, state_bind, gets, upd_slot, modify, mret, state_ret. simpl.
  destruct (cache_find b (g_cache s)) as [i|] eqn:Ef; intros [= <- <-].
  - apply cache_find_Some in Ef as (c & Hc & Hcb). split_and!; try done; [by left |].
    intros _. split; [|done].
    assert (slot_ok c) as [Hc1 Hc2] by (eapply Forall_lookup_1; [apply I | done]).
    simpl. rewrite (alter_as_insert _ _ _ c) by done.
    set (c' := mk_slot (blk_no c) (lru_seq c)
                 (put (slot_data c) 0 (sub data 0 (fs_block_size (e_fs s))))).
    assert (slot_ok c') as Hc'.
    { split; simpl; [by rewrite length_put | auto with machine]. }
    split; simpl.
    + done.
    + rewrite length_insert. apply I.
    + apply Forall_insert; [apply I | done].
    + intros j cj Hj Hne. apply list_lookup_insert_Some in Hj as [(-> & <- & _)|(Hnej & Hj)].
      * simpl. rewrite Hcb. split; [done|]. rewrite sub_put_same; [done | | lia | lia].
        rewrite length_sub; lia.
      * split; [by eapply (bi_coherent _ _ I) |].
        apply Hcoh with j; try done. intros Hjb. apply Hnej.
        eapply (bi_unique _ _ I); eauto; lia.
    + intros j k cj ck Hj Hk Heq Hne.
      apply list_lookup_insert_Some in Hj as [(-> & <- & _)|(Hnej & Hj)];
      apply list_lookup_insert_Some in Hk as [(-> & <- & _)|(Hnek & Hk)]; try done;
      simpl in *; eapply (bi_unique _ _ I); eauto.
  - split_and!; try done; [by left |]. intros _. split; [|done]. split; simpl; try apply I.
    intros j c Hj Hne. split; [by eapply (bi_coherent _ _ I)|].
    apply Hcoh with j; try done. by eapply cache_find_None.
Qed.

(** The copy-out of a block. *)
Lemma read_block_copy_spec d s b r s' :
  block_inv d s -> blk_valid (e_fs s) b -> read_block_copy b s = (r, s') ->
  block_inv d s' /\ e_fs s' = e_fs s /\ quiet (e_w s) (e_w s') /\
  (forall buf, r = Some buf -> buf = disk_block s d b) /\
  (healthy (e_w s) d -> r = Some (disk_block s d b)).
Proof.
  intros I V. unfold read_block_copy, mbind, state_bind, get, mret, state_ret.
  destruct (ext2_read_block b s) as [p s1] eqn:Er. intros [= <- <-].
  eapply ext2_read_block_spec in Er as (I1 & F1 & Q1 & P1 & H1'); [|done..].
  split_and!; try done; rewrite F1.
  - intros buf. destruct p as [p|]; [|done]. intros [= <-]. by apply P1.
  - intros Hh. destruct (H1' Hh) as [p' ->]. f_equal. by apply P1.
Qed.
End BlockOps.
