(* ===== verification/Ext2Super.v ===== *)
(** * EXT2 superblock and group descriptors (fs/ext2/super.c, mount part of fs/ext2/mount.c)

    Mounting validates the superblock, computes the geometry and loads the
    block group descriptor table; [ext2_super_adjust_free] and
    [ext2_bgdt_write_back] persist the free counters.  The second half gives
    the view under which the rest of the driver is specified: on a healthy
    disk the driver state stands for a volume ([vol]), a function from block
    numbers to blocks next to the superblock, and [vinv] says so. *)

From S2P Require Import Prelude Machine VfsTypes Ext2Layout Ext2Block.

Section Super.
Context {W : Type} `{Machine W}.
Abbreviation E := (ext2 W).

Definition ext2_get_fs : state E ext2_fs := gets e_fs.
Definition put_fs (fs : ext2_fs) : state E unit := modify (set_e_fs fs).

(** [ext2_super_free]. *)
Definition ext2_super_free : state E unit :=
  fs ← ext2_get_fs;
  _ ← (match fs_bgdt fs with
       | Some (p, _) => _ ← lift_w (kfree (Some p)); put_fs (set_fs_bgdt None fs)
       | None => mret tt
       end);
  _ ← modify (fun s => set_e_fs (set_fs_mounted false (e_fs s)) s);
  ext2_block_cache_flush.

(** The sector loop and the block loop that load the descriptor table. *)
Fixpoint read_sectors (d : disk_device) (n : nat) (lba : Z) : state E (option (list Z)) :=
  match n with
  | O => mret (Some [])
  | S n =>
      r ← lift_w (disk_read d (u32 lba));
      match r with
      | None => mret None
      | Some x =>
          rest ← read_sectors d n (lba + 1);
          mret (app x <$> rest)
      end
  end.

Fixpoint read_bgdt (d : disk_device) (n : nat) (blk spb : Z) : state E (option (list Z)) :=
  match n with
  | O => mret (Some [])
  | S n =>
      r ← read_sectors d (Z.to_nat spb) (u32 (u32 blk * spb));
      match r with
      | None => mret None
      | Some x =>
          rest ← read_bgdt d n (blk + 1) spb;
          mret (app x <$> rest)
      end
  end.

(** The checks and the geometry that [ext2_super_read] computes from the raw
    superblock ([shl] uses the low five bits of its count). *)
Definition super_geometry (d : disk_device) (raw : list Z) : option ext2_fs :=
  if negb (s_magic raw =? EXT2_MAGIC) then None else
  let dyn := EXT2_DYNAMIC_REV <=? s_rev_level raw in
  if dyn && negb (Z.land (s_feature_incompat raw) (u32 (Z.lnot EXT2_SUPPORTED_INCOMPAT)) =? 0)
  then None else
  let block_size := u32 (Z.shiftl 1024 (s_log_block_size raw mod 32)) in
  if (block_size <? 1024) || (4096 <? block_size) || negb (Z.land block_size 511 =? 0)
  then None else
  let inode_size := if dyn then s_inode_size raw else EXT2_MIN_INODE_SIZE in
  if (inode_size <? EXT2_MIN_INODE_SIZE) || (block_size <? inode_size) then None else
  if (s_inodes_per_group raw =? 0) || (s_blocks_per_group raw =? 0) then None else
  let num_groups := u32 (s_blocks_count raw + s_blocks_per_group raw - 1)
                    / s_blocks_per_group raw in
  if num_groups =? 0 then None else
  let bgdt_bytes := u32 (num_groups * BGDT_ENTRY_SIZE) in
  Some (mk_ext2_fs (Some d) false block_size (block_size / 512) (s_inodes_per_group raw)
          (s_blocks_per_group raw) inode_size (s_first_data_block raw) num_groups
          (s_inodes_count raw) (s_blocks_count raw) (s_rev_level raw)
          (u32 (s_first_data_block raw + 1))
          (u32 (bgdt_bytes + block_size - 1) / block_size) None).

(** [disk->read(2, raw) != 0 || disk->read(3, raw + 512) != 0]. *)
Definition read_super_raw (rd : Z -> state E (option (list Z))) : state E (option (list Z)) :=
  a ← rd 2;
  match a with
  | None => mret None
  | Some a => b ← rd 3; mret (app a <$> b)
  end.

(** [ext2_super_read]: 0 or -1. *)
Definition ext2_super_read (disk : option disk_device) : state E Z :=
  _ ← put_fs ext2_fs_zero;
  _ ← ext2_block_cache_flush;
  w ← gets e_w;
  match disk with
  | None => mret (-1)
  | Some d =>
      if negb (disk_present d w) then mret (-1) else
      raw ← read_super_raw (fun l => lift_w (disk_read d l));
      match raw with
      | None => mret (-1)
      | Some raw =>
          match super_geometry d raw with
          | None => mret (-1)
          | Some fs =>
              _ ← put_fs fs;
              p ← lift_w (kmalloc (u32 (fs_bgdt_blocks fs * fs_block_size fs)));
              match p with
              | None => mret (-1)
              | Some p =>
                  t ← read_bgdt d (Z.to_nat (fs_bgdt_blocks fs)) (fs_bgdt_block fs)
                        (fs_sectors_per_block fs);
                  match t with
                  | None => _ ← lift_w (kfree (Some p)); mret (-1)
                  | Some t =>
                      _ ← put_fs (set_fs_mounted true (set_fs_bgdt (Some (p, t)) fs));
                      mret 0
                  end
              end
          end
      end
  end.

(** [ext2_super_adjust_free]: the writes' results are ignored. *)
Definition adjust_raw (block_delta inode_delta : Z) (raw : list Z) : list Z :=
  let free_blocks := u32 (s32 (s_free_blocks_count raw) + block_delta) in
  let free_inodes := u32 (s32 (s_free_inodes_count raw) + inode_delta) in
  put_le 4 (put_le 4 raw 12 free_blocks) 16 free_inodes.

Definition ext2_super_adjust_free (block_delta inode_delta : Z) : state E unit :=
  fs ← ext2_get_fs;
  if negb (fs_mounted fs) then mret tt else
  raw ← read_super_raw fs_disk_read;
  match raw with
  | None => mret tt
  | Some raw =>
      let raw := adjust_raw block_delta inode_delta raw in
      _ ← fs_disk_write 2 (sub raw 0 512);
      _ ← fs_disk_write 3 (sub raw 512 512);
      mret tt
  end.

(** [ext2_bgdt_write_back]. *)
Fixpoint write_bgdt (n : nat) (k : Z) : state E unit :=
  match n with
  | O => mret tt
  | S n =>
      fs ← ext2_get_fs;
      _ ← ext2_write_block (u32 (fs_bgdt_block fs + k))
            (sub (bgdt_bytes fs) (k * fs_block_size fs) (fs_block_size fs));
      write_bgdt n (k + 1)
  end.
Definition ext2_bgdt_write_back : state E unit :=
  fs ← ext2_get_fs;
  if negb (fs_mounted fs) then mret tt else
  match fs_bgdt fs with
  | None => mret tt
  | Some _ => write_bgdt (Z.to_nat (fs_bgdt_blocks fs)) 0
  end.

(** [ext2_mount] and [ext2_is_mounted] (fs/ext2/mount.c). *)
Definition ext2_mount (disk : option disk_device) : state E Z :=
  fs ← ext2_get_fs;
  _ ← (if fs_mounted fs then ext2_super_free else mret tt);
  ext2_super_read disk.

Definition ext2_is_mounted : state E bool := fs ← ext2_get_fs; mret (fs_mounted fs).
End Super.

(** ** Volumes *)

(** What a healthy disk stands for: its blocks and its superblock. *)
Record vol := mk_vol { v_blk : Z -> list Z; v_sb : list Z }.

Definition vset (b : Z) (x : list Z) (v : vol) : vol :=
  mk_vol (fun b' => if decide (b' = b) then x else v_blk v b') (v_sb v).
Definition vset_sb (x : list Z) (v : vol) : vol := mk_vol (v_blk v) x.

Section Volume.
Context {W : Type} `{MachineOk W}.
Abbreviation E := (ext2 W).
Implicit Types (s : E) (v : vol) (b : Z) (d : disk_device).

Record vinv d s v : Prop := {
  vi_inv : block_inv d s;
  vi_healthy : healthy (e_w s) d;
  vi_blk b : blk_valid (e_fs s) b -> disk_block s d b = v_blk v b;
  vi_sb : sectors (e_w s) d 2 2 = v_sb v;
}.

Lemma vi_geom d s v : vinv d s v -> geom (e_fs s) d.
Proof. intros I. apply I. Qed.

Lemma vi_len d s v b :
  vinv d s v -> blk_valid (e_fs s) b -> length (v_blk v b) = Z.to_nat (fs_block_size (e_fs s)).
Proof. intros I V. rewrite <- (vi_blk _ _ _ I b V). apply length_disk_block, I. Qed.

Lemma vi_ok d s v b : vinv d s v -> blk_valid (e_fs s) b -> bytes_ok (v_blk v b).
Proof. intros I V. rewrite <- (vi_blk _ _ _ I b V). apply disk_block_ok. Qed.

Lemma vi_sb_len d s v : vinv d s v -> length (v_sb v) = 1024%nat.
Proof. intros I. rewrite <- (vi_sb _ _ _ I). apply length_sectors. Qed.

Lemma vi_sb_ok d s v : vinv d s v -> bytes_ok (v_sb v).
Proof. intros I. rewrite <- (vi_sb _ _ _ I). apply sectors_ok. Qed.

(** What stays fixed while the driver runs. *)
Definition same_env s s' : Prop :=
  same_rest (e_w s) (e_w s').

#[global] Instance same_env_preorder : PreOrder same_env.
Proof. unfold same_env. split; [intros s; reflexivity|]. intros s1 s2 s3 E1 E2. by etrans. Qed.

(** Steps that leave the volume alone. *)
Lemma vinv_quiet d s v s' :
  vinv d s v -> block_inv d s' -> e_fs s' = e_fs s -> quiet (e_w s) (e_w s') -> vinv d s' v.
Proof.
  intros I I' F Q. split; [done | by eapply quiet_healthy, I | |].
  - intros b V. rewrite F in V. rewrite (disk_block_quiet s s') by done. by apply I.
  - rewrite <- (vi_sb _ _ _ I). apply sectors_ext. intros. by apply quiet_sector.
Qed.

Lemma ext2_read_block_run d s v b :
  vinv d s v -> blk_valid (e_fs s) b ->
  run (ext2_read_block b) s (fun p s' => exists i, p = Some i /\ vinv d s' v /\
    e_fs s' = e_fs s /\ same_env s s' /\
    sub (deref s' i) 0 (fs_block_size (e_fs s)) = v_blk v b).
Proof.
  intros I V. apply run_intro. intros p s' E.
  eapply ext2_read_block_spec in E as (I' & F & Q & P & Hh); [|apply I|done].
  destruct (Hh (vi_healthy _ _ _ I)) as [i ->]. exists i.
  split_and!; try done; [by eapply vinv_quiet|apply Q|].
  rewrite <- (vi_blk _ _ _ I) by done. by apply P.
Qed.

Lemma read_block_copy_run d s v b :
  vinv d s v -> blk_valid (e_fs s) b ->
  run (read_block_copy b) s (fun r s' => r = Some (v_blk v b) /\ vinv d s' v /\
    e_fs s' = e_fs s /\ same_env s s').
Proof.
  intros I V. apply run_intro. intros p s' E.
  eapply read_block_copy_spec in E as (I' & F & Q & P & Hh); [|apply I|done].
  rewrite <- (vi_blk _ _ _ I) by done.
  split_and!; [apply Hh, I | by eapply vinv_quiet | done | apply Q].
Qed.

Lemma ext2_write_block_run d s v b x :
  vinv d s v -> blk_valid (e_fs s) b -> bytes_ok x ->
  length x = Z.to_nat (fs_block_size (e_fs s)) ->
  run (ext2_write_block b x) s (fun rc s' => rc = 0 /\ vinv d s' (vset b x v) /\
    e_fs s' = e_fs s /\ same_env s s').
Proof.
  intros I V Hx Hl. apply run_intro. intros rc s' E.
  pose proof (bi_geom _ _ (vi_inv _ _ _ I)) as G.
  eapply ext2_write_block_spec in E as (O & _ & Hw & Hh);
    [|apply I|done|done|destruct G; lia].
  specialize (Hh (vi_healthy _ _ _ I)). subst rc. destruct (Hw eq_refl) as [I' Hb].
  pose proof O as [F (Os & Oh & Or)]. split_and!; try done. split; [done|by apply Oh, I| |].
  - intros b' V'. rewrite F in V'. simpl. case_decide as D.
    + subst b'. rewrite Hb. unfold sub. rewrite drop_0. apply take_ge. lia.
    + rewrite (only_block_other _ _ _ _ b' G O) by done. by apply I.
  - simpl. rewrite <- (vi_sb _ _ _ I). apply sectors_ext. intros k Hk. apply Os.
    + unfold lba_ok. lia.
    + destruct V as [V _]. lia.
Qed.

(** Two volumes with the same blocks and superblock are the same to [vinv]. *)
Lemma vinv_ext d s v v' :
  vinv d s v -> (forall b, v_blk v' b = v_blk v b) -> v_sb v' = v_sb v -> vinv d s v'.
Proof.
  intros [I1 I2 I3 I4] Hb Hs. split; [done|done| |by rewrite Hs].
  intros b V. rewrite Hb. by apply I3.
Qed.

Lemma sectors_two w d : sectors w d 2 2 = sector w d 2 ++ sector w d 3.
Proof. unfold sectors. simpl. by rewrite app_nil_r. Qed.

Lemma fs_disk_read_run d s v l :
  vinv d s v -> lba_ok l ->
  run (fs_disk_read l) s (fun r s' => r = Some (sector (e_w s) d l) /\ vinv d s' v /\
    e_fs s' = e_fs s /\ same_env s s' /\ quiet (e_w s) (e_w s')).
Proof.
  intros I Hl. apply run_intro. intros r s' E.
  destruct (fs_disk_read_spec s d l (geom_disk _ _ (vi_geom _ _ _ I)) Hl) as (w & Q & E' & _ & Hh).
  rewrite E' in E. injection E as <- <-. rewrite Hh by apply I.
  split_and!; try done; [|apply Q].
  eapply vinv_quiet; [done| |done|done]. destruct (vi_inv _ _ _ I) as [B1 B2 B3 B4 B5].
  split; try done. intros i c Hc Hne. destruct (B4 i c Hc Hne) as [? Hb]. split; [done|].
  simpl. rewrite Hb. symmetry. by apply disk_block_quiet.
Qed.

(** Writing one of the two superblock sectors. *)
Lemma super_write_run d s v l x :
  vinv d s v -> l = 2 \/ l = 3 -> length x = 512%nat -> bytes_ok x ->
  run (fs_disk_write l x) s (fun ok s' => ok = true /\ e_fs s' = e_fs s /\ same_env s s' /\
    vinv d s' (vset_sb (put (v_sb v) ((l - 2) * 512) x) v)).
Proof.
  intros I Hl Hlen Hx. apply run_intro. intros ok s' E.
  eapply (fs_disk_write_spec s d l) in E as (w & -> & (O & Oh & Or) & Ht & Hh);
    [|apply (vi_geom _ _ _ I)|unfold lba_ok; lia|done|done].
  rewrite (Hh (vi_healthy _ _ _ I)) in *. specialize (Ht eq_refl).
  assert (forall b, blk_valid (e_fs s) b -> disk_block (set_e_w w s) d b = disk_block s d b) as Hsame.
  { intros b [V1 V2]. apply sectors_ext. intros k Hk. simpl in *.
    pose proof (geom_spb _ _ (vi_geom _ _ _ I)). apply O; [unfold lba_ok; nia|]. lia. }
  split_and!; [done|done|done|]. destruct (vi_inv _ _ _ I) as [B1 B2 B3 B4 B5].
  split; cbn [e_fs e_w g_cache set_e_w v_blk v_sb vset_sb]; [|by apply Oh, I| |].
  - split; try done. intros i c Hc Hne. destruct (B4 i c Hc Hne) as [? Hb].
    split; [done|]. cbn [e_fs set_e_w]. by rewrite Hb, Hsame.
  - intros b V. rewrite Hsame by done. by apply I.
  - rewrite <- (vi_sb _ _ _ I), !sectors_two. unfold put.
    pose proof (sector_length (e_w s) d 2). pose proof (sector_length (e_w s) d 3).
    destruct Hl as [-> | ->].
    + rewrite Ht, (O d 3) by (unfold lba_ok; lia). unfold splice. simpl.
      rewrite (take_ge x), drop_app_length' by (rewrite ?length_app; lia). done.
    + rewrite Ht, (O d 2) by (unfold lba_ok; lia). unfold splice.
      rewrite take_app_length', (take_ge x), drop_ge by (rewrite ?length_app; lia).
      by rewrite app_nil_r.
Qed.

Lemma put_halves x y :
  length x = 1024%nat -> length y = 1024%nat ->
  put (put y ((2 - 2) * 512) (sub x 0 512)) ((3 - 2) * 512) (sub x 512 512) = x.
Proof.
  intros Hx Hy. apply list_eq. intros k. unfold put, sub.
  rewrite !splice_lookup, length_splice, !length_take, !length_drop, Hx, Hy.
  destruct (decide (k < 1024)%nat); [|rewrite (lookup_ge_None_2 x) by lia].
  - repeat case_decide; try lia;
      rewrite lookup_take_lt, lookup_drop by lia; f_equal; lia.
  - repeat case_decide; try lia. apply lookup_ge_None_2. lia.
Qed.

Lemma length_adjust_raw bd id raw : length (adjust_raw bd id raw) = length raw.
Proof. unfold adjust_raw, put_le. by rewrite !length_put. Qed.

Lemma adjust_raw_ok bd id raw : bytes_ok raw -> bytes_ok (adjust_raw bd id raw).
Proof. intros. unfold adjust_raw. by repeat apply put_le_ok. Qed.

Lemma ext2_super_adjust_free_run d s v bd id :
  vinv d s v -> fs_mounted (e_fs s) = true ->
  run (ext2_super_adjust_free bd id) s (fun _ s' => e_fs s' = e_fs s /\ same_env s s' /\
    vinv d s' (vset_sb (adjust_raw bd id (v_sb v)) v)).
Proof.
  intros I Hm. pose proof (vi_sb_len _ _ _ I) as Hlen. pose proof (vi_sb_ok _ _ _ I) as Hok.
  unfold ext2_super_adjust_free. apply run_bind, run_gets. rewrite Hm. simpl.
  unfold read_super_raw. apply run_bind.
  run_step fs_disk_read_run as (-> & I1 & F1 & E1 & Q1); [done|unfold lba_ok; lia|].
  run_step fs_disk_read_run as (-> & I2 & F2 & E2 & Q2); [done|unfold lba_ok; lia|].
  apply run_ret. simpl. rewrite (quiet_sector _ _ d 3 Q1), <- sectors_two, (vi_sb _ _ _ I).
  set (raw := adjust_raw bd id (v_sb v)).
  assert (length raw = 1024%nat) as Hraw by (unfold raw; by rewrite length_adjust_raw).
  assert (bytes_ok raw) as Hrok by (by apply adjust_raw_ok).
  run_step super_write_run as (-> & F3 & E3 & I3);
    [done|by left|rewrite length_sub; lia|by apply sub_ok|].
  run_step super_write_run as (-> & F4 & E4 & I4);
    [done|by right|rewrite length_sub; lia|by apply sub_ok|].
  apply run_ret. split_and!; [congruence|unfold same_env in *; simpl in *; rest_chain|].
  eapply vinv_ext; [done|done|]. cbn [v_sb vset_sb]. symmetry. apply put_halves; lia.
Qed.

(** The volume with blocks [k .. k + n) of the in-memory descriptor table stored. *)
Definition vset_bgdt (fs : ext2_fs) (k n : Z) v : vol :=
  mk_vol (fun b => if decide (fs_bgdt_block fs + k <= b < fs_bgdt_block fs + k + n)
                   then sub (bgdt_bytes fs) ((b - fs_bgdt_block fs) * fs_block_size fs) (fs_block_size fs)
                   else v_blk v b) (v_sb v).

(** The descriptor table in memory: whole blocks, addressable on disk. *)
Record bgdt_ok (fs : ext2_fs) : Prop := {
  bo_some : is_Some (fs_bgdt fs);
  bo_len : Z.of_nat (length (bgdt_bytes fs)) = fs_bgdt_blocks fs * fs_block_size fs;
  bo_bytes : bytes_ok (bgdt_bytes fs);
  bo_blk k : 0 <= k < fs_bgdt_blocks fs -> blk_valid fs (fs_bgdt_block fs + k);
}.

Lemma write_bgdt_run d n : forall k s v,
  vinv d s v -> bgdt_ok (e_fs s) -> 0 <= k -> k + Z.of_nat n <= fs_bgdt_blocks (e_fs s) ->
  run (write_bgdt n k) s (fun _ s' => e_fs s' = e_fs s /\ same_env s s' /\
    vinv d s' (vset_bgdt (e_fs s) k (Z.of_nat n) v)).
Proof.
  induction n as [|n IH]; intros k s v I B Hk Hn; cbn [write_bgdt].
  - apply run_ret. split_and!; [done|done|]. eapply vinv_ext; [done| |done].
    intros b. simpl. rewrite decide_False by lia. done.
  - apply run_bind, run_gets. pose proof (bo_blk _ B k ltac:(lia)) as V.
    pose proof (vi_geom _ _ _ I) as [Gd Gs Gb].
    rewrite u32_small by (destruct V; unfold is_u32; nia).
    run_step ext2_write_block_run as (-> & I1 & F1 & E1);
      [done|done|apply sub_ok, B|rewrite length_sub; pose proof (bo_len _ B); nia|].
    run_last IH as (F2 & E2 & I2); [done|by rewrite F1|lia|rewrite F1; lia|].
    split_and!; [congruence|unfold same_env in *; simpl in *; rest_chain|].
    eapply vinv_ext; [done| |done]. intros b. rewrite F1. simpl.
    repeat case_decide; try lia; try done. repeat f_equal; lia.
Qed.

Lemma ext2_bgdt_write_back_run d s v :
  vinv d s v -> fs_mounted (e_fs s) = true -> bgdt_ok (e_fs s) -> 0 <= fs_bgdt_blocks (e_fs s) ->
  run ext2_bgdt_write_back s (fun _ s' => e_fs s' = e_fs s /\ same_env s s' /\
    vinv d s' (vset_bgdt (e_fs s) 0 (fs_bgdt_blocks (e_fs s)) v)).
Proof.
  intros I Hm B Hn. unfold ext2_bgdt_write_back. apply run_bind, run_gets. rewrite Hm. simpl.
  destruct (bo_some _ B) as [x Hx]. rewrite Hx.
  run_last write_bgdt_run as (F & E1 & I1); [done|done|lia|lia|].
  rewrite Z2Nat.id in I1 by done. done.
Qed.
End Volume.

(** ** Mounting *)

Section Mount.
Context {W : Type} `{MachineOk W}.
Abbreviation E := (ext2 W).
Implicit Types (s : E) (d : disk_device).

Lemma super_block_size log :
  let bs := u32 (Z.shiftl 1024 (log mod 32)) in
  (bs <? 1024) || (4096 <? bs) || negb (Z.land bs 511 =? 0) = false ->
  bs = 1024 \/ bs = 2048 \/ bs = 4096.
Proof.
  intros bs Hc.
  assert (forallb (fun k => let bs := u32 (Z.shiftl 1024 k) in
            (bs <? 1024) || (4096 <? bs) || negb (Z.land bs 511 =? 0) ||
            (bs =? 1024) || (bs =? 2048) || (bs =? 4096)) (seqZ 0 32) = true) as Hall
    by (vm_compute; done).
  rewrite forallb_forall in Hall. assert (In (log mod 32) (seqZ 0 32)) as Hin.
  { apply list_elem_of_In, elem_of_seqZ. pose proof (Z.mod_pos_bound log 32). lia. }
  specialize (Hall _ Hin). clear Hin.
  cbv zeta in Hall. unfold bs in *.
  rewrite Hc in Hall. simpl in Hall. rewrite !orb_true_iff, !Z.eqb_eq in Hall.
  destruct Hall as [[?|?]|?]; auto.
Qed.

(** What the checks of [ext2_super_read] guarantee. *)
Lemma super_geometry_spec d raw fs :
  super_geometry d raw = Some fs ->
  geom fs d /\ fs_mounted fs = false /\ fs_bgdt fs = None /\
  (fs_block_size fs = 1024 \/ fs_block_size fs = 2048 \/ fs_block_size fs = 4096) /\
  EXT2_MIN_INODE_SIZE <= fs_inode_size fs <= fs_block_size fs /\
  fs_inodes_per_group fs <> 0 /\ fs_blocks_per_group fs <> 0 /\ fs_num_groups fs <> 0 /\
  s_magic raw = EXT2_MAGIC.
Proof.
  unfold super_geometry. intros Hg.
  repeat match type of Hg with
  | (if ?c then _ else _) = _ => destruct c eqn:?; [done|]
  end.
  injection Hg as <-.
  match goal with Hb : _ || _ || negb (Z.land _ 511 =? 0) = false |- _ =>
    apply super_block_size in Hb as Hbs end.
  rewrite !orb_false_iff, ?negb_false_iff in *. destruct_and?.
  repeat match goal with
  | X : (_ =? _) = false |- _ => apply Z.eqb_neq in X
  | X : (_ =? _) = true |- _ => apply Z.eqb_eq in X
  | X : (_ <? _) = false |- _ => apply Z.ltb_ge in X
  end.
  split_and!; try done; simpl; try lia.
  split; simpl; [done| |]; destruct Hbs as [-> | [-> | ->]]; vm_compute; intuition congruence.
Qed.
End Mount.
Section Mounting.
Context {W : Type} `{MachineOk W}.
Abbreviation E := (ext2 W).
Implicit Types (s : E) (d : disk_device).

(** [s'] differs from [s] in the machine only, and holds the same sectors. *)
Definition only_io s s' : Prop :=
  e_fs s' = e_fs s /\ g_cache s' = g_cache s /\ g_lru_seq s' = g_lru_seq s /\
  quiet (e_w s) (e_w s').

#[local] Instance only_io_preorder : PreOrder only_io.
Proof.
  split; [by intros s; repeat split|].
  intros s1 s2 s3 (A1 & A2 & A3 & A4) (B1 & B2 & B3 & B4).
  split_and!; try congruence. by transitivity (e_w s2).
Qed.

Lemma lift_disk_read_io d l s :
  run (lift_w (disk_read d l)) s (fun r s' => only_io s s' /\
    (lba_ok l -> forall x, r = Some x -> x = sector (e_w s) d l)).
Proof.
  unfold run, lift_w. pose proof (disk_read_quiet d l (e_w s)) as Q.
  pose proof (fun x => disk_read_some d l (e_w s) x) as P.
  destruct (disk_read d l (e_w s)) as [r w]. simpl in *. split; [done|].
  intros Hl x ->. by apply P.
Qed.

Lemma lift_kmalloc_io n s : run (lift_w (kmalloc n)) s (fun _ s' => only_io s s').
Proof.
  unfold run, lift_w. pose proof (kmalloc_quiet n (e_w s)) as Q.
  by destruct (kmalloc n (e_w s)) as [r w].
Qed.

Lemma lift_kfree_io p s : run (lift_w (kfree p)) s (fun _ s' => only_io s s').
Proof.
  unfold run, lift_w. pose proof (kfree_quiet p (e_w s)) as Q.
  by destruct (kfree p (e_w s)) as [r w].
Qed.

Lemma sectors_cons (w : W) d base n :
  sectors w d base (S n) = sector w d base ++ sectors w d (base + 1) n.
Proof.
  unfold sectors. simpl. rewrite Z.add_0_r. f_equal. rewrite <- fmap_S_seq, <- list_fmap_compose.
  f_equal. apply list_fmap_ext. intros i x Hx. simpl. f_equal. lia.
Qed.

Lemma read_sectors_io d n : forall lba s,
  run (read_sectors d n lba) s (fun r s' => only_io s s' /\
    (0 <= lba -> lba + Z.of_nat n <= 2 ^ 28 ->
     forall x, r = Some x -> x = sectors (e_w s) d lba n)).
Proof.
  induction n as [|n IH]; intros lba s; cbn [read_sectors].
  - apply run_ret. split; [done|]. by intros _ _ x [= <-].
  - run_step lift_disk_read_io as (O1 & R1). destruct a as [x|].
    2: { apply run_ret. split; [done|]. by intros. }
    run_step IH as (O2 & R2). apply run_ret. split; [by etransitivity|].
    intros H1' H2' y Hy. destruct a as [rest|]; [|done]. injection Hy as <-.
    rewrite sectors_cons. f_equal.
    + rewrite u32_small in R1 by (unfold is_u32; lia). apply R1; [unfold lba_ok; lia|done].
    + rewrite (R2 ltac:(lia) ltac:(lia) rest eq_refl). apply sectors_ext.
      intros k Hk. apply quiet_sector, O1.
Qed.

(** Consecutive blocks are consecutive sectors. *)
Lemma sectors_app (w : W) d base n m :
  sectors w d base (n + m) = sectors w d base n ++ sectors w d (base + Z.of_nat n) m.
Proof.
  revert base. induction n as [|n IH]; intros base.
  - by rewrite Z.add_0_r.
  - cbn [Nat.add]. rewrite !sectors_cons, IH, <- app_assoc. do 3 f_equal. lia.
Qed.

Lemma read_bgdt_io d spb n : forall blk s, 1 <= spb <= 8 ->
  run (read_bgdt d n blk spb) s (fun r s' => only_io s s' /\
    (0 <= blk -> (blk + Z.of_nat n) * spb <= 2 ^ 28 ->
     forall x, r = Some x -> x = sectors (e_w s) d (blk * spb) (n * Z.to_nat spb))).
Proof.
  induction n as [|n IH]; intros blk s Hspb; cbn [read_bgdt].
  - apply run_ret. split; [done|]. by intros _ _ x [= <-].
  - run_step read_sectors_io as (O1 & R1). destruct a as [x|].
    2: { apply run_ret. split; [done|]. by intros. }
    run_step IH as (O2 & R2); [done|]. apply run_ret. split; [by etransitivity|].
    intros H1' H2' y Hy. destruct a as [rest|]; [|done]. injection Hy as <-.
    cbn [Nat.mul]. rewrite sectors_app.
    rewrite (u32_small blk), u32_small in R1 by (unfold is_u32; nia).
    rewrite (R1 ltac:(lia) ltac:(nia) x eq_refl). f_equal.
    rewrite (R2 ltac:(lia) ltac:(nia) rest eq_refl).
    replace (blk * spb + Z.of_nat (Z.to_nat spb)) with ((blk + 1) * spb) by lia.
    apply sectors_ext. intros k Hk. apply quiet_sector, O1.
Qed.

Lemma super_bgdt_block_nonneg d raw fs :
  super_geometry d raw = Some fs -> 0 <= fs_bgdt_block fs /\ 0 <= fs_bgdt_blocks fs.
Proof.
  intros Hg. pose proof (super_geometry_spec _ _ _ Hg) as (_ & _ & _ & Hbs & _).
  unfold super_geometry in Hg.
  repeat match type of Hg with (if ?c then _ else _) = _ => destruct c; [done|] end.
  injection Hg as <-. simpl in *. split; [apply u32_range|].
  apply Z.div_pos; [apply u32_range|]. lia.
Qed.

(** A state of the driver at any time: the four slots are there. *)
Definition cache_shape s : Prop :=
  length (g_cache s) = EXT2_BLOCK_CACHE_SLOTS /\ Forall slot_ok (g_cache s).

Lemma flush_shape s : cache_shape s -> cache_shape (ext2_block_cache_flush s).2.
Proof.
  intros [Hl Hs]. split; simpl; [by rewrite length_fmap|].
  rewrite Forall_fmap. eapply Forall_impl; [done|]. by intros c.
Qed.

(** An empty cache is coherent. *)
Lemma block_inv_empty d s :
  geom (e_fs s) d -> cache_shape s -> Forall (fun c => blk_no c = 0) (g_cache s) -> block_inv d s.
Proof.
  intros G [Hl Hs] He. split; try done.
  - intros i c Hc Hne. destruct Hne. by eapply Forall_lookup_1 in He.
  - intros i j c c' Hc Hc' _ Hne. destruct Hne. by eapply Forall_lookup_1 in He.
Qed.

(** Outcome of [ext2_mount], whatever the disk answers: it never leaves a
    half-mounted file system, and a mounted one has the geometry of the
    superblock, a coherent cache and the descriptor table of the disk. *)
Definition mount_result d s (rc : Z) s' : Prop :=
  quiet (e_w s) (e_w s') /\
  ((rc = -1 /\ fs_mounted (e_fs s') = false) \/
   (rc = 0 /\ block_inv d s' /\ exists fs p t,
      super_geometry d (sectors (e_w s) d 2 2) = Some fs /\
      e_fs s' = set_fs_mounted true (set_fs_bgdt (Some (p, t)) fs) /\
      ((fs_bgdt_block fs + fs_bgdt_blocks fs) * fs_sectors_per_block fs <= 2 ^ 28 ->
       t = sectors (e_w s) d (fs_bgdt_block fs * fs_sectors_per_block fs)
             (Z.to_nat (fs_bgdt_blocks fs) * Z.to_nat (fs_sectors_per_block fs))))).

Lemma mount_fail d s s1 s' :
  quiet (e_w s) (e_w s1) -> only_io s1 s' -> fs_mounted (e_fs s1) = false -> mount_result d s (-1) s'.
Proof.
  intros Hw (F & _ & _ & Q) Hm. split; [by transitivity (e_w s1)|]. left. by rewrite F.
Qed.

(** The last part of [ext2_super_read]: allocating and loading the table. *)
Lemma load_bgdt_spec d s s1 fs :
  quiet (e_w s) (e_w s1) -> cache_shape s1 -> Forall (fun c => blk_no c = 0) (g_cache s1) ->
  super_geometry d (sectors (e_w s) d 2 2) = Some fs -> e_fs s1 = fs ->
  run (p ← lift_w (kmalloc (u32 (fs_bgdt_blocks fs * fs_block_size fs)));
       match p with
       | None => mret (-1)
       | Some p =>
           t ← read_bgdt d (Z.to_nat (fs_bgdt_blocks fs)) (fs_bgdt_block fs)
                 (fs_sectors_per_block fs);
           match t with
           | None => _ ← lift_w (kfree (Some p)); mret (-1)
           | Some t => _ ← put_fs (set_fs_mounted true (set_fs_bgdt (Some (p, t)) fs)); mret 0
           end
       end) s1 (mount_result d s).
Proof.
  intros Q Hsh Hem Hg Hfs. pose proof (super_geometry_spec _ _ _ Hg) as (G & Hm & _).
  assert (fs_mounted (e_fs s1) = false) as Hm1 by (by rewrite Hfs).
  run_step lift_kmalloc_io as O1. destruct a as [p|]; [|apply run_ret; by eapply mount_fail].
  run_step read_bgdt_io as (O2 & R2); [destruct G; lia|].
  assert (only_io s1 s'0) as O2' by (by etransitivity).
  destruct a as [t|].
  2: { run_step lift_kfree_io as O3. apply run_ret.
       eapply mount_fail; [done| |done]. by transitivity s'0. }
  apply run_bind, run_modify, run_ret. destruct O2' as (F2 & C2 & _ & Q2).
  split; [by transitivity (e_w s1)|]. right. split; [done|]. split.
  - apply block_inv_empty; unfold cache_shape; simpl; rewrite ?C2; try done. by destruct G.
  - exists fs, p, t. split_and!; try done. intros Hr.
    rewrite (R2 (proj1 (super_bgdt_block_nonneg _ _ _ Hg))) with t; [|rewrite Z2Nat.id by apply (super_bgdt_block_nonneg _ _ _ Hg); done|done].
    apply sectors_ext. intros k _. rewrite (quiet_sector (e_w s1)) by apply O1.
    by apply quiet_sector.
Qed.

Lemma ext2_super_read_spec d s :
  cache_shape s -> run (ext2_super_read (Some d)) s (mount_result d s).
Proof.
  intros Hshape. unfold ext2_super_read. apply run_bind, run_modify, run_bind.
  unfold ext2_block_cache_flush at 1. apply run_modify, run_bind, run_gets.
  set (s1 := set_lru 0 _).
  assert (cache_shape s1) as Hsh1 by apply (flush_shape (set_e_fs ext2_fs_zero s) Hshape).
  assert (Forall (fun c => blk_no c = 0) (g_cache s1)) as Hfl.
  { simpl. rewrite Forall_fmap. by apply Forall_true. }
  assert (fs_mounted (e_fs s1) = false) as Hm1 by done.
  assert (quiet (e_w s) (e_w s1)) as Hw by done. clearbody s1.
  destruct (disk_present d _); cbn [negb]; [|apply run_ret; by eapply mount_fail].
  unfold read_super_raw. apply run_bind.
  run_step lift_disk_read_io as (O2 & R2).
  destruct a as [x2|]; [|repeat apply run_ret; by eapply mount_fail].
  run_step lift_disk_read_io as (O3 & R3). apply run_ret. cbn [fmap option_fmap option_map].
  assert (only_io s1 s'0) as O3' by (by etransitivity).
  destruct a as [x3|]; [|apply run_ret; by eapply mount_fail]. cbn [fmap option_fmap option_map].
  rewrite (R2 ltac:(unfold lba_ok; lia) x2 eq_refl), (R3 ltac:(unfold lba_ok; lia) x3 eq_refl).
  rewrite (quiet_sector _ _ d 3 (proj2 (proj2 (proj2 O2)))), !(quiet_sector _ _ _ _ Hw), <- sectors_two.
  destruct (super_geometry d _) as [fs|] eqn:Hg; [|apply run_ret; by eapply mount_fail].
  apply run_bind, run_modify. destruct O3' as (F3 & C3 & _ & Q3).
  eapply load_bgdt_spec; try done; unfold cache_shape; simpl; rewrite ?C3; try done.
  by transitivity (e_w s1).
Qed.

Lemma mount_result_quiet d s s1 rc s' :
  quiet (e_w s) (e_w s1) -> mount_result d s1 rc s' -> mount_result d s rc s'.
Proof.
  intros Q (Q1 & [?|(-> & I & fs & p & t & Hg & Hf & Ht)]).
  { split; [by transitivity (e_w s1)|by left]. }
  split; [by transitivity (e_w s1)|]. right. split_and!; [done|done|].
  assert (forall b n, sectors (e_w s1) d b n = sectors (e_w s) d b n) as Hs.
  { intros b n. apply sectors_ext. intros. by apply quiet_sector. }
  rewrite Hs in Hg. setoid_rewrite Hs in Ht. by exists fs, p, t.
Qed.

End Mounting.

(** ** The cached blocks as an array *)

Inductive block_op := BRead (b : Z) | BWrite (b : Z) (x : list Z).

Definition op_ok (fs : ext2_fs) (op : block_op) : Prop :=
  match op with
  | BRead b => blk_valid fs b
  | BWrite b x => blk_valid fs b /\ bytes_ok x /\ length x = Z.to_nat (fs_block_size fs)
  end.

(** The reference: an array of blocks; the results are those of the reads. *)
Fixpoint run_plain (ops : list block_op) (D : Z -> list Z) : list (option (list Z)) * (Z -> list Z) :=
  match ops with
  | [] => ([], D)
  | BRead b :: ops => let '(rs, D') := run_plain ops D in (Some (D b) :: rs, D')
  | BWrite b x :: ops => run_plain ops (fun b' => if decide (b' = b) then x else D b')
  end.

Section Array.
Context {W : Type} `{MachineOk W}.
Abbreviation E := (ext2 W).
Implicit Types (s : E) (d : disk_device).

Fixpoint run_cached (ops : list block_op) : state E (list (option (list Z))) :=
  match ops with
  | [] => mret []
  | BRead b :: ops => r ← read_block_copy b; rs ← run_cached ops; mret (r :: rs)
  | BWrite b x :: ops => _ ← ext2_write_block b x; run_cached ops
  end.

(** C11: the block cache is transparent: on a healthy disk any sequence
    of block reads and writes through the four-slot cache returns what a plain
    array of blocks returns, and leaves the disk with the array's contents. *)
Theorem block_cache_transparent d ops s v :
  vinv d s v -> Forall (op_ok (e_fs s)) ops ->
  run (run_cached ops) s (fun rs s' => rs = (run_plain ops (v_blk v)).1 /\
    vinv d s' (mk_vol (run_plain ops (v_blk v)).2 (v_sb v))).
Proof.
  revert s v. induction ops as [|[b|b x] ops IH]; intros s v I Hops; cbn [run_cached run_plain].
  - apply run_ret. split; [done|]. by eapply vinv_ext.
  - apply Forall_cons in Hops as [Hop Hops].
    run_step read_block_copy_run as (-> & I1 & F1 & _); [done|done|].
    run_step IH as (-> & I2); [done|by rewrite F1|].
    apply run_ret. by destruct (run_plain ops (v_blk v)).
  - apply Forall_cons in Hops as [(V & Hx & Hl) Hops].
    run_step ext2_write_block_run as (-> & I1 & F1 & _); [done..|].
    run_last IH as (-> & I2); [done|by rewrite F1|]. done.
Qed.

(** The counters of the slots are not ahead of the clock, which does not wrap. *)
Definition lru_inv s : Prop :=
  Forall (fun c => 0 <= lru_seq c <= g_lru_seq s) (g_cache s) /\ 0 <= g_lru_seq s < 2 ^ 32 - 1.

(** Which slot a read touches: the one that holds the block, or the victim. *)
Lemma read_block_slot d s b r s' :
  block_inv d s -> blk_valid (e_fs s) b -> ext2_read_block b s = (r, s') ->
  exists i c, g_cache s' = <[i := c]> (g_cache s) /\ (r = None \/ r = Some i) /\
    i = default (cache_victim (g_cache s)) (cache_find b (g_cache s)) /\
    (i < length (g_cache s))%nat /\
    (is_Some r -> lru_seq c = u32 (g_lru_seq s + 1) /\ g_lru_seq s' = u32 (g_lru_seq s + 1)).
Proof.
  intros I [Hb0 Hb1] Hr. pose proof (bi_geom _ _ I) as [Gd Gs Gb].
  unfold ext2_read_block in Hr. destruct (Z.eqb_spec b 0); [lia|].
  destruct (cache_find b (g_cache s)) as [i|] eqn:Ef.
  - apply cache_find_Some in Ef as (c & Hc & Hcb).
    unfold mbind, state_bind, touch_slot, upd_slot, modify, mret, state_ret in Hr.
    injection Hr as <- <-. simpl. rewrite (alter_as_insert _ _ _ c) by done.
    eexists i, _. split_and!; [done|by right|done|by eapply lookup_lt_Some|done].
  - set (v := cache_victim (g_cache s)) in *.
    assert (v < length (g_cache s))%nat as Hv.
    { apply cache_victim_lt. intros E0. pose proof (bi_len _ _ I) as L. by rewrite E0 in L. }
    destruct (lookup_lt_is_Some_2 (g_cache s) v Hv) as [c Hc].
    assert (slot_ok c) as Hok by (eapply Forall_lookup_1; [apply I | done]).
    rewrite u32_small in Hr by (unfold is_u32; nia).
    unfold mbind at 1, state_bind at 1 in Hr.
    destruct (fill_slot _ 0 _ v s) as [ok s1] eqn:Hfill.
    eapply (fill_slot_spec d _ 0 _ v c) in Hfill as (F1 & F2 & _ & (c1 & Hc1 & _) & _);
      [ | done | lia | nia | nia | lia | done | done | done ].
    destruct ok.
    + unfold mbind, state_bind, touch_slot, upd_slot, modify, mret, state_ret in Hr.
      injection Hr as <- <-. simpl. rewrite F2, Hc1.
      rewrite (alter_as_insert _ (<[v:=c1]> _) v c1) by (by apply list_lookup_insert_eq).
      rewrite list_insert_insert_eq.
      rewrite (alter_as_insert _ _ _ (mk_slot b (lru_seq c1) (slot_data c1)))
        by (by apply list_lookup_insert_eq).
      rewrite list_insert_insert_eq. eexists v, _. split_and!; [done|by right|done|done|done].
    + injection Hr as <- <-. exists v, c1. split_and!; [done|by left|done|done|by intros [? ?]].
Qed.

(** LRU order: the slot a read returned is not the one the next
    miss evicts, so the pointer still shows the same block and the same bytes
    after one more read of any block, successful or not. *)
Theorem lru_keeps_latest d s b p s1 b' r s2 :
  block_inv d s -> lru_inv s -> blk_valid (e_fs s) b -> blk_valid (e_fs s) b' -> b <> b' ->
  ext2_read_block b s = (Some p, s1) -> ext2_read_block b' s1 = (r, s2) ->
  slot_at s2 p = mk_slot b (u32 (g_lru_seq s + 1)) (deref s1 p).
Proof.
  intros I [Hlru Hg] V V' Hne E1 E2.
  pose proof (ext2_read_block_spec _ _ _ _ _ I V E1) as (I1 & F1 & _ & P1 & _).
  destruct (P1 p eq_refl) as [Hb _].
  destruct (read_block_slot _ _ _ _ _ I V E1) as (i & c & C1 & [?|[= <-]] & _ & Hi & Hc); [done|].
  destruct (Hc (mk_is_Some _ _ eq_refl)) as [Hc1 Hc2]. clear Hc.
  rewrite <- F1 in V'.
  destruct (read_block_slot _ _ _ _ _ I1 V' E2) as (j & c' & C2 & _ & Hj & Hjl & _).
  assert (g_cache s1 !! p = Some c) as Hp by (rewrite C1; by apply list_lookup_insert_eq).
  assert (slot_at s1 p = c) as Hs1 by (unfold slot_at; by rewrite Hp).
  assert (j <> p) as Hjp.
  { intros ->. destruct (cache_find b' (g_cache s1)) as [k|] eqn:Ef; simpl in Hj.
    - subst k. apply cache_find_Some in Ef as (c2 & Hc2' & Hb'). rewrite Hp in Hc2'.
      injection Hc2' as <-. congruence.
    - destruct (cache_victim_min (g_cache s1)) as (vc & Hv & Hmin).
      { intros E0. rewrite E0 in Hjl. simpl in Hjl. lia. }
      rewrite <- Hj, Hp in Hv. injection Hv as <-.
      assert (exists k c0, k <> p /\ g_cache s !! k = Some c0) as (k & c0 & Hk & Hk0).
      { pose proof (bi_len _ _ I) as L. unfold EXT2_BLOCK_CACHE_SLOTS in L.
        destruct (decide (p = 0%nat)) as [->|].
        - destruct (lookup_lt_is_Some_2 (g_cache s) 1) as [x ?]; [lia|]. by exists 1%nat, x.
        - destruct (lookup_lt_is_Some_2 (g_cache s) 0) as [x ?]; [lia|]. by exists 0%nat, x. }
      assert (lru_seq c <= lru_seq c0) as Hle.
      { eapply (Forall_lookup_1 _ _ k) in Hmin; [done|]. rewrite C1.
        by rewrite list_lookup_insert_ne. }
      eapply (Forall_lookup_1 _ _ k) in Hlru; [|done]. simpl in Hlru.
      rewrite Hc1, u32_small in Hle by (unfold is_u32; lia). lia. }
  unfold slot_at at 1. rewrite C2, list_lookup_insert_ne, Hp by done. simpl.
  unfold deref. rewrite Hs1 in Hb |- *. rewrite <- Hb, <- Hc1. by destruct c.
Qed.
End Array.
