(* ===== verification/Ext2Inode.v ===== *)
(** * EXT2 inodes and allocation (fs/ext2/inode.c, fs/ext2/alloc.c)

    Reading and writing inodes in the inode table, and the bitmap allocators
    for blocks and inodes. *)

From S2P Require Import Prelude Machine VfsTypes Ext2Layout Ext2Block Ext2Super.

Section Inode.
Context {W : Type} `{Machine W}.
Abbreviation E := (ext2 W).

(** ** fs/ext2/inode.c: the inode table *)

(** Block and offset of inode [ino] in the table, or [None] where the code
    refuses the number. *)
Definition inode_loc (fs : ext2_fs) (ino : Z) : option (Z * Z) :=
  if (ino =? 0) || (fs_total_inodes fs <? ino) then None else
  let group := (ino - 1) / fs_inodes_per_group fs in
  let local_idx := (ino - 1) mod fs_inodes_per_group fs in
  if fs_num_groups fs <=? group then None else
  let byte_off := u32 (local_idx * fs_inode_size fs) in
  let table_block := bg_inode_table (bgdt_bytes fs) group in
  let block_off := byte_off / fs_block_size fs in
  let off_in_block := byte_off mod fs_block_size fs in
  Some (u32 (table_block + block_off), off_in_block).

(** [ext2_read_inode]: the bytes are copied out of the cache slot at once. *)
Definition ext2_read_inode (ino : Z) : state E (option ext2_inode) :=
  fs ← ext2_get_fs;
  match inode_loc fs ino with
  | None => mret None
  | Some (blk, off) =>
      p ← ext2_read_block blk;
      s ← get;
      mret (match p with
            | None => None
            | Some p => Some (inode_decode (sub (deref s p) off EXT2_MIN_INODE_SIZE))
            end)
  end.

(** [ext2_write_inode]: 0 or -1. *)
Definition ext2_write_inode (ino : Z) (i : ext2_inode) : state E Z :=
  fs ← ext2_get_fs;
  match inode_loc fs ino with
  | None => mret (-1)
  | Some (blk, off) =>
      r ← read_block_copy blk;
      match r with
      | None => mret (-1)
      | Some buf => ext2_write_block blk (put buf off (inode_encode i))
      end
  end.

(** ** fs/ext2/alloc.c *)

(** The first clear bit before the scan stops. *)
Fixpoint scan_bitmap (n : nat) (i : Z) (bitmap : list Z) (stop : Z -> bool) : option Z :=
  match n with
  | O => None
  | S n => if stop i then None
           else if bm_test bitmap i then scan_bitmap n (i + 1) bitmap stop
           else Some i
  end.

(** [fs->bgdt[g].field++] and the like, on the in-memory table. *)
Definition upd_bgdt (f : list Z -> list Z) : state E unit :=
  modify (fun s => set_e_fs (set_bgdt_bytes (f (bgdt_bytes (e_fs s))) (e_fs s)) s).

(** [ext2_alloc_block], from group [g] on with [n] groups left. *)
Fixpoint alloc_block_from (n : nat) (g : Z) : state E (option Z) :=
  match n with
  | O => mret None
  | S n =>
      fs ← ext2_get_fs;
      if bg_free_blocks_count (bgdt_bytes fs) g =? 0 then alloc_block_from n (g + 1) else
      let bitmap_blk := bg_block_bitmap (bgdt_bytes fs) g in
      r ← read_block_copy bitmap_blk;
      match r with
      | None => mret None
      | Some bitmap =>
          let group_first_block := u32 (fs_first_data_block fs + u32 (g * fs_blocks_per_group fs)) in
          match scan_bitmap (Z.to_nat (fs_blocks_per_group fs)) 0 bitmap
                  (fun i => fs_total_blocks fs <=? u32 (group_first_block + i)) with
          | None => alloc_block_from n (g + 1)
          | Some i =>
              let blk_no := u32 (group_first_block + i) in
              rc ← ext2_write_block bitmap_blk (bm_set bitmap i);
              if negb (rc =? 0) then mret None else
              _ ← upd_bgdt (fun b => add_free_blocks b g (-1));
              _ ← ext2_bgdt_write_back;
              _ ← ext2_super_adjust_free (-1) 0;
              rc ← ext2_write_block blk_no (zeros (fs_block_size fs));
              if negb (rc =? 0) then mret None else mret (Some blk_no)
          end
      end
  end.
Definition ext2_alloc_block : state E (option Z) :=
  fs ← ext2_get_fs; alloc_block_from (Z.to_nat (fs_num_groups fs)) 0.

(** [ext2_free_block]. *)
Definition ext2_free_block (blk : Z) : state E unit :=
  fs ← ext2_get_fs;
  if blk <? fs_first_data_block fs then mret tt else
  let g := (blk - fs_first_data_block fs) / fs_blocks_per_group fs in
  let i := (blk - fs_first_data_block fs) mod fs_blocks_per_group fs in
  if fs_num_groups fs <=? g then mret tt else
  let bitmap_blk := bg_block_bitmap (bgdt_bytes fs) g in
  r ← read_block_copy bitmap_blk;
  match r with
  | None => mret tt
  | Some bitmap =>
      if negb (bm_test bitmap i) then mret tt else
      rc ← ext2_write_block bitmap_blk (bm_clear bitmap i);
      if negb (rc =? 0) then mret tt else
      _ ← upd_bgdt (fun b => add_free_blocks b g 1);
      _ ← ext2_bgdt_write_back;
      _ ← ext2_super_adjust_free 1 0;
      mret tt
  end.

(** [ext2_alloc_inode]. *)
Fixpoint alloc_inode_from (n : nat) (g : Z) (is_dir : bool) : state E (option Z) :=
  match n with
  | O => mret None
  | S n =>
      fs ← ext2_get_fs;
      if bg_free_inodes_count (bgdt_bytes fs) g =? 0 then alloc_inode_from n (g + 1) is_dir else
      let bitmap_blk := bg_inode_bitmap (bgdt_bytes fs) g in
      r ← read_block_copy bitmap_blk;
      match r with
      | None => mret None
      | Some bitmap =>
          let ino i := u32 (u32 (g * fs_inodes_per_group fs) + i + 1) in
          match scan_bitmap (Z.to_nat (fs_inodes_per_group fs)) 0 bitmap
                  (fun i => fs_total_inodes fs <? ino i) with
          | None => alloc_inode_from n (g + 1) is_dir
          | Some i =>
              rc ← ext2_write_block bitmap_blk (bm_set bitmap i);
              if negb (rc =? 0) then mret None else
              _ ← upd_bgdt (fun b => let b := add_free_inodes b g (-1) in
                                     if is_dir then add_used_dirs b g 1 else b);
              _ ← ext2_bgdt_write_back;
              _ ← ext2_super_adjust_free 0 (-1);
              mret (Some (ino i))
          end
      end
  end.
Definition ext2_alloc_inode (is_dir : bool) : state E (option Z) :=
  fs ← ext2_get_fs; alloc_inode_from (Z.to_nat (fs_num_groups fs)) 0 is_dir.

(** [ext2_free_inode]. *)
Definition ext2_free_inode (ino : Z) (is_dir : bool) : state E unit :=
  fs ← ext2_get_fs;
  if (ino =? 0) || (fs_total_inodes fs <? ino) then mret tt else
  let g := (ino - 1) / fs_inodes_per_group fs in
  let i := (ino - 1) mod fs_inodes_per_group fs in
  if fs_num_groups fs <=? g then mret tt else
  let bitmap_blk := bg_inode_bitmap (bgdt_bytes fs) g in
  r ← read_block_copy bitmap_blk;
  match r with
  | None => mret tt
  | Some bitmap =>
      if negb (bm_test bitmap i) then mret tt else
      rc ← ext2_write_block bitmap_blk (bm_clear bitmap i);
      if negb (rc =? 0) then mret tt else
      _ ← upd_bgdt (fun b => let b := add_free_inodes b g 1 in
                             if is_dir && (0 <? bg_used_dirs_count b g)
                             then add_used_dirs b g (-1) else b);
      _ ← ext2_bgdt_write_back;
      _ ← ext2_super_adjust_free 0 1;
      _ ← ext2_write_inode ino inode_zero;
      mret tt
  end.
End Inode.
