(* ===== verification/Ext2Alloc.v ===== *)
(** * EXT2 allocation: specification and proofs

    What a consistent volume is ([layout_ok] for the geometry and the places
    of the metadata, [vol_ok] for the bitmaps, the counters and the descriptor
    table) and what the allocators of fs/ext2/alloc.c (modelled in
    Ext2Inode.v) do to it: an allocated block was free, is no metadata, comes
    back zeroed, and nothing else but the bitmap and the counters changes;
    allocation fails only on a full volume; freeing is the inverse. *)

From S2P Require Import Prelude Machine VfsTypes Ext2Layout Ext2Block Ext2Super Ext2Inode.

(** ** Layout *)

(** The blocks that hold metadata. *)
Inductive meta :=
  | MBgdt (k : Z)          (* block [k] of the descriptor table *)
  | MBbm (g : Z)           (* block bitmap of group [g] *)
  | MIbm (g : Z)           (* inode bitmap of group [g] *)
  | MItab (g k : Z).       (* block [k] of the inode table of group [g] *)

Definition itab_blocks (fs : ext2_fs) : Z :=
  (fs_inodes_per_group fs * fs_inode_size fs + fs_block_size fs - 1) / fs_block_size fs.

Definition meta_in (fs : ext2_fs) (m : meta) : Prop :=
  match m with
  | MBgdt k => 0 <= k < fs_bgdt_blocks fs
  | MBbm g | MIbm g => 0 <= g < fs_num_groups fs
  | MItab g k => 0 <= g < fs_num_groups fs /\ 0 <= k < itab_blocks fs
  end.

Definition meta_addr (fs : ext2_fs) (m : meta) : Z :=
  match m with
  | MBgdt k => fs_bgdt_block fs + k
  | MBbm g => bg_block_bitmap (bgdt_bytes fs) g
  | MIbm g => bg_inode_bitmap (bgdt_bytes fs) g
  | MItab g k => bg_inode_table (bgdt_bytes fs) g + k
  end.

Record layout_ok (fs : ext2_fs) : Prop := {
  lo_mounted : fs_mounted fs = true;
  lo_bgdt : bgdt_ok fs;
  lo_groups : 1 <= fs_num_groups fs /\ 32 * fs_num_groups fs <= Z.of_nat (length (bgdt_bytes fs));
  lo_bpg : 0 < fs_blocks_per_group fs <= 8 * fs_block_size fs;
  lo_ipg : 0 < fs_inodes_per_group fs <= 8 * fs_block_size fs;
  lo_isize : EXT2_MIN_INODE_SIZE <= fs_inode_size fs /\ fs_block_size fs mod fs_inode_size fs = 0;
  lo_first : 0 <= fs_first_data_block fs < fs_total_blocks fs;
  lo_total : fs_total_blocks fs * fs_sectors_per_block fs <= 2 ^ 28;
  lo_cover : fs_total_blocks fs <= fs_first_data_block fs
               + fs_num_groups fs * fs_blocks_per_group fs < 2 ^ 32;
  lo_inodes : 0 <= fs_total_inodes fs <= fs_num_groups fs * fs_inodes_per_group fs /\
              fs_num_groups fs * fs_inodes_per_group fs < 2 ^ 32;
  lo_valid m : meta_in fs m -> blk_valid fs (meta_addr fs m);
  lo_inj m m' : meta_in fs m -> meta_in fs m' -> meta_addr fs m = meta_addr fs m' -> m = m';
}.

(** ** Consistency *)

Definition blk_group (fs : ext2_fs) (b : Z) : Z :=
  (b - fs_first_data_block fs) / fs_blocks_per_group fs.
Definition blk_index (fs : ext2_fs) (b : Z) : Z :=
  (b - fs_first_data_block fs) mod fs_blocks_per_group fs.
Definition blk_in (fs : ext2_fs) (b : Z) : Prop :=
  fs_first_data_block fs <= b < fs_total_blocks fs.

(** The bitmap bit of block [b]. *)
Definition blk_used (fs : ext2_fs) (v : vol) (b : Z) : bool :=
  bm_test (v_blk v (meta_addr fs (MBbm (blk_group fs b)))) (blk_index fs b).

Definition group_first (fs : ext2_fs) (g : Z) : Z :=
  fs_first_data_block fs + g * fs_blocks_per_group fs.
Definition group_blocks (fs : ext2_fs) (g : Z) : Z :=
  fs_blocks_per_group fs `min` (fs_total_blocks fs - group_first fs g).

Definition ino_in (fs : ext2_fs) (ino : Z) : Prop := 1 <= ino <= fs_total_inodes fs.
Definition ino_used (fs : ext2_fs) (v : vol) (ino : Z) : bool :=
  bm_test (v_blk v (meta_addr fs (MIbm ((ino - 1) / fs_inodes_per_group fs))))
    ((ino - 1) mod fs_inodes_per_group fs).
Definition group_inodes (fs : ext2_fs) (g : Z) : Z :=
  fs_inodes_per_group fs `min` (fs_total_inodes fs - g * fs_inodes_per_group fs).

Record vol_ok (fs : ext2_fs) (v : vol) : Prop := {
  vo_sync k : 0 <= k < fs_bgdt_blocks fs ->
    v_blk v (fs_bgdt_block fs + k) = sub (bgdt_bytes fs) (k * fs_block_size fs) (fs_block_size fs);
  vo_meta m : meta_in fs m ->
    blk_in fs (meta_addr fs m) /\ blk_used fs v (meta_addr fs m) = true;
  vo_super b : blk_in fs b -> b * fs_sectors_per_block fs <= 3 -> blk_used fs v b = true;
  vo_free g : 0 <= g < fs_num_groups fs ->
    bg_free_blocks_count (bgdt_bytes fs) g =
    clear_bits (v_blk v (meta_addr fs (MBbm g))) (Z.to_nat (group_blocks fs g));
  vo_ifree g : 0 <= g < fs_num_groups fs ->
    bg_free_inodes_count (bgdt_bytes fs) g =
    clear_bits (v_blk v (meta_addr fs (MIbm g))) (Z.to_nat (group_inodes fs g));
}.

(** Data blocks: allocatable and no metadata. *)
Definition data_block (fs : ext2_fs) (b : Z) : Prop :=
  blk_in fs b /\ blk_valid fs b /\ forall m, meta_in fs m -> meta_addr fs m <> b.

(** ** The counters of the descriptor table *)

(** [fs'] is [fs] with other counters in the descriptor table. *)
Record counters_only (fs fs' : ext2_fs) : Prop := {
  co_eq : fs' = set_bgdt_bytes (bgdt_bytes fs') fs;
  co_some : is_Some (fs_bgdt fs) -> is_Some (fs_bgdt fs');
  co_len : length (bgdt_bytes fs') = length (bgdt_bytes fs);
  co_bytes : bytes_ok (bgdt_bytes fs) -> bytes_ok (bgdt_bytes fs');
  co_bbm g : 0 <= g -> bg_block_bitmap (bgdt_bytes fs') g = bg_block_bitmap (bgdt_bytes fs) g;
  co_ibm g : 0 <= g -> bg_inode_bitmap (bgdt_bytes fs') g = bg_inode_bitmap (bgdt_bytes fs) g;
  co_itab g : 0 <= g -> bg_inode_table (bgdt_bytes fs') g = bg_inode_table (bgdt_bytes fs) g;
}.

Section Counters.
Implicit Types (fs : ext2_fs) (t : list Z) (g : Z).

Lemma bgdt_bytes_set t fs : is_Some (fs_bgdt fs) -> bgdt_bytes (set_bgdt_bytes t fs) = t.
Proof. intros [[p x] Hp]. unfold bgdt_bytes, set_bgdt_bytes. simpl. by rewrite Hp. Qed.

(** Storing a 16-bit counter at offset 12, 14 or 16 of a descriptor. *)
Lemma counter_update fs g k x :
  is_Some (fs_bgdt fs) -> 0 <= g -> k = 12 \/ k = 14 \/ k = 16 ->
  counters_only fs (set_bgdt_bytes (put_le 2 (bgdt_bytes fs) (32 * g + k) x) fs).
Proof.
  intros Hs Hg Hk. set (t := put_le 2 _ _ _).
  pose proof (bgdt_bytes_set t fs Hs) as Ht. split; rewrite ?Ht.
  - done.
  - intros [y Hy]. unfold set_bgdt_bytes. simpl. rewrite Hy. by eexists.
  - apply length_put_le.
  - intros. by apply put_le_ok.
  - intros g' Hg'. apply get_put_le_ne; lia.
  - intros g' Hg'. apply get_put_le_ne; lia.
  - intros g' Hg'. apply get_put_le_ne; lia.
Qed.

#[global] Instance counters_only_trans : Transitive counters_only.
Proof.
  intros fs1 fs2 fs3 [A1 A2 A3 A4 A5 A6 A7] [B1 B2 B3 B4 B5 B6 B7]. split; auto.
  - rewrite B1 at 1. rewrite A1. unfold set_bgdt_bytes, set_fs_bgdt. simpl.
    f_equal. by destruct (fs_bgdt fs1).
  - congruence.
  - intros. rewrite B5, A5; auto.
  - intros. rewrite B6, A6; auto.
  - intros. rewrite B7, A7; auto.
Qed.

Lemma counters_only_refl fs : counters_only fs fs.
Proof.
  split; auto. unfold set_bgdt_bytes, bgdt_bytes. destruct fs as [? ? ? ? ? ? ? ? ? ? ? ? ? ? [[]|]]; done.
Qed.

Lemma counters_meta fs fs' m :
  counters_only fs fs' -> meta_in fs m -> meta_addr fs' m = meta_addr fs m.
Proof.
  intros C Hm. destruct m; simpl in *.
  - by rewrite (co_eq _ _ C).
  - apply C; lia.
  - apply C; lia.
  - f_equal. apply C; lia.
Qed.

Lemma counters_layout fs fs' : counters_only fs fs' -> layout_ok fs -> layout_ok fs'.
Proof.
  intros C L. pose proof (co_eq _ _ C) as Heq.
  assert (forall m, meta_in fs' m <-> meta_in fs m) as Hin.
  { intros m. rewrite Heq. by destruct m. }
  pose proof (lo_bgdt _ L) as [B1 B2 B3 B4].
  split; try (rewrite Heq; apply L).
  - split; [by apply C| | by apply C | by rewrite Heq].
    rewrite (co_len _ _ C), B2. by rewrite Heq.
  - rewrite (co_len _ _ C). rewrite Heq. apply L.
  - intros m Hm%Hin. rewrite (counters_meta fs) by done. rewrite Heq. exact (lo_valid _ L m Hm).
  - intros m m' Hm%Hin Hm'%Hin. rewrite (counters_meta fs fs' m), (counters_meta fs fs' m') by done. by apply (lo_inj _ L).
Qed.
End Counters.

(** ** Bitmap scan *)

Lemma scan_bitmap_Some n i bm stop j :
  scan_bitmap n i bm stop = Some j ->
  i <= j < i + Z.of_nat n /\ stop j = false /\ bm_test bm j = false.
Proof.
  revert i. induction n as [|n IH]; intros i; cbn [scan_bitmap]; [done|].
  destruct (stop i) eqn:Hs; [done|]. destruct (bm_test bm i) eqn:Ht.
  - intros H%IH. lia || (destruct H as (? & ? & ?); split_and!; try done; lia).
  - intros [= <-]. split_and!; try done; lia.
Qed.

Lemma scan_bitmap_None n i bm stop j :
  scan_bitmap n i bm stop = None -> i <= j < i + Z.of_nat n ->
  (forall k, i <= k <= j -> stop k = false) -> bm_test bm j = true.
Proof.
  revert i. induction n as [|n IH]; intros i; cbn [scan_bitmap]; [lia|].
  intros Hn Hj Hk. rewrite Hk in Hn by lia. destruct (bm_test bm i) eqn:Ht; [|done].
  destruct (Z.eq_dec j i) as [->|]; [done|]. apply (IH (i + 1)); [done|lia|].
  intros k Hk'. apply Hk. lia.
Qed.

(** ** Group arithmetic *)

Section Groups.
Context (fs : ext2_fs) (L : layout_ok fs).

Lemma group_of g i :
  0 <= i < fs_blocks_per_group fs ->
  blk_group fs (group_first fs g + i) = g /\ blk_index fs (group_first fs g + i) = i.
Proof.
  intros Hi. unfold blk_group, blk_index, group_first.
  replace (_ + _ + i - _) with (i + g * fs_blocks_per_group fs) by lia.
  rewrite Z.div_add, Z.mod_add, Z.div_small, Z.mod_small by lia. lia.
Qed.

Lemma blk_split b :
  blk_in fs b ->
  0 <= blk_group fs b < fs_num_groups fs /\ 0 <= blk_index fs b < fs_blocks_per_group fs /\
  b = group_first fs (blk_group fs b) + blk_index fs b /\
  blk_index fs b < group_blocks fs (blk_group fs b).
Proof.
  intros [Hb1 Hb2]. pose proof (lo_bpg _ L) as Hp. pose proof (lo_cover _ L) as Hc.
  unfold blk_group, blk_index, group_blocks, group_first in *.
  pose proof (Z.mod_pos_bound (b - fs_first_data_block fs) (fs_blocks_per_group fs) ltac:(lia)).
  pose proof (Z.div_mod (b - fs_first_data_block fs) (fs_blocks_per_group fs) ltac:(lia)).
  split_and!; try lia.
  - apply Z.div_pos; lia.
  - apply Z.div_lt_upper_bound; lia.
Qed.

(** Two blocks with the same group and index are the same. *)
Lemma blk_same b b' :
  blk_in fs b -> blk_in fs b' -> blk_group fs b = blk_group fs b' ->
  blk_index fs b = blk_index fs b' -> b = b'.
Proof.
  intros (_ & _ & E & _)%blk_split (_ & _ & E' & _)%blk_split Hg Hi. by rewrite E, E', Hg, Hi.
Qed.
End Groups.

(** ** Committing a bitmap *)

(** The volume after a bitmap block, the descriptor table and the superblock
    counters have been stored. *)
Definition commit_vol (fs' : ext2_fs) (a : Z) (bm : list Z) (bd id : Z) (v : vol) : vol :=
  vset_sb (adjust_raw bd id (v_sb v)) (vset_bgdt fs' 0 (fs_bgdt_blocks fs') (vset a bm v)).

Section Commit.
Context {W : Type} `{MachineOk W}.
Abbreviation E := (ext2 W).
Implicit Types (s : E) (v : vol) (d : disk_device).

Lemma vinv_set_fs d s v fs' :
  counters_only (e_fs s) fs' -> vinv d s v -> vinv d (set_e_fs fs' s) v.
Proof.
  intros C [[G B2 B3 B4 B5] I2 I3 I4]. pose proof (co_eq _ _ C) as Heq.
  split; [|done| |done].
  - split; try done; simpl; rewrite Heq; [by destruct G|done].
  - intros b V. unfold disk_block. simpl. rewrite Heq. apply I3. by rewrite Heq in V.
Qed.

Lemma commit_step {A} d s v a bm f bd id (fail : A) (k : state E A) Q :
  vinv d s v -> layout_ok (e_fs s) -> blk_valid (e_fs s) a ->
  length bm = Z.to_nat (fs_block_size (e_fs s)) -> bytes_ok bm ->
  counters_only (e_fs s) (set_bgdt_bytes (f (bgdt_bytes (e_fs s))) (e_fs s)) ->
  (forall s3, let fs' := set_bgdt_bytes (f (bgdt_bytes (e_fs s))) (e_fs s) in
     vinv d s3 (commit_vol fs' a bm bd id v) -> e_fs s3 = fs' -> same_env s s3 -> run k s3 Q) ->
  run (rc ← ext2_write_block a bm;
       if negb (rc =? 0) then mret fail else
       _ ← upd_bgdt f; _ ← ext2_bgdt_write_back; _ ← ext2_super_adjust_free bd id; k) s Q.
Proof.
  intros I L V Hl Hb C Hk.
  run_step ext2_write_block_run as (-> & I1 & F1 & E1); [done..|].
  apply run_bind, run_modify. rewrite F1.
  set (fs' := set_bgdt_bytes _ _) in *.
  assert (layout_ok fs') as L' by (by eapply counters_layout).
  rewrite <- F1 in C. pose proof (vinv_set_fs _ _ _ _ C I1) as I2.
  run_step ext2_bgdt_write_back_run as (F3 & E3 & I3);
    [done|apply L'|apply L'|pose proof (lo_bgdt _ L') as [_ B _ _]; pose proof (vi_geom _ _ _ I2) as [_ ? ?]; simpl in *; nia|].
  run_step ext2_super_adjust_free_run as (F4 & E4 & I4); [done|rewrite F3; apply L'|].
  apply Hk; [done|by rewrite F4, F3|]. unfold same_env in *; simpl in *; rest_chain.
Qed.
End Commit.

(** ** The volume after a commit *)

Section CommitVol.
Context (fs fs' : ext2_fs) (L : layout_ok fs) (C : counters_only fs fs').
Context (m : meta) (Hm : meta_in fs m) (Hkind : forall k, m <> MBgdt k).
Context (bm : list Z) (bd id : Z) (v : vol).
Let v' := commit_vol fs' (meta_addr fs m) bm bd id v.

Lemma commit_blk b :
  (forall k, 0 <= k < fs_bgdt_blocks fs -> b <> fs_bgdt_block fs + k) ->
  v_blk v' b = if decide (b = meta_addr fs m) then bm else v_blk v b.
Proof.
  intros Hb. unfold v', commit_vol. simpl. rewrite (co_eq _ _ C). simpl.
  rewrite decide_False; [done|]. intros Hr. apply (Hb (b - fs_bgdt_block fs)); lia.
Qed.

Lemma commit_meta m' :
  meta_in fs m' -> (forall k, m' <> MBgdt k) -> m' <> m ->
  v_blk v' (meta_addr fs' m') = v_blk v (meta_addr fs m').
Proof.
  intros Hm' Hk Hne. rewrite (counters_meta _ _ _ C Hm'), commit_blk.
  - rewrite decide_False; [done|]. intros E. apply Hne. by eapply (lo_inj _ L).
  - intros k Hk' E. apply (Hk k). by eapply (lo_inj _ L).
Qed.

Lemma commit_same : v_blk v' (meta_addr fs' m) = bm.
Proof.
  rewrite (counters_meta _ _ _ C Hm), commit_blk; [by rewrite decide_True|].
  intros k Hk' E. apply (Hkind k). by eapply (lo_inj _ L).
Qed.

Lemma commit_sync k :
  0 <= k < fs_bgdt_blocks fs' ->
  v_blk v' (fs_bgdt_block fs' + k) = sub (bgdt_bytes fs') (k * fs_block_size fs') (fs_block_size fs').
Proof.
  intros Hk. unfold v', commit_vol. simpl. rewrite decide_True by lia.
  do 2 f_equal. lia.
Qed.
End CommitVol.

(** ** Counter updates *)

Lemma add_free_blocks_get t g dlt g' :
  0 <= g -> 0 <= g' -> 32 * g + 32 <= Z.of_nat (length t) ->
  bg_free_blocks_count (add_free_blocks t g dlt) g' =
  if decide (g' = g) then u16 (bg_free_blocks_count t g + dlt) else bg_free_blocks_count t g'.
Proof.
  intros Hg Hg' Hl. unfold add_free_blocks. case_decide as D.
  - subst g'. unfold bg_free_blocks_count at 1. apply get_put_le; [apply u16_range|lia|lia].
  - apply get_put_le_ne; lia.
Qed.

Lemma add_free_inodes_get t g dlt g' :
  0 <= g -> 0 <= g' -> 32 * g + 32 <= Z.of_nat (length t) ->
  bg_free_inodes_count (add_free_inodes t g dlt) g' =
  if decide (g' = g) then u16 (bg_free_inodes_count t g + dlt) else bg_free_inodes_count t g'.
Proof.
  intros Hg Hg' Hl. unfold add_free_inodes. case_decide as D.
  - subst g'. unfold bg_free_inodes_count at 1. apply get_put_le; [apply u16_range|lia|lia].
  - apply get_put_le_ne; lia.
Qed.

(** ** Flipping one bit of a block bitmap *)

Section FlipBlock.
Context (fs : ext2_fs) (L : layout_ok fs) (Hbs : fs_block_size fs <= 4096).
Context (v : vol) (O : vol_ok fs v) (g i : Z) (nb : bool) (bm' : list Z).
Context (Hg : 0 <= g < fs_num_groups fs) (Hi : 0 <= i < group_blocks fs g).
Let bm := v_blk v (meta_addr fs (MBbm g)).
Context (Hbits : forall j, 0 <= j -> bm_test bm' j = if decide (j = i) then nb else bm_test bm j).
Context (Hold : bm_test bm i = negb nb).
Context (Hfree : nb = false -> data_block fs (group_first fs g + i)).
Let dlt := if nb then -1 else 1.
Let fs' := set_bgdt_bytes (add_free_blocks (bgdt_bytes fs) g dlt) fs.
Context (bd id : Z).
Let v' := commit_vol fs' (meta_addr fs (MBbm g)) bm' bd id v.

Lemma flip_counters : counters_only fs fs'.
Proof. apply counter_update; [apply (lo_bgdt _ L)|lia|auto]. Qed.

Lemma flip_in b : blk_in fs' b <-> blk_in fs b.
Proof. done. Qed.

Lemma flip_used b :
  blk_in fs b ->
  blk_used fs' v' b = if decide (b = group_first fs g + i) then nb else blk_used fs v b.
Proof.
  intros Hb. destruct (blk_split _ L b Hb) as (Hg' & Hi' & Eb & _).
  assert (i < fs_blocks_per_group fs) by (unfold group_blocks in Hi; lia).
  pose proof flip_counters as C.
  assert (blk_used fs' v' b = bm_test (v_blk v' (meta_addr fs' (MBbm (blk_group fs b)))) (blk_index fs b))
    as -> by done.
  destruct (decide (blk_group fs b = g)) as [Eg|Eg].
  - rewrite Eg. unfold v'. rewrite (commit_same fs fs' L C (MBbm g)) by done.
    rewrite Hbits by lia. unfold blk_used. rewrite Eg. fold bm.
    destruct (decide (blk_index fs b = i)) as [Ei|Ei].
    + rewrite Eg, Ei in Eb. by rewrite decide_True.
    + rewrite decide_False; [done|]. intros ->. apply Ei. apply (group_of fs g i). lia.
  - unfold v'. rewrite (commit_meta fs fs' L C (MBbm g)); [|done|done|done|by intros [= ?]].
    rewrite decide_False; [done|]. intros ->. apply Eg. apply (group_of fs g i). lia.
Qed.

Lemma flip_count :
  bg_free_blocks_count (bgdt_bytes fs') g = clear_bits bm' (Z.to_nat (group_blocks fs g)).
Proof.
  pose proof (lo_bgdt _ L) as [B1 B2 _ _]. pose proof (lo_groups _ L) as [_ HG].
  pose proof (lo_bpg _ L).
  unfold fs'. rewrite bgdt_bytes_set, add_free_blocks_get, decide_True by (done || lia).
  rewrite (vo_free _ _ O g Hg). fold bm.
  pose proof (clear_bits_bound bm (Z.to_nat (group_blocks fs g))).
  pose proof (clear_bits_bound bm' (Z.to_nat (group_blocks fs g))).
  assert (group_blocks fs g <= 32768) by (unfold group_blocks; lia).
  assert (clear_bits bm' (Z.to_nat (group_blocks fs g)) =
          clear_bits bm (Z.to_nat (group_blocks fs g)) + dlt) as Hc.
  { unfold dlt. destruct nb.
    - apply (clear_bits_flip bm bm' _ i); [lia|done|rewrite Hbits, decide_True by lia; done|].
      intros j Hj Hne. rewrite Hbits, decide_False by lia. done.
    - enough (clear_bits bm (Z.to_nat (group_blocks fs g)) =
              clear_bits bm' (Z.to_nat (group_blocks fs g)) - 1) by lia.
      apply (clear_bits_flip bm' bm _ i); [lia|rewrite Hbits, decide_True by lia; done|done|].
      intros j Hj Hne. rewrite Hbits, decide_False by lia. done. }
  rewrite Hc. apply u16_small. unfold is_u16. lia.
Qed.

Lemma flip_vol_ok : vol_ok fs' v'.
Proof.
  pose proof flip_counters as C. pose proof (lo_groups _ L) as [_ HG].
  assert (forall m, meta_in fs' m <-> meta_in fs m) as Hin by (intros []; done).
  split.
  - apply commit_sync.
  - intros m Hm%Hin. destruct (vo_meta _ _ O m Hm) as [Hb Hu].
    rewrite (counters_meta _ _ _ C Hm). split; [done|]. rewrite flip_used by done.
    case_decide as D; [|done]. destruct nb; [done|]. exfalso.
    destruct (Hfree eq_refl) as (_ & _ & Hnm). by apply (Hnm m Hm).
  - intros b Hb Hs. rewrite flip_used by done. case_decide as D; [|by apply O].
    destruct nb; [done|]. exfalso. destruct (Hfree eq_refl) as (_ & [Hv _] & _).
    subst b. assert (fs_sectors_per_block fs' = fs_sectors_per_block fs) as E by done.
    rewrite E in Hs. lia.
  - intros g' Hg'. destruct (decide (g' = g)) as [->|Hne].
    + unfold v'. rewrite (commit_same fs fs' L C (MBbm g)) by done. apply flip_count.
    + unfold v'. rewrite (commit_meta fs fs' L C (MBbm g)); [|done|done|done|by intros [= ?]].
      assert (group_blocks fs' g' = group_blocks fs g') as -> by done.
      rewrite <- (vo_free _ _ O g' Hg'). unfold fs'.
      rewrite bgdt_bytes_set by apply (lo_bgdt _ L).
      assert (0 <= g' < fs_num_groups fs) by done.
      rewrite add_free_blocks_get, decide_False by lia. done.
  - intros g' Hg'. unfold v'.
    rewrite (commit_meta fs fs' L C (MBbm g)); [|done|done|done|done].
    assert (group_inodes fs' g' = group_inodes fs g') as -> by done.
    rewrite <- (vo_ifree _ _ O g' Hg'). unfold fs'.
    rewrite bgdt_bytes_set by apply (lo_bgdt _ L).
    assert (0 <= g' < fs_num_groups fs) by done. apply get_put_le_ne; lia.
Qed.

(** The inode bitmaps are not touched. *)
Lemma flip_ino_used ino : ino_in fs ino -> ino_used fs' v' ino = ino_used fs v ino.
Proof.
  intros [Hi1 Hi2]. pose proof (lo_inodes _ L). pose proof (lo_ipg _ L).
  assert (meta_in fs (MIbm ((ino - 1) / fs_inodes_per_group fs))) as Hm.
  { simpl. split; [apply Z.div_pos; lia|apply Z.div_lt_upper_bound; lia]. }
  unfold ino_used. unfold v'.
  assert (fs_inodes_per_group fs' = fs_inodes_per_group fs) as -> by done.
  rewrite (commit_meta fs fs' L flip_counters (MBbm g)); done.
Qed.
End FlipBlock.

(** ** Data blocks *)

Section DataBlocks.
Context (fs : ext2_fs) (L : layout_ok fs) (v : vol) (O : vol_ok fs v).

(** A block that is not marked used is a data block. *)
Lemma unused_data b : 1 <= fs_sectors_per_block fs -> blk_in fs b -> blk_used fs v b = false -> data_block fs b.
Proof.
  intros Hspb Hb Hu. split_and!; [done| |].
  - split; [|pose proof (lo_total _ L); destruct Hb; nia].
    destruct (Z.lt_ge_cases 3 (b * fs_sectors_per_block fs)); [done|].
    rewrite (vo_super _ _ O b) in Hu by (done || lia). done.
  - intros m Hm <-. destruct (vo_meta _ _ O m Hm) as [_ Hu']. congruence.
Qed.

(** Writing a data block leaves the volume consistent. *)
Lemma data_used b x b' : data_block fs b -> blk_in fs b' -> blk_used fs (vset b x v) b' = blk_used fs v b'.
Proof.
  intros (_ & _ & Hnm) Hb'. unfold blk_used. cbn [v_blk vset].
  rewrite decide_False; [done|]. apply Hnm. simpl. by apply (blk_split _ L).
Qed.

Lemma vset_data_ok b x : data_block fs b -> vol_ok fs (vset b x v).
Proof.
  intros D. pose proof D as (_ & _ & Hnm). split; cbn [v_blk vset].
  - intros k Hk. rewrite decide_False by (apply (Hnm (MBgdt k)); done). by apply O.
  - intros m Hm. destruct (vo_meta _ _ O m Hm) as [Hb Hu]. split; [done|]. by rewrite data_used.
  - intros b' Hb' Hs. rewrite data_used by done. by apply O.
  - intros g Hg. rewrite decide_False by (apply (Hnm (MBbm g)); done). by apply O.
  - intros g Hg. rewrite decide_False by (apply (Hnm (MIbm g)); done). by apply O.
Qed.
End DataBlocks.

Lemma counters_data fs fs' b : counters_only fs fs' -> data_block fs b -> data_block fs' b.
Proof.
  intros C (H1 & H2 & H3). pose proof (co_eq _ _ C) as E. split_and!; [by rewrite E..|].
  intros m Hm. assert (meta_in fs m) as Hm' by (rewrite E in Hm; by destruct m).
  rewrite (counters_meta _ _ _ C Hm'). by apply H3.
Qed.

(** Blocks that the allocator leaves alone: everything but the descriptor
    table and the block bitmaps. *)
Definition alloc_keeps (fs : ext2_fs) (v v' : vol) (b : Z) : Prop :=
  forall b', b' <> b -> (forall k, 0 <= k < fs_bgdt_blocks fs -> b' <> fs_bgdt_block fs + k) ->
    (forall g, 0 <= g < fs_num_groups fs -> b' <> meta_addr fs (MBbm g)) ->
    v_blk v' b' = v_blk v b'.

(** What a successful allocation of [b] does to the volume. *)
Record block_allocated (fs : ext2_fs) (v : vol) (b : Z) (fs' : ext2_fs) (v' : vol) : Prop := {
  ba_counters : counters_only fs fs';
  ba_ok : vol_ok fs' v';
  ba_data : data_block fs b;
  ba_was_free : blk_used fs v b = false;
  ba_used b' : blk_in fs b' -> blk_used fs' v' b' = bool_decide (b' = b) || blk_used fs v b';
  ba_ino ino : ino_in fs ino -> ino_used fs' v' ino = ino_used fs v ino;
  ba_zero : v_blk v' b = zeros (fs_block_size fs);
  ba_keeps : alloc_keeps fs v v' b;
  ba_sb : v_sb v' = adjust_raw (-1) 0 (v_sb v);
}.

(** The pure part: flipping the first clear bit found, then zeroing the block. *)
Lemma alloc_flip fs v g i :
  layout_ok fs -> vol_ok fs v -> 1 <= fs_sectors_per_block fs -> fs_block_size fs <= 4096 ->
  let bm := v_blk v (meta_addr fs (MBbm g)) in
  let fs' := set_bgdt_bytes (add_free_blocks (bgdt_bytes fs) g (-1)) fs in
  let v' := commit_vol fs' (meta_addr fs (MBbm g)) (bm_set bm i) (-1) 0 v in
  let b := group_first fs g + i in
  0 <= g < fs_num_groups fs -> 0 <= i < group_blocks fs g ->
  length bm = Z.to_nat (fs_block_size fs) -> bm_test bm i = false ->
  block_allocated fs v b fs' (vset b (zeros (fs_block_size fs)) v').
Proof.
  intros L O Hspb Hbs bm fs' v' b Hg Hi Hlen Hclear. pose proof (lo_bpg _ L) as Hbpg.
  assert (group_blocks fs g <= fs_blocks_per_group fs) as Hgb by (unfold group_blocks; lia).
  assert (forall j, 0 <= j -> bm_test (bm_set bm i) j = if decide (j = i) then true else bm_test bm j) as Hbits.
  { intros j Hj. rewrite bm_test_set by lia. repeat case_decide; rewrite ?bool_decide_eq_true_2,
      ?bool_decide_eq_false_2 by congruence; done. }
  pose proof (flip_counters fs L g true Hg) as C.
  change (counters_only fs fs') in C.
  assert (blk_in fs b /\ blk_used fs v b = false) as [Hb Hu].
  { unfold b, blk_used, blk_in. rewrite (proj1 (group_of fs g i ltac:(lia))), (proj2 (group_of fs g i ltac:(lia))).
    split; [|done]. unfold group_blocks, group_first in *. pose proof (lo_first _ L). nia. }
  pose proof (unused_data fs L v O b ltac:(lia) Hb Hu) as D.
  pose proof (flip_vol_ok fs L Hbs v O g i true (bm_set bm i) Hg Hi Hbits Hclear ltac:(done) (-1) 0) as O'.
  change (vol_ok fs' v') in O'.
  assert (layout_ok fs') as L' by (by eapply counters_layout).
  pose proof (counters_data _ _ _ C D) as D'.
  split; [done|by apply vset_data_ok|done|done| | | | |done].
  - intros b' Hb'. rewrite data_used by done. unfold v'.
    rewrite (flip_used fs L v g i true (bm_set bm i)) by done.
    repeat case_decide; rewrite ?bool_decide_eq_true_2, ?bool_decide_eq_false_2 by done; done.
  - intros ino Hino. unfold ino_used at 1. cbn [v_blk vset]. rewrite decide_False.
    + by apply (flip_ino_used fs L v g true (bm_set bm i)).
    + destruct D' as (_ & _ & Hnm). apply Hnm. simpl. destruct Hino.
      pose proof (lo_inodes _ L). pose proof (lo_ipg _ L). 
      split; [apply Z.div_pos; lia|apply Z.div_lt_upper_bound; lia].
  - cbn [v_blk vset]. by rewrite decide_True.
  - intros b' Hne Hk Hbb. cbn [v_blk vset]. rewrite decide_False by done. unfold v'.
    rewrite (commit_blk fs) by done. rewrite decide_False by (by apply Hbb). done.
Qed.

Section AllocBlock.
Context {W : Type} `{MachineOk W}.
Abbreviation E := (ext2 W).
Implicit Types (s : E) (v : vol) (d : disk_device).

(** Everything the driver relies on between two operations. *)
Record fs_inv d s v : Prop := {
  fi_vinv : vinv d s v;
  fi_layout : layout_ok (e_fs s);
  fi_vol : vol_ok (e_fs s) v;
}.

Lemma fi_bs d s v : fs_inv d s v ->
  1 <= fs_sectors_per_block (e_fs s) <= 8 /\
  fs_block_size (e_fs s) = 512 * fs_sectors_per_block (e_fs s).
Proof. intros [I _ _]. destruct (vi_geom _ _ _ I). done. Qed.


(** Full volume: every block in range is marked used. *)
Definition volume_full (fs : ext2_fs) v : Prop := forall b, blk_in fs b -> blk_used fs v b = true.

(** Outcome of [ext2_alloc_block]. *)
Definition alloc_result d s v (r : option Z) s' : Prop :=
  same_env s s' /\
  match r with
  | Some b => exists v', vinv d s' v' /\ block_allocated (e_fs s) v b (e_fs s') v'
  | None => vinv d s' v /\ e_fs s' = e_fs s /\ volume_full (e_fs s) v
  end.

Lemma alloc_block_from_run d n : forall g s v,
  fs_inv d s v -> 0 <= g -> g + Z.of_nat n = fs_num_groups (e_fs s) ->
  (forall b, blk_in (e_fs s) b -> blk_group (e_fs s) b < g -> blk_used (e_fs s) v b = true) ->
  run (alloc_block_from n g) s (alloc_result d s v).
Proof.
  induction n as [|n IH]; intros g s v I Hg Hn Hfull; cbn [alloc_block_from];
    pose proof I as [Iv L O]; destruct (fi_bs _ _ _ I) as [Hspb Hbs].
  { apply run_ret. split; [done|]. split_and!; [done|done|]. intros b Hb. apply Hfull; [done|].
    destruct (blk_split _ L b Hb) as [? _]. lia. }
  apply run_bind, run_gets.
  set (fs := e_fs s) in *. assert (meta_in fs (MBbm g)) as Hm by (simpl; lia).
  pose proof (lo_valid _ L _ Hm) as V. pose proof (lo_bpg _ L) as Hbpg.
  pose proof (lo_cover _ L) as Hcov. pose proof (lo_first _ L) as Hfirst.
  set (bm := v_blk v (meta_addr fs (MBbm g))).
  assert (forall s1 : E, vinv d s1 v -> e_fs s1 = fs -> same_env s s1 ->
    (forall i, 0 <= i < group_blocks fs g -> bm_test bm i = true) ->
    run (alloc_block_from n (g + 1)) s1 (alloc_result d s v)) as Hnext.
  { intros s1 I1 F1 E1 Hg1. eapply run_mono; [apply (IH (g + 1) s1 v)| ].
    - split; [done|by rewrite F1..].
    - lia.
    - rewrite F1. unfold fs in *. lia.
    - rewrite F1. intros b Hb Hlt. destruct (blk_split _ L b Hb) as (Hr1 & Hr2 & Eb & Hr3).
      destruct (Z.eq_dec (blk_group fs b) g) as [Eg|]; [|apply Hfull; [done|unfold fs in *; lia]].
      unfold blk_used. rewrite Eg. apply Hg1. unfold fs in *. rewrite <- Eg. lia.
    - intros r s'. unfold alloc_result. rewrite F1.
      intros [E2 ?]. split; [by etrans|done]. }
  destruct (Z.eqb_spec (bg_free_blocks_count (bgdt_bytes fs) g) 0) as [Hz|Hz].
  { apply Hnext; [done|done|done|]. rewrite (vo_free _ _ O g) in Hz by (simpl in Hm; lia).
    intros i Hi. eapply clear_bits_zero; [exact Hz|lia]. }
  run_step read_block_copy_run as (-> & I1 & F1 & E1); [done|done|].
  change (v_blk v (bg_block_bitmap (bgdt_bytes fs) g)) with bm.
  rewrite (u32_small (g * _)), u32_small by (unfold is_u32; nia).
  change (fs_first_data_block fs + g * fs_blocks_per_group fs) with (group_first fs g).
  assert (forall i, 0 <= i < fs_blocks_per_group fs -> u32 (group_first fs g + i) = group_first fs g + i) as Hu.
  { intros i Hi. apply u32_small. unfold is_u32, group_first. nia. }
  destruct (scan_bitmap _ 0 bm _) as [i|] eqn:Hscan.
  2: { apply Hnext; [done|done|done|]. intros i Hi. unfold group_blocks in Hi.
       eapply scan_bitmap_None; [exact Hscan|lia|]. intros k Hk. simpl.
       rewrite Hu by lia. apply Z.leb_gt. lia. }
  apply scan_bitmap_Some in Hscan as (Hi & Hstop & Hclear). rewrite Hu in * by lia.
  apply Z.leb_gt in Hstop. fold fs in F1.
  assert (layout_ok (e_fs s') /\ blk_valid (e_fs s') (meta_addr fs (MBbm g))) as [L1 V1] by (by rewrite F1).
  assert (length bm = Z.to_nat (fs_block_size fs)) as Hlen by (eapply vi_len; [exact Iv|exact V]).
  pose proof (alloc_flip fs v g i L O ltac:(lia) ltac:(lia) ltac:(simpl in Hm; lia)
    ltac:(unfold group_blocks; lia) Hlen Hclear) as HA.
  eapply commit_step; [exact I1|exact L1|exact V1|rewrite length_bm_set, F1; exact Hlen| | |].
  - apply bm_set_ok; [lia|]. eapply vi_ok; [exact I1|exact V1].
  - apply counter_update; [apply (lo_bgdt _ L1)|lia|auto].
  - intros s3 fs' I3 F3 E3. unfold fs' in *. clear fs'. rewrite F1 in *.
    destruct (ba_data _ _ _ _ _ HA) as (_ & Vb & _).
    run_step ext2_write_block_run as (-> & I4 & F4 & E4);
      [exact I3|rewrite F3; exact Vb|apply zeros_ok|rewrite length_zeros, F3; done|].
    apply run_ret. split; [unfold same_env in *; simpl in *; rest_chain|].
    eexists. split; [exact I4|]. rewrite F4, F3. exact HA.
Qed.

Lemma ext2_alloc_block_run d s v :
  fs_inv d s v -> run ext2_alloc_block s (alloc_result d s v).
Proof.
  intros I. unfold ext2_alloc_block. apply run_bind, run_gets.
  pose proof (lo_groups _ (fi_layout _ _ _ I)).
  apply alloc_block_from_run; [done|lia|lia|]. intros b Hb Hlt.
  destruct (blk_split _ (fi_layout _ _ _ I) b Hb). lia.
Qed.
(** C18: allocation of a block on a consistent volume: the block
    returned was free, is no metadata, comes back zeroed and marked used; the
    volume stays consistent (bitmaps, group and superblock counters, descriptor
    table) and no other block changes.  NULL is returned only when the volume
    is full, and then nothing changes. *)
Theorem ext2_alloc_block_correct d s v :
  fs_inv d s v -> run ext2_alloc_block s (alloc_result d s v).
Proof. apply ext2_alloc_block_run. Qed.
End AllocBlock.

(** ** Freeing a block *)

(** What freeing [b] does to the volume. *)
Record block_freed (fs : ext2_fs) (v : vol) (b : Z) (fs' : ext2_fs) (v' : vol) : Prop := {
  bf_counters : counters_only fs fs';
  bf_ok : vol_ok fs' v';
  bf_used b' : blk_in fs b' -> blk_used fs' v' b' = negb (bool_decide (b' = b)) && blk_used fs v b';
  bf_ino ino : ino_in fs ino -> ino_used fs' v' ino = ino_used fs v ino;
  bf_keeps b' : (forall k, 0 <= k < fs_bgdt_blocks fs -> b' <> fs_bgdt_block fs + k) ->
    (forall g, 0 <= g < fs_num_groups fs -> b' <> meta_addr fs (MBbm g)) ->
    v_blk v' b' = v_blk v b';
  bf_sb : v_sb v' = if blk_used fs v b then adjust_raw 1 0 (v_sb v) else v_sb v;
}.

Lemma free_flip fs v b :
  layout_ok fs -> vol_ok fs v -> fs_block_size fs <= 4096 ->
  let g := blk_group fs b in let i := blk_index fs b in
  let bm := v_blk v (meta_addr fs (MBbm g)) in
  let fs' := set_bgdt_bytes (add_free_blocks (bgdt_bytes fs) g 1) fs in
  let v' := commit_vol fs' (meta_addr fs (MBbm g)) (bm_clear bm i) 1 0 v in
  data_block fs b -> length bm = Z.to_nat (fs_block_size fs) -> bm_test bm i = true ->
  block_freed fs v b fs' v'.
Proof.
  intros L O Hbs g i bm fs' v' D Hlen Hset. pose proof (lo_bpg _ L) as Hbpg.
  destruct (blk_split _ L b (proj1 D)) as (Hg & Hi & Eb & Hi'). fold g i in Hg, Hi, Eb, Hi'.
  assert (forall j, 0 <= j -> bm_test (bm_clear bm i) j = if decide (j = i) then false else bm_test bm j) as Hbits.
  { intros j Hj. rewrite bm_test_clear by lia. repeat case_decide; rewrite ?bool_decide_eq_true_2,
      ?bool_decide_eq_false_2 by congruence; done. }
  pose proof (flip_counters fs L g false Hg) as C. change (counters_only fs fs') in C.
  assert (false = false -> data_block fs (group_first fs g + i)) as D' by (intros _; by rewrite <- Eb).
  assert (0 <= i < group_blocks fs g) as Hi2 by lia.
  pose proof (flip_vol_ok fs L Hbs v O g i false (bm_clear bm i) Hg Hi2 Hbits Hset D' 1 0) as O'.
  change (vol_ok fs' v') in O'. split; [done|done| | | |].
  - intros b' Hb'. unfold v'. rewrite (flip_used fs L v g i false (bm_clear bm i)) by done.
    rewrite <- Eb.
    repeat case_decide; rewrite ?bool_decide_eq_true_2, ?bool_decide_eq_false_2 by done; done.
  - intros ino Hino. by apply (flip_ino_used fs L v g false (bm_clear bm i)).
  - intros b' Hk Hbb. unfold v'. rewrite (commit_blk fs) by done.
    rewrite decide_False by (by apply Hbb). done.
  - unfold blk_used. fold g i bm. rewrite Hset. done.
Qed.

Lemma adjust_raw_back raw :
  bytes_ok raw -> 20 <= Z.of_nat (length raw) -> adjust_raw 1 0 (adjust_raw (-1) 0 raw) = raw.
Proof.
  intros Hb Hl. unfold adjust_raw at 1. set (r := adjust_raw (-1) 0 raw).
  assert (s_free_blocks_count r = u32 (s_free_blocks_count raw - 1)) as Eb.
  { unfold r, adjust_raw, s_free_blocks_count at 1. rewrite get_put_le_ne by lia.
    rewrite get_put_le; [apply u32_s32_add|apply u32_range|lia|rewrite ?length_put_le; lia]. }
  assert (s_free_inodes_count r = s_free_inodes_count raw) as Ei.
  { unfold r, adjust_raw, s_free_inodes_count at 1.
    rewrite get_put_le; [|apply u32_range|lia|rewrite ?length_put_le; lia].
    rewrite u32_s32_add, Z.add_0_r. apply u32_small. by apply (get_le_bound 4). }
  rewrite Eb, Ei, !u32_s32_add, Z.add_0_r.
  assert (u32 (u32 (s_free_blocks_count raw - 1) + 1) = s_free_blocks_count raw) as ->.
  { unfold u32. rewrite Z.add_mod_idemp_l by lia. rewrite Z.sub_add.
    apply u32_small. by apply (get_le_bound 4). }
  rewrite (u32_small (s_free_inodes_count raw)) by (by apply (get_le_bound 4)).
  unfold r, adjust_raw. rewrite put_le_comm, put_le_put_le, (put_le_comm 4 4 _ 12 16) by lia.
  rewrite put_le_put_le. unfold s_free_blocks_count, s_free_inodes_count.
  rewrite (put_le_get_le 4 raw 12), (put_le_get_le 4 raw 16) by (done || lia). done.
Qed.

(** The blocks of a group. *)
Lemma group_in fs (L : layout_ok fs) g i :
  0 <= g < fs_num_groups fs -> 0 <= i < group_blocks fs g ->
  blk_in fs (group_first fs g + i) /\ blk_group fs (group_first fs g + i) = g /\
  blk_index fs (group_first fs g + i) = i.
Proof.
  intros Hg Hi. pose proof (lo_bpg _ L). pose proof (lo_first _ L). unfold group_blocks in Hi.
  split; [|apply group_of; lia]. unfold blk_in, group_first in *. nia.
Qed.

Section FreeBlock.
Context {W : Type} `{MachineOk W}.
Abbreviation E := (ext2 W).
Implicit Types (s : E) (v : vol) (d : disk_device).

Lemma ext2_free_block_run d s v b :
  fs_inv d s v -> data_block (e_fs s) b ->
  run (ext2_free_block b) s (fun _ s' => same_env s s' /\
    exists v', vinv d s' v' /\ block_freed (e_fs s) v b (e_fs s') v').
Proof.
  intros I D. pose proof I as [Iv L O]. destruct (fi_bs _ _ _ I) as [Hspb Hbs].
  set (fs := e_fs s) in *. destruct (blk_split _ L b (proj1 D)) as (Hg & Hi & Eb & Hi').
  unfold ext2_free_block. apply run_bind, run_gets. fold fs.
  destruct (Z.ltb_spec b (fs_first_data_block fs)) as [Hlt|_]; [destruct D as [[? ?] _]; lia|].
  change ((b - fs_first_data_block fs) / fs_blocks_per_group fs) with (blk_group fs b).
  change ((b - fs_first_data_block fs) mod fs_blocks_per_group fs) with (blk_index fs b).
  destruct (Z.leb_spec (fs_num_groups fs) (blk_group fs b)) as [|_]; [lia|].
  pose proof (lo_valid _ L (MBbm (blk_group fs b)) Hg) as V.
  run_step read_block_copy_run as (-> & I1 & F1 & E1); [done|done|]. fold fs in F1.
  change (bg_block_bitmap (bgdt_bytes fs) (blk_group fs b)) with (meta_addr fs (MBbm (blk_group fs b))).
  set (bm := v_blk v _).
  assert (layout_ok (e_fs s') /\ blk_valid (e_fs s') (meta_addr fs (MBbm (blk_group fs b)))) as [L1 V1]
    by (by rewrite F1).
  assert (length bm = Z.to_nat (fs_block_size fs)) as Hlen by (eapply vi_len; [exact Iv|exact V]).
  destruct (bm_test bm (blk_index fs b)) eqn:Ht; cbn [negb].
  2: { apply run_ret. split; [done|]. exists v. split; [done|]. rewrite F1.
       assert (blk_used fs v b = false) as Hu by done.
       split; [apply counters_only_refl|done| |done|done|by rewrite Hu].
       intros b' Hb'. case_bool_decide as Db; [|done]. by subst. }
  eapply commit_step; [exact I1|exact L1|exact V1|rewrite length_bm_clear, F1; exact Hlen| | |].
  - apply bm_clear_ok; [lia|]. eapply vi_ok; [exact I1|exact V1].
  - apply counter_update; [apply (lo_bgdt _ L1)|lia|auto].
  - intros s3 fs' I3 F3 E3. unfold fs' in *. clear fs'. rewrite F1 in *. apply run_ret.
    split; [unfold same_env in *; simpl in *; rest_chain|].
    eexists. split; [exact I3|]. rewrite F3. apply free_flip; try done. lia.
Qed.

(** Freeing a block that is not marked used. *)
Lemma free_block_unused d s v b :
  fs_inv d s v -> blk_in (e_fs s) b -> blk_used (e_fs s) v b = false ->
  run (ext2_free_block b) s (fun _ s' => vinv d s' v /\ e_fs s' = e_fs s).
Proof.
  intros [Iv L O] Hb Hu. set (fs := e_fs s) in *.
  destruct (blk_split _ L b Hb) as (Hg & Hi & Eb & Hi').
  unfold ext2_free_block. apply run_bind, run_gets. fold fs.
  destruct (Z.ltb_spec b (fs_first_data_block fs)) as [Hlt|_]; [destruct Hb; lia|].
  change ((b - fs_first_data_block fs) / fs_blocks_per_group fs) with (blk_group fs b).
  change ((b - fs_first_data_block fs) mod fs_blocks_per_group fs) with (blk_index fs b).
  destruct (Z.leb_spec (fs_num_groups fs) (blk_group fs b)) as [|_]; [lia|].
  pose proof (lo_valid _ L (MBbm (blk_group fs b)) Hg) as V.
  run_step read_block_copy_run as (-> & I1 & F1 & E1); [done|done|].
  unfold blk_used in Hu. cbn [meta_addr] in Hu. rewrite Hu. by apply run_ret.
Qed.

(** Freeing a data block of a consistent volume clears its bit and
    nothing else in the bitmaps, keeps every other block, and leaves counters
    and descriptor table consistent; freeing it once more changes nothing. *)
Theorem ext2_free_block_correct d s v b :
  fs_inv d s v -> data_block (e_fs s) b ->
  run (ext2_free_block b) s (fun _ s' => exists v', fs_inv d s' v' /\
    block_freed (e_fs s) v b (e_fs s') v' /\
    run (ext2_free_block b) s' (fun _ s'' => vinv d s'' v' /\ e_fs s'' = e_fs s')).
Proof.
  intros I D. run_last ext2_free_block_run as (E1 & v' & I' & F); [done|done|].
  assert (fs_inv d s' v') as FI.
  { split; [done| |apply F]. eapply counters_layout; [apply F|apply I]. }
  exists v'. split_and!; [done|done|].
  assert (blk_in (e_fs s') b) as Hb by (rewrite (co_eq _ _ (bf_counters _ _ _ _ _ F)); apply D).
  apply free_block_unused; [done|done|].
  rewrite (bf_used _ _ _ _ _ F) by apply D. by rewrite bool_decide_eq_true_2.
Qed.

(** Allocating a block and freeing it again gives the volume back:
    the same blocks are in use, the group counters and the superblock are as
    before, and no other block than the one allocated has changed. *)
Theorem alloc_free_restores d s v :
  fs_inv d s v ->
  run (r ← ext2_alloc_block; match r with
       | Some b => _ ← ext2_free_block b; mret (Some b)
       | None => mret None
       end) s
    (fun r s' => forall b, r = Some b -> exists v', fs_inv d s' v' /\ v_sb v' = v_sb v /\
       (forall b', blk_in (e_fs s) b' -> blk_used (e_fs s') v' b' = blk_used (e_fs s) v b') /\
       (forall g, 0 <= g < fs_num_groups (e_fs s) ->
          bg_free_blocks_count (bgdt_bytes (e_fs s')) g =
          bg_free_blocks_count (bgdt_bytes (e_fs s)) g) /\
       alloc_keeps (e_fs s) v v' b).
Proof.
  intros I. run_step ext2_alloc_block_run as (E1 & HA); [done|].
  destruct a as [b|]; [|by apply run_ret]. destruct HA as (v1 & I1 & A).
  pose proof (counters_layout _ _ (ba_counters _ _ _ _ _ A) (fi_layout _ _ _ I)) as L1.
  pose proof (counters_data _ _ _ (ba_counters _ _ _ _ _ A) (ba_data _ _ _ _ _ A)) as D1.
  run_step ext2_free_block_run as (E2 & v2 & I2 & F); [by split; [|apply L1|apply A]|done|].
  apply run_ret. intros ? [= <-]. exists v2.
  pose proof (ba_counters _ _ _ _ _ A) as CA. pose proof (co_eq _ _ CA) as EA.
  pose proof (bf_counters _ _ _ _ _ F) as CF. pose proof (co_eq _ _ CF) as EF.
  assert (fs_inv d s'0 v2) as FI by (split; [done|by eapply counters_layout|apply F]).
  assert (forall b', blk_in (e_fs s) b' -> blk_used (e_fs s'0) v2 b' = blk_used (e_fs s) v b') as Hu.
  { intros b' Hb'. rewrite (bf_used _ _ _ _ _ F), (ba_used _ _ _ _ _ A) by (done || by rewrite EA).
    case_bool_decide as D; [|done]. subst b'. symmetry. apply A. }
  split_and!; [done| |done| |].
  - rewrite (bf_sb _ _ _ _ _ F), (ba_used _ _ _ _ _ A), (ba_sb _ _ _ _ _ A) by apply A.
    rewrite bool_decide_eq_true_2 by done. cbn [orb].
    apply adjust_raw_back; [eapply vi_sb_ok, I|erewrite vi_sb_len by apply I; lia].
  - intros g Hg. assert (counters_only (e_fs s) (e_fs s'0)) as C by (by etransitivity).
    pose proof (co_eq _ _ C) as EC.
    rewrite (vo_free _ _ (fi_vol _ _ _ I) g Hg), (vo_free _ _ (fi_vol _ _ _ FI) g) by (by rewrite EC).
    assert (group_blocks (e_fs s'0) g = group_blocks (e_fs s) g) as -> by (by rewrite EC).
    apply clear_bits_ext. intros i Hi.
    pose proof (group_in _ (fi_layout _ _ _ I) g i Hg ltac:(lia)) as (Hb & Eg & Ei).
    specialize (Hu _ Hb). unfold blk_used in Hu. rewrite Eg, Ei in Hu.
    assert (blk_group (e_fs s'0) (group_first (e_fs s) g + i) = g) as Eg' by (by rewrite EC).
    assert (blk_index (e_fs s'0) (group_first (e_fs s) g + i) = i) as Ei' by (by rewrite EC).
    by rewrite Eg', Ei' in Hu.
  - intros b' Hne Hk Hbb. rewrite (bf_keeps _ _ _ _ _ F).
    + by apply A.
    + by rewrite EA.
    + intros g Hg. rewrite EA in Hg. rewrite (counters_meta _ _ (MBbm g) CA Hg). by apply Hbb.
Qed.
End FreeBlock.
