(* ===== verification/Ext2Inodes.v ===== *)
(** * EXT2 inode table and inode allocation: specification and proofs

    The inode table of a consistent volume as a map from inode numbers to
    inodes ([vino]/[vset_ino]), the round trip and frame of
    [ext2_write_inode]/[ext2_read_inode], and the inode allocator (all
    modelled in Ext2Inode.v). *)

From S2P Require Import Prelude Machine VfsTypes Ext2Layout Ext2Block Ext2Super Ext2Inode Ext2Alloc.

(** Place of inode [ino]: group, block of the group's table, offset. *)
Definition ino_group (fs : ext2_fs) (ino : Z) : Z := (ino - 1) / fs_inodes_per_group fs.
Definition ino_index (fs : ext2_fs) (ino : Z) : Z := (ino - 1) mod fs_inodes_per_group fs.
Definition ino_tab (fs : ext2_fs) (ino : Z) : Z :=
  ino_index fs ino * fs_inode_size fs / fs_block_size fs.
Definition ino_off (fs : ext2_fs) (ino : Z) : Z :=
  (ino_index fs ino * fs_inode_size fs) mod fs_block_size fs.
Definition ino_blk (fs : ext2_fs) (ino : Z) : Z := meta_addr fs (MItab (ino_group fs ino) (ino_tab fs ino)).

(** The inode table as a map. *)
Definition vino (fs : ext2_fs) (v : vol) (ino : Z) : ext2_inode :=
  inode_decode (sub (v_blk v (ino_blk fs ino)) (ino_off fs ino) EXT2_MIN_INODE_SIZE).
Definition vset_ino (fs : ext2_fs) (ino : Z) (i : ext2_inode) (v : vol) : vol :=
  vset (ino_blk fs ino) (put (v_blk v (ino_blk fs ino)) (ino_off fs ino) (inode_encode i)) v.

Section Place.
Context (fs : ext2_fs) (L : layout_ok fs) (Hbs : 1 <= fs_sectors_per_block fs <= 8).
Context (Hbs' : fs_block_size fs = 512 * fs_sectors_per_block fs).

Lemma ino_group_in ino : ino_in fs ino ->
  0 <= ino_group fs ino < fs_num_groups fs /\ 0 <= ino_index fs ino < fs_inodes_per_group fs /\
  ino = ino_group fs ino * fs_inodes_per_group fs + ino_index fs ino + 1.
Proof.
  intros [Hi1 Hi2]. pose proof (lo_inodes _ L). pose proof (lo_ipg _ L).
  unfold ino_group, ino_index.
  pose proof (Z.mod_pos_bound (ino - 1) (fs_inodes_per_group fs) ltac:(lia)).
  pose proof (Z.div_mod (ino - 1) (fs_inodes_per_group fs) ltac:(lia)).
  split_and!; try lia; [apply Z.div_pos; lia|apply Z.div_lt_upper_bound; lia].
Qed.

Lemma isize_facts : 128 <= fs_inode_size fs <= fs_block_size fs /\
  exists q, fs_block_size fs = q * fs_inode_size fs /\ 1 <= q.
Proof.
  destruct (lo_isize _ L) as [H1 H2]. unfold EXT2_MIN_INODE_SIZE in H1.
  apply Z.mod_divide in H2 as [q Hq]; [|lia].
  assert (1 <= q) by nia. split; [nia|]. exists q. lia.
Qed.

Lemma ino_place ino : ino_in fs ino ->
  meta_in fs (MItab (ino_group fs ino) (ino_tab fs ino)) /\
  0 <= ino_off fs ino /\ ino_off fs ino + 128 <= fs_block_size fs.
Proof.
  intros Hi. destruct (ino_group_in ino Hi) as (Hg & Hx & _).
  destruct isize_facts as (Hs & q & Hq & Hq1).
  assert (0 <= ino_off fs ino /\ ino_off fs ino + fs_inode_size fs <= fs_block_size fs) as Ho.
  { unfold ino_off. rewrite Hq, Z.mul_mod_distr_r by lia.
    pose proof (Z.mod_pos_bound (ino_index fs ino) q ltac:(lia)). nia. }
  split; [|lia]. simpl. split; [done|]. unfold ino_tab, itab_blocks. split.
  - apply Z.div_pos; nia.
  - apply Z.div_lt_upper_bound; [lia|].
    pose proof (Z.div_mod (fs_inodes_per_group fs * fs_inode_size fs + fs_block_size fs - 1)
      (fs_block_size fs) ltac:(lia)).
    pose proof (Z.mod_pos_bound (fs_inodes_per_group fs * fs_inode_size fs + fs_block_size fs - 1)
      (fs_block_size fs) ltac:(lia)). nia.
Qed.

(** The place the code computes. *)
Lemma inode_loc_eq ino : ino_in fs ino -> inode_loc fs ino = Some (ino_blk fs ino, ino_off fs ino).
Proof.
  intros Hi. destruct (ino_group_in ino Hi) as (Hg & Hx & _). pose proof Hi as [Hi1 Hi2].
  destruct (ino_place ino Hi) as (Hm & _). pose proof (lo_valid _ L _ Hm) as [_ V].
  pose proof (lo_valid _ L _ Hm) as [V0 _]. destruct isize_facts as (Hs & _). pose proof (lo_ipg _ L).
  unfold inode_loc. rewrite (proj2 (Z.eqb_neq ino 0)), (proj2 (Z.ltb_ge _ ino)) by lia. cbn [orb].
  fold (ino_group fs ino). fold (ino_index fs ino).
  destruct (Z.leb_spec (fs_num_groups fs) (ino_group fs ino)); [lia|].
  rewrite (u32_small (ino_index fs ino * fs_inode_size fs)) by (unfold is_u32; nia).
  fold (ino_tab fs ino) (ino_off fs ino). unfold ino_blk in *.
  change (bg_inode_table (bgdt_bytes fs) (ino_group fs ino) + ino_tab fs ino)
    with (meta_addr fs (MItab (ino_group fs ino) (ino_tab fs ino))).
  rewrite u32_small; [done|]. unfold is_u32. nia.
Qed.

(** Two inodes do not overlap. *)
Lemma ino_disjoint ino ino' : ino_in fs ino -> ino_in fs ino' -> ino <> ino' ->
  ino_blk fs ino = ino_blk fs ino' ->
  ino_off fs ino + 128 <= ino_off fs ino' \/ ino_off fs ino' + 128 <= ino_off fs ino.
Proof.
  intros Hi Hi' Hne Hb. destruct (ino_place _ Hi) as (Hm & _), (ino_place _ Hi') as (Hm' & _).
  unfold ino_blk in Hb. apply (lo_inj _ L) in Hb as [= Hg Ht]; [|done|done].
  destruct (ino_group_in _ Hi) as (_ & Hx & E), (ino_group_in _ Hi') as (_ & Hx' & E').
  assert (ino_index fs ino <> ino_index fs ino') as Hnx by (intros H; apply Hne; rewrite E, E', Hg, H; done).
  destruct isize_facts as (Hs & _). unfold ino_tab, ino_off in *.
  pose proof (Z.div_mod (ino_index fs ino * fs_inode_size fs) (fs_block_size fs) ltac:(lia)).
  pose proof (Z.div_mod (ino_index fs ino' * fs_inode_size fs) (fs_block_size fs) ltac:(lia)).
  rewrite Ht in *. nia.
Qed.
End Place.

(** ** The table as a map *)

Section Table.
Context (fs : ext2_fs) (L : layout_ok fs) (Hbs : 1 <= fs_sectors_per_block fs <= 8).
Context (Hbs' : fs_block_size fs = 512 * fs_sectors_per_block fs).
Context (v : vol).
Context (Hlen : forall b, blk_valid fs b -> length (v_blk v b) = Z.to_nat (fs_block_size fs)).

Lemma vino_set_same ino i : ino_in fs ino -> inode_wf i -> vino fs (vset_ino fs ino i v) ino = i.
Proof.
  intros Hi Hw. destruct (ino_place fs L Hbs Hbs' ino Hi) as (Hm & Ho).
  unfold vino, vset_ino. cbn [v_blk vset]. rewrite decide_True by done.
  pose proof Hw as (H1 & H2 & _).
  rewrite sub_put_same; [by apply inode_decode_encode| |lia|].
  - by rewrite length_inode_encode.
  - rewrite Hlen by (by apply (lo_valid _ L)). unfold EXT2_MIN_INODE_SIZE. lia.
Qed.

Lemma vino_set_other ino ino' i :
  ino_in fs ino -> ino_in fs ino' -> inode_wf i -> ino' <> ino ->
  vino fs (vset_ino fs ino i v) ino' = vino fs v ino'.
Proof.
  intros Hi Hi' (H1 & H2 & _) Hne. destruct (ino_place fs L Hbs Hbs' ino Hi) as (_ & Ho).
  destruct (ino_place fs L Hbs Hbs' ino' Hi') as (_ & Ho').
  unfold vino, vset_ino. cbn [v_blk vset]. case_decide as D; [|done]. rewrite D.
  rewrite sub_put_disjoint; [done|lia|lia|unfold EXT2_MIN_INODE_SIZE; lia|].
  rewrite length_inode_encode by done. unfold EXT2_MIN_INODE_SIZE.
  pose proof (ino_disjoint fs L Hbs Hbs' ino ino' Hi Hi' ltac:(congruence) ltac:(congruence)). lia.
Qed.

(** Writing an inode touches the inode table only. *)
Lemma vset_ino_keeps ino i b : b <> ino_blk fs ino -> v_blk (vset_ino fs ino i v) b = v_blk v b.
Proof. intros Hb. unfold vset_ino. cbn [v_blk vset]. by rewrite decide_False. Qed.

Lemma vset_ino_meta ino i m :
  ino_in fs ino -> meta_in fs m -> (forall g k, m <> MItab g k) ->
  v_blk (vset_ino fs ino i v) (meta_addr fs m) = v_blk v (meta_addr fs m).
Proof.
  intros Hi Hm Hk. destruct (ino_place fs L Hbs Hbs' ino Hi) as (Hm' & _).
  apply vset_ino_keeps. intros E. eapply Hk. by eapply (lo_inj _ L).
Qed.

Lemma vset_ino_used ino i b :
  ino_in fs ino -> blk_in fs b -> blk_used fs (vset_ino fs ino i v) b = blk_used fs v b.
Proof.
  intros Hi Hb. unfold blk_used. rewrite vset_ino_meta; [done|done| |done].
  simpl. by apply (blk_split _ L).
Qed.

Lemma vset_ino_ino_used ino i ino' :
  ino_in fs ino -> ino_in fs ino' -> ino_used fs (vset_ino fs ino i v) ino' = ino_used fs v ino'.
Proof.
  intros Hi Hi'. unfold ino_used. rewrite vset_ino_meta; [done|done| |done].
  simpl. by apply (ino_group_in fs L ino').
Qed.

Lemma vset_ino_data ino i b :
  ino_in fs ino -> data_block fs b -> v_blk (vset_ino fs ino i v) b = v_blk v b.
Proof.
  intros Hi (_ & _ & Hnm). apply vset_ino_keeps.
  destruct (ino_place fs L Hbs Hbs' ino Hi) as (Hm & _). intros E. by apply (Hnm _ Hm).
Qed.

Lemma vset_ino_ok ino i : ino_in fs ino -> vol_ok fs v -> vol_ok fs (vset_ino fs ino i v).
Proof.
  intros Hi O. split.
  - intros k Hk. pose proof (vset_ino_meta ino i (MBgdt k) Hi Hk ltac:(done)) as E.
    cbn [meta_addr] in E. rewrite E. by apply O.
  - intros m Hm. destruct (vo_meta _ _ O m Hm). split; [done|]. by rewrite vset_ino_used.
  - intros b Hb Hs. rewrite vset_ino_used by done. by apply O.
  - intros g Hg. rewrite (vset_ino_meta ino i (MBbm g)) by done. by apply O.
  - intros g Hg. rewrite (vset_ino_meta ino i (MIbm g)) by done. by apply O.
Qed.
End Table.

Section InodeRun.
Context {W : Type} `{MachineOk W}.
Abbreviation E := (ext2 W).
Implicit Types (s : E) (v : vol) (d : disk_device).

Lemma fi_len d s v b : fs_inv d s v -> blk_valid (e_fs s) b ->
  length (v_blk v b) = Z.to_nat (fs_block_size (e_fs s)).
Proof. intros I. eapply vi_len, I. Qed.

Lemma ext2_read_inode_run d s v ino :
  fs_inv d s v -> ino_in (e_fs s) ino ->
  run (ext2_read_inode ino) s (fun r s' => r = Some (vino (e_fs s) v ino) /\
    inode_wf (vino (e_fs s) v ino) /\ vinv d s' v /\ e_fs s' = e_fs s /\ same_env s s').
Proof.
  intros I Hi. destruct (fi_bs _ _ _ I) as [Hspb Hbs]. pose proof I as [Iv L O].
  destruct (ino_place _ L Hspb Hbs ino Hi) as (Hm & Ho).
  unfold ext2_read_inode. apply run_bind, run_gets. rewrite inode_loc_eq by done.
  pose proof (lo_valid _ L _ Hm) as V. change (blk_valid (e_fs s) (ino_blk (e_fs s) ino)) in V.
  run_step ext2_read_block_run as (p & -> & I1 & F1 & E1 & Hp); [done|done|].
  apply run_bind, run_get, run_ret. split_and!; try done.
  - unfold vino. rewrite <- Hp. do 2 f_equal. unfold sub, EXT2_MIN_INODE_SIZE.
    rewrite drop_0, skipn_firstn_comm, take_take. f_equal. lia.
  - apply inode_decode_wf; [apply sub_ok; eapply vi_ok; [exact Iv|exact V]|].
    unfold EXT2_MIN_INODE_SIZE. rewrite length_sub; [done|lia|lia|].
    erewrite fi_len by done. lia.
Qed.

Lemma ext2_write_inode_run d s v ino i :
  fs_inv d s v -> ino_in (e_fs s) ino -> inode_wf i ->
  run (ext2_write_inode ino i) s (fun rc s' => rc = 0 /\ e_fs s' = e_fs s /\ same_env s s' /\
    fs_inv d s' (vset_ino (e_fs s) ino i v)).
Proof.
  intros I Hi Hw. destruct (fi_bs _ _ _ I) as [Hspb Hbs]. pose proof I as [Iv L O].
  destruct (ino_place _ L Hspb Hbs ino Hi) as (Hm & Ho).
  unfold ext2_write_inode. apply run_bind, run_gets. rewrite inode_loc_eq by done.
  pose proof (lo_valid _ L _ Hm) as V. change (blk_valid (e_fs s) (ino_blk (e_fs s) ino)) in V.
  run_step read_block_copy_run as (-> & I1 & F1 & E1); [done|done|].
  run_last ext2_write_block_run as (-> & I2 & F2 & E2); [done|by rewrite F1| | |].
  - apply put_ok; [apply inode_encode_ok|eapply vi_ok; [exact Iv|exact V]].
  - rewrite length_put, F1. by eapply fi_len.
  - split_and!; [done|congruence|unfold same_env in *; simpl in *; rest_chain|].
    split; [done|by rewrite F2, F1|]. rewrite F2, F1.
    apply vset_ino_ok; done.
Qed.
End InodeRun.

(** ** Flipping one bit of an inode bitmap *)

Lemma set_bgdt_twice t t' fs : set_bgdt_bytes t' (set_bgdt_bytes t fs) = set_bgdt_bytes t' fs.
Proof. unfold set_bgdt_bytes, set_fs_bgdt. simpl. f_equal. by destruct (fs_bgdt fs). Qed.

(** The counter updates of the inode allocator: free inodes, then perhaps
    used directories. *)
Section InodeCounters.
Context (fs : ext2_fs) (L : layout_ok fs) (g dlt dirs : Z) (dir : list Z -> bool).
Context (Hg : 0 <= g < fs_num_groups fs).
Definition ino_counters (b : list Z) : list Z :=
  let b := add_free_inodes b g dlt in if dir b then add_used_dirs b g dirs else b.
Let fs' := set_bgdt_bytes (ino_counters (bgdt_bytes fs)) fs.

Lemma ino_counters_only : counters_only fs fs'.
Proof.
  pose proof (lo_bgdt _ L) as [B1 _ _ _].
  pose proof (counter_update fs g 14 (u16 (bg_free_inodes_count (bgdt_bytes fs) g + dlt)) B1
    ltac:(lia) ltac:(auto)) as C1.
  unfold fs', ino_counters. fold (add_free_inodes (bgdt_bytes fs) g dlt) in C1.
  destruct (dir _); [|exact C1]. etransitivity; [exact C1|].
  set (t := add_free_inodes (bgdt_bytes fs) g dlt) in *.
  pose proof (counter_update (set_bgdt_bytes t fs) g 16 (u16 (bg_used_dirs_count t g + dirs))
    (co_some _ _ C1 B1) ltac:(lia) ltac:(auto)) as C2.
  rewrite bgdt_bytes_set, set_bgdt_twice in C2 by done. exact C2.
Qed.

Lemma ino_counters_free g' : 0 <= g' < fs_num_groups fs ->
  bg_free_inodes_count (bgdt_bytes fs') g' =
  if decide (g' = g) then u16 (bg_free_inodes_count (bgdt_bytes fs) g + dlt)
  else bg_free_inodes_count (bgdt_bytes fs) g'.
Proof.
  intros Hg'. pose proof (lo_bgdt _ L) as [B1 _ _ _]. pose proof (lo_groups _ L) as [_ HG].
  unfold fs'. rewrite bgdt_bytes_set by done. unfold ino_counters.
  rewrite <- add_free_inodes_get by lia. destruct (dir _); [|done].
  unfold add_used_dirs. apply get_put_le_ne; lia.
Qed.

Lemma ino_counters_blocks g' : 0 <= g' < fs_num_groups fs ->
  bg_free_blocks_count (bgdt_bytes fs') g' = bg_free_blocks_count (bgdt_bytes fs) g'.
Proof.
  intros Hg'. pose proof (lo_bgdt _ L) as [B1 _ _ _].
  unfold fs'. rewrite bgdt_bytes_set by done. unfold ino_counters, add_used_dirs, add_free_inodes.
  destruct (dir _); unfold bg_free_blocks_count; rewrite ?get_put_le_ne by lia; done.
Qed.
End InodeCounters.

Section FlipInode.
Context (fs : ext2_fs) (L : layout_ok fs) (Hbs : fs_block_size fs <= 4096).
Context (v : vol) (O : vol_ok fs v) (g i : Z) (nb : bool) (bm' : list Z).
Context (Hg : 0 <= g < fs_num_groups fs) (Hi : 0 <= i < group_inodes fs g).
Let bm := v_blk v (meta_addr fs (MIbm g)).
Context (Hbits : forall j, 0 <= j -> bm_test bm' j = if decide (j = i) then nb else bm_test bm j).
Context (Hold : bm_test bm i = negb nb).
Let dlt := if nb then -1 else 1.
Context (dirs : Z) (dir : list Z -> bool).
Let fs' := set_bgdt_bytes (ino_counters g dlt dirs dir (bgdt_bytes fs)) fs.
Context (bd id : Z).
Let v' := commit_vol fs' (meta_addr fs (MIbm g)) bm' bd id v.
Let C : counters_only fs fs' := ino_counters_only fs L g dlt dirs dir Hg.

Lemma iflip_used b : blk_in fs b -> blk_used fs' v' b = blk_used fs v b.
Proof using L C Hg.
  intros Hb. destruct (blk_split _ L b Hb) as (Hg' & _).
  assert (blk_used fs' v' b = bm_test (v_blk v' (meta_addr fs' (MBbm (blk_group fs b)))) (blk_index fs b))
    as -> by done.
  unfold v'. rewrite (commit_meta fs fs' L C (MIbm g)); done.
Qed.

Lemma iflip_ino_used ino :
  ino_in fs ino ->
  ino_used fs' v' ino =
  if decide (ino = g * fs_inodes_per_group fs + i + 1) then nb else ino_used fs v ino.
Proof using L C Hg Hi Hbits.
  intros Hino. destruct (ino_group_in fs L ino Hino) as (Hg' & Hx & E).
  assert (i < fs_inodes_per_group fs) by (unfold group_inodes in Hi; lia).
  pose proof (lo_ipg _ L) as Hipg.
  assert (ino_used fs' v' ino = bm_test (v_blk v' (meta_addr fs' (MIbm (ino_group fs ino)))) (ino_index fs ino))
    as -> by done.
  change (ino_used fs v ino) with (bm_test (v_blk v (meta_addr fs (MIbm (ino_group fs ino)))) (ino_index fs ino)).
  destruct (decide (ino_group fs ino = g)) as [Eg|Eg].
  - rewrite Eg in *. unfold v'. rewrite (commit_same fs fs' L C (MIbm g)) by done.
    rewrite Hbits by lia. fold bm.
    destruct (decide (ino_index fs ino = i)) as [Ei|Ei].
    + rewrite decide_True by lia. done.
    + rewrite decide_False by lia. done.
  - unfold v'. rewrite (commit_meta fs fs' L C (MIbm g)); [|done|done|done|by intros [= ?]].
    rewrite decide_False; [done|]. intros E'. apply Eg. unfold ino_group. rewrite E'.
    replace (g * fs_inodes_per_group fs + i + 1 - 1) with (i + g * fs_inodes_per_group fs) by lia.
    rewrite Z.div_add, Z.div_small by lia. lia.
Qed.

Lemma iflip_vol_ok : vol_ok fs' v'.
Proof using L C Hg Hi Hbits Hold O Hbs.
  pose proof (lo_groups _ L) as [_ HG]. pose proof (lo_ipg _ L) as Hipg.
  assert (forall m, meta_in fs' m <-> meta_in fs m) as Hin by (intros []; done).
  split.
  - apply commit_sync.
  - intros m Hm%Hin. destruct (vo_meta _ _ O m Hm) as [Hb Hu].
    rewrite (counters_meta _ _ _ C Hm). split; [done|]. by rewrite iflip_used.
  - intros b Hb Hs. rewrite iflip_used by done. by apply O.
  - intros g' Hg'. unfold v'. rewrite (commit_meta fs fs' L C (MIbm g)) by done.
    assert (group_blocks fs' g' = group_blocks fs g') as -> by done.
    rewrite <- (vo_free _ _ O g' Hg'). by apply ino_counters_blocks.
  - intros g' Hg'. assert (group_inodes fs' g' = group_inodes fs g') as -> by done.
    unfold fs' at 1. rewrite (ino_counters_free fs L) by done.
    case_decide as D.
    + subst g'. unfold v'. rewrite (commit_same fs fs' L C (MIbm g)) by done.
      rewrite (vo_ifree _ _ O g Hg). fold bm. set (n := Z.to_nat (group_inodes fs g)).
      assert (group_inodes fs g <= 32768) by (unfold group_inodes; lia).
      pose proof (clear_bits_bound bm n). pose proof (clear_bits_bound bm' n).
      assert (clear_bits bm' n = clear_bits bm n + dlt) as Hc.
      { unfold dlt. destruct nb.
        - apply (clear_bits_flip bm bm' _ i); [lia|done|rewrite Hbits, decide_True by lia; done|].
          intros j Hj Hne. rewrite Hbits, decide_False by lia. done.
        - enough (clear_bits bm n = clear_bits bm' n - 1) by lia.
          apply (clear_bits_flip bm' bm _ i); [lia|rewrite Hbits, decide_True by lia; done|done|].
          intros j Hj Hne. rewrite Hbits, decide_False by lia. done. }
      rewrite Hc. apply u16_small. unfold is_u16. lia.
    + unfold v'. rewrite (commit_meta fs fs' L C (MIbm g)); [|done|done|done|by intros [= ?]].
      by apply O.
Qed.
End FlipInode.

(** ** The inode allocator *)

(** Blocks outside the descriptor table and the inode bitmaps. *)
Definition ialloc_keeps (fs : ext2_fs) (v v' : vol) : Prop :=
  forall b, (forall k, 0 <= k < fs_bgdt_blocks fs -> b <> fs_bgdt_block fs + k) ->
    (forall g, 0 <= g < fs_num_groups fs -> b <> meta_addr fs (MIbm g)) -> v_blk v' b = v_blk v b.

(** What setting ([nb = true]) or clearing the bit of [ino] does to the volume. *)
Record inode_flipped (fs : ext2_fs) (v : vol) (ino : Z) (nb : bool) (fs' : ext2_fs) (v' : vol) : Prop := {
  if_counters : counters_only fs fs';
  if_ok : vol_ok fs' v';
  if_in : ino_in fs ino;
  if_old : ino_used fs v ino = negb nb;
  if_ino ino' : ino_in fs ino' ->
    ino_used fs' v' ino' = if decide (ino' = ino) then nb else ino_used fs v ino';
  if_used b : blk_in fs b -> blk_used fs' v' b = blk_used fs v b;
  if_keeps : ialloc_keeps fs v v';
  if_sb : v_sb v' = adjust_raw 0 (if nb then -1 else 1) (v_sb v);
}.

Lemma inode_flip (fs : ext2_fs) (v : vol) (g i : Z) (nb : bool) (dirs : Z) (dir : list Z -> bool) (bm' : list Z) :
  layout_ok fs -> vol_ok fs v -> fs_block_size fs <= 4096 ->
  let bm := v_blk v (meta_addr fs (MIbm g)) in
  let dlt := if nb then -1 else 1 in
  let fs' := set_bgdt_bytes (ino_counters g dlt dirs dir (bgdt_bytes fs)) fs in
  let v' := commit_vol fs' (meta_addr fs (MIbm g)) bm' 0 dlt v in
  0 <= g < fs_num_groups fs -> 0 <= i < group_inodes fs g ->
  (forall j, 0 <= j -> bm_test bm' j = if decide (j = i) then nb else bm_test bm j) ->
  bm_test bm i = negb nb ->
  inode_flipped fs v (g * fs_inodes_per_group fs + i + 1) nb fs' v'.
Proof.
  intros L O Hbs bm dlt fs' v' Hg Hi Hbits Hold. pose proof (lo_ipg _ L) as Hipg.
  assert (ino_in fs (g * fs_inodes_per_group fs + i + 1)) as Hin.
  { unfold ino_in, group_inodes in *. nia. }
  pose proof (ino_counters_only fs L g dlt dirs dir Hg) as C.
  split; [done|by eapply iflip_vol_ok|done| | | | |done].
  - unfold ino_used.
    replace (g * fs_inodes_per_group fs + i + 1 - 1) with (i + g * fs_inodes_per_group fs) by lia.
    assert (i < fs_inodes_per_group fs) by (unfold group_inodes in Hi; lia).
    rewrite Z.div_add, Z.div_small, Z.mod_add, Z.mod_small, Z.add_0_l by lia. done.
  - intros ino' Hino'. by eapply iflip_ino_used.
  - intros b Hb. by eapply iflip_used.
  - intros b Hk Hbb. unfold v'. rewrite (commit_blk fs fs' C (MIbm g)) by done.
    rewrite decide_False by (by apply Hbb). done.
Qed.

(** The inode table is not touched. *)
Lemma vino_flipped fs v ino nb fs' v' :
  layout_ok fs -> 1 <= fs_sectors_per_block fs <= 8 ->
  fs_block_size fs = 512 * fs_sectors_per_block fs -> inode_flipped fs v ino nb fs' v' ->
  forall ino', ino_in fs ino' -> vino fs' v' ino' = vino fs v ino'.
Proof.
  intros L Hspb Hbs HF ino' Hi. destruct (ino_place fs L Hspb Hbs ino' Hi) as (Hm & _).
  pose proof (if_counters _ _ _ _ _ _ HF) as C.
  assert (ino_off fs' ino' = ino_off fs ino') as Eo by (by rewrite (co_eq _ _ C)).
  assert (ino_blk fs' ino' = ino_blk fs ino') as Eb.
  { unfold ino_blk. rewrite <- (counters_meta _ _ _ C Hm). f_equal. by rewrite (co_eq _ _ C). }
  unfold vino. rewrite Eo, Eb. do 2 f_equal.
  apply (if_keeps _ _ _ _ _ _ HF); intros x Hx E.
  - by pose proof (lo_inj _ L _ (MBgdt x) Hm Hx E).
  - by pose proof (lo_inj _ L _ (MIbm x) Hm Hx E).
Qed.

Section AllocInode.
Context {W : Type} `{MachineOk W}.
Abbreviation E := (ext2 W).
Implicit Types (s : E) (v : vol) (d : disk_device).

(** Outcome of [ext2_alloc_inode]. *)
Definition ialloc_result d s v (r : option Z) s' : Prop :=
  same_env s s' /\
  match r with
  | Some ino => exists v', fs_inv d s' v' /\ inode_flipped (e_fs s) v ino true (e_fs s') v'
  | None => vinv d s' v /\ e_fs s' = e_fs s /\
            (forall ino, ino_in (e_fs s) ino -> ino_used (e_fs s) v ino = true)
  end.

Lemma alloc_inode_from_run d is_dir n : forall g s v,
  fs_inv d s v -> 0 <= g -> g + Z.of_nat n = fs_num_groups (e_fs s) ->
  (forall ino, ino_in (e_fs s) ino -> ino_group (e_fs s) ino < g -> ino_used (e_fs s) v ino = true) ->
  run (alloc_inode_from n g is_dir) s (ialloc_result d s v).
Proof.
  induction n as [|n IH]; intros g s v I Hg Hn Hfull; cbn [alloc_inode_from];
    pose proof I as [Iv L O]; destruct (fi_bs _ _ _ I) as [Hspb Hbs].
  { apply run_ret. split; [done|]. split_and!; [done|done|]. intros b Hb. apply Hfull; [done|].
    destruct (ino_group_in _ L b Hb) as [? _]. lia. }
  apply run_bind, run_gets.
  set (fs := e_fs s) in *. assert (meta_in fs (MIbm g)) as Hm by (simpl; lia).
  pose proof (lo_valid _ L _ Hm) as V. pose proof (lo_ipg _ L) as Hipg.
  pose proof (lo_inodes _ L) as Htot.
  set (bm := v_blk v (meta_addr fs (MIbm g))).
  assert (forall s1 : E, vinv d s1 v -> e_fs s1 = fs -> same_env s s1 ->
    (forall i, 0 <= i < group_inodes fs g -> bm_test bm i = true) ->
    run (alloc_inode_from n (g + 1) is_dir) s1 (ialloc_result d s v)) as Hnext.
  { intros s1 I1 F1 E1 Hg1. eapply run_mono; [apply (IH (g + 1) s1 v)| ].
    - split; [done|by rewrite F1..].
    - lia.
    - rewrite F1. unfold fs in *. lia.
    - rewrite F1. intros ino Hb Hlt. destruct (ino_group_in _ L ino Hb) as (Hr1 & Hr2 & Eb).
      destruct (Z.eq_dec (ino_group fs ino) g) as [Eg|]; [|apply Hfull; [done|unfold fs in *; lia]].
      unfold ino_used. fold (ino_group fs ino). rewrite Eg. apply Hg1.
      fold (ino_index fs ino). unfold ino_in, group_inodes in *. rewrite Eg in Eb. lia.
    - intros r s'. unfold ialloc_result. rewrite F1.
      intros [E2 ?]. split; [by etrans|done]. }
  destruct (Z.eqb_spec (bg_free_inodes_count (bgdt_bytes fs) g) 0) as [Hz|Hz].
  { apply Hnext; [done|done|done|]. rewrite (vo_ifree _ _ O g) in Hz by (simpl in Hm; lia).
    intros i Hi. eapply clear_bits_zero; [exact Hz|lia]. }
  run_step read_block_copy_run as (-> & I1 & F1 & E1); [done|done|].
  change (v_blk v (bg_inode_bitmap (bgdt_bytes fs) g)) with bm.
  rewrite (u32_small (g * _)) by (unfold is_u32; nia).
  assert (forall i, 0 <= i < fs_inodes_per_group fs ->
    u32 (g * fs_inodes_per_group fs + i + 1) = g * fs_inodes_per_group fs + i + 1) as Hu.
  { intros i Hi. apply u32_small. unfold is_u32. nia. }
  destruct (scan_bitmap _ 0 bm _) as [i|] eqn:Hscan.
  2: { apply Hnext; [done|done|done|]. intros i Hi. unfold group_inodes in Hi.
       eapply scan_bitmap_None; [exact Hscan|lia|]. intros k Hk. simpl.
       rewrite Hu by lia. apply Z.ltb_ge. lia. }
  apply scan_bitmap_Some in Hscan as (Hi & Hstop & Hclear). rewrite Hu in * by lia.
  apply Z.ltb_ge in Hstop. fold fs in F1.
  assert (layout_ok (e_fs s') /\ blk_valid (e_fs s') (meta_addr fs (MIbm g))) as [L1 V1] by (by rewrite F1).
  assert (length bm = Z.to_nat (fs_block_size fs)) as Hlen by (eapply vi_len; [exact Iv|exact V]).
  eapply commit_step; [exact I1|exact L1|exact V1|rewrite length_bm_set, F1; exact Hlen| | |].
  - apply bm_set_ok; [lia|]. eapply vi_ok; [exact I1|exact V1].
  - rewrite F1. apply (ino_counters_only fs L g (-1) 1 (fun _ => is_dir)). simpl in Hm. lia.
  - intros s3 fs' I3 F3 E3. unfold fs' in *. clear fs'. rewrite F1 in *. apply run_ret.
    split; [unfold same_env in *; simpl in *; rest_chain|].
    pose proof (inode_flip fs v g i true 1 (fun _ => is_dir) (bm_set bm i) L O ltac:(lia)
      ltac:(simpl in Hm; lia) ltac:(unfold group_inodes; lia)) as HF.
    eexists. rewrite F3. split; [split; [exact I3| |]|].
    + rewrite F3. eapply counters_layout; [|exact L]. apply (ino_counters_only fs L g (-1) 1 (fun _ => is_dir)).
      simpl in Hm. lia.
    + rewrite F3. apply HF; [|done]. intros j Hj. rewrite bm_test_set by lia.
      repeat case_decide; rewrite ?bool_decide_eq_true_2, ?bool_decide_eq_false_2 by congruence; done.
    + apply HF; [|done]. intros j Hj. rewrite bm_test_set by lia.
      repeat case_decide; rewrite ?bool_decide_eq_true_2, ?bool_decide_eq_false_2 by congruence; done.
Qed.

Lemma ext2_alloc_inode_run d s v is_dir :
  fs_inv d s v -> run (ext2_alloc_inode is_dir) s (ialloc_result d s v).
Proof.
  intros I. unfold ext2_alloc_inode. apply run_bind, run_gets.
  pose proof (lo_groups _ (fi_layout _ _ _ I)).
  apply alloc_inode_from_run; [done|lia|lia|]. intros ino Hb Hlt.
  destruct (ino_group_in _ (fi_layout _ _ _ I) ino Hb). lia.
Qed.

(** Outcome of [ext2_free_inode] on an inode in use: its bit is cleared, then
    its slot is zeroed. *)
Lemma ext2_free_inode_run d s v ino is_dir :
  fs_inv d s v -> ino_in (e_fs s) ino -> ino_used (e_fs s) v ino = true ->
  run (ext2_free_inode ino is_dir) s (fun _ s' => same_env s s' /\
    exists v1, inode_flipped (e_fs s) v ino false (e_fs s') v1 /\
               fs_inv d s' (vset_ino (e_fs s') ino inode_zero v1)).
Proof.
  intros I Hino Hu. pose proof I as [Iv L O]. destruct (fi_bs _ _ _ I) as [Hspb Hbs].
  set (fs := e_fs s) in *. destruct (ino_group_in _ L ino Hino) as (Hg & Hx & Eino).
  unfold ext2_free_inode. apply run_bind, run_gets. fold fs. pose proof Hino as [Hi1 Hi2].
  rewrite (proj2 (Z.eqb_neq ino 0)), (proj2 (Z.ltb_ge _ ino)) by lia. cbn [orb].
  fold (ino_group fs ino). fold (ino_index fs ino).
  destruct (Z.leb_spec (fs_num_groups fs) (ino_group fs ino)) as [|_]; [lia|].
  set (g := ino_group fs ino) in *. set (i := ino_index fs ino) in *.
  pose proof (lo_valid _ L (MIbm g) Hg) as V. pose proof (lo_ipg _ L) as Hipg.
  run_step read_block_copy_run as (-> & I1 & F1 & E1); [done|done|]. fold fs in F1.
  set (bm := v_blk v (meta_addr fs (MIbm g))).
  change (v_blk v (bg_inode_bitmap (bgdt_bytes fs) g)) with bm.
  change (bm_test bm i = true) in Hu. rewrite Hu. cbn [negb].
  assert (layout_ok (e_fs s') /\ blk_valid (e_fs s') (meta_addr fs (MIbm g))) as [L1 V1] by (by rewrite F1).
  assert (length bm = Z.to_nat (fs_block_size fs)) as Hlen by (eapply vi_len; [exact Iv|exact V]).
  set (dir := fun b => is_dir && (0 <? bg_used_dirs_count b g)).
  assert (i < group_inodes fs g) by (unfold group_inodes; lia).
  pose proof (inode_flip fs v g i false (-1) dir (bm_clear bm i) L O ltac:(lia) Hg ltac:(lia)) as HF.
  rewrite <- Eino in HF.
  eapply commit_step; [exact I1|exact L1|exact V1|rewrite length_bm_clear, F1; exact Hlen| | |].
  - apply bm_clear_ok; [lia|]. eapply vi_ok; [exact I1|exact V1].
  - rewrite F1. apply (ino_counters_only fs L g 1 (-1) dir Hg).
  - intros s3 fs' I3 F3 E3. unfold fs' in *. clear fs'. rewrite F1 in *.
    assert (inode_flipped fs v ino false (e_fs s3)
      (commit_vol (e_fs s3) (meta_addr fs (MIbm g)) (bm_clear bm i) 0 1 v)) as HF'.
    { rewrite F3. apply HF; [|done]. intros j Hj. rewrite bm_test_clear by lia.
      repeat case_decide; rewrite ?bool_decide_eq_true_2, ?bool_decide_eq_false_2 by congruence; done. }
    rewrite <- F3 in I3.
    assert (layout_ok (e_fs s3)) as L3 by (eapply counters_layout; [apply HF'|exact L]).
    run_step ext2_write_inode_run as (-> & F4 & E4 & I4);
      [by split; [exact I3| |apply HF']|by rewrite F3|apply inode_zero_wf|].
    apply run_ret. rewrite F4. split; [unfold same_env in *; simpl in *; rest_chain|].
    eexists. by split; [exact HF'|exact I4].
Qed.

(** An allocated inode number was free and in range; the volume
    stays consistent, the block bitmaps, the inode table and all data blocks
    are untouched, and -1 is returned only when every inode is in use. *)
Theorem ext2_alloc_inode_correct d s v is_dir :
  fs_inv d s v -> run (ext2_alloc_inode is_dir) s (ialloc_result d s v).
Proof. apply ext2_alloc_inode_run. Qed.

(** Freeing an inode clears its bit, zeroes its slot in the table
    and leaves every other inode, every block bitmap and every data block as
    they were. *)
Theorem ext2_free_inode_correct d s v ino is_dir :
  fs_inv d s v -> ino_in (e_fs s) ino -> ino_used (e_fs s) v ino = true ->
  run (ext2_free_inode ino is_dir) s (fun _ s' => exists v', fs_inv d s' v' /\
    ino_used (e_fs s') v' ino = false /\ vino (e_fs s') v' ino = inode_zero /\
    (forall ino', ino_in (e_fs s) ino' -> ino' <> ino ->
       ino_used (e_fs s') v' ino' = ino_used (e_fs s) v ino' /\
       vino (e_fs s') v' ino' = vino (e_fs s) v ino') /\
    (forall b, blk_in (e_fs s) b -> blk_used (e_fs s') v' b = blk_used (e_fs s) v b) /\
    (forall b, data_block (e_fs s) b -> v_blk v' b = v_blk v b)).
Proof.
  intros I Hino Hu. run_last ext2_free_inode_run as (E1 & v1 & HF & I'); [done|done|done|].
  pose proof (if_counters _ _ _ _ _ _ HF) as C. pose proof (co_eq _ _ C) as EC.
  pose proof (fi_layout _ _ _ I') as L'. destruct (fi_bs _ _ _ I') as [Hspb' Hbs'].
  assert (forall x, ino_in (e_fs s) x -> ino_in (e_fs s') x) as Hin by (by rewrite EC).
  assert (forall b, blk_valid (e_fs s') b -> length (v_blk v1 b) = Z.to_nat (fs_block_size (e_fs s'))) as Hlen.
  { intros b V. pose proof (fi_len _ _ _ b I' V) as Hl. unfold vset_ino in Hl. cbn [v_blk vset] in Hl.
    case_decide; [|done]. subst. by rewrite length_put in Hl. }
  exists (vset_ino (e_fs s') ino inode_zero v1). split_and!; [done| | | | |].
  - rewrite vset_ino_ino_used, (if_ino _ _ _ _ _ _ HF), decide_True by auto. done.
  - by apply vino_set_same; auto using inode_zero_wf.
  - intros ino' Hino' Hne. rewrite vset_ino_ino_used, (if_ino _ _ _ _ _ _ HF), decide_False by auto.
    split; [done|]. rewrite vino_set_other by auto using inode_zero_wf.
    destruct (fi_bs _ _ _ I) as [Hspb Hbs].
    by apply (vino_flipped _ _ _ _ _ _ (fi_layout _ _ _ I) Hspb Hbs HF).
  - intros b Hb. rewrite vset_ino_used by (auto; by rewrite EC). by apply HF.
  - intros b Hb. rewrite vset_ino_data by (auto; by eapply counters_data).
    apply (if_keeps _ _ _ _ _ _ HF); [intros k Hk|intros g Hg]; intros ->; destruct Hb as (_ & _ & Hnm).
    + by apply (Hnm (MBgdt k)).
    + by apply (Hnm (MIbm g)).
Qed.

(** The inode table round trip: an inode written is the inode read
    back, field by field, and no other inode changes. *)
Theorem ext2_inode_roundtrip d s v ino ino' i :
  fs_inv d s v -> ino_in (e_fs s) ino -> ino_in (e_fs s) ino' -> inode_wf i ->
  run (rc ← ext2_write_inode ino i; a ← ext2_read_inode ino; b ← ext2_read_inode ino';
       mret (rc, a, b)) s
    (fun r s' => r = (0, Some i, Some (if decide (ino' = ino) then i else vino (e_fs s) v ino')) /\
       exists v', fs_inv d s' v' /\
         (forall b, data_block (e_fs s) b -> v_blk v' b = v_blk v b)).
Proof.
  intros I Hi Hi' Hw. destruct (fi_bs _ _ _ I) as [Hspb Hbs]. pose proof (fi_layout _ _ _ I) as L.
  run_step ext2_write_inode_run as (-> & F1 & E1 & I1); [done..|].
  run_step ext2_read_inode_run as (-> & _ & I2 & F2 & E2); [done|by rewrite F1|].
  run_step ext2_read_inode_run as (-> & _ & I3 & F3 & E3);
    [split; [exact I2|rewrite F2; apply I1..]|by rewrite F2, F1|].
  apply run_ret. pose proof (fun b V => fi_len d s v b I V) as Hlen.
  rewrite F2, F1, (vino_set_same _ L Hspb Hbs v Hlen) by done.
  split.
  - do 2 f_equal. case_decide as D; [subst ino'; by rewrite (vino_set_same _ L Hspb Hbs v Hlen)|].
    by rewrite vino_set_other.
  - eexists. split; [split; [exact I3|rewrite F3, F2; apply I1..]|].
    intros b Hb. by apply vset_ino_data.
Qed.
End AllocInode.
