(* ===== verification/Ext2File.v ===== *)
(** * EXT2 file contents (fs/ext2/inode.c, fs/ext2/file.c, inode_block_at of fs/ext2/dir.c)

    The map from a file's logical blocks to disk blocks (12 direct pointers
    and one indirect block), its iterator, growth and release, and reading a
    whole file into a heap buffer. *)

From S2P Require Import Prelude Machine VfsTypes Ext2Layout Ext2Block Ext2Super Ext2Inode.

(** The first [n] 32-bit pointers of an indirect block. *)
Definition block_ptrs (buf : list Z) (n : Z) : list Z :=
  (fun k => get_le 4 buf (4 * k)) <$> seqZ 0 n.

Section File.
Context {W : Type} `{Machine W}.
Abbreviation E := (ext2 W).

(** ** Iteration (fs/ext2/inode.c, ext2_iter_blocks) *)

(** The loop shared by the direct and the indirect part: the callback's
    result, the bytes remaining and its context. *)
Fixpoint iter_ptrs {C} (cb : Z -> C -> state E (Z * C)) (bs : Z) (ptrs : list Z)
    (remaining : Z) (ctx : C) : state E (Z * Z * C) :=
  match ptrs with
  | [] => mret (0, remaining, ctx)
  | blk :: ptrs =>
      if remaining =? 0 then mret (0, remaining, ctx) else
      let remaining := remaining - (if remaining <? bs then remaining else bs) in
      '(r, ctx) ← cb blk ctx;
      if negb (r =? 0) then mret (r, remaining, ctx)
      else iter_ptrs cb bs ptrs remaining ctx
  end.

Definition ext2_iter_blocks {C} (cb : Z -> C -> state E (Z * C)) (inode : ext2_inode)
    (nbytes : Z) (ctx : C) : state E (Z * C) :=
  fs ← ext2_get_fs;
  '(r, remaining, ctx) ← iter_ptrs cb (fs_block_size fs) (take 12 (i_block inode)) nbytes ctx;
  if negb (r =? 0) then mret (r, ctx) else
  if (remaining =? 0) || (i_block_at inode 12 =? 0) then mret (0, ctx) else
  ind ← read_block_copy (i_block_at inode 12);
  match ind with
  | None => mret (-1, ctx)
  | Some ind =>
      let n := fs_block_size fs / 4 in
      let n := if 256 <? n then 256 else n in
      '(r, _, ctx) ← iter_ptrs cb (fs_block_size fs) (block_ptrs ind n) remaining ctx;
      mret (r, ctx)
  end.

(** ** Random access (fs/ext2/dir.c, inode_block_at) *)

Definition inode_block_at (inode : ext2_inode) (index : Z) : state E Z :=
  if index <? 12 then mret (i_block_at inode index) else
  if i_block_at inode 12 =? 0 then mret 0 else
  fs ← ext2_get_fs;
  let ind_index := index - 12 in
  if fs_block_size fs / 4 <=? ind_index then mret 0 else
  r ← read_block_copy (i_block_at inode 12);
  mret (match r with Some ro => get_le 4 ro (ind_index * 4) | None => 0 end).

(** ** Growth and release (fs/ext2/inode.c) *)

Definition add_i_blocks (n : Z) (i : ext2_inode) : ext2_inode :=
  set_i_blocks (u32 (i_blocks i + n)) i.

(** [ext2_inode_add_block]: the result and the updated in-memory inode. *)
Definition ext2_inode_add_block (inode : ext2_inode) (logical_index new_blk : Z)
    : state E (Z * ext2_inode) :=
  fs ← ext2_get_fs;
  let spb := fs_sectors_per_block fs in
  if logical_index <? 12 then
    mret (0, add_i_blocks spb (set_i_block_at logical_index new_blk inode))
  else
  let ind_index := logical_index - 12 in
  if fs_block_size fs / 4 <=? ind_index then mret (-1, inode) else
  ind ← (if i_block_at inode 12 =? 0 then
           b ← ext2_alloc_block;
           mret ((fun b => add_i_blocks spb (set_i_block_at 12 b inode)) <$> b)
         else mret (Some inode));
  match ind with
  | None => mret (-1, inode)
  | Some inode =>
      r ← read_block_copy (i_block_at inode 12);
      match r with
      | None => mret (-1, inode)
      | Some buf =>
          rc ← ext2_write_block (i_block_at inode 12) (put_le 4 buf (ind_index * 4) new_blk);
          if negb (rc =? 0) then mret (-1, inode)
          else mret (0, add_i_blocks spb inode)
      end
  end.

(** Freeing the non-zero pointers of a list. *)
Fixpoint free_ptrs (ptrs : list Z) : state E unit :=
  match ptrs with
  | [] => mret tt
  | b :: ptrs =>
      _ ← (if b =? 0 then mret tt else ext2_free_block b);
      free_ptrs ptrs
  end.

(** [ext2_inode_free_all_blocks]: the updated in-memory inode. *)
Definition ext2_inode_free_all_blocks (inode : ext2_inode) : state E ext2_inode :=
  _ ← free_ptrs (take 12 (i_block inode));
  let ind := i_block_at inode 12 in
  _ ← (if ind =? 0 then mret tt else
       fs ← ext2_get_fs;
       r ← read_block_copy ind;
       _ ← (match r with
            | Some ro => free_ptrs (block_ptrs ro (fs_block_size fs / 4))
            | None => mret tt
            end);
       ext2_free_block ind);
  mret (set_i_size 0 (set_i_blocks 0
          (set_i_block (replicate 13 0 ++ drop 13 (i_block inode)) inode))).

(** ** Whole files (fs/ext2/file.c) *)

Record copy_ctx := mk_copy_ctx { cc_dst : list Z; cc_pos : Z; cc_remaining : Z }.

(** [copy_block]; [cc_dst] and [cc_pos] are the buffer and the moving [dst] pointer. *)
Definition copy_block (bs blk_no : Z) (c : copy_ctx) : state E (Z * copy_ctx) :=
  let chunk := if cc_remaining c <? bs then cc_remaining c else bs in
  let advance dst := mk_copy_ctx dst (cc_pos c + chunk) (cc_remaining c - chunk) in
  if blk_no =? 0 then mret (0, advance (cc_dst c)) else
  p ← ext2_read_block blk_no;
  s ← get;
  match p with
  | None => mret (-1, c)
  | Some p => mret (0, advance (put (cc_dst c) (cc_pos c) (sub (deref s p) 0 chunk)))
  end.

(** [ext2_read_file_ino]: heap pointer, contents ([size] bytes and a NUL) and size. *)
Definition ext2_read_file_ino (ino : Z) : state E (option (Z * list Z * Z)) :=
  fs ← ext2_get_fs;
  i ← ext2_read_inode ino;
  match i with
  | None => mret None
  | Some inode =>
      if negb (inode_is EXT2_S_IFREG inode) then mret None else
      let size := i_size inode in
      p ← lift_w (kmalloc (u32 (1 * u32 (size + 1))));
      match p with
      | None => mret None
      | Some p =>
          let buf := zeros (u32 (size + 1)) in
          if 0 <? size then
            '(r, c) ← ext2_iter_blocks (copy_block (fs_block_size fs)) inode size
                        (mk_copy_ctx buf 0 size);
            if r <? 0 then _ ← lift_w (kfree (Some p)); mret None
            else mret (Some (p, cc_dst c, size))
          else mret (Some (p, buf, size))
      end
  end.
End File.
