(* ===== verification/Ext2Dir.v ===== *)
(** * EXT2 directories (fs/ext2/dir.c)

    Directory blocks are chains of variable-length entries: lookup,
    enumeration, insertion (reusing a deleted slot, splitting slack space or
    growing the directory), removal (merging into the previous entry) and the
    walk from a path to an inode.  Names and paths are byte lists without
    their NUL. *)

From S2P Require Import Prelude Machine VfsTypes Ext2Layout Ext2Block Ext2Super Ext2Inode Ext2File.

Definition align4 (n : Z) : Z := ALIGN_UP n 4.

(** ** Entry chains *)

(** The loop [while (off + 8 <= block_size) { if (rec_len == 0) break; ...;
    prev = off; off += rec_len; }]: the first entry on which [f] answers.
    Each step advances by at least one byte, so the block size is enough fuel. *)
Fixpoint dir_scan {A} (fuel : nat) (bs : Z) (buf : list Z) (off : Z) (prev : option Z)
    (f : Z -> option Z -> option A) : option A :=
  match fuel with
  | O => None
  | S fuel =>
      if bs <? off + DIRENT_SIZE then None else
      if de_rec_len buf off =? 0 then None else
      match f off prev with
      | Some a => Some a
      | None => dir_scan fuel bs buf (off + de_rec_len buf off) (Some off) f
      end
  end.

Definition scan_block {A} (bs : Z) (buf : list Z) (f : Z -> option Z -> option A) : option A :=
  dir_scan (S (Z.to_nat bs)) bs buf 0 None f.

(** [de->inode != 0 && de->name_len == (uint8_t)name_len && strncmp(...) == 0]. *)
Definition de_matches (buf : list Z) (name : list Z) (off : Z) : bool :=
  negb (de_inode buf off =? 0) &&
  (de_name_len buf off =? u8 (Z.of_nat (length name))) &&
  bool_decide (sub buf (off + DIRENT_SIZE) (Z.of_nat (length name)) = name).

Definition find_entry (bs : Z) (buf name : list Z) : option Z :=
  scan_block bs buf (fun off _ => if de_matches buf name off then Some (de_inode buf off) else None).

(** The fields of an entry written over a buffer; [rec_len = None] keeps it. *)
Definition put_dirent (buf : list Z) (off ino : Z) (rec_len : option Z) (file_type : Z)
    (name : list Z) : list Z :=
  let buf := put_le 4 buf off ino in
  let buf := match rec_len with Some r => put_le 2 buf (off + 4) (u16 r) | None => buf end in
  let buf := put buf (off + 6) [u8 (Z.of_nat (length name))] in
  let buf := put buf (off + 7) [file_type] in
  put buf (off + DIRENT_SIZE) name.

(** One round of [ext2_dir_insert]'s scan: the block with the new entry, if
    the entry at [off] has room for it. *)
Definition insert_at (buf name : list Z) (ino file_type off : Z) : option (list Z) :=
  let needed := align4 (DIRENT_SIZE + Z.of_nat (length name)) in
  if de_inode buf off =? 0 then
    if needed <=? de_rec_len buf off
    then Some (put_dirent buf off ino None file_type name) else None
  else
    let actual := align4 (DIRENT_SIZE + de_name_len buf off) in
    let slack := u32 (de_rec_len buf off - actual) in
    if needed <=? slack then
      let old_rec_len := de_rec_len buf off in
      let buf := put_le 2 buf (off + 4) (u16 actual) in
      Some (put_dirent buf (off + actual) ino (Some (old_rec_len - actual)) file_type name)
    else None.

Definition insert_in_block (bs : Z) (buf name : list Z) (ino file_type : Z) : option (list Z) :=
  scan_block bs buf (fun off _ => insert_at buf name ino file_type off).

(** What [ext2_dir_remove] does to one block. *)
Definition remove_in_block (bs : Z) (buf name : list Z) : option (list Z) :=
  scan_block bs buf (fun off prev =>
    if de_matches buf name off then
      Some (match prev with
            | Some p => put_le 2 buf (p + 4) (u16 (de_rec_len buf p + de_rec_len buf off))
            | None => put_le 4 buf off 0
            end)
    else None).

(** An entry other than "." and "..". *)
Definition is_dot_or_dotdot (buf : list Z) (off : Z) : bool :=
  ((de_name_len buf off =? 1) && (byte_at buf (off + 8) =? DOT)) ||
  ((de_name_len buf off =? 2) && (byte_at buf (off + 8) =? DOT) && (byte_at buf (off + 9) =? DOT)).

Definition has_real_entry (bs : Z) (buf : list Z) : bool :=
  match scan_block bs buf (fun off _ =>
          if negb (de_inode buf off =? 0) && negb (is_dot_or_dotdot buf off)
          then Some tt else None) with
  | Some _ => true
  | None => false
  end.

(** [ext2_dir_set_parent] on one block. *)
Definition set_parent_in_block (bs : Z) (buf : list Z) (parent : Z) : option (list Z) :=
  scan_block bs buf (fun off _ =>
    if negb (de_inode buf off =? 0) && (de_name_len buf off =? 2) &&
       (byte_at buf (off + 8) =? DOT) && (byte_at buf (off + 9) =? DOT)
    then Some (put_le 4 buf off parent) else None).

(** The block [ext2_dir_insert] appends to a full directory. *)
Definition fresh_dir_block (bs : Z) (name : list Z) (ino file_type : Z) : list Z :=
  put_dirent (zeros bs) 0 ino (Some bs) file_type name.

Section Dir.
Context {W : Type} `{Machine W}.
Abbreviation E := (ext2 W).

(** ** Lookup *)

(** [lookup_in_block]: reads through the cache pointer; the context is [found_ino]. *)
Definition lookup_in_block (name : list Z) (blk_no : Z) (found : Z) : state E (Z * Z) :=
  if blk_no =? 0 then mret (0, found) else
  fs ← ext2_get_fs;
  p ← ext2_read_block blk_no;
  s ← get;
  match p with
  | None => mret (-1, found)
  | Some p =>
      match find_entry (fs_block_size fs) (deref s p) name with
      | Some ino => mret (1, ino)
      | None => mret (0, found)
      end
  end.

Definition ext2_dir_lookup (dir_ino : Z) (name : list Z) : state E (option Z) :=
  i ← ext2_read_inode dir_ino;
  match i with
  | None => mret None
  | Some inode =>
      if negb (inode_is EXT2_S_IFDIR inode) then mret None else
      '(r, found) ← ext2_iter_blocks (lookup_in_block name) inode (i_size inode) 0;
      mret (if (r =? 1) && negb (found =? 0) then Some found else None)
  end.

Fixpoint walk_tokens (cur : Z) (toks : list (list Z)) : state E (option Z) :=
  match toks with
  | [] => mret (Some cur)
  | tok :: toks =>
      next ← ext2_dir_lookup cur tok;
      match next with
      | None => mret None
      | Some next => walk_tokens next toks
      end
  end.

(** [ext2_path_to_inode]: [strncpy] keeps at most 255 bytes of [path + 1]. *)
Definition ext2_path_to_inode (path : list Z) : state E (option Z) :=
  match path with
  | [] => mret None
  | c :: rest =>
      if negb (c =? SLASH) then mret None else
      if decide (rest = []) then mret (Some EXT2_ROOT_INODE) else
      walk_tokens EXT2_ROOT_INODE (path_tokens (take 255 rest) [])
  end.

(** ** Enumeration *)

(** The entry handed to the callback. *)
Definition make_dirent (buf : list Z) (off : Z) : state E vfs_dirent :=
  let nlen := de_name_len buf off in
  let copy_len := if nlen <? PUREUNIX_MAX_NAME - 1 then nlen else PUREUNIX_MAX_NAME - 1 in
  let name := sub buf (off + DIRENT_SIZE) copy_len in
  if de_file_type buf off =? EXT2_FT_DIR then mret (mk_dirent name VFS_DIR 0) else
  let ty := if de_file_type buf off =? EXT2_FT_SYMLINK then VFS_SYMLINK else VFS_FILE in
  i ← ext2_read_inode (de_inode buf off);
  mret (mk_dirent name ty (match i with Some i => i_size i | None => 0 end)).

Fixpoint readdir_loop {U} (cb : vfs_dirent -> U -> state E (Z * U)) (fuel : nat) (bs : Z)
    (buf : list Z) (off : Z) (u : U) : state E (Z * U) :=
  match fuel with
  | O => mret (0, u)
  | S fuel =>
      if bs <? off + DIRENT_SIZE then mret (0, u) else
      if de_rec_len buf off =? 0 then mret (0, u) else
      '(r, u) ← (if negb (de_inode buf off =? 0) && (0 <? de_name_len buf off) then
                   d ← make_dirent buf off; cb d u
                 else mret (0, u));
      if negb (r =? 0) then mret (1, u)
      else readdir_loop cb fuel bs buf (off + de_rec_len buf off) u
  end.

(** [readdir_block]: the context is the user's and the [stopped] flag. *)
Definition readdir_block {U} (cb : vfs_dirent -> U -> state E (Z * U)) (blk_no : Z)
    (c : U * bool) : state E (Z * (U * bool)) :=
  if blk_no =? 0 then mret (0, c) else
  fs ← ext2_get_fs;
  r ← read_block_copy blk_no;
  match r with
  | None => mret (-1, c)
  | Some buf =>
      '(r, u) ← readdir_loop cb (S (Z.to_nat (fs_block_size fs))) (fs_block_size fs) buf 0 c.1;
      mret (r, (u, if r =? 0 then c.2 else true))
  end.

Definition ext2_readdir_ino {U} (dir_ino : Z) (cb : vfs_dirent -> U -> state E (Z * U)) (u : U)
    : state E (Z * U) :=
  i ← ext2_read_inode dir_ino;
  match i with
  | None => mret (-1, u)
  | Some inode =>
      if negb (inode_is EXT2_S_IFDIR inode) then mret (-1, u) else
      '(_, (u, stopped)) ← ext2_iter_blocks (readdir_block cb) inode (i_size inode) (u, false);
      mret (if (stopped : bool) then 1 else 0, u)
  end.

(** ** Modification *)

(** [dir.i_mtime = dir.i_ctime = time_now(); return ext2_write_inode(dir_ino, &dir)]. *)
Definition touch_dir (dir_ino : Z) (dir : ext2_inode) : state E Z :=
  now ← lift_w time_now;
  ext2_write_inode dir_ino (set_i_mtime now (set_i_ctime now dir)).

(** The loop over the blocks of a directory that the modifying operations
    share: [edit] gives the new contents of the block it applies to, [done]
    what is returned after writing it; [None] means no block was edited. *)
Fixpoint edit_dir_blocks (n : nat) (b : Z) (dir : ext2_inode) (edit : list Z -> option (list Z))
    (done : state E Z) : state E (option Z) :=
  match n with
  | O => mret None
  | S n =>
      blk_no ← inode_block_at dir b;
      if blk_no =? 0 then edit_dir_blocks n (b + 1) dir edit done else
      r ← read_block_copy blk_no;
      match r with
      | None => mret (Some (-1))
      | Some buf =>
          match edit buf with
          | None => edit_dir_blocks n (b + 1) dir edit done
          | Some buf =>
              rc ← ext2_write_block blk_no buf;
              if negb (rc =? 0) then mret (Some (-1)) else
              rc ← done;
              mret (Some rc)
          end
      end
  end.

(** [ext2_dir_insert]. *)
Definition ext2_dir_insert (dir_ino : Z) (name : list Z) (ino file_type : Z) : state E Z :=
  fs ← ext2_get_fs;
  i ← ext2_read_inode dir_ino;
  match i with
  | None => mret (-1)
  | Some dir =>
      if negb (inode_is EXT2_S_IFDIR dir) then mret (-1) else
      let name_len := Z.of_nat (length name) in
      if (name_len =? 0) || (255 <? name_len) then mret (-1) else
      let bs := fs_block_size fs in
      let nblocks := i_size dir / bs in
      r ← edit_dir_blocks (Z.to_nat nblocks) 0 dir
            (fun buf => insert_in_block bs buf name ino file_type) (touch_dir dir_ino dir);
      match r with
      | Some rc => mret rc
      | None =>
          new_blk ← ext2_alloc_block;
          match new_blk with
          | None => mret (-1)
          | Some new_blk =>
              '(rc, dir) ← ext2_inode_add_block dir nblocks new_blk;
              if negb (rc =? 0) then mret (-1) else
              rc ← ext2_write_block new_blk (fresh_dir_block bs name ino file_type);
              if negb (rc =? 0) then mret (-1) else
              touch_dir dir_ino (set_i_size (u32 (i_size dir + bs)) dir)
          end
      end
  end.

(** [ext2_dir_remove]. *)
Definition ext2_dir_remove (dir_ino : Z) (name : list Z) : state E Z :=
  fs ← ext2_get_fs;
  i ← ext2_read_inode dir_ino;
  match i with
  | None => mret (-1)
  | Some dir =>
      let bs := fs_block_size fs in
      r ← edit_dir_blocks (Z.to_nat (i_size dir / bs)) 0 dir
            (fun buf => remove_in_block bs buf name) (touch_dir dir_ino dir);
      mret (default (-1) r)
  end.

(** [ext2_dir_is_empty]: reads through the cache pointer. *)
Fixpoint blocks_empty (n : nat) (b : Z) (dir : ext2_inode) : state E bool :=
  match n with
  | O => mret true
  | S n =>
      blk_no ← inode_block_at dir b;
      if blk_no =? 0 then blocks_empty n (b + 1) dir else
      fs ← ext2_get_fs;
      p ← ext2_read_block blk_no;
      s ← get;
      match p with
      | None => mret false
      | Some p => if has_real_entry (fs_block_size fs) (deref s p) then mret false
                  else blocks_empty n (b + 1) dir
      end
  end.
Definition ext2_dir_is_empty (dir_ino : Z) : state E bool :=
  fs ← ext2_get_fs;
  i ← ext2_read_inode dir_ino;
  match i with
  | None => mret false
  | Some dir => blocks_empty (Z.to_nat (i_size dir / fs_block_size fs)) 0 dir
  end.

(** [ext2_dir_set_parent]: returns the result of the block write. *)
Definition ext2_dir_set_parent (dir_ino new_parent_ino : Z) : state E Z :=
  fs ← ext2_get_fs;
  i ← ext2_read_inode dir_ino;
  match i with
  | None => mret (-1)
  | Some dir =>
      r ← edit_dir_blocks (Z.to_nat (i_size dir / fs_block_size fs)) 0 dir
            (fun buf => set_parent_in_block (fs_block_size fs) buf new_parent_ino) (mret 0);
      mret (default (-1) r)
  end.
End Dir.
