(* ===== verification/Ext2Dents.v ===== *)
(** * Directory blocks as finite maps

    A well-formed directory block is a sequence of entries ([dir_block]); its
    live entries form a finite map from names to inode numbers and types.  The
    scans of fs/ext2/dir.c (modelled in Ext2Dir.v) on one block refine that
    map: lookup, insertion and removal are map lookup, insert and delete, keep
    the block well-formed, and insertion fails only when no entry has room. *)

From S2P Require Import Prelude Machine VfsTypes Ext2Layout Ext2Block Ext2File Ext2Dir.

(** ** Entries as a list *)

(** An entry with the [rec_len - 8] bytes that follow its header. *)
Record dent := Dent { en_ino : Z; en_nlen : Z; en_ft : Z; en_body : list Z }.

Definition en_rec (e : dent) : Z := DIRENT_SIZE + Z.of_nat (length (en_body e)).
Definition en_name (e : dent) : list Z := take (Z.to_nat (en_nlen e)) (en_body e).
Definition en_live (e : dent) : bool := negb (en_ino e =? 0).
(** Bytes an entry needs for a name of [n] bytes. *)
Definition room (n : Z) : Z := align4 (DIRENT_SIZE + n).
(** What insertion can take from an entry. *)
Definition en_slack (e : dent) : Z :=
  if en_live e then en_rec e - room (en_nlen e) else en_rec e.

Definition dent_bytes (e : dent) : list Z :=
  le_bytes 4 (en_ino e) ++ le_bytes 2 (en_rec e) ++ [en_nlen e; en_ft e] ++ en_body e.
Definition dents_bytes (l : list dent) : list Z := l ≫= dent_bytes.
Definition dents_size (l : list dent) : Z := Z.of_nat (length (dents_bytes l)).

Record dent_ok (e : dent) : Prop := {
  do_ino : is_u32 (en_ino e);
  do_nlen : is_u8 (en_nlen e);
  do_ft : is_u8 (en_ft e);
  do_body : bytes_ok (en_body e);
  do_rec : en_rec e < 65536 /\ en_rec e mod 4 = 0;
  do_fits : en_live e = true -> room (en_nlen e) <= en_rec e;
}.

(** A well-formed directory block and the live entries it holds, in order. *)
Definition dir_block (bs : Z) (l : list dent) (buf : list Z) : Prop :=
  Forall dent_ok l /\ buf = dents_bytes l /\ dents_size l = bs.
Definition live (l : list dent) : list (list Z * (Z * Z)) :=
  omap (fun e => if en_live e then Some (en_name e, (en_ino e, en_ft e)) else None) l.

(** ** Reading an entry *)

Lemma length_dent_bytes e : length (dent_bytes e) = Z.to_nat (en_rec e).
Proof.
  unfold dent_bytes, en_rec, DIRENT_SIZE.
  rewrite !length_app, !length_le_bytes. simpl. lia.
Qed.

Lemma dents_bytes_app l1 l2 : dents_bytes (l1 ++ l2) = dents_bytes l1 ++ dents_bytes l2.
Proof. unfold dents_bytes. apply bind_app. Qed.

Lemma dents_bytes_cons e l : dents_bytes (e :: l) = dent_bytes e ++ dents_bytes l.
Proof. done. Qed.

Lemma dents_size_app l1 l2 : dents_size (l1 ++ l2) = dents_size l1 + dents_size l2.
Proof. unfold dents_size. rewrite dents_bytes_app, length_app. lia. Qed.

Lemma en_rec_pos e : 8 <= en_rec e.
Proof. unfold en_rec, DIRENT_SIZE. lia. Qed.

Lemma dents_size_cons e l : dents_size (e :: l) = en_rec e + dents_size l.
Proof.
  unfold dents_size. rewrite dents_bytes_cons, length_app, length_dent_bytes.
  pose proof (en_rec_pos e). lia.
Qed.

Lemma dents_size_nonneg l : 0 <= dents_size l.
Proof. unfold dents_size. lia. Qed.

(** Reading entry [e] of a buffer that starts with a directory block; the
    cache's slots are larger than a block, hence [tail]. *)
Section Read.
Context (tail : list Z) (l1 : list dent) (e : dent) (l2 : list dent) (Hok : dent_ok e).
Local Abbreviation buf := (dents_bytes (l1 ++ e :: l2) ++ tail).
Local Abbreviation off := (dents_size l1).

Lemma dents_split_tail : buf = dents_bytes l1 ++ dent_bytes e ++ dents_bytes l2 ++ tail.
Proof. by rewrite dents_bytes_app, dents_bytes_cons, <- !(assoc_L (++)). Qed.

Lemma read_sub o n :
  0 <= o -> 0 <= n -> o + n <= en_rec e -> sub buf (off + o) n = sub (dent_bytes e) o n.
Proof.
  intros. rewrite dents_split_tail. apply sub_app_mid; [done..|]. rewrite length_dent_bytes. lia.
Qed.

Lemma read_inode_tail : de_inode buf off = en_ino e.
Proof.
  unfold de_inode, get_le. replace off with (off + 0) by lia.
  rewrite read_sub by (pose proof (en_rec_pos e); lia).
  unfold sub, dent_bytes. rewrite drop_0, take_app_length' by (by rewrite length_le_bytes).
  rewrite le_val_le_bytes. apply Z.mod_small, Hok.
Qed.

Lemma read_rec_tail : de_rec_len buf off = en_rec e.
Proof.
  pose proof (en_rec_pos e). unfold de_rec_len, get_le. rewrite read_sub by lia.
  unfold sub, dent_bytes. rewrite drop_app_length' by (by rewrite length_le_bytes).
  rewrite take_app_length' by (by rewrite length_le_bytes).
  rewrite le_val_le_bytes. apply Z.mod_small. pose proof (do_rec _ Hok). simpl. lia.
Qed.

Lemma read_byte o : 0 <= o < en_rec e -> byte_at buf (off + o) = byte_at (dent_bytes e) o.
Proof. intros. rewrite dents_split_tail. apply byte_app_mid. rewrite length_dent_bytes. lia. Qed.

Lemma read_nlen_tail : de_name_len buf off = en_nlen e.
Proof.
  pose proof (en_rec_pos e). unfold de_name_len. rewrite read_byte by lia.
  unfold byte_at, dent_bytes. rewrite lookup_app_r by (rewrite length_le_bytes; simpl; lia).
  rewrite lookup_app_r by (rewrite !length_le_bytes; simpl; lia). by rewrite !length_le_bytes.
Qed.

Lemma dent_bytes_body o n :
  0 <= o -> 0 <= n -> sub (dent_bytes e) (8 + o) n = sub (en_body e) o n.
Proof.
  intros Ho Hn. unfold sub, dent_bytes. rewrite !drop_app, !length_le_bytes.
  rewrite (drop_ge (le_bytes 4 _)), (drop_ge (le_bytes 2 _)), (drop_ge [_; _])
    by (rewrite ?length_le_bytes; simpl; lia).
  simpl. do 2 f_equal. lia.
Qed.

Lemma read_name n :
  0 <= n -> DIRENT_SIZE + n <= en_rec e -> sub buf (off + DIRENT_SIZE) n = take (Z.to_nat n) (en_body e).
Proof.
  intros Hn Hl. unfold DIRENT_SIZE in *. rewrite read_sub by lia.
  replace 8 with (8 + 0) by lia. rewrite dent_bytes_body by lia. done.
Qed.
End Read.

Section ReadBlock.
Context (l1 : list dent) (e : dent) (l2 : list dent) (Hok : dent_ok e).
Local Abbreviation buf := (dents_bytes (l1 ++ e :: l2)).
Local Abbreviation off := (dents_size l1).

Lemma dents_split : buf = dents_bytes l1 ++ dent_bytes e ++ dents_bytes l2.
Proof. by rewrite dents_bytes_app, dents_bytes_cons. Qed.

Lemma read_inode : de_inode buf off = en_ino e.
Proof. rewrite <- (app_nil_r buf). by apply read_inode_tail. Qed.

Lemma read_rec : de_rec_len buf off = en_rec e.
Proof. rewrite <- (app_nil_r buf). by apply read_rec_tail. Qed.

Lemma read_nlen : de_name_len buf off = en_nlen e.
Proof. rewrite <- (app_nil_r buf). by apply read_nlen_tail. Qed.
End ReadBlock.

(** ** Scanning *)

(** The offset of the last entry of a prefix. *)
Definition prev_off (l : list dent) : option Z :=
  match rev l with [] => None | e :: _ => Some (dents_size l - en_rec e) end.

Lemma prev_off_snoc l e : prev_off (l ++ [e]) = Some (dents_size l).
Proof.
  unfold prev_off. rewrite rev_unit. f_equal.
  rewrite dents_size_app, dents_size_cons. change (dents_size []) with 0. lia.
Qed.

Fixpoint scan_list {A} (l1 l2 : list dent) (f : Z -> option Z -> option A) : option A :=
  match l2 with
  | [] => None
  | e :: l2 => match f (dents_size l1) (prev_off l1) with
               | Some a => Some a
               | None => scan_list (l1 ++ [e]) l2 f
               end
  end.

Lemma dir_scan_list {A} (f : Z -> option Z -> option A) tail fuel l1 l2 :
  Forall dent_ok l2 -> (length l2 < fuel)%nat ->
  dir_scan fuel (dents_size (l1 ++ l2)) (dents_bytes (l1 ++ l2) ++ tail) (dents_size l1) (prev_off l1) f
    = scan_list l1 l2 f.
Proof.
  revert fuel l1. induction l2 as [|e l2 IH]; intros [|fuel] l1 Hok Hf; simpl in Hf; try lia;
    cbn [dir_scan scan_list].
  - rewrite app_nil_r. unfold DIRENT_SIZE. by case (Z.ltb_spec (dents_size l1) (dents_size l1 + 8)); [|lia].
  - apply Forall_cons in Hok as [Hoe Hok].
    pose proof (en_rec_pos e). pose proof (dents_size_nonneg l2).
    rewrite read_rec_tail by done.
    rewrite dents_size_app, dents_size_cons. unfold DIRENT_SIZE at 1.
    case Z.ltb_spec; [lia|intros _]. case Z.eqb_spec; [lia|intros _].
    destruct (f _ _); [done|].
    specialize (IH fuel (l1 ++ [e]) Hok ltac:(lia)).
    rewrite <- (assoc_L (++)), prev_off_snoc in IH. simpl in IH.
    rewrite <- IH. rewrite !dents_size_app, !dents_size_cons.
    replace (dents_size []) with 0 by done. f_equal; f_equal; lia.
Qed.

Lemma dents_count l : 8 * Z.of_nat (length l) <= dents_size l.
Proof.
  induction l as [|e l IH]; [by cbn|]. rewrite dents_size_cons. pose proof (en_rec_pos e).
  cbn [length]. lia.
Qed.

(** The block size is enough fuel. *)
Lemma scan_block_tail {A} (f : Z -> option Z -> option A) bs l buf tail :
  dir_block bs l buf -> scan_block bs (buf ++ tail) f = scan_list [] l f.
Proof.
  intros (Hok & -> & Hs). unfold scan_block. rewrite <- Hs.
  apply (dir_scan_list f tail _ [] l); [done|]. pose proof (dents_count l). lia.
Qed.

Lemma scan_block_list {A} (f : Z -> option Z -> option A) bs l buf :
  dir_block bs l buf -> scan_block bs buf f = scan_list [] l f.
Proof. intros HB. rewrite <- (app_nil_r buf). by apply scan_block_tail. Qed.

Lemma scan_list_Some {A} (f : Z -> option Z -> option A) l1 l2 a :
  scan_list l1 l2 f = Some a ->
  exists m1 e m2, l2 = m1 ++ e :: m2 /\
    f (dents_size (l1 ++ m1)) (prev_off (l1 ++ m1)) = Some a /\
    (forall n1 e' n2, m1 = n1 ++ e' :: n2 ->
       f (dents_size (l1 ++ n1)) (prev_off (l1 ++ n1)) = None).
Proof.
  revert l1. induction l2 as [|e l2 IH]; intros l1; cbn [scan_list]; [done|].
  destruct (f _ _) as [b|] eqn:Ef.
  - intros [= ->]. exists [], e, l2. rewrite app_nil_r. split_and!; [done..|].
    by intros [|??].
  - intros (m1 & e' & m2 & -> & Hf & Hn)%IH. exists (e :: m1), e', m2.
    rewrite <- (assoc_L (++)) in Hf. split_and!; [done..|].
    intros [|e1 n1] e2 n2 [= <- Heq]; [by rewrite app_nil_r|].
    specialize (Hn _ _ _ Heq). by rewrite <- (assoc_L (++)) in Hn.
Qed.

Lemma scan_list_None {A} (f : Z -> option Z -> option A) l1 l2 m1 e m2 :
  scan_list l1 l2 f = None -> l2 = m1 ++ e :: m2 ->
  f (dents_size (l1 ++ m1)) (prev_off (l1 ++ m1)) = None.
Proof.
  revert l1 m1. induction l2 as [|e' l2 IH]; intros l1 m1; cbn [scan_list]; [by destruct m1|].
  destruct (f _ _) as [b|] eqn:Ef; [done|]. intros Hn. destruct m1 as [|e1 m1]; intros [= <- Heq].
  - by rewrite app_nil_r.
  - specialize (IH _ _ Hn Heq). by rewrite <- (assoc_L (++)) in IH.
Qed.

(** ** Names *)

Lemma room_spec n : 0 <= n -> n < 65536 -> 8 + n <= room n < 12 + n /\ room n mod 4 = 0.
Proof.
  intros Hn Hl. unfold room, align4, DIRENT_SIZE.
  pose proof (ALIGN_UP_spec (8 + n) 2 ltac:(lia) ltac:(lia) ltac:(lia)) as E.
  change (2 ^ 2) with 4 in E. rewrite E.
  pose proof (Z.div_mod (8 + n + (4 - 1)) 4).
  pose proof (Z.mod_pos_bound (8 + n + (4 - 1)) 4). rewrite Z.mod_mul by lia. lia.
Qed.

Lemma en_name_length e : dent_ok e -> en_live e = true -> Z.of_nat (length (en_name e)) = en_nlen e.
Proof.
  intros [_ Hn _ _ _ Hf] Hl. specialize (Hf Hl). unfold is_u8 in Hn.
  destruct (room_spec (en_nlen e)); [lia..|]. unfold en_rec, DIRENT_SIZE in Hf.
  unfold en_name. rewrite length_take. lia.
Qed.

Lemma matches_at_tail tail l1 e l2 name :
  dent_ok e -> Z.of_nat (length name) <= 255 ->
  de_matches (dents_bytes (l1 ++ e :: l2) ++ tail) name (dents_size l1)
    = en_live e && bool_decide (en_name e = name).
Proof.
  intros Hok Hn. unfold de_matches. rewrite read_inode_tail, read_nlen_tail by done.
  unfold u8. rewrite Z.mod_small by lia. fold (en_live e).
  destruct (en_live e) eqn:Hl; [|done]. simpl.
  pose proof (en_name_length _ Hok Hl) as Hlen.
  case Z.eqb_spec; intros Hnl; simpl.
  - rewrite <- Hnl. destruct Hok as [_ Hu _ _ _ Hf]. specialize (Hf Hl). unfold is_u8 in Hu.
    destruct (room_spec (en_nlen e)); [lia..|]. unfold DIRENT_SIZE in *.
    rewrite read_name by (unfold DIRENT_SIZE; lia). done.
  - symmetry. apply bool_decide_eq_false_2. intros <-. lia.
Qed.

Lemma matches_at l1 e l2 name :
  dent_ok e -> Z.of_nat (length name) <= 255 ->
  de_matches (dents_bytes (l1 ++ e :: l2)) name (dents_size l1)
    = en_live e && bool_decide (en_name e = name).
Proof. rewrite <- (app_nil_r (dents_bytes _)). apply matches_at_tail. Qed.

(** ** Live entries as a finite map *)

Definition dir_names (l : list dent) : list (list Z) := (live l).*1.
Definition dir_map (l : list dent) : gmap (list Z) (Z * Z) := list_to_map (live l).

Lemma live_app l1 l2 : live (l1 ++ l2) = live l1 ++ live l2.
Proof. unfold live. apply omap_app. Qed.

Lemma live_cons e l :
  live (e :: l) = if en_live e then (en_name e, (en_ino e, en_ft e)) :: live l else live l.
Proof. unfold live. simpl. by destruct (en_live e). Qed.

Lemma dir_map_app l1 l2 : dir_map (l1 ++ l2) = dir_map l1 ∪ dir_map l2.
Proof. unfold dir_map. by rewrite live_app, list_to_map_app. Qed.

Lemma dir_map_cons e l : en_live e = true ->
  dir_map (e :: l) = <[en_name e := (en_ino e, en_ft e)]> (dir_map l).
Proof. intros Hl. unfold dir_map. rewrite live_cons, Hl. done. Qed.

Lemma dir_map_dead e l : en_live e = false -> dir_map (e :: l) = dir_map l.
Proof. intros Hl. unfold dir_map. by rewrite live_cons, Hl. Qed.

Lemma dir_map_None l name : name ∉ dir_names l -> dir_map l !! name = None.
Proof. apply not_elem_of_list_to_map_1. Qed.

Lemma not_in_names l name :
  (forall n1 e n2, l = n1 ++ e :: n2 -> en_live e && bool_decide (en_name e = name) = false) ->
  name ∉ dir_names l.
Proof.
  intros Hn. unfold dir_names. induction l as [|e l IH]; [apply not_elem_of_nil|].
  pose proof (Hn [] e l eq_refl) as He.
  assert (name ∉ (live l).*1).
  { apply IH. intros n1 e' n2 ->. apply (Hn (e :: n1) e' n2 eq_refl). }
  rewrite live_cons. destruct (en_live e); [|done]. simpl in *. apply bool_decide_eq_false_1 in He.
  intros [->|?]%elem_of_cons; done.
Qed.

(** ** Lookup *)

Lemma find_entry_lookup bs l buf tail name :
  dir_block bs l buf -> Z.of_nat (length name) <= 255 ->
  find_entry bs (buf ++ tail) name = fst <$> dir_map l !! name.
Proof.
  intros HB Hn. unfold find_entry. rewrite (scan_block_tail _ _ _ _ _ HB).
  destruct HB as (Hok & -> & _).
  destruct (scan_list _ _ _) as [a|] eqn:Es.
  - apply scan_list_Some in Es as (m1 & e & m2 & -> & Hf & Hnone). cbn [app] in *.
    apply Forall_app in Hok as [Hok1 [Hoe Hok2]%Forall_cons].
    rewrite matches_at_tail, read_inode_tail in Hf by done.
    destruct (en_live e) eqn:Hl; [|done]. cbn [andb] in Hf.
    case_bool_decide as Hnm; [|done]. injection Hf as <-.
    rewrite dir_map_app, lookup_union_r, dir_map_cons, <- Hnm, lookup_insert_eq; [done|done|].
    apply dir_map_None, not_in_names. intros n1 e' n2 ->.
    apply Forall_app in Hok1 as [_ [Hoe' _]%Forall_cons].
    specialize (Hnone _ _ _ eq_refl). rewrite <- (assoc_L (++)) in Hnone. simpl in Hnone.
    rewrite matches_at_tail in Hnone by done. rewrite <- Hnm in Hnone |- *. by destruct (en_live e' && _).
  - rewrite dir_map_None; [done|]. apply not_in_names. intros n1 e n2 ->.
    apply Forall_app in Hok as [_ [Hoe _]%Forall_cons].
    pose proof (scan_list_None _ _ _ _ _ _ Es eq_refl) as Hf. cbn [app] in Hf.
    rewrite matches_at_tail in Hf by done. by destruct (en_live e && _).
Qed.

(** ** Stores into an entry *)

Lemma put_dirent_at a h4 h2 x y b c ino r ft name :
  length h4 = 4%nat -> length h2 = 2%nat -> (length name <= length b)%nat ->
  put_dirent (a ++ h4 ++ h2 ++ [x; y] ++ b ++ c) (Z.of_nat (length a)) ino r ft name =
  a ++ le_bytes 4 ino ++ (match r with Some r => le_bytes 2 (u16 r) | None => h2 end)
    ++ [u8 (Z.of_nat (length name)); ft] ++ put b 0 name ++ c.
Proof.
  intros H4 H2 Hn. unfold put_dirent. cbv zeta.
  assert (put_le 4 (a ++ h4 ++ h2 ++ [x; y] ++ b ++ c) (Z.of_nat (length a)) ino
            = a ++ le_bytes 4 ino ++ h2 ++ [x; y] ++ b ++ c) as ->
    by (apply put_at; rewrite ?length_le_bytes; lia).
  set (k4 := le_bytes 4 ino). assert (length k4 = 4%nat) as Hk4 by apply length_le_bytes.
  set (k2 := match r with Some r => le_bytes 2 (u16 r) | None => h2 end).
  assert (length k2 = 2%nat) as Hk2 by (destruct r; [apply length_le_bytes|done]).
  assert ((match r with
           | Some r => put_le 2 (a ++ k4 ++ h2 ++ [x; y] ++ b ++ c) (Z.of_nat (length a) + 4) (u16 r)
           | None => a ++ k4 ++ h2 ++ [x; y] ++ b ++ c
           end) = (a ++ k4 ++ k2) ++ [x] ++ [y] ++ b ++ c) as ->.
  { rewrite <- !(assoc_L (++)). destruct r; [|done]. unfold put_le.
    rewrite (assoc_L (++) a), put_at by (rewrite ?length_le_bytes, ?length_app; lia).
    by rewrite <- !(assoc_L (++)). }
  rewrite put_at; [|done|rewrite !length_app; lia].
  rewrite (assoc_L (++) (a ++ k4 ++ k2)), put_at; [|done|rewrite !length_app; simpl; lia].
  rewrite (assoc_L (++) ((a ++ k4 ++ k2) ++ _) [ft]). unfold DIRENT_SIZE.
  replace (Z.of_nat (length a) + 8)
    with (Z.of_nat (length (((a ++ k4 ++ k2) ++ [u8 (Z.of_nat (length name))]) ++ [ft])) + 0)
    by (rewrite !length_app; simpl; lia).
  rewrite put_app_mid by lia. by rewrite <- !(assoc_L (++)).
Qed.

Lemma dents_bytes_mid l1 m l2 :
  dents_bytes (l1 ++ m ++ l2) = dents_bytes l1 ++ dents_bytes m ++ dents_bytes l2.
Proof. by rewrite !dents_bytes_app. Qed.

(** Replacing entries by others of the same total size. *)
Lemma dir_block_replace bs l1 m m' l2 buf buf' :
  dir_block bs (l1 ++ m ++ l2) buf -> Forall dent_ok m' -> dents_size m' = dents_size m ->
  buf' = dents_bytes l1 ++ dents_bytes m' ++ dents_bytes l2 -> dir_block bs (l1 ++ m' ++ l2) buf'.
Proof.
  intros (Hok & _ & Hs) Hm Hsz ->.
  apply Forall_app in Hok as [H1 [_ H2]%Forall_app]. split_and!.
  - repeat apply Forall_app_2; done.
  - by rewrite dents_bytes_mid.
  - rewrite !dents_size_app in *. lia.
Qed.

(** ** Removal *)

(** Merging an entry into its predecessor. *)
Definition merge_dent (p e : dent) : dent :=
  Dent (en_ino p) (en_nlen p) (en_ft p) (en_body p ++ dent_bytes e).

Lemma dent_bytes_ok e : dent_ok e -> bytes_ok (dent_bytes e).
Proof.
  intros [? ? ? ?]. unfold dent_bytes, bytes_ok.
  do 2 (apply Forall_app_2; [apply le_bytes_ok|]). by do 2 (apply Forall_cons_2; [done|]).
Qed.

Lemma merge_dent_rec p e : en_rec (merge_dent p e) = en_rec p + en_rec e.
Proof.
  pose proof (en_rec_pos e).
  unfold en_rec at 1, merge_dent. cbn [en_body]. rewrite length_app, length_dent_bytes.
  unfold en_rec at 2. lia.
Qed.

Lemma merge_dent_ok p e :
  dent_ok p -> dent_ok e -> en_rec p + en_rec e < 65536 -> dent_ok (merge_dent p e).
Proof.
  intros Hp He Hr. pose proof (do_rec _ Hp) as [_ Mp]. pose proof (do_rec _ He) as [_ Me].
  split; try apply Hp.
  - apply Forall_app_2; [apply Hp|by apply dent_bytes_ok].
  - rewrite merge_dent_rec. split; [done|]. rewrite Z.add_mod, Mp, Me by lia. done.
  - intros Hl. rewrite merge_dent_rec. pose proof (do_fits _ Hp Hl). pose proof (en_rec_pos e).
    change (en_nlen (merge_dent p e)) with (en_nlen p). lia.
Qed.

Lemma merge_dent_live p e :
  dent_ok p -> live [merge_dent p e] = live [p].
Proof.
  intros Hp. rewrite !live_cons. change (en_live (merge_dent p e)) with (en_live p).
  destruct (en_live p) eqn:Hl; [|done]. do 2 f_equal. unfold en_name. cbn [merge_dent en_nlen en_body].
  pose proof (do_fits _ Hp Hl) as Hf. pose proof (do_nlen _ Hp) as Hu. unfold is_u8 in Hu.
  destruct (room_spec (en_nlen p)); [lia..|]. unfold en_rec, DIRENT_SIZE in Hf.
  rewrite take_app_le by lia. done.
Qed.

Lemma merge_dent_bytes p e b :
  dent_ok p -> en_rec p + en_rec e < 65536 -> forall a,
  put_le 2 (a ++ dent_bytes p ++ dent_bytes e ++ b) (Z.of_nat (length a) + 4)
    (u16 (en_rec p + en_rec e)) = a ++ dent_bytes (merge_dent p e) ++ b.
Proof.
  intros Hp Hr a. unfold dent_bytes at 1 3. rewrite merge_dent_rec. unfold merge_dent. cbn [en_ino en_nlen en_ft en_body].
  pose proof (en_rec_pos p). pose proof (en_rec_pos e).
  unfold u16. rewrite Z.mod_small by lia. unfold put_le.
  rewrite <- !(assoc_L (++)). rewrite (assoc_L (++) a).
  rewrite put_at by (rewrite ?length_app, ?length_le_bytes; lia).
  by rewrite <- !(assoc_L (++)).
Qed.

(** The first entry of a block is only marked unused. *)
Definition clear_dent (e : dent) : dent := Dent 0 (en_nlen e) (en_ft e) (en_body e).

Lemma clear_dent_ok e : dent_ok e -> dent_ok (clear_dent e).
Proof. intros [? ? ? ? ?]. split; try done. Qed.

Lemma clear_dent_bytes a e b :
  put_le 4 (a ++ dent_bytes e ++ b) (Z.of_nat (length a)) 0 = a ++ dent_bytes (clear_dent e) ++ b.
Proof.
  unfold dent_bytes, put_le. rewrite <- !(assoc_L (++)).
  by rewrite put_at by (by rewrite ?length_le_bytes).
Qed.

Lemma remove_in_block_live bs l buf name :
  dir_block bs l buf -> bs < 65536 -> Z.of_nat (length name) <= 255 ->
  match remove_in_block bs buf name with
  | Some buf' => exists l1 e l2 l', l = l1 ++ e :: l2 /\ en_live e = true /\ en_name e = name /\
      dir_block bs l' buf' /\ live l' = live l1 ++ live l2
  | None => name ∉ dir_names l
  end.
Proof.
  intros HB Hbs Hn. unfold remove_in_block. rewrite (scan_block_list _ _ _ _ HB).
  pose proof HB as (Hok & -> & Hs).
  destruct (scan_list _ _ _) as [buf'|] eqn:Es.
  - apply scan_list_Some in Es as (m1 & e & m2 & -> & Hf & _). cbn [app] in *.
    apply Forall_app in Hok as [Hok1 [Hoe Hok2]%Forall_cons].
    rewrite matches_at in Hf by done. destruct (en_live e) eqn:Hl; [|done]. cbn [andb] in Hf.
    case_bool_decide as Hnm; [|done].
    exists m1, e, m2. destruct m1 as [|p m0 _] using rev_ind.
    + exists ([] ++ [clear_dent e] ++ m2). split_and!; try done.
      eapply (dir_block_replace bs [] [e]); [done|by repeat constructor; apply clear_dent_ok|done|].
      injection Hf as <-. unfold dents_bytes. simpl. rewrite app_nil_r.
      apply (clear_dent_bytes []).
    + apply Forall_app in Hok1 as [_ [Hop _]%Forall_cons].
      rewrite prev_off_snoc in Hf. rewrite <- (assoc_L (++)) in Hs, HB, Hf |- *. simpl in Hf.
      rewrite read_rec in Hf by done. rewrite dents_size_app in Hs. simpl in Hs.
      rewrite !dents_size_cons in Hs. pose proof (dents_size_nonneg m0). pose proof (dents_size_nonneg m2).
      assert (en_rec p + en_rec e < 65536) as Hr by lia.
      exists (m0 ++ [merge_dent p e] ++ m2). split_and!; try done.
      * eapply (dir_block_replace bs m0 [p; e]); [done| | |].
        -- constructor; [by apply merge_dent_ok|constructor].
        -- rewrite !dents_size_cons, merge_dent_rec. change (dents_size []) with 0. lia.
        -- injection Hf as <-.
           rewrite (dents_bytes_mid m0 [p; e] m2) at 1.
           replace (de_rec_len (dents_bytes (m0 ++ p :: e :: m2)) (dents_size (m0 ++ [p]))) with (en_rec e).
           2:{ symmetry. change (m0 ++ p :: e :: m2) with (m0 ++ [p] ++ e :: m2).
               rewrite (assoc_L (++)). by apply read_rec. }
           unfold dents_size, dents_bytes. simpl. rewrite !app_nil_r, <- (assoc_L (++)).
           by apply merge_dent_bytes.
      * rewrite !live_app. rewrite merge_dent_live by done. by rewrite (assoc_L (++)).
  - apply not_in_names. intros n1 e n2 ->.
    apply Forall_app in Hok as [_ [Hoe _]%Forall_cons].
    pose proof (scan_list_None _ _ _ _ _ _ Es eq_refl) as Hf. cbn [app] in Hf.
    rewrite matches_at in Hf by done. by destruct (en_live e && _).
Qed.

(** ** Insertion *)

Section Insert.
Context (ino ft : Z) (name : list Z).
Context (Hino : is_u32 ino) (Hnz : ino <> 0) (Hft : is_u8 ft).
Context (Hname : bytes_ok name) (Hlen : Z.of_nat (length name) <= 255).

Local Abbreviation nlen := (Z.of_nat (length name)).

(** A slot of [body] bytes after its header, filled with the new entry. *)
Definition fill_dent (body : list Z) : dent := Dent ino nlen ft (put body 0 name).

Lemma fill_dent_ok body :
  bytes_ok body -> room nlen <= 8 + Z.of_nat (length body) < 65536 ->
  (8 + Z.of_nat (length body)) mod 4 = 0 -> dent_ok (fill_dent body).
Proof.
  intros Hb Hr Hm. split; cbn [en_ino en_nlen en_ft en_body fill_dent]; unfold is_u8; try done.
  - lia.
  - by apply put_ok.
  - unfold en_rec, DIRENT_SIZE. cbn [en_body fill_dent]. rewrite length_put. lia.
  - intros _. unfold en_rec, DIRENT_SIZE. cbn [en_body fill_dent]. rewrite length_put. lia.
Qed.

Lemma fill_dent_live body :
  room nlen <= 8 + Z.of_nat (length body) -> live [fill_dent body] = [(name, (ino, ft))].
Proof.
  intros Hr. destruct (room_spec nlen) as [[Hr1 _] _]; [lia..|].
  rewrite live_cons. unfold en_live. cbn [en_ino fill_dent].
  case Z.eqb_spec; [done|intros _]. simpl. do 2 f_equal.
  unfold en_name. cbn [en_nlen en_body fill_dent].
  assert (put body 0 name = name ++ drop (length name) body) as ->.
  { rewrite <- (take_drop (length name) body) at 1.
    apply (put_at [] _ _ name); [|done]. rewrite length_take. lia. }
  by rewrite take_app_length' by lia.
Qed.

(** Reusing an unused entry. *)
Lemma fill_dent_bytes a e b :
  dent_ok e -> room nlen <= en_rec e ->
  put_dirent (a ++ dent_bytes e ++ b) (Z.of_nat (length a)) ino None ft name
    = a ++ dent_bytes (fill_dent (en_body e)) ++ b.
Proof.
  intros He Hr. destruct (room_spec nlen) as [[Hr1 _] _]; [lia..|].
  unfold en_rec, DIRENT_SIZE in Hr.
  unfold dent_bytes at 1. rewrite <- !(assoc_L (++)).
  rewrite put_dirent_at by (rewrite ?length_le_bytes; lia). cbv iota.
  unfold dent_bytes, fill_dent, en_rec. cbn [en_ino en_nlen en_ft en_body].
  rewrite length_put, <- !(assoc_L (++)). unfold u8. by rewrite Z.mod_small by lia.
Qed.

(** Cutting the slack off a live entry. *)
Definition cut_dent (e : dent) : dent :=
  Dent (en_ino e) (en_nlen e) (en_ft e) (take (Z.to_nat (room (en_nlen e) - 8)) (en_body e)).
Definition cut_rest (e : dent) : list Z := drop (Z.to_nat (room (en_nlen e))) (en_body e).

Section Cut.
Context (e : dent) (He : dent_ok e) (Hl : en_live e = true) (Hr : room nlen <= en_slack e).

Lemma cut_sizes :
  8 + en_nlen e <= room (en_nlen e) /\ room (en_nlen e) mod 4 = 0 /\
  Z.of_nat (length (en_body e)) = en_rec e - 8 /\ 0 <= en_nlen e < 256 /\
  8 + nlen <= room nlen <= en_rec e - room (en_nlen e).
Proof.
  unfold en_slack in Hr. rewrite Hl in Hr. pose proof (do_nlen _ He) as Hu. unfold is_u8 in Hu.
  destruct (room_spec (en_nlen e)) as [? ?]; [lia..|].
  destruct (room_spec nlen) as [? _]; [lia..|].
  unfold en_rec, DIRENT_SIZE in *. lia.
Qed.

Lemma cut_dent_rec : en_rec (cut_dent e) = room (en_nlen e).
Proof.
  destruct cut_sizes as (? & _ & ? & ? & ?). unfold en_rec, DIRENT_SIZE. cbn [en_body cut_dent].
  rewrite length_take. lia.
Qed.

Lemma length_cut_rest : Z.of_nat (length (cut_rest e)) = en_rec e - room (en_nlen e) - 8.
Proof. destruct cut_sizes as (? & _ & ? & ? & ?). unfold cut_rest. rewrite length_drop. lia. Qed.

Lemma cut_dent_ok : dent_ok (cut_dent e).
Proof.
  pose proof (do_rec _ He) as [? _]. destruct cut_sizes as (? & ? & ? & ? & ?).
  split; try apply He.
  - apply Forall_take, He.
  - rewrite cut_dent_rec. lia.
  - intros _. rewrite cut_dent_rec. cbn [cut_dent en_nlen]. lia.
Qed.

Lemma cut_dent_live : live [cut_dent e] = live [e].
Proof.
  destruct cut_sizes as (? & ? & ? & ? & ?).
  rewrite !live_cons. change (en_live (cut_dent e)) with (en_live e). rewrite Hl.
  do 2 f_equal. unfold en_name. cbn [cut_dent en_nlen en_body].
  rewrite take_take. f_equal. lia.
Qed.

Lemma cut_dent_bytes a b :
  put_dirent (put_le 2 (a ++ dent_bytes e ++ b) (Z.of_nat (length a) + 4) (u16 (room (en_nlen e))))
    (Z.of_nat (length a) + room (en_nlen e)) ino (Some (en_rec e - room (en_nlen e))) ft name
  = a ++ dent_bytes (cut_dent e) ++ dent_bytes (fill_dent (cut_rest e)) ++ b.
Proof.
  pose proof (do_rec _ He) as [? _]. destruct cut_sizes as (? & ? & Hbl & ? & ?).
  pose proof length_cut_rest as Hcr. pose proof cut_dent_rec as Hcd.
  set (R := room (en_nlen e)) in *. unfold u16 at 1. rewrite Z.mod_small by lia.
  assert (put_le 2 (a ++ dent_bytes e ++ b) (Z.of_nat (length a) + 4) R =
    (a ++ dent_bytes (cut_dent e)) ++ drop (Z.to_nat (R - 8)) (en_body e) ++ b) as ->.
  { unfold dent_bytes. rewrite Hcd. cbn [cut_dent en_ino en_nlen en_ft en_body]. fold R.
    rewrite <- (take_drop (Z.to_nat (R - 8)) (en_body e)) at 1. unfold put_le.
    rewrite <- !(assoc_L (++)), (assoc_L (++) a), put_at
      by (rewrite ?length_app, ?length_le_bytes; lia).
    by rewrite <- !(assoc_L (++)). }
  assert (exists h4 h2 x y, length h4 = 4%nat /\ length h2 = 2%nat /\
    drop (Z.to_nat (R - 8)) (en_body e) = h4 ++ h2 ++ [x; y] ++ cut_rest e)
    as (h4 & h2 & x & y & Hh4 & Hh2 & ->).
  { set (w := drop (Z.to_nat (R - 8)) (en_body e)).
    assert (cut_rest e = drop 8 w) as ->.
    { unfold w, cut_rest. rewrite drop_drop. f_equal. lia. }
    assert (8 <= length w)%nat as Hw by (unfold w; rewrite length_drop; lia).
    clearbody w. destruct w as [|w0 [|w1 [|w2 [|w3 [|w4 [|w5 [|w6 [|w7 w]]]]]]]]; simpl in Hw; try lia.
    by exists [w0; w1; w2; w3], [w4; w5], w6, w7. }
  replace (Z.of_nat (length a) + R) with (Z.of_nat (length (a ++ dent_bytes (cut_dent e))))
    by (rewrite length_app, length_dent_bytes; lia).
  rewrite <- !(assoc_L (++)). rewrite (assoc_L (++) a).
  rewrite put_dirent_at by lia.
  rewrite <- !(assoc_L (++)). do 2 f_equal.
  unfold dent_bytes, fill_dent. cbn [en_ino en_nlen en_ft en_body].
  rewrite <- !(assoc_L (++)). do 2 f_equal.
  - f_equal. unfold en_rec at 2, DIRENT_SIZE. cbn [en_body]. rewrite length_put, Hcr.
    unfold u16. rewrite Z.mod_small; lia.
  - unfold u8. by rewrite Z.mod_small by lia.
Qed.
End Cut.

Lemma insert_at_entry l1 e l2 :
  dent_ok e ->
  insert_at (dents_bytes (l1 ++ e :: l2)) name ino ft (dents_size l1) =
    if room nlen <=? en_slack e then Some (dents_bytes (l1 ++
      (if en_live e then [cut_dent e; fill_dent (cut_rest e)] else [fill_dent (en_body e)]) ++ l2))
    else None.
Proof.
  intros Hoe. unfold insert_at. rewrite read_inode, read_rec, read_nlen by done.
  fold (room nlen) (room (en_nlen e)).
  pose proof (do_nlen _ Hoe) as Hu. unfold is_u8 in Hu. unfold en_slack.
  destruct (en_live e) eqn:Hl; unfold en_live in Hl;
    (destruct (en_ino e =? 0) eqn:Ez; [try done|try done]).
  - assert (en_live e = true) as Hl' by (unfold en_live; by rewrite Ez).
    pose proof (do_fits _ Hoe Hl'). pose proof (do_rec _ Hoe) as [? _].
    destruct (room_spec (en_nlen e)); [lia..|].
    rewrite u32_small by (unfold is_u32; lia).
    case Z.leb_spec; intros Hc; [|done]. f_equal.
    rewrite dents_split, dents_bytes_mid.
    unfold dents_size. rewrite cut_dent_bytes; [|done|done|by unfold en_slack; rewrite Hl'].
    unfold dents_bytes at 3. simpl. by rewrite app_nil_r, <- (assoc_L (++)).
  - case Z.leb_spec; intros Hc; [|done]. f_equal.
    rewrite dents_split, dents_bytes_mid. unfold dents_size. rewrite fill_dent_bytes by done.
    unfold dents_bytes at 3. simpl. by rewrite app_nil_r.
Qed.

(** The entries that replace [e] when it takes the new one in. *)
Lemma split_dent_ok e (m := if en_live e then [cut_dent e; fill_dent (cut_rest e)]
                            else [fill_dent (en_body e)]) :
  dent_ok e -> room nlen <= en_slack e ->
  Forall dent_ok m /\ dents_size m = dents_size [e] /\ live m = live [e] ++ [(name, (ino, ft))].
Proof.
  intros Hoe Hc. pose proof (do_rec _ Hoe) as [Hr1 Hr2]. subst m. unfold en_slack in Hc.
  destruct (en_live e) eqn:Hl.
  - assert (room nlen <= en_slack e) as Hc' by (unfold en_slack; by rewrite Hl).
    destruct (cut_sizes e Hoe Hl Hc') as (? & Hm & ? & ? & ?).
    pose proof (length_cut_rest e Hoe Hl Hc') as Hcr. split_and!.
    + constructor; [by apply cut_dent_ok|constructor; [|constructor]].
      apply fill_dent_ok; [apply Forall_drop, Hoe|lia|].
      rewrite Hcr. replace (8 + _) with (en_rec e - room (en_nlen e)) by lia.
      by rewrite Zminus_mod, Hr2, Hm.
    + rewrite !dents_size_cons, (cut_dent_rec e) by done. change (dents_size []) with 0.
      unfold en_rec at 1, DIRENT_SIZE. cbn [fill_dent en_body]. rewrite length_put. lia.
    + change (live ([cut_dent e] ++ [fill_dent (cut_rest e)]) = live [e] ++ [(name, (ino, ft))]).
      by rewrite live_app, cut_dent_live, fill_dent_live by (done || lia).
  - assert (8 + Z.of_nat (length (en_body e)) = en_rec e) as Hre by done. split_and!.
    + constructor; [|constructor]. apply fill_dent_ok; [apply Hoe|lia|by rewrite Hre].
    + rewrite !dents_size_cons. unfold en_rec at 1, DIRENT_SIZE. cbn [fill_dent en_body].
      rewrite length_put. lia.
    + rewrite fill_dent_live by lia. by rewrite live_cons, Hl.
Qed.

Lemma insert_in_block_live bs l buf :
  dir_block bs l buf ->
  match insert_in_block bs buf name ino ft with
  | Some buf' => exists l1 l2 l', live l = l1 ++ l2 /\ live l' = l1 ++ (name, (ino, ft)) :: l2 /\
      dir_block bs l' buf'
  | None => Forall (fun e => en_slack e < room nlen) l
  end.
Proof.
  intros HB. unfold insert_in_block. rewrite (scan_block_list _ _ _ _ HB).
  pose proof HB as (Hok & -> & Hs).
  destruct (scan_list _ _ _) as [buf'|] eqn:Es.
  - apply scan_list_Some in Es as (m1 & e & m2 & -> & Ef & _). cbn [app] in Ef.
    apply Forall_app in Hok as [_ [Hoe _]%Forall_cons].
    rewrite insert_at_entry in Ef by done. revert Ef. case Z.leb_spec; intros Hc; [|done].
    intros [= <-]. destruct (split_dent_ok e Hoe Hc) as (Hm1 & Hm2 & Hm3).
    set (m := if en_live e then _ else _) in *. exists (live m1 ++ live [e]), (live m2), (m1 ++ m ++ m2).
    split_and!.
    + by rewrite <- (assoc_L (++)), <- !live_app.
    + rewrite !live_app, Hm3, <- !(assoc_L (++)). done.
    + eapply (dir_block_replace bs m1 [e]); [done..|by rewrite dents_bytes_mid].
  - apply Forall_forall. intros e He. apply list_elem_of_split in He as (m1 & m2 & ->).
    pose proof (scan_list_None _ _ _ _ _ _ Es eq_refl) as Ef. cbn [app] in Ef.
    apply Forall_app in Hok as [_ [Hoe _]%Forall_cons].
    rewrite insert_at_entry in Ef by done. revert Ef. by case Z.leb_spec.
Qed.
End Insert.

(** ** The block as a finite map *)

Definition dir_block_map (bs : Z) (buf : list Z) (M : gmap (list Z) (Z * Z)) : Prop :=
  exists l, dir_block bs l buf /\ NoDup (dir_names l) /\ dir_map l = M.

Lemma dir_map_mid l l1 kv l2 :
  live l = l1 ++ kv :: l2 -> NoDup (dir_names l) ->
  (kv.1 ∉ l1.*1 ++ l2.*1) /\ NoDup (l1.*1 ++ l2.*1) /\
  dir_map l = <[kv.1 := kv.2]> (list_to_map (l1 ++ l2)).
Proof.
  unfold dir_names, dir_map. intros ->. destruct kv as [k x]. rewrite fmap_app. simpl.
  intros Hnd. assert (l1.*1 ++ k :: l2.*1 ≡ₚ k :: l1.*1 ++ l2.*1) as Hp by (symmetry; apply Permutation_middle).
  rewrite Hp in Hnd. apply NoDup_cons in Hnd as [Hk Hnd]. split_and!; [done|done|].
  rewrite <- list_to_map_cons. apply list_to_map_proper.
  - rewrite fmap_app. simpl. rewrite Hp. by apply NoDup_cons.
  - symmetry. apply Permutation_middle.
Qed.

Lemma find_entry_tail bs buf M tail name :
  dir_block_map bs buf M -> Z.of_nat (length name) <= 255 ->
  find_entry bs (buf ++ tail) name = fst <$> M !! name.
Proof. intros (l & HB & _ & <-). by apply find_entry_lookup. Qed.

Lemma find_entry_map bs buf M name :
  dir_block_map bs buf M -> Z.of_nat (length name) <= 255 ->
  find_entry bs buf name = fst <$> M !! name.
Proof. rewrite <- (app_nil_r buf) at 2. apply find_entry_tail. Qed.

Lemma remove_in_block_map bs buf M name :
  dir_block_map bs buf M -> bs < 65536 -> Z.of_nat (length name) <= 255 ->
  match remove_in_block bs buf name with
  | Some buf' => is_Some (M !! name) /\ dir_block_map bs buf' (delete name M)
  | None => M !! name = None
  end.
Proof.
  intros (l & HB & Hnd & <-) Hbs Hn.
  pose proof (remove_in_block_live _ _ _ _ HB Hbs Hn) as H.
  destruct (remove_in_block _ _ _) as [buf'|]; [|by apply dir_map_None].
  destruct H as (l1 & e & l2 & l' & -> & Hl & <- & HB' & Hlive).
  assert (live (l1 ++ e :: l2) = live l1 ++ (en_name e, (en_ino e, en_ft e)) :: live l2) as Hsp
    by (by rewrite live_app, live_cons, Hl).
  destruct (dir_map_mid _ _ _ _ Hsp Hnd) as (Hk & Hnd' & ->). cbn [fst snd] in *.
  rewrite <- fmap_app in Hk, Hnd'. split.
  - rewrite lookup_insert_eq. by eexists.
  - exists l'. unfold dir_names, dir_map. rewrite Hlive. split_and!; [done|done|].
    rewrite delete_insert_id; [done|]. by apply not_elem_of_list_to_map_1.
Qed.

Lemma insert_in_block_map bs buf M name ino ft :
  dir_block_map bs buf M -> M !! name = None ->
  is_u32 ino -> ino <> 0 -> is_u8 ft -> bytes_ok name -> Z.of_nat (length name) <= 255 ->
  match insert_in_block bs buf name ino ft with
  | Some buf' => dir_block_map bs buf' (<[name := (ino, ft)]> M)
  | None => exists l, dir_block bs l buf /\ Forall (fun e => en_slack e < room (Z.of_nat (length name))) l
  end.
Proof.
  intros (l & HB & Hnd & <-) HM Hi Hz Hf Hb Hn.
  pose proof (insert_in_block_live ino ft name Hi Hz Hf Hb Hn _ _ _ HB) as H.
  destruct (insert_in_block _ _ _ _ _) as [buf'|]; [|by exists l].
  destruct H as (l1 & l2 & l' & Hl & Hl' & HB').
  assert (name ∉ (l1 ++ l2).*1) as Hni.
  { rewrite <- Hl. by apply not_elem_of_list_to_map. }
  unfold dir_names in Hnd. rewrite Hl in Hnd.
  assert (NoDup (dir_names l')) as Hnd'.
  { unfold dir_names. rewrite Hl', fmap_app. simpl.
    rewrite <- Permutation_middle, <- fmap_app. by apply NoDup_cons. }
  exists l'. split_and!; [done|done|].
  destruct (dir_map_mid _ _ _ _ Hl' Hnd') as (_ & _ & ->). simpl. unfold dir_map. by rewrite Hl.
Qed.

(** ** Main results *)

(** Inserting a new name into a well-formed directory block adds
    exactly that entry: every later lookup finds the new name with its inode
    and all other names as before, the block stays well-formed, and insertion
    is refused only when no entry has room for the name. *)
Theorem dir_block_insert bs buf M name ino ft :
  dir_block_map bs buf M -> M !! name = None ->
  is_u32 ino -> ino <> 0 -> is_u8 ft -> bytes_ok name -> Z.of_nat (length name) <= 255 ->
  match insert_in_block bs buf name ino ft with
  | Some buf' => dir_block_map bs buf' (<[name := (ino, ft)]> M) /\
      (forall k, Z.of_nat (length k) <= 255 ->
         find_entry bs buf' k = if decide (k = name) then Some ino else find_entry bs buf k)
  | None => forall l e, dir_block bs l buf -> e ∈ l -> en_slack e < room (Z.of_nat (length name))
  end.
Proof.
  intros HM Hn Hi Hz Hf Hb Hl.
  pose proof (insert_in_block_map _ _ _ _ ino ft HM Hn Hi Hz Hf Hb Hl) as H.
  pose proof (fun l => insert_in_block_live ino ft name Hi Hz Hf Hb Hl bs l buf) as H'.
  destruct (insert_in_block _ _ _ _ _) as [buf'|].
  - split; [done|]. intros k Hk. rewrite (find_entry_map _ _ _ _ H Hk), (find_entry_map _ _ _ _ HM Hk).
    case_decide as D; [by rewrite D, lookup_insert_eq|by rewrite lookup_insert_ne].
  - intros l e HB He. specialize (H' l HB). rewrite Forall_forall in H'. by apply H'.
Qed.

(** Removing a name from a well-formed directory block removes
    exactly that entry (merging its bytes into the previous entry or leaving
    an unused slot): later lookups miss the name and find all others as
    before, and removal fails only when the name is not there. *)
Theorem dir_block_remove bs buf M name :
  dir_block_map bs buf M -> bs < 65536 -> Z.of_nat (length name) <= 255 ->
  match remove_in_block bs buf name with
  | Some buf' => is_Some (find_entry bs buf name) /\ dir_block_map bs buf' (delete name M) /\
      (forall k, Z.of_nat (length k) <= 255 ->
         find_entry bs buf' k = if decide (k = name) then None else find_entry bs buf k)
  | None => find_entry bs buf name = None
  end.
Proof.
  intros HM Hbs Hl. pose proof (remove_in_block_map _ _ _ _ HM Hbs Hl) as H.
  destruct (remove_in_block _ _ _) as [buf'|]; rewrite (find_entry_map _ _ _ _ HM Hl).
  - destruct H as [Hs H]. split_and!; [by apply fmap_is_Some|done|]. intros k Hk.
    rewrite (find_entry_map _ _ _ _ H Hk), (find_entry_map _ _ _ _ HM Hk).
    case_decide as D; [by rewrite D, lookup_delete_eq|by rewrite lookup_delete_ne].
  - by rewrite H.
Qed.
