(* ===== verification/Ext2Write.v ===== *)
(** * EXT2 operations on paths (fs/ext2/write.c, fs/ext2/mount.c)

    What the driver exports to the VFS: create, unlink, rename, hard and
    symbolic links, whole-file write and read, stat and readdir. *)

From S2P Require Import Prelude Machine VfsTypes Ext2Layout Ext2Block Ext2Super Ext2Inode Ext2File Ext2Dir.

(** Modes 0644, 0755 and 0777. *)
Definition EXT2_DEFAULT_FILE_MODE : Z := Z.lor EXT2_S_IFREG 0x1A4.
Definition EXT2_DEFAULT_DIR_MODE : Z := Z.lor EXT2_S_IFDIR 0x1ED.
Definition EXT2_DEFAULT_LINK_MODE : Z := Z.lor EXT2_S_IFLNK 0x1FF.

(** [split_parent_leaf]: [parent_size] and [leaf_size] are the buffer sizes. *)
Definition split_parent_leaf (path : list Z) (parent_size leaf_size : Z) : option (list Z * list Z) :=
  if bool_decide (hd_error path = Some SLASH) && negb (bool_decide (path = [SLASH])) then
    match last_slash path with
    | None => None
    | Some k =>
        let leaf := drop (S k) path in
        let leaf_len := Z.of_nat (length leaf) in
        if (leaf_len =? 0) || (leaf_size <=? leaf_len) then None else
        if (k =? 0)%nat then Some ([SLASH], leaf) else
        if parent_size <=? Z.of_nat k then None else Some (take k path, leaf)
    end
  else None.

(** The block of a new directory: "." and "..". *)
Definition new_dir_block (bs self parent : Z) : list Z :=
  let buf := put_dirent (zeros bs) 0 self (Some 12) EXT2_FT_DIR [DOT] in
  put_dirent buf 12 parent (Some (bs - 12)) EXT2_FT_DIR [DOT; DOT].

(** [memset] of an inode followed by the common assignments. *)
Definition new_inode (mode uid gid now links : Z) : ext2_inode :=
  mk_inode mode uid 0 now now now 0 gid links 0 0 0 (replicate 15 0) 0 0 0 0 (replicate 12 0).

(** [memcpy] of [tlen] target bytes over a zeroed [inode.i_block]. *)
Definition inline_target (target : list Z) : list Z :=
  block_ptrs (put (zeros 60) 0 target) 15.
(** The bytes of [i_block]. *)
Definition i_block_bytes (i : ext2_inode) : list Z := pack (replicate 15 4%nat) (i_block i).

Section Write.
Context {W : Type} `{Machine W}.
Abbreviation E := (ext2 W).

(** [write_data_blocks]: the result and the updated in-memory inode.  Each
    round consumes at least one byte, so the size is enough fuel. *)
Fixpoint write_blocks_loop (fuel : nat) (inode : ext2_inode) (data : list Z) (idx : Z)
    : state E (Z * ext2_inode) :=
  match fuel, data with
  | _, [] => mret (0, inode)
  | O, _ => mret (0, inode)
  | S fuel, _ =>
      b ← ext2_alloc_block;
      match b with
      | None => mret (- ENOSPC, inode)
      | Some blk =>
          fs ← ext2_get_fs;
          let bs := fs_block_size fs in
          rc ← ext2_write_block blk (put (zeros bs) 0 (sub data 0 bs));
          if negb (rc =? 0) then mret (- EIO, inode) else
          '(rc, inode) ← ext2_inode_add_block inode idx blk;
          if negb (rc =? 0) then mret (- ENOSPC, inode)
          else write_blocks_loop fuel inode (drop (Z.to_nat bs) data) (idx + 1)
      end
  end.
Definition write_data_blocks (inode : ext2_inode) (data : list Z) : state E (Z * ext2_inode) :=
  write_blocks_loop (length data) inode data 0.

(** The steps [new node = parent directory and leaf name] share. *)
Definition resolve_parent (path : list Z) : state E (option (Z * list Z)) :=
  match split_parent_leaf path PUREUNIX_MAX_PATH PUREUNIX_MAX_NAME with
  | None => mret None
  | Some (parent, leaf) =>
      p ← ext2_path_to_inode parent;
      mret ((fun p => (p, leaf)) <$> p)
  end.

(** Undoing a half-made node. *)
Definition drop_new_node (inode : ext2_inode) (ino : Z) (free_blocks is_dir : bool) : state E unit :=
  _ ← (if free_blocks then _ ← ext2_inode_free_all_blocks inode; mret tt else mret tt);
  ext2_free_inode ino is_dir.

(** [if (ext2_read_inode(ino, &i) == 0) { change; ext2_write_inode(ino, &i); }]. *)
Definition update_inode (ino : Z) (f : ext2_inode -> state E ext2_inode) : state E unit :=
  i ← ext2_read_inode ino;
  match i with
  | None => mret tt
  | Some i => i ← f i; _ ← ext2_write_inode ino i; mret tt
  end.

Definition dec_links (i : ext2_inode) : ext2_inode :=
  if 0 <? i_links_count i then set_i_links_count (i_links_count i - 1) i else i.
Definition inc_links (i : ext2_inode) : ext2_inode :=
  set_i_links_count (u16 (i_links_count i + 1)) i.

(** [ext2_create]. *)
Definition ext2_create (path : list Z) (directory : bool) : state E Z :=
  fs ← ext2_get_fs;
  if negb (fs_mounted fs) then mret (- ENOENT) else
  pl ← resolve_parent path;
  match pl with
  | None => mret (- ENOENT)
  | Some (parent_ino, leaf) =>
      existing ← ext2_dir_lookup parent_ino leaf;
      match existing with
      | Some _ => mret (- EEXIST)
      | None =>
          new_ino ← ext2_alloc_inode directory;
          match new_ino with
          | None => mret (- ENOSPC)
          | Some new_ino =>
              now ← lift_w time_now;
              s ← get;
              let inode := new_inode
                (if directory then EXT2_DEFAULT_DIR_MODE else EXT2_DEFAULT_FILE_MODE)
                (u16 (current_uid (e_w s))) (u16 (current_gid (e_w s))) now
                (if directory then 2 else 1) in
              r ← (if directory then
                     b ← ext2_alloc_block;
                     match b with
                     | None => _ ← ext2_free_inode new_ino true; mret (inr (- ENOSPC))
                     | Some blk =>
                         let bs := fs_block_size fs in
                         rc ← ext2_write_block blk (new_dir_block bs new_ino parent_ino);
                         if negb (rc =? 0) then
                           _ ← ext2_free_block blk;
                           _ ← ext2_free_inode new_ino true;
                           mret (inr (- EIO))
                         else
                           mret (inl (set_i_size bs (set_i_blocks (fs_sectors_per_block fs)
                                        (set_i_block_at 0 blk inode))))
                     end
                   else mret (inl inode));
              match r with
              | inr e => mret e
              | inl inode =>
                  rc ← ext2_write_inode new_ino inode;
                  if negb (rc =? 0) then
                    _ ← drop_new_node inode new_ino directory directory; mret (- EIO)
                  else
                  rc ← ext2_dir_insert parent_ino leaf new_ino
                         (if directory then EXT2_FT_DIR else EXT2_FT_REG_FILE);
                  if negb (rc =? 0) then
                    _ ← drop_new_node inode new_ino directory directory; mret (- ENOSPC)
                  else
                  _ ← (if directory then
                         update_inode parent_ino
                           (fun i => mret (set_i_mtime now (set_i_ctime now (inc_links i))))
                       else mret tt);
                  mret 0
              end
          end
      end
  end.

(** Dropping one name of a node that is no directory: the inode goes with its
    last link, otherwise [touch] sets what else changes before it is written. *)
Definition drop_link (ino : Z) (inode : ext2_inode) (touch : ext2_inode -> state E ext2_inode)
    : state E unit :=
  let inode := dec_links inode in
  if i_links_count inode =? 0 then
    _ ← ext2_inode_free_all_blocks inode;
    ext2_free_inode ino false
  else
    inode ← touch inode;
    _ ← ext2_write_inode ino inode;
    mret tt.

(** [ext2_unlink]. *)
Definition ext2_unlink (path : list Z) (directory : bool) : state E Z :=
  fs ← ext2_get_fs;
  if negb (fs_mounted fs) then mret (- ENOENT) else
  pl ← resolve_parent path;
  match pl with
  | None => mret (- ENOENT)
  | Some (parent_ino, leaf) =>
      ino ← ext2_dir_lookup parent_ino leaf;
      match ino with
      | None => mret (- ENOENT)
      | Some ino =>
          i ← ext2_read_inode ino;
          match i with
          | None => mret (- EIO)
          | Some inode =>
              let is_dir := inode_is EXT2_S_IFDIR inode in
              if directory && negb is_dir then mret (- ENOTDIR) else
              if negb directory && is_dir then mret (- EISDIR) else
              empty ← (if directory then ext2_dir_is_empty ino else mret true);
              if negb empty then mret (- ENOTEMPTY) else
              rc ← ext2_dir_remove parent_ino leaf;
              if negb (rc =? 0) then mret (- EIO) else
              _ ← (if directory then
                     _ ← ext2_inode_free_all_blocks inode;
                     _ ← ext2_free_inode ino true;
                     update_inode parent_ino (fun i =>
                       now ← lift_w time_now;
                       mret (set_i_mtime now (set_i_ctime now (dec_links i))))
                   else
                     drop_link ino inode (fun i => now ← lift_w time_now; mret (set_i_ctime now i)));
              mret 0
          end
      end
  end.

(** The removal of an existing destination by [ext2_rename]: [inr e] returns [e]. *)
Definition replace_dest (new_parent_ino existing_ino : Z) (new_leaf : list Z) (old_is_dir : bool)
    : state E (unit + Z) :=
  i ← ext2_read_inode existing_ino;
  match i with
  | None => mret (inr (- EIO))
  | Some existing =>
      let existing_is_dir := inode_is EXT2_S_IFDIR existing in
      if negb (Bool.eqb existing_is_dir old_is_dir)
      then mret (inr (if existing_is_dir then - EISDIR else - ENOTDIR)) else
      empty ← (if existing_is_dir then ext2_dir_is_empty existing_ino else mret true);
      if negb empty then mret (inr (- ENOTEMPTY)) else
      rc ← ext2_dir_remove new_parent_ino new_leaf;
      if negb (rc =? 0) then mret (inr (- EIO)) else
      _ ← (if existing_is_dir then
             _ ← ext2_inode_free_all_blocks existing;
             _ ← ext2_free_inode existing_ino true;
             update_inode new_parent_ino (fun i => mret (dec_links i))
           else drop_link existing_ino existing (fun i => mret i));
      mret (inl tt)
  end.

(** [ft] of [ext2_rename] and [ext2_link]. *)
Definition dirent_type (inode : ext2_inode) : Z :=
  if inode_is EXT2_S_IFDIR inode then EXT2_FT_DIR
  else if inode_is EXT2_S_IFLNK inode then EXT2_FT_SYMLINK else EXT2_FT_REG_FILE.

(** [ext2_rename]. *)
Definition ext2_rename (old_path new_path : list Z) : state E Z :=
  fs ← ext2_get_fs;
  if negb (fs_mounted fs) then mret (- ENOENT) else
  match split_parent_leaf old_path PUREUNIX_MAX_PATH PUREUNIX_MAX_NAME,
        split_parent_leaf new_path PUREUNIX_MAX_PATH PUREUNIX_MAX_NAME with
  | Some (old_parent, old_leaf), Some (new_parent, new_leaf) =>
      op ← ext2_path_to_inode old_parent;
      match op with
      | None => mret (- ENOENT)
      | Some old_parent_ino =>
      np ← ext2_path_to_inode new_parent;
      match np with
      | None => mret (- ENOENT)
      | Some new_parent_ino =>
      oi ← ext2_dir_lookup old_parent_ino old_leaf;
      match oi with
      | None => mret (- ENOENT)
      | Some old_ino =>
      i ← ext2_read_inode old_ino;
      match i with
      | None => mret (- EIO)
      | Some old_inode =>
          let old_is_dir := inode_is EXT2_S_IFDIR old_inode in
          dest ← ext2_dir_lookup new_parent_ino new_leaf;
          if bool_decide (dest = Some old_ino) then mret 0 else
          r ← (match dest with
               | Some existing_ino => replace_dest new_parent_ino existing_ino new_leaf old_is_dir
               | None => mret (inl tt)
               end);
          match r with
          | inr e => mret e
          | inl _ =>
              rc ← ext2_dir_insert new_parent_ino new_leaf old_ino (dirent_type old_inode);
              if negb (rc =? 0) then mret (- ENOSPC) else
              rc ← ext2_dir_remove old_parent_ino old_leaf;
              if negb (rc =? 0) then mret (- EIO) else
              _ ← (if old_is_dir && negb (old_parent_ino =? new_parent_ino) then
                     _ ← ext2_dir_set_parent old_ino new_parent_ino;
                     _ ← update_inode old_parent_ino (fun i => mret (dec_links i));
                     update_inode new_parent_ino (fun i => mret (inc_links i))
                   else mret tt);
              mret 0
          end
      end end end end
  | _, _ => mret (- ENOENT)
  end.

(** [ext2_link]. *)
Definition ext2_link (old_path new_path : list Z) : state E Z :=
  fs ← ext2_get_fs;
  if negb (fs_mounted fs) then mret (- ENOENT) else
  oi ← ext2_path_to_inode old_path;
  match oi with
  | None => mret (- ENOENT)
  | Some old_ino =>
  i ← ext2_read_inode old_ino;
  match i with
  | None => mret (- EIO)
  | Some inode =>
      if inode_is EXT2_S_IFDIR inode then mret (- EPERM) else
      pl ← resolve_parent new_path;
      match pl with
      | None => mret (- ENOENT)
      | Some (new_parent_ino, new_leaf) =>
          existing ← ext2_dir_lookup new_parent_ino new_leaf;
          match existing with
          | Some _ => mret (- EEXIST)
          | None =>
              rc ← ext2_dir_insert new_parent_ino new_leaf old_ino
                     (if inode_is EXT2_S_IFLNK inode then EXT2_FT_SYMLINK else EXT2_FT_REG_FILE);
              if negb (rc =? 0) then mret (- ENOSPC) else
              now ← lift_w time_now;
              ext2_write_inode old_ino (set_i_ctime now (inc_links inode))
          end
      end
  end end.

(** [ext2_symlink]. *)
Definition ext2_symlink (target path : list Z) : state E Z :=
  fs ← ext2_get_fs;
  if negb (fs_mounted fs) then mret (- ENOENT) else
  if decide (target = []) then mret (- EINVAL) else
  let tlen := Z.of_nat (length target) in
  if PUREUNIX_MAX_PATH <=? tlen then mret (- ENAMETOOLONG) else
  pl ← resolve_parent path;
  match pl with
  | None => mret (- ENOENT)
  | Some (parent_ino, leaf) =>
      existing ← ext2_dir_lookup parent_ino leaf;
      match existing with
      | Some _ => mret (- EEXIST)
      | None =>
          ni ← ext2_alloc_inode false;
          match ni with
          | None => mret (- ENOSPC)
          | Some new_ino =>
              now ← lift_w time_now;
              s ← get;
              let inode := set_i_size tlen
                (new_inode EXT2_DEFAULT_LINK_MODE (u16 (current_uid (e_w s)))
                   (u16 (current_gid (e_w s))) now 1) in
              '(rc, inode) ← (if tlen <=? 60 then mret (0, set_i_block (inline_target target) inode)
                              else write_data_blocks inode target);
              if negb (rc =? 0) then
                _ ← drop_new_node inode new_ino true false; mret rc
              else
              rc ← ext2_write_inode new_ino inode;
              if negb (rc =? 0) then
                _ ← drop_new_node inode new_ino true false; mret (- EIO)
              else
              rc ← ext2_dir_insert parent_ino leaf new_ino EXT2_FT_SYMLINK;
              if negb (rc =? 0) then
                _ ← drop_new_node inode new_ino true false; mret (- ENOSPC)
              else mret 0
          end
      end
  end.

(** [link_copy_block] is [copy_block] of fs/ext2/file.c on the caller's buffer. *)
Definition link_copy_block (bs blk_no : Z) (c : copy_ctx) : state E (Z * copy_ctx) :=
  let chunk := if cc_remaining c <? bs then cc_remaining c else bs in
  let advance dst := mk_copy_ctx dst (cc_pos c + chunk) (cc_remaining c - chunk) in
  if blk_no =? 0 then mret (0, advance (cc_dst c)) else
  p ← ext2_read_block blk_no;
  s ← get;
  match p with
  | None => mret (-1, c)
  | Some p => mret (0, advance (put (cc_dst c) (cc_pos c) (sub (deref s p) 0 chunk)))
  end.

(** [ext2_readlink]: the byte count and the caller's buffer, or an error. *)
Definition ext2_readlink (path buf : list Z) (bufsize : Z) : state E (Z * list Z) :=
  fs ← ext2_get_fs;
  if negb (fs_mounted fs) then mret (- ENOENT, buf) else
  ino ← ext2_path_to_inode path;
  match ino with
  | None => mret (- ENOENT, buf)
  | Some ino =>
  i ← ext2_read_inode ino;
  match i with
  | None => mret (- EIO, buf)
  | Some inode =>
      if negb (inode_is EXT2_S_IFLNK inode) then mret (- EINVAL, buf) else
      let len := i_size inode in
      let to_copy := if len <? bufsize then len else bufsize in
      if i_blocks inode =? 0 then
        mret (to_copy, put buf 0 (sub (i_block_bytes inode) 0 to_copy))
      else
        '(r, c) ← ext2_iter_blocks (link_copy_block (fs_block_size fs)) inode to_copy
                    (mk_copy_ctx buf 0 to_copy);
        if r <? 0 then mret (- EIO, cc_dst c) else mret (to_copy, cc_dst c)
  end end.

(** The contents an append starts from: [inr e] returns [e]; the pointer is
    the combined buffer to free. *)
Definition append_data (ino : Z) (data : list Z) : state E ((list Z * option Z) + Z) :=
  old ← ext2_read_file_ino ino;
  match old with
  | None => mret (inl (data, None))
  | Some (p, contents, old_size) =>
      c ← lift_w (kmalloc (u32 (old_size + Z.of_nat (length data))));
      _ ← lift_w (kfree (Some p));
      mret (match c with
            | None => inr (- ENOSPC)
            | Some c => inl (sub contents 0 old_size ++ data, Some c)
            end)
  end.

(** The part of [ext2_write_file] that replaces the contents. *)
Definition replace_data (ino : Z) (inode : ext2_inode) (final : list Z) (combined : option Z) : state E Z :=
  inode ← ext2_inode_free_all_blocks inode;
  '(rc, inode) ← write_data_blocks inode final;
  _ ← lift_w (kfree combined);
  if negb (rc =? 0) then
    inode ← ext2_inode_free_all_blocks inode;
    _ ← ext2_write_inode ino inode;
    mret rc
  else
    now ← lift_w time_now;
    ext2_write_inode ino
      (set_i_mtime now (set_i_ctime now (set_i_size (Z.of_nat (length final)) inode))).

(** [ext2_write_file]. *)
Definition ext2_write_file (path data : list Z) (flags : Z) : state E Z :=
  fs ← ext2_get_fs;
  if negb (fs_mounted fs) then mret (- ENOENT) else
  found ← ext2_path_to_inode path;
  r ← (match found with
       | Some ino => mret (inl ino)
       | None =>
           rc ← ext2_create path false;
           if negb (rc =? 0) then mret (inr rc) else
           again ← ext2_path_to_inode path;
           mret (match again with Some ino => inl ino | None => inr (- ENOENT) end)
       end);
  match r with
  | inr e => mret e
  | inl ino =>
  i ← ext2_read_inode ino;
  match i with
  | None => mret (- EIO)
  | Some inode =>
      if negb (inode_is EXT2_S_IFREG inode) then mret (- EISDIR) else
      d ← (if Z.land flags VFS_O_APPEND =? 0 then mret (inl (data, None))
           else append_data ino data);
      match d with
      | inr e => mret e
      | inl (final, combined) =>
          replace_data ino inode final combined
      end
  end end.

(** ** fs/ext2/mount.c *)

Definition node_type (inode : ext2_inode) : vfs_node_type :=
  if inode_is EXT2_S_IFDIR inode then VFS_DIR
  else if inode_is EXT2_S_IFLNK inode then VFS_SYMLINK else VFS_FILE.

Definition ext2_stat (path : list Z) : state E (option vfs_stat) :=
  fs ← ext2_get_fs;
  if negb (fs_mounted fs) then mret None else
  ino ← ext2_path_to_inode path;
  match ino with
  | None => mret None
  | Some ino =>
      i ← ext2_read_inode ino;
      mret ((fun inode =>
        mk_stat (node_type inode) (i_size inode) (Z.land (i_mode inode) 0x0FFF) (i_mode inode)
          (i_uid inode) (i_gid inode) (i_links_count inode) ino (i_atime inode)
          (i_mtime inode) (i_ctime inode) (i_blocks inode) (fs_block_size fs)) <$> i)
  end.

(** [ext2_read_file]: reading updates the access time. *)
Definition ext2_read_file (path : list Z) : state E (option (Z * list Z * Z)) :=
  fs ← ext2_get_fs;
  if negb (fs_mounted fs) then mret None else
  ino ← ext2_path_to_inode path;
  match ino with
  | None => mret None
  | Some ino =>
  i ← ext2_read_inode ino;
  match i with
  | None => mret None
  | Some inode =>
      if negb (inode_is EXT2_S_IFREG inode) then mret None else
      r ← ext2_read_file_ino ino;
      match r with
      | None => mret None
      | Some r =>
          now ← lift_w time_now;
          _ ← ext2_write_inode ino (set_i_atime now inode);
          mret (Some r)
      end
  end end.

Definition ext2_readdir {U} (path : list Z) (cb : vfs_dirent -> U -> state E (Z * U)) (u : U)
    : state E (Z * U) :=
  fs ← ext2_get_fs;
  if negb (fs_mounted fs) then mret (-1, u) else
  ino ← ext2_path_to_inode path;
  match ino with
  | None => mret (-1, u)
  | Some ino => ext2_readdir_ino ino cb u
  end.
End Write.
