(* ===== verification/Ext2Files.v ===== *)
(** * EXT2 files: the block map and file contents

    An inode's block map (12 direct pointers and one indirect block) as a
    function on volumes ([fptr]), and what the iterator of fs/ext2/inode.c and
    [ext2_read_file_ino] of fs/ext2/file.c (modelled in Ext2File.v) compute on
    it: the blocks in order, holes as zeros. *)

From S2P Require Import Prelude Machine VfsTypes Ext2Layout Ext2Block Ext2Super Ext2Inode.
From S2P Require Import Ext2Alloc Ext2Inodes Ext2File Ext2Dir Ext2Write.

(** ** The block map *)

(** Block pointer [k] of inode [i]. *)
Definition fptr (v : vol) (i : ext2_inode) (k : Z) : Z :=
  if k <? 12 then i_block_at i k
  else if i_block_at i 12 =? 0 then 0
  else get_le 4 (v_blk v (i_block_at i 12)) (4 * (k - 12)).

(** A zero pointer is a hole. *)
Definition blk_bytes (fs : ext2_fs) (v : vol) (b : Z) : list Z :=
  if b =? 0 then zeros (fs_block_size fs) else v_blk v b.

(** The first [n] blocks of a file, concatenated. *)
Definition file_bytes (fs : ext2_fs) (v : vol) (i : ext2_inode) (n : Z) : list Z :=
  mjoin ((fun k => blk_bytes fs v (fptr v i k)) <$> seqZ 0 n).

(** How far [ext2_iter_blocks] and [ext2_inode_add_block] reach. *)
Definition iter_reach (fs : ext2_fs) : Z := 12 + (fs_block_size fs / 4) `min` 256.
Definition map_reach (fs : ext2_fs) : Z := 12 + fs_block_size fs / 4.

Definition ptr_ok (fs : ext2_fs) (b : Z) : Prop := b = 0 \/ blk_valid fs b.

Lemma block_ptrs_lookup buf n k :
  (k < Z.to_nat n)%nat -> block_ptrs buf n !! k = Some (get_le 4 buf (4 * Z.of_nat k)).
Proof.
  intros Hk. unfold block_ptrs. rewrite list_lookup_fmap, lookup_seqZ_lt by lia.
  simpl. by rewrite Z.add_0_l.
Qed.

Lemma length_block_ptrs buf n : length (block_ptrs buf n) = Z.to_nat n.
Proof. unfold block_ptrs. by rewrite length_fmap, length_seqZ. Qed.

(** ** Iteration without effects *)

(** What [iter_ptrs] computes when the callback only reads. *)
Fixpoint fold_ptrs {C} (f : Z -> C -> Z * C) (bs : Z) (ptrs : list Z) (remaining : Z) (c : C)
    : Z * Z * C :=
  match ptrs with
  | [] => (0, remaining, c)
  | blk :: ptrs =>
      if remaining =? 0 then (0, remaining, c) else
      let remaining := remaining - (if remaining <? bs then remaining else bs) in
      let '(r, c) := f blk c in
      if negb (r =? 0) then (r, remaining, c) else fold_ptrs f bs ptrs remaining c
  end.

Definition fold_file {C} (f : Z -> C -> Z * C) (fs : ext2_fs) (v : vol) (i : ext2_inode)
    (nbytes : Z) (c : C) : Z * C :=
  let bs := fs_block_size fs in
  let '(r, remaining, c) := fold_ptrs f bs (take 12 (i_block i)) nbytes c in
  if negb (r =? 0) then (r, c) else
  if (remaining =? 0) || (i_block_at i 12 =? 0) then (0, c) else
  let '(r, _, c) := fold_ptrs f bs
    (block_ptrs (v_blk v (i_block_at i 12)) ((bs / 4) `min` 256)) remaining c in
  (r, c).

(** The bytes left after [n] whole blocks. *)
Definition left_over (bs n remaining : Z) : Z := 0 `max` (remaining - bs * n).

Lemma fold_ptrs_left {C} (f : Z -> C -> Z * C) bs ptrs remaining c r rem' c' :
  0 < bs -> 0 <= remaining -> fold_ptrs f bs ptrs remaining c = (r, rem', c') -> r = 0 ->
  rem' = left_over bs (Z.of_nat (length ptrs)) remaining.
Proof.
  intros Hbs. revert remaining c. induction ptrs as [|b ptrs IH]; intros remaining c Hr; cbn [fold_ptrs].
  - intros [= _ <- _] _. unfold left_over. simpl. lia.
  - cbn [length]. case Z.eqb_spec; intros Hz.
    + intros [= _ <- _] _. unfold left_over. lia.
    + destruct (f b c) as [r1 c1]. case Z.eqb_spec; cbn [negb]; intros H1.
      * intros H2 H3. apply IH in H2; [|case Z.ltb_spec; lia|done]. subst rem'.
        unfold left_over. case Z.ltb_spec; lia.
      * intros [= <- _ _]. done.
Qed.

Section FilePointers.
Context (fs : ext2_fs) (v : vol) (i : ext2_inode) (Hw : inode_wf i).

Lemma direct_lookup k : (k < 12)%nat ->
  take 12 (i_block i) !! k = Some (fptr v i (Z.of_nat k)).
Proof.
  intros Hk. destruct Hw as (H15 & _). rewrite lookup_take_lt by done.
  unfold fptr. case Z.ltb_spec; [intros _|lia]. unfold i_block_at.
  destruct (lookup_lt_is_Some_2 (i_block i) k) as [x Hx]; [lia|].
  rewrite Nat2Z.id, Hx. done.
Qed.

Lemma indirect_lookup k n : i_block_at i 12 <> 0 -> (k < Z.to_nat n)%nat ->
  block_ptrs (v_blk v (i_block_at i 12)) n !! k = Some (fptr v i (12 + Z.of_nat k)).
Proof.
  intros Hi Hk. rewrite block_ptrs_lookup by done. unfold fptr.
  case Z.ltb_spec; [lia|intros _]. case Z.eqb_spec; [done|intros _].
  do 2 f_equal. lia.
Qed.
End FilePointers.

Section Iterate.
Context {W : Type} `{MachineOk W}.
Abbreviation E := (ext2 W).
Implicit Types (s : E) (v : vol) (d : disk_device).

(** [s'] holds the same volume as [s]. *)
Definition reads d v s s' : Prop := vinv d s' v /\ e_fs s' = e_fs s /\ same_env s s'.

Lemma reads_refl d v s : vinv d s v -> reads d v s s.
Proof. done. Qed.

Lemma reads_trans d v s1 s2 s3 : reads d v s1 s2 -> reads d v s2 s3 -> reads d v s1 s3.
Proof.
  intros (_ & F1 & E1) (I2 & F2 & E2). split_and!; [done|congruence|by etransitivity].
Qed.

Lemma reads_inv d v s s' : fs_inv d s v -> reads d v s s' -> fs_inv d s' v.
Proof. intros [_ L O] (I & F & _). split; [done|by rewrite F..]. Qed.

(** Steps of the world that leave the disks alone: [kmalloc], [kfree], [time_now]. *)
Lemma lift_w_reads {A} d v s (m : state W A) :
  vinv d s v -> quiet (e_w s) (m (e_w s)).2 ->
  run (lift_w m) s (fun a s' => a = (m (e_w s)).1 /\ reads d v s s').
Proof.
  intros I Q. unfold run, lift_w. destruct (m (e_w s)) as [a w]. cbn [fst snd] in *.
  split; [done|]. assert (same_env s (set_e_w w s)) by apply Q. split_and!; [|done..].
  apply (vinv_quiet _ s); try done. pose proof (vi_inv _ _ _ I) as [G1 G2 G3 G4 G5].
  split; try done. intros j c Hj Hn. rewrite (disk_block_quiet s) by done. by eapply G4.
Qed.

(** A callback that reads: on the pointers in [P] it computes [f]. *)
Definition reader {C} d v (fs : ext2_fs) (P : Z -> Prop) (f : Z -> C -> Z * C)
    (cb : Z -> C -> state E (Z * C)) : Prop :=
  forall blk c s, P blk -> vinv d s v -> e_fs s = fs ->
    run (cb blk c) s (fun r s' => r = f blk c /\ reads d v s s').

Lemma iter_ptrs_run {C} d v fs P (f : Z -> C -> Z * C) cb bs ptrs :
  reader d v fs P f cb -> 0 < bs ->
  forall s remaining c, vinv d s v -> e_fs s = fs -> 0 <= remaining ->
  (forall k x, ptrs !! k = Some x -> bs * Z.of_nat k < remaining -> P x) ->
  run (iter_ptrs cb bs ptrs remaining c) s (fun r s' =>
    r = fold_ptrs f bs ptrs remaining c /\ reads d v s s').
Proof.
  intros Hcb Hbs. induction ptrs as [|b ptrs IH]; intros s remaining c I F Hr HP;
    cbn [iter_ptrs fold_ptrs]; [by apply run_ret|].
  case Z.eqb_spec; intros Hz; [by apply run_ret|].
  assert (P b) as Hb by (apply (HP 0%nat b); [done|lia]).
  run_step Hcb as (-> & R1); [done|done|done|]. destruct (f b c) as [r1 c1].
  case Z.eqb_spec; cbn [negb]; intros N1; [|by apply run_ret].
  run_last IH as (-> & R2).
  - apply R1.
  - destruct R1 as (_ & -> & _). done.
  - case Z.ltb_spec; lia.
  - intros k x Hk Hlt. apply (HP (S k) x Hk). revert Hlt. case Z.ltb_spec; lia.
  - split; [done|]. by eapply reads_trans.
Qed.

Lemma ext2_iter_blocks_run {C} d s v P (f : Z -> C -> Z * C) cb i nbytes c :
  vinv d s v -> inode_wf i -> 0 <= nbytes -> 0 < fs_block_size (e_fs s) ->
  reader d v (e_fs s) P f cb ->
  (forall k, 0 <= k < iter_reach (e_fs s) -> fs_block_size (e_fs s) * k < nbytes -> P (fptr v i k)) ->
  (fs_block_size (e_fs s) * 12 < nbytes -> ptr_ok (e_fs s) (i_block_at i 12)) ->
  run (ext2_iter_blocks cb i nbytes c) s (fun r s' =>
    r = fold_file f (e_fs s) v i nbytes c /\ reads d v s s').
Proof.
  intros I Hw Hn Hbs Hcb HP Hind. unfold ext2_iter_blocks. apply run_bind, run_gets.
  set (fs := e_fs s) in *. set (bs := fs_block_size fs) in *.
  assert (iter_reach fs = 12 + (bs / 4) `min` 256) as Hreach by done.
  pose proof (Z.div_pos bs 4 ltac:(lia) ltac:(lia)) as Hq.
  assert (length (take 12 (i_block i)) = 12%nat) as N12.
  { destruct Hw as (H15 & _). rewrite length_take. lia. }
  run_step iter_ptrs_run as (-> & R1); [done|done|done|done|lia| |].
  { intros k x Hx Hlt. assert (k < 12)%nat as Hk by (apply lookup_lt_Some in Hx; lia).
    rewrite (direct_lookup v) in Hx by done. injection Hx as <-. apply HP; lia. }
  unfold fold_file. fold bs.
  destruct (fold_ptrs _ _ _ _ _) as [[r1 rem1] c1] eqn:E1.
  case Z.eqb_spec; cbn [negb]; intros N1; [|by apply run_ret].
  pose proof (fold_ptrs_left _ _ _ _ _ _ _ _ Hbs Hn E1 N1) as Hrem. rewrite N12 in Hrem.
  case Z.eqb_spec; cbn [orb]; intros Hr; [by apply run_ret|].
  case Z.eqb_spec; intros Hi; [by apply run_ret|].
  assert (bs * 12 < nbytes) as Hlong by (unfold left_over in Hrem; lia).
  destruct (Hind Hlong) as [?|V]; [done|].
  run_step read_block_copy_run as (-> & I2 & F2 & E2); [apply R1|by destruct R1 as (_ & -> & _)|].
  assert (reads d v s s'0) as R2 by (eapply reads_trans; [exact R1|done]).
  replace (if 256 <? bs / 4 then 256 else bs / 4) with ((bs / 4) `min` 256)
    by (case Z.ltb_spec; lia).
  run_step iter_ptrs_run as (-> & R3).
  - exact Hcb.
  - done.
  - apply R2.
  - apply R2.
  - unfold left_over in Hrem. lia.
  - intros k x Hx Hlt.
    assert (k < Z.to_nat ((bs / 4) `min` 256))%nat as Hk
      by (apply lookup_lt_Some in Hx; by rewrite length_block_ptrs in Hx).
    rewrite indirect_lookup in Hx by done. injection Hx as <-.
    apply HP; [|unfold left_over in Hrem]; lia.
  - destruct (fold_ptrs f bs (block_ptrs _ _) _ _) as [[r2 rem2] c2]. apply run_ret.
    split; [done|]. by eapply reads_trans.
Qed.
End Iterate.

(** ** Reading a whole file *)

(** [copy_block] on a volume. *)
Definition copy_fold (fs : ext2_fs) (v : vol) (b : Z) (c : copy_ctx) : Z * copy_ctx :=
  let bs := fs_block_size fs in
  let chunk := if cc_remaining c <? bs then cc_remaining c else bs in
  (0, mk_copy_ctx (if b =? 0 then cc_dst c else put (cc_dst c) (cc_pos c) (sub (v_blk v b) 0 chunk))
        (cc_pos c + chunk) (cc_remaining c - chunk)).

(** The buffer after [X] has been copied, [rem] bytes still to come. *)
Definition copied (X : list Z) (rem : Z) : copy_ctx :=
  mk_copy_ctx (X ++ zeros (rem + 1)) (Z.of_nat (length X)) rem.

Lemma put_zeros X rem k :
  0 <= rem -> Z.of_nat (length k) <= rem ->
  put (X ++ zeros (rem + 1)) (Z.of_nat (length X)) k
    = (X ++ k) ++ zeros (rem - Z.of_nat (length k) + 1).
Proof.
  intros Hr Hk. replace (zeros (rem + 1)) with (zeros (Z.of_nat (length k)) ++ zeros (rem - Z.of_nat (length k) + 1)).
  - rewrite <- (assoc_L (++)). apply put_at; [|done]. rewrite length_zeros. lia.
  - unfold zeros. rewrite <- replicate_add. f_equal. lia.
Qed.

Lemma blk_bytes_sub fs v b n :
  0 <= n -> sub (blk_bytes fs v b) 0 n = take (Z.to_nat n) (blk_bytes fs v b).
Proof. done. Qed.

Section Copy.
Context (fs : ext2_fs) (v : vol).
Local Abbreviation bs := (fs_block_size fs).
Context (Hbs : 0 < bs).

(** Copying one block appends a chunk of it. *)
Lemma copy_fold_step X rem b :
  0 <= rem -> length (blk_bytes fs v b) = Z.to_nat bs ->
  copy_fold fs v b (copied X rem) =
    (0, copied (X ++ take (Z.to_nat (rem `min` bs)) (blk_bytes fs v b)) (rem - rem `min` bs)).
Proof.
  intros Hr Hl. unfold copy_fold, copied. cbn [cc_remaining cc_dst cc_pos].
  replace (if rem <? bs then rem else bs) with (rem `min` bs) by (case Z.ltb_spec; lia).
  set (n := rem `min` bs).
  assert (length (take (Z.to_nat n) (blk_bytes fs v b)) = Z.to_nat n) as Ht
    by (rewrite length_take, Hl; lia).
  rewrite length_app, Ht. f_equal. f_equal; [|lia].
  unfold blk_bytes in *. case_match.
  - unfold zeros. rewrite take_replicate, <- (assoc_L (++)), <- replicate_add. do 2 f_equal. lia.
  - change (sub (v_blk v b) 0 n) with (take (Z.to_nat n) (v_blk v b)).
    rewrite put_zeros by lia. rewrite Ht. do 3 f_equal. lia.
Qed.

(** All blocks have their full length. *)
Definition full (ptrs : list Z) : Prop :=
  Forall (fun b => length (blk_bytes fs v b) = Z.to_nat bs) ptrs.

Lemma copy_fold_ptrs ptrs : full ptrs -> forall X rem, 0 <= rem ->
  fold_ptrs (copy_fold fs v) bs ptrs rem (copied X rem) =
    (0, left_over bs (Z.of_nat (length ptrs)) rem,
     copied (X ++ take (Z.to_nat rem) (mjoin (blk_bytes fs v <$> ptrs)))
       (left_over bs (Z.of_nat (length ptrs)) rem)).
Proof.
  induction 1 as [|b ptrs Hb _ IH]; intros X rem Hr; cbn [fold_ptrs fmap list_fmap mjoin list_join].
  - unfold left_over. simpl. rewrite take_nil, app_nil_r. repeat f_equal; lia.
  - case Z.eqb_spec; intros Hz.
    + subst rem. unfold left_over. rewrite take_0, app_nil_r, Z.max_l by lia. done.
    + rewrite copy_fold_step by done. cbn [negb Z.eqb].
      replace (if rem <? bs then rem else bs) with (rem `min` bs) by (case Z.ltb_spec; lia).
      rewrite IH by lia.
      assert (left_over bs (Z.of_nat (length ptrs)) (rem - rem `min` bs) =
              left_over bs (Z.of_nat (S (length ptrs))) rem) as -> by (unfold left_over; lia).
      do 2 f_equal. rewrite <- (assoc_L (++)). f_equal.
      rewrite (take_app _ (mjoin _)), Hb. f_equal.
      * destruct (decide (rem <= bs)); [do 2 f_equal; lia|].
        rewrite !take_ge; [done|rewrite Hb; lia..].
      * f_equal. lia.
Qed.

Lemma length_mjoin_blocks ptrs : full ptrs ->
  length (mjoin (blk_bytes fs v <$> ptrs)) = (Z.to_nat bs * length ptrs)%nat.
Proof.
  induction 1 as [|b l Hb _ IH]; [simpl; lia|]. 
  change (mjoin (blk_bytes fs v <$> (b :: l))) with (blk_bytes fs v b ++ mjoin (blk_bytes fs v <$> l)).
  rewrite length_app, IH, Hb. cbn [length]. lia.
Qed.

Context (i : ext2_inode) (Hw : inode_wf i).

Lemma file_bytes_ptrs n : file_bytes fs v i n = mjoin (blk_bytes fs v <$> (fptr v i <$> seqZ 0 n)).
Proof. unfold file_bytes. by rewrite <- list_fmap_compose. Qed.

Lemma file_bytes_add n m : 0 <= n -> 0 <= m ->
  file_bytes fs v i (n + m) =
  file_bytes fs v i n ++ mjoin (blk_bytes fs v <$> ((fun k => fptr v i (n + k)) <$> seqZ 0 m)).
Proof.
  intros Hn Hm. rewrite !file_bytes_ptrs, seqZ_app, !fmap_app, join_app by done. do 3 f_equal.
  apply list_eq. intros j. rewrite !list_lookup_fmap.
  destruct (decide (j < Z.to_nat m)%nat).
  - rewrite !lookup_seqZ_lt by lia. simpl. do 2 f_equal; lia.
  - by rewrite !lookup_seqZ_ge by lia.
Qed.

Lemma length_file_bytes n :
  full (fptr v i <$> seqZ 0 n) -> length (file_bytes fs v i n) = (Z.to_nat bs * Z.to_nat n)%nat.
Proof. intros Hl. by rewrite file_bytes_ptrs, length_mjoin_blocks, length_fmap, length_seqZ. Qed.

Lemma direct_ptrs : take 12 (i_block i) = fptr v i <$> seqZ 0 12.
Proof.
  apply list_eq. intros j. rewrite list_lookup_fmap. destruct (decide (j < 12)%nat).
  - rewrite (direct_lookup v), lookup_seqZ_lt by (done || lia). simpl. by rewrite Z.add_0_l.
  - rewrite lookup_seqZ_ge by lia. apply lookup_ge_None_2. rewrite length_take. lia.
Qed.

Lemma indirect_ptrs n : i_block_at i 12 <> 0 ->
  block_ptrs (v_blk v (i_block_at i 12)) n = (fun k => fptr v i (12 + k)) <$> seqZ 0 n.
Proof.
  intros Hi. apply list_eq. intros j. rewrite list_lookup_fmap. destruct (decide (j < Z.to_nat n)%nat).
  - rewrite indirect_lookup, lookup_seqZ_lt by (done || lia). simpl. by rewrite Z.add_0_l.
  - rewrite lookup_seqZ_ge by lia. apply lookup_ge_None_2. rewrite length_block_ptrs. lia.
Qed.

Lemma mjoin_holes (l : list Z) : mjoin (blk_bytes fs v <$> ((fun _ => 0) <$> l))
  = zeros (bs * Z.of_nat (length l)).
Proof.
  induction l as [|x l IH]; [unfold zeros; by rewrite Z.mul_0_r|].
  change (zeros bs ++ mjoin (blk_bytes fs v <$> ((fun _ => 0) <$> l)) =
    zeros (bs * Z.of_nat (S (length l)))). rewrite IH. unfold zeros. rewrite <- replicate_add. f_equal. lia.
Qed.

(** What the copy leaves in the buffer: the blocks in reach, then zeros. *)
Lemma copy_fold_file size :
  0 <= size -> full (fptr v i <$> seqZ 0 (iter_reach fs)) ->
  let r := fold_file (copy_fold fs v) fs v i size (copied [] size) in
  r.1 = 0 /\ cc_dst r.2 =
    take (Z.to_nat size) (file_bytes fs v i (iter_reach fs)) ++
    zeros (left_over bs (iter_reach fs) size + 1).
Proof.
  intros Hs Hl. pose proof (Z.div_pos bs 4 ltac:(lia) ltac:(lia)) as Hq.
  unfold iter_reach in *. set (m := (bs / 4) `min` 256) in *.
  assert (full (fptr v i <$> seqZ 0 12) /\ full ((fun k => fptr v i (12 + k)) <$> seqZ 0 m)) as [Hd Hi].
  { rewrite seqZ_app, fmap_app in Hl by lia. apply Forall_app in Hl as [Hd Hi]. split; [done|].
    unfold full in *. rewrite Forall_fmap in Hi |- *. rewrite Forall_forall in Hi |- *.
    intros x [? ?]%elem_of_seqZ. apply (Hi (12 + x)). apply elem_of_seqZ. lia. }
  unfold fold_file. rewrite direct_ptrs, copy_fold_ptrs by done.
  rewrite length_fmap, length_seqZ. change (Z.of_nat (Z.to_nat 12)) with 12. cbn [negb Z.eqb app].
  fold m. rewrite file_bytes_add, <- file_bytes_ptrs by lia.
  pose proof (length_file_bytes 12 Hd) as HD. change (Z.to_nat 12) with 12%nat in HD.
  set (D := file_bytes fs v i 12) in *.
  destruct (Z.eqb_spec (left_over bs 12 size) 0) as [Hz|Hz]; cbn [orb].
  { split; [done|]. cbn [snd cc_dst copied]. unfold left_over in *.
    rewrite take_app_le by lia. do 2 f_equal. nia. }
  assert (left_over bs 12 size = size - bs * 12 /\ 0 < size - bs * 12) as [-> Hrem]
    by (unfold left_over in *; lia).
  destruct (Z.eqb_spec (i_block_at i 12) 0) as [Hi12|Hi12].
  - split; [done|]. cbn [snd cc_dst copied].
    assert ((fun k => fptr v i (12 + k)) <$> seqZ 0 m = (fun _ => 0) <$> seqZ 0 m) as ->.
    { apply list_fmap_ext. intros j x [-> ?]%lookup_seqZ. unfold fptr.
      case Z.ltb_spec; [lia|intros _]. by rewrite Hi12. }
    rewrite mjoin_holes, length_seqZ, take_app, !(take_ge D) by lia. rewrite <- (assoc_L (++)). f_equal.
    unfold zeros. rewrite take_replicate, <- replicate_add. f_equal. unfold left_over. nia.
  - rewrite indirect_ptrs, copy_fold_ptrs by (done || lia). split; [done|]. cbn [snd cc_dst copied].
    rewrite length_fmap, length_seqZ, (take_ge D) by lia. rewrite take_app, (take_ge D) by lia.
    rewrite HD. f_equal; [do 2 f_equal; lia|]. f_equal. unfold left_over. nia.
Qed.
End Copy.

Section ReadFile.
Context {W : Type} `{MachineOk W}.
Abbreviation E := (ext2 W).
Implicit Types (s : E) (v : vol) (d : disk_device).

Lemma copy_block_reader d v fs :
  reader d v fs (ptr_ok fs) (copy_fold fs v) (copy_block (fs_block_size fs)).
Proof.
  intros b c s Hb I F. unfold copy_block, copy_fold.
  case Z.eqb_spec; intros Hz; [by apply run_ret|].
  destruct Hb as [?|V]; [done|].
  run_step ext2_read_block_run as (p & -> & I1 & F1 & E1 & Hp); [done|by rewrite F|].
  apply run_bind, run_get, run_ret. split; [|done].
  do 3 f_equal. rewrite <- Hp, F. unfold sub. rewrite !drop_0, take_take. f_equal.
  case Z.ltb_spec; lia.
Qed.

(** Every pointer of the block map is a hole or a block of the volume. *)
Definition ptrs_ok (fs : ext2_fs) (v : vol) (i : ext2_inode) : Prop :=
  ptr_ok fs (i_block_at i 12) /\ forall k, 0 <= k < map_reach fs -> ptr_ok fs (fptr v i k).

Lemma ptrs_full d s v i : vinv d s v -> ptrs_ok (e_fs s) v i ->
  full (e_fs s) v (fptr v i <$> seqZ 0 (iter_reach (e_fs s))).
Proof.
  intros I [_ Hp]. unfold full. rewrite Forall_fmap. apply Forall_forall. intros k Hk%elem_of_seqZ.
  simpl. unfold blk_bytes. case Z.eqb_spec; intros Hz; [apply length_zeros|].
  destruct (Hp k) as [?|V]; [unfold map_reach, iter_reach in *; lia|done|]. by eapply vi_len.
Qed.

(** The bytes [ext2_read_file_ino] returns: the file, a NUL after it. *)
Definition read_bytes (fs : ext2_fs) (v : vol) (i : ext2_inode) : list Z :=
  take (Z.to_nat (i_size i)) (file_bytes fs v i (iter_reach fs)) ++
  zeros (left_over (fs_block_size fs) (iter_reach fs) (i_size i) + 1).

Lemma ext2_read_file_ino_run d s v ino i :
  fs_inv d s v -> ino_in (e_fs s) ino -> vino (e_fs s) v ino = i -> ptrs_ok (e_fs s) v i ->
  inode_is EXT2_S_IFREG i = true -> i_size i + 1 < 2 ^ 32 ->
  run (ext2_read_file_ino ino) s (fun r s' => reads d v s s' /\
    exists s1, reads d v s s1 /\
      r = (fun p => (p, read_bytes (e_fs s) v i, i_size i)) <$> (kmalloc (i_size i + 1) (e_w s1)).1).
Proof.
  intros I Hino Hi [Hind Hp] Hreg Hsz. destruct (fi_bs _ _ _ I) as [Hspb Hbs].
  unfold ext2_read_file_ino. apply run_bind, run_gets.
  run_step ext2_read_inode_run as (-> & Hw & I1 & F1 & E1); [done|done|].
  rewrite Hi in *. rewrite Hreg. cbn [negb].
  assert (0 <= i_size i) as Hs0.
  { destruct Hw as (_ & _ & Hf). inversion_clear Hf as [|? ? ? ? _ Hf1].
    inversion_clear Hf1 as [|? ? ? ? _ Hf2]. inversion_clear Hf2 as [|? ? ? ? Hsi _]. apply Hsi. }
  rewrite Z.mul_1_l, !u32_small by (rewrite ?u32_small; unfold is_u32; lia).
  run_step (lift_w_reads d v) as (-> & R2); [done|apply kmalloc_quiet|].
  assert (reads d v s s'0) as R by (by eapply reads_trans).
  destruct (kmalloc _ _).1 as [p|] eqn:Ek; [|by apply run_ret; split; [|exists s'; rewrite Ek]].
  assert (forall r s1, reads d v s s1 -> r = Some (p, read_bytes (e_fs s) v i, i_size i) ->
    reads d v s s1 /\ exists s1, reads d v s s1 /\
      r = (fun p => (p, read_bytes (e_fs s) v i, i_size i)) <$> (kmalloc (i_size i + 1) (e_w s1)).1) as Hdone.
  { intros r s1 R1 ->. split; [done|]. exists s'. by rewrite Ek. }
  pose proof (ptrs_full d s v i (fi_vinv _ _ _ I) (conj Hind Hp)) as Hfull.
  case Z.ltb_spec; intros Hz.
  - destruct R as (IR & FR & ER).
    pose proof (copy_fold_file (e_fs s) v ltac:(lia) i Hw (i_size i) ltac:(lia) Hfull) as [C1 C2].
    cbv zeta in C1, C2.
    eapply run_bind, run_mono; [apply (ext2_iter_blocks_run d s'0 v (ptr_ok (e_fs s)) (copy_fold (e_fs s) v))|].
    + done.
    + done.
    + lia.
    + rewrite FR. lia.
    + rewrite FR. apply copy_block_reader.
    + rewrite FR. intros k Hk _. apply Hp. unfold map_reach, iter_reach in *. lia.
    + by rewrite FR.
    + intros r s3 [-> R3]. rewrite FR. change (mk_copy_ctx (zeros (i_size i + 1)) 0 (i_size i)) with (copied [] (i_size i)).
      destruct (fold_file _ _ _ _ _ _) as [r c]. cbn [fst snd] in C1, C2. subst r.
      cbn [Z.ltb Z.compare]. apply run_ret, Hdone; [by eapply reads_trans|].
      unfold read_bytes. by rewrite C2.
  - apply run_ret, Hdone; [done|]. unfold read_bytes, left_over, iter_reach.
    replace (i_size i) with 0 by lia. pose proof (Z.div_pos (fs_block_size (e_fs s)) 4).
    rewrite take_0, Z.max_l by nia. done.
Qed.
End ReadFile.
