(* ===== verification/Ext2Store.v ===== *)
(** * EXT2 files: growing, writing and releasing the block map

    What [ext2_inode_add_block], [ext2_inode_free_all_blocks] (fs/ext2/inode.c)
    and [write_data_blocks] (fs/ext2/write.c) do to a consistent volume: the
    block map of the file grows by the new block or loses all its blocks, and
    every other inode and every other block in use keeps its contents. *)

From S2P Require Import Prelude Machine VfsTypes Ext2Layout Ext2Block Ext2Super Ext2Inode.
From S2P Require Import Ext2Alloc Ext2Inodes Ext2File Ext2Dir Ext2Write Ext2Files.

(** ** Growing a volume *)

(** [v'] is [v] with more blocks in use: no inode changes, and no block that
    was in use changes unless it is in [X]. *)
Record vol_grow (X : Z -> Prop) (fs : ext2_fs) (v : vol) (fs' : ext2_fs) (v' : vol) : Prop := {
  vg_counters : counters_only fs fs';
  vg_used b : blk_in fs b -> blk_used fs v b = true -> blk_used fs' v' b = true;
  vg_ino ino : ino_in fs ino -> ino_used fs' v' ino = ino_used fs v ino;
  vg_vino ino : ino_in fs ino -> vino fs' v' ino = vino fs v ino;
  vg_keep b : data_block fs b -> blk_used fs v b = true -> ~ X b -> v_blk v' b = v_blk v b;
}.

Section Grow.
Implicit Types (fs : ext2_fs) (v : vol) (X : Z -> Prop).

Lemma counters_blk_in fs fs' b : counters_only fs fs' -> blk_in fs' b <-> blk_in fs b.
Proof. intros C. by rewrite (co_eq _ _ C). Qed.

Lemma counters_ino_in fs fs' i : counters_only fs fs' -> ino_in fs' i <-> ino_in fs i.
Proof. intros C. by rewrite (co_eq _ _ C). Qed.

Lemma counters_data_back fs fs' b : counters_only fs fs' -> data_block fs' b -> data_block fs b.
Proof.
  intros C (Hb & V & Hm). pose proof (co_eq _ _ C) as EC.
  assert (blk_valid fs' b = blk_valid fs b) as Ev by (by rewrite EC).
  split_and!; [by apply (counters_blk_in _ _ _ C)|by rewrite <- Ev|].
  intros m Hin. rewrite <- (counters_meta _ _ _ C Hin). apply Hm. rewrite EC. by destruct m.
Qed.

Lemma vol_grow_refl X fs v : vol_grow X fs v fs v.
Proof. split; try done. apply counters_only_refl. Qed.

Lemma vol_grow_trans X fs1 v1 fs2 v2 fs3 v3 :
  vol_grow X fs1 v1 fs2 v2 -> vol_grow X fs2 v2 fs3 v3 -> vol_grow X fs1 v1 fs3 v3.
Proof.
  intros [C1 U1 I1 V1 K1] [C2 U2 I2 V2 K2]. split.
  - by etransitivity.
  - intros b Hb Hu. apply U2; [by apply (counters_blk_in _ _ _ C1)|by apply U1].
  - intros ino Hi. rewrite I2, I1; [done..|by apply (counters_ino_in _ _ _ C1)].
  - intros ino Hi. rewrite V2, V1; [done..|by apply (counters_ino_in _ _ _ C1)].
  - intros b Hb Hu Hx. rewrite K2, K1; [done..|by eapply counters_data|apply U1; [apply Hb|done]|done].
Qed.

Lemma vol_grow_weaken X X' fs v fs' v' :
  (forall b, data_block fs b -> blk_used fs v b = true -> X b -> X' b) ->
  vol_grow X fs v fs' v' -> vol_grow X' fs v fs' v'.
Proof. intros HX [C U I V K]. split; try done. intros b Hb Hu Hn. apply K; [done..|]. intros ?. by apply Hn, HX. Qed.

(** The inode table survives any change outside it. *)
Lemma vino_keep fs v fs' v' ino :
  layout_ok fs -> 1 <= fs_sectors_per_block fs <= 8 ->
  fs_block_size fs = 512 * fs_sectors_per_block fs -> counters_only fs fs' -> ino_in fs ino ->
  v_blk v' (ino_blk fs ino) = v_blk v (ino_blk fs ino) -> vino fs' v' ino = vino fs v ino.
Proof.
  intros L Hspb Hbs C Hi Hk. destruct (ino_place fs L Hspb Hbs ino Hi) as (Hm & _).
  assert (ino_off fs' ino = ino_off fs ino) as Eo by (by rewrite (co_eq _ _ C)).
  assert (ino_blk fs' ino = ino_blk fs ino) as Eb.
  { unfold ino_blk. rewrite <- (counters_meta _ _ _ C Hm). f_equal. by rewrite (co_eq _ _ C). }
  unfold vino. by rewrite Eo, Eb, Hk.
Qed.

Section One.
Context (fs : ext2_fs) (L : layout_ok fs) (Hspb : 1 <= fs_sectors_per_block fs <= 8).
Context (Hbs : fs_block_size fs = 512 * fs_sectors_per_block fs).

Lemma data_not_ino b ino : data_block fs b -> ino_in fs ino -> ino_blk fs ino <> b.
Proof. intros (_ & _ & Hm) Hi. apply Hm. by apply (ino_place fs L Hspb Hbs). Qed.

Lemma alloc_grow v b fs' v' :
  block_allocated fs v b fs' v' -> vol_grow (fun _ => False) fs v fs' v'.
Proof.
  intros [C O D F U I Z K S]. split; try done.
  - intros b' Hb Hu. rewrite U, Hu by done. apply orb_true_r.
  - intros ino Hi. apply vino_keep; try done. destruct (ino_place fs L Hspb Hbs ino Hi) as (Hm & _).
    apply K.
    + by apply data_not_ino.
    + intros k Hk E. by pose proof (lo_inj _ L _ (MBgdt k) Hm Hk E).
    + intros g Hg E. by pose proof (lo_inj _ L _ (MBbm g) Hm Hg E).
  - intros b' (_ & _ & Hm) Hu _. apply K.
    + intros ->. congruence.
    + intros k Hk ->. by apply (Hm (MBgdt k) Hk).
    + intros g Hg ->. by apply (Hm (MBbm g) Hg).
Qed.

Lemma vset_grow v b x : data_block fs b -> vol_grow (eq b) fs v fs (vset b x v).
Proof.
  intros D. split.
  - apply counters_only_refl.
  - intros b' Hb Hu. by rewrite data_used.
  - intros ino Hi. unfold ino_used. cbn [vset v_blk]. rewrite decide_False; [done|].
    destruct D as (_ & _ & Hm). apply (Hm (MIbm _)). simpl. by apply (ino_group_in fs L ino).
  - intros ino Hi. apply vino_keep; try done; [apply counters_only_refl|].
    cbn [vset v_blk]. rewrite decide_False; [done|]. by apply data_not_ino.
  - intros b' _ _ Hne. cbn [vset v_blk]. rewrite decide_False; [done|]. congruence.
Qed.
End One.

(** Writing a block that was not in use at the start. *)
Lemma vol_grow_new X fs v fs1 v1 b x :
  layout_ok fs1 -> 1 <= fs_sectors_per_block fs1 <= 8 ->
  fs_block_size fs1 = 512 * fs_sectors_per_block fs1 ->
  vol_grow X fs v fs1 v1 -> data_block fs1 b -> blk_used fs v b = false ->
  vol_grow X fs v fs1 (vset b x v1).
Proof.
  intros L Hspb Hbs G D Hu.
  apply (vol_grow_weaken (fun b' => X b' \/ b = b')); [intros b' _ Hu' [?| ->]; [done|congruence]|].
  eapply vol_grow_trans.
  - eapply vol_grow_weaken; [|exact G]. by left.
  - eapply vol_grow_weaken; [|by apply vset_grow]. by right.
Qed.
End Grow.

(** ** Well-formed block maps *)

(** Inode [i] maps its first [n] blocks to distinct data blocks in use, and nothing else. *)
Record file_map (fs : ext2_fs) (v : vol) (i : ext2_inode) (n : Z) : Prop := {
  fm_wf : inode_wf i;
  fm_n : 0 <= n <= map_reach fs;
  fm_ptr k : 0 <= k < n -> data_block fs (fptr v i k) /\ blk_used fs v (fptr v i k) = true;
  fm_hole k : n <= k < map_reach fs -> fptr v i k = 0;
  fm_inj k k' : 0 <= k < n -> 0 <= k' < n -> fptr v i k = fptr v i k' -> k = k';
  fm_ind : 12 < n -> data_block fs (i_block_at i 12) /\ blk_used fs v (i_block_at i 12) = true /\
                     forall k, 0 <= k < n -> fptr v i k <> i_block_at i 12;
  fm_no_ind : n <= 12 -> i_block_at i 12 = 0;
}.

(** The blocks the map refers to. *)
Definition map_owns (v : vol) (i : ext2_inode) (n b : Z) : Prop :=
  (12 < n /\ b = i_block_at i 12) \/ exists k, 0 <= k < n /\ b = fptr v i k.

Section FileMap.
Implicit Types (fs : ext2_fs) (v : vol) (i : ext2_inode).

Lemma data_nonzero fs b : data_block fs b -> b <> 0.
Proof. intros (_ & [V _] & _) ->. lia. Qed.

Lemma owned_data fs v i n b : file_map fs v i n -> map_owns v i n b ->
  data_block fs b /\ blk_used fs v b = true.
Proof.
  intros M [[Hn ->]|(k & Hk & ->)]; [|by apply M].
  by destruct (fm_ind _ _ _ _ M Hn) as (? & ? & _).
Qed.

(** Pointers depend on the inode and its indirect block only. *)
Lemma fptr_ext v v' i k :
  (12 <= k -> i_block_at i 12 <> 0 -> v_blk v' (i_block_at i 12) = v_blk v (i_block_at i 12)) ->
  fptr v' i k = fptr v i k.
Proof.
  intros Hk. unfold fptr. case Z.ltb_spec; [done|intros Hlt].
  case Z.eqb_spec; [done|intros Hz]. by rewrite Hk.
Qed.

End FileMap.

(** ** Frames *)

(** Only the inodes in [P] and the blocks in [X] may differ; every block in
    use outside [X] stays in use. *)
Record vol_frame (P X : Z -> Prop) (fs : ext2_fs) (v : vol) (fs' : ext2_fs) (v' : vol) : Prop := {
  fr_counters : counters_only fs fs';
  fr_ino ino : ino_in fs ino -> ino_used fs' v' ino = ino_used fs v ino;
  fr_vino ino : ino_in fs ino -> ~ P ino -> vino fs' v' ino = vino fs v ino;
  fr_used b : data_block fs b -> blk_used fs v b = true -> ~ X b -> blk_used fs' v' b = true;
  fr_keep b : data_block fs b -> blk_used fs v b = true -> ~ X b -> v_blk v' b = v_blk v b;
}.

Section Frames.
Implicit Types (fs : ext2_fs) (v : vol) (P X : Z -> Prop).

Lemma vol_frame_trans P X fs1 v1 fs2 v2 fs3 v3 :
  vol_frame P X fs1 v1 fs2 v2 -> vol_frame P X fs2 v2 fs3 v3 -> vol_frame P X fs1 v1 fs3 v3.
Proof.
  intros [C1 I1 V1 U1 K1] [C2 I2 V2 U2 K2]. split.
  - by etransitivity.
  - intros ino Hi. rewrite I2, I1; [done..|by apply (counters_ino_in _ _ _ C1)].
  - intros ino Hi Hp. rewrite V2, V1; [done..|by apply (counters_ino_in _ _ _ C1)|done].
  - intros b Hb Hu Hx. apply U2; [by eapply counters_data|by apply U1|done].
  - intros b Hb Hu Hx. rewrite K2, K1; [done..|by eapply counters_data|by apply U1|done].
Qed.

Lemma vol_frame_weaken P X P' X' fs v fs' v' :
  (forall ino, P ino -> P' ino) ->
  (forall b, data_block fs b -> blk_used fs v b = true -> X b -> X' b) ->
  vol_frame P X fs v fs' v' -> vol_frame P' X' fs v fs' v'.
Proof.
  intros HP HX [C I V U K]. split; try done.
  - intros ino Hi Hn. apply V; [done|]. intros ?. by apply Hn, HP.
  - intros b Hb Hu Hn. apply U; [done..|]. intros ?. by apply Hn, HX.
  - intros b Hb Hu Hn. apply K; [done..|]. intros ?. by apply Hn, HX.
Qed.

Lemma grow_frame X fs v fs' v' : vol_grow X fs v fs' v' -> vol_frame (fun _ => False) X fs v fs' v'.
Proof. intros [C U I V K]. split; try done; [by intros ino Hi _; apply V|]. intros b (Hb & _) Hu _. by apply U. Qed.

Lemma vset_ino_frame fs v ino i :
  layout_ok fs -> 1 <= fs_sectors_per_block fs <= 8 ->
  fs_block_size fs = 512 * fs_sectors_per_block fs -> ino_in fs ino -> inode_wf i ->
  vol_frame (eq ino) (fun _ => False) fs v fs (vset_ino fs ino i v).
Proof.
  intros L Hspb Hbs Hi Hw. split.
  - apply counters_only_refl.
  - intros ino' Hi'. by apply vset_ino_ino_used.
  - intros ino' Hi' Hne. by apply vino_set_other.
  - intros b (Hb & _) Hu _. by rewrite vset_ino_used.
  - intros b Hb _ _. by apply vset_ino_data.
Qed.

(** A block map survives any change around it. *)
Lemma file_map_frame P X fs v fs' v' i n :
  file_map fs v i n -> vol_frame P X fs v fs' v' -> (forall b, map_owns v i n b -> ~ X b) ->
  file_map fs' v' i n /\ (forall k, fptr v' i k = fptr v i k).
Proof.
  intros M G HX. pose proof (fr_counters _ _ _ _ _ _ G) as C.
  assert (map_reach fs' = map_reach fs) as Er by (by rewrite (co_eq _ _ C)).
  assert (forall b, map_owns v i n b -> data_block fs' b /\ blk_used fs' v' b = true) as Hd.
  { intros b Ho. destruct (owned_data _ _ _ _ _ M Ho) as [D U]. split; [by eapply counters_data|].
    apply (fr_used _ _ _ _ _ _ G); [done..|by apply HX]. }
  assert (forall k, fptr v' i k = fptr v i k) as Hp.
  { intros k. apply fptr_ext. intros _ Hz. destruct (Z.lt_ge_cases 12 n) as [Hn|Hn].
    - assert (map_owns v i n (i_block_at i 12)) as Ho by (by left).
      destruct (owned_data _ _ _ _ _ M Ho) as [D U].
      apply (fr_keep _ _ _ _ _ _ G); [done..|by apply HX].
    - destruct Hz. by apply (fm_no_ind _ _ _ _ M). }
  split; [|done]. split; try apply M.
  - rewrite Er. apply M.
  - intros k Hk. rewrite Hp. apply Hd. right. by exists k.
  - intros k Hk. rewrite Hp. apply M. by rewrite <- Er.
  - intros k k' Hk Hk'. rewrite !Hp. by apply M.
  - intros Hn. destruct (Hd (i_block_at i 12)) as [D U]; [by left|]. split_and!; [done..|].
    intros k Hk. rewrite Hp. by apply (fm_ind _ _ _ _ M).
Qed.

(** The map depends on the block pointers of the inode only. *)
Lemma file_map_attrs fs v i i' n :
  file_map fs v i n -> inode_wf i' -> i_block i' = i_block i ->
  file_map fs v i' n /\ (forall k, fptr v i' k = fptr v i k).
Proof.
  intros M Hw Eb.
  assert (forall k, i_block_at i' k = i_block_at i k) as Hb by (intros k; unfold i_block_at; by rewrite Eb).
  assert (forall k, fptr v i' k = fptr v i k) as Hp by (intros k; unfold fptr; by rewrite !Hb).
  split; [|done]. destruct M as [M1 M2 M3 M4 M5 M6 M7].
  split; rewrite ?Hb; try done.
  - intros k Hk. rewrite Hp. by apply M3.
  - intros k Hk. rewrite Hp. by apply M4.
  - intros k k' Hk Hk'. rewrite !Hp. by apply M5.
  - intros Hn. destruct (M6 Hn) as (? & ? & Hne). split_and!; try done.
    intros k Hk. rewrite Hp. by apply Hne.
Qed.
(** In particular the growth of the volume. *)
Lemma file_map_grow X fs v fs' v' i n :
  file_map fs v i n -> vol_grow X fs v fs' v' -> (forall b, map_owns v i n b -> ~ X b) ->
  file_map fs' v' i n /\ (forall k, 0 <= k < map_reach fs -> fptr v' i k = fptr v i k).
Proof.
  intros M G HX. destruct (file_map_frame _ _ _ _ _ _ _ _ M (grow_frame _ _ _ _ _ G) HX) as [M' Hp].
  split; [done|]. by intros k _.
Qed.
End Frames.

(** ** Storing a pointer *)

Section Pointers.
Implicit Types (fs : ext2_fs) (v : vol) (i : ext2_inode).

Lemma fptr_direct fs v i n x y k :
  file_map fs v i n -> n < 12 -> 0 <= k ->
  fptr v (set_i_blocks y (set_i_block_at n x i)) k = if decide (k = n) then x else fptr v i k.
Proof.
  intros M Hn Hk. pose proof (fm_wf _ _ _ _ M) as Hw. pose proof (fm_n _ _ _ _ M).
  assert (i_block_at (set_i_blocks y (set_i_block_at n x i)) 12 = i_block_at i 12) as E12.
  { change (i_block_at (set_i_block_at n x i) 12 = i_block_at i 12).
    rewrite i_block_at_set by (done || lia). rewrite decide_False by lia. done. }
  unfold fptr. rewrite E12. case Z.ltb_spec; intros Hlt.
  - change (i_block_at (set_i_block_at n x i) k = if decide (k = n) then x else i_block_at i k).
    by rewrite i_block_at_set by (done || lia).
  - by rewrite decide_False by lia.
Qed.

Lemma fptr_indirect fs v v' i n buf x y k :
  inode_wf i -> i_block_at i 12 <> 0 -> length buf = Z.to_nat (fs_block_size fs) ->
  is_u32 x -> 12 <= n < map_reach fs -> 0 <= k < map_reach fs ->
  v_blk v (i_block_at i 12) = buf ->
  v_blk v' (i_block_at i 12) = put_le 4 buf ((n - 12) * 4) x ->
  fptr v' (set_i_blocks y i) k = if decide (k = n) then x else fptr v i k.
Proof.
  intros Hw Hz Hl Hx Hn Hk Eb Eb'. unfold map_reach in *.
  change (fptr v' (set_i_blocks y i) k) with (fptr v' i k).
  pose proof (Z.mul_div_le (fs_block_size fs) 4 ltac:(lia)).
  unfold fptr. case Z.ltb_spec; intros Hlt; [by rewrite decide_False by lia|].
  case Z.eqb_spec; [done|intros _]. rewrite Eb', Eb. unfold is_u32 in Hx.
  case_decide as D.
  - subst k. replace (4 * (n - 12)) with ((n - 12) * 4) by lia.
    rewrite get_put_le; [done|simpl; lia..].
  - apply get_put_le_ne; simpl; lia.
Qed.

(** The map with one more block. *)
Lemma file_map_snoc fs v i n v' i' x :
  file_map fs v i n -> n < map_reach fs -> inode_wf i' ->
  data_block fs x -> blk_used fs v' x = true -> ~ map_owns v i n x ->
  (forall b, map_owns v i n b -> blk_used fs v' b = true) ->
  (forall k, 0 <= k < map_reach fs -> fptr v' i' k = if decide (k = n) then x else fptr v i k) ->
  (n < 12 -> i_block_at i' 12 = i_block_at i 12) ->
  (12 <= n -> data_block fs (i_block_at i' 12) /\ blk_used fs v' (i_block_at i' 12) = true /\
     i_block_at i' 12 <> x /\ forall k, 0 <= k < n -> fptr v i k <> i_block_at i' 12) ->
  file_map fs v' i' (n + 1).
Proof.
  intros M Hn Hw D U Hown Hkeep Hp Hdir Hind. pose proof (fm_n _ _ _ _ M) as Hr. split.
  - done.
  - lia.
  - intros k Hk. rewrite Hp by lia. case_decide; [done|].
    split; [apply M; lia|]. apply Hkeep. right. exists k. split; [lia|done].
  - intros k Hk. rewrite Hp, decide_False by lia. apply M. lia.
  - intros k k' Hk Hk'. rewrite !Hp by lia. repeat case_decide; try lia; intros E.
    + destruct Hown. right. exists k'. split; [lia|congruence].
    + destruct Hown. right. exists k. split; [lia|congruence].
    + apply M; [lia..|done].
  - intros Hlt. destruct Hind as (D' & U' & Hx & Hne); [lia|].
    split_and!; [done..|]. intros k Hk. rewrite Hp by lia.
    case_decide; [congruence|]. apply Hne. lia.
  - intros Hle. rewrite Hdir by lia. apply (fm_no_ind _ _ _ _ M). lia.
Qed.
End Pointers.

Section AddBlock.
Context {W : Type} `{MachineOk W}.
Abbreviation E := (ext2 W).
Implicit Types (s : E) (v : vol) (d : disk_device).

Lemma data_u32 d s v b : fs_inv d s v -> data_block (e_fs s) b -> is_u32 b.
Proof.
  intros I (_ & [V1 V2] & _). destruct (fi_bs _ _ _ I) as [Hspb _]. unfold is_u32. nia.
Qed.

(** Writing a data block. *)
Lemma write_data_run d s v b x :
  fs_inv d s v -> data_block (e_fs s) b -> bytes_ok x ->
  length x = Z.to_nat (fs_block_size (e_fs s)) ->
  run (ext2_write_block b x) s (fun rc s' => rc = 0 /\ fs_inv d s' (vset b x v) /\
    e_fs s' = e_fs s /\ same_env s s').
Proof.
  intros I D Hx Hl. pose proof I as [Iv L O].
  run_last ext2_write_block_run as (-> & I1 & F1 & E1); [done|apply D|done|done|].
  split_and!; try done. split; [done|by rewrite F1|]. rewrite F1. by apply vset_data_ok.
Qed.

(** The last part of [ext2_inode_add_block]: storing a pointer in the indirect block. *)
Definition store_ptr (i : ext2_inode) (k x spb : Z) : state E (Z * ext2_inode) :=
  r ← read_block_copy (i_block_at i 12);
  match r with
  | None => mret (-1, i)
  | Some buf =>
      rc ← ext2_write_block (i_block_at i 12) (put_le 4 buf (k * 4) x);
      if negb (rc =? 0) then mret (-1, i) else mret (0, add_i_blocks spb i)
  end.

Lemma store_ptr_run d s v i k x spb (ind := i_block_at i 12) :
  fs_inv d s v -> data_block (e_fs s) ind ->
  run (store_ptr i k x spb) s (fun r s' => r = (0, add_i_blocks spb i) /\ same_env s s' /\
    e_fs s' = e_fs s /\ fs_inv d s' (vset ind (put_le 4 (v_blk v ind) (k * 4) x) v)).
Proof.
  intros I D. unfold store_ptr. fold ind.
  pose proof (fi_vinv _ _ _ I) as Iv. pose proof D as (_ & V & _).
  run_step read_block_copy_run as (-> & I1 & F1 & E1); [done|done|].
  assert (fs_inv d s' v) as FI by (split; [done|rewrite F1; apply I..]).
  run_step write_data_run as (-> & I2 & F2 & E2); [done|by rewrite F1| | |].
  - apply put_le_ok. eapply vi_ok; [exact Iv|exact V].
  - rewrite length_put_le, F1. eapply vi_len; [exact Iv|exact V].
  - cbn [negb Z.eqb]. apply run_ret. split_and!; [done|by etransitivity|congruence|done].
Qed.

(** Outcome of [ext2_inode_add_block]. *)
Definition add_result d s v (i : ext2_inode) (n x : Z) (r : Z * ext2_inode) s' : Prop :=
  same_env s s' /\ same_attrs i r.2 /\ exists v', fs_inv d s' v' /\
  vol_grow (fun b => 12 < n /\ b = i_block_at i 12) (e_fs s) v (e_fs s') v' /\
  ((r.1 = 0 /\ file_map (e_fs s') v' r.2 (n + 1) /\
    (forall k, 0 <= k < map_reach (e_fs s) ->
       fptr v' r.2 k = if decide (k = n) then x else fptr v i k) /\
    (n <> 12 -> i_block_at r.2 12 = i_block_at i 12) /\
    (n = 12 -> blk_used (e_fs s) v (i_block_at r.2 12) = false) /\
    (forall b, blk_in (e_fs s) b -> blk_used (e_fs s') v' b = true ->
       blk_used (e_fs s) v b = true \/ (n = 12 /\ b = i_block_at r.2 12))) \/
   (r.1 = -1 /\ n = 12 /\ v' = v /\ r.2 = i /\ e_fs s' = e_fs s /\ volume_full (e_fs s') v')).

Lemma inode_wf_add_blocks n i : inode_wf i -> inode_wf (add_i_blocks n i).
Proof.
  intros Hw. pose proof Hw as Hw'. apply inode_wf_iff in Hw' as (L1 & _ & _ & F & _).
  apply (inode_wf_map i (i_block i)); [done..|]. apply u32_range.
Qed.

Lemma inode_wf_set_ptr i k x : inode_wf i -> is_u32 x -> inode_wf (set_i_block_at k x i).
Proof.
  intros Hw Hx. pose proof Hw as Hw'. apply inode_wf_iff in Hw' as (L1 & _ & F1 & F & _).
  change (inode_wf (set_i_blocks (i_blocks i) (set_i_block (<[Z.to_nat k := x]> (i_block i)) i))).
  apply inode_wf_map.
  - done.
  - by rewrite length_insert.
  - by apply Forall_insert.
  - do 9 (apply Forall2_cons in F1 as [_ F1]). by apply Forall2_cons in F1 as [? _].
Qed.

(** A fresh indirect block adds no pointer. *)
Lemma fptr_fresh_ind fs v i b y k :
  inode_wf i -> i_block_at i 12 = 0 -> b <> 0 -> v_blk v b = zeros (fs_block_size fs) ->
  0 <= k < map_reach fs ->
  fptr v (set_i_blocks y (set_i_block_at 12 b i)) k = fptr v i k.
Proof.
  intros Hw Hi0 Hb Hz Hk. change (fptr v (set_i_block_at 12 b i) k = fptr v i k).
  unfold fptr. rewrite !i_block_at_set by (done || lia). rewrite Hi0.
  destruct (decide (12 = 12)); [|done].
  case Z.ltb_spec; intros Hlt; [by rewrite decide_False by lia|].
  case Z.eqb_spec; [done|intros _]. cbn [Z.eqb]. rewrite Hz. unfold get_le, sub, zeros.
  by rewrite drop_replicate, take_replicate, le_val_zeros.
Qed.

Section Indirect.
Context (d : disk_device) (s : E) (v : vol) (i : ext2_inode) (n x : Z).
Context (I : fs_inv d s v) (M : file_map (e_fs s) v i n) (Hn : 12 <= n < map_reach (e_fs s)).
Context (D : data_block (e_fs s) x) (U : blk_used (e_fs s) v x = true) (Hown : ~ map_owns v i n x).

(** The indirect block exists. *)
Lemma add_block_indirect spb : 12 < n -> run (store_ptr i (n - 12) x spb) s (add_result d s v i n x).
Proof.
  intros Hlt. pose proof I as [Iv L O]. destruct (fi_bs _ _ _ I) as [Hspb Hbs].
  destruct (fm_ind _ _ _ _ M Hlt) as (Di & Ui & Hne).
  run_last store_ptr_run as (-> & E1 & F1 & I1); [done|done|].
  split; [done|]. split; [done|]. eexists. split; [exact I1|]. rewrite F1.
  set (fs := e_fs s) in *. set (ind := i_block_at i 12) in *. split.
  { eapply vol_grow_weaken; [|by apply vset_grow]. intros b _ _ <-. done. }
  assert (forall k, 0 <= k < map_reach fs ->
    fptr (vset ind (put_le 4 (v_blk v ind) ((n - 12) * 4) x) v) (add_i_blocks spb i) k =
    if decide (k = n) then x else fptr v i k) as Hp.
  { intros k Hk. eapply (fptr_indirect fs); try done.
    - apply M.
    - by eapply data_nonzero.
    - eapply vi_len; [exact Iv|apply Di].
    - exact (data_u32 _ _ _ _ I D).
    - fold ind. cbn [vset v_blk]. by rewrite decide_True. }
  left. cbn [fst snd]. split_and!; [done| |done|done|lia|intros b Hb; rewrite data_used by done; by left].
  eapply (file_map_snoc _ v i n _ _ x); try done.
  - lia.
  - by apply inode_wf_add_blocks, M.
  - by rewrite data_used by (done || apply D).
  - intros b Hb. destruct (owned_data _ _ _ _ _ M Hb) as [Db Ub]. by rewrite data_used by (done || apply Db).
  - intros _. change (i_block_at (add_i_blocks spb i) 12) with ind. split_and!; [done| |..].
    + by rewrite data_used by (done || apply Di).
    + intros E. apply Hown. left. done.
    + done.
Qed.

(** The indirect block has just been allocated. *)
Lemma add_block_fresh spb s1 v1 b :
  n = 12 -> same_env s s1 -> vinv d s1 v1 -> block_allocated (e_fs s) v b (e_fs s1) v1 ->
  run (store_ptr (add_i_blocks spb (set_i_block_at 12 b i)) (n - 12) x spb) s1 (add_result d s v i n x).
Proof.
  intros -> E0 I1 HA. pose proof I as [Iv L O]. destruct (fi_bs _ _ _ I) as [Hspb Hbs].
  pose proof (ba_counters _ _ _ _ _ HA) as C. pose proof (alloc_grow _ L Hspb Hbs _ _ _ _ HA) as G.
  pose proof (ba_data _ _ _ _ _ HA) as Db. pose proof (counters_data _ _ _ C Db) as Db1.
  pose proof (ba_was_free _ _ _ _ _ HA) as Hfree. pose proof (data_nonzero _ _ Db) as Hb0.
  pose proof (fm_wf _ _ _ _ M) as Hw. pose proof (fm_no_ind _ _ _ _ M ltac:(lia)) as Hi0.
  assert (fs_inv d s1 v1) as FI1 by (split; [done|by eapply counters_layout|apply HA]).
  destruct (fi_bs _ _ _ FI1) as [Hspb1 Hbs1].
  set (i1 := add_i_blocks spb (set_i_block_at 12 b i)).
  assert (i_block_at i1 12 = b) as Hi1.
  { change (i_block_at (set_i_block_at 12 b i) 12 = b).
    by rewrite i_block_at_set, decide_True by (done || lia). }
  assert (inode_wf i1) as Hw1.
  { apply inode_wf_add_blocks, inode_wf_set_ptr; [done|]. exact (data_u32 _ _ _ _ I Db). }
  run_last store_ptr_run as (-> & E1 & F1 & I2); [done|by rewrite Hi1|]. rewrite Hi1 in I2.
  split; [by etransitivity|]. split; [done|]. eexists. split; [exact I2|]. rewrite F1.
  set (fs := e_fs s) in *. set (fs1 := e_fs s1) in *.
  assert (fs_block_size fs1 = fs_block_size fs /\ map_reach fs1 = map_reach fs) as [Ebs Er].
  { rewrite (co_eq _ _ C). done. }
  assert (vol_grow (fun _ => False) fs v fs1 (vset b (put_le 4 (v_blk v1 b) (0 * 4) x) v1)) as G2.
  { apply vol_grow_new; try done. apply FI1. }
  split; [by eapply vol_grow_weaken, G2|].
  destruct (file_map_grow _ _ _ _ _ _ _ M G ltac:(tauto)) as [M1 Hp1].
  assert (forall k, 0 <= k < map_reach fs ->
    fptr (vset b (put_le 4 (v_blk v1 b) (0 * 4) x) v1) (add_i_blocks spb i1) k =
    if decide (k = 12) then x else fptr v i k) as Hp.
  { intros k Hk. unfold add_i_blocks at 1.
    rewrite (fptr_indirect fs v1 _ i1 12 (v_blk v1 b) x _ k); try done.
    - case_decide; [done|]. rewrite <- Hp1 by done. unfold i1, add_i_blocks.
      apply (fptr_fresh_ind fs); try done. apply HA.
    - by rewrite Hi1.
    - rewrite (ba_zero _ _ _ _ _ HA). apply length_zeros.
    - exact (data_u32 _ _ _ _ I D).
    - by rewrite Hi1.
    - rewrite Hi1. cbn [vset v_blk]. by rewrite decide_True. }
  assert (i_block_at (add_i_blocks spb i1) 12 = b) as Hi2 by done.
  left. cbn [fst snd]. rewrite Hi2. split_and!; [done| |done|lia|done|].
  2:{ intros b' Hb'. rewrite data_used; [|apply FI1|done|by apply (counters_blk_in _ _ _ C)].
      rewrite (ba_used _ _ _ _ _ HA) by done. case_bool_decide; [by right|by left]. }
  eapply (file_map_snoc fs1 v1 i 12 _ _ x); try done.
  - lia.
  - by apply inode_wf_add_blocks.
  - by eapply counters_data.
  - apply (vg_used _ _ _ _ _ G2); [apply D|done].
  - intros Ho. apply Hown. destruct Ho as [[? _]|(k & Hk & ->)]; [lia|]. right. exists k.
    split; [done|]. apply Hp1. lia.
  - intros b' Ho. assert (map_owns v i 12 b') as Ho'.
    { destruct Ho as [[? _]|(k & Hk & ->)]; [lia|]. right. exists k. split; [done|]. apply Hp1. lia. }
    destruct (owned_data _ _ _ _ _ M Ho') as [Db' Ub']. apply (vg_used _ _ _ _ _ G2); [apply Db'|done].
  - intros k Hk. rewrite Hp by lia. case_decide; [done|]. symmetry. apply Hp1. lia.
  - intros _. change (i_block_at (add_i_blocks spb i1) 12) with (i_block_at i1 12). rewrite Hi1.
    split_and!; [done| | |].
    + rewrite data_used; [|apply FI1|done|by apply (counters_blk_in _ _ _ C), Db].
      rewrite (ba_used _ _ _ _ _ HA) by apply Db. by rewrite bool_decide_eq_true_2.
    + intros ->. congruence.
    + intros k Hk E. destruct (fm_ptr _ _ _ _ M k Hk) as [_ Hu]. rewrite <- Hp1, E in Hu by lia. congruence.
Qed.
End Indirect.

Lemma ext2_inode_add_block_run d s v i n x :
  fs_inv d s v -> file_map (e_fs s) v i n -> n < map_reach (e_fs s) ->
  data_block (e_fs s) x -> blk_used (e_fs s) v x = true -> ~ map_owns v i n x ->
  run (ext2_inode_add_block i n x) s (add_result d s v i n x).
Proof.
  intros I M Hn D U Hown. pose proof I as [Iv L O].
  pose proof (fm_wf _ _ _ _ M) as Hw. pose proof (fm_n _ _ _ _ M) as Hr.
  pose proof (data_u32 _ _ _ _ I D) as Hx.
  unfold ext2_inode_add_block. apply run_bind, run_gets.
  case Z.ltb_spec; intros H12.
  { apply run_ret. split; [done|]. split; [done|]. exists v. split; [done|].
    split; [apply vol_grow_refl|]. left. cbn [fst snd].
    assert (i_block_at (add_i_blocks (fs_sectors_per_block (e_fs s)) (set_i_block_at n x i)) 12
              = i_block_at i 12) as E12.
    { change (i_block_at (set_i_block_at n x i) 12 = i_block_at i 12).
      rewrite i_block_at_set by (done || lia). by rewrite decide_False by lia. }
    assert (forall k, 0 <= k < map_reach (e_fs s) ->
      fptr v (add_i_blocks (fs_sectors_per_block (e_fs s)) (set_i_block_at n x i)) k =
      if decide (k = n) then x else fptr v i k) as Hp.
    { intros k Hk. eapply fptr_direct; [done|done|lia]. }
    split_and!; [done| |done|done|lia|by left].
    eapply (file_map_snoc _ v i n _ _ x); try done; [by apply inode_wf_add_blocks, inode_wf_set_ptr| |lia].
    intros b Hb. by apply (owned_data _ _ _ _ _ M). }
  unfold map_reach in Hn. case Z.leb_spec; intros Hq; [lia|].
  case Z.eqb_spec; intros Hi.
  - assert (n = 12) as Hn12.
    { destruct (Z.lt_ge_cases 12 n) as [Hlt|]; [|lia]. destruct (fm_ind _ _ _ _ M Hlt) as (Di & _).
      by apply data_nonzero in Di. }
    apply run_bind. run_step ext2_alloc_block_run as (E1 & HA); [done|].
    destruct a as [b|].
    + destruct HA as (v1 & I1 & HA). apply run_ret. cbn [fmap option_fmap option_map].
      by eapply add_block_fresh.
    + destruct HA as (I1 & F1 & Hfull). apply run_ret, run_ret. split; [done|]. split; [done|].
      exists v. split; [split; [done|by rewrite F1..]|]. rewrite F1. split; [apply vol_grow_refl|]. by right.
  - apply run_bind, run_ret.
    assert (12 < n) by (destruct (Z.eq_dec n 12); [subst n; destruct Hi; by apply (fm_no_ind _ _ _ _ M)|lia]).
    by apply add_block_indirect.
Qed.
End AddBlock.

(** ** Writing a file *)

(** Block [k] of the data [D], padded with zeros. *)
Definition chunk (bs : Z) (D : list Z) (k : Z) : list Z :=
  put (zeros bs) 0 (sub D (k * bs) bs).

(** The first [n] blocks of the file hold [D]. *)
Definition holds (fs : ext2_fs) (v : vol) (i : ext2_inode) (D : list Z) (n : Z) : Prop :=
  forall k, 0 <= k < n -> v_blk v (fptr v i k) = chunk (fs_block_size fs) D k.

Section WriteData.
Context {W : Type} `{MachineOk W}.
Abbreviation E := (ext2 W).
Implicit Types (s : E) (v : vol) (d : disk_device).

(** A file under construction: all its blocks are new since [(fs0, v0)]. *)
Record building d (fs0 : ext2_fs) v0 (D : list Z) (i0 : ext2_inode) s v i n : Prop := {
  bu_inv : fs_inv d s v;
  bu_grow : vol_grow (fun _ => False) fs0 v0 (e_fs s) v;
  bu_map : file_map (e_fs s) v i n;
  bu_new b : map_owns v i n b -> blk_used fs0 v0 b = false;
  bu_holds : holds (e_fs s) v i D n;
  bu_attrs : same_attrs i0 i;
}.

(** Every block in use was so in [(fs0, v0)], is the file's, or is in [x]. *)
Definition accounts (fs0 : ext2_fs) v0 (fs : ext2_fs) v (i : ext2_inode) (n : Z) (x : list Z) : Prop :=
  forall b, blk_in fs b -> blk_used fs v b = true ->
    blk_used fs0 v0 b = true \/ map_owns v i n b \/ b ∈ x.

(** Blocks a file of [n] data blocks takes, and those [D] needs. *)
Definition map_blocks (n : Z) : Z := if 12 <? n then n + 1 else n.
Definition blocks_needed (bs : Z) (D : list Z) : Z :=
  map_blocks ((Z.of_nat (length D) + bs - 1) / bs).

Section Step.
Context (d : disk_device) (fs0 : ext2_fs) (v0 : vol) (D : list Z) (i0 : ext2_inode).
Context (HD : bytes_ok D).

Lemma unused_before s v i n b : building d fs0 v0 D i0 s v i n ->
  data_block (e_fs s) b -> blk_used (e_fs s) v b = false -> blk_used fs0 v0 b = false.
Proof.
  intros B Db Hu. destruct (blk_used fs0 v0 b) eqn:E0; [|done].
  rewrite (vg_used _ _ _ _ _ (bu_grow _ _ _ _ _ _ _ _ _ B)) in Hu; [done| |done].
  pose proof (vg_counters _ _ _ _ _ (bu_grow _ _ _ _ _ _ _ _ _ B)) as C.
  apply (counters_blk_in _ _ _ C), Db.
Qed.

Lemma building_geom s v i n : building d fs0 v0 D i0 s v i n ->
  fs_block_size (e_fs s) = fs_block_size fs0 /\ map_reach (e_fs s) = map_reach fs0.
Proof.
  intros B. pose proof (vg_counters _ _ _ _ _ (bu_grow _ _ _ _ _ _ _ _ _ B)) as C.
  by rewrite (co_eq _ _ C).
Qed.

(** Allocating the next block and filling it, then continuing with [k]. *)
Lemma write_block_step {A} (fail eio : state E A) (k : ext2_fs -> Z -> state E A) data s v i n Q :
  building d fs0 v0 D i0 s v i n ->
  data = drop (Z.to_nat (n * fs_block_size fs0)) D -> accounts fs0 v0 (e_fs s) v i n [] ->
  (forall s', same_env s s' -> building d fs0 v0 D i0 s' v i n -> volume_full (e_fs s') v ->
     accounts fs0 v0 (e_fs s') v i n [] -> run fail s' Q) ->
  (forall fs b s' v', fs_block_size fs = fs_block_size fs0 -> same_env s s' ->
     building d fs0 v0 D i0 s' v' i n -> accounts fs0 v0 (e_fs s') v' i n [b] ->
     data_block (e_fs s') b -> blk_used (e_fs s') v' b = true -> ~ map_owns v' i n b ->
     blk_used fs0 v0 b = false -> v_blk v' b = chunk (fs_block_size (e_fs s')) D n ->
     run (k fs b) s' Q) ->
  run (b ← ext2_alloc_block;
       match b with
       | None => fail
       | Some b =>
           fs ← ext2_get_fs;
           rc ← ext2_write_block b (put (zeros (fs_block_size fs)) 0 (sub data 0 (fs_block_size fs)));
           if negb (rc =? 0) then eio else k fs b
       end) s Q.
Proof.
  intros B Hdata Hacc Hfail Hk. pose proof B as [I G M Hnew Hh Ha]. pose proof I as [Iv L O].
  destruct (fi_bs _ _ _ I) as [Hspb Hbs].
  run_step ext2_alloc_block_run as (E1 & HA); [done|]. destruct a as [b|].
  2:{ destruct HA as (I1 & F1 & Hfull). apply Hfail; [done| |by rewrite F1..].
      split; rewrite ?F1; try done. split; [done|by rewrite F1..]. }
  destruct HA as (v1 & I1 & HA). pose proof (ba_counters _ _ _ _ _ HA) as C.
  pose proof (alloc_grow _ L Hspb Hbs _ _ _ _ HA) as G1.
  pose proof (ba_data _ _ _ _ _ HA) as Db. pose proof (counters_data _ _ _ C Db) as Db1.
  pose proof (ba_was_free _ _ _ _ _ HA) as Hfree.
  assert (fs_inv d s' v1) as FI1 by (split; [done|by eapply counters_layout|apply HA]).
  destruct (fi_bs _ _ _ FI1) as [Hspb1 Hbs1].
  assert (fs_block_size (e_fs s') = fs_block_size (e_fs s)) as Ebs by (by rewrite (co_eq _ _ C)).
  apply run_bind, run_gets. rewrite Ebs.
  assert (put (zeros (fs_block_size (e_fs s))) 0 (sub data 0 (fs_block_size (e_fs s))) =
          chunk (fs_block_size (e_fs s)) D n) as ->.
  { destruct (building_geom _ _ _ _ B) as [-> _]. by rewrite Hdata. }
  set (x := chunk (fs_block_size (e_fs s)) D n).
  run_step write_data_run as (-> & I2 & F2 & E2); [done|done| | |].
  { apply put_ok; [by apply sub_ok|apply zeros_ok]. }
  { unfold x, chunk. rewrite length_put, length_zeros. by rewrite Ebs. }
  cbn [negb Z.eqb].
  assert (vol_grow (eq b) (e_fs s) v (e_fs s') (vset b x v1)) as G2.
  { eapply vol_grow_trans; [by eapply vol_grow_weaken, G1|apply vset_grow; try done; apply FI1]. }
  assert (forall b', map_owns v i n b' -> b <> b') as Hne.
  { intros b' Ho ->. destruct (owned_data _ _ _ _ _ M Ho). congruence. }
  destruct (file_map_grow _ _ _ _ _ _ _ M G2 Hne) as [M2 Hp].
  pose proof (fm_n _ _ _ _ M) as Hn.
  assert (forall b', map_owns (vset b x v1) i n b' <-> map_owns v i n b') as Hown.
  { intros b'. unfold map_owns. split; (intros [?|(j & Hj & ->)]; [by left|right; exists j; split; [done|]]);
      rewrite Hp by lia; done. }
  assert (blk_used fs0 v0 b = false) as Hb0 by (by eapply unused_before).
  apply (Hk _ b s'0 (vset b x v1)); rewrite ?F2.
  - rewrite Ebs. by apply (building_geom _ _ _ _ B).
  - by etransitivity.
  - split; rewrite ?F2; try done.
    + apply vol_grow_new; try done; [apply FI1|]. eapply vol_grow_trans; [exact G|exact G1].
    + intros b' Ho%Hown. by apply Hnew.
    + intros j Hj. rewrite Ebs, Hp by lia. destruct (fm_ptr _ _ _ _ M j Hj) as [Dj Uj].
      rewrite (vg_keep _ _ _ _ _ G2) by (done || (apply Hne; right; by exists j)). by apply Hh.
  - intros b' Hb'%(counters_blk_in _ _ _ C). rewrite Hown, list_elem_of_singleton, data_used;
      [|apply FI1|done|by apply (counters_blk_in _ _ _ C)].
    rewrite (ba_used _ _ _ _ _ HA) by done. case_bool_decide; [auto|]. intros Hu%(Hacc b' Hb').
    rewrite elem_of_nil in Hu. tauto.
  - done.
  - rewrite data_used; [|apply FI1|done|by apply (counters_blk_in _ _ _ C), Db].
    rewrite (ba_used _ _ _ _ _ HA) by apply Db. by rewrite bool_decide_eq_true_2.
  - intros Ho%Hown. by apply (Hne b).
  - done.
  - cbn [vset v_blk]. rewrite decide_True by done. by rewrite Ebs.
Qed.

(** Entering it in the block map. *)
Lemma building_add s v i n b :
  building d fs0 v0 D i0 s v i n -> accounts fs0 v0 (e_fs s) v i n [b] -> n < map_reach (e_fs s) ->
  data_block (e_fs s) b -> blk_used (e_fs s) v b = true -> ~ map_owns v i n b ->
  blk_used fs0 v0 b = false -> v_blk v b = chunk (fs_block_size (e_fs s)) D n ->
  run (ext2_inode_add_block i n b) s (fun r s' => same_env s s' /\ exists v',
    (r.1 = 0 /\ building d fs0 v0 D i0 s' v' r.2 (n + 1) /\ accounts fs0 v0 (e_fs s') v' r.2 (n + 1) []) \/
    (r.1 = -1 /\ n = 12 /\ building d fs0 v0 D i0 s' v' r.2 n /\ volume_full (e_fs s') v' /\
     accounts fs0 v0 (e_fs s') v' r.2 n [b])).
Proof.
  intros B Hacc Hn Db Ub Hown Hb0 Hc. pose proof B as [I G M Hnew Hh Ha].
  run_last ext2_inode_add_block_run as (E1 & A1 & v1 & I1 & G1 & Hr); [done..|].
  split; [done|]. exists v1.
  destruct Hr as [(Hz & M1 & Hp & Hsame & Hind & Honly)|(Hz & Hn12 & -> & -> & F1 & Hfull)]; [left|right].
  2:{ split_and!; [done|done| |done|by rewrite F1]. split; rewrite ?F1; done. }
  assert (vol_grow (fun _ => False) fs0 v0 (e_fs s') v1) as G01.
  { apply (vol_grow_weaken (fun b => 12 < n /\ b = i_block_at i 12)).
    - intros b' _ Hu [Hlt ->]. rewrite Hnew in Hu; [done|]. by left.
    - eapply vol_grow_trans; [by eapply vol_grow_weaken, G|exact G1]. }
  split; [done|]. pose proof (fm_n _ _ _ _ M) as Hn0.
  assert (fs_block_size (e_fs s') = fs_block_size (e_fs s)) as Ebs
    by (by rewrite (co_eq _ _ (vg_counters _ _ _ _ _ G1))).
  split.
  2:{ intros b' Hb' Hu. pose proof (vg_counters _ _ _ _ _ G1) as C1.
      destruct (Honly b') as [Hv|[-> ->]]; [by apply (counters_blk_in _ _ _ C1)|done| |by right; left; left].
      destruct (Hacc b') as [?|[Ho|Hx%list_elem_of_singleton]];
        [by apply (counters_blk_in _ _ _ C1)|done|by left| |].
      - right. left. destruct Ho as [[Hlt ->]|(k & Hk & ->)].
        + left. split; [lia|]. symmetry. apply Hsame. lia.
        + right. exists k. split; [lia|]. rewrite Hp by lia. by rewrite decide_False by lia.
      - subst b'. right. left. right. exists n. split; [lia|]. rewrite Hp by lia. by rewrite decide_True. }
  split; [done|done|done| | |by etransitivity].
  - intros b' [[Hlt ->]|(k & Hk & ->)].
    + destruct (Z.eq_dec n 12) as [Hn12|Hn12].
      * specialize (Hind Hn12). eapply unused_before; [exact B| |done].
        destruct (fm_ind _ _ _ _ M1 Hlt) as (Di & _).
        by eapply counters_data_back, Di; apply G1.
      * rewrite Hsame by done. apply Hnew. left. split; [lia|done].
    + rewrite Hp by lia. case_decide; [done|]. apply Hnew. right. exists k. split; [lia|done].
  - intros k Hk. rewrite Ebs, Hp by lia. case_decide as Dk.
    + subst k. rewrite (vg_keep _ _ _ _ _ G1); [done..|]. intros [Hlt ->]. apply Hown. by left.
    + destruct (fm_ptr _ _ _ _ M k ltac:(lia)) as [Dk' Uk]. rewrite (vg_keep _ _ _ _ _ G1); [apply Hh; lia|done..|].
      intros [Hlt Hx]. destruct (fm_ind _ _ _ _ M Hlt) as (_ & _ & Hne). apply (Hne k); [lia|done].
Qed.

Lemma add_block_too_far s i n b :
  map_reach (e_fs s) <= n -> 12 <= n -> run (ext2_inode_add_block i n b) s (fun r s' => r = (-1, i) /\ s' = s).
Proof.
  unfold map_reach. intros Hn H12. unfold ext2_inode_add_block. apply run_bind, run_gets.
  case Z.ltb_spec; [lia|intros _]. case Z.leb_spec; [intros _|lia]. by apply run_ret.
Qed.

(** Fewer than [m] blocks were free to begin with. *)
Definition fewer_free (m : Z) : Prop :=
  forall F, NoDup F -> (forall b, b ∈ F -> blk_in fs0 b /\ blk_used fs0 v0 b = false) ->
    Z.of_nat (length F) < m.

(** A full volume on which everything is accounted for. *)
Lemma full_accounts s v i n x m :
  building d fs0 v0 D i0 s v i n -> accounts fs0 v0 (e_fs s) v i n x -> volume_full (e_fs s) v ->
  map_blocks n + Z.of_nat (length x) < m -> fewer_free m.
Proof.
  intros B Hacc Hfull Hm F HN HF. pose proof (fm_n _ _ _ _ (bu_map _ _ _ _ _ _ _ _ _ B)) as Hn.
  set (L := (fptr v i <$> seqZ 0 n) ++ (if 12 <? n then [i_block_at i 12] else []) ++ x).
  assert (length F <= length L)%nat as Hle.
  { apply submseteq_length, NoDup_submseteq; [done|]. intros b Hb.
    destruct (HF b Hb) as [Hin Hfree]. pose proof (vg_counters _ _ _ _ _ (bu_grow _ _ _ _ _ _ _ _ _ B)) as C.
    assert (blk_in (e_fs s) b) as Hin' by (by apply (counters_blk_in _ _ _ C)).
    unfold L. rewrite !elem_of_app.
    destruct (Hacc b Hin' (Hfull b Hin')) as [Hu|[[[Hlt ->]|(k & Hk & ->)]|Hx]]; [congruence|..].
    - right. left. case Z.ltb_spec; [|lia]. intros _. by apply list_elem_of_singleton.
    - left. apply list_elem_of_fmap. exists k. split; [done|]. apply elem_of_seqZ. lia.
    - by right; right. }
  unfold L in Hle. rewrite !length_app, length_fmap, length_seqZ in Hle. unfold map_blocks in Hm.
  destruct (12 <? n); cbn [length] in Hle; lia.
Qed.

Lemma map_blocks_lt n m : n < m -> map_blocks n < map_blocks m /\ (12 <= n -> n + 1 < map_blocks m).
Proof. unfold map_blocks. do 2 case Z.ltb_spec; lia. Qed.

(** Outcome of [write_data_blocks]. *)
Definition write_result s (r : Z * ext2_inode) s' : Prop :=
  same_env s s' /\ exists v',
  (r.1 = 0 /\ exists n, building d fs0 v0 D i0 s' v' r.2 n /\
     (n - 1) * fs_block_size fs0 < Z.of_nat (length D) <= n * fs_block_size fs0) \/
  (r.1 = - ENOSPC /\ (exists n, building d fs0 v0 D i0 s' v' r.2 n) /\
   (fewer_free (blocks_needed (fs_block_size fs0) D) \/
    map_reach fs0 * fs_block_size fs0 < Z.of_nat (length D))).

Lemma write_blocks_loop_run fuel : forall s v i n data,
  building d fs0 v0 D i0 s v i n -> accounts fs0 v0 (e_fs s) v i n [] ->
  data = drop (Z.to_nat (n * fs_block_size fs0)) D -> (length data <= fuel)%nat ->
  (n - 1) * fs_block_size fs0 < Z.of_nat (length D) ->
  run (write_blocks_loop fuel i data n) s (write_result s).
Proof.
  induction fuel as [|fuel IH]; intros s v i n data B Hacc Hdata Hf Hlast;
    pose proof (fm_n _ _ _ _ (bu_map _ _ _ _ _ _ _ _ _ B)) as Hn0;
    destruct (fi_bs _ _ _ (bu_inv _ _ _ _ _ _ _ _ _ B)) as [Hspb Hbs];
    destruct (building_geom _ _ _ _ B) as [Ebs Er]; rewrite Ebs in Hbs; rewrite Er in Hn0;
    set (bs := fs_block_size fs0) in *.
  all: assert (length data = (length D - Z.to_nat (n * bs))%nat) as Hld by (rewrite Hdata; apply length_drop).
  all: destruct data as [|c data0] eqn:Edata; cbn [length] in Hf, Hld.
  all: cbn [write_blocks_loop].
  1,3: apply run_ret; split; [done|]; exists v; left; split; [done|]; exists n; split; [done|]; fold bs; nia.
  { lia. }
  rewrite <- Edata in *. assert (n * bs < Z.of_nat (length D)) as Hmore by nia.
  assert (n < (Z.of_nat (length D) + bs - 1) / bs) as Hneed.
  { assert (n + 1 <= (Z.of_nat (length D) + bs - 1) / bs); [|lia]. apply Z.div_le_lower_bound; lia. }
  destruct (map_blocks_lt _ _ Hneed) as [Hb1 Hb2]. fold (blocks_needed bs D) in Hb1, Hb2.
  eapply (write_block_step _ _ _ data); [exact B|exact Hdata|exact Hacc| |].
  { intros s' E1 B1 Hfull Ha1. apply run_ret. split; [done|]. exists v. right.
    split_and!; [done|by exists n|left]. eapply full_accounts; [exact B1|exact Ha1|done|].
    fold bs. cbn [length]. lia. }
  intros fs b s1 v1 Hfs E1 B1 Ha1 Db Ub Hown Hb0 Hc. destruct (building_geom _ _ _ _ B1) as [Ebs1 Er1].
  destruct (Z.lt_ge_cases n (map_reach (e_fs s1))) as [Hlt|Hge].
  - run_step building_add as (E2 & v2 & [(Hr & B2 & Ha2)|(Hr & Hn12 & B2 & Hfull & Ha2)]); [done..| |];
      destruct a as [rc i2]; cbn [fst snd] in *; subst rc; cbn [negb Z.eqb].
    + eapply run_mono; [apply (IH s' v2 i2 (n + 1)); [done|done| | |]|].
      * fold bs. rewrite Hfs, Hdata, drop_drop. f_equal. nia.
      * rewrite length_drop, Hfs. assert (length data = S (length data0)) by (by rewrite Edata). lia.
      * fold bs. replace (n + 1 - 1) with n by lia. done.
      * intros r s3 [E3 Hw]. split; [|done]. etransitivity; [exact E1|]. by etransitivity; [exact E2|].
    + apply run_ret. split; [by etransitivity; [exact E1|]|]. exists v2. right.
      split_and!; [done|by exists n|left]. eapply full_accounts; [exact B2|exact Ha2|done|].
      fold bs. rewrite Hn12 in *. change (map_blocks 12) with 12. cbn [length]. lia.
  - pose proof (Z.div_pos bs 4 ltac:(lia) ltac:(lia)) as Hq.
    assert (12 <= n) by (rewrite Er1 in Hge; unfold map_reach in Hge; fold bs in Hge; lia).
    run_step add_block_too_far as [-> ->]; [done|done|]. cbn [negb Z.eqb].
    apply run_ret. split; [done|]. exists v1. right. split_and!; [done|by exists n|].
    right. fold bs. nia.
Qed.
End Step.
End WriteData.

(** ** Releasing a file *)

(** [v'] is [v] with the blocks in [X] freed and nothing else changed. *)
Record vol_shrink (X : Z -> Prop) (fs : ext2_fs) (v : vol) (fs' : ext2_fs) (v' : vol) : Prop := {
  vs_counters : counters_only fs fs';
  vs_kept b : blk_in fs b -> ~ X b -> blk_used fs' v' b = blk_used fs v b;
  vs_freed b : blk_in fs b -> X b -> blk_used fs' v' b = false;
  vs_ino ino : ino_in fs ino -> ino_used fs' v' ino = ino_used fs v ino;
  vs_vino ino : ino_in fs ino -> vino fs' v' ino = vino fs v ino;
  vs_keep b : data_block fs b -> v_blk v' b = v_blk v b;
}.

Section Shrink.
Implicit Types (fs : ext2_fs) (v : vol) (X Y : Z -> Prop).

Lemma vol_shrink_refl fs v : vol_shrink (fun _ => False) fs v fs v.
Proof. split; try done. apply counters_only_refl. Qed.

Lemma vol_shrink_ext X Y fs v fs' v' :
  (forall b, X b <-> Y b) -> vol_shrink X fs v fs' v' -> vol_shrink Y fs v fs' v'.
Proof.
  intros HX [C K F I V B]. split; try done.
  - intros b Hb Hn. apply K; [done|]. by rewrite HX.
  - intros b Hb Hn. apply F; [done|]. by rewrite HX.
Qed.

Lemma vol_shrink_trans X Y fs1 v1 fs2 v2 fs3 v3 :
  (forall b, X b \/ ~ X b) -> (forall b, Y b \/ ~ Y b) ->
  vol_shrink X fs1 v1 fs2 v2 -> vol_shrink Y fs2 v2 fs3 v3 ->
  vol_shrink (fun b => X b \/ Y b) fs1 v1 fs3 v3.
Proof.
  intros DX DY [C1 K1 F1 I1 V1 B1] [C2 K2 F2 I2 V2 B2].
  assert (forall b, blk_in fs1 b -> blk_in fs2 b) as Hin by (intros b; apply (counters_blk_in _ _ _ C1)).
  split.
  - by etransitivity.
  - intros b Hb Hn. rewrite K2, K1 by (try apply Hin; tauto). done.
  - intros b Hb Hor. destruct (DY b) as [Hy|Hy]; [by apply F2; [apply Hin|]|].
    destruct Hor as [Hx|]; [|done]. rewrite K2 by (try apply Hin; done). by apply F1.
  - intros ino Hi. rewrite I2, I1; [done..|by apply (counters_ino_in _ _ _ C1)].
  - intros ino Hi. rewrite V2, V1; [done..|by apply (counters_ino_in _ _ _ C1)].
  - intros b Hb. rewrite B2, B1; [done..|by eapply counters_data].
Qed.

Lemma freed_shrink fs v b fs' v' :
  layout_ok fs -> 1 <= fs_sectors_per_block fs <= 8 ->
  fs_block_size fs = 512 * fs_sectors_per_block fs ->
  block_freed fs v b fs' v' -> vol_shrink (eq b) fs v fs' v'.
Proof.
  intros L Hspb Hbs [C O U I K S]. split; try done.
  - intros b' Hb Hn. rewrite U, bool_decide_eq_false_2 by congruence. done.
  - intros b' Hb <-. by rewrite U, bool_decide_eq_true_2.
  - intros ino Hi. apply vino_keep; try done. destruct (ino_place fs L Hspb Hbs ino Hi) as (Hm & _).
    apply K; intros x Hx E.
    + by pose proof (lo_inj _ L _ (MBgdt x) Hm Hx E).
    + by pose proof (lo_inj _ L _ (MBbm x) Hm Hx E).
  - intros b' (_ & _ & Hm). apply K; intros x Hx ->.
    + by apply (Hm (MBgdt x) Hx).
    + by apply (Hm (MBbm x) Hx).
Qed.
Lemma shrink_frame X fs v fs' v' : vol_shrink X fs v fs' v' -> vol_frame (fun _ => False) X fs v fs' v'.
Proof.
  intros [C K F I V B]. split; try done.
  - by intros ino Hi _; apply V.
  - intros b (Hb & _) Hu Hx. by rewrite K.
  - intros b Hb _ _. by apply B.
Qed.
End Shrink.

Section FreeAll.
Context {W : Type} `{MachineOk W}.
Abbreviation E := (ext2 W).
Implicit Types (s : E) (v : vol) (d : disk_device).

Definition listed (ptrs : list Z) (b : Z) : Prop := b ∈ ptrs /\ b <> 0.

Lemma listed_dec ptrs b : listed ptrs b \/ ~ listed ptrs b.
Proof. unfold listed. destruct (decide (b ∈ ptrs)), (decide (b = 0)); tauto. Qed.

Lemma free_block_shrink d s v b :
  fs_inv d s v -> data_block (e_fs s) b ->
  run (ext2_free_block b) s (fun _ s' => same_env s s' /\ exists v', fs_inv d s' v' /\
    vol_shrink (eq b) (e_fs s) v (e_fs s') v').
Proof.
  intros I D. destruct (fi_bs _ _ _ I) as [Hspb Hbs]. pose proof I as [Iv L O].
  run_last ext2_free_block_run as (E1 & v1 & I1 & HF); [done|done|].
  split; [done|]. exists v1. split; [|by apply freed_shrink].
  split; [done| |apply HF]. eapply counters_layout; [apply HF|done].
Qed.

Lemma free_ptrs_run d ptrs : forall s v,
  fs_inv d s v -> Forall (fun b => b = 0 \/ data_block (e_fs s) b) ptrs ->
  run (free_ptrs ptrs) s (fun _ s' => same_env s s' /\ exists v', fs_inv d s' v' /\
    vol_shrink (listed ptrs) (e_fs s) v (e_fs s') v').
Proof.
  induction ptrs as [|b ptrs IH]; intros s v I HF; cbn [free_ptrs].
  { apply run_ret. split; [done|]. exists v. split; [done|].
    eapply vol_shrink_ext, vol_shrink_refl. intros b. unfold listed. rewrite elem_of_nil. tauto. }
  apply Forall_cons in HF as [Hb HF]. apply run_bind.
  case Z.eqb_spec; intros Hz.
  - apply run_ret. run_last IH as (E1 & v1 & I1 & S1); [done|done|]. split; [done|]. exists v1.
    split; [done|]. eapply vol_shrink_ext, S1. intros b'. unfold listed. rewrite elem_of_cons.
    split; [tauto|]. intros [[->|?] ?]; done.
  - destruct Hb as [?|D]; [done|]. run_last free_block_shrink as (E1 & v1 & I1 & S1); [done|done|].
    pose proof (vs_counters _ _ _ _ _ S1) as C.
    run_last IH as (E2 & v2 & I2 & S2); [done| |].
    { eapply Forall_impl; [exact HF|]. intros x [?|Hx]; [by left|right]. by eapply counters_data. }
    split; [by etransitivity|]. exists v2. split; [done|].
    eapply vol_shrink_ext; [|eapply vol_shrink_trans; [..|exact S1|exact S2]].
    + intros b'. unfold listed. rewrite elem_of_cons. split; [intros [<-|]; tauto|].
      intros [[->|] ?]; tauto.
    + intros b'. destruct (decide (b = b')); tauto.
    + apply listed_dec.
Qed.

(** An inode whose block map has been cleared. *)
Definition cleared (i : ext2_inode) : ext2_inode :=
  set_i_size 0 (set_i_blocks 0 (set_i_block (replicate 13 0 ++ drop 13 (i_block i)) i)).

Lemma cleared_wf i : inode_wf i -> inode_wf (cleared i).
Proof.
  intros Hw. apply inode_wf_iff in Hw as (L1 & L2 & F1 & F2 & F3 & F4).
  apply inode_wf_iff. cbn [cleared set_i_size set_i_blocks set_i_block i_block i_osd2 i_mode i_uid i_size
    i_atime i_ctime i_mtime i_dtime i_gid i_links_count i_blocks i_flags i_osd1 i_generation i_file_acl
    i_dir_acl i_faddr].
  split_and!; try done.
  - rewrite length_app, length_replicate, length_drop. lia.
  - do 12 (apply Forall2_cons in F1 as [? F1]).
    repeat (apply Forall2_cons_2; [first [done | unfold field_ok; simpl; lia]|]). done.
  - apply Forall_app_2; [apply Forall_replicate; unfold is_u32; lia|by apply Forall_drop].
Qed.

Lemma cleared_block i k : 0 <= k <= 12 -> i_block_at (cleared i) k = 0.
Proof.
  intros Hk. unfold i_block_at, cleared. cbn [set_i_size set_i_blocks set_i_block i_block].
  rewrite lookup_app_l by (rewrite length_replicate; lia).
  by rewrite lookup_replicate_2 by lia.
Qed.

Lemma cleared_map fs v i : inode_wf i -> 0 <= fs_block_size fs -> file_map fs v (cleared i) 0.
Proof.
  intros Hw Hbs. pose proof (Z.div_pos (fs_block_size fs) 4 ltac:(lia) ltac:(lia)).
  split; try lia.
  - by apply cleared_wf.
  - unfold map_reach. lia.
  - intros k Hk. unfold fptr. rewrite (cleared_block i 12) by lia.
    case Z.ltb_spec; [|done]. intros. apply cleared_block. lia.
  - intros _. apply cleared_block. lia.
Qed.

Lemma owned_listed fs v i n b :
  file_map fs v i n -> 0 <= fs_block_size fs ->
  map_owns v i n b <->
    listed (take 12 (i_block i)) b \/
    (i_block_at i 12 <> 0 /\
     (listed (block_ptrs (v_blk v (i_block_at i 12)) (fs_block_size fs / 4)) b \/ i_block_at i 12 = b)).
Proof.
  intros M Hbs. pose proof (fm_wf _ _ _ _ M) as Hw. pose proof (fm_n _ _ _ _ M) as Hn. unfold map_reach in Hn.
  pose proof (Z.div_pos (fs_block_size fs) 4 Hbs ltac:(lia)) as Hq.
  rewrite (direct_ptrs v i Hw). unfold listed. rewrite list_elem_of_fmap.
  assert (forall k, 0 <= k < n -> fptr v i k <> 0) as Hnz.
  { intros k Hk. eapply data_nonzero. by apply (fm_ptr _ _ _ _ M). }
  assert (12 < n <-> i_block_at i 12 <> 0) as Hind.
  { split; [intros Hlt; eapply data_nonzero; by apply (fm_ind _ _ _ _ M)|].
    intros Hz. destruct (Z.lt_ge_cases 12 n); [done|]. by destruct Hz; apply (fm_no_ind _ _ _ _ M). }
  split.
  - intros [[Hlt ->]|(k & Hk & ->)]; [right; split; [by apply Hind|by right]|].
    destruct (Z.lt_ge_cases k 12) as [Hlt|Hge].
    + left. split; [|by apply Hnz]. exists k. split; [done|]. apply elem_of_seqZ. lia.
    + right. assert (i_block_at i 12 <> 0) as Hi by (apply Hind; lia). split; [done|]. left.
      split; [|by apply Hnz]. rewrite indirect_ptrs by done. apply list_elem_of_fmap.
      exists (k - 12). split; [f_equal; lia|]. apply elem_of_seqZ. lia.
  - assert (forall k, 0 <= k < 12 + fs_block_size fs / 4 -> fptr v i k <> 0 -> map_owns v i n (fptr v i k)) as Hk.
    { intros k Hk Hz. right. exists k. split; [|done]. destruct (Z.lt_ge_cases k n); [lia|].
      destruct Hz. apply (fm_hole _ _ _ _ M). unfold map_reach. lia. }
    intros [[(k & -> & Hs%elem_of_seqZ) Hz]|[Hi [[Hin Hz]|<-]]].
    + apply Hk; [lia|done].
    + rewrite indirect_ptrs in Hin by done. apply list_elem_of_fmap in Hin as (k & -> & Hs%elem_of_seqZ).
      apply Hk; [lia|done].
    + left. split; [by apply Hind|done].
Qed.

Lemma ext2_inode_free_all_blocks_run d s v i n :
  fs_inv d s v -> file_map (e_fs s) v i n ->
  run (ext2_inode_free_all_blocks i) s (fun r s' => r = cleared i /\ same_env s s' /\
    exists v', fs_inv d s' v' /\ vol_shrink (map_owns v i n) (e_fs s) v (e_fs s') v').
Proof.
  intros I M. destruct (fi_bs _ _ _ I) as [Hspb Hbs]. pose proof (fm_wf _ _ _ _ M) as Hw.
  assert (forall b, b <> 0 -> map_owns v i n b -> b = 0 \/ data_block (e_fs s) b) as Hd.
  { intros b _ Ho. right. by apply (owned_data _ _ _ _ _ M). }
  pose proof (fun b => owned_listed _ _ _ _ b M ltac:(lia)) as HX.
  unfold ext2_inode_free_all_blocks.
  run_step free_ptrs_run as (E1 & v1 & I1 & S1); [done| |].
  { apply Forall_forall. intros b Hb. destruct (decide (b = 0)); [by left|].
    apply Hd; [done|]. apply HX. left. done. }
  pose proof (vs_counters _ _ _ _ _ S1) as C1.
  apply run_bind. case Z.eqb_spec; intros Hi.
  { apply run_ret, run_ret. split; [done|]. split; [done|]. exists v1. split; [done|].
    eapply vol_shrink_ext, S1. intros b. rewrite HX. tauto. }
  assert (data_block (e_fs s) (i_block_at i 12)) as Di.
  { eapply owned_data; [exact M|]. apply HX. by right; split; [|right]. }
  assert (fs_block_size (e_fs s') = fs_block_size (e_fs s)) as Ebs by (by rewrite (co_eq _ _ C1)).
  apply run_bind, run_gets.
  run_step read_block_copy_run as (-> & I2 & F2 & E2); [apply I1|by eapply counters_data, Di|].
  assert (fs_inv d s'0 v1) as FI2 by (split; [done|rewrite F2; apply I1..]).
  rewrite (vs_keep _ _ _ _ _ S1), Ebs by done.
  run_step free_ptrs_run as (E3 & v3 & I3 & S3); [done| |].
  { apply Forall_forall. intros b Hb. destruct (decide (b = 0)); [by left|]. right. rewrite F2.
    eapply counters_data; [exact C1|]. eapply owned_data; [exact M|]. apply HX. right. split; [done|]. by left. }
  rewrite F2 in S3. pose proof (vs_counters _ _ _ _ _ S3) as C3.
  run_last free_block_shrink as (E4 & v4 & I4 & S4);
    [done|by eapply counters_data, counters_data, Di|].
  apply run_ret. split; [done|]. split.
  { etransitivity; [exact E1|]. etransitivity; [exact E2|]. by etransitivity; [exact E3|]. }
  exists v4. split; [done|].
  eapply vol_shrink_ext; [|eapply vol_shrink_trans; [| |exact S1|eapply vol_shrink_trans; [| |exact S3|exact S4]]].
  - intros b. rewrite HX. tauto.
  - apply listed_dec.
  - intros b. destruct (listed_dec (block_ptrs (v_blk v (i_block_at i 12)) (fs_block_size (e_fs s) / 4)) b),
      (decide (i_block_at i 12 = b)); tauto.
  - apply listed_dec.
  - intros b. destruct (decide (i_block_at i 12 = b)); tauto.
Qed.
End FreeAll.
