(* ===== verification/Ext2Dirs.v ===== *)
(** * EXT2 directories as finite maps

    A directory whose blocks are well-formed ([dir_rep]) is a finite map from
    names to inode numbers and types.  [ext2_dir_lookup], [ext2_dir_insert]
    and [ext2_dir_remove] of fs/ext2/dir.c (modelled in Ext2Dir.v) refine
    lookup, insert and delete on that map, over any number of blocks, and
    leave every other inode and every other block in use alone.  Paths are
    resolved as walks through a tree of such maps. *)

From S2P Require Import Prelude Machine VfsTypes Ext2Layout Ext2Block Ext2Super Ext2Inode.
From S2P Require Import Ext2Alloc Ext2Inodes Ext2File Ext2Dir Ext2Dents Ext2Write.
From S2P Require Import Ext2Files Ext2Store.

(** ** A directory as a finite map *)

Abbreviation dmap := (gmap (list Z) (Z * Z)).

(** Block [k] of the directory holds the entries [Ms !! k]. *)
Record dir_blocks (fs : ext2_fs) (v : vol) (i : ext2_inode) (Ms : list dmap) : Prop := {
  db_map : file_map fs v i (Z.of_nat (length Ms));
  db_size : i_size i = Z.of_nat (length Ms) * fs_block_size fs;
  db_reach : Z.of_nat (length Ms) <= iter_reach fs;
  db_dir : inode_is EXT2_S_IFDIR i = true;
  db_blk k m : Ms !! k = Some m ->
    dir_block_map (fs_block_size fs) (v_blk v (fptr v i (Z.of_nat k))) m;
  db_disj j k m m' : Ms !! j = Some m -> Ms !! k = Some m' -> j <> k -> m ##ₘ m';
}.

Definition dir_rep (fs : ext2_fs) (v : vol) (i : ext2_inode) (M : dmap) : Prop :=
  exists Ms, dir_blocks fs v i Ms /\ M = ⋃ Ms.

Section Maps.
Implicit Types (Ms : list dmap) (name : list Z).

Lemma union_cons m Ms : ⋃ (m :: Ms) = m ∪ ⋃ Ms.
Proof. done. Qed.

Lemma union_app Ms Ms' : ⋃ (Ms ++ Ms') = ⋃ Ms ∪ ⋃ Ms'.
Proof.
  induction Ms as [|m Ms IH]; cbn [app]; rewrite ?union_cons.
  - symmetry. apply (left_id_L ∅ (∪)).
  - by rewrite IH, (assoc_L (∪)).
Qed.

Lemma union_None Ms name : (⋃ Ms) !! name = None <-> forall k m, Ms !! k = Some m -> m !! name = None.
Proof.
  induction Ms as [|m Ms IH].
  - split; [by intros _ [|]|done].
  - rewrite union_cons, lookup_union_None, IH. split.
    + intros [Hm Hk] [|k] m' Hl; simpl in Hl; [by injection Hl as <-|by eapply Hk].
    + intros Hk. split; [by apply (Hk 0%nat)|]. intros k m' Hl. by apply (Hk (S k)).
Qed.

Lemma union_insert Ms k m name x :
  Ms !! k = Some m -> (⋃ Ms) !! name = None ->
  ⋃ (<[k := <[name := x]> m]> Ms) = <[name := x]> (⋃ Ms).
Proof.
  revert k. induction Ms as [|m0 Ms IH]; intros [|k] Hk HN; try done;
    cbn [insert list_insert] in *; rewrite !union_cons in *.
  - injection Hk as ->. by rewrite insert_union_l.
  - apply lookup_union_None in HN as [H0 H1]. rewrite IH by done. by rewrite insert_union_r.
Qed.

Lemma union_delete Ms k m name :
  Ms !! k = Some m -> (forall j m', Ms !! j = Some m' -> j <> k -> m' !! name = None) ->
  ⋃ (<[k := delete name m]> Ms) = delete name (⋃ Ms).
Proof.
  revert k. induction Ms as [|m0 Ms IH]; intros [|k] Hk HN; try done;
    cbn [insert list_insert] in *; rewrite !union_cons in *.
  - injection Hk as ->. rewrite delete_union, (delete_id (⋃ Ms)); [done|].
    apply union_None. intros j m' Hj. by apply (HN (S j)).
  - rewrite IH; [|done|]. 
    + rewrite delete_union, (delete_id m0); [done|]. by apply (HN 0%nat).
    + intros j m' Hj Hne. apply (HN (S j)); [done|congruence].
Qed.

Lemma union_snoc Ms name x : (⋃ Ms) !! name = None ->
  ⋃ (Ms ++ [{[name := x]}]) = <[name := x]> (⋃ Ms).
Proof.
  intros HN. rewrite union_app, union_cons.
  change (⋃ (@nil dmap)) with (∅ : dmap). rewrite (right_id_L ∅ _).
  rewrite map_union_comm by (by apply map_disjoint_singleton_r). symmetry. apply insert_union_singleton_l.
Qed.

Lemma dir_block_map_nonzero bs buf m name x : dir_block_map bs buf m -> m !! name = Some x -> x.1 <> 0.
Proof.
  intros (l & (Hok & _) & _ & <-) Hx. unfold dir_map in Hx.
  apply elem_of_list_to_map_2, list_elem_of_omap in Hx as (e & He & Hl).
  unfold en_live in Hl. destruct (Z.eqb_spec (en_ino e) 0); [done|]. simpl in Hl.
  by injection Hl as _ <-.
Qed.
End Maps.

(** ** Lookup *)

(** [lookup_in_block] on a volume. *)
Definition lookup_fold (fs : ext2_fs) (v : vol) (name : list Z) (b found : Z) : Z * Z :=
  if b =? 0 then (0, found) else
  match find_entry (fs_block_size fs) (v_blk v b) name with
  | Some ino => (1, ino)
  | None => (0, found)
  end.

Section LookupFold.
Context (fs : ext2_fs) (v : vol) (name : list Z).
Context (Hbs : 0 < fs_block_size fs) (Hname : Z.of_nat (length name) <= 255).
Local Abbreviation bs := (fs_block_size fs).

Definition lookup_answer (Ms : list dmap) (r : Z * Z) : Prop :=
  match (⋃ Ms) !! name with Some x => r = (1, x.1) | None => r = (0, 0) end.

Lemma lookup_fold_ptrs ptrs : forall Ms rem,
  (length Ms <= length ptrs)%nat -> bs * Z.of_nat (length Ms) <= rem ->
  (bs * Z.of_nat (length Ms) < rem -> length ptrs = length Ms) ->
  (forall k m, Ms !! k = Some m -> exists p, ptrs !! k = Some p /\ p <> 0 /\ dir_block_map bs (v_blk v p) m) ->
  let '(r, rem', c) := fold_ptrs (lookup_fold fs v name) bs ptrs rem 0 in
  lookup_answer Ms (r, c) /\ (r = 0 -> rem' = rem - bs * Z.of_nat (length Ms)).
Proof.
  induction ptrs as [|p ptrs IH]; intros [|m Ms] rem Hl Hrem Hlong HM; simpl in Hl; try lia; cbn [fold_ptrs].
  - split; [done|]. intros _. simpl. lia.
  - case Z.eqb_spec; intros Hz; [split; [done|]; intros _; simpl; lia|]. simpl in *. lia.
  - cbn [length] in *. case Z.eqb_spec; intros Hz; [lia|].
    destruct (HM 0%nat m eq_refl) as (p' & [= <-] & Hp0 & Hm).
    unfold lookup_fold at 1. rewrite (find_entry_map _ _ _ _ Hm Hname).
    rewrite (proj2 (Z.eqb_neq p 0)) by done. unfold lookup_answer. cbn [union_list foldr].
    destruct (m !! name) as [x|] eqn:Ex.
    + cbn. change (foldr union ∅ Ms) with (⋃ Ms). by rewrite lookup_union, Ex, union_Some_l.
    + cbn [fmap option_fmap option_map negb Z.eqb].
      replace (if rem <? bs then rem else bs) with bs by (case Z.ltb_spec; lia).
      specialize (IH Ms (rem - bs) ltac:(lia) ltac:(lia) ltac:(lia)).
      destruct (fold_ptrs _ _ _ _ _) as [[r rem'] c].
      destruct IH as [IH1 IH2]; [intros k m' Hk; by apply (HM (S k))|].
      unfold lookup_answer in IH1. change (foldr union ∅ Ms) with (⋃ Ms).
      rewrite lookup_union, Ex, (left_id_L None _). split; [done|]. intros Hr. rewrite IH2 by done. lia.
Qed.
End LookupFold.

Section DirLookup.
Context {W : Type} `{MachineOk W}.
Abbreviation E := (ext2 W).
Implicit Types (s : E) (v : vol) (d : disk_device).

Lemma lookup_in_block_reader d v fs name :
  Z.of_nat (length name) <= 255 ->
  reader d v fs (fun b => b = 0 \/ (blk_valid fs b /\ exists m, dir_block_map (fs_block_size fs) (v_blk v b) m))
    (lookup_fold fs v name) (lookup_in_block name).
Proof.
  intros Hn b c s Hb I F. unfold lookup_in_block, lookup_fold.
  case Z.eqb_spec; intros Hz; [by apply run_ret|].
  destruct Hb as [?|(V & m & Hm)]; [done|].
  apply run_bind, run_gets. rewrite F.
  run_step ext2_read_block_run as (p & -> & I1 & F1 & E1 & Hp); [done|by rewrite F|].
  apply run_bind, run_get.
  assert (find_entry (fs_block_size fs) (deref s' p) name = find_entry (fs_block_size fs) (v_blk v b) name) as ->.
  { rewrite F in Hp. rewrite (find_entry_map _ _ _ _ Hm Hn).
    rewrite <- (take_drop (Z.to_nat (fs_block_size fs)) (deref s' p)).
    apply (find_entry_tail _ _ m); [|done].
    rewrite <- Hp in Hm. exact Hm. }
  destruct (find_entry _ _ _); by apply run_ret.
Qed.

Lemma dir_blocks_ptr d s v i Ms k m :
  fs_inv d s v -> dir_blocks (e_fs s) v i Ms -> Ms !! k = Some m ->
  data_block (e_fs s) (fptr v i (Z.of_nat k)) /\ fptr v i (Z.of_nat k) <> 0.
Proof.
  intros I B Hk. apply lookup_lt_Some in Hk.
  destruct (fm_ptr _ _ _ _ (db_map _ _ _ _ B) (Z.of_nat k)) as [D _]; [lia|].
  split; [done|]. by eapply data_nonzero.
Qed.

(** The lookup over the whole block map. *)
Lemma lookup_fold_file fs v i Ms name :
  0 < fs_block_size fs -> Z.of_nat (length name) <= 255 -> dir_blocks fs v i Ms ->
  lookup_answer name Ms (fold_file (lookup_fold fs v name) fs v i (i_size i) 0).
Proof.
  intros Hbs Hn B. pose proof (db_map _ _ _ _ B) as M. pose proof (fm_wf _ _ _ _ M) as Hw.
  pose proof (db_reach _ _ _ _ B) as Hr. unfold iter_reach in Hr.
  assert (forall k m, Ms !! k = Some m -> fptr v i (Z.of_nat k) <> 0 /\
    dir_block_map (fs_block_size fs) (v_blk v (fptr v i (Z.of_nat k))) m) as HM.
  { intros k m Hk. split; [|by apply B]. apply lookup_lt_Some in Hk. eapply data_nonzero.
    apply (fm_ptr _ _ _ _ M). lia. }
  unfold fold_file. rewrite (db_size _ _ _ _ B).
  set (bs := fs_block_size fs) in *. set (n := length Ms) in *.
  assert (length (take 12 (i_block i)) = 12%nat) as H12.
  { destruct Hw as (H15 & _). rewrite length_take. lia. }
  pose proof (lookup_fold_ptrs fs v name Hbs Hn (take 12 (i_block i)) (take 12 Ms) (Z.of_nat n * bs)) as HF.
  assert (length (take 12 Ms) = n `min` 12)%nat as Hlt by (rewrite length_take; fold n; lia).
  rewrite Hlt in HF. specialize (HF ltac:(lia) ltac:(fold bs; nia) ltac:(fold bs; nia)).
  fold bs in HF. destruct (fold_ptrs _ _ _ _ _) as [[r rem'] c].
  destruct HF as [HA Hrem].
  { intros k m Hk. assert (k < 12)%nat as Hk12 by (apply lookup_lt_Some in Hk; lia).
    rewrite lookup_take_lt in Hk by done. exists (fptr v i (Z.of_nat k)).
    split; [by apply direct_lookup|by apply HM]. }
  unfold lookup_answer in *. rewrite <- (take_drop 12 Ms).
  rewrite union_app, lookup_union.
  destruct ((⋃ take 12 Ms) !! name) as [x|] eqn:Ex.
  { injection HA as -> ->. cbn [negb Z.eqb]. by rewrite union_Some_l. }
  injection HA as -> ->. specialize (Hrem eq_refl). cbn [negb Z.eqb]. rewrite (left_id_L None _).
  destruct (decide (n <= 12)%nat) as [Hshort|Hlong].
  { rewrite Nat.min_l in Hrem by done. assert (rem' = 0) as -> by (rewrite Hrem; ring). cbn [orb Z.eqb].
    assert (drop 12 Ms = []) as -> by (by apply drop_ge). done. }
  rewrite Nat.min_r in Hrem by lia. rewrite (proj2 (Z.eqb_neq rem' 0)) by nia. cbn [orb].
  assert (i_block_at i 12 <> 0) as Hi by (eapply data_nonzero; apply (fm_ind _ _ _ _ M); lia).
  case Z.eqb_spec; [done|intros _].
  pose proof (lookup_fold_ptrs fs v name Hbs Hn
    (block_ptrs (v_blk v (i_block_at i 12)) ((bs / 4) `min` 256)) (drop 12 Ms) rem') as HF.
  assert (length (drop 12 Ms) = n - 12)%nat as Hld by (rewrite length_drop; fold n; lia).
  rewrite Hld, length_block_ptrs in HF. fold bs in HF.
  specialize (HF ltac:(lia) ltac:(nia) ltac:(nia)).
  destruct (fold_ptrs _ _ _ _ _) as [[r2 rem2] c2]. apply HF.
  intros k m Hk. assert (k < n - 12)%nat as Hk12 by (apply lookup_lt_Some in Hk; lia).
  rewrite lookup_drop in Hk. exists (fptr v i (12 + Z.of_nat k)).
  split; [apply indirect_lookup; [done|lia]|].
  replace (12 + Z.of_nat k) with (Z.of_nat (12 + k)) by lia. by apply HM.
Qed.

Lemma ext2_dir_lookup_run d s v dino name M :
  fs_inv d s v -> ino_in (e_fs s) dino -> dir_rep (e_fs s) v (vino (e_fs s) v dino) M ->
  Z.of_nat (length name) <= 255 ->
  run (ext2_dir_lookup dino name) s (fun r s' => r = fst <$> M !! name /\ reads d v s s').
Proof.
  intros I Hino (Ms & B & ->) Hn. destruct (fi_bs _ _ _ I) as [Hspb Hbs].
  unfold ext2_dir_lookup.
  run_step ext2_read_inode_run as (-> & Hw & I1 & F1 & E1); [done|done|].
  remember (vino (e_fs s) v dino) as i eqn:Ei. rewrite (db_dir _ _ _ _ B). cbn [negb].
  assert (reads d v s s') as R1 by done.
  pose proof (lookup_fold_file (e_fs s) v i Ms name ltac:(lia) Hn B) as HA.
  pose proof (db_map _ _ _ _ B) as M. pose proof (db_reach _ _ _ _ B) as Hr.
  eapply run_bind, run_mono.
  - apply (ext2_iter_blocks_run d s' v (fun b => b = 0 \/ (blk_valid (e_fs s) b /\
      exists m, dir_block_map (fs_block_size (e_fs s)) (v_blk v b) m)) (lookup_fold (e_fs s) v name)).
    + done.
    + done.
    + rewrite (db_size _ _ _ _ B). lia.
    + rewrite F1. lia.
    + rewrite F1. by apply lookup_in_block_reader.
    + rewrite F1, (db_size _ _ _ _ B). intros k Hk Hlt. right.
      assert (k < Z.of_nat (length Ms)) as Hk' by nia.
      destruct (fm_ptr _ _ _ _ M k) as [(_ & V & _) _]; [lia|]. split; [done|].
      destruct (lookup_lt_is_Some_2 Ms (Z.to_nat k)) as [m Hm]; [lia|]. exists m.
      pose proof (db_blk _ _ _ _ B _ _ Hm) as Hb. by rewrite Z2Nat.id in Hb by lia.
    + rewrite F1, (db_size _ _ _ _ B). intros Hlt. right.
      destruct (fm_ind _ _ _ _ M) as ((_ & V & _) & _); [nia|done].
  - intros r s2 [-> R2]. rewrite F1. destruct (fold_file _ _ _ _ _ _) as [r c].
    apply run_ret. split; [|by eapply reads_trans].
    unfold lookup_answer in HA. destruct ((⋃ Ms) !! name) as [x|] eqn:Ex; injection HA as -> ->; [|done].
    simpl. rewrite (proj2 (Z.eqb_neq _ 0)); [done|].
    assert (exists k m, Ms !! k = Some m /\ m !! name = Some x) as (k & m & Hk & Hm).
    { clear -Ex. induction Ms as [|m Ms IH]; [done|]. rewrite union_cons in Ex.
      apply lookup_union_Some_raw in Ex as [?|[_ Hx]]; [by exists 0%nat, m|].
      destruct (IH Hx) as (k & m' & ? & ?). by exists (S k), m'. }
    eapply dir_block_map_nonzero; [by apply B|done].
Qed.
End DirLookup.

(** ** Editing a directory *)

Lemma dir_block_map_bytes bs buf m : dir_block_map bs buf m ->
  bytes_ok buf /\ Z.of_nat (length buf) = bs.
Proof.
  intros (l & (Hok & -> & Hs) & _). split; [|done]. clear Hs.
  induction Hok as [|e l He _ IH]; [constructor|]. rewrite dents_bytes_cons.
  apply Forall_app_2; [by apply dent_bytes_ok|done].
Qed.

Section DirEdit.
Context {W : Type} `{MachineOk W}.
Abbreviation E := (ext2 W).
Implicit Types (s : E) (v : vol) (d : disk_device) (i : ext2_inode).

Lemma inode_block_at_run d s v i n k :
  fs_inv d s v -> file_map (e_fs s) v i n -> 0 <= k < n ->
  run (inode_block_at i k) s (fun r s' => r = fptr v i k /\ reads d v s s').
Proof.
  intros I M Hk. pose proof (fm_n _ _ _ _ M) as Hn. pose proof (fi_vinv _ _ _ I) as Iv.
  unfold inode_block_at, fptr. case Z.ltb_spec; intros Hlt; [by apply run_ret|].
  destruct (fm_ind _ _ _ _ M) as (D & _); [lia|].
  rewrite (proj2 (Z.eqb_neq _ 0)) by (by eapply data_nonzero).
  apply run_bind, run_gets. unfold map_reach in Hn. case Z.leb_spec; intros Hq; [lia|].
  run_step read_block_copy_run as (-> & I1 & F1 & E1); [done|apply D|].
  apply run_ret. split; [|done]. f_equal. lia.
Qed.

(** Writing a block other than the indirect one keeps the map. *)
Lemma file_map_vset fs v i n p buf :
  layout_ok fs -> file_map fs v i n -> data_block fs p -> (12 < n -> p <> i_block_at i 12) ->
  file_map fs (vset p buf v) i n /\ (forall j, fptr (vset p buf v) i j = fptr v i j).
Proof.
  intros L M D Hne.
  assert (forall j, fptr (vset p buf v) i j = fptr v i j) as Hp.
  { intros j. apply fptr_ext. intros _ Hz. cbn [vset v_blk]. rewrite decide_False; [done|]. intros Ep.
    destruct (Z.lt_ge_cases 12 n) as [Hlt|Hge]; [by apply Hne|by apply Hz, (fm_no_ind _ _ _ _ M)]. }
  split; [|done]. pose proof M as [M1 M2 M3 M4 M5 M6 M7]. split; try done.
  - intros j Hj. rewrite Hp, data_used by (done || by apply M3). by apply M3.
  - intros j Hj. rewrite Hp. by apply M4.
  - intros j j' Hj Hj'. rewrite !Hp. by apply M5.
  - intros Hlt. destruct (M6 Hlt) as (Di & Ui & Hn). split_and!; [done| |].
    + rewrite data_used; [done|done|done|apply Di].
    + intros j Hj. rewrite Hp. by apply Hn.
Qed.

(** Replacing the contents of block [k] of a directory. *)
Lemma dir_blocks_edit fs v i Ms k m buf m' :
  layout_ok fs -> dir_blocks fs v i Ms -> Ms !! k = Some m ->
  dir_block_map (fs_block_size fs) buf m' ->
  (forall j mj, Ms !! j = Some mj -> j <> k -> mj ##ₘ m') ->
  dir_blocks fs (vset (fptr v i (Z.of_nat k)) buf v) i (<[k := m']> Ms).
Proof.
  intros L B Hk Hm Hd. set (p := fptr v i (Z.of_nat k)).
  pose proof (db_map _ _ _ _ B) as M. pose proof (lookup_lt_Some _ _ _ Hk) as Hkn.
  destruct (fm_ptr _ _ _ _ M (Z.of_nat k)) as [D U]; [lia|]. fold p in D, U.
  destruct (file_map_vset fs v i _ p buf L M D) as [M' Hp].
  { intros Hlt. apply (fm_ind _ _ _ _ M Hlt). lia. }
  split; rewrite ?length_insert;
    [done|apply (db_size _ _ _ _ B)|apply (db_reach _ _ _ _ B)|apply (db_dir _ _ _ _ B)|..].
  - intros j mj Hj. rewrite Hp. cbn [vset v_blk].
    apply list_lookup_insert_Some in Hj as [(-> & <- & _)|[Hne Hj]]; [by rewrite decide_True|].
    rewrite decide_False; [by apply (db_blk _ _ _ _ B)|]. intros Ep. apply Hne.
    apply lookup_lt_Some in Hj. apply (fm_inj _ _ _ _ M) in Ep; lia.
  - intros j1 j2 m1 m2 Hj1 Hj2 Hne.
    apply list_lookup_insert_Some in Hj1 as [(-> & <- & _)|[Hn1 Hj1]];
    apply list_lookup_insert_Some in Hj2 as [(-> & <- & _)|[Hn2 Hj2]]; try done.
    + symmetry. by eapply Hd.
    + by eapply Hd.
    + by eapply (db_disj _ _ _ _ B).
Qed.

(** The loop over the blocks: the first block that [edit] changes is written. *)
Lemma edit_dir_blocks_run d v i Ms edit (done : state E Z) (Q : option Z -> E -> Prop) n :
  forall s b, fs_inv d s v -> dir_blocks (e_fs s) v i Ms -> b + Z.of_nat n = Z.of_nat (length Ms) -> 0 <= b ->
  (forall j m, Ms !! j = Some m -> Z.of_nat j < b -> edit (v_blk v (fptr v i (Z.of_nat j))) = None) ->
  (forall k m buf, Ms !! k = Some m -> edit (v_blk v (fptr v i (Z.of_nat k))) = Some buf ->
     bytes_ok buf /\ Z.of_nat (length buf) = fs_block_size (e_fs s) /\
     forall s', fs_inv d s' (vset (fptr v i (Z.of_nat k)) buf v) -> e_fs s' = e_fs s -> same_env s s' ->
       run done s' (fun rc s'' => Q (Some rc) s'')) ->
  (forall s', (forall k m, Ms !! k = Some m -> edit (v_blk v (fptr v i (Z.of_nat k))) = None) ->
     reads d v s s' -> Q None s') ->
  run (edit_dir_blocks n b i edit done) s Q.
Proof.
  induction n as [|n IH]; intros s b I B Hn Hb Hpre Hsome Hnone; cbn [edit_dir_blocks].
  { apply run_ret. apply Hnone.
    - intros k m Hk. apply (Hpre k m Hk). apply lookup_lt_Some in Hk. lia.
    - split_and!; [apply I|done..]. }
  destruct (lookup_lt_is_Some_2 Ms (Z.to_nat b)) as [m Hm]; [lia|].
  pose proof (fm_ptr _ _ _ _ (db_map _ _ _ _ B) b ltac:(lia)) as [D U].
  run_step inode_block_at_run as (-> & R1); [done|apply B|lia|].
  pose proof (reads_inv _ _ _ _ I R1) as I1. destruct R1 as (Iv1 & F1 & E1).
  rewrite (proj2 (Z.eqb_neq _ 0)) by (by eapply data_nonzero).
  run_step read_block_copy_run as (-> & I2 & F2 & E2); [done|rewrite F1; apply D|].
  assert (reads d v s s'0) as R2 by (split_and!; [done|congruence|by etransitivity]).
  pose proof (reads_inv _ _ _ _ I R2) as FI2. destruct R2 as (_ & F02 & E02).
  replace b with (Z.of_nat (Z.to_nat b)) by lia.
  destruct (edit _) as [buf|] eqn:Ee.
  - destruct (Hsome _ _ _ Hm Ee) as (Hok & Hl & Hdone).
    rewrite Z2Nat.id in * by lia.
    run_step write_data_run as (-> & I3 & F3 & E3); [done|by rewrite F02|done|rewrite F02; lia|].
    cbn [negb Z.eqb]. apply run_bind. eapply run_mono; [apply (Hdone s'1)|].
    + done.
    + congruence.
    + by etransitivity.
    + intros rc s4 Hq. by apply run_ret.
  - rewrite Z2Nat.id in * by lia. apply IH; [done|by rewrite F02|lia|lia| | |].
    + intros j mj Hj Hlt. destruct (Z.eq_dec (Z.of_nat j) b) as [<-|]; [|apply (Hpre j mj Hj); lia].
      done.
    + intros k mk buf Hk He. destruct (Hsome _ _ _ Hk He) as (? & ? & Hd). rewrite F02.
      split_and!; [done..|]. intros s3 I3 F3 E3. apply Hd; [done|congruence|by etransitivity].
    + intros s3 Hall R3. apply Hnone; [done|]. eapply reads_trans; [|exact R3]. split_and!; [apply FI2|done..].
Qed.
End DirEdit.

(** ** Writing the directory's inode *)

Definition touched (now : Z) (i : ext2_inode) : ext2_inode := set_i_mtime now (set_i_ctime now i).

Lemma touched_wf now i : is_u32 now -> inode_wf i -> inode_wf (touched now i).
Proof.
  intros Hn Hw. apply inode_wf_iff in Hw as (L1 & L2 & F1 & F2 & F3 & F4).
  apply inode_wf_iff. cbn. split_and!; try done.
  do 12 (apply Forall2_cons in F1 as [? F1]). by repeat (apply Forall2_cons_2; [done|]).
Qed.

Lemma set_size_wf n i : is_u32 n -> inode_wf i -> inode_wf (set_i_size n i).
Proof.
  intros Hn Hw. apply inode_wf_iff in Hw as (L1 & L2 & F1 & F2 & F3 & F4).
  apply inode_wf_iff. cbn. split_and!; try done.
  do 12 (apply Forall2_cons in F1 as [? F1]). by repeat (apply Forall2_cons_2; [done|]).
Qed.

Lemma dir_blocks_frame P X fs v fs' v' i Ms :
  dir_blocks fs v i Ms -> vol_frame P X fs v fs' v' ->
  (forall b, map_owns v i (Z.of_nat (length Ms)) b -> ~ X b) -> dir_blocks fs' v' i Ms.
Proof.
  intros B G HX. pose proof (fr_counters _ _ _ _ _ _ G) as C.
  destruct (file_map_frame _ _ _ _ _ _ _ _ (db_map _ _ _ _ B) G HX) as [M' Hp].
  assert (fs_block_size fs' = fs_block_size fs /\ iter_reach fs' = iter_reach fs) as [Eb Er]
    by (by rewrite (co_eq _ _ C)).
  destruct B as [B1 B2 B3 B4 B5 B6]. split; rewrite ?Eb, ?Er; try done.
  intros k m Hk. pose proof (lookup_lt_Some _ _ _ Hk). rewrite Hp.
  destruct (fm_ptr _ _ _ _ B1 (Z.of_nat k)) as [D U]; [lia|].
  rewrite (fr_keep _ _ _ _ _ _ G); [by apply B5|done|done|]. apply HX. right. exists (Z.of_nat k). split; [lia|done].
Qed.

Lemma dir_blocks_attrs fs v i i' Ms :
  dir_blocks fs v i Ms -> inode_wf i' -> i_block i' = i_block i -> i_size i' = i_size i ->
  i_mode i' = i_mode i -> dir_blocks fs v i' Ms.
Proof.
  intros [B1 B2 B3 B4 B5 B6] Hw Eb Es Em.
  destruct (file_map_attrs _ _ _ _ _ B1 Hw Eb) as [M' Hp]. split; rewrite ?Es; try done.
  - unfold inode_is in *. by rewrite Em.
  - intros k m Hk. rewrite Hp. by apply B5.
Qed.

Section DirWrite.
Context {W : Type} `{MachineOk W}.
Abbreviation E := (ext2 W).
Implicit Types (s : E) (v : vol) (d : disk_device) (i : ext2_inode) (dino : Z).

(** What a change of the directory [dino] to [M'] leaves behind. *)
Definition dir_updated d s v dino (M' : dmap) s' : Prop :=
  exists v', fs_inv d s' v' /\ dir_rep (e_fs s') v' (vino (e_fs s') v' dino) M' /\
    let i := vino (e_fs s) v dino in
    vol_frame (eq dino) (map_owns v i (i_size i / fs_block_size (e_fs s))) (e_fs s) v (e_fs s') v'.

Lemma touch_dir_run d s v dino i Ms :
  fs_inv d s v -> ino_in (e_fs s) dino -> dir_blocks (e_fs s) v i Ms ->
  run (touch_dir dino i) s (fun rc s' => rc = 0 /\ same_env s s' /\ exists v', fs_inv d s' v' /\
    dir_rep (e_fs s') v' (vino (e_fs s') v' dino) (⋃ Ms) /\
    vol_frame (eq dino) (fun _ => False) (e_fs s) v (e_fs s') v').
Proof.
  intros I Hino B. destruct (fi_bs _ _ _ I) as [Hspb Hbs]. pose proof I as [Iv L O].
  pose proof (fm_wf _ _ _ _ (db_map _ _ _ _ B)) as Hw.
  unfold touch_dir.
  run_step (lift_w_reads d v) as (-> & R1); [done|apply time_now_quiet|].
  pose proof (time_now_range (e_w s)) as Hnow. set (now := (time_now (e_w s)).1) in *. clearbody now.
  pose proof (reads_inv _ _ _ _ I R1) as I1. destruct R1 as (_ & F1 & E1).
  assert (inode_wf (touched now i)) as Hw' by (by apply touched_wf).
  run_last ext2_write_inode_run as (-> & F2 & E2 & I2); [done|by rewrite F1|done|].
  split; [done|]. split; [by etransitivity|]. eexists. split; [exact I2|]. rewrite F2, F1.
  fold (touched now i). pose proof (vset_ino_frame (e_fs s) v dino _ L Hspb Hbs Hino Hw') as G.
  split; [|done]. rewrite vino_set_same by (done || (intros; by eapply fi_len)).
  exists Ms. split; [|done]. apply (dir_blocks_attrs _ _ i); [|done..].
  eapply dir_blocks_frame; [exact B|exact G|]. tauto.
Qed.

(** Writing block [k] and touching the inode. *)
Lemma edit_and_touch d s v dino i Ms k m buf m' s1 :
  fs_inv d s v -> ino_in (e_fs s) dino -> vino (e_fs s) v dino = i -> dir_blocks (e_fs s) v i Ms ->
  Ms !! k = Some m -> dir_block_map (fs_block_size (e_fs s)) buf m' ->
  (forall j mj, Ms !! j = Some mj -> j <> k -> mj ##ₘ m') ->
  fs_inv d s1 (vset (fptr v i (Z.of_nat k)) buf v) -> e_fs s1 = e_fs s -> same_env s s1 ->
  run (touch_dir dino i) s1 (fun rc s' => rc = 0 /\ same_env s s' /\
    dir_updated d s v dino (⋃ (<[k := m']> Ms)) s').
Proof.
  intros I Hino Hi B Hk Hm Hd I1 F1 E1. destruct (fi_bs _ _ _ I) as [Hspb Hbs]. pose proof I as [Iv L O].
  pose proof (dir_blocks_edit _ _ _ _ _ _ _ _ L B Hk Hm Hd) as B1.
  pose proof (lookup_lt_Some _ _ _ Hk) as Hkn.
  destruct (fm_ptr _ _ _ _ (db_map _ _ _ _ B) (Z.of_nat k)) as [D U]; [lia|].
  run_last touch_dir_run as (-> & E2 & v2 & I2 & R2 & G2); [done|by rewrite F1|by rewrite F1|].
  split; [done|]. split; [by etransitivity|]. exists v2. split; [done|]. split; [done|]. cbv zeta.
  rewrite Hi. rewrite F1 in G2.
  replace (i_size i / fs_block_size (e_fs s)) with (Z.of_nat (length Ms))
    by (rewrite (db_size _ _ _ _ B), Z.div_mul; lia).
  eapply vol_frame_trans; [|eapply vol_frame_weaken, G2; tauto].
  eapply vol_frame_weaken; [| |apply grow_frame, vset_grow]; try done.
  intros b _ _ <-. right. exists (Z.of_nat k). split; [lia|done].
Qed.
End DirWrite.

(** The block of a directory that has just grown. *)
Lemma fresh_dir_block_map bs name ino ft :
  8 + Z.of_nat (length name) + 3 < bs -> bs mod 4 = 0 -> bs < 65536 ->
  is_u32 ino -> ino <> 0 -> is_u8 ft -> bytes_ok name -> Z.of_nat (length name) <= 255 ->
  dir_block_map bs (fresh_dir_block bs name ino ft) {[name := (ino, ft)]}.
Proof.
  intros Hl Hm Hb Hi Hz Hf Hn Hn'.
  destruct (room_spec (Z.of_nat (length name))) as [[_ Hroom] _]; [lia..|].
  set (e := fill_dent ino ft name (zeros (bs - 8))).
  assert (length (zeros (bs - 8)) = Z.to_nat (bs - 8)) as Hlz by apply length_zeros.
  assert (en_rec e = bs) as Hrec.
  { unfold en_rec, DIRENT_SIZE, e. cbn [fill_dent en_body]. rewrite length_put, Hlz. lia. }
  exists [e]. assert (live [e] = [(name, (ino, ft))]) as Hlive.
  { apply fill_dent_live; [done|done|]. lia. }
  unfold dir_block. split_and!.
  - constructor; [|constructor]. apply fill_dent_ok; try done; [apply zeros_ok|lia|].
    replace (8 + _) with bs by lia. done.
  - unfold dents_bytes, fresh_dir_block. simpl. rewrite app_nil_r.
    assert (zeros bs = [] ++ zeros 4 ++ zeros 2 ++ [0; 0] ++ zeros (bs - 8) ++ []) as ->.
    { rewrite app_nil_r. unfold zeros. change [0; 0] with (replicate 2 0).
      cbn [app]. rewrite <- !replicate_add. f_equal. lia. }
    change 0 with (Z.of_nat (length (@nil Z))) at 2.
    rewrite put_dirent_at by (rewrite ?Hlz; done || lia).
    unfold dent_bytes. rewrite Hrec. unfold e. cbn [fill_dent en_ino en_nlen en_ft en_body app].
    rewrite app_nil_r. unfold u8, u16. rewrite !Z.mod_small by lia. done.
  - rewrite dents_size_cons, Hrec. change (dents_size []) with 0. lia.
  - unfold dir_names. rewrite Hlive. apply NoDup_singleton.
  - unfold dir_map. rewrite Hlive. done.
Qed.

Section DirOps.
Context {W : Type} `{MachineOk W}.
Abbreviation E := (ext2 W).
Implicit Types (s : E) (v : vol) (d : disk_device) (i : ext2_inode) (dino : Z).

Lemma dir_blocks_count d s v i Ms : fs_inv d s v -> dir_blocks (e_fs s) v i Ms ->
  i_size i / fs_block_size (e_fs s) = Z.of_nat (length Ms).
Proof.
  intros I B. destruct (fi_bs _ _ _ I) as [Hspb Hbs]. rewrite (db_size _ _ _ _ B), Z.div_mul; lia.
Qed.

Lemma ext2_dir_remove_run d s v dino name M :
  fs_inv d s v -> ino_in (e_fs s) dino -> dir_rep (e_fs s) v (vino (e_fs s) v dino) M ->
  Z.of_nat (length name) <= 255 ->
  run (ext2_dir_remove dino name) s (fun rc s' => same_env s s' /\
    match M !! name with
    | Some _ => rc = 0 /\ dir_updated d s v dino (delete name M) s'
    | None => rc = -1 /\ reads d v s s'
    end).
Proof.
  intros I Hino (Ms & B & ->) Hn. destruct (fi_bs _ _ _ I) as [Hspb Hbs].
  unfold ext2_dir_remove. apply run_bind, run_gets.
  run_step ext2_read_inode_run as (-> & Hw & I1 & F1 & E1); [done|done|].
  remember (vino (e_fs s) v dino) as i eqn:Ei.
  assert (reads d v s s') as R1 by done. pose proof (reads_inv _ _ _ _ I R1) as FI1.
  rewrite (dir_blocks_count _ _ _ _ _ I B). rewrite Nat2Z.id.
  assert (forall k m, Ms !! k = Some m -> forall buf,
    remove_in_block (fs_block_size (e_fs s)) (v_blk v (fptr v i (Z.of_nat k))) name = Some buf ->
    is_Some (m !! name) /\ dir_block_map (fs_block_size (e_fs s)) buf (delete name m)) as Hrem.
  { intros k m Hk buf Hb.
    pose proof (remove_in_block_map _ _ _ name (db_blk _ _ _ _ B _ _ Hk) ltac:(lia) Hn) as Hr.
    by rewrite Hb in Hr. }
  assert (forall k m, Ms !! k = Some m -> is_Some (m !! name) ->
    forall j mj, Ms !! j = Some mj -> j <> k -> mj !! name = None) as Honly.
  { intros k m Hk [x Hx] j mj Hj Hne. pose proof (db_disj _ _ _ _ B _ _ _ _ Hj Hk Hne) as Hd.
    by eapply map_disjoint_Some_l. }
  apply run_bind. eapply edit_dir_blocks_run; [exact FI1|by rewrite F1|done|done|lia| |].
  - intros k m buf Hk Hb. destruct (Hrem _ _ Hk _ Hb) as [Hs Hm].
    destruct (dir_block_map_bytes _ _ _ Hm) as [Hok Hl]. rewrite F1. split_and!; [done..|].
    intros s2 I2 F2 E2. run_last edit_and_touch as (-> & E3 & HU);
      [exact I|done|by symmetry|done|done|done| |exact I2|congruence|by etransitivity|].
    { intros j mj Hj Hne. apply map_disjoint_delete_r. by eapply (db_disj _ _ _ _ B). }
    apply run_ret. split; [done|]. cbn [default].
    assert (is_Some ((⋃ Ms) !! name)) as [x ->].
    { destruct ((⋃ Ms) !! name) eqn:En; [done|]. rewrite union_None in En. rewrite (En _ _ Hk) in Hs.
      by destruct Hs. }
    split; [done|]. rewrite <- (union_delete Ms k m name Hk); [done|]. by eapply Honly.
  - intros s2 Hall R2. apply run_ret. assert (reads d v s s2) as R by (by eapply reads_trans).
    split; [apply R|].
    assert ((⋃ Ms) !! name = None) as ->; [|done]. apply union_None. intros k m Hk.
    pose proof (remove_in_block_map _ _ _ name (db_blk _ _ _ _ B _ _ Hk) ltac:(lia) Hn) as Hr.
    by rewrite (Hall _ _ Hk) in Hr.
Qed.

(** Outcome of [ext2_dir_insert]. *)
Definition insert_result d s v dino (M' : dmap) (rc : Z) s' : Prop :=
  same_env s s' /\
  ((rc = 0 /\ dir_updated d s v dino M' s') \/
   (rc = -1 /\ exists v', fs_inv d s' v' /\
      vol_frame (fun _ => False) (fun _ => False) (e_fs s) v (e_fs s') v' /\ volume_full (e_fs s') v')).

(** Growing the directory by a block that holds only the new entry. *)
Definition grow_dir (dino : Z) (dir : ext2_inode) (nblocks bs : Z) (name : list Z) (ino ft : Z) : state E Z :=
  new_blk ← ext2_alloc_block;
  match new_blk with
  | None => mret (-1)
  | Some new_blk =>
      '(rc, dir) ← ext2_inode_add_block dir nblocks new_blk;
      if negb (rc =? 0) then mret (-1) else
      rc ← ext2_write_block new_blk (fresh_dir_block bs name ino ft);
      if negb (rc =? 0) then mret (-1) else
      touch_dir dino (set_i_size (u32 (i_size dir + bs)) dir)
  end.

Section Grow.
Context (d : disk_device) (s : E) (v : vol) (dino : Z) (i : ext2_inode) (Ms : list dmap).
Context (I : fs_inv d s v) (Hino : ino_in (e_fs s) dino) (Hi : vino (e_fs s) v dino = i).
Context (B : dir_blocks (e_fs s) v i Ms).
Local Abbreviation n := (Z.of_nat (length Ms)).
Local Abbreviation bs := (fs_block_size (e_fs s)).
Context (name : list Z) (ino ft : Z) (HN : (⋃ Ms) !! name = None).

(** The directory with one more block. *)
Lemma dir_blocks_snoc fs' v' i' x buf :
  counters_only (e_fs s) fs' -> file_map fs' v' i' (n + 1) -> n < iter_reach (e_fs s) ->
  (forall k, 0 <= k < map_reach (e_fs s) -> fptr v' i' k = if decide (k = n) then x else fptr v i k) ->
  (forall k, 0 <= k < n -> v_blk v' (fptr v i k) = v_blk v (fptr v i k)) ->
  v_blk v' x = buf -> dir_block_map bs buf {[name := (ino, ft)]} ->
  i_size i' = (n + 1) * bs -> i_mode i' = i_mode i ->
  dir_blocks fs' v' i' (Ms ++ [{[name := (ino, ft)]}]).
Proof using B HN.
  intros C M' Hr Hp Hkeep Hx Hbuf Hs Hm. pose proof (co_eq _ _ C) as EC.
  assert (fs_block_size fs' = bs /\ iter_reach fs' = iter_reach (e_fs s)) as [Eb Er] by (by rewrite EC).
  pose proof (fm_n _ _ _ _ (db_map _ _ _ _ B)) as Hn0.
  assert (Z.of_nat (length (Ms ++ [{[name := (ino, ft)]} : dmap])) = n + 1) as Hlen
    by (rewrite length_app; simpl; lia).
  assert (iter_reach (e_fs s) <= map_reach (e_fs s)) as Hir by (unfold iter_reach, map_reach; lia).
  split; rewrite ?Hlen, ?Eb, ?Er; try done.
  - lia.
  - unfold inode_is. rewrite Hm. apply (db_dir _ _ _ _ B).
  - intros k m Hk. apply lookup_app_Some in Hk as [Hk|[Hge Hk]].
    + pose proof (lookup_lt_Some _ _ _ Hk). rewrite Hp, decide_False by lia.
      rewrite Hkeep by lia. by apply (db_blk _ _ _ _ B).
    + apply list_lookup_singleton_Some in Hk as [Hk0 <-].
      rewrite Hp, decide_True by lia. by rewrite Hx.
  - assert (forall k m, Ms !! k = Some m -> m ##ₘ {[name := (ino, ft)]}) as Hd.
    { intros k m Hk. apply map_disjoint_singleton_r. by eapply union_None. }
    intros j k m m' Hj Hk Hne.
    apply lookup_app_Some in Hj as [Hj|[Hj1 Hj]]; apply lookup_app_Some in Hk as [Hk|[Hk1 Hk]].
    + by eapply (db_disj _ _ _ _ B).
    + apply list_lookup_singleton_Some in Hk as [_ <-]. by eapply Hd.
    + apply list_lookup_singleton_Some in Hj as [_ <-]. symmetry. by eapply Hd.
    + apply list_lookup_singleton_Some in Hj as [? _]. apply list_lookup_singleton_Some in Hk as [? _]. lia.
Qed.

Lemma grow_dir_run s0 :
  is_u32 ino -> ino <> 0 -> is_u8 ft -> bytes_ok name -> Z.of_nat (length name) <= 255 ->
  n < iter_reach (e_fs s) -> same_env s0 s -> e_fs s0 = e_fs s ->
  run (grow_dir dino i n bs name ino ft) s
    (insert_result d s0 v dino (<[name := (ino, ft)]> (⋃ Ms))).
Proof.
  intros Hino' Hnz Hft Hname Hlen Hr E0 F0. destruct (fi_bs _ _ _ I) as [Hspb Hbs]. pose proof I as [Iv L O].
  pose proof (db_map _ _ _ _ B) as M. pose proof (fm_n _ _ _ _ M) as Hn0.
  assert (iter_reach (e_fs s) <= map_reach (e_fs s)) as Hir by (unfold iter_reach, map_reach; lia).
  unfold grow_dir. run_step ext2_alloc_block_run as (E1 & HA); [done|]. destruct a as [x|].
  2:{ destruct HA as (I1 & F1 & Hfull). apply run_ret. split; [by etransitivity|]. right. split; [done|].
      exists v. rewrite F1, F0. split_and!; [split; [done|by rewrite F1..]| |done].
      apply grow_frame, vol_grow_refl. }
  destruct HA as (v1 & I1 & HA). pose proof (ba_counters _ _ _ _ _ HA) as C1.
  pose proof (alloc_grow _ L Hspb Hbs _ _ _ _ HA) as G1.
  pose proof (ba_data _ _ _ _ _ HA) as Dx. pose proof (ba_was_free _ _ _ _ _ HA) as Hfree.
  assert (fs_inv d s' v1) as FI1 by (split; [done|by eapply counters_layout|apply HA]).
  destruct (file_map_grow _ _ _ _ _ _ _ M G1 ltac:(tauto)) as [M1 Hp1].
  assert (forall b, map_owns v1 i n b -> map_owns v i n b) as Hown1.
  { intros b [?|(k & Hk & ->)]; [by left|]. right. exists k. split; [done|]. apply Hp1. lia. }
  assert (bs = fs_block_size (e_fs s') /\ map_reach (e_fs s') = map_reach (e_fs s)) as [Eb1 Er1]
    by (by rewrite (co_eq _ _ C1)).
  run_step ext2_inode_add_block_run as (E2 & A2 & v2 & I2 & G2 & Hres);
    [done|done|lia|by eapply counters_data| | |].
  { rewrite (ba_used _ _ _ _ _ HA) by apply Dx. by rewrite bool_decide_eq_true_2. }
  { intros Ho%Hown1. destruct (owned_data _ _ _ _ _ M Ho). congruence. }
  destruct a as [rc i2]. cbn [fst snd] in *.
  assert (vol_grow (fun b => 12 < n /\ b = i_block_at i 12) (e_fs s) v (e_fs s'0) v2) as G02.
  { eapply vol_grow_trans; [by eapply vol_grow_weaken, G1|exact G2]. }
  destruct Hres as [(-> & M2 & Hp2 & _)|(-> & _ & -> & _ & F2 & Hfull)]; cbn [negb Z.eqb].
  2:{ apply run_ret. split; [etransitivity; [exact E0|]; by etransitivity|]. right. split; [done|].
      exists v1. rewrite F0. split_and!; [done| |done]. rewrite F2. by apply grow_frame. }
  pose proof (vg_counters _ _ _ _ _ G02) as C2. pose proof (co_eq _ _ C2) as EC2.
  assert (bs = fs_block_size (e_fs s'0)) as Eb2 by (by rewrite EC2).
  pose proof (counters_data _ _ _ C2 Dx) as Dx2.
  assert (dir_block_map bs (fresh_dir_block bs name ino ft) {[name := (ino, ft)]}) as Hfresh.
  { apply fresh_dir_block_map; try done; try lia.
    rewrite Hbs. replace 512 with (128 * 4) by lia. rewrite <- Z.mul_assoc, (Z.mul_comm 4), Z.mul_assoc.
    by rewrite Z.mod_mul by lia. }
  destruct (dir_block_map_bytes _ _ _ Hfresh) as [Hok Hl].
  run_step write_data_run as (-> & I3 & F3 & E3); [done|done|done|lia|]. cbn [negb Z.eqb].
  assert (i_size i2 = n * bs /\ i_mode i2 = i_mode i) as [Hs2 Hm2].
  { rewrite A2. split; [apply (db_size _ _ _ _ B)|done]. }
  rewrite Hs2. pose proof (db_reach _ _ _ _ B) as Hreach.
  assert (n <= 268 /\ bs <= 4096) as [Hn268 Hb4] by (unfold iter_reach in Hreach; lia).
  rewrite (u32_small (n * bs + bs)) by (unfold is_u32; nia).
  set (i3 := set_i_size (n * bs + bs) i2). set (buf := fresh_dir_block bs name ino ft) in *.
  assert (inode_wf i3) as Hw3 by (apply set_size_wf; [unfold is_u32; nia|apply M2]).
  pose proof (counters_layout _ _ C2 L) as L2.
  destruct (file_map_vset (e_fs s'0) v2 i2 _ x buf L2 M2 Dx2) as [M3 Hp3].
  { intros Hlt. destruct (fm_ind _ _ _ _ M2 Hlt) as (_ & _ & Hne). specialize (Hne n ltac:(lia)).
    rewrite Hp2 in Hne by lia. by rewrite decide_True in Hne. }
  destruct (file_map_attrs _ _ _ i3 _ M3 Hw3 eq_refl) as [M4 Hp4].
  assert (dir_blocks (e_fs s'1) (vset x buf v2) i3 (Ms ++ [{[name := (ino, ft)]}])) as B4.
  { rewrite F3. apply (dir_blocks_snoc _ _ _ x buf); try done.
    - intros k Hk. rewrite Hp4, Hp3, Hp2 by lia. case_decide; [done|]. by apply Hp1.
    - intros k Hk. destruct (fm_ptr _ _ _ _ M k Hk) as [Dk Uk]. cbn [vset v_blk].
      rewrite decide_False by (intros Ex; congruence).
      apply (vg_keep _ _ _ _ _ G02); [done|done|]. intros [Hlt Ek].
      destruct (fm_ind _ _ _ _ M Hlt) as (_ & _ & Hne). by apply (Hne k).
    - cbn [vset v_blk]. by rewrite decide_True.
    - unfold i3. cbn. lia. }
  run_last touch_dir_run as (-> & E4 & v5 & I5 & R5 & G5); [done|by rewrite F3, EC2|exact B4|].
  split; [repeat (etransitivity; [eassumption|]); done|]. left. split; [done|].
  exists v5. split; [done|]. rewrite union_snoc in R5 by done. split; [done|]. cbv zeta. rewrite F0, Hi.
  rewrite (dir_blocks_count d s v i Ms I B).
  eapply vol_frame_trans; [|eapply vol_frame_weaken, G5; tauto]. rewrite F3.
  eapply vol_frame_weaken; [| |apply grow_frame, vol_grow_new, Hfree; try exact G02; try done].
  - done.
  - intros b _ _ [Hlt ->]. by left.
  - by rewrite EC2.
  - by rewrite EC2.
Qed.
End Grow.

Lemma ext2_dir_insert_run d s v dino name ino ft M :
  fs_inv d s v -> ino_in (e_fs s) dino -> dir_rep (e_fs s) v (vino (e_fs s) v dino) M ->
  M !! name = None -> is_u32 ino -> ino <> 0 -> is_u8 ft -> bytes_ok name ->
  0 < Z.of_nat (length name) <= 255 ->
  i_size (vino (e_fs s) v dino) < iter_reach (e_fs s) * fs_block_size (e_fs s) ->
  run (ext2_dir_insert dino name ino ft) s (insert_result d s v dino (<[name := (ino, ft)]> M)).
Proof.
  intros I Hino (Ms & B & ->) HN Hi Hz Hf Hb Hl Hsz. destruct (fi_bs _ _ _ I) as [Hspb Hbs].
  unfold ext2_dir_insert. apply run_bind, run_gets.
  run_step ext2_read_inode_run as (-> & Hw & I1 & F1 & E1); [done|done|].
  remember (vino (e_fs s) v dino) as i eqn:Ei. rewrite (db_dir _ _ _ _ B). cbn [negb].
  rewrite (proj2 (Z.eqb_neq _ 0)), (proj2 (Z.ltb_ge _ _)) by lia. cbn [orb].
  assert (reads d v s s') as R1 by done. pose proof (reads_inv _ _ _ _ I R1) as FI1.
  rewrite (dir_blocks_count _ _ _ _ _ I B), Nat2Z.id.
  apply run_bind. eapply edit_dir_blocks_run; [exact FI1|by rewrite F1|done|done|lia| |].
  - intros k m buf Hk Eb. assert (m !! name = None) as Hm by (by eapply union_None).
    pose proof (insert_in_block_map _ _ _ name ino ft (db_blk _ _ _ _ B _ _ Hk) Hm Hi Hz Hf Hb ltac:(lia)) as Hins.
    rewrite Eb in Hins. destruct (dir_block_map_bytes _ _ _ Hins) as [Hok Hlen]. rewrite F1. split_and!; [done..|].
    intros s2 I2 F2 E2. run_last edit_and_touch as (-> & E3 & HU);
      [exact I|done|by symmetry|done|done|done| |exact I2|congruence|by etransitivity|].
    { intros j mj Hj Hne. apply map_disjoint_insert_r. split; [by eapply union_None|].
      by eapply (db_disj _ _ _ _ B). }
    apply run_ret. split; [done|]. left. split; [done|]. by rewrite <- (union_insert Ms k m name).
  - intros s2 Hall R2. assert (reads d v s s2) as R by (by eapply reads_trans).
    pose proof (reads_inv _ _ _ _ I R) as FI2. destruct R as (_ & F2 & E2).
    rewrite (db_size _ _ _ _ B) in Hsz.
    change (run (grow_dir dino i (Z.of_nat (length Ms)) (fs_block_size (e_fs s)) name ino ft) s2
      (insert_result d s v dino (<[name := (ino, ft)]> (⋃ Ms)))).
    rewrite <- F2. apply grow_dir_run; rewrite ?F2; try done; [lia|].
    apply (Zmult_lt_reg_r _ _ (fs_block_size (e_fs s))); lia.
Qed.
End DirOps.

(** ** Paths *)

(** The directories of a volume: inode number to entries. *)
Record tree_ok (fs : ext2_fs) (v : vol) (T : gmap Z dmap) : Prop := {
  to_root : is_Some (T !! EXT2_ROOT_INODE);
  to_dir ino m : T !! ino = Some m -> ino_in fs ino /\ dir_rep fs v (vino fs v ino) m;
  to_entry ino m name x : T !! ino = Some m -> m !! name = Some x ->
    ino_in fs x.1 /\ (T !! x.1 = None -> inode_is EXT2_S_IFDIR (vino fs v x.1) = false);
}.

Fixpoint walk (T : gmap Z dmap) (cur : Z) (toks : list (list Z)) : option Z :=
  match toks with
  | [] => Some cur
  | tok :: toks =>
      match T !! cur ≫= (fun m => m !! tok) with
      | Some x => walk T x.1 toks
      | None => None
      end
  end.

(** The inode an absolute path names: empty components are skipped and at
    most 255 bytes after the first slash are looked at. *)
Definition resolve (T : gmap Z dmap) (path : list Z) : option Z :=
  match path with
  | c :: rest => if c =? SLASH then walk T EXT2_ROOT_INODE (path_tokens (take 255 rest) []) else None
  | [] => None
  end.

Lemma path_tokens_length p : forall cur n,
  (length p + length cur <= n)%nat -> Forall (fun t => length t <= n)%nat (path_tokens p cur).
Proof.
  induction p as [|c p IH]; intros cur n Hn; cbn [path_tokens length] in *.
  - case_decide; [constructor|]. constructor; [|constructor]. rewrite length_rev. lia.
  - destruct (c =? SLASH).
    + case_decide; [apply IH; simpl; lia|]. constructor; [rewrite length_rev; lia|]. apply IH. simpl. lia.
    + apply IH. simpl. lia.
Qed.

Section Paths.
Context {W : Type} `{MachineOk W}.
Abbreviation E := (ext2 W).
Implicit Types (s : E) (v : vol) (d : disk_device) (T : gmap Z dmap).

Lemma ext2_dir_lookup_not_dir d s v ino name :
  fs_inv d s v -> ino_in (e_fs s) ino -> inode_is EXT2_S_IFDIR (vino (e_fs s) v ino) = false ->
  run (ext2_dir_lookup ino name) s (fun r s' => r = None /\ reads d v s s').
Proof.
  intros I Hino Hd. unfold ext2_dir_lookup.
  run_step ext2_read_inode_run as (-> & Hw & I1 & F1 & E1); [done|done|].
  rewrite Hd. by apply run_ret.
Qed.

Lemma walk_tokens_run d T toks : forall s v cur,
  fs_inv d s v -> tree_ok (e_fs s) v T -> Forall (fun t => Z.of_nat (length t) <= 255) toks ->
  ino_in (e_fs s) cur -> (T !! cur = None -> inode_is EXT2_S_IFDIR (vino (e_fs s) v cur) = false) ->
  run (walk_tokens cur toks) s (fun r s' => r = walk T cur toks /\ reads d v s s').
Proof.
  induction toks as [|tok toks IH]; intros s v cur I HT Hl Hino Hleaf; cbn [walk_tokens walk].
  { apply run_ret. split; [done|]. apply reads_refl, I. }
  apply Forall_cons in Hl as [Htok Hl].
  destruct (T !! cur) as [m|] eqn:Em; cbn [mbind option_bind].
  - destruct (to_dir _ _ _ HT _ _ Em) as [_ Hrep].
    run_step ext2_dir_lookup_run as (-> & R1); [done..|].
    destruct (m !! tok) as [x|] eqn:Ex; [|by apply run_ret]. cbn [fmap option_fmap option_map].
    destruct (to_entry _ _ _ HT _ _ _ _ Em Ex) as [Hx Hxl].
    pose proof (reads_inv _ _ _ _ I R1) as I1. pose proof R1 as (_ & F1 & _).
    run_last IH as (-> & R2); [done|by rewrite F1|done|by rewrite F1|by rewrite F1|].
    split; [done|]. by eapply reads_trans.
  - run_step ext2_dir_lookup_not_dir as (-> & R1); [done|done|by apply Hleaf|]. by apply run_ret.
Qed.

Lemma ext2_path_to_inode_run d s v T path :
  fs_inv d s v -> tree_ok (e_fs s) v T ->
  run (ext2_path_to_inode path) s (fun r s' => r = resolve T path /\ reads d v s s').
Proof.
  intros I HT. assert (reads d v s s) as R0 by apply reads_refl, I.
  destruct path as [|c rest]; cbn [ext2_path_to_inode resolve]; [by apply run_ret|].
  destruct (c =? SLASH); cbn [negb]; [|by apply run_ret].
  case_decide as Hr; [subst rest; by apply run_ret|].
  destruct (to_root _ _ _ HT) as [m Hm].
  apply walk_tokens_run; [done|done| |by apply (to_dir _ _ _ HT _ _ Hm)|by rewrite Hm].
  eapply Forall_impl; [apply (path_tokens_length _ _ 255)|].
  - rewrite length_take. cbn [length]. lia.
  - cbn beta. lia.
Qed.
End Paths.

(** ** Main results *)

Section DirTheorems.
Context {W : Type} `{MachineOk W}.
Abbreviation E := (ext2 W).
Implicit Types (s : E) (v : vol) (d : disk_device) (T : gmap Z dmap) (M : dmap).


(** C10: removing a name from a directory of a consistent volume returns
    0 exactly when the name is there; the directory's map then loses that entry
    and nothing else, and no other inode and no other block in use changes. *)
Theorem ext2_dir_remove_correct d s v dino name M :
  fs_inv d s v -> ino_in (e_fs s) dino -> dir_rep (e_fs s) v (vino (e_fs s) v dino) M ->
  Z.of_nat (length name) <= 255 ->
  run (ext2_dir_remove dino name) s (fun rc s' => same_env s s' /\
    match M !! name with
    | Some _ => rc = 0 /\ dir_updated d s v dino (delete name M) s'
    | None => rc = -1 /\ reads d v s s'
    end).
Proof. apply ext2_dir_remove_run. Qed.

(** C12: [ext2_path_to_inode] resolves an absolute path component by
    component through the directory maps of the volume, and changes nothing. *)
Theorem ext2_path_to_inode_correct d s v T path :
  fs_inv d s v -> tree_ok (e_fs s) v T ->
  run (ext2_path_to_inode path) s (fun r s' => r = resolve T path /\ reads d v s s').
Proof. apply ext2_path_to_inode_run. Qed.
End DirTheorems.
