(* ===== verification/Ext2Contents.v ===== *)
(** * EXT2 file contents: writing and reading by path

    [file_rep] says which bytes a regular file holds.  [ext2_write_file]
    (fs/ext2/write.c) on a path of a consistent volume replaces or extends
    exactly those bytes, and [ext2_read_file] (fs/ext2/mount.c, file.c) gives
    them back. *)

From S2P Require Import Prelude Machine VfsTypes Ext2Layout Ext2Block Ext2Super Ext2Inode.
From S2P Require Import Ext2Alloc Ext2Inodes Ext2File Ext2Dir Ext2Dents Ext2Write.
From S2P Require Import Ext2Files Ext2Store Ext2Dirs.

Lemma set_atime_wf n i : is_u32 n -> inode_wf i -> inode_wf (set_i_atime n i).
Proof.
  intros Hn Hw. apply inode_wf_iff in Hw as (L1 & L2 & F1 & F2 & F3 & F4).
  apply inode_wf_iff. cbn. split_and!; try done.
  do 12 (apply Forall2_cons in F1 as [? F1]). by repeat (apply Forall2_cons_2; [done|]).
Qed.

(** ** File contents *)

Lemma chunk_0 bs D : 0 <= bs -> chunk bs D 0 = take (Z.to_nat bs) D ++ zeros (bs - Z.of_nat (length (take (Z.to_nat bs) D))).
Proof.
  intros Hbs. unfold chunk, sub. rewrite Z.mul_0_l, drop_0. set (x := take _ D).
  assert (length x <= Z.to_nat bs)%nat by (unfold x; rewrite length_take; lia).
  replace (zeros bs) with (zeros (Z.of_nat (length x)) ++ zeros (bs - Z.of_nat (length x))).
  - apply (put_at [] (zeros (Z.of_nat (length x)))); [|done]. rewrite length_zeros. lia.
  - unfold zeros. rewrite <- replicate_add. f_equal. lia.
Qed.

Lemma chunk_succ bs D k : 0 <= bs -> 0 <= k -> chunk bs D (k + 1) = chunk bs (drop (Z.to_nat bs) D) k.
Proof. intros Hb Hk. unfold chunk, sub. rewrite drop_drop. do 3 f_equal. nia. Qed.

(** The chunks of [D] put together are [D] padded with zeros. *)
Lemma chunks_join bs n : 0 < bs -> forall D, Z.of_nat (length D) <= Z.of_nat n * bs ->
  mjoin (chunk bs D <$> seqZ 0 (Z.of_nat n)) = D ++ zeros (Z.of_nat n * bs - Z.of_nat (length D)).
Proof.
  intros Hbs. induction n as [|n IH]; intros D HD.
  { destruct D; [done|simpl in *; lia]. }
  rewrite seqZ_cons by lia. cbn [fmap list_fmap].
  change (chunk bs D 0 ++ mjoin (chunk bs D <$> seqZ 1 (Z.pred (Z.of_nat (S n)))) =
    D ++ zeros (Z.of_nat (S n) * bs - Z.of_nat (length D))).
  replace (chunk bs D <$> seqZ 1 (Z.pred (Z.of_nat (S n))))
    with (chunk bs (drop (Z.to_nat bs) D) <$> seqZ 0 (Z.of_nat n)).
  2:{ apply list_eq. intros j. rewrite !list_lookup_fmap. destruct (decide (j < n)%nat).
      - rewrite !lookup_seqZ_lt by lia. simpl. f_equal. rewrite <- chunk_succ by lia. f_equal. lia.
      - by rewrite !lookup_seqZ_ge by lia. }
  rewrite IH, chunk_0 by (rewrite ?length_drop; lia).
  replace (D ++ zeros (Z.of_nat (S n) * bs - Z.of_nat (length D)))
    with ((take (Z.to_nat bs) D ++ drop (Z.to_nat bs) D) ++ zeros (Z.of_nat (S n) * bs - Z.of_nat (length D)))
    by (by rewrite take_drop).
  rewrite <- !(assoc_L (++)). f_equal. rewrite length_take, length_drop.
  destruct (Z.le_gt_cases bs (Z.of_nat (length D))).
  - unfold zeros at 1.
    replace (Z.to_nat (bs - _)) with 0%nat by lia. cbn [replicate app]. do 2 f_equal. lia.
  - rewrite (drop_ge D) by lia. unfold zeros. cbn [app]. rewrite <- replicate_add. f_equal. lia.
Qed.

(** A regular file with block map of [n] blocks holds the bytes [D]. *)
Record file_rep (fs : ext2_fs) (v : vol) (i : ext2_inode) (n : Z) (D : list Z) : Prop := {
  fp_reg : inode_is EXT2_S_IFREG i = true;
  fp_map : file_map fs v i n;
  fp_size : i_size i = Z.of_nat (length D);
  fp_data : take (length D) (file_bytes fs v i n) = D;
}.

(** Owner, permissions and links are kept. *)
Definition same_owner (i i' : ext2_inode) : Prop :=
  i_mode i' = i_mode i /\ i_uid i' = i_uid i /\ i_gid i' = i_gid i /\
  i_links_count i' = i_links_count i.

#[global] Instance same_owner_preorder : PreOrder same_owner.
Proof. split; [done|]. intros i1 i2 i3 (A & B & C & D) (A' & B' & C' & D'). split_and!; congruence. Qed.

Section FileRep.
Context (fs : ext2_fs) (v : vol) (i : ext2_inode).
Implicit Types (D : list Z) (n : Z).

Lemma map_bytes_full n m : file_map fs v i n ->
  (forall b, data_block fs b -> length (v_blk v b) = Z.to_nat (fs_block_size fs)) ->
  0 <= m <= map_reach fs -> full fs v (fptr v i <$> seqZ 0 m).
Proof.
  intros M Hl Hm. unfold full. rewrite Forall_fmap. apply Forall_forall. intros k Hk%elem_of_seqZ.
  simpl. unfold blk_bytes. case Z.eqb_spec; intros Hz; [apply length_zeros|].
  apply Hl. destruct (Z.lt_ge_cases k n) as [Hlt|Hge]; [apply (fm_ptr _ _ _ _ M); lia|].
  destruct Hz. apply (fm_hole _ _ _ _ M). lia.
Qed.

(** Reading further than the end of the map does not matter. *)
Lemma file_bytes_prefix n m size : file_map fs v i n ->
  (forall b, data_block fs b -> length (v_blk v b) = Z.to_nat (fs_block_size fs)) ->
  0 < fs_block_size fs -> 0 <= m <= map_reach fs ->
  size <= m * fs_block_size fs -> size <= n * fs_block_size fs ->
  take (Z.to_nat size) (file_bytes fs v i m) = take (Z.to_nat size) (file_bytes fs v i n).
Proof.
  intros M Hl Hbs Hm Hs1 Hs2. pose proof (fm_n _ _ _ _ M) as Hn.
  assert (forall a c, 0 <= a -> 0 <= c -> a + c <= map_reach fs -> size <= a * fs_block_size fs ->
    take (Z.to_nat size) (file_bytes fs v i (a + c)) = take (Z.to_nat size) (file_bytes fs v i a)) as Hpre.
  { intros a c Ha Hc Hac Hs. rewrite file_bytes_add by done. apply take_app_le.
    rewrite length_file_bytes by (eapply map_bytes_full; [done|done|lia]). nia. }
  destruct (Z.le_ge_cases n m).
  - rewrite <- (Hpre n (m - n)) by lia. do 2 f_equal. lia.
  - rewrite <- (Hpre m (n - m)) by lia. do 2 f_equal. lia.
Qed.

Lemma holds_bytes D n : file_map fs v i n -> holds fs v i D n -> 0 < fs_block_size fs ->
  Z.of_nat (length D) <= n * fs_block_size fs -> take (length D) (file_bytes fs v i n) = D.
Proof.
  intros M Hh Hbs Hn. pose proof (fm_n _ _ _ _ M) as Hn0.
  assert (file_bytes fs v i n = mjoin (chunk (fs_block_size fs) D <$> seqZ 0 n)) as ->.
  { unfold file_bytes. f_equal. apply list_fmap_ext. intros k x [-> Hk]%lookup_seqZ.
    unfold blk_bytes. destruct (fm_ptr _ _ _ _ M (0 + Z.of_nat k)) as [Dk _]; [lia|].
    case Z.eqb_spec; intros Hz; [by apply data_nonzero in Dk|]. apply Hh. lia. }
  rewrite <- (Z2Nat.id n) by lia. rewrite chunks_join by lia. apply take_app_length.
Qed.
End FileRep.

(** Contents survive any change around the file. *)
Lemma file_bytes_frame P X fs v fs' v' i n :
  file_map fs v i n -> vol_frame P X fs v fs' v' -> (forall b, map_owns v i n b -> ~ X b) ->
  file_bytes fs' v' i n = file_bytes fs v i n.
Proof.
  intros M G HX. destruct (file_map_frame _ _ _ _ _ _ _ _ M G HX) as [_ Hp].
  pose proof (fr_counters _ _ _ _ _ _ G) as C.
  assert (fs_block_size fs' = fs_block_size fs) as Eb by (by rewrite (co_eq _ _ C)).
  unfold file_bytes. f_equal. apply list_fmap_ext. intros k x [-> Hk]%lookup_seqZ.
  rewrite Hp. unfold blk_bytes. rewrite Eb. case_match; [done|].
  destruct (fm_ptr _ _ _ _ M (0 + Z.of_nat k)) as [D U]; [lia|].
  apply (fr_keep _ _ _ _ _ _ G); [done..|]. apply HX. right. exists (0 + Z.of_nat k). split; [lia|done].
Qed.

Lemma file_rep_frame P X fs v fs' v' i n D :
  file_rep fs v i n D -> vol_frame P X fs v fs' v' -> (forall b, map_owns v i n b -> ~ X b) ->
  file_rep fs' v' i n D.
Proof.
  intros [R M S B] G HX. split; try done; [by eapply file_map_frame|].
  by rewrite (file_bytes_frame _ _ _ _ _ _ _ _ M G HX).
Qed.

Lemma file_rep_attrs fs v i i' n D :
  file_map fs v i n -> inode_is EXT2_S_IFREG i = true -> take (length D) (file_bytes fs v i n) = D ->
  inode_wf i' -> i_block i' = i_block i -> i_size i' = Z.of_nat (length D) -> i_mode i' = i_mode i ->
  file_rep fs v i' n D.
Proof.
  intros M R B Hw Eb Es Em. destruct (file_map_attrs _ _ _ _ _ M Hw Eb) as [M' Hp].
  split; try done; [unfold inode_is in *; by rewrite Em|].
  rewrite <- B at 2. f_equal. unfold file_bytes. f_equal. apply list_fmap_ext. intros. by rewrite Hp.
Qed.

Section WriteFile.
Context {W : Type} `{MachineOk W}.
Abbreviation E := (ext2 W).
Implicit Types (s : E) (v : vol) (d : disk_device) (i : ext2_inode) (D : list Z) (n : Z).

(** Why a write can fail: more data than the block map can hold, or fewer
    blocks than it needs, counting the free ones and those of the old contents. *)
Definition out_of_space s v i n D : Prop :=
  map_reach (e_fs s) * fs_block_size (e_fs s) < Z.of_nat (length D) \/
  forall F, NoDup F ->
    (forall b, b ∈ F -> blk_in (e_fs s) b /\ (blk_used (e_fs s) v b = false \/ map_owns v i n b)) ->
    Z.of_nat (length F) < blocks_needed (fs_block_size (e_fs s)) D.

(** Blocks of a new map are free ones, or those of the old map. *)
Definition fresh_map (fs : ext2_fs) v i n v' i' n' : Prop :=
  forall b, map_owns v' i' n' b -> map_owns v i n b \/ blk_used fs v b = false.

(** Outcome of replacing the contents of [ino] by [D]. *)
Definition replaced d s v ino n D (rc : Z) s' : Prop :=
  let i := vino (e_fs s) v ino in
  same_env s s' /\ exists v', fs_inv d s' v' /\
    vol_frame (eq ino) (map_owns v i n) (e_fs s) v (e_fs s') v' /\
    let i' := vino (e_fs s') v' ino in
    same_owner i i' /\
    ((rc = 0 /\ exists n', file_rep (e_fs s') v' i' n' D /\ fresh_map (e_fs s) v i n v' i' n') \/
     (rc = - ENOSPC /\ file_rep (e_fs s') v' i' 0 [] /\ out_of_space s v i n D)).

(** Writing back an inode whose map is in place. *)
Lemma write_back_run d s v ino i n D :
  fs_inv d s v -> ino_in (e_fs s) ino -> file_map (e_fs s) v i n ->
  inode_is EXT2_S_IFREG i = true -> i_size i = Z.of_nat (length D) ->
  take (length D) (file_bytes (e_fs s) v i n) = D ->
  run (ext2_write_inode ino i) s (fun rc s' => rc = 0 /\ same_env s s' /\ exists v', fs_inv d s' v' /\
    vol_frame (eq ino) (fun _ => False) (e_fs s) v (e_fs s') v' /\ vino (e_fs s') v' ino = i /\
    file_rep (e_fs s') v' i n D).
Proof.
  intros I Hino M R Es B. destruct (fi_bs _ _ _ I) as [Hspb Hbs]. pose proof I as [Iv L O].
  pose proof (fm_wf _ _ _ _ M) as Hw.
  run_last ext2_write_inode_run as (-> & F2 & E2 & I2); [done..|].
  split; [done|]. split; [done|]. eexists. split; [exact I2|]. rewrite F2.
  pose proof (vset_ino_frame (e_fs s) v ino i L Hspb Hbs Hino Hw) as G. split; [done|].
  split; [apply vino_set_same; try done; intros; by eapply fi_len|].
  eapply file_rep_frame; [|exact G|tauto]. by split.
Qed.

Lemma same_attrs_owner i i' : same_attrs i i' -> same_owner i i' /\ i_size i' = i_size i.
Proof. intros ->. done. Qed.

Lemma cleared_owner i : same_owner i (cleared i).
Proof. done. Qed.

Lemma owner_reg i i' : same_owner i i' -> inode_is EXT2_S_IFREG i = true -> inode_is EXT2_S_IFREG i' = true.
Proof. intros (E1 & _). unfold inode_is. by rewrite E1. Qed.

Lemma building_start d s v i D : fs_inv d s v -> inode_wf i ->
  building d (e_fs s) v D (cleared i) s v (cleared i) 0.
Proof.
  intros I Hw. destruct (fi_bs _ _ _ I) as [Hspb Hbs]. split; try done.
  - apply vol_grow_refl.
  - apply cleared_map; [done|lia].
  - intros b [[? _]|(k & ? & _)]; lia.
  - intros k ?. lia.
Qed.

(** After a failed write: release what has been stored and leave the file empty. *)
Lemma write_failed_run d s v ino i n :
  fs_inv d s v -> ino_in (e_fs s) ino -> file_map (e_fs s) v i n -> inode_is EXT2_S_IFREG i = true ->
  run (inode ← ext2_inode_free_all_blocks i; _ ← ext2_write_inode ino inode; mret (- ENOSPC)) s
    (fun rc s' => rc = - ENOSPC /\ same_env s s' /\ exists v', fs_inv d s' v' /\
       vol_frame (eq ino) (map_owns v i n) (e_fs s) v (e_fs s') v' /\
       vino (e_fs s') v' ino = cleared i /\ file_rep (e_fs s') v' (cleared i) 0 []).
Proof.
  intros I Hino M R. pose proof (fm_wf _ _ _ _ M) as Hw.
  run_step ext2_inode_free_all_blocks_run as (-> & E1 & v1 & I1 & S1); [done|done|].
  destruct (fi_bs _ _ _ I1) as [Hspb Hbs]. pose proof (shrink_frame _ _ _ _ _ S1) as G1.
  run_step write_back_run as (-> & E2 & v2 & I2 & G2 & V2 & R2).
  - exact I1.
  - by apply (counters_ino_in _ _ _ (vs_counters _ _ _ _ _ S1)).
  - apply (cleared_map _ v1 i); [done|lia].
  - done.
  - instantiate (1 := []). done.
  - done.
  - apply run_ret. split; [done|]. split; [by etransitivity|]. exists v2. split; [done|]. split; [|done].
    eapply vol_frame_trans; [by eapply vol_frame_weaken, G1|]. eapply vol_frame_weaken, G2; tauto.
Qed.

Lemma map_owns_dec v i n b : map_owns v i n b \/ ~ map_owns v i n b.
Proof.
  destruct (decide (12 < n /\ b = i_block_at i 12)) as [?|Hd]; [by left; left|].
  destruct (decide (b ∈ (fptr v i <$> seqZ 0 n))) as [Hb|Hb].
  - left. right. apply list_elem_of_fmap in Hb as (k & -> & Hk%elem_of_seqZ). exists k. split; [lia|done].
  - right. intros [?|(k & Hk & ->)]; [done|]. apply Hb, list_elem_of_fmap. exists k.
    split; [done|]. apply elem_of_seqZ. lia.
Qed.

(** Blocks that are new may change again. *)
Lemma vol_frame_new P X Y fs1 v1 fs2 v2 fs3 v3 :
  vol_frame P X fs1 v1 fs2 v2 -> vol_frame P Y fs2 v2 fs3 v3 ->
  (forall b, data_block fs1 b -> blk_used fs1 v1 b = true -> ~ X b -> ~ Y b) ->
  vol_frame P X fs1 v1 fs3 v3.
Proof.
  intros [C1 I1 V1 U1 K1] [C2 I2 V2 U2 K2] HY. split.
  - by etransitivity.
  - intros ino Hi. rewrite I2, I1; [done..|by apply (counters_ino_in _ _ _ C1)].
  - intros ino Hi Hp. rewrite V2, V1; [done..|by apply (counters_ino_in _ _ _ C1)|done].
  - intros b Hb Hu Hx. apply U2; [by eapply counters_data|by apply U1|by apply HY].
  - intros b Hb Hu Hx. rewrite K2, K1; [done..|by eapply counters_data|by apply U1|by apply HY].
Qed.

Lemma map_owns_same v v' i i' n b : (forall k, fptr v' i' k = fptr v i k) -> i_block i' = i_block i ->
  map_owns v' i' n b -> map_owns v i n b.
Proof.
  intros Hp Eb [[Hn ->]|(k & Hk & ->)]; [left|right; exists k; by rewrite Hp]. unfold i_block_at. by rewrite Eb.
Qed.

Section Replace.
Context (d : disk_device) (s : E) (v : vol) (ino : Z) (n : Z) (D : list Z).
Local Abbreviation i := (vino (e_fs s) v ino).
Context (I : fs_inv d s v) (Hino : ino_in (e_fs s) ino).
Context (M : file_map (e_fs s) v i n) (R : inode_is EXT2_S_IFREG i = true).
Context (HD : bytes_ok D) (Hlen : Z.of_nat (length D) < 2 ^ 32).

(** After the old blocks have been released and new ones filled. *)
Section Written.
Context (s1 s2 : E) (v1 v2 : vol) (i2 : ext2_inode) (n2 : Z).
Context (E2 : same_env s s2).
Context (S1 : vol_shrink (map_owns v i n) (e_fs s) v (e_fs s1) v1).
Context (B : building d (e_fs s1) v1 D (cleared i) s2 v2 i2 n2).

Lemma written_frame : vol_frame (eq ino) (map_owns v i n) (e_fs s) v (e_fs s2) v2.
Proof.
  eapply vol_frame_trans.
  - eapply vol_frame_weaken, shrink_frame, S1; done.
  - eapply vol_frame_weaken, grow_frame, (bu_grow _ _ _ _ _ _ _ _ _ B); done.
Qed.

Lemma written_ino : ino_in (e_fs s2) ino.
Proof. by apply (counters_ino_in _ _ _ (fr_counters _ _ _ _ _ _ written_frame)). Qed.

Lemma written_owner : same_owner i i2.
Proof. apply (same_attrs_owner (cleared i)), B. Qed.

Lemma replaced_ok now : is_u32 now ->
  (n2 - 1) * fs_block_size (e_fs s1) < Z.of_nat (length D) <= n2 * fs_block_size (e_fs s1) ->
  run (ext2_write_inode ino
      (set_i_mtime now (set_i_ctime now (set_i_size (Z.of_nat (length D)) i2)))) s2
    (replaced d s v ino n D).
Proof.
  intros Hnow Hn2. pose proof B as [I2 G2 M2 N2 H2 A2]. destruct (building_geom _ _ _ _ _ _ _ _ _ B) as [Eb _].
  destruct (fi_bs _ _ _ I2) as [Hspb Hbs]. pose proof written_owner as O2.
  assert (file_rep (e_fs s2) v2 (touched now (set_i_size (Z.of_nat (length D)) i2)) n2 D) as [R3 M3 Z3 D3].
  { apply (file_rep_attrs _ _ i2); try done.
    - by apply (owner_reg i).
    - apply holds_bytes; try done; [lia|]. rewrite Eb. lia.
    - apply touched_wf; [done|]. apply set_size_wf; [unfold is_u32; lia|apply M2]. }
  run_last write_back_run as (-> & E3 & v3 & I3 & G3 & V3 & P3); [exact I2|apply written_ino|exact M3|done|exact Z3|exact D3|].
  split; [by etransitivity|]. exists v3. split; [done|]. split.
  { eapply vol_frame_trans; [apply written_frame|]. eapply vol_frame_weaken, G3; tauto. }
  cbv zeta. rewrite V3. split; [done|]. left. split; [done|]. exists n2. split; [done|]. intros b Ho.
  destruct (file_map_frame _ _ _ _ _ _ _ _ M3 G3) as [_ Hp3]; [tauto|].
  destruct (file_map_attrs _ _ i2 _ _ M2 (fm_wf _ _ _ _ M3)) as [_ Hp2]; [done|].
  apply (map_owns_same v2 _ i2) in Ho; [|intros k; by rewrite Hp3, Hp2|done]. destruct (owned_data _ _ _ _ _ M2 Ho) as [(Db & _) _].
  apply (counters_blk_in _ _ _ (fr_counters _ _ _ _ _ _ written_frame)) in Db. apply N2 in Ho.
  destruct (map_owns_dec v i n b) as [?|Hn]; [by left|right]. by rewrite <- (vs_kept _ _ _ _ _ S1).
Qed.

Lemma replaced_fail : out_of_space s v i n D ->
  run (inode ← ext2_inode_free_all_blocks i2; _ ← ext2_write_inode ino inode; mret (- ENOSPC)) s2
    (replaced d s v ino n D).
Proof.
  intros Hout. pose proof B as [I2 G2 M2 N2 H2 A2]. pose proof written_owner as O2.
  run_last write_failed_run as (-> & E3 & v3 & I3 & G3 & V3 & P3);
    [exact I2|apply written_ino|exact M2|by apply (owner_reg i)|].
  split; [by etransitivity|]. exists v3. split; [done|]. split.
  { eapply vol_frame_new; [apply written_frame|exact G3|].
    intros b Db Ub Hx Ho. assert (blk_used (e_fs s1) v1 b = true); [|by rewrite N2 in *].
    rewrite (vs_kept _ _ _ _ _ S1); [done|apply Db|done]. }
  cbv zeta. rewrite V3. split; [|by right].
  etransitivity; [exact O2|apply cleared_owner].
Qed.
End Written.

Lemma replace_data_run combined :
  run (replace_data ino i D combined) s (replaced d s v ino n D).
Proof.
  pose proof (fm_wf _ _ _ _ M) as Hw. unfold replace_data.
  run_step ext2_inode_free_all_blocks_run as (-> & E1 & v1 & I1 & S1); [done|exact M|].
  run_step (write_blocks_loop_run d (e_fs s') v1 D (cleared i)) as (E2 & v2 & HW);
    [exact HD|by apply building_start|by left|done|done|destruct (fi_bs _ _ _ I1); lia|].
  destruct a as [rc i2]. cbn [fst snd] in HW.
  assert (fs_inv d s'0 v2) as I2 by (destruct HW as [(_ & ? & B & _)|(_ & (? & B) & _)]; apply B).
  run_step (lift_w_reads d v2) as (_ & R3); [apply I2|apply kfree_quiet|].
  pose proof (reads_inv _ _ _ _ I2 R3) as I3. destruct R3 as (_ & F3 & E3).
  assert (forall n2, building d (e_fs s') v1 D (cleared i) s'0 v2 i2 n2 ->
    building d (e_fs s') v1 D (cleared i) s'1 v2 i2 n2) as Hb.
  { intros n2 [? ? ? ? ? ?]. split; rewrite ?F3; done. }
  assert (same_env s s'1) as E03 by (by etransitivity; [|etransitivity]).
  pose proof (vs_counters _ _ _ _ _ S1) as C1.
  destruct HW as [(-> & n2 & B%Hb & Hn2)|(-> & (n2 & B) & Hout)]; cbn [negb Z.eqb Z.opp].
  - run_step (lift_w_reads d v2) as (-> & R4); [apply I3|apply time_now_quiet|].
    pose proof (reads_inv _ _ _ _ I3 R4) as I4. destruct R4 as (_ & F4 & E4).
    eapply (replaced_ok s' s'2 v1 v2 i2 n2); [by etransitivity|done| |apply time_now_range|done].
    destruct B as [? ? ? ? ? ?]. split; rewrite ?F4; done.
  - eapply (replaced_fail s' s'1 v1 v2 i2 n2); [done|done|by apply Hb|].
    unfold out_of_space. destruct Hout as [Hfew|Hbig]; [right|left; by rewrite (co_eq _ _ C1) in Hbig].
    intros F HN HF. replace (fs_block_size (e_fs s)) with (fs_block_size (e_fs s')) by (by rewrite (co_eq _ _ C1)).
    apply Hfew; [done|]. intros b Hbin. destruct (HF b Hbin) as [Hin Hfo].
    split; [by apply (counters_blk_in _ _ _ C1)|]. destruct (map_owns_dec v i n b) as [Ho|Ho].
    + by apply (vs_freed _ _ _ _ _ S1).
    + rewrite (vs_kept _ _ _ _ _ S1) by done. tauto.
Qed.
End Replace.

(** ** Reading *)

Lemma file_ptrs_ok fs v i n : file_map fs v i n -> 0 <= fs_block_size fs -> ptrs_ok fs v i.
Proof.
  intros M Hbs. pose proof (fm_n _ _ _ _ M) as Hn. split.
  - destruct (Z.lt_ge_cases 12 n) as [Hlt|Hge]; [right|left; by apply (fm_no_ind _ _ _ _ M)].
    by destruct (fm_ind _ _ _ _ M Hlt) as ((_ & V & _) & _).
  - intros k Hk. destruct (Z.lt_ge_cases k n) as [Hlt|Hge]; [right|left; apply (fm_hole _ _ _ _ M); lia].
    by destruct (fm_ptr _ _ _ _ M k ltac:(lia)) as ((_ & V & _) & _).
Qed.

Lemma data_length d s v b : vinv d s v -> data_block (e_fs s) b ->
  length (v_blk v b) = Z.to_nat (fs_block_size (e_fs s)).
Proof. intros I (_ & V & _). by eapply vi_len. Qed.

Lemma file_size_le d s v i n D : fs_inv d s v -> file_rep (e_fs s) v i n D ->
  Z.of_nat (length D) <= n * fs_block_size (e_fs s).
Proof.
  intros I [_ M _ B]. pose proof (fm_n _ _ _ _ M) as Hn. destruct (fi_bs _ _ _ I) as [Hspb Hbs].
  apply (f_equal length) in B. rewrite length_take, length_file_bytes in B; [nia|].
  eapply map_bytes_full; [exact M| |lia]. intros b. eapply data_length, fi_vinv, I.
Qed.

(** The file as read: its bytes and a NUL. *)
Lemma read_bytes_rep d s v i n D : fs_inv d s v -> file_rep (e_fs s) v i n D ->
  Z.of_nat (length D) <= iter_reach (e_fs s) * fs_block_size (e_fs s) ->
  read_bytes (e_fs s) v i = D ++ [0].
Proof.
  intros I P Hr. pose proof (file_size_le _ _ _ _ _ _ I P) as Hs. destruct (fi_bs _ _ _ I) as [Hspb Hbs].
  destruct P as [_ M Es B]. unfold read_bytes, left_over. rewrite Es.
  rewrite (file_bytes_prefix _ _ _ n); try done; [|intros b; eapply data_length, fi_vinv, I|lia|].
  - rewrite Nat2Z.id, B. f_equal. rewrite Z.max_l by nia. done.
  - pose proof (Z.div_pos (fs_block_size (e_fs s)) 4). unfold iter_reach, map_reach. lia.
Qed.

(** The heap has no [n] bytes left in some state of the machine. *)
Definition heap_exhausted (n : Z) : Prop := exists w : W, (kmalloc n w).1 = None.

Lemma read_file_ino_rep d s v ino n D :
  fs_inv d s v -> ino_in (e_fs s) ino -> file_rep (e_fs s) v (vino (e_fs s) v ino) n D ->
  Z.of_nat (length D) <= iter_reach (e_fs s) * fs_block_size (e_fs s) ->
  run (ext2_read_file_ino ino) s (fun r s' => reads d v s s' /\
    ((exists p, r = Some (p, D ++ [0], Z.of_nat (length D))) \/
     (r = None /\ heap_exhausted (Z.of_nat (length D) + 1)))).
Proof.
  intros I Hino P Hr. destruct (fi_bs _ _ _ I) as [Hspb Hbs]. pose proof P as [R M Es B].
  assert (fs_block_size (e_fs s) <= 4096) by lia.
  assert (iter_reach (e_fs s) <= 268) by (unfold iter_reach; lia).
  run_last ext2_read_file_ino_run as (R1 & s1 & R2 & ->); [done|done|done|by eapply file_ptrs_ok; [|lia]|done|rewrite Es; nia|].
  split; [done|]. rewrite (read_bytes_rep _ _ _ _ _ _ I P Hr), Es.
  destruct (kmalloc _ _).1 as [p|] eqn:Ek; [left; by exists p|right]. split; [done|]. by exists (e_w s1).
Qed.

(** ** Paths to files *)

(** No directory of the tree uses the blocks in [X]. *)
Definition tree_apart (fs : ext2_fs) v (T : gmap Z dmap) (X : Z -> Prop) : Prop :=
  forall dino m b, T !! dino = Some m -> let i := vino fs v dino in
    map_owns v i (i_size i / fs_block_size fs) b -> ~ X b.

Lemma tree_ok_frame ino X fs v fs' v' T :
  0 < fs_block_size fs -> tree_ok fs v T -> tree_apart fs v T X -> T !! ino = None ->
  vol_frame (eq ino) X fs v fs' v' -> inode_is EXT2_S_IFDIR (vino fs' v' ino) = false ->
  tree_ok fs' v' T.
Proof.
  intros Hbs [T1 T2 T3] HA Hn G Hd. pose proof (fr_counters _ _ _ _ _ _ G) as C. split; [done|..].
  - intros dino m Hm. destruct (T2 _ _ Hm) as [Hi (Ms & B & ->)].
    split; [by apply (counters_ino_in _ _ _ C)|]. rewrite (fr_vino _ _ _ _ _ _ G) by (done || congruence).
    exists Ms. split; [|done]. eapply dir_blocks_frame; [exact B|exact G|].
    intros b Ho. apply (HA dino _ b Hm). cbv zeta. by rewrite (db_size _ _ _ _ B), Z.div_mul by lia.
  - intros dino m name x Hm Hx. destruct (T3 _ _ _ _ Hm Hx) as [Hi Hl].
    split; [by apply (counters_ino_in _ _ _ C)|]. intros Hnone.
    destruct (decide (x.1 = ino)) as [->|Hne]; [done|].
    rewrite (fr_vino _ _ _ _ _ _ G) by (done || congruence). by apply Hl.
Qed.

(** A map made of free blocks and of those it replaces stays apart from the directories. *)
Lemma tree_apart_fresh ino i n i' n' fs v fs' v' T :
  0 < fs_block_size fs -> tree_ok fs v T -> tree_apart fs v T (map_owns v i n) -> T !! ino = None ->
  vol_frame (eq ino) (map_owns v i n) fs v fs' v' -> fresh_map fs v i n v' i' n' -> tree_apart fs' v' T (map_owns v' i' n').
Proof.
  intros Hbs HT HA Hn G HF dino m b Hm. cbv zeta. pose proof (fr_counters _ _ _ _ _ _ G) as C.
  destruct (to_dir _ _ _ HT _ _ Hm) as [Hi (Ms & B & ->)]. rewrite (fr_vino _ _ _ _ _ _ G) by (done || congruence).
  assert (fs_block_size fs' = fs_block_size fs) as -> by (by rewrite (co_eq _ _ C)).
  rewrite (db_size _ _ _ _ B), Z.div_mul by lia.
  assert (forall b, map_owns v (vino fs v dino) (Z.of_nat (length Ms)) b -> ~ map_owns v i n b) as HX.
  { intros x Ho. apply (HA dino _ x Hm). cbv zeta. by rewrite (db_size _ _ _ _ B), Z.div_mul by lia. }
  destruct (file_map_frame _ _ _ _ _ _ _ _ (db_map _ _ _ _ B) G HX) as [_ Hp]. intros Ho Hf.
  apply (map_owns_same v _ (vino fs v dino)) in Ho; [|done|done]. destruct (owned_data _ _ _ _ _ (db_map _ _ _ _ B) Ho) as [_ U].
  destruct (HF b Hf) as [Hx|Hx]; [by eapply HX|by rewrite U in Hx].
Qed.

Lemma walk_ino_in fs v T toks : tree_ok fs v T -> forall cur ino,
  ino_in fs cur -> walk T cur toks = Some ino -> ino_in fs ino.
Proof.
  intros HT. induction toks as [|t toks IH]; intros cur ino Hc Hw; simpl in Hw; [by simplify_eq|].
  destruct (T !! cur) as [m|] eqn:Em; [|done]. simpl in Hw. destruct (m !! t) as [x|] eqn:Ex; [|done].
  eapply IH, Hw. by eapply (to_entry _ _ _ HT).
Qed.

Lemma resolve_ino_in fs v T path ino : tree_ok fs v T -> resolve T path = Some ino -> ino_in fs ino.
Proof.
  intros HT Hr. destruct path as [|c rest]; [done|]. simpl in Hr. destruct (c =? SLASH); [|done].
  destruct (to_root _ _ _ HT) as [m Hm]. eapply walk_ino_in; [done| |exact Hr]. by eapply to_dir.
Qed.

Lemma reg_not_dir i : inode_is EXT2_S_IFREG i = true -> inode_is EXT2_S_IFDIR i = false.
Proof. unfold inode_is. intros ->%Z.eqb_eq. done. Qed.

Lemma file_not_in_tree fs v T ino n D :
  tree_ok fs v T -> file_rep fs v (vino fs v ino) n D -> T !! ino = None.
Proof.
  intros HT P. destruct (T !! ino) as [m|] eqn:Em; [|done].
  destruct (to_dir _ _ _ HT _ _ Em) as [_ (Ms & B & _)].
  pose proof (reg_not_dir _ (fp_reg _ _ _ _ _ P)). by rewrite (db_dir _ _ _ _ B) in *.
Qed.

(** ** [ext2_write_file] and [ext2_read_file] *)

(** A path that names a regular file, on a volume whose directories form a tree. *)
Record file_at d s v (T : gmap Z dmap) (path : list Z) (ino n : Z) (D : list Z) : Prop := {
  fa_inv : fs_inv d s v;
  fa_mounted : fs_mounted (e_fs s) = true;
  fa_tree : tree_ok (e_fs s) v T;
  fa_path : resolve T path = Some ino;
  fa_file : file_rep (e_fs s) v (vino (e_fs s) v ino) n D;
}.

Lemma file_at_reads d s v T path ino n D s' :
  file_at d s v T path ino n D -> reads d v s s' -> file_at d s' v T path ino n D.
Proof.
  intros [I Hm HT Hp P] R. pose proof (reads_inv _ _ _ _ I R). destruct R as (_ & F & _).
  split; rewrite ?F; done.
Qed.

Lemma file_at_ino d s v T path ino n D : file_at d s v T path ino n D -> ino_in (e_fs s) ino.
Proof. intros A. eapply resolve_ino_in; apply A. Qed.

Lemma replaced_reads d s s' v ino n D rc s2 :
  reads d v s s' -> replaced d s' v ino n D rc s2 -> replaced d s v ino n D rc s2.
Proof.
  intros (_ & F & E1) [E2 HR]. unfold replaced, out_of_space in *. rewrite F in HR.
  split; [by etransitivity|done].
Qed.

(** The contents an append starts from. *)
Lemma append_data_run d s v T path ino n old data :
  file_at d s v T path ino n old ->
  Z.of_nat (length old) <= iter_reach (e_fs s) * fs_block_size (e_fs s) ->
  run (append_data ino data) s (fun r s' => reads d v s s' /\
    match r with
    | inl (D, _) => D = old ++ data \/ (D = data /\ heap_exhausted (Z.of_nat (length old) + 1))
    | inr e => e = - ENOSPC /\ heap_exhausted (u32 (Z.of_nat (length old) + Z.of_nat (length data)))
    end).
Proof.
  intros A Hr. pose proof A as [I _ _ _ P]. unfold append_data.
  run_step read_file_ino_rep as (R1 & Hc); [done|by eapply file_at_ino|done|done|].
  destruct Hc as [(p & ->)|(-> & Hh)]; [|apply run_ret; split; [done|by right]].
  run_step (lift_w_reads d v) as (-> & R2); [apply R1|apply kmalloc_quiet|].
  run_step (lift_w_reads d v) as (_ & R3); [apply R2|apply kfree_quiet|].
  apply run_ret. split; [by eapply reads_trans; [|eapply reads_trans]|].
  destruct (kmalloc _ _).1 as [c|] eqn:Ek; [left|split; [done|by exists (e_w s')]].
  unfold sub. by rewrite Nat2Z.id, drop_0, take_app_length.
Qed.

(** What a write leaves behind, by its flags: [O_APPEND] starts from the old
    contents, unless the heap is exhausted. *)
Definition write_outcome d s v ino n (old data : list Z) (flags rc : Z) s' : Prop :=
  replaced d s v ino n (if Z.land flags VFS_O_APPEND =? 0 then data else old ++ data) rc s' \/
  (Z.land flags VFS_O_APPEND <> 0 /\
   ((replaced d s v ino n data rc s' /\ heap_exhausted (Z.of_nat (length old) + 1)) \/
    (rc = - ENOSPC /\ reads d v s s' /\
     heap_exhausted (u32 (Z.of_nat (length old) + Z.of_nat (length data)))))).

Lemma ext2_write_file_run d s v T path ino n old data flags :
  file_at d s v T path ino n old -> bytes_ok old -> bytes_ok data ->
  Z.of_nat (length old) + Z.of_nat (length data) < 2 ^ 32 ->
  (Z.land flags VFS_O_APPEND <> 0 ->
   Z.of_nat (length old) <= iter_reach (e_fs s) * fs_block_size (e_fs s)) ->
  run (ext2_write_file path data flags) s (write_outcome d s v ino n old data flags).
Proof.
  intros A Hold Hdata Hlen Happ. pose proof (file_at_ino _ _ _ _ _ _ _ _ A) as Hino.
  pose proof A as [I Hm HT Hp P].
  unfold ext2_write_file. apply run_bind, run_gets. rewrite Hm. cbn [negb].
  run_step ext2_path_to_inode_run as (-> & R1); [done|done|]. rewrite Hp. apply run_bind, run_ret.
  pose proof (file_at_reads _ _ _ _ _ _ _ _ _ A R1) as A1. pose proof A1 as [I1 _ _ _ P1].
  run_step ext2_read_inode_run as (-> & Hw & I2 & F2 & E2); [done|by eapply file_at_ino|].
  assert (reads d v s' s'0) as R2 by done. pose proof (file_at_reads _ _ _ _ _ _ _ _ _ A1 R2) as A2.
  rewrite (fp_reg _ _ _ _ _ P1). cbn [negb].
  assert (reads d v s s'0) as R02 by (by eapply reads_trans).
  assert (forall s3 D c, reads d v s s3 -> bytes_ok D -> Z.of_nat (length D) < 2 ^ 32 ->
    run (replace_data ino (vino (e_fs s) v ino) D c) s3 (replaced d s v ino n D)) as Hrep.
  { intros s3 D c R3 HD HDl. pose proof (file_at_reads _ _ _ _ _ _ _ _ _ A R3) as A3.
    pose proof A3 as [I3 _ _ _ P3]. eapply run_mono.
    - replace (vino (e_fs s) v ino) with (vino (e_fs s3) v ino) by (by rewrite (proj1 (proj2 R3))).
      apply (replace_data_run d s3 v ino n D); try done; [by eapply file_at_ino|apply P3|apply P3].
    - intros rc s4. by apply replaced_reads. }
  replace (vino (e_fs s') v ino) with (vino (e_fs s) v ino) by (by rewrite (proj1 (proj2 R1))).
  apply run_bind. unfold write_outcome. case Z.eqb_spec; intros Hf.
  - apply run_ret. run_last Hrep as HR; [done|done|lia|]. by left.
  - run_last append_data_run as (R3 & Hc);
      [exact A2|rewrite (proj1 (proj2 R02)); by apply Happ|].
    assert (reads d v s s'1) as R03 by (by eapply reads_trans).
    destruct a as [[D c]|e].
    + destruct Hc as [->|[-> Hh]].
      * run_last Hrep as HR; [done|by apply Forall_app_2|rewrite length_app; lia|]. by left.
      * run_last Hrep as HR; [done|done|lia|]. right. split; [done|]. by left.
    + destruct Hc as [-> Hh]. apply run_ret. right. split; [done|]. by right.
Qed.

(** Reading returns the contents and touches only the access time. *)
Lemma ext2_read_file_run d s v T path ino n D :
  file_at d s v T path ino n D ->
  Z.of_nat (length D) <= iter_reach (e_fs s) * fs_block_size (e_fs s) ->
  run (ext2_read_file path) s (fun r s' => same_env s s' /\ exists v', fs_inv d s' v' /\
    vol_frame (eq ino) (fun _ => False) (e_fs s) v (e_fs s') v' /\
    file_rep (e_fs s') v' (vino (e_fs s') v' ino) n D /\
    (let i := vino (e_fs s) v ino in let i' := vino (e_fs s') v' ino in same_owner i i' /\ fresh_map (e_fs s) v i n v' i' n) /\
    ((exists p, r = Some (p, D ++ [0], Z.of_nat (length D))) \/
     (r = None /\ heap_exhausted (Z.of_nat (length D) + 1)))).
Proof.
  intros A Hr. pose proof (file_at_ino _ _ _ _ _ _ _ _ A) as Hino. pose proof A as [I Hm HT Hp P].
  unfold ext2_read_file. apply run_bind, run_gets. rewrite Hm. cbn [negb].
  run_step ext2_path_to_inode_run as (-> & R1); [done|done|]. rewrite Hp.
  pose proof (file_at_reads _ _ _ _ _ _ _ _ _ A R1) as A1. pose proof A1 as [I1 _ _ _ P1].
  run_step ext2_read_inode_run as (-> & Hw & I2 & F2 & E2); [done|by eapply file_at_ino|].
  assert (reads d v s' s'0) as R2 by done. pose proof (file_at_reads _ _ _ _ _ _ _ _ _ A1 R2) as A2.
  rewrite (fp_reg _ _ _ _ _ P1). cbn [negb]. pose proof A2 as [I2' _ _ _ P2].
  assert (reads d v s s'0) as R02 by (by eapply reads_trans).
  run_step read_file_ino_rep as (R3 & Hc); [done|by eapply file_at_ino|done|by rewrite (proj1 (proj2 R02))|].
  assert (reads d v s s'1) as R03 by (by eapply reads_trans). pose proof (file_at_reads _ _ _ _ _ _ _ _ _ A R03) as A3.
  pose proof A3 as [I3 _ _ _ P3]. destruct R03 as (_ & F3 & E3).
  destruct Hc as [(p & ->)|(-> & Hh)].
  2:{ apply run_ret. split; [done|]. exists v. rewrite F3 in *. split; [done|].
      split; [split; try done; apply counters_only_refl|]. split; [done|]. split; [by split; [|left]|by right]. }
  run_step (lift_w_reads d v) as (-> & R4); [apply I3|apply time_now_quiet|].
  pose proof (time_now_range (e_w s'1)) as Hnow. set (now := (time_now (e_w s'1)).1) in *. clearbody now.
  pose proof (file_at_reads _ _ _ _ _ _ _ _ _ A3 R4) as A4. pose proof A4 as [I4 _ _ _ P4].
  pose proof R4 as (_ & F4 & E4).
  replace (vino (e_fs s') v ino) with (vino (e_fs s'2) v ino)
    by (rewrite F4, F3; by rewrite (proj1 (proj2 R1))).
  assert (file_rep (e_fs s'2) v (set_i_atime now (vino (e_fs s'2) v ino)) n D) as [R5 M5 Z5 D5].
  { destruct P4 as [Q1 Q2 Q3 Q4]. apply (file_rep_attrs _ _ (vino (e_fs s'2) v ino)); try done.
    apply set_atime_wf; [done|apply Q2]. }
  run_step write_back_run as (-> & E5 & v5 & I5 & G5 & V5 & P5);
    [exact I4|by eapply file_at_ino|exact M5|done|exact Z5|exact D5|].
  apply run_ret. split; [etransitivity; [exact E3|]; by etransitivity|]. exists v5. split; [done|].
  destruct (file_map_frame _ _ _ _ _ _ _ _ M5 G5) as [_ Hp5]; [tauto|].
  destruct (file_map_attrs _ _ _ _ _ (fp_map _ _ _ _ _ P4) (fm_wf _ _ _ _ M5)) as [_ Hp4]; [done|].
  rewrite F4, F3 in *. split; [done|]. split; [by rewrite V5|]. cbv zeta. rewrite V5. split; [|left; by exists p].
  split; [done|]. intros b Ho. left. eapply map_owns_same, Ho; [|done]. intros k. by rewrite Hp5, Hp4.
Qed.
End WriteFile.

(** ** Main results *)

Section FileTheorems.
Context {W : Type} `{MachineOk W}.
Abbreviation E := (ext2 W).
Implicit Types (s : E) (v : vol) (d : disk_device) (T : gmap Z dmap) (data : list Z).

Lemma replaced_file_at d s v T path ino n old D rc s' :
  file_at d s v T path ino n old ->
  tree_apart (e_fs s) v T (map_owns v (vino (e_fs s) v ino) n) -> replaced d s v ino n D rc s' ->
  exists v' n', (rc = 0 /\ file_at d s' v' T path ino n' D) \/
    (rc = - ENOSPC /\ file_at d s' v' T path ino n' [] /\ out_of_space s v (vino (e_fs s) v ino) n D).
Proof.
  intros A HA (E1 & v' & I' & G & _ & Ho). pose proof A as [I Hm HT Hp P].
  destruct (fi_bs _ _ _ I) as [Hspb Hbs]. pose proof (fr_counters _ _ _ _ _ _ G) as C.
  assert (forall n' D', file_rep (e_fs s') v' (vino (e_fs s') v' ino) n' D' ->
    file_at d s' v' T path ino n' D') as Hat.
  { intros n' D' P'. split; try done.
    - by rewrite (co_eq _ _ C).
    - eapply tree_ok_frame; [|exact HT|exact HA|by eapply file_not_in_tree|exact G|by apply reg_not_dir, P'].
      lia. }
  exists v'. destruct Ho as [(-> & n' & P' & _)|(-> & P' & Hout)].
  - exists n'. left. split; [done|]. by apply Hat.
  - exists 0. right. split_and!; [done|by apply Hat|done].
Qed.


(** What [ext2_write_file] stored under a path is what
    [ext2_read_file] of that path returns, for files up to the reach of the
    block iterator; reading fails only when the heap has no room for it. *)
Theorem write_read_roundtrip d s v T path ino n old data flags :
  file_at d s v T path ino n old ->
  tree_apart (e_fs s) v T (map_owns v (vino (e_fs s) v ino) n) ->
  bytes_ok old -> bytes_ok data -> Z.land flags VFS_O_APPEND = 0 ->
  Z.of_nat (length old) + Z.of_nat (length data) < 2 ^ 32 ->
  Z.of_nat (length data) <= iter_reach (e_fs s) * fs_block_size (e_fs s) ->
  run (rc ← ext2_write_file path data flags; r ← ext2_read_file path; mret (rc, r)) s
    (fun '(rc, r) _ => exists D,
       ((rc = 0 /\ D = data) \/
        (rc = - ENOSPC /\ D = [] /\ out_of_space s v (vino (e_fs s) v ino) n data)) /\
       ((exists p, r = Some (p, D ++ [0], Z.of_nat (length D))) \/
        (r = None /\ heap_exhausted (Z.of_nat (length D) + 1)))).
Proof.
  intros A HA Hold Hdata Hf Hlen Hr. pose proof A as [I _ _ _ _]. destruct (fi_bs _ _ _ I) as [Hspb Hbs].
  run_step ext2_write_file_run as [HR|[? _]]; [done|done|done|done|done| |done].
  rewrite Hf in HR. cbn [Z.eqb] in HR. pose proof HR as (_ & v0 & _ & G & _).
  pose proof (fr_counters _ _ _ _ _ _ G) as C.
  assert (forall m, m <= iter_reach (e_fs s) * fs_block_size (e_fs s) ->
    m <= iter_reach (e_fs s') * fs_block_size (e_fs s')) as Hreach by (by rewrite (co_eq _ _ C)).
  destruct (replaced_file_at _ _ _ _ _ _ _ _ _ _ _ A HA HR) as (v' & n' & [(-> & A')|(-> & A' & Hout)]).
  - run_step ext2_read_file_run as (_ & v1 & _ & _ & _ & _ & Hres); [exact A'|by apply Hreach|].
    apply run_ret. exists data. split; [by left|done].
  - run_step ext2_read_file_run as (_ & v1 & _ & _ & _ & _ & Hres);
      [exact A'|apply Hreach; pose proof (Z.div_pos (fs_block_size (e_fs s)) 4); unfold iter_reach; cbn [length]; nia|].
    apply run_ret. exists []. split; [by right|done].
Qed.
End FileTheorems.
