(* ===== verification/Ext2Demo.v ===== *)
(** * A concrete EXT2 volume

    A 16-block volume with 1 KiB blocks on the second disk of Platform.v: one
    group, 16 inodes, a root directory holding ".", ".." and a file "f" of
    three bytes.  It satisfies the invariants of the driver, so the theorems of the EXT2 files apply to it:
    the witnesses below are instances at this volume, and the runs at the end
    evaluate the driver on it. *)

From S2P Require Import Prelude Heap Time Machine Platform VfsTypes Ext2Layout Ext2Block Ext2Super.
From S2P Require Import Ext2Inode Ext2Alloc Ext2Inodes Ext2File Ext2Dir Ext2Dents Ext2Write.
From S2P Require Import Ext2Files Ext2Store Ext2Dirs Ext2Contents.

(** ** The image *)

Definition store_block (b : Z) (data : list Z) (m : gmap (bool * Z) (list Z)) :=
  <[(true, 2 * b) := sub data 0 512]> (<[(true, 2 * b + 1) := sub data 512 512]> m).

Definition demo_super : list Z :=
  foldr (fun '(n, o, x) b => put_le n b o x) (zeros 1024)
    [(4%nat, 0, 16); (4%nat, 4, 16); (4%nat, 12, 7); (4%nat, 16, 4); (4%nat, 20, 1);
     (4%nat, 32, 8192); (4%nat, 40, 16); (2%nat, 56, EXT2_MAGIC)].
Definition demo_bgdt : list Z :=
  foldr (fun '(n, o, x) b => put_le n b o x) (zeros 1024)
    [(4%nat, 0, 3); (4%nat, 4, 4); (4%nat, 8, 5); (2%nat, 12, 7); (2%nat, 14, 4); (2%nat, 16, 1)].
Definition demo_block_bitmap : list Z := put (zeros 1024) 0 [0xFF].
Definition demo_inode_bitmap : list Z := put (zeros 1024) 0 [0xFF; 0x0F].
Definition demo_root : ext2_inode :=
  set_i_block_at 0 7 (set_i_size 1024 (set_i_blocks 2
    (new_inode EXT2_DEFAULT_DIR_MODE 0 0 1000 2))).
Definition demo_file : ext2_inode :=
  set_i_block_at 0 8 (set_i_size 3 (set_i_blocks 2
    (new_inode EXT2_DEFAULT_FILE_MODE 1 1 1000 1))).
Definition demo_inode_table : list Z := put (zeros 1024) 128 (inode_encode demo_root).
Definition demo_inode_table' : list Z := put (zeros 1024) 384 (inode_encode demo_file).
Definition demo_dents : list dent :=
  [Dent 2 1 EXT2_FT_DIR (46 :: zeros 3); Dent 2 2 EXT2_FT_DIR [46; 46; 0; 0];
   Dent 12 1 EXT2_FT_REG_FILE (102 :: zeros 991)].
Definition demo_data : list Z := [97; 98; 99].

Definition demo_sectors : gmap (bool * Z) (list Z) :=
  store_block 1 demo_super (store_block 2 demo_bgdt (store_block 3 demo_block_bitmap
    (store_block 4 demo_inode_bitmap (store_block 5 demo_inode_table
      (store_block 6 demo_inode_table' (store_block 7 (dents_bytes demo_dents)
        (store_block 8 (put (zeros 1024) 0 demo_data) ∅))))))).

Definition demo_w : platform :=
  mk_platform demo_sectors (fun _ => []) (Heap.heap_init 0x100000) Time.demo_cmos 1 1.

Definition demo_fs : ext2_fs :=
  mk_ext2_fs (Some ata1) true 1024 2 16 8192 128 1 1 16 16 0 2 1 (Some (0x100014, demo_bgdt)).

Definition empty_cache : list cache_slot := replicate 4 (mk_slot 0 0 (zeros 4096)).

(** The driver before and after mounting. *)
Definition demo_boot : ext2 platform := mk_ext2 ext2_fs_zero empty_cache 0 demo_w.
Definition demo_s : ext2 platform := mk_ext2 demo_fs empty_cache 0 demo_w.
Definition demo_v : vol := mk_vol (disk_block demo_s ata1) (sectors demo_w ata1 2 2).

(** ** Its invariants *)

Lemma empty_cache_ok : Forall slot_ok empty_cache.
Proof. apply Forall_replicate. split; [apply length_zeros|apply zeros_ok]. Qed.

Lemma demo_geom : geom demo_fs ata1.
Proof. split; simpl; done || lia. Qed.

Lemma demo_vinv : vinv ata1 demo_s demo_v.
Proof.
  split; [|constructor|done|done]. apply block_inv_empty.
  - apply demo_geom.
  - split; [done|apply empty_cache_ok].
  - by apply Forall_replicate.
Qed.

Lemma demo_bgdt_len : length demo_bgdt = 1024%nat.
Proof. vm_compute. reflexivity. Qed.

Lemma demo_bgdt_bytes : bytes_ok demo_bgdt.
Proof. apply (bool_decide_unpack _). vm_compute. exact I. Qed.

Lemma demo_meta m : meta_in demo_fs m ->
  (m = MBgdt 0 /\ meta_addr demo_fs m = 2) \/ (m = MBbm 0 /\ meta_addr demo_fs m = 3) \/
  (m = MIbm 0 /\ meta_addr demo_fs m = 4) \/ (m = MItab 0 0 /\ meta_addr demo_fs m = 5) \/
  (m = MItab 0 1 /\ meta_addr demo_fs m = 6).
Proof.
  destruct m as [k|g|g|g k]; simpl; intros Hm.
  - assert (k = 0) as -> by lia. auto.
  - assert (g = 0) as -> by lia. auto.
  - assert (g = 0) as -> by lia. auto.
  - destruct Hm as [Hg Hk]. change (itab_blocks demo_fs) with 2 in Hk.
    assert (g = 0) as -> by lia. assert (k = 0 \/ k = 1) as [-> | ->] by lia; auto 10.
Qed.

Lemma demo_layout : layout_ok demo_fs.
Proof.
  pose proof demo_bgdt_len as Hl.
  split; try (simpl; unfold EXT2_MIN_INODE_SIZE; lia || done).
  - split; [by eexists| |apply demo_bgdt_bytes|].
    + change (bgdt_bytes demo_fs) with demo_bgdt. rewrite Hl. done.
    + simpl. intros k Hk. split; simpl; lia.
  - intros m Hm. destruct (demo_meta m Hm) as [[_ ->]|[[_ ->]|[[_ ->]|[[_ ->]|[_ ->]]]]]; split; simpl; lia.
  - intros m m' Hm Hm' E. pose proof (demo_meta m Hm). pose proof (demo_meta m' Hm').
    intuition (congruence || lia).
Qed.

Lemma demo_used b : 1 <= b < 9 -> blk_used demo_fs demo_v b = true.
Proof.
  intros Hb. assert (b = 1 \/ b = 2 \/ b = 3 \/ b = 4 \/ b = 5 \/ b = 6 \/ b = 7 \/ b = 8) as Hb' by lia.
  destruct_or! Hb'; subst b; vm_compute; reflexivity.
Qed.

Lemma demo_vol : vol_ok demo_fs demo_v.
Proof.
  split.
  - intros k Hk. simpl in Hk. assert (k = 0) as -> by lia. vm_compute. reflexivity.
  - intros m Hm. destruct (demo_meta m Hm) as [[_ ->]|[[_ ->]|[[_ ->]|[[_ ->]|[_ ->]]]]];
      (split; [unfold blk_in; simpl; lia|apply demo_used; lia]).
  - intros b [Hb1 Hb2] Hs. simpl in *. apply demo_used. lia.
  - intros g Hg. simpl in Hg. assert (g = 0) as -> by lia. vm_compute. reflexivity.
  - intros g Hg. simpl in Hg. assert (g = 0) as -> by lia. vm_compute. reflexivity.
Qed.

Lemma demo_inv : fs_inv ata1 demo_s demo_v.
Proof. split; [apply demo_vinv|apply demo_layout|apply demo_vol]. Qed.

(** ** Witnesses *)

Definition demo_block (x : Z) : list Z := replicate 1024 x.

Lemma demo_block_ok x : is_u8 x -> bytes_ok (demo_block x).
Proof. intros. by apply Forall_replicate. Qed.

Lemma demo_valid b : 2 <= b < 16 -> blk_valid demo_fs b.
Proof. intros. split; simpl; lia. Qed.

Lemma block_cache_transparent_witness :
  let ops := [BWrite 8 (demo_block 1); BRead 8; BRead 9; BRead 10; BRead 11; BRead 12; BRead 8] in
  run (run_cached ops) demo_s (fun rs s' => rs = (run_plain ops (v_blk demo_v)).1 /\
    vinv ata1 s' (mk_vol (run_plain ops (v_blk demo_v)).2 (v_sb demo_v))).
Proof.
  apply (block_cache_transparent ata1); [apply demo_vinv|].
  apply Forall_cons. split.
  - split_and!; [apply demo_valid; lia|by apply demo_block_ok|apply length_replicate].
  - repeat (apply Forall_cons; split; [apply demo_valid; lia|]). apply Forall_nil_2.
Defined.


Definition demo_s1 : ext2 platform := (ext2_read_block 8 demo_s).2.
Definition demo_s2 : ext2 platform := (ext2_read_block 9 demo_s1).2.

Lemma lru_keeps_latest_witness : slot_at demo_s2 0 = mk_slot 8 1 (deref demo_s1 0).
Proof.
  apply (lru_keeps_latest ata1 demo_s 8 0 demo_s1 9 (Some 1%nat) demo_s2).
  - apply demo_vinv.
  - split; [apply Forall_replicate; simpl; lia|simpl; lia].
  - apply demo_valid. lia.
  - apply demo_valid. lia.
  - lia.
  - vm_compute. reflexivity.
  - vm_compute. reflexivity.
Defined.

Lemma ext2_alloc_block_correct_witness :
  run ext2_alloc_block demo_s (alloc_result ata1 demo_s demo_v).
Proof. apply (ext2_alloc_block_correct ata1 demo_s demo_v). apply demo_inv. Defined.

Lemma demo_data_block b : 7 <= b < 16 -> data_block demo_fs b.
Proof.
  intros Hb. split_and!; [split; simpl; lia|apply demo_valid; lia|].
  intros m Hm. destruct (demo_meta m Hm) as [[_ ->]|[[_ ->]|[[_ ->]|[[_ ->]|[_ ->]]]]]; lia.
Qed.

Lemma ext2_free_block_correct_witness :
  run (ext2_free_block 7) demo_s (fun _ s' => exists v', fs_inv ata1 s' v' /\
    block_freed demo_fs demo_v 7 (e_fs s') v' /\
    run (ext2_free_block 7) s' (fun _ s'' => vinv ata1 s'' v' /\ e_fs s'' = e_fs s')).
Proof.
  apply (ext2_free_block_correct ata1 demo_s demo_v 7); [apply demo_inv|apply demo_data_block; lia].
Defined.

Lemma alloc_free_restores_witness :
  run (r ← ext2_alloc_block; match r with
       | Some b => _ ← ext2_free_block b; mret (Some b)
       | None => mret None
       end) demo_s
    (fun r s' => forall b, r = Some b -> exists v', fs_inv ata1 s' v' /\ v_sb v' = v_sb demo_v /\
       (forall b', blk_in demo_fs b' -> blk_used (e_fs s') v' b' = blk_used demo_fs demo_v b') /\
       (forall g, 0 <= g < fs_num_groups demo_fs ->
          bg_free_blocks_count (bgdt_bytes (e_fs s')) g = bg_free_blocks_count (bgdt_bytes demo_fs) g) /\
       alloc_keeps demo_fs demo_v v' b).
Proof. apply (alloc_free_restores ata1 demo_s demo_v). apply demo_inv. Defined.

Lemma ext2_alloc_inode_correct_witness :
  run (ext2_alloc_inode true) demo_s (ialloc_result ata1 demo_s demo_v).
Proof. apply (ext2_alloc_inode_correct ata1 demo_s demo_v true). apply demo_inv. Defined.

Lemma ext2_free_inode_correct_witness :
  run (ext2_free_inode 11 false) demo_s (fun _ s' => exists v', fs_inv ata1 s' v' /\
    ino_used (e_fs s') v' 11 = false /\ vino (e_fs s') v' 11 = inode_zero /\
    (forall ino', ino_in demo_fs ino' -> ino' <> 11 ->
       ino_used (e_fs s') v' ino' = ino_used demo_fs demo_v ino' /\
       vino (e_fs s') v' ino' = vino demo_fs demo_v ino') /\
    (forall b, blk_in demo_fs b -> blk_used (e_fs s') v' b = blk_used demo_fs demo_v b) /\
    (forall b, data_block demo_fs b -> v_blk v' b = v_blk demo_v b)).
Proof.
  apply (ext2_free_inode_correct ata1 demo_s demo_v 11 false);
    [apply demo_inv|split; simpl; lia|vm_compute; reflexivity].
Defined.

Lemma demo_root_wf : inode_wf demo_root.
Proof.
  split_and!; [reflexivity|reflexivity|]. unfold field_ok.
  repeat constructor; vm_compute; congruence.
Qed.

Lemma ext2_inode_roundtrip_witness :
  run (rc ← ext2_write_inode 12 demo_root; a ← ext2_read_inode 12; b ← ext2_read_inode 2;
       mret (rc, a, b)) demo_s
    (fun r s' => r = (0, Some demo_root, Some (if decide (2 = 12) then demo_root else vino demo_fs demo_v 2)) /\
       exists v', fs_inv ata1 s' v' /\ (forall b, data_block demo_fs b -> v_blk v' b = v_blk demo_v b)).
Proof.
  apply (ext2_inode_roundtrip ata1 demo_s demo_v 12 2 demo_root);
    [apply demo_inv|split; simpl; lia|split; simpl; lia|apply demo_root_wf].
Defined.

(** ** Its directory tree *)

Definition demo_map : dmap := dir_map demo_dents.
Definition demo_tree : gmap Z dmap := {[ 2 := demo_map ]}.

Lemma demo_dir_block : dir_block_map 1024 (dents_bytes demo_dents) demo_map.
Proof.
  exists demo_dents. split_and!; [|apply (bool_decide_unpack _); vm_compute; exact I|done].
  split_and!; [|done|vm_compute; reflexivity].
  repeat (apply Forall_cons_2); [..|apply Forall_nil_2]; split;
    try (apply (bool_decide_unpack _); vm_compute; exact I); vm_compute; intuition congruence.
Qed.

Lemma demo_vino : vino demo_fs demo_v 2 = demo_root /\ vino demo_fs demo_v 12 = demo_file.
Proof. split; vm_compute; reflexivity. Qed.

(** A block map with a single direct block. *)
Lemma one_block_map i b :
  inode_wf i -> i_block i = b :: replicate 14 0 -> 7 <= b < 9 -> file_map demo_fs demo_v i 1.
Proof.
  intros Hw Hb Hr. assert (forall k, 0 < k < 268 -> fptr demo_v i k = 0) as Hz.
  { intros k Hk. unfold fptr, i_block_at. rewrite Hb. case Z.ltb_spec; intros Hlt; [|done].
    assert (exists j, Z.to_nat k = S j /\ (j < 14)%nat) as (j & -> & Hj) by (exists (Z.to_nat (k - 1)); lia).
    assert ((b :: replicate 14 0) !! S j = Some 0) as -> by (by apply (lookup_replicate_2 14)). done. }
  assert (fptr demo_v i 0 = b) as H0 by (unfold fptr, i_block_at; by rewrite Hb).
  split; try done; try lia.
  - intros k Hk. assert (k = 0) as -> by lia. rewrite H0. split; [apply demo_data_block|apply demo_used]; lia.
  - change (map_reach demo_fs) with 268. intros k Hk. apply Hz. lia.
  - unfold i_block_at. by rewrite Hb.
Qed.

Lemma demo_file_wf : inode_wf demo_file.
Proof.
  split_and!; [reflexivity|reflexivity|]. unfold field_ok.
  repeat constructor; vm_compute; congruence.
Qed.

Lemma demo_dir_rep : dir_rep demo_fs demo_v (vino demo_fs demo_v 2) demo_map.
Proof.
  rewrite (proj1 demo_vino). exists [demo_map]. split; [|symmetry; apply (right_id_L ∅ (∪))].
  split; try done.
  - apply (one_block_map _ 7); [apply demo_root_wf|reflexivity|lia].
  - intros k m Hk. apply list_lookup_singleton_Some in Hk as [-> <-].
    replace (v_blk demo_v (fptr demo_v demo_root (Z.of_nat 0))) with (dents_bytes demo_dents)
      by (vm_compute; reflexivity). apply demo_dir_block.
  - intros j k m m' [-> _]%list_lookup_singleton_Some [-> _]%list_lookup_singleton_Some. done.
Qed.

Lemma demo_tree_ok : tree_ok demo_fs demo_v demo_tree.
Proof.
  unfold demo_tree. split.
  - by exists demo_map.
  - intros ino m [<- <-]%lookup_singleton_Some. split; [split; simpl; lia|apply demo_dir_rep].
  - intros ino m name x [<- <-]%lookup_singleton_Some Hx.
    assert (x.1 = 2 \/ x.1 = 12) as Hc.
    { apply elem_of_list_to_map_2 in Hx. change (live demo_dents) with
        [([46], (2, 2)); ([46; 46], (2, 2)); ([102], (12, 1))] in Hx.
      rewrite !elem_of_cons, elem_of_nil in Hx. destruct Hx as [Hx|[Hx|[Hx|[]]]]; injection Hx as -> ->; auto. }
    destruct Hc as [-> | ->]; (split; [split; simpl; lia|]).
    + by rewrite lookup_singleton_eq.
    + intros _. by rewrite (proj2 demo_vino).
Qed.

Lemma demo_file_at : file_at ata1 demo_s demo_v demo_tree [SLASH; 102] 12 1 demo_data.
Proof.
  split; [apply demo_inv|reflexivity|apply demo_tree_ok|vm_compute; reflexivity|].
  change (e_fs demo_s) with demo_fs. rewrite (proj2 demo_vino). split.
  - reflexivity.
  - apply (one_block_map _ 8); [apply demo_file_wf|reflexivity|lia].
  - reflexivity.
  - vm_compute. reflexivity.
Qed.

Lemma dir_block_insert_witness :
  match insert_in_block 1024 (dents_bytes demo_dents) [103] 13 1 with
  | Some buf' => dir_block_map 1024 buf' (<[ [103] := (13, 1)]> demo_map) /\
      (forall k, Z.of_nat (length k) <= 255 ->
         find_entry 1024 buf' k =
           if decide (k = [103]) then Some 13 else find_entry 1024 (dents_bytes demo_dents) k)
  | None => forall l e, dir_block 1024 l (dents_bytes demo_dents) -> e ∈ l -> en_slack e < room (Z.of_nat 1)
  end.
Proof.
  apply (dir_block_insert 1024 (dents_bytes demo_dents) demo_map [103] 13 1);
    [apply demo_dir_block|vm_compute; reflexivity|split; lia|lia|split; lia|by apply Forall_cons_2|simpl; lia].
Defined.

Lemma dir_block_remove_witness :
  match remove_in_block 1024 (dents_bytes demo_dents) [102] with
  | Some buf' => is_Some (find_entry 1024 (dents_bytes demo_dents) [102]) /\
      dir_block_map 1024 buf' (delete [102] demo_map) /\
      (forall k, Z.of_nat (length k) <= 255 ->
         find_entry 1024 buf' k =
           if decide (k = [102]) then None else find_entry 1024 (dents_bytes demo_dents) k)
  | None => find_entry 1024 (dents_bytes demo_dents) [102] = None
  end.
Proof.
  apply (dir_block_remove 1024 (dents_bytes demo_dents) demo_map [102]);
    [apply demo_dir_block|lia|simpl; lia].
Defined.


Lemma ext2_dir_remove_correct_witness :
  run (ext2_dir_remove 2 [102]) demo_s (fun rc s' => same_env demo_s s' /\
    match demo_map !! [102] with
    | Some _ => rc = 0 /\ dir_updated ata1 demo_s demo_v 2 (delete [102] demo_map) s'
    | None => rc = -1 /\ reads ata1 demo_v demo_s s'
    end).
Proof.
  apply (ext2_dir_remove_correct ata1 demo_s demo_v 2 [102] demo_map);
    [apply demo_inv|split; simpl; lia|apply demo_dir_rep|simpl; lia].
Defined.

Lemma ext2_path_to_inode_correct_witness :
  run (ext2_path_to_inode [SLASH; 46; SLASH; SLASH; 102]) demo_s
    (fun r s' => r = resolve demo_tree [SLASH; 46; SLASH; SLASH; 102] /\ reads ata1 demo_v demo_s s').
Proof.
  apply (ext2_path_to_inode_correct ata1 demo_s demo_v demo_tree [SLASH; 46; SLASH; SLASH; 102]);
    [apply demo_inv|apply demo_tree_ok].
Defined.

Lemma demo_data_bytes : bytes_ok demo_data.
Proof. apply (bool_decide_unpack _). vm_compute. exact I. Qed.


(** The only directory uses block 7, the file block 8. *)
Lemma demo_apart :
  tree_apart demo_fs demo_v demo_tree (map_owns demo_v (vino demo_fs demo_v 12) 1).
Proof.
  intros dino m b Hd i Ho Hf. unfold demo_tree in Hd. apply lookup_singleton_Some in Hd as [<- _].
  unfold i in *. rewrite (proj1 demo_vino) in Ho. rewrite (proj2 demo_vino) in Hf.
  change (i_size demo_root / fs_block_size demo_fs) with 1 in Ho.
  destruct Ho as [[? _]|(k & Hk & ->)]; [lia|]. destruct Hf as [[? _]|(k' & Hk' & E)]; [lia|].
  assert (k = 0 /\ k' = 0) as [-> ->] by lia. by vm_compute in E.
Qed.

Lemma write_read_roundtrip_witness :
  run (rc ← ext2_write_file [SLASH; 102] [120; 121] 0; r ← ext2_read_file [SLASH; 102]; mret (rc, r)) demo_s
    (fun '(rc, r) _ => exists D,
       ((rc = 0 /\ D = [120; 121]) \/
        (rc = - ENOSPC /\ D = [] /\ out_of_space demo_s demo_v (vino demo_fs demo_v 12) 1 [120; 121])) /\
       ((exists p, r = Some (p, D ++ [0], Z.of_nat (length D))) \/
        (r = None /\ heap_exhausted (W := platform) (Z.of_nat (length D) + 1)))).
Proof.
  apply (write_read_roundtrip ata1 demo_s demo_v demo_tree [SLASH; 102] 12 1 demo_data [120; 121] 0).
  - apply demo_file_at.
  - apply demo_apart.
  - apply demo_data_bytes.
  - by repeat apply Forall_cons_2.
  - reflexivity.
  - simpl. lia.
  - vm_compute. congruence.
Defined.

(** ** Runs that show defects *)


(** Appending nothing to an empty file fails with -ENOSPC: the
    combined buffer is requested with [kmalloc(0)], which returns NULL. *)
Theorem append_nothing_enospc :
  run (a ← ext2_write_file [SLASH; 97] [] 0; b ← ext2_write_file [SLASH; 97] [] VFS_O_APPEND;
       mret (a, b)) demo_s (fun r _ => r = (0, - ENOSPC)).
Proof. vm_compute. reflexivity. Qed.

(** [ext2_block_cache_flush] resets the LRU clock but not the
    slots' stamps, so after a remount the four-slot cache works as one slot:
    the block just read is the next one evicted. *)
Theorem flush_defeats_lru :
  run (_ ← ext2_read_block 8; _ ← ext2_read_block 9; _ ← ext2_read_block 10;
       _ ← ext2_read_block 11; _ ← ext2_read_block 12;
       _ ← ext2_block_cache_flush;
       p ← ext2_read_block 13; q ← ext2_read_block 14; mret (p, q)) demo_s
    (fun r s' => r = (Some 1%nat, Some 1%nat) /\ blk_no (slot_at s' 1) = 14).
Proof. vm_compute. repeat split; reflexivity. Qed.

(** Appending when the heap is exhausted replaces the file: the
    read of the old contents fails, its error is ignored, and the new data
    alone is written.  The file of three bytes has one byte after a one-byte
    append that returns 0. *)
Theorem append_loses_contents :
  run (_ ← lift_w (kmalloc (HEAP_SIZE - 24)); ext2_write_file [SLASH; 102] [120] VFS_O_APPEND) demo_s
    (fun rc s' => rc = 0 /\ i_size (vino demo_fs demo_v 12) = 3 /\
       i_size (vino demo_fs (mk_vol (disk_block s' ata1) []) 12) = 1).
Proof. vm_compute. repeat split; reflexivity. Qed.
