(* ===== verification/VfsExt2.v ===== *)
(** * EXT2 below the VFS

    The operation table of fs/ext2/mount.c and what a client of the VFS sees
    of a mounted EXT2 volume: the volume gives a [tree_view] (VfsResolve.v), so
    resolution and permission checks of the VFS work on the directory maps of
    Ext2Dirs.v, and a file written through [vfs_write_file] is read back by
    [vfs_read_file]. *)

From stdpp Require Import strings.
From S2P Require Import Prelude Heap Time Machine Platform VfsTypes Vfs VfsPaths VfsResolve.
From S2P Require Import Ext2Layout Ext2Block Ext2Super Ext2Inode Ext2Alloc Ext2Inodes.
From S2P Require Import Ext2File Ext2Dir Ext2Dents Ext2Write Ext2Files Ext2Store Ext2Dirs Ext2Contents Ext2Demo.

Section Ops.
Context {W : Type} `{Machine W}.

(** [ext2_vfs_ops_table]. *)
Definition ext2_vfs_ops : vfs_ops (ext2 W) :=
  mk_ops (Some ext2_stat) (Some ext2_read_file) (Some ext2_write_file) (Some ext2_create)
    (Some ext2_unlink) (Some ext2_rename) (Some (fun U => ext2_readdir (U := U))) None None
    (Some ext2_readlink) (Some ext2_link) (Some ext2_symlink).

Definition ext2_uid (s : ext2 W) : Z := current_uid (e_w s).
Definition ext2_gid (s : ext2 W) : Z := current_gid (e_w s).

(** [vfs_mount("/", VFS_FS_EXT2, ext2_vfs_ops(), NULL)] (kernel/main.c). *)
Definition root_mount : list (vfs_mount_t (ext2 W)) := [mk_mount [SLASH] VFS_FS_EXT2 ext2_vfs_ops None].
End Ops.

(** ** What [stat] shows *)

Definition inode_stat (fs : ext2_fs) (ino : Z) (inode : ext2_inode) : vfs_stat :=
  mk_stat (node_type inode) (i_size inode) (Z.land (i_mode inode) 0x0FFF) (i_mode inode)
    (i_uid inode) (i_gid inode) (i_links_count inode) ino (i_atime inode)
    (i_mtime inode) (i_ctime inode) (i_blocks inode) (fs_block_size fs).

Definition ext2_view (fs : ext2_fs) (v : vol) (T : gmap Z dmap) (p : list Z) : option vfs_stat :=
  (fun ino => inode_stat fs ino (vino fs v ino)) <$> resolve T (strncpy PUREUNIX_MAX_PATH p).

(** No path of the tree ends in a symbolic link. *)
Definition no_symlinks (fs : ext2_fs) (v : vol) (T : gmap Z dmap) : Prop :=
  forall cs ino, walk T EXT2_ROOT_INODE cs = Some ino -> inode_is EXT2_S_IFLNK (vino fs v ino) = false.

Section Walk.
Implicit Types (T : gmap Z dmap) (cs : list (list Z)).

Lemma walk_app T cs cs' cur : walk T cur (cs ++ cs') = (x ← walk T cur cs; walk T x cs').
Proof.
  revert cur. induction cs as [|c cs IH]; intros cur; [done|]. cbn [app walk].
  destruct (T !! cur ≫= (fun m => m !! c)) as [x|]; [apply IH|done].
Qed.

Lemma walk_dir T cs c cur x ino :
  walk T cur cs = Some x -> walk T cur (cs ++ [c]) = Some ino -> is_Some (T !! x).
Proof.
  intros Hx. rewrite walk_app, Hx. cbn [mbind option_bind walk].
  destruct (T !! x); [done|]. done.
Qed.

Lemma resolve_render T cs : Forall comp cs -> fits cs -> resolve T (render cs) = walk T EXT2_ROOT_INODE cs.
Proof.
  intros Hc Hf. unfold resolve. destruct cs as [|c cs]; [done|].
  unfold fits, PUREUNIX_MAX_PATH in Hf. change (render (c :: cs)) with (joined (c :: cs)) in *.
  pose proof (path_tokens_render _ Hc) as Ht. rewrite joined_cons in *. cbn [path_tokens] in Ht.
  change (SLASH =? SLASH) with true in *. cbn beta iota in *. rewrite decide_True in Ht by done.
  rewrite take_ge by (simpl in Hf; lia). by rewrite Ht.
Qed.

Lemma fits_prefix cs cs' : fits (cs ++ cs') -> fits cs.
Proof.
  unfold fits. intros Hf. destruct cs as [|c cs]; [done|].
  change (render ((c :: cs) ++ cs')) with (joined ((c :: cs) ++ cs')) in Hf.
  change (render (c :: cs)) with (joined (c :: cs)). rewrite joined_app, length_app in Hf. lia.
Qed.

Lemma ext2_view_render fs v T cs : Forall comp cs -> fits cs ->
  ext2_view fs v T (render cs) = (fun ino => inode_stat fs ino (vino fs v ino)) <$> walk T EXT2_ROOT_INODE cs.
Proof. intros Hc Hf. unfold ext2_view. by rewrite strncpy_fits, resolve_render. Qed.

Lemma node_type_symlink i : node_type i = VFS_SYMLINK -> inode_is EXT2_S_IFLNK i = true.
Proof. unfold node_type. destruct (inode_is EXT2_S_IFDIR i); [done|]. by destruct (inode_is _ i). Qed.

Lemma resolve_walk T p ino : resolve T p = Some ino -> exists cs, walk T EXT2_ROOT_INODE cs = Some ino.
Proof.
  unfold resolve. destruct p as [|c p]; [done|]. destruct (c =? SLASH); [|done]. intros Hw. by eexists.
Qed.
End Walk.

(** ** The view *)

Section Ext2View.
Context {W : Type} `{MachineOk W}.
Abbreviation E := (ext2 W).
Abbreviation V := (vfs E).
Implicit Types (s : V) (v : vol) (d : disk_device) (T : gmap Z dmap) (cs : list (list Z)).

(** The driver of [s] holds the volume [v] for the user [uid], [gid]; the rest of
    the machine is as in [w]. *)
Record mounted d (fs : ext2_fs) v T (uid gid : Z) (w : W) s : Prop := {
  mo_table : mount_table s = root_mount;
  mo_inv : fs_inv d (v_drv s) v;
  mo_fs : e_fs (v_drv s) = fs;
  mo_mounted : fs_mounted fs = true;
  mo_tree : tree_ok fs v T;
  mo_uid : ext2_uid (v_drv s) = uid;
  mo_gid : ext2_gid (v_drv s) = gid;
  mo_rest : same_rest w (e_w (v_drv s));
}.

Lemma mounted_reads d fs v T uid gid w s e :
  mounted d fs v T uid gid w s -> reads d v (v_drv s) e ->
  mounted d fs v T uid gid w (mk_vfs (mount_table s) (last_error s) e).
Proof.
  intros [M1 M2 M3 M4 M5 M6 M7 M8] R. pose proof (reads_inv _ _ _ _ M2 R) as I. destruct R as (_ & F & Er).
  pose proof (rest_cred _ _ Er) as [U G].
  split; cbn [mount_table v_drv]; try done; [congruence|..|by etrans]; unfold ext2_uid, ext2_gid in *; congruence.
Qed.

Lemma lift_d_run {A} (m : state E A) s Q :
  run m (v_drv s) (fun a e => Q a (mk_vfs (mount_table s) (last_error s) e)) -> run (lift_d m) s Q.
Proof. unfold run, lift_d. by destruct (m (v_drv s)). Qed.

Lemma root_dispatch d fs v T uid gid w s p Q :
  mounted d fs v T uid gid w s ->
  Q (match p with
     | c :: _ => if c =? SLASH then Some (0%nat, ext2_vfs_ops, strncpy PUREUNIX_MAX_PATH p) else None
     | [] => None
     end) s -> run (vfs_dispatch p) s Q.
Proof.
  intros M HQ. unfold vfs_dispatch. apply run_gets. rewrite (mo_table _ _ _ _ _ _ _ _ M).
  destruct p as [|c p]; [done|]. cbn [vfs_find_mount]. destruct (Z.eqb_spec c SLASH) as [->|]; [|done]. exact HQ.
Qed.

Lemma ext2_stat_run d e v T path :
  fs_inv d e v -> fs_mounted (e_fs e) = true -> tree_ok (e_fs e) v T ->
  run (ext2_stat path) e (fun r e' =>
    r = (fun ino => inode_stat (e_fs e) ino (vino (e_fs e) v ino)) <$> resolve T path /\ reads d v e e').
Proof.
  intros I Hm HT. unfold ext2_stat. apply run_bind, run_gets. rewrite Hm. cbn [negb].
  run_step ext2_path_to_inode_run as (-> & R1); [done|done|].
  destruct (resolve T path) as [ino|] eqn:Er; [|by apply run_ret].
  pose proof (reads_inv _ _ _ _ I R1) as I1. pose proof R1 as (_ & F1 & _).
  run_step ext2_read_inode_run as (-> & Hw & I2 & F2 & E2);
    [done|rewrite F1; by eapply resolve_ino_in|].
  apply run_ret. cbn [fmap option_fmap option_map]. rewrite F1. split; [done|]. by eapply reads_trans.
Qed.

Lemma ext2_tree_view d fs v T uid gid w :
  no_symlinks fs v T -> tree_view (mounted d fs v T uid gid w) (ext2_view fs v T).
Proof.
  intros Hno. split.
  - intros s p M. unfold vfs_stat_raw. apply run_bind. eapply root_dispatch; [exact M|].
    unfold ext2_view. destruct p as [|c p]; [by apply run_ret|].
    destruct (c =? SLASH) eqn:Ec; [|apply run_ret; split; [|done]; simpl; by rewrite Ec].
    cbn [ext2_vfs_ops op_stat]. apply lift_d_run. pose proof M as [_ I F Hm HT _ _ _].
    run_last ext2_stat_run as (-> & R); [exact I|by rewrite F|by rewrite F|].
    rewrite F. split; [done|]. by apply mounted_reads.
  - intros s p st M Es Ht. exfalso. unfold ext2_view in Es.
    destruct (resolve T _) as [ino|] eqn:Er; [|done]. injection Es as <-. cbn [inode_stat st_type] in Ht.
    destruct (resolve_walk _ _ _ Er) as [cs Hw]. apply node_type_symlink in Ht.
    by rewrite (Hno _ _ Hw) in Ht.
  - intros s msg [M1 M2 M3 M4 M5 M6 M7 M8]. by split.
Qed.
End Ext2View.

(** ** Files through the VFS *)

Section Ext2Files.
Context {W : Type} `{MachineOk W}.
Abbreviation E := (ext2 W).
Abbreviation V := (vfs E).
Implicit Types (s : V) (v : vol) (d : disk_device) (T : gmap Z dmap) (cs : list (list Z)).

(** [cs] names the file [ino] with contents [D] on a mounted volume without
    symbolic links, and the caller may search the directories on the way. *)
Record vfs_file_at d v T cs (ino n : Z) (D : list Z) (uid gid : Z) s : Prop := {
  vf_table : mount_table s = root_mount;
  vf_uid : ext2_uid (v_drv s) = uid;
  vf_gid : ext2_gid (v_drv s) = gid;
  vf_file : file_at d (v_drv s) v T (render cs) ino n D;
  vf_plain : no_symlinks (e_fs (v_drv s)) v T;
  vf_path : resolved_ok (ext2_view (e_fs (v_drv s)) v T) true uid gid cs;
  vf_fits : fits cs;
  vf_short : Forall short cs;
}.

Definition file_stat s v ino : vfs_stat :=
  inode_stat (e_fs (v_drv s)) ino (vino (e_fs (v_drv s)) v ino).

Lemma vfs_file_mounted d v T cs ino n D uid gid s :
  vfs_file_at d v T cs ino n D uid gid s -> mounted d (e_fs (v_drv s)) v T uid gid (e_w (v_drv s)) s.
Proof. intros [F1 F2 F3 [A1 A2 A3 A4 A5] F5 F6 F7 F8]. by split. Qed.

Lemma vfs_file_view d v T cs ino n D uid gid s :
  vfs_file_at d v T cs ino n D uid gid s ->
  ext2_view (e_fs (v_drv s)) v T (render cs) = Some (file_stat s v ino).
Proof.
  intros F. unfold ext2_view. rewrite strncpy_fits by apply F.
  by rewrite (fa_path _ _ _ _ _ _ _ _ (vf_file _ _ _ _ _ _ _ _ _ _ F)).
Qed.

(** Both entry points: resolve the path, look at the node, check it, call the driver. *)
Lemma vfs_file_reached d v T cs ino n D uid gid s :
  vfs_file_at d v T cs ino n D uid gid s ->
  run (resolve_path (render cs) true uid gid) s (fun r s' => r = Done (render cs) /\
    mounted d (e_fs (v_drv s)) v T uid gid (e_w (v_drv s)) s').
Proof.
  intros F. pose proof (vfs_file_mounted _ _ _ _ _ _ _ _ _ _ F) as M.
  eapply run_mono; [eapply resolve_path_plain; [by apply ext2_tree_view, F|exact M|apply F..]|].
  by intros r s' [? ->].
Qed.

Lemma mounted_reads_same d fs v T uid gid w s s' :
  mounted d fs v T uid gid w s -> mounted d fs v T uid gid w s' -> reads d v (v_drv s) (v_drv s').
Proof.
  intros [_ I1 F1 _ _ _ _ R1] [_ [I2 _ _] F2 _ _ _ _ R2]. split_and!; [done|congruence|].
  unfold same_env. etrans; [symmetry; exact R1|exact R2].
Qed.

Lemma slash_render cs : exists w, render cs = SLASH :: w.
Proof. destruct cs; [by exists []|by eexists]. Qed.

Lemma render_dispatch d fs v T uid gid w s cs Q :
  mounted d fs v T uid gid w s -> fits cs -> Q (Some (0%nat, ext2_vfs_ops, render cs)) s ->
  run (vfs_dispatch (render cs)) s Q.
Proof.
  intros M Hf HQ. eapply root_dispatch; [exact M|]. destruct (slash_render cs) as [p Ep].
  rewrite Ep. change (SLASH =? SLASH) with true. cbn beta iota. rewrite <- Ep. by rewrite strncpy_fits.
Qed.

Lemma vfs_write_file_ext2 d v T cs ino n old data flags uid gid s :
  vfs_file_at d v T cs ino n old uid gid s -> bytes_ok old -> bytes_ok data ->
  Z.land flags VFS_O_APPEND = 0 -> Z.of_nat (length old) + Z.of_nat (length data) < 2 ^ 32 ->
  vfs_access (file_stat s v ino) uid gid W_OK = true ->
  run (vfs_write_file ext2_uid ext2_gid (render cs) data flags) s (fun r s' => exists rc,
    replaced d (v_drv s) v ino n data rc (v_drv s') /\ mount_table s' = root_mount /\
    r = if rc =? 0 then Done tt else Err rc).
Proof.
  intros F Hold Hdata Hfl Hlen Hacc. pose proof (vfs_file_mounted _ _ _ _ _ _ _ _ _ _ F) as M.
  unfold vfs_write_file, with_cred. apply run_bind, run_get. rewrite (vf_uid _ _ _ _ _ _ _ _ _ _ F), (vf_gid _ _ _ _ _ _ _ _ _ _ F).
  unfold rbind at 1, or_fail. apply run_bind. eapply run_bind, run_mono; [by eapply vfs_file_reached|].
  intros r s1 [-> M1]. apply run_ret.
  run_step (tv_stat _ _ (ext2_tree_view d _ v T uid gid _ (vf_plain _ _ _ _ _ _ _ _ _ _ F))) as [-> M2]; [exact M1|].
  rewrite (vfs_file_view _ _ _ _ _ _ _ _ _ _ F). unfold access_or_fail. rewrite Hacc. cbn [negb].
  unfold rbind. apply run_bind, run_ret. unfold call_op. apply run_bind.
  eapply render_dispatch; [exact M2|apply F|]. cbn [ext2_vfs_ops op_write_file].
  apply run_bind, lift_d_run.
  pose proof (mounted_reads_same _ _ _ _ _ _ _ _ _ M M2) as R.
  pose proof (file_at_reads _ _ _ _ _ _ _ _ _ (vf_file _ _ _ _ _ _ _ _ _ _ F) R) as A.
  run_last ext2_write_file_run as [HR|[? _]]; [exact A|done|done|done|by rewrite Hfl| |by rewrite Hfl in *].
  rewrite Hfl in HR. cbn [Z.eqb] in HR. pose proof (replaced_reads _ _ _ _ _ _ _ _ _ R HR) as HR0.
  pose proof HR as (_ & _ & _ & _ & _ & [[-> _]|[-> _]]); cbn [Z.eqb Z.ltb Z.compare Z.opp ENOSPC].
  - apply run_ret. exists 0. split_and!; [done|apply M2|done].
  - apply run_bind, run_modify, run_ret. exists (- ENOSPC). split_and!; [done|apply M2|done].
Qed.

(** The directories on the way to a file are not the file. *)
Lemma walk_prefix_not_file T ino pre c rest x :
  T !! ino = None -> walk T EXT2_ROOT_INODE (pre ++ c :: rest) = Some ino ->
  walk T EXT2_ROOT_INODE pre = Some x -> x <> ino.
Proof.
  intros Hn Hw Hx ->. change (c :: rest) with ([c] ++ rest) in Hw. rewrite (assoc_L (++)), walk_app in Hw.
  destruct (walk T EXT2_ROOT_INODE (pre ++ [c])) as [y|] eqn:Ey; [|done].
  pose proof (walk_dir _ _ _ _ _ _ Hx Ey) as [m Hm]. congruence.
Qed.

(** Rewriting a file does not change the way to it. *)
Lemma view_frame X d v T cs ino n D n' D' uid gid s e' v' :
  vfs_file_at d v T cs ino n D uid gid s ->
  vol_frame (eq ino) X (e_fs (v_drv s)) v (e_fs e') v' ->
  file_at d e' v' T (render cs) ino n' D' ->
  no_symlinks (e_fs e') v' T /\ resolved_ok (ext2_view (e_fs e') v' T) true uid gid cs.
Proof.
  intros F G A'. pose proof F as [_ _ _ A Hno Hro Hf _]. pose proof (fr_counters _ _ _ _ _ _ G) as C.
  pose proof (file_not_in_tree _ _ _ _ _ _ (fa_tree _ _ _ _ _ _ _ _ A) (fa_file _ _ _ _ _ _ _ _ A)) as Hn.
  assert (forall x, inode_is EXT2_S_IFLNK (vino (e_fs (v_drv s)) v x) = false -> ino_in (e_fs (v_drv s)) x ->
    inode_is EXT2_S_IFLNK (vino (e_fs e') v' x) = false) as Hlnk.
  { intros x Hx Hin. destruct (decide (x = ino)) as [->|Hne].
    - pose proof (fp_reg _ _ _ _ _ (fa_file _ _ _ _ _ _ _ _ A')) as Hr. unfold inode_is in *.
      apply Z.eqb_eq in Hr as ->. done.
    - by rewrite (fr_vino _ _ _ _ _ _ G). }
  assert (no_symlinks (e_fs e') v' T) as Hno'.
  { intros cs0 x Hw. apply Hlnk; [by eapply Hno|]. eapply walk_ino_in; [apply A| |exact Hw].
    destruct (to_root _ _ _ (fa_tree _ _ _ _ _ _ _ _ A)) as [m Hm]. by eapply (to_dir _ _ _ (fa_tree _ _ _ _ _ _ _ _ A)). }
  split; [done|]. pose proof Hro as [P1 P2 P3 P4]. pose proof (plain_comps _ P1) as Hc.
  pose proof (fa_path _ _ _ _ _ _ _ _ A) as Hp. rewrite resolve_render in Hp by done.
  assert (forall pre c, (pre ++ [c]) `prefix_of` cs -> forall st,
    ext2_view (e_fs (v_drv s)) v T (render pre) = Some st -> ext2_view (e_fs e') v' T (render pre) = Some st) as Hsame.
  { intros pre c [rest ->] st. rewrite <- (assoc_L (++)) in *. cbn [app] in *.
    apply Forall_app in Hc as [Hc _]. apply fits_prefix in Hf.
    rewrite !ext2_view_render by done. destruct (walk T EXT2_ROOT_INODE pre) as [x|] eqn:Ex; [|done].
    cbn [fmap option_fmap option_map]. intros <-. f_equal.
    assert (ino_in (e_fs (v_drv s)) x) as Hx.
    { eapply walk_ino_in; [apply A| |exact Ex].
      destruct (to_root _ _ _ (fa_tree _ _ _ _ _ _ _ _ A)) as [m Hm]. by eapply (to_dir _ _ _ (fa_tree _ _ _ _ _ _ _ _ A)). }
    rewrite (fr_vino _ _ _ _ _ _ G); [|done|intros E; symmetry in E; by eapply walk_prefix_not_file in E].
    unfold inode_stat. by rewrite (co_eq _ _ C). }
  assert (forall cs0, ~ symlink_at (ext2_view (e_fs e') v' T) cs0) as Hsym.
  { intros cs0 (st & Es & Ht). unfold ext2_view in Es. destruct (resolve T _) as [x|] eqn:Er; [|done].
    injection Es as <-. apply node_type_symlink in Ht. destruct (resolve_walk _ _ _ Er) as [cs1 Hw].
    by rewrite (Hno' _ _ Hw) in Ht. }
  split; [done| | |done].
  - intros pre c Hpre. destruct (P2 _ _ Hpre) as (st & Es & Ha). exists st. split; [|done]. by eapply Hsame.
  - intros pre c Hpre Hne. split; [|apply Hsym]. destruct (P3 _ _ Hpre Hne) as [[st Es] _].
    destruct Hpre as [[|c' rest] E]; [by rewrite app_nil_r in E|]. exists st. apply (Hsame _ c'); [|done].
    exists rest. rewrite E, <- !(assoc_L (++)). done.
Qed.
End Ext2Files.

Section Ext2Theorems.
Context {W : Type} `{MachineOk W}.

(** A file whose contents or attributes were written: the rest of the volume is
    as it was, and so are the way to the file and its permissions. *)
Record file_kept d v T cs ino uid gid (s s' : vfs (ext2 W)) v' n' D : Prop := {
  fk_file : vfs_file_at d v' T cs ino n' D uid gid s';
  fk_apart : tree_apart (e_fs (v_drv s')) v' T (map_owns v' (vino (e_fs (v_drv s')) v' ino) n');
  fk_reach : iter_reach (e_fs (v_drv s')) = iter_reach (e_fs (v_drv s));
  fk_bs : fs_block_size (e_fs (v_drv s')) = fs_block_size (e_fs (v_drv s));
  fk_access r : vfs_access (file_stat s' v' ino) uid gid r = vfs_access (file_stat s v ino) uid gid r;
}.

Lemma file_kept_intro d v T cs ino n old uid gid (s s' : vfs (ext2 W)) v' n' D :
  vfs_file_at d v T cs ino n old uid gid s ->
  tree_apart (e_fs (v_drv s)) v T (map_owns v (vino (e_fs (v_drv s)) v ino) n) ->
  mount_table s' = root_mount -> same_env (v_drv s) (v_drv s') -> fs_inv d (v_drv s') v' ->
  vol_frame (eq ino) (map_owns v (vino (e_fs (v_drv s)) v ino) n) (e_fs (v_drv s)) v (e_fs (v_drv s')) v' ->
  same_owner (vino (e_fs (v_drv s)) v ino) (vino (e_fs (v_drv s')) v' ino) ->
  file_rep (e_fs (v_drv s')) v' (vino (e_fs (v_drv s')) v' ino) n' D ->
  fresh_map (e_fs (v_drv s)) v (vino (e_fs (v_drv s)) v ino) n v' (vino (e_fs (v_drv s')) v' ino) n' ->
  file_kept d v T cs ino uid gid s s' v' n' D.
Proof.
  intros F HA Hm E1 I' G (O1 & O2 & O3 & _) P HF. pose proof (fr_counters _ _ _ _ _ _ G) as C.
  destruct (fi_bs _ _ _ (fa_inv _ _ _ _ _ _ _ _ (vf_file _ _ _ _ _ _ _ _ _ _ F))) as [Hspb Hbs].
  assert (file_at d (v_drv s') v' T (render cs) ino n' D) as A'.
  { destruct F as [_ _ _ [A1 A2 A3 A4 A5] _ _ _ _]. split; try done; [by rewrite (co_eq _ _ C)|].
    eapply tree_ok_frame; [|exact A3|exact HA|by eapply file_not_in_tree|exact G|by apply reg_not_dir, P]. lia. }
  destruct (view_frame _ _ _ _ _ _ _ _ _ _ _ _ _ _ _ F G A') as [Hno Hro]. split.
  - split; [exact Hm| | |exact A'|done|exact Hro|apply F|apply F].
    + rewrite <- (vf_uid _ _ _ _ _ _ _ _ _ _ F). apply (rest_cred _ _ E1).
    + rewrite <- (vf_gid _ _ _ _ _ _ _ _ _ _ F). apply (rest_cred _ _ E1).
  - pose proof F as [_ _ _ [_ _ A3 _ A5] _ _ _ _].
    apply (tree_apart_fresh ino (vino (e_fs (v_drv s)) v ino) n _ _ (e_fs (v_drv s)) v); [lia|exact A3|exact HA|by eapply file_not_in_tree|exact G|exact HF].
  - by rewrite (co_eq _ _ C).
  - by rewrite (co_eq _ _ C).
  - intros r. unfold vfs_access, file_stat, inode_stat. cbn [st_mode st_uid st_gid]. by rewrite O1, O2, O3.
Qed.

(** The file after it was rewritten through the VFS. *)
Lemma rewritten_file_at d v T cs ino n old data rc uid gid (s s' : vfs (ext2 W)) :
  vfs_file_at d v T cs ino n old uid gid s ->
  tree_apart (e_fs (v_drv s)) v T (map_owns v (vino (e_fs (v_drv s)) v ino) n) ->
  replaced d (v_drv s) v ino n data rc (v_drv s') -> mount_table s' = root_mount ->
  exists v' n' D, file_kept d v T cs ino uid gid s s' v' n' D /\
    ((rc = 0 /\ D = data) \/
     (rc = - ENOSPC /\ D = [] /\ out_of_space (v_drv s) v (vino (e_fs (v_drv s)) v ino) n data)).
Proof.
  intros F HA (E1 & v0 & I0 & G0 & O0 & [(-> & n2 & P2 & HF)|(-> & P2 & Hout)]) Hm.
  - exists v0, n2, data. split; [by eapply file_kept_intro|by left].
  - exists v0, 0, []. split; [|by right]. eapply file_kept_intro; try done. intros b [[? _]|(k & ? & _)]; lia.
Qed.

Lemma vfs_read_file_ext2 d v T cs ino n D uid gid (s : vfs (ext2 W)) :
  vfs_file_at d v T cs ino n D uid gid s ->
  Z.of_nat (length D) <= iter_reach (e_fs (v_drv s)) * fs_block_size (e_fs (v_drv s)) ->
  vfs_access (file_stat s v ino) uid gid R_OK = true ->
  tree_apart (e_fs (v_drv s)) v T (map_owns v (vino (e_fs (v_drv s)) v ino) n) ->
  run (vfs_read_file ext2_uid ext2_gid (render cs)) s (fun r s' => same_env (v_drv s) (v_drv s') /\
    (exists v', file_kept d v T cs ino uid gid s s' v' n D) /\
    ((exists p, r = Done (p, D ++ [0], Z.of_nat (length D))) \/
     (r = Err (- EIO) /\ heap_exhausted (W := W) (Z.of_nat (length D) + 1)))).
Proof.
  intros F Hlen Hacc HA. pose proof (vfs_file_mounted _ _ _ _ _ _ _ _ _ _ F) as M.
  unfold vfs_read_file, with_cred. apply run_bind, run_get. rewrite (vf_uid _ _ _ _ _ _ _ _ _ _ F), (vf_gid _ _ _ _ _ _ _ _ _ _ F).
  unfold rbind at 1, or_fail. apply run_bind. eapply run_bind, run_mono; [by eapply vfs_file_reached|].
  intros r s1 [-> M1]. apply run_ret. unfold stat_or_fail, rbind at 1. apply run_bind.
  run_step (tv_stat _ _ (ext2_tree_view d _ v T uid gid _ (vf_plain _ _ _ _ _ _ _ _ _ _ F))) as [-> M2]; [exact M1|].
  rewrite (vfs_file_view _ _ _ _ _ _ _ _ _ _ F). apply run_ret. unfold access_or_fail. rewrite Hacc. cbn [negb].
  unfold rbind. apply run_bind, run_ret. apply run_bind.
  eapply render_dispatch; [exact M2|apply F|]. cbn [ext2_vfs_ops op_read_file].
  apply run_bind, lift_d_run.
  pose proof (mounted_reads_same _ _ _ _ _ _ _ _ _ M M2) as R.
  pose proof (file_at_reads _ _ _ _ _ _ _ _ _ (vf_file _ _ _ _ _ _ _ _ _ _ F) R) as A.
  run_last ext2_read_file_run as (E1 & v1 & I1 & G1 & P1 & [O1 HF1] & Hres); [exact A|by rewrite (proj1 (proj2 R))|].
  pose proof (transitivity (proj2 (proj2 R)) E1) as E0.
  rewrite (proj1 (proj2 R)) in G1, O1, HF1.
  assert (forall k, mount_table k = mount_table s' -> v_drv k = s'0 -> exists v', file_kept d v T cs ino uid gid s k v' n D) as HK.
  { intros k Hm <-. exists v1. destruct M2 as [M2 _ _ _ _ _ _ _]. rewrite M2 in Hm. eapply file_kept_intro; try done. eapply vol_frame_weaken, G1; [done|tauto]. }
  destruct Hres as [[p ->]|[-> Hh]].
  - apply run_ret. split; [done|]. split; [by apply HK|left; by exists p].
  - split; [done|]. split; [by apply HK|by right].
Qed.

End Ext2Theorems.

(** ** The volume of Ext2Demo.v below the VFS *)

Definition demo_vfs : vfs (ext2 platform) := mk_vfs root_mount [] demo_s.

Lemma demo_walk cs ino : walk demo_tree EXT2_ROOT_INODE cs = Some ino -> ino = 2 \/ ino = 12.
Proof.
  assert (forall x, x = 2 \/ x = 12 -> walk demo_tree x cs = Some ino -> ino = 2 \/ ino = 12) as Hw; [|apply Hw; by left].
  induction cs as [|c cs IH]; intros x Hx; cbn [walk]; [intros [= <-]; done|].
  destruct Hx as [-> | ->]; [|done]. change (demo_tree !! 2) with (Some demo_map). cbn [mbind option_bind].
  destruct (demo_map !! c) as [y|] eqn:Ey; [|done]. apply IH.
  apply elem_of_list_to_map_2 in Ey. change (live demo_dents) with
    [([46], (2, 2)); ([46; 46], (2, 2)); ([102], (12, 1))] in Ey.
  rewrite !elem_of_cons, elem_of_nil in Ey. destruct Ey as [Ey|[Ey|[Ey|[]]]]; injection Ey as -> ->; auto.
Qed.

Lemma demo_vfs_file : vfs_file_at ata1 demo_v demo_tree [lit "f"] 12 1 demo_data 1 1 demo_vfs.
Proof.
  split; [done|done|done|exact demo_file_at| | |reflexivity|by repeat constructor].
  - intros cs ino [-> | ->]%demo_walk; change (e_fs (v_drv demo_vfs)) with demo_fs;
      rewrite ?(proj1 demo_vino), ?(proj2 demo_vino); reflexivity.
  - assert (forall pre (c : list Z), (pre ++ [c]) `prefix_of` [lit "f"] -> pre = []) as Hp.
    { intros pre c [r E]. destruct pre as [|a pre]; [done|]. apply (f_equal length) in E.
      rewrite !length_app in E. simpl in E. lia. }
    split.
    + apply (bool_decide_unpack _). vm_compute. exact I.
    + intros pre c ->%Hp. eexists. split; [vm_compute; reflexivity|vm_compute; reflexivity].
    + intros pre c Hpre Hne. pose proof (Hp _ _ Hpre) as ->. destruct Hpre as [r E]. injection E as <- _. done.
    + intros _ _ (st & E & Ht). vm_compute in E. injection E as <-. done.
Qed.

