(* ===== verification/Boot.v ===== *)
(** * Both file systems under one VFS (kernel/main.c)

    The part of [kernel_main] that mounts the disks: FAT16 of the master at
    /fat, EXT2 of the slave at the root.  The two drivers keep their own static
    variables over one machine; [system] holds them together and the operations
    of each driver act on their part of it.  The theorem says which driver a
    path reaches after boot. *)

From stdpp Require Import strings.
From S2P Require Import Prelude Heap Machine Platform VfsTypes Printf Vfs VfsPaths Fat16.
From S2P Require Import Ext2Layout Ext2Block Ext2Super Ext2Demo VfsExt2 Fat16Demo.

Record system (W : Type) := mk_system {
  y_fs : ext2_fs; y_cache : list cache_slot; y_lru : Z;    (* fs/ext2 *)
  y_fat : fat16_fs; y_hung : bool;                         (* fs/fat16.c *)
  y_w : W;
}.
Arguments mk_system {W}. Arguments y_fs {W}. Arguments y_cache {W}. Arguments y_lru {W}.
Arguments y_fat {W}. Arguments y_hung {W}. Arguments y_w {W}.

Section System.
Context {W : Type} `{Machine W}.

Definition as_ext2 (y : system W) : ext2 W := mk_ext2 (y_fs y) (y_cache y) (y_lru y) (y_w y).
Definition of_ext2 (e : ext2 W) (y : system W) : system W :=
  mk_system (e_fs e) (g_cache e) (g_lru_seq e) (y_fat y) (y_hung y) (e_w e).
Definition as_fat (y : system W) : fat W := mk_fat (y_fat y) (y_w y) (y_hung y).
Definition of_fat (f : fat W) (y : system W) : system W :=
  mk_system (y_fs y) (y_cache y) (y_lru y) (ft_fs f) (ft_hung f) (ft_w f).

(** A driver's operations on its part [E] of the system; a callback runs on the
    whole of it. *)
Section Part.
Context {E : Type} (as_part : system W -> E) (of_part : E -> system W -> system W).

Definition part {A} (m : state E A) : state (system W) A := fun y =>
  let '(a, e) := m (as_part y) in (a, of_part e y).

Definition part_readdir (op : forall U : Type, list Z -> (vfs_dirent -> U -> state E (Z * U)) -> U -> state E (Z * U))
    (U : Type) (path : list Z) (cb : vfs_dirent -> U -> state (system W) (Z * U)) (u : U) : state (system W) (Z * U) := fun y =>
  let '(r, (u, y), e) :=
    op (U * system W)%type path (fun entry uy e =>
      let '(r, u, y) := cb entry uy.1 (of_part e uy.2) in (r, (u, y), as_part y)) (u, y) (as_part y) in
  (r, u, of_part e y).

Definition part_ops (ops : vfs_ops E) : vfs_ops (system W) :=
  mk_ops ((fun f p => part (f p)) <$> op_stat ops) ((fun f p => part (f p)) <$> op_read_file ops)
    ((fun f p b n => part (f p b n)) <$> op_write_file ops) ((fun f p d => part (f p d)) <$> op_create ops)
    ((fun f p d => part (f p d)) <$> op_unlink ops) ((fun f p q => part (f p q)) <$> op_rename ops)
    (part_readdir <$> op_readdir ops)
    ((fun f p n => part (f p n)) <$> op_chmod ops) ((fun f p u g => part (f p u g)) <$> op_chown ops)
    ((fun f p b n => part (f p b n)) <$> op_readlink ops) ((fun f p q => part (f p q)) <$> op_link ops)
    ((fun f p q => part (f p q)) <$> op_symlink ops).
End Part.

Context (junk : Z -> Z -> list Z).
Definition fat_ops : vfs_ops (system W) := part_ops as_fat of_fat (fat16_vfs_ops junk).
Definition root_ops : vfs_ops (system W) := part_ops as_ext2 of_ext2 ext2_vfs_ops.

(** [disk->present && fat16_mount(disk) == 0] and what follows; the text printed,
    [None] for the divide fault of [fat16_mount]. *)
Definition mount_fat : state (vfs (system W)) (option (list Z)) :=
  y ← gets v_drv;
  r ← (if disk_present ata0 (y_w y) then lift_d (part as_fat of_fat (fat16_mount (Some ata0))) else mret (Some (-1)));
  match r with
  | None => mret None
  | Some r =>
      if r =? 0 then
        _ ← vfs_mount (Some (lit "/fat")) VFS_FS_FAT16 (Some fat_ops) None;
        mret (Some (lit "FAT16 mounted on /fat" ++ [10]))
      else mret (Some (lit "No FAT16 disk found; /fat will be unavailable." ++ [10]))
  end.

Definition mount_ext2 : state (vfs (system W)) (list Z) :=
  y ← gets v_drv;
  if negb (disk_present ata1 (y_w y)) then mret [] else
  r ← lift_d (part as_ext2 of_ext2 (ext2_mount (Some ata1)));
  if r =? 0 then
    _ ← vfs_mount (Some (lit "/")) VFS_FS_EXT2 (Some root_ops) None;
    mret (lit "EXT2 mounted on /" ++ [10])
  else mret (lit "EXT2 mount failed on ata1; root filesystem unavailable." ++ [10]).

(** From [vfs_init] to the shell. *)
Definition mount_disks : state (vfs (system W)) (option (list Z)) :=
  _ ← vfs_init;
  t ← mount_fat;
  match t with
  | None => mret None
  | Some t => t' ← mount_ext2; mret (Some (t ++ t'))
  end.
End System.

(** ** Which driver serves a path *)
Section Paths.
Context {W : Type} `{Machine W} (junk : Z -> Z -> list Z).
Implicit Types (y : system W) (s : vfs (system W)).

Definition FAT_DIR : list Z := lit "fat".

(** The results of the two mounts, from the state of the drivers at boot. *)
Definition fat_result y : option Z * system W :=
  if disk_present ata0 (y_w y) then part as_fat of_fat (fat16_mount (Some ata0)) y else (Some (-1), y).
Definition root_result y : Z * system W :=
  if disk_present ata1 (y_w y) then part as_ext2 of_ext2 (ext2_mount (Some ata1)) y else (-1, y).

Definition boot_table (fat root : bool) : list (vfs_mount_t (system W)) :=
  (if fat then [mk_mount (lit "/fat") VFS_FS_FAT16 (fat_ops junk) None] else []) ++
  (if root then [mk_mount (lit "/") VFS_FS_EXT2 root_ops None] else []).

Lemma mount_fat_run s : mount_table s = [] -> (fat_result (v_drv s)).1 <> None ->
  run (mount_fat junk) s (fun r s' => r <> None /\ v_drv s' = (fat_result (v_drv s)).2 /\
    mount_table s' = boot_table (bool_decide ((fat_result (v_drv s)).1 = Some 0)) false).
Proof.
  intros Ht Hn. unfold mount_fat. eapply run_bind, run_gets. eapply run_bind.
  assert (run (if disk_present ata0 (y_w (v_drv s)) then lift_d (part as_fat of_fat (fat16_mount (Some ata0))) else mret (Some (-1))) s
    (fun r s' => r = (fat_result (v_drv s)).1 /\ mount_table s' = [] /\ v_drv s' = (fat_result (v_drv s)).2)) as Hr.
  { unfold fat_result, run, lift_d. destruct (disk_present _ _); [|done]. by destruct (part _ _ _ _). }
  eapply run_mono; [exact Hr|]. cbn beta. intros r s1 (-> & Ht1 & E). revert Hn. destruct (fat_result (v_drv s)) as [[r|] y1]; [|done]. cbn [fst snd] in *.
  intros _. destruct (Z.eqb_spec r 0) as [->|Hr0].
  - rewrite bool_decide_eq_true_2 by done. eapply run_bind. unfold run, vfs_mount. cbn [fst snd]. rewrite !bind_unfold. cbn [get fst snd].
    rewrite Ht1. cbn. done.
  - rewrite bool_decide_eq_false_2 by congruence. apply run_ret. done.
Qed.

Lemma mount_ext2_run fat s : mount_table s = boot_table fat false ->
  run mount_ext2 s (fun _ s' => v_drv s' = (root_result (v_drv s)).2 /\
    mount_table s' = boot_table fat ((root_result (v_drv s)).1 =? 0)).
Proof.
  intros Ht. unfold mount_ext2. eapply run_bind, run_gets. unfold root_result. destruct (disk_present _ _); cbn [negb]; [|by apply run_ret].
  eapply run_bind. unfold run at 1. unfold lift_d. destruct (part as_ext2 of_ext2 (ext2_mount (Some ata1)) (v_drv s)) as [r y1]. cbn [fst snd].
  destruct (Z.eqb_spec r 0) as [->|Hr0]; [|by apply run_ret].
  eapply run_bind. unfold run, vfs_mount. rewrite bind_unfold. cbn [get fst snd mount_table]. rewrite Ht.
  destruct fat; cbn; done.
Qed.

Definition boot_points (fat root : bool) : list (list (list Z)) :=
  (if fat then [[FAT_DIR]] else []) ++ (if root then [[]] else []).

Lemma boot_mounted fat root : mounted_at (boot_table fat root) (boot_points fat root).
Proof.
  split; [by destruct fat, root|]. assert (comp FAT_DIR) by (refine (bool_decide_unpack _ _); vm_compute; exact I).
  by destruct fat, root; repeat (apply Forall_nil_2 || apply Forall_cons_2).
Qed.

Lemma fat_prefix ps : hd_error ps = Some FAT_DIR <-> [FAT_DIR] `prefix_of` ps.
Proof. split; [destruct ps; intros [= ->]; by eexists|by intros [k ->]]. Qed.

Lemma boot_dispatch fat root s ps : mount_table s = boot_table fat root -> Forall comp ps ->
  Z.of_nat (length (render ps)) < PUREUNIX_MAX_PATH ->
  (vfs_dispatch (render ps) s).1 =
    if bool_decide (hd_error ps = Some FAT_DIR) && fat then Some (0%nat, fat_ops junk, render (tail ps))
    else if root then Some (if fat then 1%nat else 0%nat, root_ops, render ps) else None.
Proof.
  intros Ht Hps Hl. pose proof (dispatch_longest s (boot_points fat root) ps) as Hd. rewrite Ht in Hd.
  destruct (Hd (boot_mounted fat root) Hps Hl) as [_ Hr]. clear Hd.
  assert (forall i cs, boot_points fat root !! i = Some cs ->
    (fat = true /\ i = 0%nat /\ cs = [FAT_DIR]) \/ (root = true /\ i = (if fat then 1 else 0)%nat /\ cs = [])) as Hpt.
  { intros i cs. destruct fat, root; destruct i as [|[|i]]; intros [= <-]; auto. }
  destruct ((vfs_dispatch (render ps) s).1) as [[[i ops] sub]|].
  - destruct Hr as (cs & rest & m & Hi & -> & -> & Hm & -> & Hmax).
    destruct (Hpt i cs Hi) as [(-> & -> & ->)|(-> & -> & ->)].
    + cbn [app hd_error tail]. rewrite bool_decide_eq_true_2 by done. by injection Hm as <-.
    + cbn [app] in *. destruct (decide (hd_error rest = Some FAT_DIR)) as [Hh|Hh].
      * destruct fat; [|rewrite andb_false_r; by injection Hm as <-].
        destruct (Hmax 0%nat [FAT_DIR]) as [Hle _]; [done|by apply fat_prefix|]. cbn in Hle. lia.
      * rewrite bool_decide_eq_false_2 by done. cbn [andb]. destruct fat; by injection Hm as <-.
  - destruct root; [exfalso; apply (Hr (if fat then 1 else 0)%nat []); [by destruct fat|apply prefix_nil]|].
    case_bool_decide as Hh; [|done]. destruct fat; [|done]. exfalso. apply (Hr 0%nat [FAT_DIR]); [done|by apply fat_prefix].
Qed.

(** C15: After boot every path has its driver.  When [kernel_main] has mounted the
    disks, a path whose first component is "fat" goes to the FAT16 driver, which sees the
    rest of it, and every other path, and all of them when no FAT16 volume was
    found, goes to EXT2 as it is; a file system that failed to mount serves
    nothing. *)
Theorem boot_paths s :
  let f := fat_result (v_drv s) in let e := root_result f.2 in
  f.1 <> None ->
  run (mount_disks junk) s (fun r s' => r <> None /\ v_drv s' = e.2 /\
    forall ps, Forall comp ps -> Z.of_nat (length (render ps)) < PUREUNIX_MAX_PATH ->
      (vfs_dispatch (render ps) s').1 =
        if bool_decide (hd_error ps = Some FAT_DIR) && bool_decide (f.1 = Some 0)
        then Some (0%nat, fat_ops junk, render (tail ps))
        else if e.1 =? 0 then Some (if bool_decide (f.1 = Some 0) then 1%nat else 0%nat, root_ops, render ps) else None).
Proof.
  intros f e Hn. unfold mount_disks. eapply run_bind.
  assert (run vfs_init s (fun _ s' => mount_table s' = [] /\ v_drv s' = v_drv s)) as Hi by done.
  eapply run_mono; [exact Hi|]. cbn beta. intros _ s0 [Ht E0].
  pose proof (mount_fat_run s0 Ht) as Hf. rewrite E0 in Hf. fold f in Hf. specialize (Hf Hn).
  eapply run_bind, run_mono; [exact Hf|]. cbn beta. intros [t|] s1 (Hr & E1 & T1); [|done].
  pose proof (mount_ext2_run _ s1 T1) as He. rewrite E1 in He. fold e in He.
  eapply run_bind, run_mono; [exact He|]. cbn beta. intros t' s2 [E2 T2]. apply run_ret. split_and!; [done|done|].
  intros ps Hps Hl. exact (boot_dispatch _ _ s2 ps T2 Hps Hl).
Qed.
End Paths.

(** ** Both demo volumes in one machine *)

Definition boot_w : platform :=
  mk_platform (pl_sectors Fat16Demo.demo_disk ∪ Ext2Demo.demo_sectors) (fun _ => []) (Heap.heap_init 0x100000) Time.demo_cmos 1 1.
Definition boot_s : vfs (system platform) :=
  mk_vfs [] [] (mk_system ext2_fs_zero Ext2Demo.empty_cache 0 (empty_fs None) false boot_w).

Lemma boot_results : (fat_result (v_drv boot_s)).1 = Some 0 /\ (root_result (fat_result (v_drv boot_s)).2).1 = 0.
Proof. vm_compute. done. Qed.

Lemma boot_paths_witness :
  let f := fat_result (v_drv boot_s) in let e := root_result f.2 in
  run (mount_disks no_junk) boot_s (fun r s' => r <> None /\ v_drv s' = e.2 /\
    forall ps, Forall comp ps -> Z.of_nat (length (render ps)) < PUREUNIX_MAX_PATH ->
      (vfs_dispatch (render ps) s').1 =
        if bool_decide (hd_error ps = Some FAT_DIR) && bool_decide (f.1 = Some 0)
        then Some (0%nat, fat_ops no_junk, render (tail ps))
        else if e.1 =? 0 then Some (if bool_decide (f.1 = Some 0) then 1%nat else 0%nat, root_ops, render ps) else None).
Proof. intros f e. apply (boot_paths no_junk boot_s). rewrite (proj1 boot_results). discriminate. Defined.

(** Files of the two volumes, through one VFS. *)
Example boot_reads :
  let root := fun _ : system platform => 0 in
  let s := (mount_disks no_junk boot_s).2 in
  let file p := match (vfs_read_file root root (lit p) s).1 with Done (_, b, n) => Some (take (Z.to_nat n) b) | _ => None end in
  (mount_disks no_junk boot_s).1 = Some (lit "FAT16 mounted on /fat" ++ [10] ++ lit "EXT2 mounted on /" ++ [10]) /\
  file "/f" = Some Ext2Demo.demo_data /\ file "/fat/A.TXT" = Some (lit "abc") /\ file "/A.TXT" = None.
Proof. vm_compute. done. Qed.
