(* ===== verification/SyscallExt2.v ===== *)
(** * Programs on an EXT2 volume

    The concrete kernel of KernelState.v with the EXT2 driver mounted at "/"
    keeps the contract of SyscallFiles.v: a regular file that the current task
    may write and read is a [file_store].  With it the round trip of a program's
    data goes from the system call down to the sectors. *)

From stdpp Require Import strings.
From S2P Require Import Prelude Heap Time Machine Platform VfsTypes Vfs VfsPaths VfsResolve.
From S2P Require Import Keyboard Vga Task Syscall SyscallFd SyscallFiles KernelState.
From S2P Require Import Ext2Layout Ext2Block Ext2Super Ext2Inode Ext2Alloc Ext2Inodes.
From S2P Require Import Ext2File Ext2Dir Ext2Dents Ext2Write Ext2Files Ext2Store Ext2Dirs Ext2Contents Ext2Demo VfsExt2.

Abbreviation K := (ext2 kernel).

Definition with_w {W W'} (w : W') (e : ext2 W) : ext2 W' := mk_ext2 (e_fs e) (g_cache e) (g_lru_seq e) w.
Definition lift_w {A} (m : state kernel A) : state K A :=
  fun e => let '(a, w) := m (e_w e) in (a, with_w w e).

#[global] Instance ext2_kernel : Kernel K := {
  k_sched e := k_sched (e_w e);
  k_set_sched sch e := with_w (k_set_sched sch (e_w e)) e;
  k_malloc n := lift_w (k_malloc n);
  k_free p := lift_w (k_free p);
  k_putchar c := lift_w (k_putchar c);
  k_keys e := k_keys (e_w e);
  k_set_keys keys e := with_w (k_set_keys keys (e_w e)) e;
  k_bytes e := k_bytes (e_w e);
  k_string e := k_string (e_w e);
  k_store a b e := with_w (k_store a b (e_w e)) e;
  k_esp e := k_esp (e_w e);
}.

Lemma lift_w_2 {A} (m : state kernel A) e : (lift_w m e).2 = with_w (m (e_w e)).2 e.
Proof. unfold lift_w. by destruct (m (e_w e)). Qed.

(** The same driver state over machines that are the same to it. *)
Definition drv_same (e e' : K) : Prop := e' = with_w (e_w e') e /\ fs_same (e_w e) (e_w e').

Lemma drv_same_fs e e' : drv_same e e' -> e_fs e' = e_fs e.
Proof. intros [E _]. by rewrite E. Qed.

#[global] Instance drv_same_preorder : PreOrder drv_same.
Proof.
  split; [by intros []|]. intros e1 e2 e3 [A1 B1] [A2 B2]. split; [by rewrite A2, A1|by etrans].
Qed.

#[global] Instance ext2_kernel_ok : KernelOk K.
Proof.
  apply (Build_KernelOk _ _ drv_same); cbn [k_sched k_set_sched k_malloc k_free k_putchar k_set_keys k_bytes k_string k_store ext2_kernel];
    intros; rewrite ?lift_w_2; unfold drv_same; cbn [with_w e_w].
  - apply _.
  - split; [done|by apply (kf_set (KernelOk := kernel_kernel_ok))].
  - split; [done|apply (kf_malloc (KernelOk := kernel_kernel_ok))].
  - split; [done|apply (kf_free (KernelOk := kernel_kernel_ok))].
  - split; [done|apply (kf_store (KernelOk := kernel_kernel_ok))].
  - split; [done|apply (kf_putchar (KernelOk := kernel_kernel_ok))].
  - apply ks_set.
  - apply ks_malloc.
  - apply ks_free.
  - apply ks_putchar.
  - apply ks_keys.
  - apply ks_store.
  - apply kb_length.
  - apply kb_bytes.
  - apply kb_set.
  - apply kb_malloc.
  - apply kb_free.
  - by apply kb_store.
  - apply kt_set.
  - apply kt_malloc.
  - apply kt_free.
Defined.

Lemma rest_calm (e e' : K) : same_env e e' -> calm e e'.
Proof. intros E. unfold calm, mem_kept. cbn [k_sched k_bytes k_string ext2_kernel kernel_kernel]. by rewrite E. Qed.

Lemma sys_ext2_uid : sys_uid (D := K) = ext2_uid.
Proof. reflexivity. Qed.
Lemma sys_ext2_gid : sys_gid (D := K) = ext2_gid.
Proof. reflexivity. Qed.

(** ** The driver's invariant and the machine *)

Section Machines.
Context {W W' : Type} `{MachineOk W} `{MachineOk W'}.

Lemma fs_inv_machine d v (e : ext2 W) (w' : W') :
  (forall l, sector w' d l = sector (e_w e) d l) -> healthy w' d -> fs_inv d e v -> fs_inv d (with_w w' e) v.
Proof.
  intros Hs Hh [[[B1 B2 B3 B4 B5] V2 V3 V4] L VO].
  assert (forall base n, sectors w' d base n = sectors (e_w e) d base n) as Hsec.
  { intros base n. unfold sectors. f_equal. apply list_fmap_ext. intros i k _. apply Hs. }
  assert (forall b, disk_block (with_w w' e) d b = disk_block e d b) as Hb by (intros b; apply Hsec).
  split; [|exact L|exact VO]. split; [|exact Hh|intros b Vb; rewrite Hb; by apply V3|by rewrite <- V4; apply Hsec].
  split; [exact B1|exact B2|exact B3| |exact B5]. intros i c Hc Hn. rewrite Hb. by apply (B4 i c).
Qed.

Lemma vfs_file_machine d v T cs ino n D uid gid (s : vfs (ext2 W)) (s' : vfs (ext2 W')) (w' : W') :
  vfs_file_at d v T cs ino n D uid gid s -> mount_table s' = root_mount -> v_drv s' = with_w w' (v_drv s) ->
  (forall d l, sector w' d l = sector (e_w (v_drv s)) d l) -> (forall d, healthy (e_w (v_drv s)) d -> healthy w' d) ->
  Machine.current_uid w' = Machine.current_uid (e_w (v_drv s)) ->
  Machine.current_gid w' = Machine.current_gid (e_w (v_drv s)) ->
  vfs_file_at d v T cs ino n D uid gid s'.
Proof.
  intros [F1 F2 F3 [A1 A2 A3 A4 A5] F5 F6 F7 F8] Hm Ee Hs Hh Hu Hg.
  split; rewrite ?Ee; try done; [by rewrite <- F2; apply Hu|by rewrite <- F3; apply Hg|].
  split; try done. apply fs_inv_machine; [apply Hs|by apply Hh, A1|done].
Qed.
End Machines.

Lemma vfs_file_drv d v T cs ino n D uid gid (s s' : vfs K) :
  vfs_file_at d v T cs ino n D uid gid s -> mount_table s' = mount_table s -> drv_same (v_drv s) (v_drv s') ->
  vfs_file_at d v T cs ino n D uid gid s'.
Proof.
  intros F Hm (Ee & Hs & Hh & Hu & Hg). eapply vfs_file_machine; try done. rewrite Hm. apply F.
Qed.

(** ** A file of the volume is a file store *)

Section Store.
Context (d : disk_device) (T : gmap Z dmap) (cs : list (list Z)) (ino uid gid limit : Z).

Record may_write (s : vfs K) : Prop := {
  mw_file : exists v n old, vfs_file_at d v T cs ino n old uid gid s /\
    tree_apart (e_fs (v_drv s)) v T (map_owns v (vino (e_fs (v_drv s)) v ino) n) /\
    bytes_ok old /\ Z.of_nat (length old) < 2 ^ 31 /\
    vfs_access (file_stat s v ino) uid gid W_OK = true /\ vfs_access (file_stat s v ino) uid gid R_OK = true;
  mw_limit : limit <= iter_reach (e_fs (v_drv s)) * fs_block_size (e_fs (v_drv s));
}.

Definition holds (c : list Z) (s : vfs K) : Prop := exists v n,
  vfs_file_at d v T cs ino n c uid gid s /\
  tree_apart (e_fs (v_drv s)) v T (map_owns v (vino (e_fs (v_drv s)) v ino) n) /\
  vfs_access (file_stat s v ino) uid gid R_OK = true /\
  Z.of_nat (length c) <= iter_reach (e_fs (v_drv s)) * fs_block_size (e_fs (v_drv s)).

Lemma vfs_file_table v n D s : vfs_file_at d v T cs ino n D uid gid s -> mount_table s <> [].
Proof. intros F. by rewrite (vf_table _ _ _ _ _ _ _ _ _ _ F). Qed.

Lemma file_stat_reg v n D s : vfs_file_at d v T cs ino n D uid gid s -> st_type (file_stat s v ino) = VFS_FILE.
Proof.
  intros F. pose proof (fp_reg _ _ _ _ _ (fa_file _ _ _ _ _ _ _ _ (vf_file _ _ _ _ _ _ _ _ _ _ F))) as Hr.
  unfold file_stat, inode_stat, node_type. cbn [st_type]. unfold inode_is in *. apply Z.eqb_eq in Hr as ->. done.
Qed.

Lemma vfs_stat_ext2 v n D s : vfs_file_at d v T cs ino n D uid gid s ->
  run (vfs_stat_path ext2_uid ext2_gid (render cs)) s (fun r s' =>
    vfs_file_at d v T cs ino n D uid gid s' /\ e_fs (v_drv s') = e_fs (v_drv s) /\ same_env (v_drv s) (v_drv s') /\
    r = Done (file_stat s v ino)).
Proof.
  intros F. pose proof (vfs_file_mounted _ _ _ _ _ _ _ _ _ _ F) as M.
  unfold vfs_stat_path, with_cred. apply run_bind, run_get. rewrite (vf_uid _ _ _ _ _ _ _ _ _ _ F), (vf_gid _ _ _ _ _ _ _ _ _ _ F).
  unfold rbind at 1, or_fail. apply run_bind. eapply run_bind, run_mono; [by eapply vfs_file_reached|].
  intros r s1 [-> M1]. apply run_ret. unfold stat_or_fail.
  run_step (tv_stat _ _ (ext2_tree_view d _ v T uid gid _ (vf_plain _ _ _ _ _ _ _ _ _ _ F))) as [-> M2]; [exact M1|].
  rewrite (vfs_file_view _ _ _ _ _ _ _ _ _ _ F). apply run_ret.
  pose proof (mounted_reads_same _ _ _ _ _ _ _ _ _ M M2) as R. pose proof R as (_ & Ef & Er).
  split; [|done]. pose proof F as [_ _ _ A F5 F6 F7 F8]. pose proof M2 as [N1 _ _ _ _ N6 N7 _].
  split; rewrite ?Ef; try done. by eapply file_at_reads.
Qed.

(** EXT2 keeps the contract, up to the size that the driver reads back. *)
Lemma file_is_store : file_store (render cs) limit may_write holds.
Proof.
  split; rewrite ?sys_ext2_uid, ?sys_ext2_gid.
  - intros s s' [(v & n & old & F & HA & Ho) HL] Hm Hd. pose proof (drv_same_fs _ _ Hd) as Ef.
    split; [exists v, n, old|by rewrite Ef]. unfold file_stat in *. rewrite Ef. split; [by eapply vfs_file_drv|done].
  - intros c s s' (v & n & F & HA & HR & HL) Hm Hd. pose proof (drv_same_fs _ _ Hd) as Ef.
    exists v, n. unfold file_stat in *. rewrite Ef. split; [by eapply vfs_file_drv|done].
  - intros s [(v & n & old & F & _) _]. by eapply vfs_file_table.
  - intros c s (v & n & F & _). by eapply vfs_file_table.
  - intros s [(v & n & old & F & HA & Hb & Ho & HW & HR) HL]. eapply run_mono; [by eapply vfs_stat_ext2|].
    intros r s' (F' & Ef & Er & ->). split; [|split; [by apply rest_calm|]].
    + split; [exists v, n, old; unfold file_stat in *; by rewrite Ef|by rewrite Ef].
    + exists (file_stat s v ino). split; [done|]. split; [by eapply file_stat_reg|]. by rewrite (vf_uid _ _ _ _ _ _ _ _ _ _ F), (vf_gid _ _ _ _ _ _ _ _ _ _ F).
  - intros c s (v & n & F & HA & HR & HL). eapply run_mono; [by eapply vfs_stat_ext2|].
    intros r s' (F' & Ef & Er & ->). split; [|split; [by apply rest_calm|]].
    + exists v, n. unfold file_stat in *. by rewrite Ef.
    + exists (file_stat s v ino). split; [done|]. split; [by eapply file_stat_reg|]. by rewrite (vf_uid _ _ _ _ _ _ _ _ _ _ F), (vf_gid _ _ _ _ _ _ _ _ _ _ F).
  - intros data s [(v & n & old & F & HA & Hb & Ho & HW & HR) HL] Hd Hl Hlim.
    eapply run_mono; [apply (vfs_write_file_ext2 d v T cs ino n old data 0 uid gid s); [done..|lia|done]|]. intros r s' (rc & HRp & Hm & ->).
    split; [apply rest_calm, HRp|].
    destruct (rewritten_file_at _ _ _ _ _ _ _ _ _ _ _ _ _ F HA HRp Hm) as (v' & n' & D & [F' HA' Er Eb Hacc] & [[-> ->]|(-> & _)]).
    + left. split; [done|]. exists v', n'. rewrite Hacc, Er, Eb. split_and!; [done|done|done|lia].
    + right. exists (- ENOSPC). split; [done|]. unfold neg_err, ENOSPC. lia.
  - intros c s (v & n & F & HA & HR & HL). eapply run_mono; [by apply (vfs_read_file_ext2 d v T cs ino n c uid gid s)|].
    intros r s' (Er & _ & [Hr|[-> _]]); (split; [by apply rest_calm|]); [by left|right].
    exists (- EIO). split; [done|]. unfold neg_err, EIO. lia.
Qed.
End Store.


(** ** A program on the volume of Ext2Demo.v *)

(** The path at 0x1000, two pieces of data at 0x2000 and 0x3000; one task,
    with user and group 1. *)
Definition prog_task : task := mk_task 1 (lit "prog") TASK_RUNNING 0 None None 0 0x500 stdio_fds 1 1.
Definition prog_kernel : kernel :=
  mk_kernel demo_w (mk_sched {[0x500 := prog_task]} (Some 0x500) (Some 0x500) 2) vga_off []
    (store_at 0x1000 (lit "/f") (store_at 0x2000 [10; 20; 30] (store_at 0x3000 [40; 50] ∅))) 0.
Definition prog_vfs : vfs K := mk_vfs root_mount [] (with_w prog_kernel demo_s).

Lemma prog_may_write : may_write ata1 demo_tree [lit "f"] 12 1 1 1000 prog_vfs.
Proof.
  split; [|by vm_compute]. exists demo_v, 1, demo_data.
  split; [by apply (vfs_file_machine ata1 demo_v demo_tree [lit "f"] 12 1 demo_data 1 1 demo_vfs prog_vfs prog_kernel); [apply demo_vfs_file|..]|].
  split; [apply demo_apart|]. split; [apply demo_data_bytes|]. split; [by vm_compute|]. by split; vm_compute.
Qed.

Lemma prog_free_fd : has_free_fd 3 prog_vfs.
Proof. exists 0x500, prog_task. by vm_compute. Qed.

Lemma prog_data : chunk_data (v_drv prog_vfs) [(0x2000, 3); (0x3000, 2)] = [10; 20; 30; 40; 50].
Proof. by vm_compute. Qed.


Lemma save_load_roundtrip_witness :
  run (save_load 0x1000 [(0x2000, 3); (0x3000, 2)] 0x4000 64) prog_vfs (fun r _ =>
    r = inl (chunk_data (v_drv prog_vfs) [(0x2000, 3); (0x3000, 2)]) \/ exists v, r = inr (Ret v) /\ 2 ^ 31 <= v).
Proof.
  apply (save_load_roundtrip (lit "/f") 1000 (may_write ata1 demo_tree [lit "f"] 12 1 1 1000) (holds ata1 demo_tree [lit "f"] 12 1 1)
    0x1000 3 [(0x2000, 3); (0x3000, 2)] 0x4000 64 prog_vfs);
    rewrite ?prog_data; try done; [apply (file_is_store ata1 demo_tree [lit "f"])|apply prog_may_write|apply prog_free_fd|by repeat constructor].
Defined.

(** The program runs. *)
Example prog_reads_back :
  (save_load 0x1000 [(0x2000, 3); (0x3000, 2)] 0x4000 64 prog_vfs).1 = inl [10; 20; 30; 40; 50].
Proof. by vm_compute. Qed.
