(* ===== verification/Editor.v ===== *)
(** * The text editor (editor/editor.c)

    A line of the text is a pointer to 256 bytes from the heap.  [vm_buf] holds
    the first [nlines] pointers of the array [buf], [vm_ubuf] the first [unlines]
    of [ubuf]; a pointer is its address with the bytes behind it, [None] is
    NULL.  The editor runs on the kernel of Syscall.v: its heap, its VFS and,
    through [Console], its terminal.  [ed_undef] is set where the C code would
    use a NULL pointer, an entry behind the last line or a byte outside a line;
    [ed_fault] records a fault below the editor (a line that could not be
    allocated, a path that overran a buffer of the VFS), and nothing reads it.
    The keys typed are a list. *)

From Stdlib Require Import Ascii.
From stdpp Require Import strings.
From S2P Require Import Prelude Machine VfsTypes CLib Printf Vfs Keyboard Vga Task Syscall ShellLine.

Definition VIM_MAX_LINES : Z := 512.
Definition VIM_MAX_COL : Z := 256.
Definition VIM_ROWS : Z := 23.

Inductive vim_mode := NORMAL | INSERT | COMMAND | VSEARCH.
#[global] Instance vim_mode_eq_dec : EqDecision vim_mode.
Proof. solve_decision. Defined.

Definition line_ptr : Type := option (Z * list Z).

Record vim := mk_vim {
  vm_path : list Z; vm_buf : list line_ptr; vm_cx : Z; vm_cy : Z; vm_row_off : Z; vm_col_off : Z;
  vm_dirty : bool; vm_running : bool; vm_mode : vim_mode; vm_pending : Z; vm_cmd : list Z; vm_cmdlen : Z;
  vm_yank : list Z; vm_has_yank : bool; vm_ubuf : list line_ptr; vm_ucx : Z; vm_ucy : Z; vm_has_undo : bool;
  vm_search : list Z; vm_search_len : Z; vm_msg : list Z;
}.
Implicit Types (v : vim).

Definition nlines v : Z := Z.of_nat (length (vm_buf v)).

Definition set_path (path : list Z) v : vim :=
  mk_vim path (vm_buf v) (vm_cx v) (vm_cy v) (vm_row_off v) (vm_col_off v) (vm_dirty v) (vm_running v) (vm_mode v) (vm_pending v) (vm_cmd v)
    (vm_cmdlen v) (vm_yank v) (vm_has_yank v) (vm_ubuf v) (vm_ucx v) (vm_ucy v) (vm_has_undo v) (vm_search v) (vm_search_len v) (vm_msg v).
Definition set_buf (buf : list line_ptr) v : vim :=
  mk_vim (vm_path v) buf (vm_cx v) (vm_cy v) (vm_row_off v) (vm_col_off v) (vm_dirty v) (vm_running v) (vm_mode v) (vm_pending v) (vm_cmd v)
    (vm_cmdlen v) (vm_yank v) (vm_has_yank v) (vm_ubuf v) (vm_ucx v) (vm_ucy v) (vm_has_undo v) (vm_search v) (vm_search_len v) (vm_msg v).
Definition set_cursor (cx : Z) (cy : Z) v : vim :=
  mk_vim (vm_path v) (vm_buf v) cx cy (vm_row_off v) (vm_col_off v) (vm_dirty v) (vm_running v) (vm_mode v) (vm_pending v) (vm_cmd v)
    (vm_cmdlen v) (vm_yank v) (vm_has_yank v) (vm_ubuf v) (vm_ucx v) (vm_ucy v) (vm_has_undo v) (vm_search v) (vm_search_len v) (vm_msg v).
Definition set_offsets (row_off : Z) (col_off : Z) v : vim :=
  mk_vim (vm_path v) (vm_buf v) (vm_cx v) (vm_cy v) row_off col_off (vm_dirty v) (vm_running v) (vm_mode v) (vm_pending v) (vm_cmd v)
    (vm_cmdlen v) (vm_yank v) (vm_has_yank v) (vm_ubuf v) (vm_ucx v) (vm_ucy v) (vm_has_undo v) (vm_search v) (vm_search_len v) (vm_msg v).
Definition set_dirty (dirty : bool) v : vim :=
  mk_vim (vm_path v) (vm_buf v) (vm_cx v) (vm_cy v) (vm_row_off v) (vm_col_off v) dirty (vm_running v) (vm_mode v) (vm_pending v) (vm_cmd v)
    (vm_cmdlen v) (vm_yank v) (vm_has_yank v) (vm_ubuf v) (vm_ucx v) (vm_ucy v) (vm_has_undo v) (vm_search v) (vm_search_len v) (vm_msg v).
Definition set_running (running : bool) v : vim :=
  mk_vim (vm_path v) (vm_buf v) (vm_cx v) (vm_cy v) (vm_row_off v) (vm_col_off v) (vm_dirty v) running (vm_mode v) (vm_pending v) (vm_cmd v)
    (vm_cmdlen v) (vm_yank v) (vm_has_yank v) (vm_ubuf v) (vm_ucx v) (vm_ucy v) (vm_has_undo v) (vm_search v) (vm_search_len v) (vm_msg v).
Definition set_vmode (mode : vim_mode) v : vim :=
  mk_vim (vm_path v) (vm_buf v) (vm_cx v) (vm_cy v) (vm_row_off v) (vm_col_off v) (vm_dirty v) (vm_running v) mode (vm_pending v) (vm_cmd v)
    (vm_cmdlen v) (vm_yank v) (vm_has_yank v) (vm_ubuf v) (vm_ucx v) (vm_ucy v) (vm_has_undo v) (vm_search v) (vm_search_len v) (vm_msg v).
Definition set_pending (pending : Z) v : vim :=
  mk_vim (vm_path v) (vm_buf v) (vm_cx v) (vm_cy v) (vm_row_off v) (vm_col_off v) (vm_dirty v) (vm_running v) (vm_mode v) pending (vm_cmd v)
    (vm_cmdlen v) (vm_yank v) (vm_has_yank v) (vm_ubuf v) (vm_ucx v) (vm_ucy v) (vm_has_undo v) (vm_search v) (vm_search_len v) (vm_msg v).
Definition set_cmd (cmd : list Z) (cmdlen : Z) v : vim :=
  mk_vim (vm_path v) (vm_buf v) (vm_cx v) (vm_cy v) (vm_row_off v) (vm_col_off v) (vm_dirty v) (vm_running v) (vm_mode v) (vm_pending v) cmd
    cmdlen (vm_yank v) (vm_has_yank v) (vm_ubuf v) (vm_ucx v) (vm_ucy v) (vm_has_undo v) (vm_search v) (vm_search_len v) (vm_msg v).
Definition set_yank (yank : list Z) (has_yank : bool) v : vim :=
  mk_vim (vm_path v) (vm_buf v) (vm_cx v) (vm_cy v) (vm_row_off v) (vm_col_off v) (vm_dirty v) (vm_running v) (vm_mode v) (vm_pending v) (vm_cmd v)
    (vm_cmdlen v) yank has_yank (vm_ubuf v) (vm_ucx v) (vm_ucy v) (vm_has_undo v) (vm_search v) (vm_search_len v) (vm_msg v).
Definition set_undo (ubuf : list line_ptr) (ucx : Z) (ucy : Z) (has_undo : bool) v : vim :=
  mk_vim (vm_path v) (vm_buf v) (vm_cx v) (vm_cy v) (vm_row_off v) (vm_col_off v) (vm_dirty v) (vm_running v) (vm_mode v) (vm_pending v) (vm_cmd v)
    (vm_cmdlen v) (vm_yank v) (vm_has_yank v) ubuf ucx ucy has_undo (vm_search v) (vm_search_len v) (vm_msg v).
Definition set_search (search : list Z) (search_len : Z) v : vim :=
  mk_vim (vm_path v) (vm_buf v) (vm_cx v) (vm_cy v) (vm_row_off v) (vm_col_off v) (vm_dirty v) (vm_running v) (vm_mode v) (vm_pending v) (vm_cmd v)
    (vm_cmdlen v) (vm_yank v) (vm_has_yank v) (vm_ubuf v) (vm_ucx v) (vm_ucy v) (vm_has_undo v) search search_len (vm_msg v).
Definition set_vmsg (msg : list Z) v : vim :=
  mk_vim (vm_path v) (vm_buf v) (vm_cx v) (vm_cy v) (vm_row_off v) (vm_col_off v) (vm_dirty v) (vm_running v) (vm_mode v) (vm_pending v) (vm_cmd v)
    (vm_cmdlen v) (vm_yank v) (vm_has_yank v) (vm_ubuf v) (vm_ucx v) (vm_ucy v) (vm_has_undo v) (vm_search v) (vm_search_len v) msg.

(** [memset(&V, 0, sizeof(V))]. *)
Definition vim_zero : vim :=
  mk_vim (zeros 128) [] 0 0 0 0 false false NORMAL 0 (zeros 80) 0 (zeros 256) false [] 0 0 false (zeros 64) 0 (zeros 80).

(** The terminal of the machine. *)
Class Console (D : Type) := { con_vga : D -> vga; con_set_vga : vga -> D -> D }.

Record ed (D : Type) := mk_ed { ed_vim : vim; ed_sys : vfs D; ed_fault : bool; ed_undef : bool }.
Arguments mk_ed {D}. Arguments ed_vim {D}. Arguments ed_sys {D}. Arguments ed_fault {D}. Arguments ed_undef {D}.

(** The characters of a word. *)
Definition is_word_char (c : Z) : bool :=
  ((ch "a" <=? c) && (c <=? ch "z")) || ((ch "A" <=? c) && (c <=? ch "Z")) ||
  ((ch "0" <=? c) && (c <=? ch "9")) || (c =? ch "_").

(** [while (x < len && f(line[x])) x++;] counts the characters passed. *)
Fixpoint span_len (f : Z -> bool) (s : list Z) : Z :=
  match s with
  | [] => 0
  | c :: s => if f c then 1 + span_len f s else 0
  end.

(** [while (x > 0 && line[x] == ' ') x--;] *)
Fixpoint back_blanks (x : nat) (t : list Z) : nat :=
  match x with
  | O => O
  | S k => if byte_at t (Z.of_nat x) =? 32 then back_blanks k t else x
  end.
(** [while (x > 0 && is_word_char(line[x - 1]) == iw) x--;] *)
Fixpoint back_word (x : nat) (iw : bool) (t : list Z) : nat :=
  match x with
  | O => O
  | S k => if eqb (is_word_char (byte_at t (Z.of_nat k))) iw then back_word k iw t else x
  end.

Section Editor.
Context {D : Type} `{Kernel D, Console D}.
Abbreviation M := (state (ed D)).

Definition vget {A} (f : vim -> A) : M A := gets (fun s => f (ed_vim s)).
Definition vset (f : vim -> vim) : M unit :=
  modify (fun s => mk_ed (f (ed_vim s)) (ed_sys s) (ed_fault s) (ed_undef s)).
Definition undefined : M unit := modify (fun s => mk_ed (ed_vim s) (ed_sys s) (ed_fault s) true).
Definition fault : M unit := modify (fun s => mk_ed (ed_vim s) (ed_sys s) true (ed_undef s)).
Definition check (b : bool) : M unit := if b then mret tt else undefined.
Definition on_sys {A} (m : state (vfs D) A) : M A :=
  fun s => let '(a, k) := m (ed_sys s) in (a, mk_ed (ed_vim s) k (ed_fault s) (ed_undef s)).
Definition on_vga (f : vga -> vga) : M unit :=
  on_sys (on_d (fun d => con_set_vga (f (con_vga d)) d)).

(** ** Lines *)

Definition line (i : Z) : M (list Z) :=
  p ← vget (fun v => vm_buf v !! Z.to_nat i);
  match p with
  | Some (Some (_, b)) => mret b
  | _ => _ ← undefined; mret []
  end.

Definition set_line (i : Z) (b : list Z) : M unit :=
  vset (fun v => set_buf (alter (fmap (fun '(p, _) => (p, b))) (Z.to_nat i) (vm_buf v)) v).

(** [strlen(V.buf[i])] and the string. *)
Definition line_text (i : Z) : M (list Z) :=
  b ← line i;
  _ ← check (existsb (Z.eqb 0) b);
  mret (cstr b).
Definition line_len (i : Z) : M Z := t ← line_text i; mret (Z.of_nat (length t)).

(** [V.buf[i][k] = c;] *)
Definition put_char (i k c : Z) : M unit :=
  b ← line i;
  _ ← check ((0 <=? k) && (k <? Z.of_nat (length b)));
  set_line i (CStr.st b k c).

(** [memmove(line + dst, line + src, n);] *)
Definition move_chars (i dst src n : Z) : M unit :=
  b ← line i;
  _ ← check ((0 <=? dst) && (0 <=? src) && (dst + n <=? Z.of_nat (length b)) && (src + n <=? Z.of_nat (length b)));
  set_line i (CStr.memmove b dst src n).

(** [memcpy(line + dst, text, n);] with [n] bytes of another line. *)
Definition copy_chars (i dst : Z) (bytes : list Z) : M unit :=
  b ← line i;
  _ ← check ((0 <=? dst) && (dst + Z.of_nat (length bytes) <=? Z.of_nat (length b)));
  set_line i (put b dst bytes).

(** Moving the pointers behind position [i] up by one and storing [p] there,
    or down by one over the pointer at [i]; [nlines] follows. *)
Definition insert_ptr (i : Z) (p : line_ptr) : M unit :=
  n ← vget nlines;
  _ ← check ((i <=? n) && (n <? VIM_MAX_LINES));
  vset (fun v => set_buf (take (Z.to_nat i) (vm_buf v) ++ p :: drop (Z.to_nat i) (vm_buf v)) v).
Definition remove_ptr (i : Z) : M unit :=
  n ← vget nlines;
  _ ← check (i <? n);
  vset (fun v => set_buf (take (Z.to_nat i) (vm_buf v) ++ drop (S (Z.to_nat i)) (vm_buf v)) v).

Definition lalloc (src : list Z) (len : Z) : M line_ptr :=
  p ← on_sys (lift_d (k_malloc VIM_MAX_COL));
  match p with
  | None => _ ← fault; mret None
  | Some p =>
      if len =? 0 then mret (Some (p, zeros VIM_MAX_COL)) else
      let len := if VIM_MAX_COL <=? len then VIM_MAX_COL - 1 else len in
      mret (Some (p, put (zeros VIM_MAX_COL) 0 (sub src 0 len)))
  end.

Definition free_line (p : line_ptr) : M unit := on_sys (lift_d (k_free (fst <$> p))).
Fixpoint free_lines (ps : list line_ptr) : M unit :=
  match ps with
  | [] => mret tt
  | p :: ps => _ ← free_line p; free_lines ps
  end.

Definition set_msg (t : list Z) : M unit := vset (fun v => set_vmsg (CStr.st (strncpy_at (vm_msg v) t 79) 79 0) v).
(** [snprintf(V.msg, sizeof(V.msg), ...)]. *)
Definition msg_printf (fmt : list Z) (args : list arg) : M unit :=
  m ← vget vm_msg;
  match snprintf (Some m) 80 fmt args with
  | Some (Some m, _) => vset (set_vmsg m)
  | _ => undefined
  end.

Definition set_x (x : Z) : M unit := vset (fun v => set_cursor x (vm_cy v) v).
Definition set_y (y : Z) : M unit := vset (fun v => set_cursor (vm_cx v) y v).
Definition make_dirty : M unit := vset (set_dirty true).

Definition clamp_cx : M unit :=
  y ← vget vm_cy;
  len ← line_len y;
  md ← vget vm_mode;
  let max := if bool_decide (md = INSERT) then len else if 0 <? len then len - 1 else 0 in
  x ← vget vm_cx;
  if max <? x then set_x max else mret tt.

Definition scrolled v : vim :=
  let r := if vm_cy v <? vm_row_off v then vm_cy v else vm_row_off v in
  let r := if r + VIM_ROWS <=? vm_cy v then vm_cy v - VIM_ROWS + 1 else r in
  let c := if vm_cx v <? vm_col_off v then vm_cx v else vm_col_off v in
  let c := if c + 80 <=? vm_cx v then vm_cx v - 79 else c in
  set_offsets r c v.
Definition do_scroll : M unit := vset scrolled.

(** ** Undo *)

Definition copy_line (p : line_ptr) : M line_ptr :=
  match p with
  | None => _ ← undefined; mret None
  | Some (_, b) => _ ← check (existsb (Z.eqb 0) b); lalloc b (Z.of_nat (length (cstr b)))
  end.
Fixpoint copy_lines (ps : list line_ptr) : M (list line_ptr) :=
  match ps with
  | [] => mret []
  | p :: ps => q ← copy_line p; qs ← copy_lines ps; mret (q :: qs)
  end.

Definition save_undo : M unit :=
  v ← vget id;
  _ ← (if vm_has_undo v then free_lines (vm_ubuf v) else mret tt);
  u ← copy_lines (vm_buf v);
  vset (set_undo u (vm_cx v) (vm_cy v) true).

Definition do_undo : M unit :=
  v ← vget id;
  if negb (vm_has_undo v) then set_msg (lit "Already at oldest change") else
  _ ← free_lines (vm_buf v);
  _ ← vset (fun v => set_dirty true (set_cursor (vm_ucx v) (vm_ucy v) (set_buf (vm_ubuf v) v)));
  _ ← vset (fun v => set_undo (replicate (length (vm_ubuf v)) None) (vm_ucx v) (vm_ucy v) false v);
  set_msg (lit "1 change; before #1").

(** ** Files *)

Definition buf_free : M unit :=
  ps ← vget vm_buf;
  _ ← free_lines ps;
  vset (set_buf []).

Definition push_line (p : line_ptr) : M unit := vset (fun v => set_buf (vm_buf v ++ [p]) v).

(** The loop over the file: [cur] are the bytes from [start] to [i], [rest]
    those from [i] on. *)
Fixpoint load_loop (rest cur : list Z) : M unit :=
  n ← vget nlines;
  if VIM_MAX_LINES <=? n then mret tt else
  match rest with
  | [] =>
      p ← lalloc cur (Z.of_nat (length cur));
      match p with None => mret tt | Some _ => push_line p end
  | c :: rest =>
      if c =? 10 then
        p ← lalloc cur (Z.of_nat (length cur));
        match p with None => mret tt | Some _ => _ ← push_line p; load_loop rest [] end
      else load_loop rest (cur ++ [c])
  end.

(** [load_file] once [vfs_read_file] has returned. *)
Definition show_file (path : list Z) (r : res (Z * list Z * Z)) : M unit :=
  match r with
  | Overflow => _ ← fault; undefined
  | Err _ =>
      p ← lalloc [] 0;
      _ ← vset (set_buf [p]);
      set_msg (lit "[New File]")
  | Done (a, data, size) =>
      _ ← load_loop (sub data 0 size) [];
      n ← vget nlines;
      _ ← (if (1 <? n) && (0 <? size) && (byte_at data (size - 1) =? 10) then
             len ← line_len (n - 1);
             if len =? 0 then
               ps ← vget vm_buf;
               _ ← free_line (default None (ps !! Z.to_nat (n - 1)));
               vset (fun v => set_buf (take (Z.to_nat (n - 1)) (vm_buf v)) v)
             else mret tt
           else mret tt);
      n ← vget nlines;
      _ ← (if n =? 0 then p ← lalloc [] 0; vset (set_buf [p]) else mret tt);
      _ ← on_sys (lift_d (k_free (Some a)));
      n ← vget nlines;
      msg_printf ([34] ++ lit "%s" ++ [34] ++ lit " %uL") [AText (Some path); AWord n]
  end.
Definition load_file (path : list Z) : M unit :=
  _ ← buf_free;
  _ ← vset (fun v => set_path (strncpy_at (vm_path v) path 127) v);
  r ← on_sys (vfs_read_file sys_uid sys_gid path);
  show_file path r.

(** The lines, each with a line feed. *)
Fixpoint collect (ps : list line_ptr) : M (list Z) :=
  match ps with
  | [] => mret []
  | p :: ps =>
      t ← match p with
          | Some (_, b) => _ ← check (existsb (Z.eqb 0) b); mret (cstr b)
          | None => _ ← undefined; mret []
          end;
      rest ← collect ps;
      mret (t ++ 10 :: rest)
  end.

Definition save_file : M Z :=
  ps ← vget vm_buf;
  text ← collect ps;
  out ← on_sys (lift_d (k_malloc (Z.of_nat (length text) + 1)));
  match out with
  | None => _ ← set_msg (lit "Write failed: OOM"); mret (-1)
  | Some _ =>
      m ← on_sys vfs_mounted;
      if negb m then
        _ ← on_sys (lift_d (k_free out));
        _ ← set_msg (lit "Write error: no filesystem");
        mret (-1)
      else
        path ← vget (fun v => cstr (vm_path v));
        r ← on_sys (vfs_write_file sys_uid sys_gid path text VFS_O_TRUNC);
        _ ← on_sys (lift_d (k_free out));
        match r with
        | Done _ =>
            _ ← vset (set_dirty false);
            n ← vget nlines;
            _ ← msg_printf ([34] ++ lit "%s" ++ [34] ++ lit " %uL written") [AText (Some path); AWord n];
            mret 0
        | Err rc => _ ← msg_printf (lit "Write error: %s (see serial)") [AText (Some path)]; mret rc
        | Overflow => _ ← fault; _ ← undefined; mret 0
        end
  end.

(** ** Drawing *)

Definition print (fmt : list Z) (args : list arg) : M unit :=
  match printf fmt args with
  | Some (t, _) => on_vga (vga_write t)
  | None => undefined
  end.

Definition draw_row (sr : Z) : M unit :=
  _ ← on_vga (vga_goto sr 0);
  v ← vget id;
  let fr := vm_row_off v + sr in
  _ ← (if fr <? nlines v then
         t ← line_text fr;
         on_vga (vga_write (sub t (vm_col_off v) 80))
       else on_vga (vga_putc (ch "~")));
  on_vga vga_erase_eol.
Fixpoint draw_rows (rows : list Z) : M unit :=
  match rows with
  | [] => mret tt
  | sr :: rows => _ ← draw_row sr; draw_rows rows
  end.

Definition draw_status : M unit :=
  v ← vget id;
  _ ← on_vga (vga_set_color VGA_BLACK VGA_LIGHT_GREY);
  _ ← on_vga (vga_goto 23 0);
  let mstr := if bool_decide (vm_mode v = INSERT) then lit " -- INSERT -- " else lit " -- NORMAL -- " in
  let name := if byte_at (vm_path v) 0 =? 0 then lit "[No Name]" else cstr (vm_path v) in
  _ ← print (lit "%s %s%s") [AText (Some mstr); AText (Some name); AText (Some (if vm_dirty v then lit " [+]" else []))];
  _ ← on_vga vga_erase_eol;
  _ ← match snprintf (Some (zeros 16)) 16 (lit " %u:%-3u") [AWord (u32 (vm_cy v + 1)); AWord (u32 (vm_cx v + 1))] with
      | Some (Some rc, _) =>
          _ ← on_vga (vga_goto 23 (u32 (80 - Z.of_nat (length (cstr rc)))));
          print (lit "%s") [AText (Some (cstr rc))]
      | _ => undefined
      end;
  on_vga (vga_set_color VGA_LIGHT_GREY VGA_BLACK).

Definition draw_command : M unit :=
  v ← vget id;
  _ ← on_vga (vga_goto 24 0);
  _ ← match vm_mode v with
      | COMMAND => _ ← on_vga (vga_putc (ch ":")); print (lit "%.*s") [AWord (vm_cmdlen v); AText (Some (vm_cmd v))]
      | VSEARCH => _ ← on_vga (vga_putc (ch "/")); print (lit "%.*s") [AWord (vm_search_len v); AText (Some (vm_search v))]
      | _ =>
          if negb (vm_pending v =? 0) then on_vga (vga_putc (u8 (vm_pending v)))
          else print (lit "%s") [AText (Some (cstr (vm_msg v)))]
      end;
  on_vga vga_erase_eol.

Definition draw : M unit :=
  _ ← do_scroll;
  _ ← draw_rows (seqZ 0 VIM_ROWS);
  _ ← draw_status;
  _ ← draw_command;
  v ← vget id;
  match vm_mode v with
  | COMMAND => on_vga (vga_set_cursor 24 (vm_cmdlen v + 1))
  | VSEARCH => on_vga (vga_set_cursor 24 (vm_search_len v + 1))
  | _ =>
      let crow := u32 (vm_cy v - vm_row_off v) in
      let ccol := u32 (vm_cx v - vm_col_off v) in
      if crow <? VIM_ROWS then on_vga (vga_set_cursor crow ccol) else mret tt
  end.

(** ** Edit primitives *)

Definition insert_char (c : Z) : M unit :=
  v ← vget id;
  len ← line_len (vm_cy v);
  if VIM_MAX_COL <=? len + 1 then mret tt else
  _ ← move_chars (vm_cy v) (vm_cx v + 1) (vm_cx v) (u32 (len - vm_cx v + 1));
  _ ← put_char (vm_cy v) (vm_cx v) c;
  _ ← set_x (vm_cx v + 1);
  make_dirty.

Definition insert_newline : M unit :=
  v ← vget id;
  if VIM_MAX_LINES <=? nlines v then mret tt else
  b ← line (vm_cy v);
  len ← line_len (vm_cy v);
  tail ← lalloc (drop (Z.to_nat (vm_cx v)) b) (u32 (len - vm_cx v));
  match tail with
  | None => mret tt
  | Some _ =>
      _ ← put_char (vm_cy v) (vm_cx v) 0;
      _ ← insert_ptr (vm_cy v + 1) tail;
      _ ← vset (set_cursor 0 (vm_cy v + 1));
      make_dirty
  end.

(** [strcat(V.buf[i], V.buf[j]); kfree(V.buf[j]);] and closing the gap. *)
Definition join_lines (i j : Z) : M unit :=
  ps ← vget vm_buf;
  t ← line_text i;
  b ← line j;
  len ← line_len j;
  _ ← copy_chars i (Z.of_nat (length t)) (sub b 0 (len + 1));
  _ ← free_line (default None (ps !! Z.to_nat j));
  remove_ptr j.

Definition backspace_char : M unit :=
  v ← vget id;
  _ ← (if 0 <? vm_cx v then
         len ← line_len (vm_cy v);
         _ ← move_chars (vm_cy v) (vm_cx v - 1) (vm_cx v) (u32 (len - vm_cx v + 1));
         set_x (vm_cx v - 1)
       else if 0 <? vm_cy v then
         plen ← line_len (vm_cy v - 1);
         clen ← line_len (vm_cy v);
         if plen + clen <? VIM_MAX_COL then
           _ ← join_lines (vm_cy v - 1) (vm_cy v);
           vset (set_cursor plen (vm_cy v - 1))
         else mret tt
       else mret tt);
  make_dirty.

Definition delete_fwd : M unit :=
  v ← vget id;
  len ← line_len (vm_cy v);
  if vm_cx v <? len then
    _ ← move_chars (vm_cy v) (vm_cx v) (vm_cx v + 1) (len - vm_cx v);
    make_dirty
  else if vm_cy v + 1 <? nlines v then
    nlen ← line_len (vm_cy v + 1);
    if len + nlen <? VIM_MAX_COL then
      _ ← join_lines (vm_cy v) (vm_cy v + 1);
      make_dirty
    else mret tt
  else mret tt.

Definition delete_line (r : Z) : M unit :=
  v ← vget id;
  if nlines v =? 1 then _ ← put_char 0 0 0; _ ← set_x 0; make_dirty else
  _ ← free_line (default None (vm_buf v !! Z.to_nat r));
  _ ← remove_ptr r;
  n ← vget nlines;
  _ ← vset (set_cursor 0 (if n <=? vm_cy v then n - 1 else vm_cy v));
  make_dirty.

Definition delete_to_eol : M unit :=
  v ← vget id;
  len ← line_len (vm_cy v);
  if len <=? vm_cx v then mret tt else
  _ ← put_char (vm_cy v) (vm_cx v) 0;
  _ ← (if 0 <? vm_cx v then set_x (vm_cx v - 1) else mret tt);
  make_dirty.

Definition yank_line (r : Z) : M unit :=
  t ← line_text r;
  vset (fun v => set_yank (CStr.st (strncpy_at (vm_yank v) t 255) 255 0) true v).

(** A copy of the yanked line, when there is one and room for it. *)
Definition paste (at_cursor : bool) : M unit :=
  v ← vget id;
  if negb (vm_has_yank v) || (VIM_MAX_LINES <=? nlines v) then mret tt else
  nl ← lalloc (vm_yank v) (Z.of_nat (length (cstr (vm_yank v))));
  match nl with
  | None => mret tt
  | Some _ =>
      let y := if at_cursor then vm_cy v else vm_cy v + 1 in
      _ ← insert_ptr y nl;
      _ ← vset (set_cursor 0 y);
      make_dirty
  end.
Definition paste_below : M unit := paste false.
Definition paste_above : M unit := paste true.

(** ** Movement and search *)

Definition move_word_fwd : M unit :=
  v ← vget id;
  t ← line_text (vm_cy v);
  let rest := drop (Z.to_nat (vm_cx v)) t in
  match rest with
  | c :: _ =>
      let iw := is_word_char c in
      let n := span_len (fun c => eqb (is_word_char c) iw) rest in
      let m := span_len (Z.eqb 32) (drop (Z.to_nat n) rest) in
      set_x (vm_cx v + n + m)
  | [] => if vm_cy v + 1 <? nlines v then vset (set_cursor 0 (vm_cy v + 1)) else mret tt
  end.

Definition move_word_back : M unit :=
  v ← vget id;
  if 0 <? vm_cx v then
    t ← line_text (vm_cy v);
    let x := back_blanks (Z.to_nat (vm_cx v - 1)) t in
    let iw := is_word_char (byte_at t (Z.of_nat x)) in
    set_x (Z.of_nat (back_word x iw t))
  else if 0 <? vm_cy v then
    len ← line_len (vm_cy v - 1);
    vset (set_cursor (if 0 <? len then len - 1 else 0) (vm_cy v - 1))
  else mret tt.

(** [strstr(V.buf[ly] + from, V.search)] as a column. *)
Definition find_in (ly from : Z) : M (option Z) :=
  b ← line ly;
  s ← vget vm_search;
  mret (CStr.strstr (b ++ s) from (Z.of_nat (length b))).

(** The turns [turns] of the loop of [search_next]. *)
Fixpoint search_turns (cx cy : Z) (turns : list Z) : M unit :=
  match turns with
  | [] => set_msg (lit "Pattern not found")
  | i :: turns =>
      n ← vget nlines;
      let ly := (cy + i) mod n in
      let from := if i =? 0 then cx + 1 else 0 in
      llen ← line_len ly;
      if llen <? from then search_turns cx cy turns else
      p ← find_in ly from;
      match p with
      | Some x => _ ← vset (set_cursor x ly); set_msg []
      | None => search_turns cx cy turns
      end
  end.
Definition search_next : M unit :=
  v ← vget id;
  if vm_search_len v =? 0 then set_msg (lit "No previous search pattern")
  else search_turns (vm_cx v) (vm_cy v) (seqZ 0 (nlines v + 1)).

Fixpoint first_turns (cy : Z) (turns : list Z) : M unit :=
  match turns with
  | [] => set_msg (lit "Pattern not found")
  | i :: turns =>
      n ← vget nlines;
      let ly := (cy + i) mod n in
      p ← find_in ly 0;
      match p with
      | Some x => _ ← vset (set_cursor x ly); set_msg []
      | None => first_turns cy turns
      end
  end.
Definition search_first : M unit :=
  v ← vget id;
  if vm_search_len v =? 0 then mret tt
  else first_turns (vm_cy v) (seqZ 0 (nlines v)).

(** The columns of the inner loop of 'N', downwards. *)
Fixpoint find_back (ly : Z) (cols : list Z) : M (option Z) :=
  match cols with
  | [] => mret None
  | col :: cols =>
      p ← find_in ly col;
      if bool_decide (p = Some col) then mret (Some col) else find_back ly cols
  end.
Fixpoint back_turns (cx cy : Z) (turns : list Z) : M unit :=
  match turns with
  | [] => set_msg (lit "Pattern not found")
  | i :: turns =>
      n ← vget nlines;
      let ly := (cy + n - i) mod n in
      llen ← line_len ly;
      if llen =? 0 then back_turns cx cy turns else
      p ← find_back ly (rev (seqZ 0 (if ly =? cy then cx else llen)));
      match p with
      | Some x => _ ← vset (set_cursor x ly); set_msg []
      | None => back_turns cx cy turns
      end
  end.
Definition search_prev : M unit :=
  v ← vget id;
  if vm_search_len v =? 0 then set_msg (lit "No previous search pattern")
  else back_turns (vm_cx v) (vm_cy v) (map (Z.add 1) (seqZ 0 (nlines v))).

(** ** Commands *)

(** The number a command line spells, [None] when it is not all digits. *)
Fixpoint cmd_number (t : list Z) (n : Z) : option Z :=
  match t with
  | [] => Some n
  | c :: t => if (ch "0" <=? c) && (c <=? ch "9") then cmd_number t (u32 (n * 10 + (c - ch "0"))) else None
  end.

Definition exec_cmd : M unit :=
  _ ← vset (fun v => set_cmd (CStr.st (vm_cmd v) (vm_cmdlen v) 0) (vm_cmdlen v) v);
  v ← vget id;
  let c := cstr (vm_cmd v) in
  let isc w := bool_decide (c = lit w) in
  _ ← (if isc "w" || isc "write" then _ ← save_file; mret tt
       else if isc "q" || isc "quit" then
         if vm_dirty v then set_msg (lit "No write since last change (use :q! to override)")
         else vset (set_running false)
       else if isc "q!" then vset (set_running false)
       else if isc "wq" || isc "x" || isc "wq!" then
         r ← save_file;
         if r =? 0 then vset (set_running false) else mret tt
       else
         match cmd_number (sub (vm_cmd v) 0 (vm_cmdlen v)) 0 with
         | Some n =>
             if (0 <? vm_cmdlen v) && (1 <=? n) && (n <=? nlines v) then vset (set_cursor 0 (n - 1))
             else msg_printf (lit "Not an editor command: %s") [AText (Some c)]
         | None => msg_printf (lit "Not an editor command: %s") [AText (Some c)]
         end);
  vset (fun v => set_cmd (vm_cmd v) 0 (set_vmode NORMAL v)).

(** [line[0] = 0; V.cx = 0; V.dirty = true;] *)
Definition clear_line (y : Z) : M unit := _ ← put_char y 0 0; _ ← set_x 0; make_dirty.

(** Taking out the word at the cursor, with [blanks] also the blanks behind it. *)
Definition cut_word (blanks : bool) (y len : Z) : M unit :=
  v ← vget id;
  t ← line_text y;
  let start := vm_cx v in
  match drop (Z.to_nat start) t with
  | (c :: _) as rest =>
      let iw := is_word_char c in
      let n := span_len (fun c => eqb (is_word_char c) iw) rest in
      let m := if blanks then span_len (Z.eqb 32) (drop (Z.to_nat n) rest) else 0 in
      _ ← move_chars y start (start + n + m) (len - (start + n + m) + 1);
      _ ← set_x start;
      make_dirty
  | [] => mret tt
  end.

(** The second key of a command of two. *)
Definition pending_key (p key y len : Z) : M unit :=
  if p =? ch "d" then
    if key =? ch "d" then _ ← save_undo; _ ← yank_line y; delete_line y
    else if key =? ch "w" then _ ← save_undo; cut_word true y len
    else if key =? ch "$" then _ ← save_undo; delete_to_eol
    else if key =? ch "0" then _ ← save_undo; clear_line y
    else mret tt
  else if p =? ch "g" then
    if key =? ch "g" then vset (set_cursor 0 0) else mret tt
  else if p =? ch "y" then
    if key =? ch "y" then _ ← yank_line y; set_msg (lit "1 line yanked") else mret tt
  else if p =? ch "r" then
    x ← vget vm_cx;
    if (32 <=? key) && (key <? 127) && (x <? len) then _ ← save_undo; _ ← put_char y x key; make_dirty
    else mret tt
  else if p =? ch "c" then
    if key =? ch "c" then
      _ ← save_undo; _ ← yank_line y; _ ← clear_line y; vset (set_vmode INSERT)
    else if key =? ch "w" then _ ← save_undo; _ ← cut_word false y len; vset (set_vmode INSERT)
    else mret tt
  else mret tt.

(** An empty line at [y], and insert mode on it. *)
Definition open_line (y : Z) : M unit :=
  n ← vget nlines;
  if n <? VIM_MAX_LINES then
    nl ← lalloc [] 0;
    match nl with
    | None => mret tt
    | Some _ =>
        _ ← insert_ptr y nl;
        _ ← vset (set_cursor 0 y);
        _ ← make_dirty;
        vset (set_vmode INSERT)
    end
  else mret tt.

(** The first column that is not blank. *)
Definition first_nonblank (y : Z) : M unit := t ← line_text y; set_x (span_len (Z.eqb 32) t).

(** [memmove(line + x, line + x + 1, len - x); V.dirty = true;] *)
Definition cut_char (y x len : Z) : M unit := move_chars y x (x + 1) (len - x).

Definition join_below (y len : Z) : M unit :=
  v ← vget id;
  if y + 1 <? nlines v then
    _ ← save_undo;
    nlen ← line_len (y + 1);
    if len + nlen + 1 <? VIM_MAX_COL then
      b ← line (y + 1);
      _ ← put_char y len 32;
      _ ← copy_chars y (len + 1) (sub b 0 (nlen + 1));
      _ ← free_line (default None (vm_buf v !! Z.to_nat (y + 1)));
      _ ← remove_ptr (y + 1);
      _ ← set_x len;
      make_dirty
    else mret tt
  else mret tt.

(** The keys that only move the cursor; [None] for the others. *)
Definition move_key (key x y len : Z) : option (M unit) :=
  if (key =? ch "h") || (key =? KEY_LEFT) then Some (if 0 <? x then set_x (x - 1) else mret tt)
  else if (key =? ch "l") || (key =? KEY_RIGHT) then Some (if x + 1 <? len then set_x (x + 1) else mret tt)
  else if (key =? ch "j") || (key =? KEY_DOWN) then
    Some (n ← vget nlines; if y + 1 <? n then _ ← set_y (y + 1); clamp_cx else mret tt)
  else if (key =? ch "k") || (key =? KEY_UP) then Some (if 0 <? y then _ ← set_y (y - 1); clamp_cx else mret tt)
  else if (key =? ch "0") || (key =? KEY_HOME) then Some (set_x 0)
  else if (key =? ch "$") || (key =? KEY_END) then Some (set_x (if 0 <? len then len - 1 else 0))
  else if key =? ch "^" then Some (first_nonblank y)
  else if key =? ch "w" then Some (_ ← move_word_fwd; clamp_cx)
  else if key =? ch "b" then Some move_word_back
  else if key =? ch "G" then Some (n ← vget nlines; vset (set_cursor 0 (n - 1)))
  else if key =? KEY_PAGE_UP then Some (_ ← set_y (if VIM_ROWS <=? y then y - VIM_ROWS else 0); clamp_cx)
  else if key =? KEY_PAGE_DOWN then
    Some (n ← vget nlines; _ ← set_y (if y + VIM_ROWS <? n then y + VIM_ROWS else n - 1); clamp_cx)
  else None.

(** The keys that change the text or the mode. *)
Definition edit_command (key x y len : Z) : M unit :=
  if key =? ch "i" then _ ← save_undo; vset (set_vmode INSERT)
  else if key =? ch "a" then _ ← save_undo; _ ← (if x <? len then set_x (x + 1) else mret tt); vset (set_vmode INSERT)
  else if key =? ch "A" then _ ← save_undo; _ ← set_x len; vset (set_vmode INSERT)
  else if key =? ch "I" then _ ← save_undo; _ ← first_nonblank y; vset (set_vmode INSERT)
  else if key =? ch "o" then _ ← save_undo; open_line (y + 1)
  else if key =? ch "O" then _ ← save_undo; open_line y
  else if key =? ch "s" then
    _ ← save_undo;
    _ ← (if (0 <? len) && (x <? len) then _ ← cut_char y x len; make_dirty else mret tt);
    vset (set_vmode INSERT)
  else if key =? ch "S" then _ ← save_undo; _ ← yank_line y; _ ← clear_line y; vset (set_vmode INSERT)
  else if key =? ch "x" then
    if (0 <? len) && (x <? len) then _ ← save_undo; _ ← cut_char y x len; _ ← clamp_cx; make_dirty else mret tt
  else if key =? ch "X" then
    if 0 <? x then
      _ ← save_undo;
      _ ← move_chars y (x - 1) x (u32 (len - x + 1));
      _ ← set_x (x - 1);
      make_dirty
    else mret tt
  else if (key =? ch "d") || (key =? ch "c") || (key =? ch "y") || (key =? ch "r") || (key =? ch "g") then vset (set_pending key)
  else if key =? ch "D" then _ ← save_undo; delete_to_eol
  else if key =? ch "C" then _ ← save_undo; _ ← put_char y x 0; _ ← make_dirty; vset (set_vmode INSERT)
  else if key =? ch "p" then _ ← save_undo; paste_below
  else if key =? ch "P" then _ ← save_undo; paste_above
  else if key =? ch "J" then join_below y len
  else if key =? ch "u" then do_undo
  else if key =? ch "/" then vset (fun v => set_search (CStr.st (vm_search v) 0 0) 0 (set_vmode VSEARCH v))
  else if key =? ch "n" then search_next
  else if key =? ch "N" then search_prev
  else if key =? ch ":" then vset (fun v => set_cmd (CStr.st (vm_cmd v) 0 0) 0 (set_vmode COMMAND v))
  else if key =? KEY_CTRL_S then _ ← save_file; mret tt
  else if key =? KEY_CTRL_Q then
    dirty ← vget vm_dirty;
    if negb dirty then vset (set_running false) else set_msg (lit "Unsaved changes! Use :q! to force quit.")
  else mret tt.

Definition handle_normal (key : Z) : M unit :=
  _ ← vset (fun v => set_vmsg (CStr.st (vm_msg v) 0 0) v);
  v ← vget id;
  len ← line_len (vm_cy v);
  if negb (vm_pending v =? 0) then
    _ ← vset (set_pending 0);
    pending_key (vm_pending v) key (vm_cy v) len
  else match move_key key (vm_cx v) (vm_cy v) len with
  | Some m => m
  | None => edit_command key (vm_cx v) (vm_cy v) len
  end.

Definition handle_insert (key : Z) : M unit :=
  v ← vget id;
  if key =? KEY_ESCAPE then _ ← vset (set_vmode NORMAL); clamp_cx
  else if key =? KEY_ENTER then insert_newline
  else if key =? KEY_BACKSPACE then backspace_char
  else if key =? KEY_DELETE then delete_fwd
  else if key =? KEY_UP then if 0 <? vm_cy v then _ ← set_y (vm_cy v - 1); clamp_cx else mret tt
  else if key =? KEY_DOWN then if vm_cy v + 1 <? nlines v then _ ← set_y (vm_cy v + 1); clamp_cx else mret tt
  else if key =? KEY_LEFT then if 0 <? vm_cx v then set_x (vm_cx v - 1) else mret tt
  else if key =? KEY_RIGHT then len ← line_len (vm_cy v); if vm_cx v <? len then set_x (vm_cx v + 1) else mret tt
  else if key =? KEY_HOME then set_x 0
  else if key =? KEY_END then len ← line_len (vm_cy v); set_x len
  else if key =? KEY_TAB then _ ← insert_char 32; _ ← insert_char 32; _ ← insert_char 32; insert_char 32
  else if (32 <=? key) && (key <? 127) then insert_char key
  else mret tt.

Definition handle_command (key : Z) : M unit :=
  v ← vget id;
  if key =? KEY_ESCAPE then vset (fun v => set_cmd (vm_cmd v) 0 (set_vmode NORMAL v))
  else if key =? KEY_ENTER then exec_cmd
  else if key =? KEY_BACKSPACE then
    if 0 <? vm_cmdlen v then vset (set_cmd (vm_cmd v) (vm_cmdlen v - 1)) else vset (set_vmode NORMAL)
  else if (32 <=? key) && (key <? 127) && (vm_cmdlen v + 1 <? 80) then
    vset (set_cmd (CStr.st (vm_cmd v) (vm_cmdlen v) key) (vm_cmdlen v + 1))
  else mret tt.

Definition handle_search (key : Z) : M unit :=
  v ← vget id;
  let n := vm_search_len v in
  if key =? KEY_ESCAPE then vset (fun v => set_search (vm_search v) 0 (set_vmode NORMAL v))
  else if key =? KEY_ENTER then
    _ ← vset (fun v => set_search (CStr.st (vm_search v) n 0) n (set_vmode NORMAL v));
    if 0 <? n then search_first else mret tt
  else if key =? KEY_BACKSPACE then
    if 0 <? n then vset (set_search (CStr.st (vm_search v) (n - 1) 0) (n - 1)) else vset (set_vmode NORMAL)
  else if (32 <=? key) && (key <? 127) && (n + 1 <? 64) then
    vset (set_search (CStr.st (CStr.st (vm_search v) n key) (n + 1) 0) (n + 1))
  else mret tt.

Definition handle_key (key : Z) : M unit :=
  md ← vget vm_mode;
  match md with
  | NORMAL => handle_normal key
  | INSERT => handle_insert key
  | COMMAND => handle_command key
  | VSEARCH => handle_search key
  end.

(** The loop of [editor_open]: the keys that are left when it ends; [None] when
    it waits for a key. *)
Fixpoint editor_loop (keys : list Z) : M (option (list Z)) :=
  running ← vget vm_running;
  if negb running then mret (Some keys) else
  _ ← draw;
  match keys with
  | [] => mret None
  | key :: keys => _ ← handle_key key; editor_loop keys
  end.

Definition editor_open (path : list Z) (keys : list Z) : M (option (list Z)) :=
  _ ← vset (fun _ => set_vmode NORMAL (set_running true vim_zero));
  _ ← load_file path;
  _ ← on_vga vga_clear;
  rest ← editor_loop keys;
  match rest with
  | None => mret None
  | Some rest =>
      _ ← buf_free;
      v ← vget id;
      _ ← (if vm_has_undo v then free_lines (vm_ubuf v) else mret tt);
      _ ← on_vga vga_clear;
      mret (Some rest)
  end.
End Editor.
