(* ===== verification/EditorText.v ===== *)
(** * The editor's text

    What the editor of Editor.v does, said without buffers, NUL bytes, pointers
    and heap: a document is a list of strings with a cursor, an editor state a
    document with a mode, the command and search lines, the yanked line and the
    document to go back to.  [tx_key] is one key.  The buffers of Editor.v are
    shown to implement it. *)

From Stdlib Require Import Ascii.
From stdpp Require Import strings.
From S2P Require Import Prelude Machine VfsTypes CLib Printf Vfs Keyboard Vga Task Syscall ShellLine Editor.

(** ** Documents *)

Record doc := mk_doc { doc_lines : list (list Z); doc_x : nat; doc_y : nat }.
Implicit Types (d : doc).

Definition line_of (y : nat) d : list Z := default [] (doc_lines d !! y).
Definition cur d : list Z := line_of (doc_y d) d.
Definition last_line d : nat := pred (length (doc_lines d)).

Definition set_cur (l : list Z) (x : nat) d : doc := mk_doc (<[doc_y d := l]> (doc_lines d)) x (doc_y d).
Definition go (x y : nat) d : doc := mk_doc (doc_lines d) x y.
(** Lines [ls] in place of the [n] lines from [y] on. *)
Definition replace (y n : nat) (ls : list (list Z)) d : list (list Z) :=
  take y (doc_lines d) ++ ls ++ drop (y + n) (doc_lines d).

Definition LINES : nat := 512.
Definition COLS : nat := 255.

Definition doc_insert (c : Z) d : doc :=
  if decide (length (cur d) < COLS)%nat
  then set_cur (take (doc_x d) (cur d) ++ c :: drop (doc_x d) (cur d)) (S (doc_x d)) d else d.
Definition doc_newline d : doc :=
  if decide (length (doc_lines d) < LINES)%nat
  then mk_doc (replace (doc_y d) 1 [take (doc_x d) (cur d); drop (doc_x d) (cur d)] d) 0 (S (doc_y d)) else d.
(** The line [y] and the one below it as one line, when they fit. *)
Definition doc_join (y x' : nat) d : doc :=
  let l := line_of y d ++ line_of (S y) d in
  if decide (length l <= COLS)%nat then mk_doc (replace y 2 [l] d) x' y else d.
Definition doc_backspace d : doc :=
  match doc_x d, doc_y d with
  | S x, _ => set_cur (take x (cur d) ++ drop (S x) (cur d)) x d
  | O, S y => doc_join y (length (line_of y d)) d
  | O, O => d
  end.
Definition doc_cut (x n : nat) d : doc := set_cur (take x (cur d) ++ drop (x + n) (cur d)) x d.
Definition doc_delete d : doc :=
  if decide (doc_x d < length (cur d))%nat then doc_cut (doc_x d) 1 d
  else if decide (doc_y d < last_line d)%nat then doc_join (doc_y d) (doc_x d) d else d.
Definition doc_delete_line d : doc :=
  if decide (length (doc_lines d) = 1%nat) then mk_doc [[]] 0 0
  else let ls := replace (doc_y d) 1 [] d in mk_doc ls 0 (min (doc_y d) (pred (length ls))).
Definition doc_delete_eol d : doc :=
  if decide (doc_x d < length (cur d))%nat then set_cur (take (doc_x d) (cur d)) (pred (doc_x d)) d else d.
Definition doc_put (y : nat) (l : list Z) d : doc :=
  if decide (length (doc_lines d) < LINES)%nat then mk_doc (replace y 0 [l] d) 0 y else d.
Definition doc_join_blank d : doc :=
  let l := cur d ++ 32 :: line_of (S (doc_y d)) d in
  if decide (length l <= COLS)%nat then mk_doc (replace (doc_y d) 2 [l] d) (length (cur d)) (doc_y d) else d.
Definition doc_overwrite (c : Z) d : doc :=
  set_cur (take (doc_x d) (cur d) ++ c :: drop (S (doc_x d)) (cur d)) (doc_x d) d.

(** The cursor on the line's last character at most, or behind it when inserting. *)
Definition clamped (md : vim_mode) d : doc :=
  let n := length (cur d) in
  go (min (doc_x d) (if bool_decide (md = INSERT) then n else pred n)) (doc_y d) d.

(** The characters of the word at the cursor, with the blanks behind it if asked. *)
Definition word_len (blanks : bool) (s : list Z) : nat :=
  match s with
  | [] => 0
  | c :: _ =>
      let n := Z.to_nat (span_len (fun c' => eqb (is_word_char c') (is_word_char c)) s) in
      n + (if blanks then Z.to_nat (span_len (Z.eqb 32) (drop n s)) else 0)
  end.
Definition doc_word d : doc :=
  match drop (doc_x d) (cur d) with
  | [] => if decide (doc_y d < last_line d)%nat then go 0 (S (doc_y d)) d else d
  | rest => go (doc_x d + word_len true rest) (doc_y d) d
  end.
Definition doc_word_back d : doc :=
  match doc_x d, doc_y d with
  | S x, _ =>
      let x := back_blanks x (cur d) in
      go (back_word x (is_word_char (byte_at (cur d) (Z.of_nat x))) (cur d)) (doc_y d) d
  | O, S y => go (pred (length (line_of y d))) y d
  | O, O => d
  end.

(** ** Searching *)

(** The places a search looks at: the lines from the cursor on, around to the
    cursor's own line. *)
Fixpoint find_first (p : list Z) (from : nat) (ys : list nat) d : option (nat * nat) :=
  match ys with
  | [] => None
  | y :: ys =>
      match CStrOk.find_text p (drop from (line_of y d)) with
      | Some k => Some (y, from + k)%nat
      | None => find_first p 0 ys d
      end
  end.
Definition turn (d : doc) (i : nat) : nat := (doc_y d + i) mod length (doc_lines d).
Definition doc_search_first (p : list Z) d : doc :=
  match find_first p 0 (turn d <$> seq 0 (length (doc_lines d))) d with
  | Some (y, x) => go x y d
  | None => d
  end.
Definition doc_search_next (p : list Z) d : doc :=
  match find_first p (S (doc_x d)) (turn d <$> seq 0 (S (length (doc_lines d)))) d with
  | Some (y, x) => go x y d
  | None => d
  end.

(** The last place of [p] in [s] that starts below [n]. *)
Fixpoint find_last (p s : list Z) (n : nat) : option nat :=
  match n with
  | O => None
  | S k => if decide (take (length p) (drop k s) = p) then Some k else find_last p s k
  end.
Fixpoint find_before (p : list Z) (ys : list nat) d : option (nat * nat) :=
  match ys with
  | [] => None
  | y :: ys =>
      match find_last p (line_of y d) (if decide (y = doc_y d) then doc_x d else length (line_of y d)) with
      | Some x => Some (y, x)
      | None => find_before p ys d
      end
  end.
Definition doc_search_prev (p : list Z) d : doc :=
  let n := length (doc_lines d) in
  match find_before p ((fun i => (doc_y d + n - i) mod n)%nat <$> seq 1 n) d with
  | Some (y, x) => go x y d
  | None => d
  end.

(** ** The editor's state *)

Record text := mk_text {
  tx_doc : doc; tx_mode : vim_mode; tx_pending : Z; tx_cmd : list Z; tx_yank : option (list Z);
  tx_undo : option doc; tx_search : list Z;
}.
Implicit Types (t : text).

Definition on_doc (f : doc -> doc) t : text :=
  mk_text (f (tx_doc t)) (tx_mode t) (tx_pending t) (tx_cmd t) (tx_yank t) (tx_undo t) (tx_search t).
Definition to_mode (md : vim_mode) t : text :=
  mk_text (tx_doc t) md (tx_pending t) (tx_cmd t) (tx_yank t) (tx_undo t) (tx_search t).
Definition to_pending (k : Z) t : text :=
  mk_text (tx_doc t) (tx_mode t) k (tx_cmd t) (tx_yank t) (tx_undo t) (tx_search t).
Definition to_cmd (c : list Z) t : text :=
  mk_text (tx_doc t) (tx_mode t) (tx_pending t) c (tx_yank t) (tx_undo t) (tx_search t).
Definition to_yank (l : list Z) t : text :=
  mk_text (tx_doc t) (tx_mode t) (tx_pending t) (tx_cmd t) (Some l) (tx_undo t) (tx_search t).
Definition to_undo (u : option doc) t : text :=
  mk_text (tx_doc t) (tx_mode t) (tx_pending t) (tx_cmd t) (tx_yank t) u (tx_search t).
Definition to_search (p : list Z) t : text :=
  mk_text (tx_doc t) (tx_mode t) (tx_pending t) (tx_cmd t) (tx_yank t) (tx_undo t) p.

Definition remember t : text := to_undo (Some (tx_doc t)) t.
Definition go_back t : text :=
  match tx_undo t with
  | Some d => to_undo None (on_doc (fun _ => d) t)
  | None => t
  end.
Definition yank_cur t : text := to_yank (cur (tx_doc t)) t.
Definition put_yank (below : bool) t : text :=
  match tx_yank t with
  | Some l => on_doc (fun d => doc_put (if below then S (doc_y d) else doc_y d) l d) t
  | None => t
  end.
Definition new_line (below : bool) t : text :=
  if decide (length (doc_lines (tx_doc t)) < LINES)%nat
  then to_mode INSERT (on_doc (fun d => doc_put (if below then S (doc_y d) else doc_y d) [] d) t) else t.
Definition clear_cur d : doc := set_cur [] 0 d.
Definition cut_word_at (blanks : bool) d : doc := doc_cut (doc_x d) (word_len blanks (drop (doc_x d) (cur d))) d.
Definition nonblank d : doc := go (Z.to_nat (span_len (Z.eqb 32) (cur d))) (doc_y d) d.

Definition tx_two (p key : Z) t : text :=
  let d := tx_doc t in
  if p =? ch "d" then
    if key =? ch "d" then on_doc doc_delete_line (yank_cur (remember t))
    else if key =? ch "w" then on_doc (cut_word_at true) (remember t)
    else if key =? ch "$" then on_doc doc_delete_eol (remember t)
    else if key =? ch "0" then on_doc clear_cur (remember t)
    else t
  else if p =? ch "g" then if key =? ch "g" then on_doc (go 0 0) t else t
  else if p =? ch "y" then if key =? ch "y" then yank_cur t else t
  else if p =? ch "r" then
    if (32 <=? key) && (key <? 127) && bool_decide (doc_x d < length (cur d))%nat
    then on_doc (doc_overwrite key) (remember t) else t
  else if p =? ch "c" then
    if key =? ch "c" then to_mode INSERT (on_doc clear_cur (yank_cur (remember t)))
    else if key =? ch "w" then to_mode INSERT (on_doc (cut_word_at false) (remember t))
    else t
  else t.

Definition PAGE : nat := 23.
Definition tx_move (key : Z) t : option text :=
  let d := tx_doc t in
  let x := doc_x d in
  let y := doc_y d in
  let move x y := Some (on_doc (go x y) t) in
  let move_to y := Some (on_doc (fun d => clamped (tx_mode t) (go x y d)) t) in
  if (key =? ch "h") || (key =? KEY_LEFT) then move (pred x) y
  else if (key =? ch "l") || (key =? KEY_RIGHT) then move (if decide (S x < length (cur d))%nat then S x else x) y
  else if (key =? ch "j") || (key =? KEY_DOWN) then if decide (y < last_line d)%nat then move_to (S y) else Some t
  else if (key =? ch "k") || (key =? KEY_UP) then match y with S y => move_to y | O => Some t end
  else if (key =? ch "0") || (key =? KEY_HOME) then move 0%nat y
  else if (key =? ch "$") || (key =? KEY_END) then move (pred (length (cur d))) y
  else if key =? ch "^" then Some (on_doc nonblank t)
  else if key =? ch "w" then Some (on_doc (fun d => clamped (tx_mode t) (doc_word d)) t)
  else if key =? ch "b" then Some (on_doc doc_word_back t)
  else if key =? ch "G" then move 0%nat (last_line d)
  else if key =? KEY_PAGE_UP then move_to (y - PAGE)%nat
  else if key =? KEY_PAGE_DOWN then move_to (min (y + PAGE) (last_line d))
  else None.

Definition tx_edit (key : Z) t : text :=
  let d := tx_doc t in
  let x := doc_x d in
  let at_char := bool_decide (x < length (cur d))%nat in
  let r := remember t in
  if key =? ch "i" then to_mode INSERT r
  else if key =? ch "a" then to_mode INSERT (on_doc (go (if at_char then S x else x) (doc_y d)) r)
  else if key =? ch "A" then to_mode INSERT (on_doc (go (length (cur d)) (doc_y d)) r)
  else if key =? ch "I" then to_mode INSERT (on_doc nonblank r)
  else if key =? ch "o" then new_line true r
  else if key =? ch "O" then new_line false r
  else if key =? ch "s" then to_mode INSERT (on_doc (doc_cut x 1) r)
  else if key =? ch "S" then to_mode INSERT (on_doc clear_cur (yank_cur r))
  else if key =? ch "x" then if at_char then on_doc (fun d => clamped (tx_mode t) (doc_cut x 1 d)) r else t
  else if key =? ch "X" then match x with S x => on_doc (doc_cut x 1) r | O => t end
  else if (key =? ch "d") || (key =? ch "c") || (key =? ch "y") || (key =? ch "r") || (key =? ch "g") then to_pending key t
  else if key =? ch "D" then on_doc doc_delete_eol r
  else if key =? ch "C" then to_mode INSERT (on_doc (fun d => set_cur (take x (cur d)) x d) r)
  else if key =? ch "p" then put_yank true r
  else if key =? ch "P" then put_yank false r
  else if key =? ch "J" then if decide (doc_y d < last_line d)%nat then on_doc doc_join_blank r else t
  else if key =? ch "u" then go_back t
  else if key =? ch "/" then to_search [] (to_mode VSEARCH t)
  else if key =? ch "n" then match tx_search t with [] => t | p => on_doc (doc_search_next p) t end
  else if key =? ch "N" then match tx_search t with [] => t | p => on_doc (doc_search_prev p) t end
  else if key =? ch ":" then to_cmd [] (to_mode COMMAND t)
  else t.

Definition tx_insert (key : Z) t : text :=
  let d := tx_doc t in
  let x := doc_x d in
  let y := doc_y d in
  let move_to y := on_doc (fun d => clamped (tx_mode t) (go x y d)) t in
  if key =? KEY_ESCAPE then on_doc (clamped NORMAL) (to_mode NORMAL t)
  else if key =? KEY_ENTER then on_doc doc_newline t
  else if key =? KEY_BACKSPACE then on_doc doc_backspace t
  else if key =? KEY_DELETE then on_doc doc_delete t
  else if key =? KEY_UP then match y with S y => move_to y | O => t end
  else if key =? KEY_DOWN then if decide (y < last_line d)%nat then move_to (S y) else t
  else if key =? KEY_LEFT then on_doc (go (pred x) y) t
  else if key =? KEY_RIGHT then on_doc (go (min (S x) (length (cur d))) y) t
  else if key =? KEY_HOME then on_doc (go 0 y) t
  else if key =? KEY_END then on_doc (go (length (cur d)) y) t
  else if key =? KEY_TAB then on_doc (fun d => doc_insert 32 (doc_insert 32 (doc_insert 32 (doc_insert 32 d)))) t
  else if (32 <=? key) && (key <? 127) then on_doc (doc_insert key) t
  else t.

(** The commands that save or quit leave the text alone. *)
Definition file_commands : list (list Z) := lit <$> ["w"; "write"; "q"; "quit"; "q!"; "wq"; "x"; "wq!"]%string.
Definition tx_exec t : text :=
  let c := tx_cmd t in
  let t := to_cmd [] (to_mode NORMAL t) in
  if bool_decide (c ∈ file_commands) then t else
  match cmd_number c 0 with
  | Some n =>
      if (1 <=? n) && (n <=? Z.of_nat (length (doc_lines (tx_doc t)))) then on_doc (go 0 (Z.to_nat (n - 1))) t else t
  | None => t
  end.

Definition tx_command (key : Z) t : text :=
  if key =? KEY_ESCAPE then to_cmd [] (to_mode NORMAL t)
  else if key =? KEY_ENTER then tx_exec t
  else if key =? KEY_BACKSPACE then
    match tx_cmd t with [] => to_mode NORMAL t | c => to_cmd (take (pred (length c)) c) t end
  else if (32 <=? key) && (key <? 127) && bool_decide (length (tx_cmd t) < 79)%nat then to_cmd (tx_cmd t ++ [key]) t
  else t.

Definition tx_pattern (key : Z) t : text :=
  let p := tx_search t in
  if key =? KEY_ESCAPE then to_search [] (to_mode NORMAL t)
  else if key =? KEY_ENTER then
    match p with [] => to_mode NORMAL t | _ => on_doc (doc_search_first p) (to_mode NORMAL t) end
  else if key =? KEY_BACKSPACE then
    match p with [] => to_mode NORMAL t | _ => to_search (take (pred (length p)) p) t end
  else if (32 <=? key) && (key <? 127) && bool_decide (length p < 63)%nat then to_search (p ++ [key]) t
  else t.

Definition tx_key (key : Z) t : text :=
  match tx_mode t with
  | NORMAL =>
      if negb (tx_pending t =? 0) then tx_two (tx_pending t) key (to_pending 0 t)
      else match tx_move key t with Some t => t | None => tx_edit key t end
  | INSERT => tx_insert key t
  | COMMAND => tx_command key t
  | VSEARCH => tx_pattern key t
  end.

(** ** Files *)

(** The pieces of a file between its line feeds; [l] is the part of the first one already read. *)
Fixpoint pieces (rest l : list Z) : list (list Z) :=
  match rest with
  | [] => [l]
  | c :: rest => if c =? 10 then l :: pieces rest [] else pieces rest (l ++ [c])
  end.
(** What fits of a line: it ends at a null byte, and at column 255. *)
Definition clip (l : list Z) : list Z := cstr (take COLS l).
(** The lines the editor shows of a file. *)
Definition load_lines (c : list Z) : list (list Z) :=
  let ls := clip <$> take LINES (pieces c []) in
  if bool_decide (1 < length ls)%nat && bool_decide (last c = Some 10) && bool_decide (last ls = Some []) then take (pred (length ls)) ls else ls.
(** The file the editor writes. *)
Definition doc_bytes (ls : list (list Z)) : list Z := concat ((fun l => l ++ [10]) <$> ls).

(** The editor with lines [ls], before the first key. *)
Definition start (ls : list (list Z)) : text := mk_text (mk_doc ls 0 0) NORMAL 0 [] None None [].
