(* ===== verification/EditorLogic.v ===== *)
(** * Reasoning about the editor

    Buffers that hold strings, the relation between the variables of Editor.v
    and the text of EditorText.v, and the rules to run editor code until a
    fault below it. *)

From Stdlib Require Import Ascii.
From stdpp Require Import strings.
From S2P Require Import Prelude Machine VfsTypes CLib Printf Vfs Keyboard Vga Task Syscall ShellLine Editor EditorText.

(** ** Buffers *)

(** Facts about all elements of appended lists. *)
Ltac foralls := repeat first [rewrite Forall_app in * | rewrite Forall_cons in * | rewrite Forall_nil in *].

(** The characters of a line. *)
Definition char_ok (c : Z) : Prop := 0 < c < 256 /\ c <> 10.
Definition text_ok (s : list Z) : Prop := Forall char_ok s.

Lemma text_line s : text_ok s -> ShellLine.text_ok s.
Proof. intros Ht. eapply Forall_impl; [exact Ht|]. by intros c []. Qed.
Lemma line_bytes s : text_ok s -> bytes_ok s.
Proof. intros Ht. by apply ShellLine.text_bytes, text_line. Qed.
Lemma line_cstr s junk : text_ok s -> cstr (s ++ 0 :: junk) = s.
Proof. intros Ht. by apply ShellLine.cstr_text, text_line. Qed.

(** A buffer of [n] bytes with the string [l] in it. *)
Record buffer (n : nat) (b l : list Z) : Prop := {
  bu_text : exists junk, b = l ++ 0 :: junk;
  bu_len : length b = n;
  bu_bytes : bytes_ok b;
  bu_chars : text_ok l;
}.

Section Buffers.
Context {n : nat}.
Implicit Types (b l : list Z).

Lemma bu_fits b l : buffer n b l -> (length l < n)%nat.
Proof. intros [[junk ->] <- _ _]. rewrite length_app. cbn. lia. Qed.

Lemma bu_cstr b l : buffer n b l -> cstr b = l.
Proof. intros [[junk ->] _ _ Ht]. by apply line_cstr. Qed.

Lemma bu_nul b l : buffer n b l -> existsb (Z.eqb 0) b = true.
Proof. intros [[junk ->] _ _ _]. apply existsb_exists. exists 0. split; [|done]. apply in_app_iff. right. by left. Qed.

Lemma bu_intro b l junk : b = l ++ 0 :: junk -> length b = n -> bytes_ok b -> text_ok l -> buffer n b l.
Proof. intros -> ? ? ?. split; [by exists junk|done..]. Qed.

(** Taking out the middle. *)
Lemma bu_cut b pre mid post dst src k : buffer n b (pre ++ mid ++ post) ->
  dst = Z.of_nat (length pre) -> src = Z.of_nat (length pre + length mid) -> k = Z.of_nat (length post) + 1 ->
  buffer n (CStr.memmove b dst src k) (pre ++ post).
Proof.
  intros [[junk E] Hl Hb Ht] -> -> ->. unfold text_ok in Ht. rewrite !Forall_app in Ht. destruct Ht as (T1 & T2 & T3).
  assert (b = pre ++ mid ++ (post ++ [0]) ++ junk) as Eb by (by rewrite E, <- !(assoc_L (++))).
  rewrite Eb in *. rewrite move_tail by (done || rewrite ?length_app; cbn; lia).
  eapply bu_intro; [rewrite <- !(assoc_L (++)); reflexivity| | |by apply Forall_app_2].
  - rewrite !length_app, ?length_drop, ?length_app in *. cbn in *. lia.
  - unfold bytes_ok in *. foralls. assert (Forall is_u8 (drop (length (post ++ [0])) (mid ++ post ++ [0]))).
    { apply Forall_drop. foralls. tauto. } tauto.
Qed.

(** Opening a gap and filling it. *)
Lemma bu_gap b pre post c k : buffer n b (pre ++ post) -> char_ok c -> (S (length (pre ++ post)) < n)%nat ->
  k = Z.of_nat (length post) + 1 ->
  buffer n (CStr.st (CStr.memmove b (Z.of_nat (length pre) + 1) (Z.of_nat (length pre)) k) (Z.of_nat (length pre)) c)
    (pre ++ c :: post).
Proof.
  intros [[junk E] Hl Hb Ht] Hc Hr ->. unfold text_ok in Ht. rewrite Forall_app in Ht. destruct Ht as (T1 & T2).
  destruct junk as [|j junk]; [subst b; rewrite !length_app in *; cbn in *; lia|].
  assert (b = pre ++ (post ++ [0]) ++ j :: junk) as Eb by (by rewrite E, <- !(assoc_L (++))). rewrite Eb in *.
  replace (Z.of_nat (length post) + 1) with (Z.of_nat (length (post ++ [0]))) by (rewrite length_app; cbn; lia).
  rewrite open_gap; [|done|by destruct post|unfold char_ok, is_u8 in *; lia].
  eapply (bu_intro _ _ junk); [by rewrite <- !(assoc_L (++))| | |].
  - rewrite !length_app in *. cbn in *. rewrite !length_app in *. cbn in *. lia.
  - unfold bytes_ok in *. foralls. assert (is_u8 c) by (unfold char_ok, is_u8 in *; lia).
    tauto.
  - apply Forall_app_2; [done|]. by constructor.
Qed.

Lemma bu_st b (pre rest : list Z) x c : b = pre ++ x :: rest -> CStr.st b (Z.of_nat (length pre)) c = pre ++ u8 c :: rest.
Proof. intros ->. unfold CStr.st. change (x :: rest) with ([x] ++ rest). by rewrite (put_at pre [x]). Qed.

Lemma bu_change b pre x rest c : buffer n b (pre ++ x :: rest) -> char_ok c ->
  buffer n (CStr.st b (Z.of_nat (length pre)) c) (pre ++ c :: rest).
Proof.
  intros [[junk E] Hl Hb Ht] Hc. rewrite (bu_st b pre (rest ++ 0 :: junk) x c) by (by rewrite E, <- (assoc_L (++))).
  assert (is_u8 c) as Hu by (unfold char_ok, is_u8 in *; lia). rewrite (u8_small c) by done. subst b.
  rewrite <- (assoc_L (++)) in *. cbn [app] in *.
  eapply (bu_intro _ _ junk); [by rewrite <- (assoc_L (++))| | |].
  - rewrite !length_app in *. cbn in *. rewrite !length_app in *. cbn in *. lia.
  - unfold bytes_ok in *. foralls. tauto.
  - unfold text_ok in *. foralls. tauto.
Qed.

Lemma bu_trunc b pre post : buffer n b (pre ++ post) -> buffer n (CStr.st b (Z.of_nat (length pre)) 0) pre.
Proof.
  intros [[junk E] Hl Hb Ht]. unfold text_ok in Ht. apply Forall_app in Ht as [T1 T2].
  assert (exists x rest, b = pre ++ x :: rest) as (x & rest & Eb).
  { destruct post as [|x post]; [exists 0, junk; by rewrite E, app_nil_r|].
    exists x, (post ++ 0 :: junk). by rewrite E, <- (assoc_L (++)). }
  rewrite (bu_st b pre rest x 0 Eb). eapply (bu_intro _ _ rest); [done| | |done].
  - rewrite Eb in Hl. rewrite !length_app in *. cbn in *. lia.
  - rewrite Eb in Hb. unfold bytes_ok in *. pose proof (u8_range 0). foralls. tauto.
Qed.

Lemma bu_sub b l : buffer n b l -> sub b 0 (Z.of_nat (length l) + 1) = l ++ [0].
Proof.
  intros [[junk E] _ _ _]. unfold sub. rewrite drop_0, E.
  replace (Z.to_nat (Z.of_nat (length l) + 1)) with (length (l ++ [0])) by (rewrite length_app; cbn; lia).
  change (l ++ 0 :: junk) with (l ++ [0] ++ junk). rewrite (assoc_L (++)). by apply take_app_length.
Qed.

(** Appending another string, with its NUL. *)
Lemma bu_append b l b' l' : buffer n b l -> buffer n b' l' -> (length l + length l' < n)%nat ->
  buffer n (put b (Z.of_nat (length l)) (sub b' 0 (Z.of_nat (length l') + 1))) (l ++ l').
Proof.
  intros [[junk E] Hl Hb Ht] B' Hr. pose proof B' as [[junk' E'] Hl' Hb' Ht'].
  rewrite (bu_sub _ _ B').
  assert (b = l ++ take (length l' + 1) (0 :: junk) ++ drop (length l' + 1) (0 :: junk)) as Eb by (by rewrite take_drop).
  assert (length (l' ++ [0]) = length (take (length l' + 1) (0 :: junk))) as El.
  { rewrite length_take, length_app. rewrite E, length_app in Hl. cbn in *. lia. }
  rewrite Eb, put_at by done.
  eapply (bu_intro _ _ (drop (length l' + 1) (0 :: junk))); [by rewrite <- !(assoc_L (++))| | |by apply Forall_app_2].
  - rewrite <- Hl, Eb, !length_app in *. lia.
  - rewrite Eb in Hb. rewrite E' in Hb'. unfold bytes_ok in *. foralls. tauto.
Qed.

(** The same with a blank between the two. *)
Lemma bu_append_blank b l b' l' : buffer n b l -> buffer n b' l' -> (length l + length l' + 1 < n)%nat ->
  buffer n (put (CStr.st b (Z.of_nat (length l)) 32) (Z.of_nat (length l) + 1) (sub b' 0 (Z.of_nat (length l') + 1)))
    (l ++ 32 :: l').
Proof.
  intros B B' Hr. pose proof B as [[junk E] Hl Hb Ht].
  destruct junk as [|j junk]; [rewrite E, length_app in Hl; cbn in Hl; lia|].
  rewrite (bu_st b l (j :: junk) 0 32 E). change (u8 32) with 32.
  replace (l ++ 32 :: l') with ((l ++ [32]) ++ l') by (by rewrite <- (assoc_L (++))).
  pose proof B' as [[junk' E'] Hl' Hb' Ht'].
  rewrite (bu_sub _ _ B').
  replace (l ++ 32 :: j :: junk) with ((l ++ [32]) ++ take (length l' + 1) (j :: junk) ++ drop (length l' + 1) (j :: junk))
    by (rewrite take_drop; by rewrite <- (assoc_L (++))).
  rewrite E, length_app in Hl. cbn [length] in Hl.
  rewrite put_at; [|rewrite length_take, length_app; cbn; lia|rewrite length_app; cbn; lia].
  assert (bytes_ok (drop (length l' + 1) (j :: junk))) by (apply Forall_drop; rewrite E in Hb; unfold bytes_ok in *; foralls; tauto).
  eapply (bu_intro _ _ (drop (length l' + 1) (j :: junk))); [by rewrite <- !(assoc_L (++))| | |].
  - rewrite !length_app, length_drop. cbn. lia.
  - rewrite E in Hb. rewrite E' in Hb'. unfold bytes_ok in *. assert (is_u8 32) by (unfold is_u8; lia). foralls. tauto.
  - unfold text_ok in *. assert (char_ok 32) by (unfold char_ok; lia). foralls. tauto.
Qed.

(** A fresh buffer. *)
Lemma bu_fresh l : text_ok l -> (length l < n)%nat -> buffer n (put (zeros (Z.of_nat n)) 0 l) l.
Proof.
  intros Ht Hl. unfold zeros. rewrite Nat2Z.id.
  assert (replicate n 0 = [] ++ replicate (length l) 0 ++ replicate (n - length l) 0) as ->.
  { cbn [app]. rewrite <- replicate_add. f_equal. lia. }
  rewrite (put_at [] (replicate (length l) 0)) by (by rewrite ?length_replicate).
  destruct (n - length l)%nat as [|k] eqn:Ek; [lia|].
  eapply (bu_intro _ _ (replicate k 0)); [done| | |done].
  - cbn [app replicate]. rewrite length_app. cbn [length]. rewrite length_replicate. lia.
  - cbn [app]. apply Forall_app_2; [by apply line_bytes|]. apply Forall_replicate. unfold is_u8. lia.
Qed.

(** The same by column. *)
Lemma bu_insert_at b l x c dst src k : buffer n b l -> (x <= length l)%nat -> char_ok c -> (S (length l) < n)%nat ->
  dst = Z.of_nat x + 1 -> src = Z.of_nat x -> k = Z.of_nat (length l) - Z.of_nat x + 1 ->
  buffer n (CStr.st (CStr.memmove b dst src k) src c) (take x l ++ c :: drop x l).
Proof.
  intros B Hx Hc Hl -> -> ->. pose proof (length_take_le l x Hx) as El. pose proof (length_drop l x) as Ed.
  rewrite <- El at 1 2 4. apply bu_gap; [by rewrite take_drop|done|by rewrite take_drop|lia].
Qed.

Lemma bu_cut_at b l x m dst src k : buffer n b l -> (x + m <= length l)%nat ->
  dst = Z.of_nat x -> src = Z.of_nat (x + m) -> k = Z.of_nat (length l) - Z.of_nat (x + m) + 1 ->
  buffer n (CStr.memmove b dst src k) (take x l ++ drop (x + m) l).
Proof.
  intros B Hx -> -> ->. pose proof (length_take_le l x ltac:(lia)) as El. pose proof (length_drop l (x + m)) as Ed.
  pose proof (length_take_le (drop x l) m ltac:(rewrite length_drop; lia)) as Em.
  eapply (bu_cut _ _ (take m (drop x l))); [|lia|lia|lia]. rewrite <- drop_drop, take_drop. by rewrite take_drop.
Qed.

Lemma bu_trunc_at b l x : buffer n b l -> (x <= length l)%nat -> buffer n (CStr.st b (Z.of_nat x) 0) (take x l).
Proof.
  intros B Hx. pose proof (length_take_le l x Hx) as El. rewrite <- El at 1. apply (bu_trunc _ _ (drop x l)).
  by rewrite take_drop.
Qed.

Lemma bu_change_at b l x c : buffer n b l -> (x < length l)%nat -> char_ok c ->
  buffer n (CStr.st b (Z.of_nat x) c) (take x l ++ c :: drop (S x) l).
Proof.
  intros B Hx Hc. destruct (lookup_lt_is_Some_2 _ _ Hx) as [y Ey]. pose proof (length_take_le l x ltac:(lia)) as El.
  rewrite <- El at 1. apply (bu_change _ _ y); [|done]. by rewrite take_drop_middle.
Qed.
End Buffers.

(** ** The relation *)

Definition line_rep (p : line_ptr) (l : list Z) : Prop := exists a b, p = Some (a, b) /\ buffer 256 b l.

Record doc_rep (buf : list line_ptr) (cx cy : Z) (d : doc) : Prop := {
  dr_lines : Forall2 line_rep buf (doc_lines d);
  dr_size : (1 <= length (doc_lines d) <= LINES)%nat;
  dr_y : (doc_y d < length (doc_lines d))%nat;
  dr_x : (doc_x d <= length (cur d))%nat;
  dr_cx : cx = Z.of_nat (doc_x d);
  dr_cy : cy = Z.of_nat (doc_y d);
}.

Record rep (v : vim) (t : text) : Prop := {
  rp_doc : doc_rep (vm_buf v) (vm_cx v) (vm_cy v) (tx_doc t);
  rp_mode : vm_mode v = tx_mode t;
  rp_pending : vm_pending v = tx_pending t;
  rp_cmd : length (vm_cmd v) = 80%nat /\ vm_cmdlen v = Z.of_nat (length (tx_cmd t)) /\ (length (tx_cmd t) < 80)%nat /\
    text_ok (tx_cmd t) /\ bytes_ok (vm_cmd v) /\ exists rest, vm_cmd v = tx_cmd t ++ rest;
  rp_yank : length (vm_yank v) = 256%nat /\ bytes_ok (vm_yank v) /\
    match tx_yank t with
    | Some l => vm_has_yank v = true /\ buffer 256 (vm_yank v) l
    | None => vm_has_yank v = false
    end;
  rp_undo : match tx_undo t with
    | Some d => vm_has_undo v = true /\ doc_rep (vm_ubuf v) (vm_ucx v) (vm_ucy v) d
    | None => vm_has_undo v = false
    end;
  rp_search : length (vm_search v) = 64%nat /\ bytes_ok (vm_search v) /\ vm_search_len v = Z.of_nat (length (tx_search t)) /\
    (length (tx_search t) < 64)%nat /\ (tx_search t <> [] -> buffer 64 (vm_search v) (tx_search t));
  rp_msg : length (vm_msg v) = 80%nat;
  rp_off : 0 <= vm_row_off v /\ 0 <= vm_col_off v;
}.

(** ** Running the editor until a fault *)

Section Logic.
Context {D : Type} `{Kernel D, Console D}.
Abbreviation M := (state (ed D)).
Implicit Types (s : ed D).

Definition keeps {A} (m : M A) : Prop := forall s, ed_fault s = true -> ed_fault (m s).2 = true.
Definition ok {A} (m : M A) s (Q : A -> ed D -> Prop) : Prop := run m s (fun a s' => ed_fault s' = true \/ Q a s').

Lemma keeps_ret {A} (a : A) : keeps (mret a).
Proof. by intros s. Qed.
Lemma keeps_bind {A B} (m : M A) (f : A -> M B) : keeps m -> (forall a, keeps (f a)) -> keeps (mbind f m).
Proof. intros Hm Hf s Hs. rewrite bind_unfold. by apply Hf, Hm. Qed.
Lemma keeps_vget {A} (f : vim -> A) : keeps (vget f).
Proof. by intros s. Qed.
Lemma keeps_vset f : keeps (vset f).
Proof. by intros s. Qed.
Lemma keeps_undefined : keeps undefined.
Proof. by intros s. Qed.
Lemma keeps_fault : keeps fault.
Proof. by intros s. Qed.
Lemma keeps_on_sys {A} (m : state (vfs D) A) : keeps (on_sys m).
Proof. intros s Hs. unfold on_sys. by destruct (m (ed_sys s)). Qed.
Lemma ok_bind {A B} (m : M A) (f : A -> M B) s Q :
  (forall a, keeps (f a)) -> ok m s (fun a s' => ok (f a) s' Q) -> ok (mbind f m) s Q.
Proof.
  unfold ok, run. intros Hf Hm. rewrite bind_unfold. destruct Hm as [Ho|Hq]; [left; by apply Hf|done].
Qed.
Lemma ok_mono {A} (m : M A) s (P Q : A -> ed D -> Prop) : ok m s P -> (forall a s', P a s' -> Q a s') -> ok m s Q.
Proof. unfold ok, run. intros [?|?] HPQ; [by left|right; auto]. Qed.
Lemma ok_ret {A} (a : A) s (Q : A -> ed D -> Prop) : Q a s -> ok (mret a) s Q.
Proof. by right. Qed.
Lemma ok_run {A} (m : M A) s Q : run m s Q -> ok m s Q.
Proof. unfold ok, run. by right. Qed.

(** The editor's variables in [s] are [v], and nothing undefined has happened. *)
Definition at_vim s (v : vim) : Prop := ed_vim s = v /\ ed_undef s = false.

Lemma ok_vget {A} (f : vim -> A) s v (Q : A -> ed D -> Prop) : at_vim s v -> Q (f v) s -> ok (vget f) s Q.
Proof. intros [<- _] HQ. by right. Qed.
Lemma ok_vset f s v (Q : unit -> ed D -> Prop) : at_vim s v -> (forall s', at_vim s' (f v) -> Q tt s') -> ok (vset f) s Q.
Proof. intros [<- Hu] HQ. right. by apply HQ. Qed.
Lemma ok_check b s (Q : unit -> ed D -> Prop) : b = true -> Q tt s -> ok (check b) s Q.
Proof. intros -> HQ. by right. Qed.
Lemma ok_on_sys {A} (m : state (vfs D) A) s v (Q : A -> ed D -> Prop) :
  at_vim s v -> (forall a s', at_vim s' v -> Q a s') -> ok (on_sys m) s Q.
Proof. intros [<- Hu] HQ. right. unfold on_sys. destruct (m (ed_sys s)). by apply HQ. Qed.
End Logic.

Create HintDb keeps.
#[export] Hint Resolve keeps_ret keeps_vget keeps_vset keeps_undefined keeps_fault keeps_on_sys : keeps.

#[export] Hint Unfold check line set_line line_text line_len put_char move_chars copy_chars insert_ptr remove_ptr free_line
  set_msg msg_printf set_x set_y make_dirty clamp_cx do_scroll copy_line save_undo do_undo buf_free push_line show_file load_file save_file
  on_vga print draw_row draw_status draw_command draw insert_char insert_newline join_lines backspace_char delete_fwd
  delete_line delete_to_eol yank_line paste paste_below paste_above move_word_fwd move_word_back find_in search_next
  search_first search_prev exec_cmd clear_line cut_word pending_key open_line first_nonblank cut_char join_below
  edit_command handle_normal handle_insert handle_command handle_search handle_key : keeps.

(** Every editor function keeps the record of a fault. *)
Ltac keeps_solve :=
  repeat (intros; first
    [ solve [eauto with keeps]
    | apply keeps_bind
    | match goal with
      | |- keeps (if ?b then _ else _) => destruct b
      | |- keeps (match ?x with _ => _ end) => destruct x eqn:?
      end
    | progress autounfold with keeps ]).

Section Keeps.
Context {D : Type} `{Kernel D, Console D}.

Lemma keeps_lalloc src n : keeps (lalloc src n).
Proof. unfold lalloc. keeps_solve. Qed.
#[local] Hint Resolve keeps_lalloc : keeps.
Lemma keeps_free_lines ps : keeps (free_lines ps).
Proof. induction ps; cbn [free_lines]; keeps_solve. Qed.
Lemma keeps_copy_lines ps : keeps (copy_lines ps).
Proof. induction ps; cbn [copy_lines]; keeps_solve. Qed.
Lemma keeps_load_loop rest : forall c, keeps (load_loop rest c).
Proof. induction rest; intros; cbn [load_loop]; keeps_solve. Qed.
Lemma keeps_collect ps : keeps (collect (D := D) ps).
Proof. induction ps; cbn [collect]; keeps_solve. Qed.
Lemma keeps_draw_rows rs : keeps (draw_rows rs).
Proof. induction rs; cbn [draw_rows]; keeps_solve. Qed.
Lemma keeps_search_turns x y ts : keeps (search_turns (D := D) x y ts).
Proof. induction ts; cbn [search_turns]; keeps_solve. Qed.
Lemma keeps_first_turns y ts : keeps (first_turns (D := D) y ts).
Proof. induction ts; cbn [first_turns]; keeps_solve. Qed.
Lemma keeps_find_back y cs : keeps (find_back (D := D) y cs).
Proof. induction cs; cbn [find_back]; keeps_solve. Qed.
#[local] Hint Resolve keeps_find_back : keeps.
Lemma keeps_back_turns x y ts : keeps (back_turns (D := D) x y ts).
Proof. induction ts; cbn [back_turns]; keeps_solve. Qed.
#[local] Hint Resolve keeps_free_lines keeps_copy_lines keeps_load_loop keeps_collect keeps_draw_rows keeps_search_turns
  keeps_first_turns keeps_back_turns : keeps.
Lemma keeps_draw : keeps draw.
Proof. keeps_solve. Qed.
Lemma keeps_move_key key x y len (m : state (ed D) unit) : move_key key x y len = Some m -> keeps m.
Proof. unfold move_key. intros E. repeat case_match; simplify_eq; keeps_solve. Qed.
Lemma keeps_pending_key p key y len : keeps (pending_key p key y len).
Proof. keeps_solve. Qed.
Lemma keeps_edit_command key x y len : keeps (edit_command key x y len).
Proof. keeps_solve. Qed.
#[local] Hint Resolve keeps_move_key keeps_pending_key keeps_edit_command : keeps.
Lemma keeps_handle_normal key : keeps (handle_normal key).
Proof. keeps_solve. Qed.
Lemma keeps_handle_insert key : keeps (handle_insert key).
Proof. keeps_solve. Qed.
#[local] Hint Resolve keeps_handle_normal keeps_handle_insert : keeps.
Lemma keeps_handle_key key : keeps (handle_key key).
Proof. keeps_solve. Qed.
#[local] Hint Resolve keeps_draw keeps_handle_key : keeps.
Lemma keeps_editor_loop keys : keeps (editor_loop keys).
Proof. induction keys; cbn [editor_loop]; keeps_solve. Qed.
Lemma keeps_load_file path : keeps (load_file path).
Proof. keeps_solve. Qed.
End Keeps.
#[export] Hint Resolve keeps_lalloc keeps_free_lines keeps_copy_lines keeps_load_loop keeps_collect keeps_draw_rows
  keeps_search_turns keeps_first_turns keeps_find_back keeps_back_turns keeps_draw keeps_move_key keeps_pending_key keeps_edit_command
  keeps_handle_normal keeps_handle_insert keeps_handle_key keeps_editor_loop keeps_load_file : keeps.
