(* ===== verification/EditorRefine.v ===== *)
(** * The editor's buffers implement its text

    Every function of Editor.v against the text of EditorText.v: over every
    sequence of keys the buffers hold the text of [tx_key], no access leaves a
    buffer, and only a fault of the heap or the VFS is an excuse. *)

From Stdlib Require Import Ascii.
From stdpp Require Import strings.
From S2P Require Import Prelude Machine VfsTypes CLib Printf Vfs Keyboard Vga Task Syscall ShellLine Editor EditorText EditorLogic.

(** ** The primitives *)

Section Prims.
Context {D : Type} `{Kernel D, Console D}.
Abbreviation M := (state (ed D)).
Implicit Types (s : ed D) (v : vim) (t : text) (d : doc).

(** In [s] the editor holds the text [t]. *)
Definition shows s t : Prop := exists v, at_vim s v /\ rep v t.

Lemma line_ok i s v a b (Q : list Z -> ed D -> Prop) :
  at_vim s v -> vm_buf v !! Z.to_nat i = Some (Some (a, b)) -> Q b s -> ok (line i) s Q.
Proof.
  intros A E HQ. unfold line. apply ok_bind; [keeps_solve|]. eapply ok_vget; [exact A|]. rewrite E. by apply ok_ret.
Qed.

Lemma line_text_ok i s v a b l (Q : list Z -> ed D -> Prop) :
  at_vim s v -> vm_buf v !! Z.to_nat i = Some (Some (a, b)) -> buffer 256 b l -> Q l s -> ok (line_text i) s Q.
Proof.
  intros A E B HQ. unfold line_text. apply ok_bind; [keeps_solve|]. eapply line_ok; [done|done|].
  apply ok_bind; [keeps_solve|]. apply ok_check; [by eapply bu_nul|]. apply ok_ret. by rewrite (bu_cstr _ _ B).
Qed.

Lemma line_len_ok i s v a b l (Q : Z -> ed D -> Prop) :
  at_vim s v -> vm_buf v !! Z.to_nat i = Some (Some (a, b)) -> buffer 256 b l -> Q (Z.of_nat (length l)) s -> ok (line_len i) s Q.
Proof.
  intros A E B HQ. unfold line_len. apply ok_bind; [keeps_solve|]. eapply line_text_ok; [done..|]. by apply ok_ret.
Qed.

Lemma alter_insert (buf : list line_ptr) i (f : line_ptr -> line_ptr) x : buf !! i = Some x -> alter f i buf = <[i := f x]> buf.
Proof.
  revert i. induction buf as [|y buf IH]; intros [|i] E; [done|done|by injection E as ->|]. cbn. f_equal. by apply IH.
Qed.

Lemma set_line_ok i b' s v a b (Q : unit -> ed D -> Prop) :
  at_vim s v -> vm_buf v !! Z.to_nat i = Some (Some (a, b)) ->
  (forall s', at_vim s' (set_buf (<[Z.to_nat i := Some (a, b')]> (vm_buf v)) v) -> Q tt s') -> ok (set_line i b') s Q.
Proof.
  intros A E HQ. unfold set_line. eapply ok_vset; [exact A|]. intros s' A'. apply HQ.
  pose proof (alter_insert _ _ (fmap (fun '(p, _) => (p, b'))) _ E) as Ea. exact (eq_ind _ (fun x => at_vim s' (set_buf x v)) A' _ Ea).
Qed.

Lemma put_char_ok i k c s v a b (Q : unit -> ed D -> Prop) :
  at_vim s v -> vm_buf v !! Z.to_nat i = Some (Some (a, b)) -> length b = 256%nat -> 0 <= k < 256 ->
  (forall s', at_vim s' (set_buf (<[Z.to_nat i := Some (a, CStr.st b k c)]> (vm_buf v)) v) -> Q tt s') -> ok (put_char i k c) s Q.
Proof.
  intros A E Hl Hk HQ. unfold put_char. apply ok_bind; [keeps_solve|]. eapply line_ok; [done|done|].
  apply ok_bind; [keeps_solve|]. apply ok_check; [|by eapply set_line_ok].
  rewrite Hl. apply andb_true_iff. rewrite Z.leb_le, Z.ltb_lt. lia.
Qed.

Lemma move_chars_ok i dst src n s v a b (Q : unit -> ed D -> Prop) :
  at_vim s v -> vm_buf v !! Z.to_nat i = Some (Some (a, b)) -> length b = 256%nat ->
  0 <= dst -> 0 <= src -> dst + n <= 256 -> src + n <= 256 ->
  (forall s', at_vim s' (set_buf (<[Z.to_nat i := Some (a, CStr.memmove b dst src n)]> (vm_buf v)) v) -> Q tt s') ->
  ok (move_chars i dst src n) s Q.
Proof.
  intros A E Hl H1 H2 H3 H4 HQ. unfold move_chars. apply ok_bind; [keeps_solve|]. eapply line_ok; [done|done|].
  apply ok_bind; [keeps_solve|]. apply ok_check; [|by eapply set_line_ok].
  rewrite Hl, !andb_true_iff, !Z.leb_le. lia.
Qed.

Lemma copy_chars_ok i dst bytes s v a b (Q : unit -> ed D -> Prop) :
  at_vim s v -> vm_buf v !! Z.to_nat i = Some (Some (a, b)) -> length b = 256%nat ->
  0 <= dst -> dst + Z.of_nat (length bytes) <= 256 ->
  (forall s', at_vim s' (set_buf (<[Z.to_nat i := Some (a, put b dst bytes)]> (vm_buf v)) v) -> Q tt s') ->
  ok (copy_chars i dst bytes) s Q.
Proof.
  intros A E Hl H1 H2 HQ. unfold copy_chars. apply ok_bind; [keeps_solve|]. eapply line_ok; [done|done|].
  apply ok_bind; [keeps_solve|]. apply ok_check; [|by eapply set_line_ok].
  rewrite Hl, !andb_true_iff, !Z.leb_le. lia.
Qed.

Lemma insert_ptr_ok i p s v (Q : unit -> ed D -> Prop) :
  at_vim s v -> i <= nlines v < VIM_MAX_LINES ->
  (forall s', at_vim s' (set_buf (take (Z.to_nat i) (vm_buf v) ++ p :: drop (Z.to_nat i) (vm_buf v)) v) -> Q tt s') ->
  ok (insert_ptr i p) s Q.
Proof.
  intros A Hi HQ. unfold insert_ptr. apply ok_bind; [keeps_solve|]. eapply ok_vget; [exact A|].
  apply ok_bind; [keeps_solve|]. apply ok_check; [rewrite andb_true_iff, Z.leb_le, Z.ltb_lt; lia|]. by eapply ok_vset.
Qed.

Lemma remove_ptr_ok i s v (Q : unit -> ed D -> Prop) :
  at_vim s v -> i < nlines v ->
  (forall s', at_vim s' (set_buf (take (Z.to_nat i) (vm_buf v) ++ drop (S (Z.to_nat i)) (vm_buf v)) v) -> Q tt s') ->
  ok (remove_ptr i) s Q.
Proof.
  intros A Hi HQ. unfold remove_ptr. apply ok_bind; [keeps_solve|]. eapply ok_vget; [exact A|].
  apply ok_bind; [keeps_solve|]. apply ok_check; [by apply Z.ltb_lt|]. by eapply ok_vset.
Qed.

(** A new line with the first [len] bytes of [src], which are the string [l]. *)
Lemma lalloc_ok src len l rest s v (Q : line_ptr -> ed D -> Prop) :
  at_vim s v -> src = l ++ rest -> len = Z.of_nat (length l) -> text_ok l -> (length l < 256)%nat ->
  (forall a b s', at_vim s' v -> buffer 256 b l -> Q (Some (a, b)) s') -> ok (lalloc src len) s Q.
Proof.
  intros A -> -> Ht Hl HQ. unfold lalloc. apply ok_bind; [keeps_solve|].
  eapply ok_on_sys; [exact A|]. intros [p|] s1 A1; [|by left].
  pose proof (bu_fresh (n := 256) l Ht Hl) as B. destruct (Z.eqb_spec (Z.of_nat (length l)) 0) as [E|E].
  - apply ok_ret, HQ; [done|]. destruct l; [|done]. exact B.
  - rewrite (proj2 (Z.leb_gt VIM_MAX_COL _)) by (unfold VIM_MAX_COL; lia). apply ok_ret, HQ; [done|].
    unfold sub. by rewrite drop_0, Nat2Z.id, take_app_length.
Qed.

Lemma free_line_ok p s v (Q : unit -> ed D -> Prop) : at_vim s v -> (forall s', at_vim s' v -> Q tt s') -> ok (free_line p) s Q.
Proof. intros A HQ. unfold free_line. eapply ok_on_sys; [exact A|]. intros []. apply HQ. Qed.

Lemma free_lines_ok ps : forall s v (Q : unit -> ed D -> Prop),
  at_vim s v -> (forall s', at_vim s' v -> Q tt s') -> ok (free_lines ps) s Q.
Proof.
  induction ps as [|p ps IH]; intros s v Q A HQ; cbn [free_lines]; [by apply ok_ret, HQ|].
  apply ok_bind; [keeps_solve|]. eapply free_line_ok; [exact A|]. intros s1 A1. by eapply IH.
Qed.
End Prims.

(** ** Documents in buffers *)

Section Docs.
Implicit Types (d : doc) (buf : list line_ptr).

Lemma dr_line buf cx cy d y : doc_rep buf cx cy d -> (y < length (doc_lines d))%nat ->
  exists a b, buf !! y = Some (Some (a, b)) /\ buffer 256 b (line_of y d).
Proof.
  intros R Hy. destruct (lookup_lt_is_Some_2 _ _ Hy) as [l El]. unfold line_of. rewrite El.
  destruct (Forall2_lookup_r _ _ _ _ _ (dr_lines _ _ _ _ R) El) as (p & Ep & a & b & -> & B). by exists a, b.
Qed.

Lemma dr_cur buf cx cy d : doc_rep buf cx cy d -> exists a b, buf !! Z.to_nat cy = Some (Some (a, b)) /\ buffer 256 b (cur d).
Proof. intros R. rewrite (dr_cy _ _ _ _ R), Nat2Z.id. by eapply dr_line, dr_y. Qed.

Lemma dr_length buf cx cy d : doc_rep buf cx cy d -> length buf = length (doc_lines d).
Proof. intros R. by eapply Forall2_length, dr_lines. Qed.

Lemma cur_set_cur l x d : (doc_y d < length (doc_lines d))%nat -> cur (set_cur l x d) = l.
Proof. intros Hy. unfold cur, line_of, set_cur. cbn. by rewrite list_lookup_insert_eq. Qed.

Lemma dr_set_cur buf cx cy d a b l x : doc_rep buf cx cy d -> buffer 256 b l -> (x <= length l)%nat ->
  doc_rep (<[Z.to_nat cy := Some (a, b)]> buf) (Z.of_nat x) cy (set_cur l x d).
Proof.
  intros R B Hx. pose proof R as [R1 R2 R3 R4 R5 R6]. split; try done.
  - cbn. rewrite R6, Nat2Z.id. apply Forall2_insert; [done|]. by exists a, b.
  - cbn. by rewrite length_insert.
  - cbn. by rewrite length_insert.
  - by rewrite cur_set_cur.
Qed.

Lemma dr_go buf cx cy d x y : doc_rep buf cx cy d -> (y < length (doc_lines d))%nat -> (x <= length (line_of y d))%nat ->
  doc_rep buf (Z.of_nat x) (Z.of_nat y) (go x y d).
Proof. intros [R1 R2 R3 R4 R5 R6] Hy Hx. by split. Qed.

Lemma set_cur_same d : (doc_y d < length (doc_lines d))%nat -> set_cur (cur d) (doc_x d) d = d.
Proof.
  intros Hy. destruct d as [ls x y]. unfold set_cur, cur, line_of. cbn in *. f_equal.
  destruct (lookup_lt_is_Some_2 _ _ Hy) as [l El]. rewrite El. by apply list_insert_id.
Qed.

Lemma go_same d : go (doc_x d) (doc_y d) d = d.
Proof. by destruct d. Qed.

(** The text before and behind the cursor. *)
Lemma cur_split d x : (x <= length (cur d))%nat -> cur d = take x (cur d) ++ drop x (cur d) /\ length (take x (cur d)) = x.
Proof. intros Hx. split; [by rewrite take_drop|rewrite length_take; lia]. Qed.

Lemma take_insert_self {A} (l : list A) i x : (i < length l)%nat -> take (S i) (<[i := x]> l) = take i l ++ [x].
Proof.
  intros Hi. rewrite insert_take_drop by done. rewrite take_app, length_take, take_ge by (rewrite length_take; lia).
  replace (S i - i `min` length l)%nat with 1%nat by lia. done.
Qed.
Lemma drop_insert_self {A} (l : list A) i x : drop (S i) (<[i := x]> l) = drop (S i) l.
Proof. apply drop_insert_lt. lia. Qed.

Lemma dr_replace (buf : list line_ptr) (ls : list (list Z)) y n ps new :
  Forall2 line_rep buf ls -> Forall2 line_rep ps new ->
  Forall2 line_rep (take y buf ++ ps ++ drop (y + n) buf) (take y ls ++ new ++ drop (y + n) ls).
Proof. intros H1 H2. apply Forall2_app; [by apply Forall2_take|]. apply Forall2_app; [done|by apply Forall2_drop]. Qed.

Lemma line_of_replace y n new d k : (y <= length (doc_lines d))%nat -> (k < length new)%nat ->
  replace y n new d !! (y + k)%nat = new !! k.
Proof.
  intros Hy Hk. unfold replace. rewrite lookup_app_r by (rewrite length_take; lia).
  rewrite lookup_app_l by (rewrite length_take; lia). f_equal. rewrite length_take. lia.
Qed.

Lemma length_replace y n new d : (y + n <= length (doc_lines d))%nat ->
  length (replace y n new d) = (length (doc_lines d) - n + length new)%nat.
Proof. intros Hy. unfold replace. rewrite !length_app, length_take, length_drop. lia. Qed.

(** A document with lines replaced, the cursor on one of the new ones. *)
Lemma dr_replaced buf cx cy d y n ps new k x cx' cy' y' :
  doc_rep buf cx cy d -> (y + n <= length (doc_lines d))%nat -> Forall2 line_rep ps new ->
  (length (doc_lines d) - n + length new <= LINES)%nat -> (k < length new)%nat ->
  (x <= length (default [] (new !! k)))%nat -> cx' = Z.of_nat x -> cy' = Z.of_nat y' -> y' = (y + k)%nat ->
  doc_rep (take y buf ++ ps ++ drop (y + n) buf) cx' cy' (mk_doc (replace y n new d) x y').
Proof.
  intros R Hy Hp Hl Hk Hx -> -> ->. split; cbn [doc_lines doc_x doc_y]; try done.
  - apply dr_replace; [apply R|done].
  - rewrite length_replace by done. lia.
  - rewrite length_replace by done. lia.
  - unfold cur, line_of. cbn [doc_lines doc_y]. by rewrite line_of_replace by lia.
Qed.

(** The pointer operations as replacements. *)
Lemma insert_ptr_shape {A} (buf : list A) y p : take y buf ++ p :: drop y buf = take y buf ++ [p] ++ drop (y + 0) buf.
Proof. by rewrite Nat.add_0_r. Qed.
Lemma split_shape {A} (buf : list A) y p q : (y < length buf)%nat ->
  take (S y) (<[y := p]> buf) ++ q :: drop (S y) (<[y := p]> buf) = take y buf ++ [p; q] ++ drop (y + 1) buf.
Proof. intros Hy. rewrite take_insert_self, drop_insert_self by done. rewrite <- (assoc_L (++)). by rewrite Nat.add_1_r. Qed.
Lemma join_shape {A} (buf : list A) y p : (y < length buf)%nat ->
  take (S y) (<[y := p]> buf) ++ drop (S (S y)) (<[y := p]> buf) = take y buf ++ [p] ++ drop (y + 2) buf.
Proof.
  intros Hy. rewrite take_insert_self, drop_insert_lt by lia. rewrite <- (assoc_L (++)). by replace (y + 2)%nat with (S (S y)) by lia.
Qed.
End Docs.

(** ** The editing functions *)

(** One variable of the editor, one line, the rest of a sequence. *)
Ltac vg A := apply ok_bind; [keeps_solve|]; eapply ok_vget; [exact A|]; cbv beta delta [id].
Ltac nx := apply ok_bind; [keeps_solve|].

Section Edits.
Context {D : Type} `{Kernel D, Console D}.
Implicit Types (s : ed D) (v : vim) (t : text) (d : doc).

Lemma length_memmove m dst src n : length (CStr.memmove m dst src n) = length m.
Proof. unfold CStr.memmove. repeat case_match; by rewrite ?CStrOk.length_copy_up, ?CStrOk.length_copy_down. Qed.

Lemma make_dirty_ok s v (Q : unit -> ed D -> Prop) : at_vim s v -> (forall s', at_vim s' (set_dirty true v) -> Q tt s') -> ok make_dirty s Q.
Proof. intros A HQ. by eapply ok_vset. Qed.
Lemma set_x_ok x s v (Q : unit -> ed D -> Prop) : at_vim s v -> (forall s', at_vim s' (set_cursor x (vm_cy v) v) -> Q tt s') -> ok (set_x x) s Q.
Proof. intros A HQ. by eapply ok_vset. Qed.

(** Another document in the editor, the rest unchanged. *)
Lemma rep_doc v t buf cx cy dirty f : rep v t -> doc_rep buf cx cy (f (tx_doc t)) ->
  rep (set_dirty dirty (set_cursor cx cy (set_buf buf v))) (on_doc f t).
Proof. intros [] Hd. by split. Qed.

Lemma rep_clean v t buf cx cy f : rep v t -> doc_rep buf cx cy (f (tx_doc t)) ->
  rep (set_cursor cx cy (set_buf buf v)) (on_doc f t).
Proof. intros [] Hd. by split. Qed.

(** Taking characters out of the current line. *)
Lemma cut_chars_ok x m dst src k s v t (Q : unit -> ed D -> Prop) : at_vim s v -> rep v t -> (x + m <= length (cur (tx_doc t)))%nat ->
  dst = Z.of_nat x -> src = Z.of_nat (x + m) -> k = Z.of_nat (length (cur (tx_doc t))) - Z.of_nat (x + m) + 1 ->
  (forall a b s', at_vim s' (set_buf (<[Z.to_nat (vm_cy v) := Some (a, b)]> (vm_buf v)) v) ->
     buffer 256 b (take x (cur (tx_doc t)) ++ drop (x + m) (cur (tx_doc t))) -> Q tt s') ->
  ok (move_chars (vm_cy v) dst src k) s Q.
Proof.
  intros A R Hx Ed Es Ek HQ. destruct (dr_cur _ _ _ _ (rp_doc _ _ R)) as (a & b & Eb & B). pose proof (bu_fits _ _ B) as Hf.
  eapply move_chars_ok; [done|done|apply B|lia..|]. intros s1 A1. eapply HQ; [exact A1|]. by apply bu_cut_at.
Qed.

(** Ending the current line at column [x]. *)
Lemma end_line_ok x k s v t (Q : unit -> ed D -> Prop) : at_vim s v -> rep v t -> (x <= length (cur (tx_doc t)))%nat -> k = Z.of_nat x ->
  (forall a b s', at_vim s' (set_buf (<[Z.to_nat (vm_cy v) := Some (a, b)]> (vm_buf v)) v) ->
     buffer 256 b (take x (cur (tx_doc t))) -> Q tt s') ->
  ok (put_char (vm_cy v) k 0) s Q.
Proof.
  intros A R Hx -> HQ. destruct (dr_cur _ _ _ _ (rp_doc _ _ R)) as (a & b & Eb & B). pose proof (bu_fits _ _ B) as Hf.
  eapply put_char_ok; [done|done|apply B|lia|]. intros s1 A1. eapply HQ; [exact A1|]. by apply bu_trunc_at.
Qed.

(** Lines [y] and [y + 1] in one buffer. *)
Lemma join_lines_ok y i j s v t (Q : unit -> ed D -> Prop) : at_vim s v -> rep v t -> (S y < length (doc_lines (tx_doc t)))%nat ->
  i = Z.of_nat y -> j = Z.of_nat (S y) -> (length (line_of y (tx_doc t)) + length (line_of (S y) (tx_doc t)) <= COLS)%nat ->
  (forall a b s', at_vim s' (set_buf (take y (vm_buf v) ++ [Some (a, b)] ++ drop (y + 2) (vm_buf v)) v) ->
     buffer 256 b (line_of y (tx_doc t) ++ line_of (S y) (tx_doc t)) -> Q tt s') ->
  ok (join_lines i j) s Q.
Proof.
  intros A R Hy -> -> Hl HQ. pose proof (rp_doc _ _ R) as Rd. unfold COLS in Hl.
  destruct (dr_line _ _ _ _ y Rd ltac:(lia)) as (a & b & Eb & B). destruct (dr_line _ _ _ _ (S y) Rd Hy) as (a' & b' & Eb' & B').
  unfold join_lines. vg A. nx. eapply line_text_ok; [done|by rewrite Nat2Z.id|done|].
  nx. eapply line_ok; [done|by rewrite Nat2Z.id|]. nx. eapply line_len_ok; [done|by rewrite Nat2Z.id|done|].
  nx. eapply copy_chars_ok; [done|by rewrite Nat2Z.id|apply B|lia| |].
  { rewrite (bu_sub _ _ B'), length_app. cbn [length]. lia. }
  intros s1 A1. nx. eapply free_line_ok; [exact A1|]. intros s2 A2.
  eapply remove_ptr_ok; [exact A2| |].
  { unfold nlines. cbn. rewrite length_insert, (dr_length _ _ _ _ Rd). lia. }
  intros s3 A3. rewrite !Nat2Z.id in A3. cbn in A3. rewrite join_shape in A3 by (by eapply lookup_lt_Some).
  eapply HQ; [exact A3|]. apply bu_append; [done|done|lia].
Qed.

Lemma insert_char_ok c s t (Q : unit -> ed D -> Prop) : shows s t -> char_ok c ->
  (forall s', shows s' (on_doc (doc_insert c) t) -> Q tt s') -> ok (insert_char c) s Q.
Proof.
  intros (v & A & R) Hc HQ. pose proof (rp_doc _ _ R) as Rd. destruct (dr_cur _ _ _ _ Rd) as (a & b & Eb & B).
  pose proof Rd as [_ _ Hy Hx Ex Ey]. pose proof (bu_fits _ _ B) as Hf. unfold insert_char. vg A.
  nx. eapply line_len_ok; [done..|]. unfold VIM_MAX_COL.
  destruct (Z.leb_spec 256 (Z.of_nat (length (cur (tx_doc t))) + 1)) as [Hg|Hg].
  { apply ok_ret, HQ. exists v. split; [done|]. unfold on_doc, doc_insert. rewrite decide_False by (unfold COLS; lia). by destruct t. }
  rewrite Ex, (u32_small (_ + 1)) by (unfold is_u32; lia).
  nx. eapply move_chars_ok; [done|done|apply B|lia..|]. intros s1 A1.
  nx. eapply put_char_ok; [exact A1|by cbn; rewrite list_lookup_insert_eq by (by eapply lookup_lt_Some)| |lia|].
  { rewrite length_memmove. apply B. }
  intros s2 A2. nx. eapply set_x_ok; [exact A2|]. intros s3 A3. eapply make_dirty_ok; [exact A3|]. intros s4 A4. apply HQ.
  eexists. split; [exact A4|]. cbn. eapply (rep_doc _ _ _ _ _ true (doc_insert c) R).
  unfold doc_insert. rewrite decide_True by (unfold COLS; lia). rewrite list_insert_insert_eq.
  replace (Z.of_nat (doc_x (tx_doc t)) + 1) with (Z.of_nat (S (doc_x (tx_doc t)))) by lia.
  eapply dr_set_cur; [exact Rd| |rewrite length_app, length_take; cbn; rewrite length_drop; lia].
  apply bu_insert_at; try done; lia.
Qed.

Lemma insert_newline_ok s t (Q : unit -> ed D -> Prop) : shows s t ->
  (forall s', shows s' (on_doc doc_newline t) -> Q tt s') -> ok insert_newline s Q.
Proof.
  intros (v & A & R) HQ. pose proof (rp_doc _ _ R) as Rd. destruct (dr_cur _ _ _ _ Rd) as (a & b & Eb & B).
  pose proof Rd as [_ Hn Hy Hx Ex Ey]. pose proof (bu_fits _ _ B) as Hf. pose proof (dr_length _ _ _ _ Rd) as Hln.
  unfold insert_newline. vg A. unfold nlines at 1, VIM_MAX_LINES. rewrite Hln.
  destruct (Z.leb_spec 512 (Z.of_nat (length (doc_lines (tx_doc t))))) as [Hg|Hg].
  { apply ok_ret, HQ. exists v. split; [done|]. unfold on_doc, doc_newline. rewrite decide_False by (unfold LINES; lia). by destruct t. }
  nx. eapply line_ok; [done..|]. nx. eapply line_len_ok; [done..|].
  rewrite Ex, (u32_small (_ - _)) by (unfold is_u32; lia).
  nx. pose proof B as [[junk E] _ _ Ht].
  eapply (lalloc_ok _ _ (drop (doc_x (tx_doc t)) (cur (tx_doc t))) (0 :: junk)); [done| | | | |].
  { by rewrite Nat2Z.id, E, drop_app_le. }
  { rewrite length_drop. lia. }
  { by apply Forall_drop. }
  { rewrite length_drop. lia. }
  intros a' b' s1 A1 B'. nx. eapply (end_line_ok (doc_x (tx_doc t))); [exact A1|done|done|done|]. intros a2 b2 s2 A2 B2.
  nx. eapply insert_ptr_ok; [exact A2| |].
  { unfold nlines. cbn. rewrite length_insert, Hln, Ey. unfold VIM_MAX_LINES. lia. }
  intros s3 A3. nx. eapply ok_vset; [exact A3|]. intros s4 A4. eapply make_dirty_ok; [exact A4|]. intros s5 A5. apply HQ.
  eexists. split; [exact A5|]. apply (rep_doc _ _ _ _ _ true doc_newline R).
  unfold doc_newline. rewrite decide_True by (unfold LINES; lia).
  replace (Z.to_nat (vm_cy v + 1)) with (S (Z.to_nat (vm_cy v))) by lia. cbn [vm_buf set_buf].
  rewrite split_shape by (by eapply lookup_lt_Some). rewrite Ey, Nat2Z.id.
  eapply (dr_replaced _ _ _ _ _ _ _ _ 1 _ _ _ _ Rd); [lia| |cbn [length]; unfold LINES in *; lia|cbn; lia|cbn; lia|lia|lia|lia].
  constructor; [by exists a2, b2|]. constructor; [by exists a', b'|done].
Qed.

(** The text is as it was, the file perhaps not saved. *)
Lemma rep_dirty v t b : rep v t -> rep (set_dirty b v) t.
Proof. intros []. by split. Qed.
Lemma on_doc_same t f : f (tx_doc t) = tx_doc t -> on_doc f t = t.
Proof. intros E. unfold on_doc. rewrite E. by destruct t. Qed.

Lemma backspace_char_ok s t (Q : unit -> ed D -> Prop) : shows s t ->
  (forall s', shows s' (on_doc doc_backspace t) -> Q tt s') -> ok backspace_char s Q.
Proof.
  intros (v & A & R) HQ. pose proof (rp_doc _ _ R) as Rd. pose proof Rd as [_ Hn Hy Hx Ex Ey].
  assert (forall s' v', at_vim s' v' -> rep v' (on_doc doc_backspace t) -> ok make_dirty s' Q) as Hend.
  { intros s' v' A' R'. eapply make_dirty_ok; [exact A'|]. intros s2 A2. apply HQ. eexists. split; [exact A2|]. by apply rep_dirty. }
  unfold backspace_char. vg A. nx. destruct (dr_cur _ _ _ _ Rd) as (a & b & Eb & B).
  destruct (Z.ltb_spec 0 (vm_cx v)) as [Hp|Hp].
  - destruct (doc_x (tx_doc t)) as [|x] eqn:Edx; [lia|]. nx. eapply line_len_ok; [done..|].
    pose proof (bu_fits _ _ B). rewrite (u32_small (_ + 1)) by (unfold is_u32; lia).
    nx. eapply (cut_chars_ok x 1); [exact A|done|lia..|]. intros a1 b1 s1 A1 B1. eapply set_x_ok; [exact A1|]. intros s2 A2.
    eapply Hend; [exact A2|]. apply (rep_clean _ _ _ _ _ doc_backspace R). unfold doc_backspace. rewrite Edx.
    replace (vm_cx v - 1) with (Z.of_nat x) by lia. replace (S x) with (x + 1)%nat by lia.
    eapply dr_set_cur; [exact Rd|exact B1|]. rewrite length_app, length_take. lia.
  - assert (doc_x (tx_doc t) = 0%nat) as Ex0 by lia. destruct (Z.ltb_spec 0 (vm_cy v)) as [Hc|Hc].
    + destruct (doc_y (tx_doc t)) as [|y] eqn:Edy; [lia|]. destruct (dr_line _ _ _ _ y Rd ltac:(lia)) as (a' & b' & Eb' & B').
      nx. eapply line_len_ok; [done|by replace (Z.to_nat (vm_cy v - 1)) with y by lia|done|].
      nx. eapply line_len_ok; [done..|]. unfold VIM_MAX_COL.
      assert (cur (tx_doc t) = line_of (S y) (tx_doc t)) as Ecur by (unfold cur; by rewrite Edy). rewrite Ecur.
      destruct (Z.ltb_spec (Z.of_nat (length (line_of y (tx_doc t))) + Z.of_nat (length (line_of (S y) (tx_doc t)))) 256) as [Hl|Hl].
      * nx. eapply (join_lines_ok y); [exact A|done|lia|lia|lia|unfold COLS; lia|]. intros a2 b2 s2 A2 B2.
        eapply ok_vset; [exact A2|]. intros s3 A3. eapply Hend; [exact A3|]. apply (rep_clean _ _ _ _ _ doc_backspace R).
        unfold doc_backspace. rewrite Ex0, Edy. unfold doc_join. rewrite decide_True by (rewrite length_app; unfold COLS; lia).
        eapply (dr_replaced _ _ _ _ _ _ _ _ 0 _ _ _ _ Rd); [lia|constructor; [by exists a2, b2|done]|cbn [length]; unfold LINES in *; lia|cbn; lia| |lia..].
        cbn. rewrite length_app. lia.
      * apply ok_ret. eapply Hend; [exact A|]. rewrite on_doc_same; [done|]. unfold doc_backspace. rewrite Ex0, Edy.
        unfold doc_join. by rewrite decide_False by (rewrite length_app; unfold COLS; lia).
    + apply ok_ret. eapply Hend; [exact A|]. rewrite on_doc_same; [done|]. unfold doc_backspace. rewrite Ex0.
      by replace (doc_y (tx_doc t)) with 0%nat by lia.
Qed.
End Edits.

Section Edits2.
Context {D : Type} `{Kernel D, Console D}.
Implicit Types (s : ed D) (v : vim) (t : text) (d : doc).

Lemma delete_fwd_ok s t (Q : unit -> ed D -> Prop) : shows s t ->
  (forall s', shows s' (on_doc doc_delete t) -> Q tt s') -> ok delete_fwd s Q.
Proof.
  intros (v & A & R) HQ. pose proof (rp_doc _ _ R) as Rd. pose proof Rd as [_ Hn Hy Hx Ex Ey].
  destruct (dr_cur _ _ _ _ Rd) as (a & b & Eb & B). pose proof (dr_length _ _ _ _ Rd) as Hln.
  unfold delete_fwd. vg A. nx. eapply line_len_ok; [done..|].
  assert (doc_delete (tx_doc t) = tx_doc t -> Q tt s) as Hsame.
  { intros E. apply HQ. exists v. rewrite on_doc_same by done. done. }
  destruct (Z.ltb_spec (vm_cx v) (Z.of_nat (length (cur (tx_doc t))))) as [Hl|Hl].
  - nx. eapply (cut_chars_ok (doc_x (tx_doc t)) 1); [exact A|done|lia..|]. intros a1 b1 s1 A1 B1.
    eapply make_dirty_ok; [exact A1|]. intros s2 A2. apply HQ. eexists. split; [exact A2|].
    apply (rep_doc _ _ _ (vm_cx v) (vm_cy v) true doc_delete R). unfold doc_delete. rewrite decide_True by lia.
    rewrite Ex. unfold doc_cut. eapply dr_set_cur; [exact Rd|exact B1|]. rewrite length_app, length_take. lia.
  - unfold nlines. rewrite Hln. unfold doc_delete, last_line in Hsame. rewrite decide_False in Hsame by lia.
    destruct (Z.ltb_spec (vm_cy v + 1) (Z.of_nat (length (doc_lines (tx_doc t))))) as [Hc|Hc].
    2: { apply ok_ret, Hsame. by rewrite decide_False by lia. }
    rewrite decide_True in Hsame by lia.
    destruct (dr_line _ _ _ _ (S (doc_y (tx_doc t))) Rd ltac:(lia)) as (a' & b' & Eb' & B').
    nx. eapply line_len_ok; [done|by replace (Z.to_nat (vm_cy v + 1)) with (S (doc_y (tx_doc t))) by lia|done|].
    unfold VIM_MAX_COL. unfold doc_join in Hsame. change (cur (tx_doc t)) with (line_of (doc_y (tx_doc t)) (tx_doc t)) in *.
    destruct (Z.ltb_spec (Z.of_nat (length (line_of (doc_y (tx_doc t)) (tx_doc t))) +
      Z.of_nat (length (line_of (S (doc_y (tx_doc t))) (tx_doc t)))) 256) as [Hj|Hj].
    2: { apply ok_ret, Hsame. by rewrite decide_False by (rewrite length_app; unfold COLS; lia). }
    nx. eapply (join_lines_ok (doc_y (tx_doc t))); [exact A|done|lia|lia|lia|unfold COLS; lia|]. intros a2 b2 s2 A2 B2.
    eapply make_dirty_ok; [exact A2|]. intros s3 A3. apply HQ. eexists. split; [exact A3|].
    apply (rep_doc _ _ _ (vm_cx v) (vm_cy v) true doc_delete R). unfold doc_delete, last_line, doc_join, cur.
    rewrite decide_False by lia. rewrite decide_True by lia. rewrite decide_True by (rewrite length_app; unfold COLS; lia).
    eapply (dr_replaced _ _ _ _ _ _ _ _ 0 _ _ _ _ Rd); [lia|constructor; [by exists a2, b2|done]|cbn [length]; unfold LINES in *; lia|cbn; lia| |lia..].
    cbn. rewrite length_app. lia.
Qed.

Lemma clear_line_ok s v t (Q : unit -> ed D -> Prop) : at_vim s v -> rep v t ->
  (forall s', shows s' (on_doc clear_cur t) -> Q tt s') -> ok (clear_line (vm_cy v)) s Q.
Proof.
  intros A R HQ. pose proof (rp_doc _ _ R) as Rd. unfold clear_line. nx.
  eapply (end_line_ok 0); [exact A|done|lia|done|]. intros a b s1 A1 B1. nx. eapply set_x_ok; [exact A1|]. intros s2 A2.
  eapply make_dirty_ok; [exact A2|]. intros s3 A3. apply HQ. eexists. split; [exact A3|].
  apply (rep_doc _ _ _ _ _ true clear_cur R). change 0 with (Z.of_nat 0). by eapply dr_set_cur.
Qed.

Lemma delete_line_ok s v t (Q : unit -> ed D -> Prop) : at_vim s v -> rep v t ->
  (forall s', shows s' (on_doc doc_delete_line t) -> Q tt s') -> ok (delete_line (vm_cy v)) s Q.
Proof.
  intros A R HQ. pose proof (rp_doc _ _ R) as Rd. pose proof Rd as [Hls Hn Hy Hx Ex Ey].
  pose proof (dr_length _ _ _ _ Rd) as Hln. unfold delete_line. vg A. unfold nlines at 1. rewrite Hln.
  destruct (Z.eqb_spec (Z.of_nat (length (doc_lines (tx_doc t)))) 1) as [E1|E1].
  - nx. assert (vm_cy v = 0) as E0 by lia. rewrite <- E0 at 1. eapply (end_line_ok 0); [exact A|done|lia|done|]. intros a b s1 A1 B1.
    nx. eapply set_x_ok; [exact A1|]. intros s2 A2.
    eapply make_dirty_ok; [exact A2|]. intros s3 A3. apply HQ. eexists. split; [exact A3|].
    apply (rep_doc _ _ _ _ _ true doc_delete_line R). unfold doc_delete_line. rewrite decide_True by lia.
    assert (mk_doc [[]] 0 0 = set_cur [] 0 (tx_doc t)) as ->.
    { unfold set_cur. replace (doc_y (tx_doc t)) with 0%nat by lia. f_equal. destruct (doc_lines (tx_doc t)) as [|? [|]]; cbn in *; done || lia. }
    change 0 with (Z.of_nat 0) at 1. by eapply dr_set_cur.
  - nx. eapply free_line_ok; [exact A|]. intros s1 A1. nx. eapply remove_ptr_ok; [exact A1|unfold nlines; lia|]. intros s2 A2.
    vg A2. nx. eapply ok_vset; [exact A2|]. intros s3 A3. eapply make_dirty_ok; [exact A3|]. intros s4 A4. apply HQ.
    eexists. split; [exact A4|]. apply (rep_doc _ _ _ _ _ true doc_delete_line R). unfold doc_delete_line.
    rewrite decide_False by lia. unfold nlines. cbn [vm_buf set_buf vm_cy].
    assert (length (replace (doc_y (tx_doc t)) 1 [] (tx_doc t)) = length (doc_lines (tx_doc t)) - 1)%nat as Elr.
    { rewrite length_replace by lia. cbn. lia. }
    assert (take (Z.to_nat (vm_cy v)) (vm_buf v) ++ drop (S (Z.to_nat (vm_cy v))) (vm_buf v) =
            take (doc_y (tx_doc t)) (vm_buf v) ++ [] ++ drop (doc_y (tx_doc t) + 1) (vm_buf v)) as Eb.
    { rewrite Ey, Nat2Z.id. cbn [app]. by rewrite Nat.add_1_r. }
    rewrite Eb. split; cbn [doc_lines doc_x doc_y]; try done; rewrite ?Elr; try lia.
    + apply dr_replace; [apply R|done].
    + rewrite length_app, length_take, length_app, length_drop, Hln. cbn [length].
      destruct (Z.leb_spec (Z.of_nat (doc_y (tx_doc t) `min` length (doc_lines (tx_doc t)) + (0 + (length (doc_lines (tx_doc t)) - (doc_y (tx_doc t) + 1))))) (vm_cy v)); lia.
Qed.

Lemma delete_to_eol_ok s t (Q : unit -> ed D -> Prop) : shows s t ->
  (forall s', shows s' (on_doc doc_delete_eol t) -> Q tt s') -> ok delete_to_eol s Q.
Proof.
  intros (v & A & R) HQ. pose proof (rp_doc _ _ R) as Rd. pose proof Rd as [_ Hn Hy Hx Ex Ey].
  destruct (dr_cur _ _ _ _ Rd) as (a & b & Eb & B). unfold delete_to_eol. vg A. nx. eapply line_len_ok; [done..|].
  destruct (Z.leb_spec (Z.of_nat (length (cur (tx_doc t)))) (vm_cx v)) as [Hl|Hl].
  { apply ok_ret, HQ. exists v. rewrite on_doc_same; [done|]. unfold doc_delete_eol. by rewrite decide_False by lia. }
  nx. eapply (end_line_ok (doc_x (tx_doc t))); [exact A|done|lia|done|]. intros a1 b1 s1 A1 B1.
  assert (doc_rep (<[Z.to_nat (vm_cy v) := Some (a1, b1)]> (vm_buf v)) (Z.of_nat (pred (doc_x (tx_doc t)))) (vm_cy v)
    (set_cur (take (doc_x (tx_doc t)) (cur (tx_doc t))) (pred (doc_x (tx_doc t))) (tx_doc t))) as Rn.
  { eapply dr_set_cur; [exact Rd|exact B1|]. rewrite length_take. lia. }
  nx. destruct (Z.ltb_spec 0 (vm_cx v)) as [Hp|Hp].
  - eapply set_x_ok; [exact A1|]. intros s2 A2. eapply make_dirty_ok; [exact A2|]. intros s3 A3. apply HQ.
    eexists. split; [exact A3|]. apply (rep_doc _ _ _ _ _ true doc_delete_eol R). unfold doc_delete_eol. rewrite decide_True by lia.
    cbn [vm_cy set_buf]. by replace (vm_cx v - 1) with (Z.of_nat (pred (doc_x (tx_doc t)))) by lia.
  - apply ok_ret. eapply make_dirty_ok; [exact A1|]. intros s3 A3. apply HQ.
    eexists. split; [exact A3|]. apply (rep_doc _ _ _ (vm_cx v) (vm_cy v) true doc_delete_eol R). unfold doc_delete_eol. rewrite decide_True by lia.
    by replace (vm_cx v) with (Z.of_nat (pred (doc_x (tx_doc t)))) by lia.
Qed.
End Edits2.

Section Edits3.
Context {D : Type} `{Kernel D, Console D}.
Implicit Types (s : ed D) (v : vim) (t : text) (d : doc).

(** *** Messages *)

Lemma rep_msg v t m : rep v t -> length m = 80%nat -> rep (set_vmsg m v) t.
Proof. intros [] Hm. by split. Qed.

Lemma length_strncpy_at b l n : length (strncpy_at b l n) = length b.
Proof. apply length_put. Qed.

Lemma set_msg_ok m s t (Q : unit -> ed D -> Prop) : shows s t -> (forall s', shows s' t -> Q tt s') -> ok (set_msg m) s Q.
Proof.
  intros (v & A & R) HQ. eapply ok_vset; [exact A|]. intros s' A'. apply HQ. eexists. split; [exact A'|].
  apply rep_msg; [done|]. rewrite CStrOk.length_st, length_strncpy_at. apply R.
Qed.

Lemma snprintf_ok b size fmt args : 0 < size <= Z.of_nat (length b) -> size < 2 ^ 32 -> is_Some (vprintf fmt args) ->
  exists b' r, snprintf (Some b) size fmt args = Some (Some b', r) /\ length b' = length b.
Proof.
  intros Hs Hw [[x y] E]. unfold snprintf, vsnprintf, vprintf in *.
  pose proof (format_step b size Hs Hw fmt [] args) as Hf. change (sent []) with (mk_outbuf None 0 0 0 true []) in Hf.
  destruct (format_loop fmt args (mk_outbuf None 0 0 0 true [])) as [out|]; [|done]. destruct Hf as (u & -> & Hf).
  assert (buffered b size [] = mk_outbuf (Some b) size 0 0 false []) as Eb.
  { unfold buffered. rewrite take_nil. unfold put, splice. rewrite take_nil. simpl. by rewrite drop_0. }
  rewrite Eb in Hf. rewrite Hf. cbn [mbind option_bind buffered ob_buf]. rewrite (proj2 (Z.ltb_lt 0 size)) by lia.
  eexists _, _. split; [reflexivity|]. by rewrite !length_put.
Qed.

Lemma msg_printf_ok fmt args s t (Q : unit -> ed D -> Prop) : shows s t -> is_Some (vprintf fmt args) ->
  (forall s', shows s' t -> Q tt s') -> ok (msg_printf fmt args) s Q.
Proof.
  intros (v & A & R) Hf HQ. unfold msg_printf. vg A.
  destruct (snprintf_ok (vm_msg v) 80 fmt args) as (m & r & -> & Hm); [rewrite (rp_msg _ _ R); lia|done|done|].
  eapply ok_vset; [exact A|]. intros s' A'. apply HQ. eexists. split; [exact A'|]. apply rep_msg; [done|].
  rewrite Hm. apply R.
Qed.

(** *** Yanking, pasting, undoing *)

Lemma bu_strncpy b l : length b = 256%nat -> bytes_ok b -> text_ok l -> (length l <= 255)%nat ->
  buffer 256 (CStr.st (strncpy_at b l 255) 255 0) l.
Proof.
  intros Hl Hb Ht Hlen. unfold strncpy_at. rewrite take_ge by lia.
  assert (exists b0 z, b = b0 ++ [z] /\ length b0 = 255%nat) as (b0 & z & -> & Hl0).
  { destruct b as [|z b0 _] using rev_ind; [done|]. exists b0, z. rewrite length_app in Hl. cbn in Hl. split; [done|lia]. }
  change (b0 ++ [z]) with ([] ++ b0 ++ [z]).
  rewrite (put_at [] b0) by (rewrite ?length_app, ?length_replicate; cbn; lia). cbn [app].
  assert (length (l ++ replicate (255 - length l) 0) = 255%nat) as H255 by (rewrite length_app, length_replicate; lia).
  replace 255 with (Z.of_nat (length (l ++ replicate (255 - length l) 0))) by lia.
  rewrite (bu_st _ (l ++ replicate (255 - length l) 0) [] z 0) by done. change (u8 0) with 0. rewrite <- (assoc_L (++)).
  assert (replicate (255 - length l) 0 ++ [0] = 0 :: replicate (255 - length l) 0) as E2.
  { change [0] with (replicate 1 0). rewrite <- replicate_add, Nat.add_comm. done. }
  rewrite E2. eapply bu_intro; [done| | |done].
  - rewrite length_app. cbn [length]. rewrite length_replicate. lia.
  - apply Forall_app_2; [by apply line_bytes|]. constructor; [unfold is_u8; lia|]. apply Forall_replicate. unfold is_u8. lia.
Qed.

Lemma yank_line_ok s v t (Q : unit -> ed D -> Prop) : at_vim s v -> rep v t ->
  (forall s' v', at_vim s' v' -> rep v' (yank_cur t) -> vm_cy v' = vm_cy v -> Q tt s') -> ok (yank_line (vm_cy v)) s Q.
Proof.
  intros A R HQ. destruct (dr_cur _ _ _ _ (rp_doc _ _ R)) as (a & b & Eb & B). pose proof (bu_fits _ _ B).
  unfold yank_line. nx. eapply line_text_ok; [done..|]. eapply ok_vset; [exact A|]. intros s' A'. eapply HQ; [exact A'| |done].
  destruct R as [R1 R2 R3 R4 (Y1 & Y2 & Y3) R6 R7 R8].
  assert (buffer 256 (CStr.st (strncpy_at (vm_yank v) (cur (tx_doc t)) 255) 255 0) (cur (tx_doc t))) as By
    by (apply bu_strncpy; [done|done|apply B|lia]).
  split; try done. cbn. split; [apply By|]. split; [apply By|done].
Qed.

Lemma copy_lines_ok buf ls : Forall2 line_rep buf ls -> forall s v (Q : list line_ptr -> ed D -> Prop), at_vim s v ->
  (forall u s', at_vim s' v -> Forall2 line_rep u ls -> Q u s') -> ok (copy_lines buf) s Q.
Proof.
  induction 1 as [|p l buf ls (a & b & -> & B) _ IH]; intros s v Q A HQ; cbn [copy_lines]; [by apply ok_ret, HQ|].
  nx. unfold copy_line. nx. apply ok_check; [by eapply bu_nul|]. rewrite (bu_cstr _ _ B). pose proof (bu_fits _ _ B).
  pose proof B as [[junk Eb] _ _ Ht].
  eapply lalloc_ok; [exact A|exact Eb|done|done|done|]. intros a1 b1 s1 A1 B1. nx. eapply IH; [exact A1|]. intros u s2 A2 Hu.
  apply ok_ret, HQ; [done|]. constructor; [by exists a1, b1|done].
Qed.

Lemma save_undo_ok s v t (Q : unit -> ed D -> Prop) : at_vim s v -> rep v t ->
  (forall s' u, at_vim s' (set_undo u (vm_cx v) (vm_cy v) true v) -> rep (set_undo u (vm_cx v) (vm_cy v) true v) (remember t) -> Q tt s') ->
  ok save_undo s Q.
Proof.
  intros A R HQ. unfold save_undo. vg A.
  assert (forall s1, at_vim s1 v -> ok (u ← copy_lines (vm_buf v); vset (set_undo u (vm_cx v) (vm_cy v) true)) s1 Q) as Hc.
  { intros s1 A1. nx. eapply copy_lines_ok; [apply (rp_doc _ _ R)|exact A1|]. intros u s2 A2 Hu. eapply ok_vset; [exact A2|].
    intros s3 A3. eapply HQ; [exact A3|]. destruct R as [[D1 D2 D3 D4 D5 D6] R2 R3 R4 R5 R6 R7 R8]. by split. }
  nx. destruct (vm_has_undo v); [|by apply ok_ret, Hc]. eapply free_lines_ok; [exact A|]. apply Hc.
Qed.

Lemma do_undo_ok s t (Q : unit -> ed D -> Prop) : shows s t -> (forall s', shows s' (go_back t) -> Q tt s') -> ok do_undo s Q.
Proof.
  intros (v & A & R) HQ. pose proof (rp_undo _ _ R) as Hu. unfold do_undo. vg A. unfold go_back in HQ.
  destruct (tx_undo t) as [d|].
  - destruct Hu as [-> Rd]. cbn [negb]. nx. eapply free_lines_ok; [exact A|]. intros s1 A1. nx. eapply ok_vset; [exact A1|].
    intros s2 A2. nx. eapply ok_vset; [exact A2|]. intros s3 A3. eapply set_msg_ok; [|exact HQ]. eexists. split; [exact A3|].
    destruct R as [R1 R2 R3 R4 R5 R6 R7 R8]. by split.
  - rewrite Hu. cbn [negb]. eapply set_msg_ok; [by exists v|exact HQ].
Qed.

Lemma paste_ok (above : bool) s t (Q : unit -> ed D -> Prop) : shows s t ->
  (forall s', shows s' (put_yank (negb above) t) -> Q tt s') -> ok (paste above) s Q.
Proof.
  intros (v & A & R) HQ. pose proof (rp_yank _ _ R) as (_ & _ & Hk). pose proof (rp_doc _ _ R) as Rd.
  pose proof Rd as [_ Hn Hy Hx Ex Ey]. pose proof (dr_length _ _ _ _ Rd) as Hln. unfold paste. vg A.
  unfold put_yank in HQ. destruct (tx_yank t) as [l|].
  2: { rewrite Hk. cbn [negb orb]. apply ok_ret, HQ. by exists v. }
  destruct Hk as [-> B]. cbn [negb orb]. unfold nlines at 1, VIM_MAX_LINES. rewrite Hln.
  destruct (Z.leb_spec 512 (Z.of_nat (length (doc_lines (tx_doc t))))) as [Hg|Hg].
  { apply ok_ret, HQ. exists v. rewrite on_doc_same; [done|]. unfold doc_put. rewrite decide_False by (unfold LINES; lia). done. }
  rewrite (bu_cstr _ _ B). pose proof (bu_fits _ _ B). pose proof B as [[junk Eb] _ _ Ht].
  nx. eapply lalloc_ok; [exact A|exact Eb|done|done|done|]. intros a b s1 A1 B1.
  pose (y := if negb above then S (doc_y (tx_doc t)) else doc_y (tx_doc t)).
  assert ((if above then vm_cy v else vm_cy v + 1) = Z.of_nat y) as Ey' by (unfold y; destruct above; cbn [negb]; lia).
  rewrite Ey'. assert (y <= length (doc_lines (tx_doc t)))%nat by (unfold y; destruct above; cbn [negb]; lia).
  nx. eapply insert_ptr_ok; [exact A1|unfold nlines, VIM_MAX_LINES; lia|]. intros s2 A2. nx. eapply ok_vset; [exact A2|].
  intros s3 A3. eapply make_dirty_ok; [exact A3|]. intros s4 A4. apply HQ. eexists. split; [exact A4|].
  apply (rep_doc _ _ _ _ _ true (fun d => doc_put (if negb above then S (doc_y d) else doc_y d) l d) R). fold y.
  unfold doc_put. rewrite decide_True by (unfold LINES; lia). rewrite Nat2Z.id, insert_ptr_shape.
  eapply (dr_replaced _ _ _ _ _ _ _ _ 0 _ _ _ _ Rd); [lia|constructor; [by exists a, b|done]|cbn [length]; unfold LINES in *; lia|cbn; lia|cbn; lia|lia..].
Qed.
End Edits3.

(** ** Movements *)

Section Moves.
Context {D : Type} `{Kernel D, Console D}.
Implicit Types (s : ed D) (v : vim) (t : text) (d : doc).

Lemma span_len_range f l : 0 <= span_len f l <= Z.of_nat (length l).
Proof. induction l as [|c l IH]; cbn [span_len length]; [lia|]. destruct (f c); lia. Qed.

Lemma word_len_le b l : (word_len b l <= length l)%nat.
Proof.
  unfold word_len. destruct l as [|c l]; [done|]. set (f := fun c' => _). pose proof (span_len_range f (c :: l)) as H1.
  destruct b; [|lia]. pose proof (span_len_range (Z.eqb 32) (drop (Z.to_nat (span_len f (c :: l))) (c :: l))) as H2.
  rewrite length_drop in H2. lia.
Qed.

Lemma back_blanks_le x l : (back_blanks x l <= x)%nat.
Proof. induction x as [|x IH]; cbn [back_blanks]; [done|]. case_match; lia. Qed.
Lemma back_word_le x w l : (back_word x w l <= x)%nat.
Proof. induction x as [|x IH]; cbn [back_word]; [done|]. case_match; lia. Qed.

Lemma rep_go v t x y : rep v t -> (y < length (doc_lines (tx_doc t)))%nat -> (x <= length (line_of y (tx_doc t)))%nat ->
  rep (set_cursor (Z.of_nat x) (Z.of_nat y) v) (on_doc (go x y) t).
Proof.
  intros R Hy Hx. eapply (rep_clean _ _ (vm_buf v) _ _ (go x y)) in R as R'; [by destruct v|]. eapply dr_go; [apply R|done|done].
Qed.

Lemma rep_go_to v t x y cx cy : rep v t -> (y < length (doc_lines (tx_doc t)))%nat -> (x <= length (line_of y (tx_doc t)))%nat ->
  cx = Z.of_nat x -> cy = Z.of_nat y -> rep (set_cursor cx cy v) (on_doc (go x y) t).
Proof. intros R Hy Hx -> ->. by apply rep_go. Qed.

(** The cursor goes to a place on the text. *)
Lemma set_cursor_ok cx cy x y s v t (Q : unit -> ed D -> Prop) : at_vim s v -> rep v t ->
  (y < length (doc_lines (tx_doc t)))%nat -> (x <= length (line_of y (tx_doc t)))%nat -> cx = Z.of_nat x -> cy = Z.of_nat y ->
  (forall s', shows s' (on_doc (go x y) t) -> Q tt s') -> ok (vset (set_cursor cx cy)) s Q.
Proof.
  intros A R Hy Hx Ex Ey HQ. eapply ok_vset; [exact A|]. intros s' A'. apply HQ. eexists. split; [exact A'|]. by apply rep_go_to.
Qed.
Lemma set_col_ok cx x s v t (Q : unit -> ed D -> Prop) : at_vim s v -> rep v t -> (x <= length (cur (tx_doc t)))%nat -> cx = Z.of_nat x ->
  (forall s', shows s' (on_doc (go x (doc_y (tx_doc t))) t) -> Q tt s') -> ok (set_x cx) s Q.
Proof.
  intros A R Hx -> HQ. eapply set_x_ok; [exact A|]. intros s' A'. apply HQ. eexists. split; [exact A'|].
  pose proof (rp_doc _ _ R) as [_ _ Hy _ _ Ey]. rewrite Ey. by apply rep_go.
Qed.

Lemma clamp_cx_ok x y s v t (Q : unit -> ed D -> Prop) : at_vim s (set_cursor (Z.of_nat x) (Z.of_nat y) v) -> rep v t ->
  (y < length (doc_lines (tx_doc t)))%nat ->
  (forall s', shows s' (on_doc (fun d => clamped (tx_mode t) (go x y d)) t) -> Q tt s') -> ok clamp_cx s Q.
Proof.
  intros A R Hy HQ. pose proof (rp_doc _ _ R) as Rd. destruct (dr_line _ _ _ _ y Rd Hy) as (a & b & Eb & B).
  unfold clamp_cx. vg A. nx. eapply line_len_ok; [exact A|cbn; by rewrite Nat2Z.id|done|]. vg A. vg A. cbn [vm_mode set_cursor vm_cx].
  rewrite (rp_mode _ _ R). set (m := if bool_decide (tx_mode t = INSERT) then length (line_of y (tx_doc t)) else pred (length (line_of y (tx_doc t)))).
  assert ((if bool_decide (tx_mode t = INSERT) then Z.of_nat (length (line_of y (tx_doc t)))
    else if 0 <? Z.of_nat (length (line_of y (tx_doc t))) then Z.of_nat (length (line_of y (tx_doc t))) - 1 else 0) = Z.of_nat m) as ->.
  { unfold m. case_bool_decide; [done|]. destruct (Z.ltb_spec 0 (Z.of_nat (length (line_of y (tx_doc t))))); lia. }
  assert (m <= length (line_of y (tx_doc t)))%nat as Hm by (unfold m; case_bool_decide; lia).
  assert (rep (set_cursor (Z.of_nat (min x m)) (Z.of_nat y) v) (on_doc (fun d => clamped (tx_mode t) (go x y d)) t)) as Hr.
  { eapply (rep_go_to _ _ (min x m) y); [done|done|lia|done|done]. }
  destruct (Z.ltb_spec (Z.of_nat m) (Z.of_nat x)) as [Hl|Hl].
  - eapply set_x_ok; [exact A|]. intros s' A'. apply HQ. eexists. split; [exact A'|]. by replace m with (min x m) at 1 by lia.
  - apply ok_ret, HQ. eexists. split; [exact A|]. by replace x with (min x m) at 1 by lia.
Qed.

Lemma set_y_clamp_ok cy y s v t (Q : unit -> ed D -> Prop) : at_vim s v -> rep v t ->
  (y < length (doc_lines (tx_doc t)))%nat -> cy = Z.of_nat y ->
  (forall s', shows s' (on_doc (fun d => clamped (tx_mode t) (go (doc_x (tx_doc t)) y d)) t) -> Q tt s') ->
  ok (_ ← set_y cy; clamp_cx) s Q.
Proof.
  intros A R Hy -> HQ. nx. eapply ok_vset; [exact A|]. intros s1 A1.
  pose proof (rp_doc _ _ R) as [_ _ _ _ Ex _]. rewrite Ex in A1. by eapply clamp_cx_ok.
Qed.

Lemma first_nonblank_ok s v t (Q : unit -> ed D -> Prop) : at_vim s v -> rep v t ->
  (forall s', shows s' (on_doc nonblank t) -> Q tt s') -> ok (first_nonblank (vm_cy v)) s Q.
Proof.
  intros A R HQ. destruct (dr_cur _ _ _ _ (rp_doc _ _ R)) as (a & b & Eb & B). unfold first_nonblank. nx.
  eapply line_text_ok; [done..|]. pose proof (span_len_range (Z.eqb 32) (cur (tx_doc t))). eapply set_col_ok; [exact A|exact R| | |exact HQ]; lia.
Qed.

Lemma move_word_fwd_ok s t (Q : unit -> ed D -> Prop) : shows s t -> (forall s', shows s' (on_doc doc_word t) -> Q tt s') -> ok move_word_fwd s Q.
Proof.
  intros (v & A & R) HQ. pose proof (rp_doc _ _ R) as Rd. pose proof Rd as [_ Hn Hy Hx Ex Ey]. pose proof (dr_length _ _ _ _ Rd) as Hln.
  destruct (dr_cur _ _ _ _ Rd) as (a & b & Eb & B). unfold move_word_fwd. vg A. nx. eapply line_text_ok; [done..|].
  cbv zeta. rewrite Ex, Nat2Z.id. pose proof (length_drop (cur (tx_doc t)) (doc_x (tx_doc t))) as El.
  assert (doc_word (tx_doc t) = match drop (doc_x (tx_doc t)) (cur (tx_doc t)) with
    | [] => if decide (doc_y (tx_doc t) < last_line (tx_doc t))%nat then go 0 (S (doc_y (tx_doc t))) (tx_doc t) else tx_doc t
    | rest => go (doc_x (tx_doc t) + word_len true rest) (doc_y (tx_doc t)) (tx_doc t) end) as Ew by done.
  destruct (drop (doc_x (tx_doc t)) (cur (tx_doc t))) as [|c rest].
  - unfold last_line in Ew. unfold nlines. rewrite Hln. destruct (Z.ltb_spec (vm_cy v + 1) (Z.of_nat (length (doc_lines (tx_doc t))))) as [Hc|Hc].
    + rewrite decide_True in Ew by lia. eapply (set_cursor_ok _ _ 0 (S (doc_y (tx_doc t)))); [exact A|exact R|lia|lia|done|lia|].
      intros s' S'. apply HQ. unfold on_doc in *. by rewrite Ew.
    + rewrite decide_False in Ew by lia. apply ok_ret, HQ. exists v. by rewrite on_doc_same.
  - pose proof (word_len_le true (c :: rest)) as Hwl. unfold word_len in Ew, Hwl. cbn [length] in *.
    set (f := fun c' => eqb (is_word_char c') (is_word_char c)) in *. pose proof (span_len_range f (c :: rest)) as H1.
    pose proof (span_len_range (Z.eqb 32) (drop (Z.to_nat (span_len f (c :: rest))) (c :: rest))) as H2.
    eapply set_col_ok; [exact A|exact R| | |intros s' S'; apply HQ; unfold on_doc in *; rewrite Ew; exact S']; lia.
Qed.

Lemma move_word_back_ok s t (Q : unit -> ed D -> Prop) : shows s t -> (forall s', shows s' (on_doc doc_word_back t) -> Q tt s') -> ok move_word_back s Q.
Proof.
  intros (v & A & R) HQ. pose proof (rp_doc _ _ R) as Rd. pose proof Rd as [_ Hn Hy Hx Ex Ey].
  destruct (dr_cur _ _ _ _ Rd) as (a & b & Eb & B). unfold move_word_back. vg A.
  assert (on_doc doc_word_back t = on_doc (fun d => match doc_x (tx_doc t), doc_y (tx_doc t) with
    | S x, _ => let x := back_blanks x (cur d) in go (back_word x (is_word_char (byte_at (cur d) (Z.of_nat x))) (cur d)) (doc_y d) d
    | O, S y => go (pred (length (line_of y d))) y d
    | O, O => d end) t) as Ew by done. rewrite Ew in HQ. clear Ew.
  destruct (doc_x (tx_doc t)) as [|x] eqn:Edx.
  - rewrite (proj2 (Z.ltb_ge 0 (vm_cx v))) by lia. destruct (doc_y (tx_doc t)) as [|y] eqn:Edy.
    + rewrite (proj2 (Z.ltb_ge 0 (vm_cy v))) by lia. apply ok_ret, HQ. exists v. by rewrite on_doc_same.
    + rewrite (proj2 (Z.ltb_lt 0 (vm_cy v))) by lia. destruct (dr_line _ _ _ _ y Rd ltac:(lia)) as (a' & b' & Eb' & B').
      nx. eapply line_len_ok; [exact A|by replace (Z.to_nat (vm_cy v - 1)) with y by lia|done|].
      eapply set_cursor_ok; [exact A|exact R| | | | |exact HQ]; [lia|lia| |lia].
      destruct (Z.ltb_spec 0 (Z.of_nat (length (line_of y (tx_doc t))))); lia.
  - rewrite (proj2 (Z.ltb_lt 0 (vm_cx v))) by lia. nx. eapply line_text_ok; [done..|].
    replace (Z.to_nat (vm_cx v - 1)) with x by lia.
    eapply set_col_ok; [exact A|exact R| |done|exact HQ].
    pose proof (back_blanks_le x (cur (tx_doc t))). pose proof (back_word_le (back_blanks x (cur (tx_doc t)))
      (is_word_char (byte_at (cur (tx_doc t)) (Z.of_nat (back_blanks x (cur (tx_doc t)))))) (cur (tx_doc t))). lia.
Qed.
End Moves.

(** ** Words, lines, searches *)

Section Searches.
Context {D : Type} `{Kernel D, Console D}.
Implicit Types (s : ed D) (v : vim) (t : text) (d : doc).

Lemma byte_at_mid (pre r : list Z) x : byte_at (pre ++ x :: r) (Z.of_nat (length pre)) = x.
Proof. unfold byte_at. rewrite Nat2Z.id. by rewrite lookup_app_r, Nat.sub_diag by lia. Qed.

Lemma cstr_at u : forall pre junk, text_ok u -> CStrOk.cstr (pre ++ u ++ 0 :: junk) (Z.of_nat (length pre)) u.
Proof.
  induction u as [|c u IH]; intros pre junk Ht; cbn [CStrOk.cstr app].
  - rewrite byte_at_mid, length_app. cbn [length]. split; [lia|done].
  - apply Forall_cons in Ht as [Hc Ht]. rewrite byte_at_mid. split; [lia|]. split; [unfold char_ok in Hc; lia|]. split; [done|].
    replace (Z.of_nat (length pre) + 1) with (Z.of_nat (length (pre ++ [c]))) by (rewrite length_app; cbn; lia).
    replace (pre ++ c :: u ++ 0 :: junk) with ((pre ++ [c]) ++ u ++ 0 :: junk) by (by rewrite <- (assoc_L (++))). by apply IH.
Qed.

(** Looking for the pattern in a line, from a column on. *)
Lemma find_in_ok ly from y x s v t (Q : option Z -> ed D -> Prop) : at_vim s v -> rep v t ->
  (y < length (doc_lines (tx_doc t)))%nat -> (x <= length (line_of y (tx_doc t)))%nat -> ly = Z.of_nat y -> from = Z.of_nat x ->
  tx_search t <> [] ->
  Q ((fun k => Z.of_nat (x + k)) <$> CStrOk.find_text (tx_search t) (drop x (line_of y (tx_doc t)))) s -> ok (find_in ly from) s Q.
Proof.
  intros A R Hy Hx -> -> Hp HQ. destruct (dr_line _ _ _ _ y (rp_doc _ _ R) Hy) as (a & b & Eb & B).
  destruct (rp_search _ _ R) as (_ & _ & _ & _ & Bs). specialize (Bs Hp). pose proof (bu_fits _ _ B).
  unfold find_in. nx. eapply line_ok; [exact A|by rewrite Nat2Z.id|]. vg A. apply ok_ret.
  pose proof B as [[j1 E1] Hl _ Ht]. pose proof Bs as [[j2 E2] _ _ Ht2].
  rewrite (CStrOk.strstr_find _ _ _ (drop x (line_of y (tx_doc t))) (tx_search t)); [| | |done].
  - erewrite option_fmap_ext; [exact HQ|]. intros k. cbn. lia.
  - pose proof (cstr_at (drop x (line_of y (tx_doc t))) (take x (line_of y (tx_doc t))) (j1 ++ vm_search v) ltac:(by apply Forall_drop)) as Hc.
    rewrite length_take_le, (assoc_L (++)), take_drop in Hc by lia. rewrite E1, <- (assoc_L (++)). exact Hc.
  - rewrite E2. by apply cstr_at.
Qed.

Lemma find_text_bound p l k : CStrOk.find_text p l = Some k -> (k <= length l)%nat.
Proof.
  revert k. induction l as [|c l IH]; intros k; cbn [CStrOk.find_text length]; case_decide; try (intros [= <-]; lia).
  destruct (CStrOk.find_text p l) as [j|]; [|done]. intros [= <-]. specialize (IH j eq_refl). lia.
Qed.
Lemma find_text_nil p : p <> [] -> CStrOk.find_text p [] = None.
Proof. intros Hp. cbn. rewrite decide_False; [done|]. rewrite take_nil. congruence. Qed.

Lemma turn_bound d i : (1 <= length (doc_lines d))%nat -> (turn d i < length (doc_lines d))%nat.
Proof. intros Hn. apply Nat.mod_upper_bound. lia. Qed.
Lemma turn_Z v t i : rep v t -> (vm_cy v + Z.of_nat i) mod nlines v = Z.of_nat (turn (tx_doc t) i).
Proof.
  intros R. pose proof (rp_doc _ _ R) as Rd. unfold nlines, turn. rewrite (dr_length _ _ _ _ Rd), (dr_cy _ _ _ _ Rd), Nat2Z.inj_mod. f_equal. lia.
Qed.

(** The result of a search. *)
Definition found (r : option (nat * nat)) d : doc := match r with Some (y, x) => go x y d | None => d end.

(** The turns from [i] on. *)
Lemma search_turns_ok n : forall i s v t (Q : unit -> ed D -> Prop), at_vim s v -> rep v t -> tx_search t <> [] ->
  (forall s', shows s' (on_doc (fun d => found (find_first (tx_search t) (if decide (i = 0%nat) then S (doc_x (tx_doc t)) else 0) (turn (tx_doc t) <$> seq i n) (tx_doc t)) d) t) -> Q tt s') ->
  ok (search_turns (vm_cx v) (vm_cy v) (seqZ (Z.of_nat i) (Z.of_nat n))) s Q.
Proof.
  induction n as [|n IH]; intros i s v t Q A R Hp HQ.
  { cbn. eapply set_msg_ok; [by exists v|]. intros s' S'. apply HQ. cbn. by rewrite on_doc_same. }
  pose proof (rp_doc _ _ R) as Rd. pose proof Rd as [_ Hn Hy Hx Ex Ey].
  rewrite seqZ_cons by lia. cbn [search_turns]. vg A. cbv zeta. rewrite (turn_Z _ _ _ R).
  pose proof (turn_bound (tx_doc t) i ltac:(lia)) as Hb. set (y := turn (tx_doc t) i) in *.
  destruct (dr_line _ _ _ _ y Rd Hb) as (a & b & Eb & B). nx. eapply line_len_ok; [exact A|by rewrite Nat2Z.id|done|].
  replace (Z.succ (Z.of_nat i)) with (Z.of_nat (S i)) by lia. replace (Z.pred (Z.of_nat (S n))) with (Z.of_nat n) by lia.
  set (x := if decide (i = 0%nat) then S (doc_x (tx_doc t)) else 0%nat) in *.
  assert ((if Z.of_nat i =? 0 then vm_cx v + 1 else 0) = Z.of_nat x) as -> by (unfold x; case_decide; case Z.eqb_spec; lia).
  cbn [seq fmap list_fmap find_first] in HQ. fold y in HQ.
  destruct (Z.ltb_spec (Z.of_nat (length (line_of y (tx_doc t)))) (Z.of_nat x)) as [Hl|Hl].
  { rewrite (drop_ge _ x) in HQ by lia. rewrite find_text_nil in HQ by done. eapply (IH (S i)); [exact A|exact R|done|]. intros s'. rewrite (decide_False (P := S i = 0%nat)) by lia. apply HQ. }
  nx. eapply (find_in_ok _ _ y x); [exact A|exact R|done|lia|done|done|done|].
  destruct (CStrOk.find_text (tx_search t) (drop x (line_of y (tx_doc t)))) as [k|] eqn:Ef; cbn [fmap option_fmap option_map].
  - pose proof (find_text_bound _ _ _ Ef) as Hk. rewrite length_drop in Hk. nx.
    eapply (set_cursor_ok _ _ (x + k) y); [exact A|exact R|done|lia|done|done|]. intros s' S'. eapply set_msg_ok; [exact S'|exact HQ].
  - eapply (IH (S i)); [exact A|exact R|done|]. intros s'. rewrite (decide_False (P := S i = 0%nat)) by lia. apply HQ.
Qed.

Lemma search_next_ok s t (Q : unit -> ed D -> Prop) : shows s t ->
  (forall s', shows s' (match tx_search t with [] => t | p => on_doc (doc_search_next p) t end) -> Q tt s') -> ok search_next s Q.
Proof.
  intros (v & A & R) HQ. destruct (rp_search _ _ R) as (_ & _ & El & _ & _). unfold search_next. vg A. rewrite El.
  destruct (tx_search t) as [|c p] eqn:Ep; cbn [length].
  { change (Z.of_nat 0 =? 0) with true. cbv iota. eapply set_msg_ok; [by exists v|exact HQ]. }
  rewrite (proj2 (Z.eqb_neq _ 0)) by lia. replace (nlines v + 1) with (Z.of_nat (S (length (doc_lines (tx_doc t)))))
    by (unfold nlines; rewrite (dr_length _ _ _ _ (rp_doc _ _ R)); lia).
  eapply (search_turns_ok _ 0); [exact A|exact R|by rewrite Ep|]. rewrite Ep. intros s' S'. apply HQ. exact S'.
Qed.

Lemma first_turns_ok n : forall i s v t (Q : unit -> ed D -> Prop), at_vim s v -> rep v t -> tx_search t <> [] ->
  (forall s', shows s' (on_doc (fun d => found (find_first (tx_search t) 0 (turn (tx_doc t) <$> seq i n) (tx_doc t)) d) t) -> Q tt s') ->
  ok (first_turns (vm_cy v) (seqZ (Z.of_nat i) (Z.of_nat n))) s Q.
Proof.
  induction n as [|n IH]; intros i s v t Q A R Hp HQ.
  { cbn. eapply set_msg_ok; [by exists v|]. intros s' S'. apply HQ. cbn. by rewrite on_doc_same. }
  pose proof (rp_doc _ _ R) as Rd. pose proof Rd as [_ Hn Hy Hx Ex Ey].
  rewrite seqZ_cons by lia. cbn [first_turns]. vg A. cbv zeta. rewrite (turn_Z _ _ _ R).
  pose proof (turn_bound (tx_doc t) i ltac:(lia)) as Hb. set (y := turn (tx_doc t) i) in *.
  replace (Z.succ (Z.of_nat i)) with (Z.of_nat (S i)) by lia. replace (Z.pred (Z.of_nat (S n))) with (Z.of_nat n) by lia.
  specialize (IH (S i)). cbn [seq fmap list_fmap find_first] in HQ. fold y in HQ.
  nx. eapply (find_in_ok _ _ y 0); [exact A|exact R|done|lia|done|done|done|].
  destruct (CStrOk.find_text (tx_search t) (drop 0 (line_of y (tx_doc t)))) as [k|] eqn:Ef; cbn [fmap option_fmap option_map].
  - pose proof (find_text_bound _ _ _ Ef) as Hk. rewrite length_drop in Hk. nx.
    eapply (set_cursor_ok _ _ k y); [exact A|exact R|done|lia|done|done|]. intros s' S'. eapply set_msg_ok; [exact S'|exact HQ].
  - by eapply IH.
Qed.

Lemma search_first_ok s t (Q : unit -> ed D -> Prop) : shows s t ->
  (forall s', shows s' (match tx_search t with [] => t | p => on_doc (doc_search_first p) t end) -> Q tt s') -> ok search_first s Q.
Proof.
  intros (v & A & R) HQ. destruct (rp_search _ _ R) as (_ & _ & El & _ & _). unfold search_first. vg A. rewrite El.
  destruct (tx_search t) as [|c p] eqn:Ep; cbn [length].
  { change (Z.of_nat 0 =? 0) with true. cbv iota. apply ok_ret, HQ. by exists v. }
  rewrite (proj2 (Z.eqb_neq _ 0)) by lia. unfold nlines. rewrite (dr_length _ _ _ _ (rp_doc _ _ R)).
  eapply (first_turns_ok _ 0); [exact A|exact R|by rewrite Ep|]. rewrite Ep. intros s' S'. apply HQ. exact S'.
Qed.
End Searches.

Section Searches2.
Context {D : Type} `{Kernel D, Console D}.
Implicit Types (s : ed D) (v : vim) (t : text) (d : doc).

Lemma find_text_zero p u : CStrOk.find_text p u = Some 0%nat <-> take (length p) u = p.
Proof.
  destruct u as [|c u]; cbn [CStrOk.find_text]; case_decide as E; try done.
  split; [|done]. destruct (CStrOk.find_text p u); done.
Qed.

Lemma find_back_ok y n s v t (Q : option Z -> ed D -> Prop) : at_vim s v -> rep v t -> (y < length (doc_lines (tx_doc t)))%nat ->
  (n <= length (line_of y (tx_doc t)))%nat -> tx_search t <> [] ->
  Q (Z.of_nat <$> find_last (tx_search t) (line_of y (tx_doc t)) n) s -> ok (find_back (Z.of_nat y) (rev (seqZ 0 (Z.of_nat n)))) s Q.
Proof.
  intros A R Hy. revert Q. induction n as [|n IH]; intros Q Hn Hp HQ; [by apply ok_ret|].
  replace (Z.of_nat (S n)) with (Z.of_nat n + 1) by lia. rewrite seqZ_app by lia. change (seqZ (0 + Z.of_nat n) 1) with [0 + Z.of_nat n].
  rewrite rev_app_distr. cbn [rev app find_back]. rewrite Z.add_0_l.
  nx. eapply (find_in_ok _ _ y n); [exact A|exact R|done|lia|done|done|done|]. cbn [find_last] in HQ.
  pose proof (find_text_zero (tx_search t) (drop n (line_of y (tx_doc t)))) as Hz.
  case_bool_decide as E; case_decide as E'.
  - by apply ok_ret.
  - exfalso. apply E', Hz. destruct (CStrOk.find_text _ _) as [k|]; [|done]. cbn in E. injection E as E. f_equal. lia.
  - exfalso. apply E. rewrite (proj2 Hz E'). cbn. by rewrite Nat.add_0_r.
  - apply IH; [lia|done|done].
Qed.

Lemma back_turns_ok n : forall i s v t (Q : unit -> ed D -> Prop), at_vim s v -> rep v t -> tx_search t <> [] ->
  (i + n <= S (length (doc_lines (tx_doc t))))%nat ->
  (forall s', shows s' (on_doc (fun d => found (find_before (tx_search t)
     ((fun i => (doc_y (tx_doc t) + length (doc_lines (tx_doc t)) - i) mod length (doc_lines (tx_doc t)))%nat <$> seq i n) (tx_doc t)) d) t) -> Q tt s') ->
  ok (back_turns (vm_cx v) (vm_cy v) (seqZ (Z.of_nat i) (Z.of_nat n))) s Q.
Proof.
  induction n as [|n IH]; intros i s v t Q A R Hp Hi HQ.
  { cbn. eapply set_msg_ok; [by exists v|]. intros s' S'. apply HQ. cbn. by rewrite on_doc_same. }
  pose proof (rp_doc _ _ R) as Rd. pose proof Rd as [_ Hn Hy Hx Ex Ey].
  rewrite seqZ_cons by lia. cbn [back_turns]. vg A. cbv zeta. cbn [seq fmap list_fmap find_before] in HQ.
  set (N := length (doc_lines (tx_doc t))) in *. set (y := ((doc_y (tx_doc t) + N - i) mod N)%nat) in *.
  assert ((vm_cy v + nlines v - Z.of_nat i) mod nlines v = Z.of_nat y) as ->.
  { unfold y, nlines. rewrite (dr_length _ _ _ _ Rd). fold N. rewrite Nat2Z.inj_mod. f_equal. lia. }
  assert (y < N)%nat as Hb by (apply Nat.mod_upper_bound; lia).
  destruct (dr_line _ _ _ _ y Rd Hb) as (a & b & Eb & B). nx. eapply line_len_ok; [exact A|by rewrite Nat2Z.id|done|].
  replace (Z.succ (Z.of_nat i)) with (Z.of_nat (S i)) by lia. replace (Z.pred (Z.of_nat (S n))) with (Z.of_nat n) by lia.
  assert (cur (tx_doc t) = line_of (doc_y (tx_doc t)) (tx_doc t)) as Ec by done.
  set (x := if decide (y = doc_y (tx_doc t)) then doc_x (tx_doc t) else length (line_of y (tx_doc t))) in *.
  assert (x <= length (line_of y (tx_doc t)))%nat as Hxl.
  { unfold x. case_decide as E; [|done]. rewrite E, <- Ec. done. }
  destruct (Z.eqb_spec (Z.of_nat (length (line_of y (tx_doc t)))) 0) as [E0|E0].
  { replace x with 0%nat in HQ by lia. cbn [find_last] in HQ. eapply (IH (S i)); [exact A|exact R|done|lia|exact HQ]. }
  nx. assert ((if Z.of_nat y =? vm_cy v then vm_cx v else Z.of_nat (length (line_of y (tx_doc t)))) = Z.of_nat x) as ->.
  { unfold x. rewrite Ey. case_decide; case Z.eqb_spec; lia. }
  eapply find_back_ok; [exact A|exact R|done|done|done|].
  destruct (find_last (tx_search t) (line_of y (tx_doc t)) x) as [k|] eqn:Ef; cbn [fmap option_fmap option_map].
  - assert (k <= x)%nat as Hk.
    { clear -Ef. revert k Ef. induction x as [|x IH]; intros k; cbn [find_last]; [done|]. case_decide; [intros [= <-]; lia|]. intros E%IH. lia. }
    nx. eapply (set_cursor_ok _ _ k y); [exact A|exact R|done|lia|done|done|]. intros s' S'. eapply set_msg_ok; [exact S'|exact HQ].
  - eapply (IH (S i)); [exact A|exact R|done|lia|exact HQ].
Qed.

Lemma search_prev_ok s t (Q : unit -> ed D -> Prop) : shows s t ->
  (forall s', shows s' (match tx_search t with [] => t | p => on_doc (doc_search_prev p) t end) -> Q tt s') -> ok search_prev s Q.
Proof.
  intros (v & A & R) HQ. destruct (rp_search _ _ R) as (_ & _ & El & _ & _). unfold search_prev. vg A. rewrite El.
  destruct (tx_search t) as [|c p] eqn:Ep; cbn [length].
  { change (Z.of_nat 0 =? 0) with true. cbv iota. eapply set_msg_ok; [by exists v|exact HQ]. }
  rewrite (proj2 (Z.eqb_neq _ 0)) by lia. unfold nlines. rewrite (dr_length _ _ _ _ (rp_doc _ _ R)).
  change (map (Z.add 1)) with (fmap (M := list) (Z.add 1)). rewrite fmap_add_seqZ. change (1 + 0) with (Z.of_nat 1).
  eapply (back_turns_ok _ 1); [exact A|exact R|by rewrite Ep|lia|]. rewrite Ep. intros s' S'. apply HQ. exact S'.
Qed.

(** *** Words and lines *)

Lemma cut_word_ok blanks len s v t (Q : unit -> ed D -> Prop) : at_vim s v -> rep v t -> len = Z.of_nat (length (cur (tx_doc t))) ->
  (forall s', shows s' (on_doc (cut_word_at blanks) t) -> Q tt s') -> ok (cut_word blanks (vm_cy v) len) s Q.
Proof.
  intros A R -> HQ. pose proof (rp_doc _ _ R) as Rd. pose proof Rd as [_ Hn Hy Hx Ex Ey].
  destruct (dr_cur _ _ _ _ Rd) as (a & b & Eb & B). unfold cut_word. vg A. nx. eapply line_text_ok; [done..|].
  cbv zeta. rewrite Ex, Nat2Z.id. pose proof (length_drop (cur (tx_doc t)) (doc_x (tx_doc t))) as El.
  pose proof (word_len_le blanks (drop (doc_x (tx_doc t)) (cur (tx_doc t)))) as Hw.
  assert (on_doc (cut_word_at blanks) t = on_doc (doc_cut (doc_x (tx_doc t)) (word_len blanks (drop (doc_x (tx_doc t)) (cur (tx_doc t))))) t) as Eq by done.
  rewrite Eq in HQ. clear Eq. destruct (drop (doc_x (tx_doc t)) (cur (tx_doc t))) as [|c rest] eqn:Er.
  { apply ok_ret, HQ. exists v. rewrite on_doc_same; [done|]. cbn [word_len]. unfold doc_cut. rewrite Nat.add_0_r, take_drop. by apply set_cur_same. }
  set (f := fun c' => eqb (is_word_char c') (is_word_char c)) in *.
  set (m := word_len blanks (c :: rest)) in *.
  assert (Z.of_nat (doc_x (tx_doc t)) + span_len f (c :: rest) + (if blanks then span_len (Z.eqb 32) (drop (Z.to_nat (span_len f (c :: rest))) (c :: rest)) else 0)
     = Z.of_nat (doc_x (tx_doc t) + m)) as ->.
  { unfold m, word_len. fold f. pose proof (span_len_range f (c :: rest)).
    pose proof (span_len_range (Z.eqb 32) (drop (Z.to_nat (span_len f (c :: rest))) (c :: rest))). destruct blanks; lia. }
  nx. eapply (cut_chars_ok (doc_x (tx_doc t)) m); [exact A|exact R|lia|done|done|done|]. intros a1 b1 s1 A1 B1.
  nx. eapply set_x_ok; [exact A1|]. intros s2 A2. eapply make_dirty_ok; [exact A2|]. intros s3 A3. apply HQ. eexists. split; [exact A3|].
  apply (rep_doc _ _ _ _ _ true (doc_cut (doc_x (tx_doc t)) m) R). unfold doc_cut. eapply dr_set_cur; [exact Rd|exact B1|].
  rewrite length_app, length_take. lia.
Qed.

Lemma rep_mode v t md : rep v t -> rep (set_vmode md v) (to_mode md t).
Proof. intros []. by split. Qed.
Lemma set_mode_ok md s t (Q : unit -> ed D -> Prop) : shows s t -> (forall s', shows s' (to_mode md t) -> Q tt s') -> ok (vset (set_vmode md)) s Q.
Proof. intros (v & A & R) HQ. eapply ok_vset; [exact A|]. intros s' A'. apply HQ. eexists. split; [exact A'|]. by apply rep_mode. Qed.

Lemma open_line_ok (below : bool) y s v t (Q : unit -> ed D -> Prop) : at_vim s v -> rep v t ->
  y = (if below then vm_cy v + 1 else vm_cy v) -> (forall s', shows s' (new_line below t) -> Q tt s') -> ok (open_line y) s Q.
Proof.
  intros A R Ey' HQ. pose proof (rp_doc _ _ R) as Rd. pose proof Rd as [_ Hn Hy Hx Ex Ey]. pose proof (dr_length _ _ _ _ Rd) as Hln.
  unfold open_line. vg A. unfold nlines, VIM_MAX_LINES. rewrite Hln. unfold new_line in HQ.
  destruct (Z.ltb_spec (Z.of_nat (length (doc_lines (tx_doc t)))) 512) as [Hg|Hg].
  2: { rewrite decide_False in HQ by (unfold LINES; lia). apply ok_ret, HQ. by exists v. }
  rewrite decide_True in HQ by (unfold LINES; lia).
  pose (y0 := if below then S (doc_y (tx_doc t)) else doc_y (tx_doc t)).
  assert (y = Z.of_nat y0) as -> by (unfold y0; destruct below; lia).
  assert (y0 <= length (doc_lines (tx_doc t)))%nat by (unfold y0; destruct below; lia).
  nx. eapply (lalloc_ok [] 0 [] []); [exact A|done|done|by constructor|cbn; lia|]. intros a b s1 A1 B1.
  nx. eapply insert_ptr_ok; [exact A1|unfold nlines, VIM_MAX_LINES; lia|]. intros s2 A2. nx. eapply ok_vset; [exact A2|].
  intros s3 A3. nx. eapply make_dirty_ok; [exact A3|]. intros s4 A4. eapply set_mode_ok; [|exact HQ]. eexists. split; [exact A4|].
  apply (rep_doc _ _ _ _ _ true (fun d => doc_put (if below then S (doc_y d) else doc_y d) [] d) R). fold y0.
  unfold doc_put. rewrite decide_True by (unfold LINES; lia). rewrite Nat2Z.id, insert_ptr_shape.
  eapply (dr_replaced _ _ _ _ _ _ _ _ 0 _ _ _ _ Rd); [lia|constructor; [by exists a, b|done]|cbn [length]; unfold LINES in *; lia|cbn; lia|cbn; lia|lia..].
Qed.
End Searches2.
