(* ===== verification/EditorKeys.v ===== *)
(** * The editor refines its text: commands and edits

    The command line, the search line and the keys of normal mode: what the buffers of
    Editor.v hold is the text of EditorText.v, and nothing undefined happens. *)

From Stdlib Require Import Ascii.
From stdpp Require Import strings.
From S2P Require Import Prelude Machine VfsTypes CLib Printf Vfs Keyboard Vga Task Syscall ShellLine.
From S2P Require Import Editor EditorText EditorLogic EditorRefine.

Section Keys.
Context {D : Type} `{Kernel D, Console D}.
Implicit Types (s : ed D) (v : vim) (t : text) (d : doc).

Lemma shows_intro s v t : at_vim s v -> rep v t -> shows s t.
Proof. by exists v. Qed.

(** ** Joining lines, saving *)

Lemma join_below_ok len s v t (Q : unit -> ed D -> Prop) : at_vim s v -> rep v t -> len = Z.of_nat (length (cur (tx_doc t))) ->
  (forall s', shows s' (if decide (doc_y (tx_doc t) < last_line (tx_doc t))%nat then on_doc doc_join_blank (remember t) else t) -> Q tt s') ->
  ok (join_below (vm_cy v) len) s Q.
Proof.
  intros A R -> HQ. pose proof (rp_doc _ _ R) as [_ Hn Hy Hx Ex Ey]. unfold last_line in HQ. unfold join_below. vg A.
  pose proof (dr_length _ _ _ _ (rp_doc _ _ R)) as Hln. unfold nlines at 1. rewrite Hln.
  destruct (Z.ltb_spec (vm_cy v + 1) (Z.of_nat (length (doc_lines (tx_doc t))))) as [Hc|Hc].
  2: { rewrite decide_False in HQ by lia. apply ok_ret, HQ. by exists v. }
  rewrite decide_True in HQ by lia. nx. eapply save_undo_ok; [exact A|exact R|]. intros s1 u A1 R1.
  remember (set_undo u (vm_cx v) (vm_cy v) true v) as v1 eqn:Ev1. pose proof (rp_doc _ _ R1) as Rd.
  assert (vm_cy v1 = vm_cy v /\ vm_buf v1 = vm_buf v) as [Ec1 Eb1] by (by subst v1). change (tx_doc (remember t)) with (tx_doc t) in Rd.
  destruct (dr_line _ _ _ _ (S (doc_y (tx_doc t))) Rd ltac:(lia)) as (a' & b' & Eb' & B').
  destruct (dr_cur _ _ _ _ Rd) as (a & b & Eb & B). rewrite Ec1 in Eb.
  assert (Z.to_nat (vm_cy v + 1) = S (doc_y (tx_doc t))) as Ey1 by lia. unfold VIM_MAX_COL.
  nx. eapply line_len_ok; [exact A1|by rewrite Ey1|done|]. pose proof (bu_fits _ _ B). pose proof (bu_fits _ _ B').
  destruct (Z.ltb_spec (Z.of_nat (length (cur (tx_doc t))) + Z.of_nat (length (line_of (S (doc_y (tx_doc t))) (tx_doc t))) + 1) 256) as [Hl|Hl].
  2: { apply ok_ret, HQ. exists v1. rewrite on_doc_same; [done|]. unfold doc_join_blank. cbn [tx_doc remember to_undo].
       by rewrite decide_False by (rewrite length_app; cbn; unfold COLS; lia). }
  nx. eapply line_ok; [exact A1|by rewrite Ey1|].
  nx. eapply put_char_ok; [exact A1|exact Eb|apply B|lia|]. intros s2 A2.
  nx. eapply copy_chars_ok; [exact A2|by cbn; rewrite list_lookup_insert_eq by (by eapply lookup_lt_Some)| |lia| |].
  { rewrite CStrOk.length_st. apply B. }
  { rewrite (bu_sub _ _ B'), length_app. cbn. lia. }
  intros s3 A3. nx. eapply free_line_ok; [exact A3|]. intros s4 A4. nx. eapply remove_ptr_ok; [exact A4| |].
  { unfold nlines. cbn. rewrite !length_insert, Eb1, Hln. lia. }
  intros s5 A5. nx. eapply set_x_ok; [exact A5|]. intros s6 A6. eapply make_dirty_ok; [exact A6|]. intros s7 A7. apply HQ.
  eexists. split; [exact A7|]. cbn [vm_buf set_buf vm_cy set_cursor]. rewrite list_insert_insert_eq, Ey1.
  replace (Z.to_nat (vm_cy v)) with (doc_y (tx_doc t)) in * by lia.
  rewrite (join_shape (vm_buf v1)) by (by eapply lookup_lt_Some). apply (rep_doc _ _ _ _ _ true doc_join_blank R1).
  unfold doc_join_blank. cbn [tx_doc remember to_undo]. rewrite decide_True by (rewrite length_app; cbn; unfold COLS; lia).
  eapply (dr_replaced _ _ _ _ _ _ _ _ 0 _ _ _ _ Rd); [lia| |cbn [length]; unfold LINES in *; lia|cbn; lia| |done|lia|lia].
  - constructor; [|done]. eexists _, _. split; [reflexivity|]. apply bu_append_blank; [done|done|lia].
  - cbn. rewrite length_app. lia.
Qed.


Lemma collect_ok buf ls : Forall2 line_rep buf ls -> forall s v (Q : list Z -> ed D -> Prop), at_vim s v ->
  Q (doc_bytes ls) s -> ok (collect buf) s Q.
Proof.
  induction 1 as [|p l buf ls (a & b & -> & B) _ IH]; intros s v Q A HQ; cbn [collect]; [by apply ok_ret|].
  nx. nx. apply ok_check; [by eapply bu_nul|]. apply ok_ret. rewrite (bu_cstr _ _ B). nx. eapply IH; [exact A|].
  apply ok_ret. unfold doc_bytes in *. cbn [fmap list_fmap concat] in HQ. by rewrite <- (assoc_L (++)) in HQ.
Qed.

Lemma save_file_ok s t (Q : Z -> ed D -> Prop) : shows s t -> (forall r s', shows s' t -> Q r s') -> ok save_file s Q.
Proof.
  intros (v & A & R) HQ. unfold save_file. vg A. nx. eapply collect_ok; [apply (rp_doc _ _ R)|exact A|].
  nx. eapply ok_on_sys; [exact A|]. intros [out|] s1 A1.
  2: { nx. eapply set_msg_ok; [by exists v|]. intros s2 S2. by apply ok_ret, HQ. }
  nx. eapply ok_on_sys; [exact A1|]. intros m s2 A2. destruct m; cbn [negb].
  2: { nx. eapply ok_on_sys; [exact A2|]. intros ? s3 A3. nx. eapply set_msg_ok; [by exists v|]. intros s4 S4. by apply ok_ret, HQ. }
  vg A2. nx. eapply ok_on_sys; [exact A2|]. intros r s3 A3. nx. eapply ok_on_sys; [exact A3|]. intros ? s4 A4. destruct r as [x|rc|].
  - nx. eapply ok_vset; [exact A4|]. intros s5 A5. vg A5. nx. eapply msg_printf_ok; [|by eexists|].
    { eexists. split; [exact A5|]. by apply rep_dirty. }
    intros s6 S6. by apply ok_ret, HQ.
  - nx. eapply msg_printf_ok; [by exists v|by eexists|]. intros s5 S5. by apply ok_ret, HQ.
  - apply ok_bind; [keeps_solve|]. by left.
Qed.
End Keys.

Section Commands.
Context {D : Type} `{Kernel D, Console D}.
Implicit Types (s : ed D) (v : vim) (t : text) (d : doc).

(** ** The command line and the search line *)

Lemma rep_running v t b : rep v t -> rep (set_running b v) t.
Proof. intros []. by split. Qed.
Lemma set_running_ok b s t (Q : unit -> ed D -> Prop) : shows s t -> (forall s', shows s' t -> Q tt s') -> ok (vset (set_running b)) s Q.
Proof. intros (v & A & R) HQ. eapply ok_vset; [exact A|]. intros s' A'. apply HQ. eexists. split; [exact A'|]. by apply rep_running. Qed.

Lemma rep_cmd v t b c rest n : rep v t -> length b = 80%nat -> bytes_ok b -> b = c ++ rest -> text_ok c -> (length c < 80)%nat ->
  n = Z.of_nat (length c) -> rep (set_cmd b n v) (to_cmd c t).
Proof. intros [] Hl Hb Eb Ht Hc ->. split; try done. cbn. split_and!; try done. by exists rest. Qed.

Lemma st_bytes b k c : bytes_ok b -> bytes_ok (CStr.st b k c).
Proof. intros Hb. by apply CStrOk.st_ok. Qed.

(** The end of a command. *)
Lemma leave_command_ok f s t t' (Q : unit -> ed D -> Prop) : shows s (on_doc f t) -> t' = to_cmd [] (to_mode NORMAL (on_doc f t)) ->
  (forall s', shows s' t' -> Q tt s') -> ok (vset (fun v => set_cmd (vm_cmd v) 0 (set_vmode NORMAL v))) s Q.
Proof.
  intros (v & A & R) -> HQ. eapply ok_vset; [exact A|]. intros s' A'. apply HQ. eexists. split; [exact A'|].
  destruct (rp_cmd _ _ R) as (L1 & _ & _ & _ & L2 & _).
  eapply rep_cmd; [by apply rep_mode|done|done|done|constructor|cbn; lia|done].
Qed.

Lemma on_doc_id t : on_doc id t = t.
Proof. by destruct t. Qed.

(** A command that is not about files: a line number or nothing. *)
Lemma goto_line_ok s v t (Q : unit -> ed D -> Prop) : at_vim s v -> rep v t -> tx_cmd t ∉ file_commands ->
  (forall s', shows s' (tx_exec t) -> Q tt s') ->
  ok (_ ← match cmd_number (tx_cmd t) 0 with
          | Some n =>
              if (0 <? vm_cmdlen v) && (1 <=? n) && (n <=? nlines v) then vset (set_cursor 0 (n - 1))
              else msg_printf (lit "Not an editor command: %s") [AText (Some (tx_cmd t))]
          | None => msg_printf (lit "Not an editor command: %s") [AText (Some (tx_cmd t))]
          end;
      vset (fun v => set_cmd (vm_cmd v) 0 (set_vmode NORMAL v))) s Q.
Proof.
  intros A R Hnin HQ. destruct (rp_cmd _ _ R) as (_ & En & _).
  assert (forall s', shows s' t -> tx_exec t = to_cmd [] (to_mode NORMAL (on_doc id t)) ->
    ok (vset (fun v => set_cmd (vm_cmd v) 0 (set_vmode NORMAL v))) s' Q) as Hid.
  { intros s' S' E. eapply (leave_command_ok id); [by rewrite on_doc_id|exact E|exact HQ]. }
  unfold tx_exec in *. rewrite bool_decide_eq_false_2 in * by done. rewrite on_doc_id in Hid.
  nx. destruct (cmd_number (tx_cmd t) 0) as [n|] eqn:Ecn.
  2: { eapply msg_printf_ok; [by exists v|by eexists|]. intros s' S'. by apply Hid. }
  unfold nlines. rewrite (dr_length _ _ _ _ (rp_doc _ _ R)), <- andb_assoc. cbn [tx_doc to_cmd to_mode] in *.
  destruct ((1 <=? n) && (n <=? Z.of_nat (length (doc_lines (tx_doc t))))) eqn:Er; rewrite ?andb_false_r, ?andb_true_r.
  - apply andb_true_iff in Er. rewrite !Z.leb_le in Er. rewrite (proj2 (Z.ltb_lt 0 _)).
    2: { rewrite En. destruct (tx_cmd t); [cbn in Ecn; injection Ecn as <-; lia|cbn; lia]. }
    eapply (set_cursor_ok _ _ 0 (Z.to_nat (n - 1))); [exact A|exact R|lia|lia|done|lia|]. intros s2 S2.
    eapply leave_command_ok; [exact S2| |exact HQ]. done.
  - eapply msg_printf_ok; [by exists v|by eexists|]. intros s' S'. by apply Hid.
Qed.

Lemma exec_cmd_ok s t (Q : unit -> ed D -> Prop) : shows s t -> (forall s', shows s' (tx_exec t) -> Q tt s') -> ok exec_cmd s Q.
Proof.
  intros (v & A & R) HQ. destruct (rp_cmd _ _ R) as (Hl & En & Hn & Ht & Hb & rest & Ec).
  destruct rest as [|x rest]; [rewrite Ec, app_nil_r in Hl; lia|].
  assert (CStr.st (vm_cmd v) (vm_cmdlen v) 0 = tx_cmd t ++ 0 :: rest) as Est by (rewrite En; by apply (bu_st _ _ _ x)).
  unfold exec_cmd. nx. eapply ok_vset; [exact A|]. intros s1 A1. rewrite Est in A1. vg A1. cbv zeta.
  cbn [vm_cmd set_cmd vm_dirty vm_cmdlen]. rewrite line_cstr by done.
  set (v1 := set_cmd (tx_cmd t ++ 0 :: rest) (vm_cmdlen v) v) in *.
  assert (rep v1 t) as R1.
  { assert (to_cmd (tx_cmd t) t = t) as <- by (by destruct t). eapply rep_cmd; [done| | |done|done|done|done].
    - rewrite Ec in Hl. rewrite length_app in *. cbn in *. lia.
    - rewrite <- Est. by apply st_bytes. }
  assert (shows s1 t) as S1 by (by exists v1).
  assert (forall s', shows s' t -> tx_cmd t ∈ file_commands -> ok (vset (fun v => set_cmd (vm_cmd v) 0 (set_vmode NORMAL v))) s' Q) as Hkeep.
  { intros s' S' Hin. eapply (leave_command_ok id); [by rewrite on_doc_id| |exact HQ].
    unfold tx_exec. by rewrite bool_decide_eq_true_2, on_doc_id by done. }
  assert (sub (tx_cmd t ++ 0 :: rest) 0 (vm_cmdlen v) = tx_cmd t) as ->.
  { unfold sub. by rewrite drop_0, En, Nat2Z.id, take_app_length. }
  assert (forall w, w ∈ file_commands -> bool_decide (tx_cmd t = w) = true -> tx_cmd t ∈ file_commands) as Hin.
  { intros w Hw E. apply bool_decide_eq_true in E. by rewrite E. }
  destruct (bool_decide (tx_cmd t = lit "w") || bool_decide (tx_cmd t = lit "write")) eqn:E1.
  { nx. nx. eapply save_file_ok; [exact S1|]. intros r s2 S2. apply ok_ret, Hkeep; [done|].
    apply orb_true_iff in E1 as [E|E]; (eapply Hin; [|exact E]); by repeat constructor. }
  destruct (bool_decide (tx_cmd t = lit "q") || bool_decide (tx_cmd t = lit "quit")) eqn:E2.
  { assert (tx_cmd t ∈ file_commands) by (apply orb_true_iff in E2 as [E|E]; (eapply Hin; [|exact E]); by repeat constructor).
    nx. destruct (vm_dirty v); [eapply set_msg_ok|eapply set_running_ok]; [exact S1|auto|exact S1|auto]. }
  destruct (bool_decide (tx_cmd t = lit "q!")) eqn:E3.
  { nx. eapply set_running_ok; [exact S1|]. intros s2 S2. apply Hkeep; [done|]. eapply Hin; [|exact E3]. by repeat constructor. }
  destruct (bool_decide (tx_cmd t = lit "wq") || bool_decide (tx_cmd t = lit "x") || bool_decide (tx_cmd t = lit "wq!")) eqn:E4.
  { assert (tx_cmd t ∈ file_commands).
    { rewrite !orb_true_iff in E4. destruct E4 as [[E|E]|E]; (eapply Hin; [|exact E]); by repeat constructor. }
    nx. nx. eapply save_file_ok; [exact S1|]. intros r s2 S2. destruct (r =? 0); [|by apply ok_ret, Hkeep].
    eapply set_running_ok; [exact S2|auto]. }
  eapply (goto_line_ok _ v1); [exact A1|exact R1| |exact HQ].
  apply orb_false_iff in E1, E2, E4. rewrite orb_false_iff in E4.
  rewrite !bool_decide_eq_false in E1. rewrite !bool_decide_eq_false in E2. rewrite !bool_decide_eq_false in E4. apply bool_decide_eq_false in E3.
  unfold file_commands. cbn [fmap list_fmap]. rewrite !elem_of_cons, elem_of_nil. tauto.
Qed.
End Commands.

Section Handlers.
Context {D : Type} `{Kernel D, Console D}.
Implicit Types (s : ed D) (v : vim) (t : text) (d : doc).

Lemma printable key : (32 <=? key) && (key <? 127) = true -> char_ok key.
Proof. rewrite andb_true_iff, Z.leb_le, Z.ltb_lt. unfold char_ok. lia. Qed.

Lemma handle_command_ok key s t (Q : unit -> ed D -> Prop) : shows s t -> (forall s', shows s' (tx_command key t) -> Q tt s') -> ok (handle_command key) s Q.
Proof.
  intros S0 HQ. pose proof S0 as (v & A & R). unfold handle_command. vg A. unfold tx_command in HQ.
  destruct (rp_cmd _ _ R) as (Hl & En & Hn & Ht & Hb & rest & Ec).
  destruct (key =? KEY_ESCAPE).
  { eapply (leave_command_ok id); [by rewrite on_doc_id|by rewrite on_doc_id|exact HQ]. }
  destruct (key =? KEY_ENTER); [by eapply exec_cmd_ok|].
  destruct (key =? KEY_BACKSPACE).
  { destruct (tx_cmd t) as [|c0 c] eqn:Et.
    { rewrite (proj2 (Z.ltb_ge 0 _)) by (cbn in En; lia). by eapply set_mode_ok. }
    rewrite (proj2 (Z.ltb_lt 0 _)) by (cbn in En; lia). eapply ok_vset; [exact A|]. intros s' A'. apply HQ. eexists. split; [exact A'|].
    eapply (rep_cmd _ _ _ _ (drop (pred (length (c0 :: c))) (c0 :: c) ++ rest)); [done|done|done| |by apply Forall_take| |].
    - by rewrite (assoc_L (++)), take_drop.
    - rewrite length_take. lia.
    - rewrite length_take_le; cbn in *; lia. }
  replace (vm_cmdlen v + 1 <? 80) with (bool_decide (length (tx_cmd t) < 79)%nat) by (case_bool_decide; case Z.ltb_spec; lia).
  destruct ((32 <=? key) && (key <? 127)) eqn:Ek; cbn [andb] in *; [|by apply ok_ret, HQ]. apply printable in Ek.
  case_bool_decide as Hr; [|by apply ok_ret, HQ].
  destruct rest as [|x rest]; [rewrite Ec, app_nil_r in Hl; lia|].
  assert (CStr.st (vm_cmd v) (vm_cmdlen v) key = (tx_cmd t ++ [key]) ++ rest) as Est.
  { rewrite En, (bu_st _ (tx_cmd t) rest x) by done. rewrite u8_small by (unfold char_ok, is_u8 in *; lia). by rewrite <- (assoc_L (++)). }
  eapply ok_vset; [exact A|]. intros s' A'. apply HQ. eexists. split; [exact A'|].
  eapply (rep_cmd _ _ _ _ rest); [done|by rewrite CStrOk.length_st|by apply st_bytes|done| |rewrite length_app; cbn; lia|rewrite length_app; cbn; lia].
  apply Forall_app_2; [done|]. by constructor.
Qed.

Lemma rep_search_line v t b p n : rep v t -> length b = 64%nat -> bytes_ok b -> n = Z.of_nat (length p) -> (length p < 64)%nat ->
  (p <> [] -> buffer 64 b p) -> rep (set_search b n v) (to_search p t).
Proof. intros [] Hl Hb -> Hp Hbu. by split. Qed.

Lemma handle_search_ok key s t (Q : unit -> ed D -> Prop) : shows s t -> (forall s', shows s' (tx_pattern key t) -> Q tt s') -> ok (handle_search key) s Q.
Proof.
  intros S0 HQ. pose proof S0 as (v & A & R). unfold handle_search. vg A. cbv zeta. unfold tx_pattern in HQ.
  destruct (rp_search _ _ R) as (Hl & Hb & En & Hn & Hbu). destruct (key =? KEY_ESCAPE).
  { eapply ok_vset; [exact A|]. intros s' A'. apply HQ. eexists. split; [exact A'|].
    eapply rep_search_line; [by apply rep_mode|done|done|done|cbn; lia|done]. }
  destruct (key =? KEY_ENTER).
  { nx. eapply ok_vset; [exact A|]. intros s1 A1.
    assert (shows s1 (to_mode NORMAL t)) as S1.
    { eexists. split; [exact A1|]. assert (to_mode NORMAL t = to_search (tx_search t) (to_mode NORMAL t)) as -> by (by destruct t).
      eapply rep_search_line; [by apply rep_mode|by rewrite CStrOk.length_st|by apply st_bytes|done|done|].
      intros Hp. specialize (Hbu Hp). rewrite En. rewrite <- (take_ge (tx_search t) (length (tx_search t))) at 2 by lia. by apply bu_trunc_at. }
    rewrite En. destruct (tx_search t) as [|c p] eqn:Ep; cbn [length].
    - change (0 <? Z.of_nat 0) with false. cbv iota. by apply ok_ret, HQ.
    - rewrite (proj2 (Z.ltb_lt 0 _)) by lia. eapply search_first_ok; [exact S1|]. cbn [tx_search to_mode]. by rewrite Ep. }
  destruct (key =? KEY_BACKSPACE).
  { rewrite En. destruct (tx_search t) as [|c p] eqn:Ep; cbn [length].
    - change (0 <? Z.of_nat 0) with false. cbv iota. by eapply set_mode_ok.
    - rewrite (proj2 (Z.ltb_lt 0 _)) by lia. eapply ok_vset; [exact A|]. intros s' A'. apply HQ. eexists. split; [exact A'|].
      assert (length (take (pred (length (c :: p))) (c :: p)) = length p) as Elp by (rewrite length_take; cbn; lia).
      eapply rep_search_line; [done|by rewrite CStrOk.length_st|by apply st_bytes|rewrite Elp; lia|rewrite Elp; cbn in Hn; lia|].
      intros _. replace (Z.of_nat (S (length p)) - 1) with (Z.of_nat (pred (length (c :: p)))) by (cbn; lia).
      apply bu_trunc_at; [by apply Hbu|cbn; lia]. }
  replace (vm_search_len v + 1 <? 64) with (bool_decide (length (tx_search t) < 63)%nat) by (case_bool_decide; case Z.ltb_spec; lia).
  destruct ((32 <=? key) && (key <? 127)) eqn:Ek; cbn [andb] in *; [|by apply ok_ret, HQ]. apply printable in Ek.
  case_bool_decide as Hr; [|by apply ok_ret, HQ].
  assert (exists x y rest, vm_search v = tx_search t ++ x :: y :: rest) as (x & y & rest & Es).
  { destruct (tx_search t) as [|c p] eqn:Ep.
    - destruct (vm_search v) as [|x [|y rest]]; [done|done|]. by exists x, y, rest.
    - destruct (Hbu ltac:(done)) as [[[|y rest] E] _ _ _]; [rewrite E, length_app in Hl; cbn in *; lia|]. by exists 0, y, rest. }
  assert (CStr.st (CStr.st (vm_search v) (vm_search_len v) key) (vm_search_len v + 1) 0 = (tx_search t ++ [key]) ++ 0 :: rest) as Est.
  { rewrite En, (bu_st _ (tx_search t) (y :: rest) x) by done. rewrite u8_small by (unfold char_ok, is_u8 in *; lia).
    replace (tx_search t ++ key :: y :: rest) with ((tx_search t ++ [key]) ++ y :: rest) by (by rewrite <- (assoc_L (++))).
    replace (Z.of_nat (length (tx_search t)) + 1) with (Z.of_nat (length (tx_search t ++ [key]))) by (rewrite length_app; cbn; lia).
    by rewrite (bu_st _ (tx_search t ++ [key]) rest y). }
  assert (text_ok (tx_search t)) as Ht by (destruct (tx_search t) eqn:E; [constructor|by apply Hbu]).
  eapply ok_vset; [exact A|]. intros s' A'. apply HQ. eexists. split; [exact A'|].
  eapply rep_search_line; [done|by rewrite !CStrOk.length_st|by apply st_bytes, st_bytes|rewrite length_app; cbn; lia|rewrite length_app; cbn; lia|].
  intros _. eapply bu_intro; [exact Est|by rewrite !CStrOk.length_st|by apply st_bytes, st_bytes|]. apply Forall_app_2; [done|]. by constructor.
Qed.
End Handlers.

Section Normal.
Context {D : Type} `{Kernel D, Console D}.
Implicit Types (s : ed D) (v : vim) (t : text) (d : doc).

(** [save_undo] in front of an edit: the text to go back to is remembered, the rest stays. *)
Lemma undo_first {A} (f : unit -> state (ed D) A) s v t (Q : A -> ed D -> Prop) : at_vim s v -> rep v t -> (forall a, keeps (f a)) ->
  (forall s' v', at_vim s' v' -> rep v' (remember t) -> vm_cy v' = vm_cy v -> vm_cx v' = vm_cx v -> ok (f tt) s' Q) ->
  ok (a ← save_undo; f a) s Q.
Proof.
  intros A0 R Hk HQ. apply ok_bind; [exact Hk|]. eapply save_undo_ok; [exact A0|exact R|]. intros s' u A' R'. by eapply HQ.
Qed.

(** Insert mode at the end of an edit. *)
Lemma edit_insert (m : state (ed D) unit) s t' (Q : unit -> ed D -> Prop) :
  (forall P : unit -> ed D -> Prop, (forall s', shows s' t' -> P tt s') -> ok m s P) ->
  (forall s', shows s' (to_mode INSERT t') -> Q tt s') -> ok (_ ← m; vset (set_vmode INSERT)) s Q.
Proof.
  intros Hm HQ. nx. apply Hm. intros s' S'. by eapply set_mode_ok.
Qed.

Lemma overwrite_ok key s v t (Q : unit -> ed D -> Prop) : at_vim s v -> rep v t -> char_ok key -> (doc_x (tx_doc t) < length (cur (tx_doc t)))%nat ->
  (forall s', shows s' (on_doc (doc_overwrite key) t) -> Q tt s') -> ok (_ ← put_char (vm_cy v) (vm_cx v) key; make_dirty) s Q.
Proof.
  intros A R Hk Hx HQ. pose proof (rp_doc _ _ R) as Rd. destruct (dr_cur _ _ _ _ Rd) as (a & b & Eb & B). pose proof (bu_fits _ _ B).
  pose proof Rd as [_ _ _ _ Ex Ey]. nx. eapply put_char_ok; [exact A|exact Eb|apply B|lia|]. intros s1 A1.
  eapply make_dirty_ok; [exact A1|]. intros s2 A2. apply HQ. eexists. split; [exact A2|].
  apply (rep_doc _ _ _ (vm_cx v) (vm_cy v) true (doc_overwrite key) R). rewrite Ex. unfold doc_overwrite.
  eapply dr_set_cur; [exact Rd|by apply bu_change_at|]. rewrite length_app, length_take. cbn. lia.
Qed.

Lemma pending_key_ok p key s v t (Q : unit -> ed D -> Prop) : at_vim s v -> rep v t ->
  (forall s', shows s' (tx_two p key t) -> Q tt s') ->
  ok (pending_key p key (vm_cy v) (Z.of_nat (length (cur (tx_doc t))))) s Q.
Proof.
  intros A R HQ. pose proof (shows_intro _ _ _ A R) as S0. pose proof (rp_doc _ _ R) as [_ _ _ Hx Ex Ey]. unfold pending_key. unfold tx_two in HQ.
  destruct (p =? ch "d").
  { destruct (key =? ch "d").
    { eapply undo_first; [exact A|exact R|keeps_solve|]. intros s1 v1 A1 R1 E1 _. nx. rewrite <- E1.
      eapply yank_line_ok; [exact A1|exact R1|]. intros s2 v2 A2 R2 E2. rewrite <- E2. by eapply delete_line_ok. }
    destruct (key =? ch "w").
    { eapply undo_first; [exact A|exact R|keeps_solve|]. intros s1 v1 A1 R1 E1 _. rewrite <- E1. by eapply cut_word_ok. }
    destruct (key =? ch "$").
    { eapply undo_first; [exact A|exact R|keeps_solve|]. intros s1 v1 A1 R1 E1 _. eapply delete_to_eol_ok; [by exists v1|exact HQ]. }
    destruct (key =? ch "0"); [|by apply ok_ret, HQ].
    eapply undo_first; [exact A|exact R|keeps_solve|]. intros s1 v1 A1 R1 E1 _. rewrite <- E1. by eapply clear_line_ok. }
  destruct (p =? ch "g").
  { destruct (key =? ch "g"); [|by apply ok_ret, HQ]. pose proof (rp_doc _ _ R) as [_ Hn _ _ _ _].
    eapply (set_cursor_ok _ _ 0 0); [exact A|exact R|lia|lia|done|done|exact HQ]. }
  destruct (p =? ch "y").
  { destruct (key =? ch "y"); [|by apply ok_ret, HQ]. nx. eapply yank_line_ok; [exact A|exact R|]. intros s1 v1 A1 R1 _.
    eapply set_msg_ok; [by exists v1|exact HQ]. }
  destruct (p =? ch "r").
  { vg A. replace (vm_cx v <? Z.of_nat (length (cur (tx_doc t)))) with (bool_decide (doc_x (tx_doc t) < length (cur (tx_doc t)))%nat)
      by (case_bool_decide; case Z.ltb_spec; lia).
    destruct ((32 <=? key) && (key <? 127)) eqn:Ek; cbn [andb] in *; [|by apply ok_ret, HQ]. apply printable in Ek.
    case_bool_decide as Hr; [|by apply ok_ret, HQ].
    eapply undo_first; [exact A|exact R|keeps_solve|]. intros s1 v1 A1 R1 E1 E2. rewrite <- E1, <- E2. by eapply overwrite_ok. }
  destruct (p =? ch "c"); [|by apply ok_ret, HQ]. destruct (key =? ch "c").
  { eapply undo_first; [exact A|exact R|keeps_solve|]. intros s1 v1 A1 R1 E1 _. nx. rewrite <- E1.
    eapply yank_line_ok; [exact A1|exact R1|]. intros s2 v2 A2 R2 E2. rewrite <- E2.
    eapply edit_insert; [|exact HQ]. intros P HP. by eapply clear_line_ok. }
  destruct (key =? ch "w"); [|by apply ok_ret, HQ].
  eapply undo_first; [exact A|exact R|keeps_solve|]. intros s1 v1 A1 R1 E1 _. rewrite <- E1.
  eapply edit_insert; [|exact HQ]. intros P HP. by eapply cut_word_ok.
Qed.

Lemma clamp_here_ok s t (Q : unit -> ed D -> Prop) : shows s t ->
  (forall s', shows s' (on_doc (clamped (tx_mode t)) t) -> Q tt s') -> ok clamp_cx s Q.
Proof.
  intros (v & A & R) HQ. pose proof (rp_doc _ _ R) as [_ _ Hy _ Ex Ey].
  eapply (clamp_cx_ok (doc_x (tx_doc t)) (doc_y (tx_doc t))); [|exact R|exact Hy|].
  - rewrite <- Ex, <- Ey. by destruct v.
  - intros s' S'. apply HQ. replace (on_doc (clamped (tx_mode t)) t) with (on_doc (fun d => clamped (tx_mode t) (go (doc_x (tx_doc t)) (doc_y (tx_doc t)) d)) t);
      [exact S'|]. unfold on_doc. by rewrite go_same.
Qed.

Lemma move_key_ok key m t' s v t (Q : unit -> ed D -> Prop) : at_vim s v -> rep v t ->
  move_key key (vm_cx v) (vm_cy v) (Z.of_nat (length (cur (tx_doc t)))) = Some m -> tx_move key t = Some t' ->
  (forall s', shows s' t' -> Q tt s') -> ok m s Q.
Proof.
  intros A R. pose proof (shows_intro _ _ _ A R) as S0. pose proof (rp_doc _ _ R) as Rd. pose proof Rd as [_ Hn Hy Hx Ex Ey].
  pose proof (dr_length _ _ _ _ Rd) as Hln. unfold move_key, tx_move, last_line.
  assert (on_doc (go (doc_x (tx_doc t)) (doc_y (tx_doc t))) t = t) as Esame by (rewrite on_doc_same; [done|apply go_same]).
  repeat lazymatch goal with |- (if ?b then _ else _) = Some m -> _ => destruct b end; try done; intros [= <-].
  - intros [= <-] HQ. destruct (Z.ltb_spec 0 (vm_cx v)).
    + eapply (set_col_ok _ (pred (doc_x (tx_doc t)))); [exact A|exact R|lia|lia|exact HQ].
    + apply ok_ret, HQ. replace (pred (doc_x (tx_doc t))) with (doc_x (tx_doc t)) by lia. by rewrite Esame.
  - intros [= <-] HQ. destruct (Z.ltb_spec (vm_cx v + 1) (Z.of_nat (length (cur (tx_doc t))))).
    + rewrite decide_True in HQ by lia. eapply (set_col_ok _ (S (doc_x (tx_doc t)))); [exact A|exact R|lia|lia|exact HQ].
    + rewrite decide_False in HQ by lia. apply ok_ret, HQ. by rewrite Esame.
  - intros E HQ. vg A. unfold nlines. rewrite Hln. destruct (Z.ltb_spec (vm_cy v + 1) (Z.of_nat (length (doc_lines (tx_doc t))))).
    + rewrite decide_True in E by lia. injection E as <-. eapply (set_y_clamp_ok _ (S (doc_y (tx_doc t)))); [exact A|exact R|lia|lia|exact HQ].
    + rewrite decide_False in E by lia. injection E as <-. by apply ok_ret, HQ.
  - intros E HQ. destruct (doc_y (tx_doc t)) as [|y] eqn:Edy; injection E as <-.
    + rewrite (proj2 (Z.ltb_ge 0 _)) by lia. by apply ok_ret, HQ.
    + rewrite (proj2 (Z.ltb_lt 0 _)) by lia. eapply (set_y_clamp_ok _ y); [exact A|exact R|lia|lia|exact HQ].
  - intros [= <-] HQ. eapply (set_col_ok _ 0); [exact A|exact R|lia|done|exact HQ].
  - intros [= <-] HQ. eapply (set_col_ok _ (pred (length (cur (tx_doc t))))); [exact A|exact R|lia| |exact HQ].
    destruct (Z.ltb_spec 0 (Z.of_nat (length (cur (tx_doc t))))); lia.
  - intros [= <-] HQ. by eapply first_nonblank_ok.
  - intros [= <-] HQ. nx. eapply move_word_fwd_ok; [exact S0|]. intros s1 S1. by eapply clamp_here_ok.
  - intros [= <-] HQ. by eapply move_word_back_ok.
  - intros [= <-] HQ. vg A. unfold nlines. rewrite Hln.
    eapply (set_cursor_ok _ _ 0 (pred (length (doc_lines (tx_doc t))))); [exact A|exact R|lia|lia|done|lia|exact HQ].
  - intros [= <-] HQ. eapply (set_y_clamp_ok _ (doc_y (tx_doc t) - PAGE)); [exact A|exact R|lia| |exact HQ].
    unfold VIM_ROWS, PAGE. destruct (Z.leb_spec 23 (vm_cy v)); lia.
  - intros [= <-] HQ. vg A. unfold nlines. rewrite Hln.
    eapply (set_y_clamp_ok _ (min (doc_y (tx_doc t) + PAGE) (pred (length (doc_lines (tx_doc t)))))); [exact A|exact R|lia| |exact HQ].
    unfold VIM_ROWS, PAGE. destruct (Z.ltb_spec (vm_cy v + 23) (Z.of_nat (length (doc_lines (tx_doc t))))); lia.
Qed.
End Normal.

Section Edits.
Context {D : Type} `{Kernel D, Console D}.
Implicit Types (s : ed D) (v : vim) (t : text) (d : doc).

Lemma shows_dirty s t (Q : unit -> ed D -> Prop) : shows s t -> (forall s', shows s' t -> Q tt s') -> ok make_dirty s Q.
Proof.
  intros (v & A & R) HQ. eapply make_dirty_ok; [exact A|]. intros s' A'. apply HQ. eexists. split; [exact A'|]. by apply rep_dirty.
Qed.

Lemma doc_cut_end x d : (doc_y d < length (doc_lines d))%nat -> x = doc_x d -> (length (cur d) <= x)%nat -> doc_cut x 1 d = d.
Proof.
  intros Hy -> Hx. unfold doc_cut. rewrite take_ge by lia. rewrite drop_ge by lia. rewrite app_nil_r. by apply set_cur_same.
Qed.

(** The character under the cursor goes. *)
Lemma cut_here_ok s v t (Q : unit -> ed D -> Prop) : at_vim s v -> rep v t -> (doc_x (tx_doc t) < length (cur (tx_doc t)))%nat ->
  (forall s', shows s' (on_doc (doc_cut (doc_x (tx_doc t)) 1) t) -> Q tt s') ->
  ok (cut_char (vm_cy v) (vm_cx v) (Z.of_nat (length (cur (tx_doc t))))) s Q.
Proof.
  intros A R Hx HQ. pose proof (rp_doc _ _ R) as Rd. pose proof Rd as [_ _ Hy _ Ex Ey]. unfold cut_char.
  eapply (cut_chars_ok (doc_x (tx_doc t)) 1); [exact A|exact R|lia..|]. intros a b s1 A1 B1. apply HQ. eexists. split; [exact A1|].
  replace (set_buf _ v) with (set_cursor (Z.of_nat (doc_x (tx_doc t))) (vm_cy v) (set_buf (<[Z.to_nat (vm_cy v) := Some (a, b)]> (vm_buf v)) v))
    by (rewrite <- Ex; by destruct v).
  apply (rep_clean _ _ _ _ _ (doc_cut (doc_x (tx_doc t)) 1) R). eapply dr_set_cur; [exact Rd|exact B1|]. rewrite length_app, length_take. lia.
Qed.

(** The character in front of the cursor goes ('X'). *)
Lemma cut_before_ok x s v t (Q : unit -> ed D -> Prop) : at_vim s v -> rep v t -> doc_x (tx_doc t) = S x ->
  (forall s', shows s' (on_doc (doc_cut x 1) t) -> Q tt s') ->
  ok (_ ← move_chars (vm_cy v) (vm_cx v - 1) (vm_cx v) (u32 (Z.of_nat (length (cur (tx_doc t))) - vm_cx v + 1));
      _ ← set_x (vm_cx v - 1); make_dirty) s Q.
Proof.
  intros A R Hdx HQ. pose proof (rp_doc _ _ R) as Rd. pose proof Rd as [_ _ Hy Hx Ex Ey].
  destruct (dr_cur _ _ _ _ Rd) as (? & ? & _ & B). pose proof (bu_fits _ _ B). nx.
  eapply (cut_chars_ok x 1); [exact A|exact R|lia..|unfold u32; rewrite Z.mod_small; lia|]. intros a b s1 A1 B1. nx.
  eapply set_x_ok; [exact A1|]. intros s2 A2. eapply make_dirty_ok; [exact A2|]. intros s3 A3. apply HQ. eexists. split; [exact A3|].
  replace (vm_cx v - 1) with (Z.of_nat x) by lia.
  apply (rep_doc _ _ _ _ _ true (doc_cut x 1) R). eapply dr_set_cur; [exact Rd|exact B1|]. rewrite length_app, length_take. lia.
Qed.

(** The rest of the line goes ('C'). *)
Lemma end_here_ok s v t (Q : unit -> ed D -> Prop) : at_vim s v -> rep v t ->
  (forall s', shows s' (on_doc (fun d => set_cur (take (doc_x (tx_doc t)) (cur d)) (doc_x (tx_doc t)) d) t) -> Q tt s') ->
  ok (put_char (vm_cy v) (vm_cx v) 0) s Q.
Proof.
  intros A R HQ. pose proof (rp_doc _ _ R) as Rd. pose proof Rd as [_ _ Hy Hx Ex Ey].
  eapply (end_line_ok (doc_x (tx_doc t))); [exact A|exact R|lia..|]. intros a b s1 A1 B1.
  apply HQ. eexists. split; [exact A1|].
  replace (set_buf _ v) with (set_cursor (Z.of_nat (doc_x (tx_doc t))) (vm_cy v) (set_buf (<[Z.to_nat (vm_cy v) := Some (a, b)]> (vm_buf v)) v))
    by (rewrite <- Ex; by destruct v).
  apply (rep_clean _ _ _ _ _ (fun d => set_cur (take (doc_x (tx_doc t)) (cur d)) (doc_x (tx_doc t)) d) R).
  eapply dr_set_cur; [exact Rd|exact B1|]. rewrite length_take. lia.
Qed.

Lemma rep_pending v t p : rep v t -> rep (set_pending p v) (to_pending p t).
Proof. by intros []. Qed.

(** A line to type a command or a pattern on. *)
Lemma ask_search_ok s t (Q : unit -> ed D -> Prop) : shows s t -> (forall s', shows s' (to_search [] (to_mode VSEARCH t)) -> Q tt s') ->
  ok (vset (fun v => set_search (CStr.st (vm_search v) 0 0) 0 (set_vmode VSEARCH v))) s Q.
Proof.
  intros (v & A & R) HQ. destruct (rp_search _ _ R) as (Hl & Hb & _). eapply ok_vset; [exact A|]. intros s' A'. apply HQ.
  eexists. split; [exact A'|]. apply rep_search_line; [by apply rep_mode|by rewrite CStrOk.length_st|by apply st_bytes|done|cbn; lia|done].
Qed.
Lemma ask_command_ok s t (Q : unit -> ed D -> Prop) : shows s t -> (forall s', shows s' (to_cmd [] (to_mode COMMAND t)) -> Q tt s') ->
  ok (vset (fun v => set_cmd (CStr.st (vm_cmd v) 0 0) 0 (set_vmode COMMAND v))) s Q.
Proof.
  intros (v & A & R) HQ. destruct (rp_cmd _ _ R) as (Hl & _ & _ & _ & Hb & _). eapply ok_vset; [exact A|]. intros s' A'. apply HQ.
  eexists. split; [exact A'|]. eapply rep_cmd; [by apply rep_mode|by rewrite CStrOk.length_st|by apply st_bytes|done|constructor|cbn; lia|done].
Qed.

(** The keys that delete characters of the current line, and those that enter insert mode. *)
Lemma edit_command_ok key s v t (Q : unit -> ed D -> Prop) : at_vim s v -> rep v t ->
  (forall s', shows s' (tx_edit key t) -> Q tt s') ->
  ok (edit_command key (vm_cx v) (vm_cy v) (Z.of_nat (length (cur (tx_doc t))))) s Q.
Proof.
  intros A R HQ. pose proof (shows_intro _ _ _ A R) as S0. pose proof (rp_doc _ _ R) as [_ _ Hy Hx Ex Ey].
  assert ((0 <? Z.of_nat (length (cur (tx_doc t)))) && (vm_cx v <? Z.of_nat (length (cur (tx_doc t)))) =
    bool_decide (doc_x (tx_doc t) < length (cur (tx_doc t)))%nat) as Eat
    by (case_bool_decide; destruct (Z.ltb_spec 0 (Z.of_nat (length (cur (tx_doc t))))); case Z.ltb_spec; lia).
  unfold edit_command. unfold tx_edit in HQ. rewrite Eat.
  repeat lazymatch goal with |- ok (if ?b then _ else _) s Q => lazymatch b with context [key] => destruct b | _ => fail end end;
    try by apply ok_ret, HQ.
  all: try (eapply undo_first; [exact A|exact R|keeps_solve|]; intros s1 v1 A1 R1 E1 E2; pose proof (shows_intro _ _ _ A1 R1) as S1;
    rewrite <- ?E1, <- ?E2).
  - by eapply set_mode_ok.
  - eapply edit_insert; [|exact HQ]. intros P HP. replace (vm_cx v1 <? Z.of_nat (length (cur (tx_doc t))))
      with (bool_decide (doc_x (tx_doc t) < length (cur (tx_doc t)))%nat) in * by (case_bool_decide; case Z.ltb_spec; lia).
    case_bool_decide; [eapply (set_col_ok _ (S (doc_x (tx_doc t)))); [exact A1|exact R1|cbn; lia|lia|exact HP]|].
    apply ok_ret, HP. rewrite on_doc_same; [done|apply go_same].
  - eapply edit_insert; [|exact HQ]. intros P HP. eapply (set_col_ok _ (length (cur (tx_doc t)))); [exact A1|exact R1|done|done|exact HP].
  - eapply edit_insert; [|exact HQ]. intros P HP. by eapply first_nonblank_ok.
  - by eapply (open_line_ok true).
  - by eapply (open_line_ok false).
  - eapply edit_insert; [|exact HQ]. intros P HP. case_bool_decide.
    + nx. eapply (cut_here_ok _ _ (remember t)); [exact A1|exact R1|done|]. intros s2 S2. by eapply shows_dirty.
    + apply ok_ret, HP. rewrite on_doc_same; [done|]. apply (doc_cut_end _ (tx_doc t)); [done|done|lia].
  - nx. eapply yank_line_ok; [exact A1|exact R1|]. intros s2 v2 A2 R2 E3. rewrite <- E3.
    eapply edit_insert; [|exact HQ]. intros P HP. by eapply clear_line_ok.
  - case_bool_decide; [|by apply ok_ret, HQ].
    eapply undo_first; [exact A|exact R|keeps_solve|]. intros s1 v1 A1 R1 E1 E2. rewrite <- E1, <- E2.
    nx. eapply (cut_here_ok _ _ (remember t)); [exact A1|exact R1|done|]. intros s2 S2. nx. eapply clamp_here_ok; [exact S2|]. intros s3 S3. by eapply shows_dirty.
  - destruct (Z.ltb_spec 0 (vm_cx v)), (doc_x (tx_doc t)) as [|x] eqn:Edx; try lia; [|by apply ok_ret, HQ].
    eapply undo_first; [exact A|exact R|keeps_solve|]. intros s1 v1 A1 R1 E1 E2. rewrite <- E1, <- E2. by eapply (cut_before_ok _ _ _ (remember t)).
  - eapply ok_vset; [exact A|]. intros s' A'. apply HQ. eexists. split; [exact A'|]. by apply rep_pending.
  - by eapply delete_to_eol_ok.
  - nx. eapply (end_here_ok _ _ (remember t)); [exact A1|exact R1|]. intros s2 S2. nx. eapply shows_dirty; [exact S2|].
    intros s3 S3. by eapply set_mode_ok.
  - by eapply (paste_ok false).
  - by eapply (paste_ok true).
  - by eapply join_below_ok.
  - by eapply do_undo_ok.
  - by eapply ask_search_ok.
  - by eapply search_next_ok.
  - by eapply search_prev_ok.
  - by eapply ask_command_ok.
  - nx. eapply save_file_ok; [exact S0|]. intros r s' S'. by apply ok_ret, HQ.
  - vg A. destruct (negb (vm_dirty v)); [by eapply set_running_ok|by eapply set_msg_ok].
Qed.
End Edits.
