(* ===== verification/EditorSession.v ===== *)
(** * A session of the editor

    Every key, the drawing of the screen, loading and the loop of [editor_open]: the
    buffers of Editor.v show the text of EditorText.v, and nothing undefined happens. *)

From Stdlib Require Import Ascii.
From stdpp Require Import strings.
From S2P Require Import Prelude Machine VfsTypes CLib Printf Vfs Keyboard Vga Task Syscall ShellLine.
From S2P Require Import Editor EditorText EditorLogic EditorRefine EditorKeys.

Section Handle.
Context {D : Type} `{Kernel D, Console D}.
Implicit Types (s : ed D) (v : vim) (t : text) (d : doc).

Lemma move_key_some key x y len t : is_Some (move_key (D := D) key x y len) <-> is_Some (tx_move key t).
Proof.
  unfold move_key, tx_move. repeat (lazymatch goal with |- is_Some (if ?b then _ else _) <-> _ => destruct b; [by split; intros _; repeat case_match; eexists|] end).
  done.
Qed.

Lemma handle_normal_ok key s t (Q : unit -> ed D -> Prop) : shows s t -> tx_mode t = NORMAL ->
  (forall s', shows s' (tx_key key t) -> Q tt s') -> ok (handle_normal key) s Q.
Proof.
  intros (v0 & A0 & R0) Em HQ. unfold handle_normal. nx. eapply ok_vset; [exact A0|]. intros s1 A.
  eapply (rep_msg _ _ (CStr.st (vm_msg v0) 0 0)) in R0 as R; [|rewrite CStrOk.length_st; apply R0].
  set (v := set_vmsg _ v0) in *. clearbody v. vg A. nx. destruct (dr_cur _ _ _ _ (rp_doc _ _ R)) as (a & b & Eb & B).
  eapply line_len_ok; [exact A|exact Eb|exact B|]. cbv beta. unfold tx_key in HQ. rewrite Em in HQ. rewrite (rp_pending _ _ R).
  destruct (negb (tx_pending t =? 0)).
  - nx. eapply ok_vset; [exact A|]. intros s2 A2. eapply (pending_key_ok _ _ _ (set_pending 0 v) (to_pending 0 t)); [exact A2| |exact HQ].
    by apply rep_pending.
  - destruct (move_key _ _ _ _) as [m|] eqn:Emk.
    + destruct (proj1 (move_key_some key (vm_cx v) (vm_cy v) (Z.of_nat (length (cur (tx_doc t)))) t)) as [t' Et]; [by rewrite Emk|].
      rewrite Et in HQ. by eapply move_key_ok.
    + destruct (tx_move key t) eqn:Et; [|by eapply edit_command_ok].
      exfalso. apply (is_Some_None (A := state (ed D) unit)). rewrite <- Emk. eapply move_key_some. by rewrite Et.
Qed.

Lemma handle_insert_ok key s t (Q : unit -> ed D -> Prop) : shows s t -> tx_mode t = INSERT ->
  (forall s', shows s' (tx_insert key t) -> Q tt s') -> ok (handle_insert key) s Q.
Proof.
  intros S0 Em HQ. pose proof S0 as (v & A & R). pose proof (rp_doc _ _ R) as Rd. pose proof Rd as [_ Hn Hy Hx Ex Ey].
  destruct (dr_cur _ _ _ _ Rd) as (a & b & Eb & B). pose proof (dr_length _ _ _ _ Rd) as Hln. unfold handle_insert. vg A. unfold tx_insert, last_line in HQ.
  repeat lazymatch goal with |- ok (if ?b then _ else _) s Q => lazymatch b with context [32 <=? key] => fail | context [key] => destruct b | _ => fail end end.
  - nx. eapply set_mode_ok; [exact S0|]. intros s1 S1. by eapply clamp_here_ok.
  - by eapply insert_newline_ok.
  - by eapply backspace_char_ok.
  - by eapply delete_fwd_ok.
  - destruct (doc_y (tx_doc t)) as [|y] eqn:Edy.
    + rewrite (proj2 (Z.ltb_ge 0 _)) by lia. by apply ok_ret, HQ.
    + rewrite (proj2 (Z.ltb_lt 0 _)) by lia. eapply (set_y_clamp_ok _ y); [exact A|exact R|lia|lia|exact HQ].
  - unfold nlines. rewrite Hln. destruct (Z.ltb_spec (vm_cy v + 1) (Z.of_nat (length (doc_lines (tx_doc t))))).
    + rewrite decide_True in HQ by lia. eapply (set_y_clamp_ok _ (S (doc_y (tx_doc t)))); [exact A|exact R|lia|lia|exact HQ].
    + rewrite decide_False in HQ by lia. by apply ok_ret, HQ.
  - destruct (Z.ltb_spec 0 (vm_cx v)).
    + eapply (set_col_ok _ (pred (doc_x (tx_doc t)))); [exact A|exact R|lia|lia|exact HQ].
    + apply ok_ret, HQ. replace (pred (doc_x (tx_doc t))) with (doc_x (tx_doc t)) by lia. rewrite on_doc_same; [done|apply go_same].
  - nx. eapply line_len_ok; [exact A|exact Eb|exact B|]. cbv beta. destruct (Z.ltb_spec (vm_cx v) (Z.of_nat (length (cur (tx_doc t))))).
    + eapply (set_col_ok _ (min (S (doc_x (tx_doc t))) (length (cur (tx_doc t))))); [exact A|exact R|lia|lia|exact HQ].
    + apply ok_ret, HQ. replace (min _ _) with (doc_x (tx_doc t)) by lia. rewrite on_doc_same; [done|apply go_same].
  - eapply (set_col_ok _ 0); [exact A|exact R|lia|done|exact HQ].
  - nx. eapply line_len_ok; [exact A|exact Eb|exact B|]. eapply (set_col_ok _ (length (cur (tx_doc t)))); [exact A|exact R|lia|done|exact HQ].
  - do 3 (nx; eapply insert_char_ok; [eassumption|done|]; intros ? ?). by eapply insert_char_ok.
  - destruct ((32 <=? key) && (key <? 127)) eqn:Ek; [|by apply ok_ret, HQ]. apply printable in Ek. by eapply insert_char_ok.
Qed.

Lemma handle_key_ok key s t (Q : unit -> ed D -> Prop) : shows s t -> (forall s', shows s' (tx_key key t) -> Q tt s') -> ok (handle_key key) s Q.
Proof.
  intros S0 HQ. pose proof S0 as (v & A & R). unfold handle_key. vg A. rewrite (rp_mode _ _ R).
  destruct (tx_mode t) eqn:Em; [by eapply handle_normal_ok|..]; unfold tx_key in HQ; rewrite Em in HQ.
  - by eapply handle_insert_ok.
  - by eapply handle_command_ok.
  - by eapply handle_search_ok.
Qed.
End Handle.

(** ** The screen *)

Section Draw.
Context {D : Type} `{Kernel D, Console D}.
Implicit Types (s : ed D) (v : vim) (t : text) (d : doc).

Lemma on_vga_ok f s v (Q : unit -> ed D -> Prop) : at_vim s v -> (forall s', at_vim s' v -> Q tt s') -> ok (on_vga f) s Q.
Proof. intros A HQ. eapply ok_on_sys; [exact A|]. intros [] s' A'. by apply HQ. Qed.

Lemma print_ok fmt args s v (Q : unit -> ed D -> Prop) : at_vim s v -> is_Some (printf fmt args) -> (forall s', at_vim s' v -> Q tt s') ->
  ok (print fmt args) s Q.
Proof. intros A [[x n] E] HQ. unfold print. rewrite E. by eapply on_vga_ok. Qed.

Lemma rep_scrolled v t : rep v t -> rep (scrolled v) t.
Proof.
  intros R. pose proof (rp_doc _ _ R) as [_ _ _ _ Ex Ey]. destruct R as [R1 R2 R3 R4 R5 R6 R7 R8 [R9 R10]]. split; try done. cbn. split.
  - destruct (vm_cy v <? vm_row_off v); case Z.leb_spec; unfold VIM_ROWS; lia.
  - destruct (vm_cx v <? vm_col_off v); case Z.leb_spec; lia.
Qed.

Lemma draw_row_ok sr s v t (Q : unit -> ed D -> Prop) : at_vim s v -> rep v t -> 0 <= vm_row_off v + sr ->
  (forall s', at_vim s' v -> Q tt s') -> ok (draw_row sr) s Q.
Proof.
  intros A R Hr HQ. unfold draw_row. nx. eapply on_vga_ok; [exact A|]. intros s1 A1. vg A1. cbv zeta. nx.
  pose proof (dr_length _ _ _ _ (rp_doc _ _ R)) as Hln. unfold nlines. rewrite Hln.
  destruct (Z.ltb_spec (vm_row_off v + sr) (Z.of_nat (length (doc_lines (tx_doc t))))).
  - destruct (dr_line _ _ _ _ (Z.to_nat (vm_row_off v + sr)) (rp_doc _ _ R)) as (a & b & Eb & B); [lia|].
    nx. eapply line_text_ok; [exact A1|exact Eb|exact B|]. eapply on_vga_ok; [exact A1|]. intros s2 A2. by eapply on_vga_ok.
  - eapply on_vga_ok; [exact A1|]. intros s2 A2. by eapply on_vga_ok.
Qed.

Lemma draw_rows_ok rows : forall s v t (Q : unit -> ed D -> Prop), at_vim s v -> rep v t -> Forall (fun sr => 0 <= vm_row_off v + sr) rows ->
  (forall s', at_vim s' v -> Q tt s') -> ok (draw_rows rows) s Q.
Proof.
  induction rows as [|sr rows IH]; intros s v t Q A R Hr HQ; cbn [draw_rows]; [by apply ok_ret, HQ|].
  apply Forall_cons in Hr as [Hr Hrs]. nx. eapply draw_row_ok; [exact A|exact R|exact Hr|]. intros s1 A1. by eapply IH.
Qed.

Lemma draw_status_ok s v (Q : unit -> ed D -> Prop) : at_vim s v -> (forall s', at_vim s' v -> Q tt s') -> ok draw_status s Q.
Proof.
  intros A HQ. unfold draw_status. vg A. nx. eapply on_vga_ok; [exact A|]. intros s1 A1. nx. eapply on_vga_ok; [exact A1|]. intros s2 A2.
  cbv zeta. nx. eapply print_ok; [exact A2|by eexists|]. intros s3 A3. nx. eapply on_vga_ok; [exact A3|]. intros s4 A4. nx.
  edestruct (snprintf_ok (zeros 16) 16) as (rc & r & -> & _); [done|done|by eexists|].
  nx. eapply on_vga_ok; [exact A4|]. intros s5 A5. eapply print_ok; [exact A5|by eexists|]. intros s6 A6. by eapply on_vga_ok.
Qed.

Lemma draw_command_ok s v (Q : unit -> ed D -> Prop) : at_vim s v -> (forall s', at_vim s' v -> Q tt s') -> ok draw_command s Q.
Proof.
  intros A HQ. unfold draw_command. vg A. nx. eapply on_vga_ok; [exact A|]. intros s1 A1. nx.
  assert (ok (if negb (vm_pending v =? 0) then on_vga (vga_putc (u8 (vm_pending v))) else print (lit "%s") [AText (Some (cstr (vm_msg v)))]) s1
    (fun _ s' => ok (on_vga vga_erase_eol) s' Q)) as Hmsg.
  { destruct (negb (vm_pending v =? 0)); [|eapply print_ok; [exact A1|by eexists|]; intros s2 A2; by eapply on_vga_ok].
    eapply on_vga_ok; [exact A1|]. intros s2 A2. by eapply on_vga_ok. }
  destruct (vm_mode v); [exact Hmsg|exact Hmsg|..].
  all: nx; eapply on_vga_ok; [exact A1|]; intros s2 A2; eapply print_ok; [exact A2|by eexists|]; intros s3 A3; by eapply on_vga_ok.
Qed.

(** Drawing scrolls, and leaves the text alone. *)
Lemma draw_ok s t (Q : unit -> ed D -> Prop) : shows s t -> (forall s', shows s' t -> Q tt s') -> ok draw s Q.
Proof.
  intros (v0 & A0 & R0) HQ. unfold draw, do_scroll. nx. eapply ok_vset; [exact A0|]. intros s1 A.
  apply rep_scrolled in R0 as R. set (v := scrolled v0) in *. clearbody v. nx.
  eapply draw_rows_ok; [exact A|exact R| |].
  { apply Forall_forall. intros sr Hsr. apply elem_of_seqZ in Hsr. pose proof (rp_off _ _ R). lia. }
  intros s2 A2. nx. eapply draw_status_ok; [exact A2|]. intros s3 A3. nx. eapply draw_command_ok; [exact A3|]. intros s4 A4. vg A4. cbv zeta.
  assert (forall s', at_vim s' v -> Q tt s') as HQ' by (intros s' A'; apply HQ; by exists v).
  destruct (vm_mode v); try by (eapply on_vga_ok; [exact A4|]).
  all: case_match; [by eapply on_vga_ok|by apply ok_ret, HQ'].
Qed.

(** ** The loop *)

Section Loop.
Context (I : ed D -> Prop).
Context (Hdraw : forall s t (Q : unit -> ed D -> Prop), shows s t -> I s -> (forall s', shows s' t -> I s' -> Q tt s') -> ok draw s Q).
Context (Hkey : forall key s t (Q : unit -> ed D -> Prop), shows s t -> I s ->
  (forall s', shows s' (tx_key key t) -> I s' -> Q tt s') -> ok (handle_key key) s Q).

(** An invariant of the keys is one of the loop.  The keys typed are those used
    and those left; none is left if the editor waits for more. *)
Lemma editor_loop_inv keys : forall s t (Q : option (list Z) -> ed D -> Prop), shows s t -> I s ->
  (forall s' used rest, keys = used ++ default [] rest ->
     shows s' (foldl (fun t k => tx_key k t) t used) -> I s' -> Q rest s') ->
  ok (editor_loop keys) s Q.
Proof.
  induction keys as [|key keys IH]; intros s t Q S0 I0 HQ; cbn [editor_loop]; pose proof S0 as (v & A & R);
    nx; (eapply ok_vget; [exact A|]); destruct (negb (vm_running v)).
  - by apply ok_ret, (HQ s []).
  - nx. eapply Hdraw; [exact S0|exact I0|]. intros s1 S1 I1. by apply ok_ret, (HQ s1 []).
  - by apply ok_ret, (HQ s []).
  - nx. eapply Hdraw; [exact S0|exact I0|]. intros s1 S1 I1. nx. eapply Hkey; [exact S1|exact I1|]. intros s2 S2 I2.
    eapply IH; [exact S2|exact I2|]. intros s3 used rest E S3 I3.
    apply (HQ s3 (key :: used)); [by rewrite E|exact S3|exact I3].
Qed.
End Loop.
End Draw.

(** ** Loading *)

Section Load.
Context {D : Type} `{Kernel D, Console D}.
Implicit Types (s : ed D) (v : vim) (t : text) (d : doc).

Lemma cstr_split l : bytes_ok l -> 10 ∉ l -> text_ok (cstr l) /\ (l = cstr l \/ exists junk, l = cstr l ++ 0 :: junk).
Proof.
  induction 1 as [|c l Hc Hl IH]; intros H10; [by split; [constructor|left]|]. cbn [cstr]. apply not_elem_of_cons in H10 as [Hn H10].
  destruct (Z.eqb_spec c 0) as [->|Hz]; [split; [constructor|right; by exists l]|]. destruct (IH H10) as [Ht Hs]. split.
  - constructor; [unfold char_ok; unfold is_u8 in Hc; lia|done].
  - destruct Hs as [<-|[junk E]]; [by left|right; exists junk]. cbn [app]. by rewrite <- E.
Qed.

Lemma bu_bytes_of l : bytes_ok l -> 10 ∉ l -> (length l < 256)%nat -> buffer 256 (put (zeros 256) 0 l) (cstr l).
Proof.
  intros Hb H10 Hl. destruct (cstr_split l Hb H10) as [Ht Hs].
  assert (put (zeros 256) 0 l = l ++ replicate (256 - length l) 0) as ->.
  { unfold zeros. replace (replicate (Z.to_nat 256) 0) with ([] ++ replicate (length l) 0 ++ replicate (256 - length l) 0).
    - by rewrite (put_at [] (replicate (length l) 0)) by (by rewrite ?length_replicate).
    - cbn [app]. rewrite <- replicate_add. f_equal. lia. }
  assert (bytes_ok (l ++ replicate (256 - length l) 0)) as Hb' by (apply Forall_app_2; [done|apply Forall_replicate; unfold is_u8; lia]).
  assert (length (l ++ replicate (256 - length l) 0) = 256%nat) as Hl' by (rewrite length_app, length_replicate; lia).
  destruct Hs as [E|[junk E]].
  - destruct (256 - length l)%nat as [|k] eqn:Ek; [lia|]. rewrite E at 1. eapply bu_intro; [reflexivity|by rewrite <- E|by rewrite <- E|done].
  - rewrite E at 1. eapply bu_intro; [by rewrite <- (assoc_L (++))|by rewrite <- E|by rewrite <- E|done].
Qed.

(** A new line from the bytes of a file. *)
Lemma lalloc_bytes l s v (Q : line_ptr -> ed D -> Prop) : at_vim s v -> bytes_ok l -> 10 ∉ l ->
  (forall a b s', at_vim s' v -> buffer 256 b (clip l) -> Q (Some (a, b)) s') -> ok (lalloc l (Z.of_nat (length l))) s Q.
Proof.
  intros A Hb H10 HQ. unfold lalloc. nx. eapply ok_on_sys; [exact A|]. intros [p|] s1 A1; [|by left].
  assert (buffer 256 (put (zeros 256) 0 (take COLS l)) (clip l)) as B.
  { apply bu_bytes_of; [by apply Forall_take| |rewrite length_take; unfold COLS; lia]. intros E. by apply elem_of_take in E as (? & E%list_elem_of_lookup_2 & _). }
  case Z.eqb_spec; intros E.
  - destruct l; [|done]. by apply ok_ret, HQ.
  - apply ok_ret, HQ; [done|]. unfold sub. rewrite drop_0. unfold VIM_MAX_COL, COLS in *. case Z.leb_spec; intros Hc; [exact B|].
    rewrite Nat2Z.id. rewrite take_ge in B |- * by lia. done.
Qed.

Lemma load_loop_ok rest : forall l s v ls (Q : unit -> ed D -> Prop), at_vim s v -> bytes_ok rest -> bytes_ok l -> 10 ∉ l ->
  Forall2 line_rep (vm_buf v) ls ->
  (forall s' buf, at_vim s' (set_buf buf v) -> Forall2 line_rep buf (ls ++ (clip <$> take (LINES - length ls) (pieces rest l))) -> Q tt s') ->
  ok (load_loop rest l) s Q.
Proof.
  induction rest as [|c rest IH]; intros l s v ls Q A Hr Hb H10 Hls HQ; cbn [load_loop]; vg A;
    pose proof (Forall2_length _ _ _ Hls) as Hln; unfold nlines, VIM_MAX_LINES; rewrite Hln; case Z.leb_spec; intros Hn.
  1,3: apply ok_ret; eapply (HQ s (vm_buf v)); [by destruct v|]; rewrite (proj2 (Nat.sub_0_le _ _)) by (unfold LINES; lia);
    by rewrite take_0, app_nil_r.
  - nx. eapply lalloc_bytes; [exact A|exact Hb|exact H10|]. intros a b s1 A1 B1. eapply ok_vset; [exact A1|]. intros s2 A2.
    eapply HQ; [exact A2|]. cbn [pieces]. destruct (LINES - length ls)%nat eqn:E; [unfold LINES in *; lia|]. cbn [take fmap list_fmap].
    rewrite take_nil. apply Forall2_app; [exact Hls|]. constructor; [by exists a, b|constructor].
  - apply Forall_cons in Hr as [Hc Hr]. cbn [pieces] in HQ. destruct (Z.eqb_spec c 10) as [->|Hc10].
    + nx. eapply lalloc_bytes; [exact A|exact Hb|exact H10|]. intros a b s1 A1 B1. nx. eapply ok_vset; [exact A1|]. intros s2 A2.
      eapply IH; [exact A2|exact Hr|constructor|by apply not_elem_of_nil| |].
      { apply Forall2_app; [exact Hls|]. constructor; [by exists a, b|constructor]. }
      intros s3 buf A3 F3. eapply (HQ s3 buf); [by destruct v|]. destruct (LINES - length ls)%nat as [|k] eqn:E; [unfold LINES in *; lia|].
      rewrite length_app in F3. cbn [length] in F3. replace (LINES - (length ls + 1))%nat with k in F3 by lia.
      rewrite <- (assoc_L (++)) in F3. exact F3.
    + eapply IH; [exact A|exact Hr|apply Forall_app_2; [done|by constructor]| |exact Hls|exact HQ].
      rewrite not_elem_of_app, list_elem_of_singleton. done.
Qed.
End Load.

Section Open.
Context {D : Type} `{Kernel D, Console D}.
Implicit Types (s : ed D) (v : vim) (t : text) (d : doc).

Lemma ok_on_sys_run {A} (m : state (vfs D) A) (P : A -> vfs D -> Prop) s v (Q : A -> ed D -> Prop) :
  at_vim s v -> run m (ed_sys s) P -> (forall a s', at_vim s' v -> P a (ed_sys s') -> Q a s') -> ok (on_sys m) s Q.
Proof. intros [<- Hu] HP HQ. right. unfold on_sys. unfold run in HP. destruct (m (ed_sys s)). by apply HQ. Qed.

(** The editor before the first key, with path and message buffers of any contents. *)
Definition vim_open (path msg : list Z) (buf : list line_ptr) : vim :=
  set_vmsg msg (set_buf buf (set_path path (set_vmode NORMAL (set_running true vim_zero)))).

Lemma rep_start path msg buf ls : length msg = 80%nat -> Forall2 line_rep buf ls -> (1 <= length ls <= LINES)%nat -> rep (vim_open path msg buf) (start ls).
Proof.
  intros Hm HF Hl. assert (bytes_ok (zeros 80) /\ bytes_ok (zeros 256) /\ bytes_ok (zeros 64)) as (Z1 & Z2 & Z3).
  { unfold zeros. split_and!; apply Forall_replicate; unfold is_u8; lia. }
  split; try done.
  - split; try done; cbn; lia.
  - cbn. split_and!; [done|done|lia|constructor|done|]. by exists (zeros 80).
  - cbn. split_and!; [done|done|done|lia|done].
Qed.

Lemma clip_length l : (length (clip l) <= COLS)%nat.
Proof.
  unfold clip. assert (forall m, (length (cstr m) <= length m)%nat) as Hc by (induction m as [|c m IH]; cbn [cstr length]; [lia|case_match; cbn; lia]).
  rewrite (Hc (take COLS l)), length_take. lia.
Qed.

Lemma pieces_length rest : forall l, (1 <= length (pieces rest l))%nat.
Proof. induction rest as [|c rest IH]; intros l; cbn [pieces]; [cbn; lia|]. case_match; cbn [length]; [lia|apply IH]. Qed.

Lemma load_length c : (1 <= length (load_lines c) <= LINES)%nat.
Proof.
  unfold load_lines. pose proof (pieces_length c []) as Hp. set (ls := clip <$> take LINES (pieces c [])).
  assert (1 <= length ls <= LINES)%nat as Hl by (unfold ls; rewrite length_fmap, length_take; unfold LINES; lia).
  case_match eqn:E; [|done]. rewrite !andb_true_iff, bool_decide_eq_true in E. rewrite length_take. lia.
Qed.

(** The last line, empty when the file ends with a line feed, goes. *)
Lemma trim_ok c (b : bool) s v ls (Q : unit -> ed D -> Prop) : at_vim s v -> Forall2 line_rep (vm_buf v) ls -> (1 <= length ls)%nat ->
  (forall s' buf, at_vim s' (set_buf buf v) ->
     Forall2 line_rep buf (if bool_decide (1 < length ls)%nat && b && bool_decide (last ls = Some []) then take (pred (length ls)) ls else ls) -> Q tt s') ->
  c = (1 <? nlines v) && b ->
  ok (if c then
        len ← line_len (nlines v - 1);
        if len =? 0 then
          ps ← vget vm_buf;
          _ ← free_line (default None (ps !! Z.to_nat (nlines v - 1)));
          vset (fun v0 => set_buf (take (Z.to_nat (nlines v - 1)) (vm_buf v0)) v0)
        else mret tt
      else mret (M := state (ed D)) tt) s Q.
Proof.
  intros A HF Hl HQ ->. pose proof (Forall2_length _ _ _ HF) as Hln. unfold nlines.
  assert (forall Q' : Prop, ((at_vim s (set_buf (vm_buf v) v)) -> Q') -> Q') as Hsame by (intros Q' HQ'; apply HQ'; by destruct v).
  destruct (Z.ltb_spec 1 (Z.of_nat (length (vm_buf v)))); [rewrite bool_decide_true in HQ by lia|rewrite bool_decide_false in HQ by lia; apply Hsame; intros As; by apply ok_ret, (HQ s (vm_buf v))].
  destruct b; cbn [andb] in *; [|apply Hsame; intros As; by apply ok_ret, (HQ s (vm_buf v))].
  assert (Z.to_nat (Z.of_nat (length (vm_buf v)) - 1) = pred (length ls)) as Ei by lia.
  destruct (lookup_lt_is_Some_2 ls (pred (length ls))) as [l El]; [lia|].
  destruct (Forall2_lookup_r _ _ _ _ _ HF El) as (p & Ep & a & b & -> & B).
  nx. eapply line_len_ok; [exact A|by rewrite Ei|exact B|]. cbv beta. rewrite last_lookup, El in HQ. case Z.eqb_spec; intros E0.
  - destruct l; [|done]. vg A. nx. eapply free_line_ok; [exact A|]. intros s1 A1. eapply ok_vset; [exact A1|]. intros s2 A2.
    eapply HQ; [exact A2|]. rewrite bool_decide_true by done. rewrite Ei. by apply Forall2_take.
  - rewrite bool_decide_false in HQ by (intros [= ->]; done). apply Hsame. intros As. by apply ok_ret, (HQ s (vm_buf v)).
Qed.

Lemma file_end c : (0 <? Z.of_nat (length c)) && (byte_at (c ++ [0]) (Z.of_nat (length c) - 1) =? 10) = bool_decide (last c = Some 10).
Proof.
  destruct c as [|x c _] using rev_ind; [done|]. rewrite last_snoc, length_app. cbn [length].
  rewrite (proj2 (Z.ltb_lt 0 _)) by lia. cbn [andb].
  rewrite <- (assoc_L (++)). cbn [app]. replace (Z.of_nat (length c + 1) - 1) with (Z.of_nat (length c)) by lia. rewrite byte_at_mid. case Z.eqb_spec; intros E; [by rewrite E, bool_decide_true|].
  rewrite bool_decide_false; [done|by intros [= ->]].
Qed.

(** What the editor finds at a path: the bytes of the file, or nothing to read. *)
Definition found_file (r : res (Z * list Z * Z)) (file : option (list Z)) : Prop :=
  match file with
  | Some c => bytes_ok c /\ exists p, r = Done (p, c ++ [0], Z.of_nat (length c))
  | None => exists rc, r = Err rc
  end.
Definition first_lines (file : option (list Z)) : list (list Z) := match file with Some c => load_lines c | None => [[]] end.

Lemma first_length file : (1 <= length (first_lines file) <= LINES)%nat.
Proof. destruct file; [apply load_length|cbn; unfold LINES; lia]. Qed.

Lemma show_file_ok path r file s vpath (Q : unit -> ed D -> Prop) : at_vim s (vim_open vpath (zeros 80) []) -> found_file r file ->
  (forall s' msg buf, at_vim s' (vim_open vpath msg buf) -> length msg = 80%nat -> Forall2 line_rep buf (first_lines file) -> Q tt s') ->
  ok (show_file path r) s Q.
Proof.
  intros A Hf HQ. unfold show_file. destruct file as [c|].
  - destruct Hf as (Hb & p & ->). unfold sub. rewrite drop_0, Nat2Z.id, take_app_length. nx.
    eapply load_loop_ok; [exact A|exact Hb|constructor|by apply not_elem_of_nil|constructor|]. intros s1 buf1 A1 F1. cbn [app length] in F1.
    rewrite Nat.sub_0_r in F1. pose proof (pieces_length c []) as Hpl. vg A1. nx.
    eapply (trim_ok _ (bool_decide (last c = Some 10))); [exact A1|exact F1| | |by rewrite <- file_end, andb_assoc].
    { rewrite length_fmap, length_take. unfold LINES. lia. }
    intros s2 buf2 A2 F2. fold (load_lines c) in F2. vg A2. nx. pose proof (load_length c) as Hll. pose proof (Forall2_length _ _ _ F2) as Hl2.
    unfold nlines. rewrite (proj2 (Z.eqb_neq _ 0)) by (cbn; lia). apply ok_ret. nx. eapply ok_on_sys; [exact A2|]. intros [] s3 A3. vg A3.
    unfold msg_printf. vg A3. edestruct (snprintf_ok (zeros 80) 80) as (m & r & E & Hm); [done|done| |]; cycle 1.
    { cbn [vm_msg vim_open set_buf set_vmsg] in *. rewrite E. eapply ok_vset; [exact A3|]. intros s4 A4. by eapply HQ. }
    by eexists.
  - destruct Hf as (rc & ->). nx. eapply (lalloc_ok [] 0 [] []); [exact A|done|done|constructor|cbn; lia|]. intros a b s1 A1 B1. nx.
    eapply ok_vset; [exact A1|]. intros s2 A2. eapply ok_vset; [exact A2|]. intros s3 A3. eapply HQ; [exact A3| |].
    + by rewrite CStrOk.length_st, length_strncpy_at.
    + constructor; [by exists a, b|constructor].
Qed.
End Open.

(** ** Undoing *)

Section Undo.
Context {D : Type} `{Kernel D, Console D}.
Implicit Types (s : ed D) (t : text).

(** Keys, one after the other. *)
Fixpoint press (keys : list Z) : state (ed D) unit :=
  match keys with
  | [] => mret tt
  | key :: keys => _ ← handle_key key; press keys
  end.

Lemma press_ok keys : forall s t (Q : unit -> ed D -> Prop), shows s t -> (forall s', shows s' (foldl (fun t key => tx_key key t) t keys) -> Q tt s') ->
  ok (press keys) s Q.
Proof.
  assert (forall ks, keeps (press ks)) as Hk by (induction ks; cbn [press]; keeps_solve).
  induction keys as [|key keys IH]; intros s t Q S0 HQ; cbn [press]; [by apply ok_ret, HQ|].
  apply ok_bind; [intros; apply Hk|]. eapply handle_key_ok; [exact S0|]. intros s1 S1. by eapply IH.
Qed.

(** The keys that enter insert mode remember the text. *)
Lemma insert_remembers key t : tx_mode t = NORMAL -> tx_pending t = 0 -> tx_mode (tx_key key t) = INSERT ->
  tx_undo (tx_key key t) = Some (tx_doc t) /\ tx_pending (tx_key key t) = 0.
Proof.
  intros Em Ep. unfold tx_key. rewrite Em, Ep. cbn [negb Z.eqb]. destruct (tx_move key t) as [t'|] eqn:E.
  - unfold tx_move in E. repeat case_match; simplify_eq; cbn; congruence.
  - unfold tx_edit, new_line, put_yank, go_back. repeat case_match; cbn; rewrite ?Em; done.
Qed.

Lemma insert_keys keys : forall t, KEY_ESCAPE ∉ keys -> tx_mode t = INSERT ->
  let t' := foldl (fun t key => tx_key key t) t keys in tx_mode t' = INSERT /\ tx_undo t' = tx_undo t /\ tx_pending t' = tx_pending t.
Proof.
  induction keys as [|key keys IH]; intros t Hn Em; [done|]. apply not_elem_of_cons in Hn as [Hk Hn]. cbn [foldl].
  assert (tx_mode (tx_key key t) = INSERT /\ tx_undo (tx_key key t) = tx_undo t /\ tx_pending (tx_key key t) = tx_pending t) as (E1 & E2 & E3).
  { unfold tx_key. rewrite Em. unfold tx_insert. rewrite (proj2 (Z.eqb_neq key KEY_ESCAPE)) by done. repeat case_match; done. }
  destruct (IH _ Hn E1) as (F1 & F2 & F3). cbv zeta. by rewrite F1, F2, F3, E2, E3.
Qed.

(** C30: Undo takes a whole insertion back.  From normal mode, any key that enters
    insert mode ('i', 'a', 'o', 's', 'C', ...), any keys typed there (characters,
    Enter, Backspace, the cursor keys), Escape and 'u': the lines and the cursor
    are exactly those before, unless the heap ran out. *)
Theorem undo_insertion key keys s t : shows s t -> tx_mode t = NORMAL -> tx_pending t = 0 -> tx_mode (tx_key key t) = INSERT ->
  KEY_ESCAPE ∉ keys ->
  run (press (key :: keys ++ [KEY_ESCAPE; ch "u"])) s (fun _ s' => ed_fault s' = true \/ exists t', shows s' t' /\ tx_doc t' = tx_doc t).
Proof.
  intros S0 Em Ep Ei Hn.
  assert (ok (press (key :: keys ++ [KEY_ESCAPE; ch "u"])) s (fun _ s' => exists t', shows s' t' /\ tx_doc t' = tx_doc t)) as Hok; [|exact Hok].
  eapply press_ok; [exact S0|]. intros s' S'. eexists. split; [exact S'|]. cbn [foldl]. rewrite foldl_app.
  destruct (insert_remembers key t Em Ep Ei) as [U1 P1]. destruct (insert_keys keys (tx_key key t) Hn Ei) as (E1 & E2 & E3).
  set (t1 := foldl _ (tx_key key t) keys) in *. rewrite U1 in E2. rewrite P1 in E3. clearbody t1. destruct t1 as [? ? ? ? ? ? ?]. cbn in *. by subst.
Qed.
End Undo.
