(* ===== verification/EditorFile.v ===== *)
(** * What the keys of the editor leave alone

    Every key leaves the file alone unless it saves, and every key that changes
    the text sets the mark "[+]" of the status line. *)

From Stdlib Require Import Ascii.
From stdpp Require Import strings.
From S2P Require Import Prelude Machine VfsTypes CLib Printf Vfs Keyboard Vga Task Syscall SyscallFd ShellLine.
From S2P Require Import Editor EditorText EditorLogic EditorRefine EditorKeys EditorSession.

(** The terminal is of no concern to the file systems. *)
Class ConsoleOk (D : Type) `{KernelOk D, !Console D} := { kf_vga g d : k_frame d (con_set_vga g d) }.

Section Moves.
Context {D : Type} `{KernelOk D, !Console D, !ConsoleOk D}.
Implicit Types (s : ed D) (v : vim) (k : vfs D).

(** How a function may change the state. *)
Definition moves {A} (R : ed D -> ed D -> Prop) (m : state (ed D) A) : Prop := forall s, R s (m s).2.

Lemma moves_ret {A} R `{!Reflexive R} (a : A) : moves R (mret a).
Proof. by intros s. Qed.
Lemma moves_bind {A B} R `{!Transitive R} (m : state (ed D) A) (f : A -> state (ed D) B) :
  moves R m -> (forall a, moves R (f a)) -> moves R (mbind f m).
Proof. intros Hm Hf s. specialize (Hm s). unfold mbind, state_bind. destruct (m s) as [a s1]. etrans; [exact Hm|apply Hf]. Qed.
Lemma moves_vget {A} R `{!Reflexive R} (f : vim -> A) : moves R (vget f).
Proof. by intros s. Qed.

(** The same files. *)
Definition same_files k k' : Prop := mount_table k' = mount_table k /\ k_frame (v_drv k) (v_drv k').
Record quiet s s' : Prop := { qu_path : vm_path (ed_vim s') = vm_path (ed_vim s); qu_sys : same_files (ed_sys s) (ed_sys s') }.

(** The text is marked as changed, or it is not. *)
Record marked s s' : Prop := {
  mk_fault : ed_fault s = true -> ed_fault s' = true;
  mk_mark : ed_fault s' = true \/ vm_dirty (ed_vim s') = true \/
    (vm_dirty (ed_vim s') = vm_dirty (ed_vim s) /\ vm_buf (ed_vim s') = vm_buf (ed_vim s));
}.

#[global] Instance same_files_preorder : PreOrder same_files.
Proof. split; [by intros k|]. intros k1 k2 k3 [A1 B1] [A2 B2]. split; [by rewrite A2|by etrans]. Qed.
#[global] Instance quiet_preorder : PreOrder quiet.
Proof. split; [by intros s|]. intros s1 s2 s3 [A1 B1] [A2 B2]. split; [by rewrite A2|by etrans]. Qed.
#[global] Instance marked_preorder : PreOrder marked.
Proof.
  split; [by split; [|right; right]|]. intros s1 s2 s3 [A1 B1] [A2 B2]. split; [tauto|].
  destruct B2 as [?|[?|[E1 E2]]]; [by left|by right; left|]. rewrite E1, E2. destruct B1 as [?|?]; [left; tauto|by right].
Qed.

Lemma quiet_vset f : (forall v, vm_path (f v) = vm_path v) -> moves quiet (vset f).
Proof. intros Hf s. split; [apply Hf|by split]. Qed.
Lemma quiet_undefined : moves quiet undefined.
Proof. by intros s. Qed.
Lemma quiet_faults : moves quiet fault.
Proof. by intros s. Qed.
Lemma quiet_sys {A} (m : state (vfs D) A) : (forall k, same_files k (m k).2) -> moves quiet (on_sys m).
Proof. intros Hm s. split; unfold on_sys; specialize (Hm (ed_sys s)); by destruct (m (ed_sys s)). Qed.
Lemma files_lift {A} (m : state D A) : (forall d, k_frame d (m d).2) -> forall k, same_files k (lift_d m k).2.
Proof. intros Hm k. unfold lift_d. specialize (Hm (v_drv k)). by destruct (m (v_drv k)). Qed.
Lemma quiet_malloc n : moves quiet (on_sys (lift_d (k_malloc n))).
Proof. apply quiet_sys, files_lift, kf_malloc. Qed.
Lemma quiet_free p : moves quiet (on_sys (lift_d (k_free p))).
Proof. apply quiet_sys, files_lift, kf_free. Qed.
Lemma quiet_vga f : moves quiet (on_vga f).
Proof. apply quiet_sys. intros k. split; [done|]. apply kf_vga. Qed.

Lemma marked_vset f : (forall v, vm_dirty (f v) = true \/ (vm_dirty (f v) = vm_dirty v /\ vm_buf (f v) = vm_buf v)) -> moves marked (vset f).
Proof. intros Hf s. split; [done|]. right. apply Hf. Qed.
Lemma marked_undefined : moves marked undefined.
Proof. intros s. split; [done|]. by right; right. Qed.
Lemma marked_faults : moves marked fault.
Proof. intros s. split; [done|]. by left. Qed.
Lemma marked_sys {A} (m : state (vfs D) A) : moves marked (on_sys m).
Proof. intros s. unfold on_sys. destruct (m (ed_sys s)). split; [done|]. by right; right. Qed.

(** Functions that end with [V.dirty = true]. *)
Definition marks {A} (m : state (ed D) A) : Prop := keeps m /\ forall s, ed_fault (m s).2 = true \/ vm_dirty (ed_vim (m s).2) = true.
Lemma marks_end {A B} (m : state (ed D) A) (f : A -> state (ed D) B) : keeps m -> (forall a, marks (f a)) -> marks (mbind f m).
Proof.
  intros Hm Hf. split; [apply keeps_bind; [done|apply Hf]|]. intros s. unfold mbind, state_bind. destruct (m s) as [a s1]. apply Hf.
Qed.
Lemma marks_start {A B} (m : state (ed D) A) (f : A -> state (ed D) B) : marks m -> (forall a, moves marked (f a)) -> marks (mbind f m).
Proof.
  intros [Hk Hm] Hf. split.
  - apply keeps_bind; [done|]. intros a s. apply (Hf a s).
  - intros s. specialize (Hm s). unfold mbind, state_bind. destruct (m s) as [a s1]. destruct (Hf a s1) as [F1 F2].
    cbn [snd] in Hm. destruct F2 as [?|[?|[E _]]]; [by left|by right|]. rewrite E. destruct Hm; [left; tauto|by right].
Qed.
Lemma marks_dirty : marks make_dirty.
Proof. split; [intros s|]; [done|by right]. Qed.
Lemma marks_marked {A} (m : state (ed D) A) : marks m -> moves marked m.
Proof. intros [Hk Hm] s. split; [apply Hk|]. destruct (Hm s); [by left|by right; left]. Qed.
End Moves.

Create HintDb moves.
#[export] Hint Resolve quiet_undefined quiet_faults quiet_malloc quiet_free quiet_vga
  marked_undefined marked_faults marked_sys : moves.
#[export] Hint Extern 0 (moves _ (mret _)) => apply moves_ret; apply _ : moves.
#[export] Hint Extern 0 (moves _ (vget _)) => apply moves_vget; apply _ : moves.
#[export] Hint Extern 1 (moves quiet (vset _)) => apply quiet_vset; intros; reflexivity : moves.
#[export] Hint Extern 1 (moves marked (vset _)) => apply marked_vset; intros; first [by right|by left] : moves.
#[export] Hint Extern 1 (moves quiet (on_sys (on_d _))) => apply quiet_vga : moves.
#[export] Hint Extern 1 (keeps _) => solve [keeps_solve] : moves.

(** Case analysis along the code. *)
Ltac moves_cases :=
  match goal with
  | |- moves _ (if ?b then _ else _) => destruct b
  | |- moves _ (match ?x with _ => _ end) => destruct x eqn:?
  end.
Ltac quiet_solve :=
  repeat (intros; first [solve [eauto with moves] | apply moves_bind; [apply _|..] | moves_cases | progress autounfold with keeps]).
(** A function marks the text step by step, or it ends with the mark. *)
Ltac marks_solve :=
  intros; lazymatch goal with
  | |- marks make_dirty => apply marks_dirty
  | |- marks (vset (set_dirty true)) => apply marks_dirty
  | |- marks (mbind _ make_dirty) => apply marks_start; [apply marks_dirty|marked_solve]
  | |- marks (mbind _ (vset (set_dirty true))) => apply marks_start; [apply marks_dirty|marked_solve]
  | |- marks (mbind _ _) => apply marks_end; [solve [keeps_solve]|marks_solve]
  | |- marks (if ?b then _ else _) => destruct b; marks_solve
  | |- marks (match ?x with _ => _ end) => destruct x; marks_solve
  | |- marks _ => progress autounfold with keeps; marks_solve
  end
with marked_solve :=
  intros; first
    [ solve [eauto with moves]
    | apply moves_bind; [apply _|solve [marked_solve]|marked_solve]
    | moves_cases; marked_solve
    | solve [apply marks_marked; marks_solve]
    | progress autounfold with keeps; marked_solve ].

Section Quiet.
Context {D : Type} `{KernelOk D, !Console D, !ConsoleOk D}.

Lemma quiet_lalloc src n : moves quiet (lalloc src n).
Proof. unfold lalloc. quiet_solve. Qed.
#[local] Hint Resolve quiet_lalloc : moves.
Lemma quiet_free_lines ps : moves quiet (free_lines ps).
Proof. induction ps; cbn [free_lines]; quiet_solve. Qed.
Lemma quiet_copy_lines ps : moves quiet (copy_lines ps).
Proof. induction ps; cbn [copy_lines]; quiet_solve. Qed.
Lemma quiet_load_loop rest : forall c, moves quiet (load_loop rest c).
Proof. induction rest; intros; cbn [load_loop]; quiet_solve. Qed.
Lemma quiet_collect ps : moves quiet (collect (D := D) ps).
Proof. induction ps; cbn [collect]; quiet_solve. Qed.
Lemma quiet_draw_rows rs : moves quiet (draw_rows rs).
Proof. induction rs; cbn [draw_rows]; quiet_solve. Qed.
Lemma quiet_search_turns x y ts : moves quiet (search_turns (D := D) x y ts).
Proof. induction ts; cbn [search_turns]; quiet_solve. Qed.
Lemma quiet_first_turns y ts : moves quiet (first_turns (D := D) y ts).
Proof. induction ts; cbn [first_turns]; quiet_solve. Qed.
Lemma quiet_find_back y cs : moves quiet (find_back (D := D) y cs).
Proof. induction cs; cbn [find_back]; quiet_solve. Qed.
#[local] Hint Resolve quiet_find_back : moves.
Lemma quiet_back_turns x y ts : moves quiet (back_turns (D := D) x y ts).
Proof. induction ts; cbn [back_turns]; quiet_solve. Qed.
#[local] Hint Resolve quiet_free_lines quiet_copy_lines quiet_load_loop quiet_collect quiet_draw_rows quiet_search_turns
  quiet_first_turns quiet_back_turns : moves.
Lemma quiet_draw : moves quiet draw.
Proof. quiet_solve. Qed.
Lemma quiet_move_key key x y len (m : state (ed D) unit) : move_key key x y len = Some m -> moves quiet m.
Proof. unfold move_key. intros E. repeat case_match; simplify_eq; quiet_solve. Qed.
Lemma quiet_pending_key p key y len : moves quiet (pending_key p key y len).
Proof. quiet_solve. Qed.
Lemma quiet_edit_command key x y len : key <> KEY_CTRL_S -> moves quiet (edit_command key x y len).
Proof.
  intros Hk. unfold edit_command. rewrite (proj2 (Z.eqb_neq key KEY_CTRL_S)) by done. quiet_solve.
Qed.
End Quiet.

(** ** The mark *)

Section Marked.
Context {D : Type} `{KernelOk D, !Console D, !ConsoleOk D}.

Lemma marked_lalloc src n : moves marked (lalloc (D := D) src n).
Proof. unfold lalloc. marked_solve. Qed.
#[local] Hint Resolve marked_lalloc : moves.
Lemma marked_free_lines ps : moves marked (free_lines (D := D) ps).
Proof. induction ps; cbn [free_lines]; marked_solve. Qed.
Lemma marked_copy_lines ps : moves marked (copy_lines (D := D) ps).
Proof. induction ps; cbn [copy_lines]; marked_solve. Qed.
Lemma marked_draw_rows rs : moves marked (draw_rows (D := D) rs).
Proof. induction rs; cbn [draw_rows]; marked_solve. Qed.
Lemma marked_collect ps : moves marked (collect (D := D) ps).
Proof. induction ps; cbn [collect]; marked_solve. Qed.
Lemma marked_search_turns x y ts : moves marked (search_turns (D := D) x y ts).
Proof. induction ts; cbn [search_turns]; marked_solve. Qed.
Lemma marked_first_turns y ts : moves marked (first_turns (D := D) y ts).
Proof. induction ts; cbn [first_turns]; marked_solve. Qed.
Lemma marked_find_back y cs : moves marked (find_back (D := D) y cs).
Proof. induction cs; cbn [find_back]; marked_solve. Qed.
#[local] Hint Resolve marked_find_back : moves.
Lemma marked_back_turns x y ts : moves marked (back_turns (D := D) x y ts).
Proof. induction ts; cbn [back_turns]; marked_solve. Qed.
#[local] Hint Resolve marked_free_lines marked_copy_lines marked_draw_rows marked_collect marked_search_turns
  marked_first_turns marked_back_turns : moves.
Lemma marked_draw : moves marked (draw (D := D)).
Proof. marked_solve. Qed.
Lemma marked_save_undo : moves marked (save_undo (D := D)).
Proof. marked_solve. Qed.
Lemma marked_delete_line r : moves marked (delete_line (D := D) r).
Proof. marked_solve. Qed.
#[local] Hint Resolve marked_save_undo marked_delete_line : moves.
Lemma marked_paste a : moves marked (paste (D := D) a).
Proof. marked_solve. Qed.
Lemma marked_open_line y : moves marked (open_line (D := D) y).
Proof. marked_solve. Qed.
Lemma marked_cut_word b y len : moves marked (cut_word (D := D) b y len).
Proof. marked_solve. Qed.
Lemma marked_move_key key x y len (m : state (ed D) unit) : move_key key x y len = Some m -> moves marked m.
Proof. unfold move_key. intros E. repeat case_match; simplify_eq; marked_solve. Qed.
Lemma marked_clear_line y : moves marked (clear_line (D := D) y).
Proof. marked_solve. Qed.
Lemma marked_yank_line y : moves marked (yank_line (D := D) y).
Proof. marked_solve. Qed.
#[local] Hint Resolve marked_clear_line marked_yank_line marked_paste marked_open_line marked_cut_word : moves.
Lemma marked_pending_key p key y len : moves marked (pending_key (D := D) p key y len).
Proof. unfold pending_key. marked_solve. Qed.
Lemma marked_join_below y len : moves marked (join_below (D := D) y len).
Proof. marked_solve. Qed.
#[local] Hint Resolve marked_join_below : moves.
Lemma marked_edit_command key x y len : key <> KEY_CTRL_S -> moves marked (edit_command (D := D) key x y len).
Proof.
  intros Hk. unfold edit_command. rewrite (proj2 (Z.eqb_neq key KEY_CTRL_S)) by done. marked_solve.
Qed.
End Marked.

#[export] Hint Resolve quiet_draw quiet_move_key quiet_pending_key quiet_lalloc quiet_free_lines quiet_copy_lines quiet_load_loop
  quiet_collect quiet_search_turns quiet_first_turns quiet_back_turns : moves.
#[export] Hint Resolve marked_draw marked_move_key marked_pending_key marked_lalloc marked_free_lines marked_copy_lines
  marked_collect marked_search_turns marked_first_turns marked_back_turns : moves.

Section Handlers.
Context {D : Type} `{KernelOk D, !Console D, !ConsoleOk D}.
Implicit Types (s : ed D) (v : vim) (t : text).

(** Both at once. *)
Definition calm_step {A} (m : state (ed D) A) : Prop := moves quiet m /\ moves marked m.

Lemma calm_insert key : calm_step (handle_insert key).
Proof. split; [quiet_solve|marked_solve]. Qed.
Lemma calm_search key : calm_step (handle_search key).
Proof. split; [quiet_solve|marked_solve]. Qed.
Lemma calm_command key : key <> KEY_ENTER -> calm_step (handle_command key).
Proof.
  intros Hk. unfold handle_command. rewrite (proj2 (Z.eqb_neq key KEY_ENTER)) by done. split; [quiet_solve|marked_solve].
Qed.
Lemma calm_normal key : key <> KEY_CTRL_S -> calm_step (handle_normal key).
Proof.
  intros Hk. pose proof (fun x y len => quiet_edit_command key x y len Hk). pose proof (fun x y len => marked_edit_command key x y len Hk).
  unfold handle_normal. split; [quiet_solve|].
  apply moves_bind; [apply _|marked_solve|]. intros _. apply moves_bind; [apply _|marked_solve|]. intros v.
  apply moves_bind; [apply _|marked_solve|]. intros len. case_match; [marked_solve|].
  destruct (move_key _ _ _ _) eqn:E; [by eapply marked_move_key|done].
Qed.
End Handlers.
