(* ===== verification/EditorStore.v ===== *)
(** * The editor and its file

    [edit_store] is what the editor needs of the VFS and of the file system below.
    Against it the status line is shown to tell the truth: while the mark "[+]"
    is off, the file holds the text on the screen. *)

From Stdlib Require Import Ascii.
From stdpp Require Import strings.
From S2P Require Import Prelude Machine VfsTypes CLib Printf Vfs Keyboard Vga Task Syscall SyscallFd ShellLine.
From S2P Require Import Editor EditorText EditorLogic EditorRefine EditorKeys EditorSession EditorFile.

(** ** The file *)

Definition text_of (p : line_ptr) : list Z := match p with Some (_, b) => cstr b | None => [] end.
(** A file that was saved with these lines, or shows them when it is loaded; a
    save that ran out of space leaves an empty file. *)
Definition agrees (c : list Z) (ls : list (list Z)) : Prop := c = doc_bytes ls \/ load_lines c = ls \/ c = [].

(** What the editor needs of the VFS and the file system for the file at [path],
    which holds [c] in the states [Holds c]; [limit] bounds the size of files. *)
Record edit_store {D} `{KernelOk D} (path : list Z) (limit : Z) (Holds : list Z -> vfs D -> Prop) : Prop := {
  es_bytes c k : Holds c k -> bytes_ok c;
  es_mounted c k : Holds c k -> mount_table k <> [];
  es_frame c k k' : Holds c k -> same_files k k' -> Holds c k';
  es_read c k : Holds c k -> run (vfs_read_file sys_uid sys_gid path) k (fun r k' => Holds c k' /\
    ((exists p, r = Done (p, c ++ [0], Z.of_nat (length c))) \/ exists rc, r = Err rc));
  es_write c data k : Holds c k -> bytes_ok data -> Z.of_nat (length data) <= limit ->
    run (vfs_write_file sys_uid sys_gid path data VFS_O_TRUNC) k (fun r k' =>
      (r = Done tt /\ Holds data k') \/ exists rc, r = Err rc /\ (Holds c k' \/ Holds [] k'));
}.

(** The largest file the editor writes. *)
Definition MAX_FILE : Z := 512 * 256.

Lemma doc_bytes_cons l ls : doc_bytes (l :: ls) = l ++ 10 :: doc_bytes ls.
Proof. unfold doc_bytes. cbn [fmap list_fmap concat]. by rewrite <- (assoc_L (++)). Qed.

Section Filed.
Context {D : Type} `{KernelOk D, !Console D, !ConsoleOk D}.
Context {path : list Z} {limit : Z} {Holds : list Z -> vfs D -> Prop} (ES : edit_store path limit Holds) (Hlimit : MAX_FILE <= limit).
(** [G]: the file could be read when it was opened. *)
Context {G : Prop}.
Implicit Types (s : ed D) (v : vim) (t : text).

Definition filed s : Prop := exists c, cstr (vm_path (ed_vim s)) = path /\ Holds c (ed_sys s) /\
  (G -> vm_dirty (ed_vim s) = false -> agrees c (text_of <$> vm_buf (ed_vim s))).
Definition lined s : Prop := exists ls, Forall2 line_rep (vm_buf (ed_vim s)) ls /\ (length ls <= LINES)%nat.

Lemma filed_calm {A} (m : state (ed D) A) s : calm_step m -> filed s -> ed_fault (m s).2 = false -> filed (m s).2.
Proof.
  intros [Hq Hm] (c & Hp & Hh & Ha) Hf. destruct (Hq s) as [Q1 Q2], (Hm s) as [_ M]. exists c.
  split; [by rewrite Q1|]. split; [by eapply es_frame|]. intros Hg Hd. destruct M as [?|[?|[E1 E2]]]; [congruence..|].
  rewrite E2. apply Ha; [done|]. by rewrite <- E1.
Qed.

(** The commands that save leave the text alone. *)
Record saved s s' : Prop := {
  sv_fault : ed_fault s = true -> ed_fault s' = true;
  sv_filed : lined s -> filed s -> ed_fault s' = false -> filed s' /\ vm_buf (ed_vim s') = vm_buf (ed_vim s);
}.
#[local] Instance saved_preorder : PreOrder saved.
Proof.
  split; [by split|]. intros s1 s2 s3 [A1 B1] [A2 B2]. split; [tauto|]. intros L F Hf.
  assert (ed_fault s2 = false) as Hf2 by (destruct (ed_fault s2); [by rewrite A2 in Hf|done]).
  destruct (B1 L F Hf2) as [F2 E2]. destruct B2 as [F3 E3]; [by unfold lined in *; rewrite E2|done|done|]. by rewrite E3.
Qed.

(** Steps that leave the text and the files alone. *)
Lemma saved_calm {A} (m : state (ed D) A) : calm_step m -> (forall s, vm_buf (ed_vim (m s).2) = vm_buf (ed_vim s)) -> moves saved m.
Proof.
  intros Hc Hb s. split; [apply (proj2 Hc s)|]. intros L F Hf. split; [by apply filed_calm|apply Hb].
Qed.
Lemma saved_vset f : (forall v, vm_path (f v) = vm_path v /\ vm_dirty (f v) = vm_dirty v /\ vm_buf (f v) = vm_buf v) -> moves saved (vset f).
Proof.
  intros Hf. apply saved_calm; [split|intros s; apply Hf].
  - apply quiet_vset. intros v. apply Hf.
  - apply marked_vset. intros v. right. split; apply Hf.
Qed.
Lemma saved_undefined : moves saved undefined.
Proof. apply saved_calm; [split; [apply quiet_undefined|apply marked_undefined]|done]. Qed.
Lemma saved_fault : moves saved fault.
Proof. apply saved_calm; [split; [apply quiet_faults|apply marked_faults]|done]. Qed.
Lemma saved_sys {A} (m : state (vfs D) A) : (forall k, same_files k (m k).2) -> moves saved (on_sys m).
Proof.
  intros Hm. apply saved_calm; [split; [by apply quiet_sys|apply marked_sys]|]. intros s. unfold on_sys. by destruct (m (ed_sys s)).
Qed.

Lemma ok_saved {A} (m : state (ed D) A) s (Q : A -> ed D -> Prop) : moves saved m -> lined s -> filed s ->
  (forall a s', lined s' -> filed s' -> vm_buf (ed_vim s') = vm_buf (ed_vim s) -> Q a s') -> ok m s Q.
Proof.
  intros Hm L F HQ. specialize (Hm s). unfold ok, run. destruct (m s) as [a s'] eqn:E. cbn [fst snd] in *.
  destruct (ed_fault s') eqn:Ef; [by left|right]. destruct (sv_filed _ _ Hm L F Ef) as [F' Eb]. apply HQ; [|done..].
  unfold lined in *. by rewrite Eb.
Qed.
Lemma ok_look {A} (f : vim -> A) s (Q : A -> ed D -> Prop) : Q (f (ed_vim s)) s -> ok (vget f) s Q.
Proof. by right. Qed.

Lemma ok_sys_files {A} (m : state (vfs D) A) s (Q : A -> ed D -> Prop) : (forall k, same_files k (m k).2) ->
  (forall a s', ed_vim s' = ed_vim s -> same_files (ed_sys s) (ed_sys s') -> Q a s') -> ok (on_sys m) s Q.
Proof. intros Hm HQ. right. unfold on_sys. specialize (Hm (ed_sys s)). destruct (m (ed_sys s)). by apply HQ. Qed.

Lemma collect_text ps : forall s (Q : list Z -> ed D -> Prop),
  (forall s', ed_vim s' = ed_vim s -> ed_sys s' = ed_sys s -> Q (doc_bytes (text_of <$> ps)) s') -> ok (collect ps) s Q.
Proof.
  induction ps as [|p ps IH]; intros s Q HQ; cbn [collect fmap list_fmap] in *; [by apply ok_ret, HQ|].
  rewrite doc_bytes_cons in HQ. nx.
  assert (forall s1, ed_vim s1 = ed_vim s -> ed_sys s1 = ed_sys s -> ok (rest ← collect ps; mret (text_of p ++ 10 :: rest)) s1 Q) as Hr.
  { intros s1 E1 E2. nx. apply IH. intros s2 E3 E4. apply ok_ret, HQ; congruence. }
  destruct p as [[a b]|]; cbn [text_of] in *; nx; [|by right; apply ok_ret, Hr].
  unfold check. case_match; [by apply ok_ret, ok_ret, Hr|by right; apply ok_ret, Hr].
Qed.

Lemma doc_bytes_fit ls buf : Forall2 line_rep buf ls -> text_of <$> buf = ls /\
  bytes_ok (doc_bytes ls) /\ Z.of_nat (length (doc_bytes ls)) <= 256 * Z.of_nat (length ls).
Proof.
  induction 1 as [|p l buf ls (a & b & -> & B) HF (IH1 & IH2 & IH3)]; [split_and!; [done|constructor|done]|].
  cbn [fmap list_fmap text_of length]. rewrite doc_bytes_cons, (bu_cstr _ _ B), IH1. split_and!; [done| |].
  - apply Forall_app_2; [apply line_bytes, B|]. constructor; [unfold is_u8; lia|done].
  - pose proof (bu_fits _ _ B). rewrite length_app. cbn [length]. lia.
Qed.

Lemma write_saved data s (Q : res unit -> ed D -> Prop) : filed s -> lined s -> data = doc_bytes (text_of <$> vm_buf (ed_vim s)) ->
  (forall r s', ed_vim s' = ed_vim s -> lined s' -> (r = Done tt -> Holds data (ed_sys s')) -> (r <> Overflow -> filed s') -> Q r s') ->
  ok (on_sys (vfs_write_file sys_uid sys_gid path data VFS_O_TRUNC)) s Q.
Proof.
  intros (c & Hp & Hh & Ha) (ls & HF & Hl) -> HQ. destruct (doc_bytes_fit _ _ HF) as (E1 & E2 & E3). rewrite E1 in *.
  pose proof (es_write _ _ _ ES c (doc_bytes ls) (ed_sys s) Hh E2) as Hw.
  right. unfold on_sys. unfold run in Hw. destruct (vfs_write_file _ _ _ _ _ _) as [r k]. cbn [fst snd] in *.
  apply HQ; [done|by exists ls|..].
  - intros ->. destruct Hw as [[_ ?]|(rc & ? & _)]; [unfold MAX_FILE, LINES in *; lia|done|done].
  - intros _. unfold filed. cbn [ed_vim ed_sys]. destruct Hw as [[-> ?]|(rc & -> & [?|?])]; [unfold MAX_FILE, LINES in *; lia|..].
    + exists (doc_bytes ls). split_and!; [done|done|]. intros _ _. left. by rewrite E1.
    + exists c. split_and!; [done|done|]. by rewrite E1.
    + exists []. split_and!; [done|done|]. intros _ _. by right; right.
Qed.

Lemma saved_intro {A} (m : state (ed D) A) : keeps m ->
  (forall s, lined s -> filed s -> ok m s (fun _ s' => filed s' /\ vm_buf (ed_vim s') = vm_buf (ed_vim s))) -> moves saved m.
Proof.
  intros Hk Hm s. split; [apply Hk|]. intros L F Hf. specialize (Hm s L F). unfold ok, run in Hm.
  destruct (m s) as [a s']. cbn [fst snd] in *. destruct Hm; [congruence|done].
Qed.

Lemma saved_malloc n : moves saved (on_sys (lift_d (k_malloc n))).
Proof. apply saved_sys, files_lift, kf_malloc. Qed.
Lemma saved_free p : moves saved (on_sys (lift_d (k_free p))).
Proof. apply saved_sys, files_lift, kf_free. Qed.
Lemma saved_set_msg m : moves saved (set_msg m).
Proof. apply saved_vset. done. Qed.
Lemma saved_msg_printf fmt args : moves saved (msg_printf fmt args).
Proof.
  unfold msg_printf. apply moves_bind; [apply _|apply moves_vget, _|]. intros v. repeat case_match; first [by apply saved_vset|apply saved_undefined].
Qed.

Lemma saved_save : moves saved save_file.
Proof.
  apply saved_intro; [keeps_solve|]. intros s L F. unfold save_file. nx. apply ok_look. nx. apply collect_text. intros s1 V1 K1.
  assert (lined s1 /\ filed s1) as [L1 F1] by (unfold lined, filed in *; by rewrite V1, K1). rewrite <- V1 in *.
  nx. eapply ok_saved; [apply saved_malloc|exact L1|exact F1|]. intros [out|] s2 L2 F2 B2; cbv beta.
  2: { nx. eapply ok_saved; [apply saved_set_msg|exact L2|exact F2|]. intros _ s3 _ F3 B3. apply ok_ret. by rewrite B3. }
  nx. eapply ok_saved; [apply saved_sys; by intros k|exact L2|exact F2|]. intros m s3 L3 F3 B3. cbv beta.
  rewrite <- B2, <- B3. clear L F V1 K1 L1 F1 B2 B3 L2 F2. destruct m; cbn [negb].
  2: { nx. eapply ok_saved; [apply saved_free|exact L3|exact F3|]. intros _ s4 L4 F4 B4. nx.
       eapply ok_saved; [apply saved_set_msg|exact L4|exact F4|]. intros _ s5 _ F5 B5. apply ok_ret. by rewrite B5. }
  nx. apply ok_look. assert (cstr (vm_path (ed_vim s3)) = path) as -> by (destruct F3 as (? & ? & _); done).
  nx. eapply write_saved; [exact F3|exact L3|done|]. intros r s4 V4 L4 Hd Hr. rewrite <- V4 in *.
  nx. eapply ok_sys_files; [apply files_lift, kf_free|]. intros _ s5 V5 K5. rewrite <- V5 in *. destruct r as [[]|rc|]; [..|by nx; left].
  - nx. right. set (s6 := (vset (set_dirty false) s5).2). assert (filed s6) as F6.
    { destruct (Hr ltac:(done)) as (c & Hp & _ & _). exists (doc_bytes (text_of <$> vm_buf (ed_vim s5))). rewrite <- V5 in Hp.
      split; [exact Hp|]. split; [|intros _ _; by left]. by eapply es_frame; [exact ES|apply Hd|]. }
    assert (lined s6) as L6 by (unfold lined in *; cbn; by rewrite V5).
    assert (vm_buf (ed_vim s5) = vm_buf (ed_vim s6)) as -> by done. clearbody s6. cbn beta. nx. apply ok_look. nx.
    eapply ok_saved; [apply saved_msg_printf|exact L6|exact F6|]. intros _ s7 _ F7 B7. by apply ok_ret.
  - assert (filed s5) as F5.
    { destruct (Hr ltac:(done)) as (c & Hp & Hh & Ha). exists c. rewrite V5. split; [done|]. split; [by eapply es_frame|done]. }
    assert (lined s5) as L5 by (unfold lined in *; by rewrite V5).
    nx. eapply ok_saved; [apply saved_msg_printf|exact L5|exact F5|]. intros _ s7 _ F7 B7. by apply ok_ret.
Qed.

Lemma saved_exec : moves saved exec_cmd.
Proof.
  unfold exec_cmd. apply moves_bind; [apply _|by apply saved_vset|]. intros _. apply moves_bind; [apply _|apply moves_vget, _|]. intros v.
  cbv zeta. apply moves_bind; [apply _| |intros _; by apply saved_vset].
  repeat case_match; try (apply moves_bind; [apply _|apply saved_save|]; intros r);
    repeat case_match; first [apply saved_set_msg|apply saved_msg_printf|by apply saved_vset|apply moves_ret, _].
Qed.

Lemma saved_enter : moves saved (handle_command KEY_ENTER).
Proof. unfold handle_command. apply moves_bind; [apply _|apply moves_vget, _|]. intros v. apply saved_exec. Qed.

Lemma saved_line i : moves saved (line_len i).
Proof.
  unfold line_len, line_text, line, check. repeat (apply moves_bind; [apply _|..|intros]);
    repeat case_match; first [apply moves_ret, _|apply moves_vget, _|apply saved_undefined|idtac].
  all: apply moves_bind; [apply _|apply saved_undefined|intros; apply moves_ret, _].
Qed.

Lemma saved_ctrl_s : moves saved (handle_normal KEY_CTRL_S).
Proof.
  unfold handle_normal. apply moves_bind; [apply _|by apply saved_vset|]. intros _. apply moves_bind; [apply _|apply moves_vget, _|]. intros v.
  apply moves_bind; [apply _|apply saved_line|]. intros len. case_match.
  - apply moves_bind; [apply _|by apply saved_vset|]. intros _. unfold pending_key. repeat case_match; try done; try apply moves_ret, _.
  - cbn. apply moves_bind; [apply _|apply saved_save|]. intros _. apply moves_ret, _.
Qed.

(** No key makes the status line lie. *)
Lemma handle_key_filed key s t (Q : unit -> ed D -> Prop) : shows s t -> filed s ->
  (forall s', shows s' (tx_key key t) -> filed s' -> Q tt s') -> ok (handle_key key) s Q.
Proof.
  intros S0 F HQ. assert (ed_fault (handle_key key s).2 = false -> filed (handle_key key s).2) as HF.
  { pose proof S0 as (v & [Av _] & R). intros Hf. unfold handle_key in *. unfold mbind, state_bind, vget, gets in *. rewrite Av, (rp_mode _ _ R) in *.
    assert (lined s) as L by (exists (doc_lines (tx_doc t)); rewrite Av; split; apply R).
    destruct (tx_mode t).
    - destruct (decide (key = KEY_CTRL_S)) as [->|Hk]; [by apply (saved_ctrl_s s)|by apply filed_calm; [apply calm_normal|..]].
    - by apply filed_calm; [apply calm_insert|..].
    - destruct (decide (key = KEY_ENTER)) as [->|Hk]; [by apply (saved_enter s)|by apply filed_calm; [apply calm_command|..]].
    - by apply filed_calm; [apply calm_search|..]. }
  pose proof (handle_key_ok key s t (fun _ s' => shows s' (tx_key key t)) S0 (fun s' S' => S')) as Hok.
  unfold ok, run in *. destruct (handle_key key s) as [[] s']. cbn [fst snd] in *. destruct (ed_fault s'); [by left|right].
  destruct Hok; [done|]. by apply HQ, HF.
Qed.

Lemma draw_filed s t (Q : unit -> ed D -> Prop) : shows s t -> filed s -> (forall s', shows s' t -> filed s' -> Q tt s') -> ok draw s Q.
Proof.
  intros S0 F HQ. pose proof (draw_ok s t (fun _ s' => shows s' t) S0 (fun s' S' => S')) as Hok.
  pose proof (filed_calm draw s (conj quiet_draw marked_draw) F) as HF.
  unfold ok, run in *. destruct (draw s) as [[] s']. cbn [fst snd] in *. destruct (ed_fault s'); [by left|right].
  destruct Hok; [done|]. by apply HQ, HF.
Qed.
End Filed.

(** ** Opening a file *)

Section Session.
Context {D : Type} `{KernelOk D, !Console D, !ConsoleOk D}.
Implicit Types (s : ed D) (t : text) (k : vfs D).

Lemma quiet_show path r : moves quiet (show_file path r).
Proof. quiet_solve. Qed.

Lemma ok_vset_sys f s v (Q : unit -> ed D -> Prop) : at_vim s v ->
  (forall s', at_vim s' (f v) -> ed_sys s' = ed_sys s -> Q tt s') -> ok (vset f) s Q.
Proof. intros [<- Hu] HQ. right. by apply HQ. Qed.

(** The path the editor keeps. *)
Lemma kept_path path : ShellLine.text_ok path -> (length path < 128)%nat -> cstr (strncpy_at (zeros 128) path 127) = path.
Proof.
  intros Ht Hl. unfold strncpy_at. rewrite take_ge by lia.
  replace (zeros 128) with ([] ++ replicate 127 0 ++ [0]) by done.
  rewrite (put_at [] (replicate 127 0)) by (rewrite ?length_app, ?length_replicate; cbn; lia). cbn [app]. rewrite <- (assoc_L (++)).
  change [0] with (replicate 1 0). rewrite <- replicate_add, Nat.add_comm. by apply ShellLine.cstr_text.
Qed.

(** The text after the keys. *)
Definition typed (t : text) (keys : list Z) : text := foldl (fun t key => tx_key key t) t keys.

(** The end of [editor_open]. *)
Definition closing (rest : list Z) : state (ed D) (option (list Z)) :=
  _ ← buf_free;
  v ← vget id;
  _ ← (if vm_has_undo v then free_lines (vm_ubuf v) else mret tt);
  _ ← on_vga vga_clear;
  mret (Some rest).

Lemma closing_ok rest s v (Q : option (list Z) -> ed D -> Prop) : at_vim s v ->
  (forall s', at_vim s' (set_buf [] v) -> same_files (ed_sys s) (ed_sys s') -> Q (Some rest) s') -> ok (closing rest) s Q.
Proof.
  intros A HQ. assert (moves quiet (closing rest)) as Hq by (unfold closing; quiet_solve).
  assert (ok (closing rest) s (fun r s' => r = Some rest /\ at_vim s' (set_buf [] v))) as Hok.
  { unfold closing, buf_free. nx. vg A. nx. eapply free_lines_ok; [exact A|]. intros s1 A1. eapply ok_vset; [exact A1|]. intros s2 A2. vg A2. nx.
    assert (forall s3, at_vim s3 (set_buf [] v) -> ok (_ ← on_vga vga_clear; mret (Some rest)) s3 (fun r s' => r = Some rest /\ at_vim s' (set_buf [] v))) as Hend.
    { intros s3 A3. nx. eapply on_vga_ok; [exact A3|]. intros s4 A4. by apply ok_ret. }
    case_match; [eapply free_lines_ok; [exact A2|exact Hend]|by apply ok_ret, Hend]. }
  specialize (Hq s). unfold ok, run in *. destruct (closing rest s) as [r s']. cbn [fst snd] in *. destruct Hok as [?|[-> A']]; [by left|right].
  apply HQ; [done|apply Hq].
Qed.

Lemma ok_on_vga_step f s v : at_vim s v -> exists s', on_vga f s = (tt, s') /\ at_vim s' v.
Proof. intros A. unfold on_vga, on_sys. destruct (on_d _ _) as [[] k]. eexists. by split. Qed.

(** An invariant of the keys, from the opened file to the end. *)
Lemma editor_open_inv (I : ed D -> Prop) path file keys s (Q : option (list Z) -> ed D -> Prop) :
  (forall s t (Q : unit -> ed D -> Prop), shows s t -> I s -> (forall s', shows s' t -> I s' -> Q tt s') -> ok draw s Q) ->
  (forall key s t (Q : unit -> ed D -> Prop), shows s t -> I s -> (forall s', shows s' (tx_key key t) -> I s' -> Q tt s') -> ok (handle_key key) s Q) ->
  ed_undef s = false -> found_file (vfs_read_file sys_uid sys_gid path (ed_sys s)).1 file ->
  (forall s' msg buf, at_vim s' (vim_open (strncpy_at (zeros 128) path 127) msg buf) -> Forall2 line_rep buf (first_lines file) ->
     same_files (vfs_read_file sys_uid sys_gid path (ed_sys s)).2 (ed_sys s') -> I s') ->
  (forall s' used rest v, keys = used ++ default [] rest -> at_vim s' v ->
     rep v (typed (start (first_lines file)) used) -> I s' ->
     match rest with Some rest => ok (closing rest) s' Q | None => Q None s' end) ->
  ok (editor_open path keys) s Q.
Proof.
  intros Hdraw Hkey Hu Hf HI HQ. unfold editor_open. nx. eapply (ok_vset_sys _ _ (ed_vim s)); [done|]. intros s1 A1 K1.
  nx. unfold load_file, buf_free. nx. vg A1. cbn [vm_buf set_vmode set_running vim_zero]. nx. apply ok_ret. cbv beta.
  eapply ok_vset_sys; [exact A1|]. intros s2 A2 K2. nx. eapply ok_vset_sys; [exact A2|]. intros s3 A3 K3. nx.
  rewrite <- K1, <- K2, <- K3 in *.
  eapply (ok_on_sys_run _ (fun r k => (r, k) = vfs_read_file sys_uid sys_gid path (ed_sys s3))); [exact A3|unfold run; by destruct (vfs_read_file _ _ _ _)|].
  intros r s4 A4 E4. rewrite <- E4 in *. cbn [fst snd] in *.
  pose proof (quiet_show path r s4) as Hq.
  assert (ok (show_file path r) s4 (fun _ s' => exists msg buf, at_vim s' (vim_open (strncpy_at (zeros 128) path 127) msg buf) /\
    length msg = 80%nat /\ Forall2 line_rep buf (first_lines file))) as Hok.
  { eapply show_file_ok; [exact A4|exact Hf|]. intros s5 msg buf A5 M5 F5. by exists msg, buf. }
  unfold ok at 1, run. unfold ok, run in Hok. destruct (show_file path r s4) as [[] s5]. cbn [fst snd] in *.
  destruct Hok as [?|(msg & buf & A5 & M5 & F5)]; [by left|right]. nx.
  pose proof (quiet_vga vga_clear s5) as Hq2. destruct (ok_on_vga_step vga_clear s5 _ A5) as (s6 & E6 & A6). rewrite E6 in Hq2.
  right. rewrite E6. cbn [fst snd] in *. change (ok (rest ← editor_loop keys; match rest with Some rest => closing rest | None => mret None end) s6 Q). nx.
  eapply (editor_loop_inv I Hdraw Hkey); [eexists; split; [exact A6|]; apply rep_start; [done|exact F5|apply first_length]| |].
  { eapply HI; [exact A6|exact F5|]. etrans; [apply Hq|apply Hq2]. }
  intros s7 used rest He (v & A7 & R7) I7. specialize (HQ s7 used rest v He A7 R7 I7). destruct rest; [exact HQ|by apply ok_ret].
Qed.
End Session.

(** ** Saving and loading *)

Lemma pieces_line l rest : 10 ∉ l -> forall acc, pieces (l ++ 10 :: rest) acc = (acc ++ l) :: pieces rest [].
Proof.
  induction l as [|c l IH]; intros Hn acc; cbn [app pieces]; [by rewrite app_nil_r|].
  apply not_elem_of_cons in Hn as [Hc Hn]. rewrite (proj2 (Z.eqb_neq c 10)) by done. rewrite IH by done. by rewrite <- (assoc_L (++)).
Qed.

Lemma text_no_lf l : text_ok l -> 10 ∉ l.
Proof. intros Ht Hin. unfold text_ok in Ht. rewrite Forall_forall in Ht. by destruct (Ht _ Hin). Qed.

Lemma pieces_doc ls : Forall text_ok ls -> pieces (doc_bytes ls) [] = ls ++ [[]].
Proof.
  induction 1 as [|l ls Hl _ IH]; [done|]. rewrite doc_bytes_cons, pieces_line by by apply text_no_lf. by rewrite IH.
Qed.

Lemma clip_text l : text_ok l -> (length l <= COLS)%nat -> clip l = l.
Proof.
  intros Ht Hl. unfold clip. rewrite take_ge by done. clear Hl. induction Ht as [|c l [Hc _] _ IH]; [done|]. cbn [cstr].
  rewrite (proj2 (Z.eqb_neq c 0)) by lia. by rewrite IH.
Qed.

Lemma doc_bytes_last ls : ls <> [] -> last (doc_bytes ls) = Some 10.
Proof.
  destruct ls as [|l ls _] using rev_ind; [done|]. intros _. unfold doc_bytes. rewrite fmap_app, concat_app. cbn [fmap list_fmap concat].
  by rewrite app_nil_r, (assoc_L (++)), last_snoc.
Qed.

(** Lines come back from the file they are written to, except an empty line 512. *)
Lemma load_saved ls : Forall (fun l => text_ok l /\ (length l <= COLS)%nat) ls -> (1 <= length ls <= LINES)%nat ->
  load_lines (doc_bytes ls) = if bool_decide (length ls = LINES /\ last ls = Some []) then take (pred LINES) ls else ls.
Proof.
  intros Hls Hn. apply Forall_and in Hls as [Ht Hc]. assert (ls <> []) as Hne by (intros ->; cbn in Hn; lia).
  assert (clip <$> ls = ls) as Hclip.
  { rewrite <- (list_fmap_id ls) at 2. apply list_fmap_ext. intros i l Hl.
    apply clip_text; [by apply (Forall_lookup_1 _ _ _ _ Ht Hl)|by apply (Forall_lookup_1 _ _ _ _ Hc Hl)]. }
  unfold load_lines. rewrite doc_bytes_last by done. rewrite (bool_decide_true (Some 10 = Some 10)) by done. rewrite andb_true_r.
  destruct (decide (length ls = LINES)) as [E|E].
  - replace (clip <$> take LINES (pieces (doc_bytes ls) [])) with ls by (rewrite pieces_doc, <- E, take_app_length by done; done).
    rewrite bool_decide_true by (rewrite E; unfold LINES; lia).
    cbn [andb]. case_bool_decide as Hl; [by rewrite bool_decide_true, E|]. rewrite bool_decide_false; [done|tauto].
  - replace (clip <$> take LINES (pieces (doc_bytes ls) [])) with (ls ++ [[]])
      by (rewrite pieces_doc by done; rewrite take_ge by (rewrite length_app; cbn; lia); by rewrite fmap_app, Hclip).
    rewrite (bool_decide_false (length ls = LINES /\ _)) by tauto.
    rewrite (bool_decide_true (last _ = _)) by apply last_snoc. rewrite bool_decide_true by (rewrite length_app; cbn; lia). cbn [andb].
    rewrite length_app. replace (pred (length ls + length [[]])) with (length ls) by (cbn; lia). by rewrite take_app_length.
Qed.

(** ** Main results *)

Section Theorems.
Context {D : Type} `{KernelOk D, !Console D, !ConsoleOk D}.

(** The bytes [save_file] makes of the lines, shown as [load_file] shows a file. *)
Definition reopen (path : list Z) (p : Z) (buf : list line_ptr) : state (ed D) unit :=
  t ← collect buf; show_file path (Done (p, t ++ [0], Z.of_nat (length t))).

Lemma ok_until {A} (m : state (ed D) A) s (Q : A -> ed D -> Prop) : ok m s Q -> run m s (fun a s' => ed_fault s' = true \/ Q a s').
Proof. done. Qed.

(** What the editor saves is what it loads.  The bytes that saving makes of
    the buffers of a text, read back as a file, show the same lines again; the
    one exception is a text of 512 lines the last of which is empty, which
    comes back without it.  Nothing undefined happens unless the heap ran out. *)
Theorem editor_save_load path vpath p buf ls (s : ed D) :
  at_vim s (vim_open vpath (zeros 80) []) -> Forall2 line_rep buf ls -> (1 <= length ls <= LINES)%nat ->
  run (reopen path p buf) s (fun _ s' => ed_fault s' = true \/
    shows s' (start (if bool_decide (length ls = LINES /\ last ls = Some []) then take (pred LINES) ls else ls))).
Proof.
  intros A HF Hn. assert (Forall (fun l => text_ok l /\ (length l <= COLS)%nat) ls) as Hls.
  { clear A Hn. induction HF as [|q l buf ls (a & b & -> & B) _ IH]; constructor; [|done]. pose proof (bu_fits _ _ B). split; [apply B|unfold COLS; lia]. }
  rewrite <- (load_saved ls Hls Hn). apply ok_until. unfold reopen. nx. eapply collect_ok; [exact HF|exact A|].
  eapply (show_file_ok _ _ (Some (doc_bytes ls))); [exact A|split; [apply (doc_bytes_fit _ _ HF)|by exists p]|].
  intros s' msg buf' A' Hm HF'. eexists. split; [exact A'|]. apply rep_start; [done|exact HF'|apply load_length].
Qed.

(** C5: The editor implements its text.  After any keys, whatever file was opened
    (or none), the buffers, the cursor, the mode, the command line, the yanked
    line, the undo copy and the search pattern are those of the text editor
    [tx_key] run on the lines of the file; no access leaves a buffer and no null
    pointer is used, unless the heap ran out (or a path buffer of the VFS did). *)
Theorem editor_refines path file keys (s : ed D) :
  ed_undef s = false -> found_file (vfs_read_file sys_uid sys_gid path (ed_sys s)).1 file ->
  run (editor_open path keys) s (fun rest s' => ed_fault s' = true \/
    (ed_undef s' = false /\ (rest = None -> shows s' (typed (start (first_lines file)) keys)))).
Proof.
  intros Hu Hf. apply ok_until. eapply (editor_open_inv (fun _ => True) path file); [| |exact Hu|exact Hf|by intros|].
  - intros s0 t Q S0 _ HQ. eapply draw_ok; [exact S0|]. intros s1 S1. by apply HQ.
  - intros key s0 t Q S0 _ HQ. eapply handle_key_ok; [exact S0|]. intros s1 S1. by apply HQ.
  - intros s' used [rest|] v -> A R _.
    + eapply closing_ok; [exact A|]. intros s2 A2 _. by split; [apply A2|].
    + split; [apply A|]. intros _. rewrite app_nil_r. by exists v.
Qed.

End Theorems.
