(* ===== verification/EditorExt2.v ===== *)
(** * The editor on an EXT2 volume

    The kernel of KernelState.v with its terminal and the EXT2 driver mounted at
    "/" keeps the contract of EditorStore.v for every regular file that the
    current user may read and write: a session of the editor is followed from
    the keys down to the sectors. *)

From Stdlib Require Import Ascii.
From stdpp Require Import strings.
From S2P Require Import Prelude Heap Time Machine Platform VfsTypes CLib Printf Vfs VfsPaths VfsResolve.
From S2P Require Import Keyboard Vga Task Syscall SyscallFd SyscallFiles ShellLine KernelState.
From S2P Require Import Ext2Layout Ext2Block Ext2Super Ext2Inode Ext2Alloc Ext2Inodes.
From S2P Require Import Ext2File Ext2Dir Ext2Dents Ext2Write Ext2Files Ext2Store Ext2Dirs Ext2Contents Ext2Demo VfsExt2 SyscallExt2.
From S2P Require Import Editor EditorText EditorLogic EditorRefine EditorKeys EditorSession EditorFile EditorStore.

(** ** The terminal *)

#[global] Instance kernel_console : Console kernel := {
  con_vga w := kn_vga w;
  con_set_vga g w := mk_kernel (kn_pl w) (kn_sched w) g (kn_keys w) (kn_mem w) (kn_esp w);
}.
#[global] Instance ext2_console : Console K := {
  con_vga e := con_vga (e_w e);
  con_set_vga g e := with_w (con_set_vga g (e_w e)) e;
}.
#[global] Instance ext2_console_ok : ConsoleOk K.
Proof. constructor. intros g e. split; [done|]. by split_and!. Qed.

(** ** A file of the volume *)

Section Store.
Context (d : disk_device) (T : gmap Z dmap) (cs : list (list Z)) (ino uid gid limit : Z).

(** The file holds [c] and the user may read and write it; [limit] is within
    the sizes the driver reads back. *)
Definition edits_file (c : list Z) (s : vfs K) : Prop := exists v n,
  vfs_file_at d v T cs ino n c uid gid s /\
  tree_apart (e_fs (v_drv s)) v T (map_owns v (vino (e_fs (v_drv s)) v ino) n) /\
  bytes_ok c /\ Z.of_nat (length c) < 2 ^ 31 /\
  vfs_access (file_stat s v ino) uid gid W_OK = true /\ vfs_access (file_stat s v ino) uid gid R_OK = true /\
  Z.of_nat (length c) <= iter_reach (e_fs (v_drv s)) * fs_block_size (e_fs (v_drv s)) /\
  limit <= iter_reach (e_fs (v_drv s)) * fs_block_size (e_fs (v_drv s)).

Lemma edits_kept v n c c' s s' v' n' : vfs_file_at d v T cs ino n c uid gid s ->
  file_kept d v T cs ino uid gid s s' v' n' c' -> bytes_ok c' -> Z.of_nat (length c') < 2 ^ 31 ->
  vfs_access (file_stat s v ino) uid gid W_OK = true -> vfs_access (file_stat s v ino) uid gid R_OK = true ->
  Z.of_nat (length c') <= iter_reach (e_fs (v_drv s)) * fs_block_size (e_fs (v_drv s)) ->
  limit <= iter_reach (e_fs (v_drv s)) * fs_block_size (e_fs (v_drv s)) -> edits_file c' s'.
Proof. intros F [F' HA' Er Eb Hacc] Hb Hl HW HR HL1 HL2. exists v', n'. rewrite !Hacc, Er, Eb. by split_and!. Qed.

Lemma file_is_edit_store : limit < 2 ^ 31 -> edit_store (render cs) limit edits_file.
Proof.
  intros Hlim. split; rewrite ?sys_ext2_uid, ?sys_ext2_gid.
  - by intros c k (v & n & F & HA & Hb & _).
  - intros c k (v & n & F & _). by eapply vfs_file_table.
  - intros c k k' (v & n & F & HA & Hb & Hl & HW & HR & HL) [Hm Hd]. pose proof (drv_same_fs _ _ Hd) as Ef.
    exists v, n. unfold file_stat in *. rewrite Ef. split; [by eapply vfs_file_drv|done].
  - intros c k (v & n & F & HA & Hb & Hl & HW & HR & HL1 & HL2).
    eapply run_mono; [by apply (vfs_read_file_ext2 d v T cs ino n c uid gid k)|]. intros r k' (_ & [v' HK] & Hr).
    split; [by eapply edits_kept|]. destruct Hr as [?|[-> _]]; [by left|right; by eexists].
  - intros c data k (v & n & F & HA & Hb & Hl & HW & HR & HL1 & HL2) Hd Hdl.
    eapply run_mono; [apply (vfs_write_file_ext2 d v T cs ino n c data VFS_O_TRUNC uid gid k); [done..|lia|done]|]. intros r k' (rc & HRp & Hm & ->).
    destruct (rewritten_file_at _ _ _ _ _ _ _ _ _ _ _ _ _ F HA HRp Hm) as (v' & n' & D & HK & [[-> ->]|(-> & -> & _)]).
    + left. split; [done|]. eapply edits_kept; [exact F|exact HK|done|lia|done..|lia|done].
    + right. exists (- ENOSPC). split; [done|]. right. eapply edits_kept; [exact F|exact HK|constructor|cbn; lia|done..|cbn; lia|done].
Qed.
End Store.

(** ** A session on the volume of Ext2Demo.v *)

Definition demo_ed : ed K := mk_ed vim_zero prog_vfs false false.

Lemma demo_edits : edits_file ata1 demo_tree [lit "f"] 12 1 1 MAX_FILE demo_data prog_vfs.
Proof.
  exists demo_v, 1.
  split; [by apply (vfs_file_machine ata1 demo_v demo_tree [lit "f"] 12 1 demo_data 1 1 demo_vfs prog_vfs prog_kernel); [apply demo_vfs_file|..]|].
  split; [apply demo_apart|]. split; [apply demo_data_bytes|]. by split_and!; vm_compute.
Qed.


Lemma editor_refines_witness :
  run (editor_open (lit "/f") (lit "ywxp")) demo_ed (fun rest s' => ed_fault s' = true \/
    (ed_undef s' = false /\ (rest = None -> shows s' (typed (start [demo_data]) (lit "ywxp"))))).
Proof.
  apply (editor_refines (lit "/f") (Some demo_data) (lit "ywxp") demo_ed); [done|].
  split; [apply demo_data_bytes|]. eexists. vm_compute. reflexivity.
Defined.

(** Deleting a character, inserting one, and saving: the new file reads "Zbc". *)
Example demo_session :
  let m : state (ed K) (res (Z * list Z * Z)) :=
    _ ← vset (fun _ => set_vmode NORMAL (set_running true vim_zero));
    _ ← load_file (lit "/f");
    _ ← handle_key (ch "x"); _ ← handle_key (ch "i"); _ ← handle_key (ch "Z"); _ ← handle_key KEY_ESCAPE;
    _ ← handle_key KEY_CTRL_S;
    on_sys (vfs_read_file sys_uid sys_gid (lit "/f")) in
  let '(r, s) := m demo_ed in
  (ed_fault s, ed_undef s, vm_dirty (ed_vim s), text_of <$> vm_buf (ed_vim s), match r with Done (_, c, n) => Some (sub c 0 n) | _ => None end) =
  (false, false, false, [lit "Zbc"], Some (lit "Zbc" ++ [10])).
Proof. by vm_compute. Qed.

(** The editor with one line, "abc". *)
Definition abc_ed : ed K := mk_ed (vim_open (zeros 128) (zeros 80) [Some (0x9000, put (zeros 256) 0 (lit "abc"))]) prog_vfs false false.
Lemma abc_shows : shows abc_ed (start [lit "abc"]).
Proof.
  eexists. split; [done|]. apply rep_start; [done| |cbn; unfold LINES; lia]. constructor; [|constructor].
  eexists _, _. split; [done|]. apply (bu_fresh (n := 256)); [by repeat constructor|cbn; lia].
Qed.

Lemma undo_insertion_witness :
  run (press (ch "a" :: lit "xy" ++ [KEY_ESCAPE; ch "u"])) abc_ed (fun _ s' => ed_fault s' = true \/
    exists t', shows s' t' /\ tx_doc t' = mk_doc [lit "abc"] 0 0).
Proof.
  apply (undo_insertion (ch "a") (lit "xy") abc_ed (start [lit "abc"])); [apply abc_shows|done|done|by vm_compute|].
  refine (bool_decide_unpack _ _). vm_compute. exact I.
Defined.

Lemma editor_save_load_witness :
  run (reopen (lit "/f") 0xA000 [Some (0x9000, put (zeros 256) 0 (lit "abc"))])
    (mk_ed (vim_open (zeros 128) (zeros 80) []) prog_vfs false false) (fun _ s' => ed_fault s' = true \/ shows s' (start [lit "abc"])).
Proof.
  apply (editor_save_load (lit "/f") (zeros 128) 0xA000 [Some (0x9000, put (zeros 256) 0 (lit "abc"))] [lit "abc"]
    (mk_ed (vim_open (zeros 128) (zeros 80) []) prog_vfs false false)); [done| |cbn; unfold LINES; lia].
  constructor; [|constructor]. eexists _, _. split; [done|]. apply (bu_fresh (n := 256)); [by repeat constructor|cbn; lia].
Defined.
