(* ===== verification/ShellState.v ===== *)
(** * The shell's state, output and environment (shell/sh.c, shell/builtins.c)

    The static variables of the shell: the working directory, the environment,
    the history and the two buffers the stages of a pipeline write to by turns,
    together with the output of the command that runs and the system below.
    [undef] marks what the C program leaves undefined: a read past a string that
    has no end, or a path that overran a buffer of the VFS. *)

From Stdlib Require Import Ascii.
From stdpp Require Import strings.
From S2P Require Import Prelude Heap Pmm VfsTypes CLib Printf Vfs Vga Task Syscall ShellParser ShellLine Elf Editor.

Definition SHELL_OUTPUT_CAP : Z := 16384.
Definition ENV_MAX : nat := 32.

(** [shell_output_t]: the buffer is one of the two stages. *)
Record shell_output := mk_output { o_buffer : bool; o_capacity : Z; o_length : Z; o_terminal : bool }.

Record env_var := mk_env { ev_key : list Z; ev_value : list Z }.

Record mem := mk_mem {
  sh_cwd : list Z; sh_env : list env_var; sh_history : list (list Z); stage_a : list Z; stage_b : list Z;
  sh_out : shell_output; sh_undef : bool;
}.
Implicit Types (m : mem).

Definition stage m (b : bool) : list Z := if b then stage_b m else stage_a m.
Definition set_stage (b : bool) (buf : list Z) m : mem :=
  if b then mk_mem (sh_cwd m) (sh_env m) (sh_history m) (stage_a m) buf (sh_out m) (sh_undef m)
  else mk_mem (sh_cwd m) (sh_env m) (sh_history m) buf (stage_b m) (sh_out m) (sh_undef m).
Definition set_cwd (cwd : list Z) m : mem :=
  mk_mem cwd (sh_env m) (sh_history m) (stage_a m) (stage_b m) (sh_out m) (sh_undef m).
Definition set_env (env : list env_var) m : mem :=
  mk_mem (sh_cwd m) env (sh_history m) (stage_a m) (stage_b m) (sh_out m) (sh_undef m).
Definition set_history (history : list (list Z)) m : mem :=
  mk_mem (sh_cwd m) (sh_env m) history (stage_a m) (stage_b m) (sh_out m) (sh_undef m).
Definition set_out (out : shell_output) m : mem :=
  mk_mem (sh_cwd m) (sh_env m) (sh_history m) (stage_a m) (stage_b m) out (sh_undef m).
Definition set_undef m : mem :=
  mk_mem (sh_cwd m) (sh_env m) (sh_history m) (stage_a m) (stage_b m) (sh_out m) true.

(** The environment of a new shell. *)
Definition env_slot (key value : list Z) : env_var :=
  mk_env (strncpy_at (zeros 32) key 31) (strncpy_at (zeros 96) value 95).
Definition env_init : list env_var :=
  [env_slot (lit "USER") (lit "root"); env_slot (lit "HOME") (lit "/"); env_slot (lit "PATH") (lit "/bin");
   env_slot (lit "SHELL") (lit "sh")].
Definition mem_init : mem :=
  mk_mem [SLASH] env_init [] (zeros SHELL_OUTPUT_CAP) (zeros SHELL_OUTPUT_CAP)
    (mk_output false SHELL_OUTPUT_CAP 0 false) false.

(** ** Environment *)

Fixpoint getenv_loop (env : list env_var) (key : list Z) : list Z :=
  match env with
  | [] => []
  | e :: env => if bool_decide (cstr (ev_key e) = key) then cstr (ev_value e) else getenv_loop env key
  end.
Definition shell_getenv (env : list env_var) (key : list Z) : list Z := getenv_loop env key.

(** The first entry with the key gets the value. *)
Fixpoint setenv_loop (env : list env_var) (key value : list Z) : option (list env_var) :=
  match env with
  | [] => None
  | e :: env =>
      if bool_decide (cstr (ev_key e) = key) then Some (mk_env (ev_key e) (strncpy_at (ev_value e) value 95) :: env)
      else cons e <$> setenv_loop env key value
  end.
Definition shell_setenv (env : list env_var) (key value : list Z) : Z * list env_var :=
  if bool_decide (key = []) || bool_decide (ch "=" ∈ key) then (-1, env) else
  match setenv_loop env key value with
  | Some env => (0, env)
  | None => if (ENV_MAX <=? length env)%nat then (-1, env) else (0, env ++ [env_slot key value])
  end.

(** ** The system below *)

(** What the commands read of the hardware and of the other components; the two
    functions of the FAT16 driver [df] calls. *)
Class Host (D : Type) := {
  h_cmos : D -> Z -> Z;
  h_frames : D -> pmm;
  h_heap : D -> Heap.heap;
  (** The address of [main_task]. *)
  h_main_task : D -> Z;
  h_fat_total : state D Z;
  h_fat_free : state D Z;
}.

Record sh (D : Type) := mk_sh { sh_mem : mem; sh_sys : vfs D }.
Arguments mk_sh {D}. Arguments sh_mem {D}. Arguments sh_sys {D}.

Section Output.
Context {D : Type} `{Kernel D}.
Abbreviation M := (state (sh D)).

Definition mget {A} (f : mem -> A) : M A := gets (fun s => f (sh_mem s)).
Definition mset (f : mem -> mem) : M unit := modify (fun s => mk_sh (f (sh_mem s)) (sh_sys s)).
Definition sys {A} (p : state (vfs D) A) : M A := fun s =>
  let '(a, k) := p (sh_sys s) in (a, mk_sh (sh_mem s) k).
Definition undef : M unit := mset set_undef.

(** A call of the VFS: [None] is an error. *)
Definition vcall {A} (p : state (vfs D) (res A)) : M (option A) :=
  r ← sys p;
  match r with
  | Done a => mret (Some a)
  | Err _ => mret None
  | Overflow => _ ← undef; mret None
  end.

(** [abs_path]; the commands call it and [vfs_normalize] the same way. *)
Definition abs_path (path : list Z) : M (list Z) :=
  cwd ← mget sh_cwd;
  match vfs_normalize (Some cwd) (Some path) with
  | Some p => mret p
  | None => _ ← undef; mret []
  end.

(** ** Output *)

Definition shell_out_write (data : list Z) : M unit :=
  out ← mget sh_out;
  let len := Z.of_nat (length data) in
  if o_terminal out then
    _ ← sys (putchars data);
    mset (set_out (mk_output (o_buffer out) (o_capacity out) (u32 (o_length out + len)) true))
  else
  let room := if o_length out <? o_capacity out then o_capacity out - o_length out - 1 else 0 in
  let chunk := if len <? room then len else room in
  if chunk =? 0 then mret tt else
  _ ← mset (fun m => set_stage (o_buffer out) (put (stage m (o_buffer out)) (o_length out) (sub data 0 chunk)) m);
  let n := o_length out + chunk in
  _ ← mset (set_out (mk_output (o_buffer out) (o_capacity out) n false));
  mset (fun m => set_stage (o_buffer out) (put (stage m (o_buffer out)) n [0]) m).

Definition shell_out_puts (str : list Z) : M unit := shell_out_write str.

Definition shell_out_printf (fmt : list Z) (args : list arg) : M unit :=
  match snprintf (Some (zeros 512)) 512 fmt args with
  | Some (Some tmp, _) => shell_out_puts (cstr tmp)
  | _ => undef
  end.

Definition line_feed : list Z := [10].

Fixpoint env_lines (env : list env_var) : M unit :=
  match env with
  | [] => mret tt
  | e :: env =>
      _ ← shell_out_printf (lit "%s=%s" ++ line_feed) [AText (Some (cstr (ev_key e))); AText (Some (cstr (ev_value e)))];
      env_lines env
  end.
Definition shell_env_list : M unit := env ← mget sh_env; env_lines env.
End Output.
