(* ===== verification/ShellBuiltins.v ===== *)
(** * The commands of the shell (shell/builtins.c)

    Every command of the table, over the state of ShellState.v.  A command gets
    its arguments and the text piped or redirected into it; its result is
    [None] when control does not come back: the editor waits for keys, the walk
    over the tasks does not end, or the machine is switched off. *)

From Stdlib Require Import Ascii.
From stdpp Require Import strings.
From S2P Require Import Prelude Heap Time Pmm VfsTypes CLib Printf Vfs Keyboard Vga Task Syscall ShellParser ShellLine Elf Editor ShellState.

(** ** The table *)

Inductive builtin_fn :=
| cmd_ls_fn | cmd_stat_fn | cmd_cd_fn | cmd_pwd_fn | cmd_mkdir_fn | cmd_rmdir_fn | cmd_rm_fn | cmd_cp_fn | cmd_mv_fn
| cmd_cat_fn | cmd_echo_fn | cmd_touch_fn | cmd_clear_fn | cmd_history_fn | cmd_date_fn | cmd_uname_fn | cmd_whoami_fn
| cmd_mount_fn | cmd_df_fn | cmd_free_fn | cmd_ps_fn | cmd_kill_fn | cmd_reboot_fn | cmd_shutdown_fn | cmd_help_fn
| cmd_env_fn | cmd_export_fn | cmd_editor_fn.

Record builtin := mk_builtin { b_name : list Z; b_summary : list Z; b_fn : builtin_fn }.

Definition builtins : list builtin :=
  [mk_builtin (lit "ls") (lit "list directory contents") cmd_ls_fn;
   mk_builtin (lit "stat") (lit "show inode/file metadata") cmd_stat_fn;
   mk_builtin (lit "cd") (lit "change directory") cmd_cd_fn;
   mk_builtin (lit "pwd") (lit "print working directory") cmd_pwd_fn;
   mk_builtin (lit "mkdir") (lit "create a directory") cmd_mkdir_fn;
   mk_builtin (lit "rmdir") (lit "remove an empty directory") cmd_rmdir_fn;
   mk_builtin (lit "rm") (lit "remove a file") cmd_rm_fn;
   mk_builtin (lit "cp") (lit "copy a file") cmd_cp_fn;
   mk_builtin (lit "mv") (lit "move or rename a file") cmd_mv_fn;
   mk_builtin (lit "cat") (lit "print files or stdin") cmd_cat_fn;
   mk_builtin (lit "echo") (lit "print text") cmd_echo_fn;
   mk_builtin (lit "touch") (lit "create an empty file") cmd_touch_fn;
   mk_builtin (lit "clear") (lit "clear the screen") cmd_clear_fn;
   mk_builtin (lit "history") (lit "show command history") cmd_history_fn;
   mk_builtin (lit "date") (lit "show CMOS date/time") cmd_date_fn;
   mk_builtin (lit "uname") (lit "show system name") cmd_uname_fn;
   mk_builtin (lit "whoami") (lit "show current user") cmd_whoami_fn;
   mk_builtin (lit "mount") (lit "show mounted filesystems") cmd_mount_fn;
   mk_builtin (lit "df") (lit "show filesystem space") cmd_df_fn;
   mk_builtin (lit "free") (lit "show memory usage") cmd_free_fn;
   mk_builtin (lit "ps") (lit "show tasks") cmd_ps_fn;
   mk_builtin (lit "kill") (lit "mark a task as stopped") cmd_kill_fn;
   mk_builtin (lit "reboot") (lit "restart the machine") cmd_reboot_fn;
   mk_builtin (lit "shutdown") (lit "power off the machine") cmd_shutdown_fn;
   mk_builtin (lit "help") (lit "show built-in commands") cmd_help_fn;
   mk_builtin (lit "env") (lit "show environment variables") cmd_env_fn;
   mk_builtin (lit "export") (lit "set environment variable") cmd_export_fn;
   mk_builtin (lit "vim") (lit "open the vim text editor") cmd_editor_fn;
   mk_builtin (lit "vi") (lit "open the vim text editor") cmd_editor_fn].

Definition shell_find_builtin (name : list Z) : option builtin := list_find (fun b => b_name b = name) builtins ≫= fun p => Some p.2.

(** ** Modes and dates *)

(** stat.h *)
Definition S_IFMT : Z := 0xF000.
Definition S_IFSOCK : Z := 0xC000.
Definition S_IFLNK : Z := 0xA000.
Definition S_IFREG : Z := 0x8000.
Definition S_IFBLK : Z := 0x6000.
Definition S_IFDIR : Z := 0x4000.
Definition S_IFCHR : Z := 0x2000.
Definition S_IFIFO : Z := 0x1000.
Definition is_fmt (fmt mode : Z) : bool := Z.land mode S_IFMT =? fmt.

Definition type_char (mode : Z) : Z :=
  if is_fmt S_IFDIR mode then ch "d" else if is_fmt S_IFLNK mode then ch "l" else if is_fmt S_IFCHR mode then ch "c"
  else if is_fmt S_IFBLK mode then ch "b" else if is_fmt S_IFIFO mode then ch "p" else if is_fmt S_IFSOCK mode then ch "s"
  else if is_fmt S_IFREG mode then ch "-" else ch "?".
Definition mode_bit (mode bit c : Z) : Z := if Z.land mode bit =? 0 then ch "-" else c.

(** [mode_to_string]: the ten characters before the NUL. *)
Definition mode_to_string (mode : Z) : list Z :=
  [type_char mode; mode_bit mode 0x100 (ch "r"); mode_bit mode 0x80 (ch "w"); mode_bit mode 0x40 (ch "x");
   mode_bit mode 0x20 (ch "r"); mode_bit mode 0x10 (ch "w"); mode_bit mode 8 (ch "x");
   mode_bit mode 4 (ch "r"); mode_bit mode 2 (ch "w"); mode_bit mode 1 (ch "x")].

Definition short_type_char (t : vfs_node_type) : Z :=
  match t with VFS_DIR => ch "d" | VFS_SYMLINK => ch "l" | VFS_FILE => ch "-" end.

Definition is_dot_name (name : list Z) : bool := bool_decide (name = lit ".") || bool_decide (name = lit "..").

Definition type_name (mode : Z) : list Z :=
  if is_fmt S_IFDIR mode then lit "directory" else if is_fmt S_IFLNK mode then lit "symbolic link"
  else if is_fmt S_IFCHR mode then lit "character device" else if is_fmt S_IFBLK mode then lit "block device"
  else if is_fmt S_IFIFO mode then lit "FIFO" else if is_fmt S_IFSOCK mode then lit "socket"
  else if is_fmt S_IFREG mode then lit "regular file" else lit "unknown".

(** ** The commands *)

(** Where a command's input comes from: a stage buffer, or the text of a
    redirection with the NUL behind it. *)
Inductive input := NoInput | FromStage (b : bool) | FromText (text : list Z).

Section Commands.
Context {D : Type} `{Kernel D, Console D, Host D}.
Abbreviation M := (state (sh D)).
Implicit Types (argv : list (list Z)).

(** [return n;] *)
Definition ret (n : Z) : M (option Z) := mret (Some n).
Definition argn argv (i : nat) : list Z := default [] (argv !! i).
Definition out_path (fmt path : list Z) : M unit := shell_out_printf (fmt ++ line_feed) [AText (Some path)].

(** [if (require_args(cmd, n, out, usage) != 0) return -1;] *)
Definition require_args argv (n : nat) (usage : list Z) (k : M (option Z)) : M (option Z) :=
  if (length argv <? n)%nat then _ ← out_path (lit "usage: %s") usage; ret (-1) else k.

Fixpoint help_lines (bs : list builtin) : M unit :=
  match bs with
  | [] => mret tt
  | b :: bs =>
      _ ← shell_out_printf (lit "%s - %s" ++ line_feed) [AText (Some (b_name b)); AText (Some (b_summary b))];
      help_lines bs
  end.
Definition cmd_help : M (option Z) :=
  _ ← help_lines builtins;
  _ ← shell_out_puts (lit "Pipes and redirection are supported: |, >, >>, <" ++ line_feed);
  ret 0.

Definition long_line (st : vfs_stat) (name : list Z) : M unit :=
  shell_out_printf (lit "%s %u %u %u %u %s" ++ line_feed)
    [AText (Some (mode_to_string (st_mode st))); AWord (st_nlink st); AWord (st_uid st); AWord (st_gid st);
     AWord (st_size st); AText (Some name)].
Definition short_line (t : vfs_node_type) (name : list Z) (size : Z) : M unit :=
  shell_out_printf (lit "%c %s %u" ++ line_feed) [AWord (short_type_char t); AText (Some name); AWord size].

Definition ls_cb (dir : list Z) (long_fmt show_all : bool) (entry : vfs_dirent) : M Z :=
  if is_dot_name (d_name entry) && negb show_all then mret 0 else
  if negb long_fmt then _ ← short_line (d_type entry) (d_name entry) (d_size entry); mret 0 else
  match vfs_normalize (Some dir) (Some (d_name entry)) with
  | None => _ ← undef; mret 0
  | Some path =>
      st ← vcall (vfs_lstat sys_uid sys_gid path);
      _ ← (match st with
           | None => shell_out_printf (lit "?????????? ? ? ? %u %s" ++ line_feed) [AWord (d_size entry); AText (Some (d_name entry))]
           | Some st => long_line st (d_name entry)
           end);
      mret 0
  end.

(** The callback in the driver: it finds the shell's memory and [last_error] in
    its context and the mount table where it is. *)
Definition in_callback (mounts : list (vfs_mount_t D)) (m : M Z) (u : mem * list Z) : state D (Z * (mem * list Z)) := fun d =>
  let '(r, s) := m (mk_sh u.1 (mk_vfs mounts u.2 d)) in
  ((r, (sh_mem s, last_error (sh_sys s))), v_drv (sh_sys s)).

(** The memory and [last_error] the callbacks left, and the result. *)
Definition end_listing (r : res unit) (m : mem) (err : list Z) : M (option Z) :=
  _ ← mset (fun _ => m);
  match r with
  | Done _ => _ ← sys (modify (fun k => mk_vfs (mount_table k) err (v_drv k))); ret 0
  | Err rc => ret rc
  | Overflow => _ ← undef; ret (-1)
  end.

Definition list_dir (path : list Z) (long_fmt show_all : bool) : M (option Z) :=
  m ← mget id;
  k ← sys get;
  let dir := take 255 path in
  r ← sys (vfs_readdir sys_uid sys_gid path
    (fun e => in_callback (mount_table k) (ls_cb dir long_fmt show_all e)) (m, last_error k));
  end_listing r.1 r.2.1 r.2.2.

(** The letters of an option; [None] at one that is not known. *)
Fixpoint ls_options (opts : list Z) (long_fmt show_all : bool) : M (option (bool * bool)) :=
  match opts with
  | [] => mret (Some (long_fmt, show_all))
  | p :: opts =>
      if p =? ch "l" then ls_options opts true show_all
      else if p =? ch "a" then ls_options opts long_fmt true
      else _ ← shell_out_printf (lit "ls: invalid option -- '%c'" ++ line_feed) [AWord p]; mret None
  end.

Fixpoint ls_args (args : list (list Z)) (long_fmt show_all : bool) (path : option (list Z))
    : M (option (bool * bool * option (list Z))) :=
  match args with
  | [] => mret (Some (long_fmt, show_all, path))
  | arg :: args =>
      if (byte_at arg 0 =? ch "-") && (1 <? length arg)%nat then
        o ← ls_options (drop 1 arg) long_fmt show_all;
        match o with
        | Some (long_fmt, show_all) => ls_args args long_fmt show_all path
        | None => mret None
        end
      else match path with
           | None => ls_args args long_fmt show_all (Some arg)
           | Some _ => _ ← shell_out_printf (lit "ls: too many arguments" ++ line_feed) []; mret None
           end
  end.

Definition cmd_ls argv : M (option Z) :=
  o ← ls_args (drop 1 argv) false false None;
  match o with
  | None => ret (-1)
  | Some (long_fmt, show_all, path_arg) =>
      path ← abs_path (default (lit ".") path_arg);
      st ← vcall (vfs_stat_path sys_uid sys_gid path);
      match st with
      | None => _ ← out_path (lit "ls: cannot access %s") path; ret (-1)
      | Some st =>
          if bool_decide (st_type st = VFS_DIR) then list_dir path long_fmt show_all else
          lst ← vcall (vfs_lstat sys_uid sys_gid path);
          let lst := default st lst in
          _ ← (if long_fmt : bool then long_line lst path else short_line (st_type lst) path (st_size lst));
          ret 0
      end
  end.

Definition out_number (fmt : list Z) (v : Z) : M unit := shell_out_printf (fmt ++ line_feed) [AWord v].

Definition cmd_stat argv : M (option Z) :=
  require_args argv 2 (lit "stat <path>") (
  path ← abs_path (argn argv 1);
  st ← vcall (vfs_stat_path sys_uid sys_gid path);
  match st with
  | None => _ ← out_path (lit "stat: cannot stat '%s'") path; ret (-1)
  | Some st =>
      let perm := Z.land (st_mode st) 0x1FF in
      let when t := cstr (format_epoch t 20) in
      _ ← out_path (lit "File: %s") path;
      _ ← out_number (lit "Inode: %u") (st_ino st);
      _ ← out_path (lit "Type: %s") (type_name (st_mode st));
      _ ← shell_out_printf (lit "Mode: 0%u%u%u (%s)" ++ line_feed)
            [AWord (Z.land (Z.shiftr perm 6) 7); AWord (Z.land (Z.shiftr perm 3) 7); AWord (Z.land perm 7);
             AText (Some (mode_to_string (st_mode st)))];
      _ ← out_number (lit "Links: %u") (st_nlink st);
      _ ← out_number (lit "UID: %u") (st_uid st);
      _ ← out_number (lit "GID: %u") (st_gid st);
      _ ← out_number (lit "Size: %u") (st_size st);
      _ ← out_number (lit "Blocks: %u") (st_blocks st);
      _ ← out_path (lit "Access: %s") (when (st_atime st));
      _ ← out_path (lit "Modify: %s") (when (st_mtime st));
      _ ← out_path (lit "Change: %s") (when (st_ctime st));
      ret 0
  end).

Definition cmd_cd argv : M (option Z) :=
  env ← mget sh_env;
  path ← abs_path (if (1 <? length argv)%nat then argn argv 1 else shell_getenv env (lit "HOME"));
  st ← vcall (vfs_stat_path sys_uid sys_gid path);
  if match st with Some st => bool_decide (st_type st = VFS_DIR) | None => false end
  then _ ← mset (set_cwd path); ret 0
  else _ ← out_path (lit "cd: not a directory: %s") path; ret (-1).

Definition cmd_pwd : M (option Z) :=
  cwd ← mget sh_cwd;
  _ ← out_path (lit "%s") cwd;
  ret 0.

(** The commands that pass one path on. *)
Definition path_command argv (usage failed : list Z) (op : list Z -> state (vfs D) (res unit)) : M (option Z) :=
  require_args argv 2 usage (
  path ← abs_path (argn argv 1);
  r ← vcall (op path);
  match r with
  | Some _ => ret 0
  | None => _ ← out_path failed path; ret (-1)
  end).
Definition cmd_mkdir argv : M (option Z) :=
  path_command argv (lit "mkdir DIR") (lit "mkdir: failed: %s") (vfs_mkdir sys_uid sys_gid).
Definition cmd_rmdir argv : M (option Z) :=
  path_command argv (lit "rmdir DIR") (lit "rmdir: failed: %s") (vfs_rmdir sys_uid sys_gid).
Definition cmd_rm argv : M (option Z) :=
  path_command argv (lit "rm FILE") (lit "rm: failed: %s") (vfs_unlink sys_uid sys_gid).

(** Reading [src], writing [dst] and releasing the copy: [None] when the file
    cannot be read, else the success of the write. *)
Definition copy_file (src dst : list Z) : M (option bool) :=
  r ← vcall (vfs_read_file sys_uid sys_gid src);
  match r with
  | None => mret None
  | Some (p, data, size) =>
      w ← vcall (vfs_write_file sys_uid sys_gid dst (sub data 0 size) VFS_O_TRUNC);
      _ ← sys (lift_d (k_free (Some p)));
      mret (Some (bool_decide (w = Some tt)))
  end.

Definition cmd_cp argv : M (option Z) :=
  require_args argv 3 (lit "cp SRC DST") (
  src ← abs_path (argn argv 1);
  dst ← abs_path (argn argv 2);
  r ← copy_file src dst;
  match r with
  | None => _ ← out_path (lit "cp: cannot read %s") src; ret (-1)
  | Some false => _ ← out_path (lit "cp: cannot write %s") dst; ret (-1)
  | Some true => ret 0
  end).

Definition cmd_mv argv : M (option Z) :=
  require_args argv 3 (lit "mv SRC DST") (
  src ← abs_path (argn argv 1);
  dst ← abs_path (argn argv 2);
  r ← vcall (vfs_rename sys_uid sys_gid src dst);
  match r with
  | Some _ => ret 0
  | None =>
      c ← copy_file src dst;
      match c with
      | None => _ ← out_path (lit "mv: cannot read %s") src; ret (-1)
      | Some true => _ ← vcall (vfs_unlink sys_uid sys_gid src); ret 0
      | Some false => _ ← shell_out_puts (lit "mv: failed" ++ line_feed); ret (-1)
      end
  end).

(** [input ? input : ""] as a string. *)
Definition input_text (i : input) : M (list Z) :=
  match i with
  | NoInput => mret []
  | FromText t => mret (cstr t)
  | FromStage b =>
      buf ← mget (fun m => stage m b);
      if bool_decide (0 ∈ buf) then mret (cstr buf) else _ ← undef; mret []
  end.

Fixpoint cat_files (paths : list (list Z)) : M (option Z) :=
  match paths with
  | [] => ret 0
  | arg :: paths =>
      path ← abs_path arg;
      r ← vcall (vfs_read_file sys_uid sys_gid path);
      match r with
      | None => _ ← out_path (lit "cat: cannot read %s") path; ret (-1)
      | Some (p, data, size) =>
          _ ← shell_out_write (sub data 0 size);
          _ ← sys (lift_d (k_free (Some p)));
          cat_files paths
      end
  end.
Definition cmd_cat argv (i : input) : M (option Z) :=
  if (length argv =? 1)%nat then t ← input_text i; _ ← shell_out_puts t; ret 0
  else cat_files (drop 1 argv).

Definition echo_expanded (arg : list Z) : M unit :=
  if negb (byte_at arg 0 =? ch "$") then shell_out_puts arg else
  env ← mget sh_env; shell_out_puts (shell_getenv env (drop 1 arg)).
Fixpoint echo_args (args : list (list Z)) (first : bool) : M unit :=
  match args with
  | [] => mret tt
  | arg :: args =>
      _ ← (if first then mret tt else shell_out_puts (lit " "));
      _ ← echo_expanded arg;
      echo_args args false
  end.
Definition cmd_echo argv : M (option Z) :=
  _ ← echo_args (drop 1 argv) true;
  _ ← shell_out_puts line_feed;
  ret 0.

Definition cmd_touch argv : M (option Z) :=
  require_args argv 2 (lit "touch FILE") (
  path ← abs_path (argn argv 1);
  r ← vcall (vfs_create sys_uid sys_gid path);
  match r with
  | Some _ => ret 0
  | None => _ ← vcall (vfs_write_file sys_uid sys_gid path [] VFS_O_APPEND); ret 0
  end).

Definition cmd_clear : M (option Z) :=
  _ ← sys (on_d (fun d => con_set_vga (vga_clear (con_vga d)) d)); ret 0.

Fixpoint history_lines (history : list (list Z)) (n : nat) (i : nat) : M unit :=
  match n with
  | O => mret tt
  | S n =>
      _ ← shell_out_printf (lit "%u  %s" ++ line_feed) [AWord (Z.of_nat i + 1); AText (Some (shell_history_get history i))];
      history_lines history n (S i)
  end.
Definition cmd_history : M (option Z) :=
  h ← mget sh_history; _ ← history_lines h (length h) 0; ret 0.

Definition bcd (value : Z) : Z := Z.shiftr value 4 * 10 + Z.land value 0x0F.
Definition cmd_date : M (option Z) :=
  d ← sys (gets v_drv);
  let cmos_read reg := u8 (h_cmos d reg) in
  let binary := negb (Z.land (cmos_read 0x0B) 0x04 =? 0) in
  let value reg := if binary then cmos_read reg else bcd (cmos_read reg) in
  _ ← shell_out_printf (lit "20%02u-%02u-%02u %02u:%02u:%02u UTC" ++ line_feed)
        [AWord (value 9); AWord (value 8); AWord (value 7); AWord (value 4); AWord (value 2); AWord (value 0)];
  ret 0.

Definition cmd_uname : M (option Z) :=
  _ ← shell_out_puts (lit "PureUnix pureunix 0.1.0 i686" ++ line_feed); ret 0.
Definition cmd_whoami : M (option Z) :=
  env ← mget sh_env; _ ← out_path (lit "%s") (shell_getenv env (lit "USER")); ret 0.

Definition cmd_mount : M (option Z) :=
  b ← sys vfs_mounted;
  _ ← shell_out_puts ((if b : bool then lit "/dev/ata0 on / type fat16 (rw,8.3)" else lit "no filesystems mounted") ++ line_feed);
  ret 0.

Definition cmd_df : M (option Z) :=
  _ ← shell_out_puts (lit "Filesystem  1K-blocks  Used  Available  Mounted on" ++ line_feed);
  b ← sys vfs_mounted;
  if negb b then ret 0 else
  total ← sys (lift_d h_fat_total);
  freeb ← sys (lift_d h_fat_free);
  let total := total / 1024 in
  let freeb := freeb / 1024 in
  _ ← shell_out_printf (lit "fat16       %u  %u  %u  /" ++ line_feed) [AWord total; AWord (u32 (total - freeb)); AWord freeb];
  ret 0.

Definition cmd_free : M (option Z) :=
  d ← sys (gets v_drv);
  _ ← shell_out_printf (lit "physical: %u KiB total, %u KiB free" ++ line_feed)
        [AWord (pmm_total_memory_kb (h_frames d)); AWord (pmm_free_memory_kb (h_frames d))];
  _ ← shell_out_printf (lit "heap:     %u bytes used, %u bytes free" ++ line_feed)
        [AWord (heap_used_bytes (h_heap d)); AWord (heap_free_bytes (h_heap d))];
  ret 0.

Definition ps_cb (t : task) : M unit :=
  let state := match t_state t with
               | TASK_RUNNING => lit "run"
               | TASK_READY => lit "ready"
               | TASK_SLEEPING => lit "sleep"
               | _ => lit "zombie"
               end in
  shell_out_printf ([ch "%"; ch "u"; 9] ++ lit "%s" ++ [9] ++ lit "%s" ++ line_feed)
    [AWord (t_id t); AText (Some state); AText (Some (t_name t))].
Fixpoint ps_lines (sch : sched) (l : list Z) : M unit :=
  match l with
  | [] => mret tt
  | a :: l => _ ← (match tasks sch !! a with Some t => ps_cb t | None => undef end); ps_lines sch l
  end.
Definition cmd_ps : M (option Z) :=
  _ ← shell_out_puts (lit "PID" ++ [9] ++ lit "STATE" ++ [9] ++ lit "NAME" ++ line_feed);
  sch ← sys (gets (fun k => k_sched (v_drv k)));
  match task_list sch with
  | Some l => _ ← ps_lines sch l; ret 0
  | None => mret None
  end.

Definition cmd_kill argv : M (option Z) :=
  require_args argv 2 (lit "kill PID") (
  d ← sys (gets v_drv);
  match task_kill (h_main_task d) (u32 (atoi (argn argv 1))) (k_sched d) with
  | None => mret None
  | Some (r, sch) =>
      _ ← sys (on_d (k_set_sched sch));
      if negb (r =? 0) then _ ← shell_out_puts (lit "kill: no such task" ++ line_feed); ret (-1) else ret 0
  end).

(** kernel/reboot.c: the message; the writes to the ports that follow switch the
    machine off, and control does not come back. *)
Definition kernel_reboot : M (option Z) := _ ← sys (kprintf (lit "rebooting..." ++ line_feed) []); mret None.
Definition kernel_shutdown : M (option Z) := _ ← sys (kprintf (lit "shutting down..." ++ line_feed) []); mret None.
Definition cmd_reboot : M (option Z) := kernel_reboot.
Definition cmd_shutdown : M (option Z) := kernel_shutdown.

Definition cmd_env : M (option Z) := _ ← shell_env_list; ret 0.

(** [strncpy] leaves the 96 bytes of [tmp] without a NUL if 95 are copied. *)
Definition cmd_export argv : M (option Z) :=
  require_args argv 2 (lit "export KEY=VALUE") (
  let arg := argn argv 1 in
  _ ← (if (95 <=? length arg)%nat then undef else mret tt);
  let tmp := take 95 arg in
  match list_find (eq (ch "=")) tmp with
  | None => _ ← shell_out_puts (lit "export: expected KEY=VALUE" ++ line_feed); ret (-1)
  | Some (n, _) =>
      env ← mget sh_env;
      let '(r, env) := shell_setenv env (take n tmp) (drop (S n) tmp) in
      _ ← mset (set_env env); ret r
  end).

(** The editor runs on the keys that are typed. *)
Definition cmd_editor argv : M (option Z) :=
  require_args argv 2 (lit "vim FILE") (
  path ← abs_path (argn argv 1);
  k ← sys get;
  let '(r, e) := editor_open path (k_keys (v_drv k)) (mk_ed vim_zero k false false) in
  _ ← sys (modify (fun _ => ed_sys e));
  _ ← (if ed_undef e || ed_fault e then undef else mret tt);
  _ ← sys (on_d (k_set_keys (default [] r)));
  match r with
  | Some _ => ret 0
  | None => mret None
  end).

(** [builtin->fn(ctx, cmd, input, out)] *)
Definition run_builtin (f : builtin_fn) argv (i : input) : M (option Z) :=
  match f with
  | cmd_ls_fn => cmd_ls argv | cmd_stat_fn => cmd_stat argv | cmd_cd_fn => cmd_cd argv | cmd_pwd_fn => cmd_pwd
  | cmd_mkdir_fn => cmd_mkdir argv | cmd_rmdir_fn => cmd_rmdir argv | cmd_rm_fn => cmd_rm argv
  | cmd_cp_fn => cmd_cp argv | cmd_mv_fn => cmd_mv argv | cmd_cat_fn => cmd_cat argv i | cmd_echo_fn => cmd_echo argv
  | cmd_touch_fn => cmd_touch argv | cmd_clear_fn => cmd_clear | cmd_history_fn => cmd_history
  | cmd_date_fn => cmd_date | cmd_uname_fn => cmd_uname | cmd_whoami_fn => cmd_whoami | cmd_mount_fn => cmd_mount
  | cmd_df_fn => cmd_df | cmd_free_fn => cmd_free | cmd_ps_fn => cmd_ps | cmd_kill_fn => cmd_kill argv
  | cmd_reboot_fn => cmd_reboot | cmd_shutdown_fn => cmd_shutdown | cmd_help_fn => cmd_help | cmd_env_fn => cmd_env
  | cmd_export_fn => cmd_export argv | cmd_editor_fn => cmd_editor argv
  end.
End Commands.
