(* ===== verification/ShellExec.v ===== *)
(** * Pipelines (shell/sh.c)

    [shell_execute_line] and the loop of [shell_run] over the commands of
    ShellBuiltins.v, the parser of ShellParser.v, the line editor of ShellLine.v
    and the program loader of Elf.v. *)

From Stdlib Require Import Ascii.
From stdpp Require Import strings.
From S2P Require Import Prelude Machine VfsTypes CLib Printf Vfs Keyboard Vga Task Syscall ShellParser ShellLine Elf Editor ShellState ShellBuiltins.

Definition PUREUNIX_PROMPT : list Z := lit "$ ".

Section Exec.
Context {D : Type} `{Kernel D, Console D, Host D}.
Abbreviation M := (state (sh D)).
(** The machine code of the programs. *)
Variable entry_call : Z -> state (vfs D) Z.

(** [elf_exec]; a read outside the image is undefined. *)
Definition exec_path (path : list Z) : M Z :=
  r ← sys (elf_exec entry_call path);
  match r with
  | Some rc => mret rc
  | None => _ ← undef; mret (-1)
  end.

(** [snprintf(path, sizeof(path), fmt, name)] *)
Definition path_printf (fmt : list Z) (args : list arg) : M (list Z) :=
  match snprintf (Some (zeros PUREUNIX_MAX_PATH)) PUREUNIX_MAX_PATH fmt args with
  | Some (Some buf, _) => mret (cstr buf)
  | _ => _ ← undef; mret []
  end.

(** [vfs_stat(path, &st) == 0] *)
Definition exists_path (path : list Z) : M bool :=
  st ← vcall (vfs_stat_path sys_uid sys_gid path);
  mret (bool_decide (is_Some st)).

(** [vfs_stat(path, &st) == 0 && elf_exec(path) == 0] *)
Definition runs_path (path : list Z) : M bool :=
  b ← exists_path path;
  if b : bool then rc ← exec_path path; mret (rc =? 0) else mret false.

Definition not_found (name : list Z) : M Z := _ ← out_path (lit "%s: command not found") name; mret (-1).

Definition exec_external (name : list Z) : M Z :=
  if bool_decide (ch "/" ∈ name) then
    path ← abs_path name;
    b ← exists_path path;
    if b : bool then exec_path path else not_found name
  else
  calc ← (if bool_decide (name = lit "calculator") then
            path ← path_printf (lit "/bin/calc.elf") [];
            b ← exists_path path;
            if b : bool then rc ← exec_path path; mret (Some rc) else mret None
          else mret None);
  match calc with
  | Some rc => mret rc
  | None =>
  path ← path_printf (lit "/bin/%s.elf") [AText (Some name)];
  b ← runs_path path;
  if b : bool then mret 0 else
  path ← path_printf (lit "/bin/%s") [AText (Some name)];
  b ← runs_path path;
  if b : bool then mret 0 else not_found name
  end.

Definition run_command (argv : list (list Z)) (i : input) : M (option Z) :=
  match argv with
  | [] => ret 0
  | name :: _ =>
      match shell_find_builtin name with
      | Some b => run_builtin (b_fn b) argv i
      | None => rc ← exec_external name; ret rc
      end
  end.

(** The address and the text, with its NUL. *)
Definition read_input_redirection (path_arg : list Z) : M (option (Z * list Z)) :=
  path ← abs_path path_arg;
  r ← vcall (vfs_read_file sys_uid sys_gid path);
  match r with
  | None => mret None
  | Some (p, data, size) =>
      q ← sys (lift_d (k_malloc (u32 (size + 1))));
      _ ← sys (lift_d (k_free (Some p)));
      mret (match q with Some q => Some (q, sub data 0 size ++ [0]) | None => None end)
  end.

(** [if (redir_input) kfree(redir_input);] *)
Definition free_redir (redir : option Z) : M unit :=
  match redir with
  | Some p => sys (lift_d (k_free (Some p)))
  | None => mret tt
  end.

(** The start of a stage: its buffer, cleared, becomes the output. *)
Definition open_stage (b : bool) : M unit :=
  _ ← mset (set_stage b (zeros SHELL_OUTPUT_CAP));
  mset (set_out (mk_output b SHELL_OUTPUT_CAP 0 false)).

(** [vfs_write_file(...)] of the output, or the terminal. *)
Definition close_last (cmd : shell_command) (status : Z) : M Z :=
  out ← mget sh_out;
  buf ← mget (fun m => stage m (o_buffer out));
  let text := sub buf 0 (o_length out) in
  if bool_decide (c_output cmd = []) then _ ← sys (putchars text); mret status else
  path ← abs_path (c_output cmd);
  w ← vcall (vfs_write_file sys_uid sys_gid path text (if c_append cmd then VFS_O_APPEND else VFS_O_TRUNC));
  match w with
  | Some _ => mret status
  | None => _ ← sys (kprintf (lit "%s: cannot write output" ++ line_feed) [AText (Some path)]); mret (-1)
  end.

(** The loop over the commands: the buffers are taken by turns. *)
Fixpoint run_stages (cmds : list shell_command) (b : bool) (i : input) (redir : option Z) (status : Z) : M (option Z) :=
  match cmds with
  | [] => _ ← free_redir redir; ret status
  | cmd :: rest =>
      _ ← open_stage b;
      r ← (if bool_decide (c_input cmd = []) then mret (Some (i, redir)) else
           _ ← free_redir redir;
           t ← read_input_redirection (c_input cmd);
           mret (match t with Some (q, text) => Some (FromText text, Some q) | None => None end));
      match r with
      | None =>
          _ ← sys (kprintf (lit "%s: cannot read input" ++ line_feed) [AText (Some (c_input cmd))]);
          ret (-1)
      | Some (i, redir) =>
          st ← run_command (c_args cmd) i;
          match st with
          | None => mret None
          | Some status =>
              status ← (match rest with [] => close_last cmd status | _ => mret status end);
              run_stages rest (negb b) (FromStage b) redir status
          end
      end
  end.

Definition shell_execute_line (line : list Z) : M (option Z) :=
  match shell_parse line with
  | SyntaxError msg => _ ← sys (putchars (msg ++ line_feed)); ret (-1)
  | Pipeline cmds =>
      match cmds with
      | [] => ret 0
      | cmd :: _ => if bool_decide (c_args cmd = []) then ret 0 else run_stages cmds false NoInput None 0
      end
  end.

(** ** The line editor on the terminal (shell/line.c) *)

Definition redraw (prompt : list Z) (e : editor) : list Z :=
  [13; 27] ++ lit "[K" ++ prompt ++ cstr (e_line e) ++
  replicate (length (cstr (e_line e)) - Z.to_nat (e_cursor e)) 8.

(** What the terminal gets for a key that takes the editor from [e] to [e']. *)
Definition key_echo (prompt : list Z) (key : Z) (e e' : editor) : list Z :=
  if key =? KEY_BACKSPACE then (if 0 <? e_cursor e then redraw prompt e' else [])
  else if key =? KEY_DELETE then (if e_cursor e <? e_len e then redraw prompt e' else [])
  else if key =? KEY_LEFT then (if 0 <? e_cursor e then [8] else [])
  else if key =? KEY_RIGHT then (if e_cursor e <? e_len e then [byte_at (e_line e) (e_cursor e)] else [])
  else if (key =? KEY_HOME) || (key =? KEY_END) || (key =? KEY_UP) || (key =? KEY_DOWN) then redraw prompt e'
  else if key =? KEY_TAB then (if e_cursor e =? e_len e then redraw prompt e' else [])
  else if (32 <=? key) && (key <? 127) && (e_len e + 1 <? LINE_MAX) then redraw prompt e'
  else [].

Definition builtin_names : list (list Z) := b_name <$> builtins.

(** The names [complete_dir_cb] sees, when the completion asks for them. *)
Definition root_names (key : Z) (e : editor) : M (list (list Z)) :=
  let prefix := cstr (drop (word_start (Z.to_nat (e_cursor e)) (e_line e)) (e_line e)) in
  if (key =? KEY_TAB) && (e_cursor e =? e_len e) && bool_decide (matching prefix builtin_names = []) then
    '(r, names) ← sys (vfs_readdir sys_uid sys_gid [SLASH] (fun e names => mret (0, names ++ [d_name e])) []);
    _ ← (match r with Overflow => undef | _ => mret tt end);
    mret names
  else mret [].

(** The keys not read yet go back to the keyboard; [None] waits for more. *)
Fixpoint read_keys (prompt : list Z) (max : Z) (keys : list Z) (e : editor) : M (option (list Z)) :=
  match keys with
  | [] => _ ← sys (on_d (k_set_keys [])); mret None
  | key :: keys =>
      if key =? KEY_ENTER then
        _ ← sys (putchars line_feed);
        let out := strncpy max (cstr (CStr.st (e_line e) (e_len e) 0)) in
        _ ← mset (fun m => set_history (shell_history_add (sh_history m) out) m);
        _ ← sys (on_d (k_set_keys keys));
        mret (Some out)
      else if key =? KEY_CTRL_C then
        _ ← sys (putchars (lit "^C" ++ line_feed));
        _ ← sys (on_d (k_set_keys keys));
        mret (Some [])
      else
        root ← root_names key e;
        history ← mget sh_history;
        let e' := edit_key builtin_names root history key e in
        _ ← sys (putchars (key_echo prompt key e e'));
        read_keys prompt max keys e'
  end.
Definition readline (prompt : list Z) (max : Z) : M (option (list Z)) :=
  _ ← sys (putchars prompt);
  history ← mget sh_history;
  keys ← sys (gets (fun k => k_keys (v_drv k)));
  read_keys prompt max keys (mk_editor (zeros LINE_MAX) 0 0 (length history)).

(** ** The loop of [shell_run] *)

(** The body: a prompt, a line, its execution. *)
Definition shell_turn : M (option Z) :=
  cwd ← mget sh_cwd;
  prompt ← (match snprintf (Some (zeros (PUREUNIX_MAX_PATH + 8))) (PUREUNIX_MAX_PATH + 8) (lit "%s %s")
                    [AText (Some cwd); AText (Some PUREUNIX_PROMPT)] with
            | Some (Some buf, _) => mret (cstr buf)
            | _ => _ ← undef; mret []
            end);
  line ← readline prompt 256;
  match line with
  | Some line => shell_execute_line line
  | None => mret None
  end.

Definition shell_welcome : M unit :=
  sys (kprintf (line_feed ++ lit "Welcome to PureUnix. Type 'help' for commands." ++ line_feed) []).

(** The states between the turns: keys arrive, and a turn that returns is
    followed by the next. *)
Inductive shell_reach (k0 : vfs D) : sh D -> Prop :=
| reach_start : shell_reach k0 (shell_welcome (mk_sh mem_init k0)).2
| reach_turn s n s' : shell_reach k0 s -> shell_turn s = (Some n, s') -> shell_reach k0 s'
| reach_keys s keys : shell_reach k0 s ->
    shell_reach k0 (mk_sh (sh_mem s) (mk_vfs (mount_table (sh_sys s)) (last_error (sh_sys s)) (k_set_keys keys (v_drv (sh_sys s))))).
End Exec.
