(* ===== verification/VfsMounts.v ===== *)
(** * What leaves the mount table alone

    The entry points of the VFS, the program loader and the editor do not mount
    or unmount anything. *)

From stdpp Require Import strings.
From S2P Require Import Prelude Machine VfsTypes CLib Printf Vfs Keyboard Vga Task Syscall SyscallFd ShellLine Elf Editor EditorText EditorLogic EditorFile.

Section Mounts.
Context {D : Type}.

Definition mounts_kept {A} (p : state (vfs D) A) : Prop := forall k, mount_table (p k).2 = mount_table k.

Lemma mounts_ret {A} (a : A) : mounts_kept (mret a).
Proof. by intros k. Qed.
Lemma mounts_bind {A B} (p : state (vfs D) A) (f : A -> state (vfs D) B) :
  mounts_kept p -> (forall a, mounts_kept (f a)) -> mounts_kept (mbind f p).
Proof.
  intros Hp Hf k. specialize (Hp k). unfold mbind, state_bind. destruct (p k) as [a k1]. rewrite (Hf a k1). exact Hp.
Qed.
Lemma mounts_rbind {A B} (p : state (vfs D) (res A)) (f : A -> state (vfs D) (res B)) :
  mounts_kept p -> (forall a, mounts_kept (f a)) -> mounts_kept (rbind p f).
Proof. intros Hp Hf. unfold rbind. apply mounts_bind; [done|]. intros []; [apply Hf|apply mounts_ret|apply mounts_ret]. Qed.
Lemma mounts_get : mounts_kept get.
Proof. by intros k. Qed.
Lemma mounts_gets {A} (f : vfs D -> A) : mounts_kept (gets f).
Proof. by intros k. Qed.
Lemma mounts_lift {A} (p : state D A) : mounts_kept (lift_d p).
Proof. intros k. unfold lift_d. by destruct (p (v_drv k)). Qed.
Lemma mounts_error msg : mounts_kept (set_error (D := D) msg).
Proof. by intros k. Qed.
End Mounts.

(** The code of the calls, opened step by step. *)
Create HintDb mounts_code.
#[export] Hint Unfold vfs_mounted vfs_dispatch vfs_stat_raw vfs_readlink_raw fail or_fail with_cred stat_or_fail access_or_fail
  check_dir_write dir_write_or_fail resolve_for_create vfs_stat_path vfs_lstat vfs_read_file
  vfs_readdir vfs_write_file vfs_create vfs_mkdir vfs_unlink vfs_rmdir vfs_rename call_op with_d : mounts_code.

Ltac mounts_step :=
  lazymatch goal with
  | |- mounts_kept (mbind _ _) => apply mounts_bind
  | |- mounts_kept (rbind _ _) => apply mounts_rbind
  | |- mounts_kept (mret _) => apply mounts_ret
  | |- mounts_kept get => apply mounts_get
  | |- mounts_kept (gets _) => apply mounts_gets
  | |- mounts_kept (lift_d _) => apply mounts_lift
  | |- mounts_kept (set_error _) => apply mounts_error
  | |- mounts_kept (if ?b then _ else _) => destruct b
  | |- mounts_kept (match ?x with _ => _ end) => destruct x eqn:?
  | |- mounts_kept ((match ?x with _ => _ end) _) => destruct x eqn:?
  end.
Ltac mounts_solve :=
  repeat (intros; first [mounts_step | match goal with H : _ |- _ => apply H end | progress autounfold with mounts_code]).

Section Calls.
Context {D : Type} (uid gid : D -> Z).

Lemma mounts_resolve_step follow u g allowed resolved c rest : mounts_kept (resolve_step (D := D) follow u g allowed resolved c rest).
Proof. unfold resolve_step. mounts_solve. Qed.

Lemma mounts_resolve_loop follow u g allowed : forall n cursor resolved,
  mounts_kept (resolve_loop (D := D) follow u g allowed n cursor resolved).
Proof.
  pose proof (mounts_resolve_step follow u g) as Hs.
  induction allowed as [|allowed IH]; induction n as [|n IHn]; intros cursor resolved; destruct cursor as [|c cursor];
    try apply mounts_ret; cbn [resolve_loop]; destruct (next_component _) as [component rest]; mounts_solve.
Qed.

Lemma mounts_resolve_path path follow u g : mounts_kept (resolve_path (D := D) path follow u g).
Proof. pose proof (mounts_resolve_loop follow u g). unfold resolve_path. mounts_solve. Qed.

Lemma mounts_stat path : mounts_kept (vfs_stat_path uid gid path).
Proof. pose proof mounts_resolve_path. mounts_solve. Qed.
Lemma mounts_lstat path : mounts_kept (vfs_lstat uid gid path).
Proof. pose proof mounts_resolve_path. mounts_solve. Qed.
Lemma mounts_read_file path : mounts_kept (vfs_read_file uid gid path).
Proof. pose proof mounts_resolve_path. mounts_solve. Qed.
Lemma mounts_readdir {U} path (cb : vfs_dirent -> U -> state D (Z * U)) u : mounts_kept (vfs_readdir uid gid path cb u).
Proof. pose proof mounts_resolve_path. mounts_solve. Qed.
Lemma mounts_write_file path data flags : mounts_kept (vfs_write_file uid gid path data flags).
Proof. pose proof mounts_resolve_path. mounts_solve. Qed.
Lemma mounts_create path : mounts_kept (vfs_create uid gid path).
Proof. pose proof mounts_resolve_path. mounts_solve. Qed.
Lemma mounts_mkdir path : mounts_kept (vfs_mkdir uid gid path).
Proof. pose proof mounts_resolve_path. mounts_solve. Qed.
Lemma mounts_unlink path : mounts_kept (vfs_unlink uid gid path).
Proof. pose proof mounts_resolve_path. mounts_solve. Qed.
Lemma mounts_rmdir path : mounts_kept (vfs_rmdir uid gid path).
Proof. pose proof mounts_resolve_path. mounts_solve. Qed.
Lemma mounts_call_op2 msg xdev sel old new : mounts_kept (call_op2 (D := D) msg xdev sel old new).
Proof. unfold call_op2. mounts_solve. Qed.
Lemma mounts_rename old new : mounts_kept (vfs_rename uid gid old new).
Proof. pose proof mounts_resolve_path. pose proof mounts_call_op2. mounts_solve. Qed.
End Calls.

Section Programs.
Context {D : Type} `{Kernel D}.

Lemma mounts_on_d f : mounts_kept (on_d (D := D) f).
Proof. by intros k. Qed.
Lemma mounts_putchars t : mounts_kept (putchars t).
Proof. induction t; cbn [putchars]; mounts_solve. Qed.
Lemma mounts_kprintf fmt args : mounts_kept (kprintf fmt args).
Proof. pose proof mounts_putchars. unfold kprintf. mounts_solve. Qed.
Lemma mounts_load_segments n image size eh : forall i, mounts_kept (load_segments n image size eh i).
Proof. pose proof mounts_on_d. induction n; intros i; cbn [load_segments]; unfold copy_segment; mounts_solve. Qed.

(** A program keeps the mount table: no system call changes it. *)
Lemma mounts_elf_exec entry_call path : (forall a, mounts_kept (entry_call a)) -> mounts_kept (elf_exec entry_call path).
Proof.
  intros He. pose proof mounts_kprintf. unfold elf_exec. apply mounts_bind; [apply mounts_stat|]. intros [st|rc|]; [|mounts_solve|apply mounts_ret].
  unfold with_d. apply mounts_bind; [apply mounts_get|]. intros k. case_match; [mounts_solve|].
  apply mounts_bind; [apply mounts_read_file|]. intros [[[p image] size]|rc|]; [|mounts_solve|apply mounts_ret].
  case_match; [mounts_solve|]. apply mounts_bind; [apply mounts_load_segments|]. intros [[]|]; [|mounts_solve|apply mounts_ret].
  apply mounts_bind; [apply He|mounts_solve].
Qed.
End Programs.

(** ** The editor *)

Section Edit.
Context {D : Type} `{KernelOk D, !Console D, !ConsoleOk D}.
Implicit Types (s : ed D).

Definition mounted s s' : Prop := mount_table (ed_sys s') = mount_table (ed_sys s).
#[global] Instance mounted_preorder : PreOrder mounted.
Proof. split; [by intros s|]. intros s1 s2 s3. unfold mounted. congruence. Qed.

Lemma mounted_vset f : moves mounted (vset (D := D) f).
Proof. by intros s. Qed.
Lemma mounted_undefined : moves mounted undefined.
Proof. by intros s. Qed.
Lemma mounted_fault : moves mounted fault.
Proof. by intros s. Qed.
Lemma mounted_sys {A} (m : state (vfs D) A) : mounts_kept m -> moves mounted (on_sys m).
Proof. intros Hm s. unfold on_sys, mounted. specialize (Hm (ed_sys s)). by destruct (m (ed_sys s)). Qed.
Lemma mounted_quiet {A} (m : state (ed D) A) : moves quiet m -> moves mounted m.
Proof. intros Hm s. apply (Hm s). Qed.
End Edit.

(** Calls that are known to be quiet, and the steps in between. *)
Ltac mounted_solve :=
  repeat (intros; lazymatch goal with
  | |- moves _ (mbind _ _) => apply moves_bind; [apply _|..]
  | |- moves _ (mret _) => apply moves_ret; apply _
  | |- moves _ (vget _) => apply moves_vget; apply _
  | |- moves _ (vset _) => apply mounted_vset
  | |- moves _ undefined => apply mounted_undefined
  | |- moves _ fault => apply mounted_fault
  | |- moves _ (on_sys (on_d _)) => apply mounted_sys, mounts_on_d
  | |- moves _ (on_sys (lift_d _)) => apply mounted_sys, mounts_lift
  | |- moves _ (on_sys vfs_mounted) => apply mounted_sys, mounts_gets
  | |- moves _ (on_sys (vfs_write_file _ _ _ _ _)) => apply mounted_sys, mounts_write_file
  | |- moves _ (on_sys (vfs_read_file _ _ _)) => apply mounted_sys, mounts_read_file
  | |- moves _ (lalloc _ _) => apply mounted_quiet, quiet_lalloc
  | |- moves _ (free_lines _) => apply mounted_quiet, quiet_free_lines
  | |- moves _ (copy_lines _) => apply mounted_quiet, quiet_copy_lines
  | |- moves _ (load_loop _ _) => apply mounted_quiet, quiet_load_loop
  | |- moves _ (collect _) => apply mounted_quiet, quiet_collect
  | |- moves _ (search_turns _ _ _) => apply mounted_quiet, quiet_search_turns
  | |- moves _ (first_turns _ _) => apply mounted_quiet, quiet_first_turns
  | |- moves _ (back_turns _ _ _) => apply mounted_quiet, quiet_back_turns
  | |- moves _ draw => apply mounted_quiet, quiet_draw
  | |- moves _ (pending_key _ _ _ _) => apply mounted_quiet, quiet_pending_key
  | |- moves _ (if ?b then _ else _) => destruct b
  | |- moves _ (match ?x with _ => _ end) => destruct x eqn:?
  | |- moves _ _ => first [assumption|progress autounfold with keeps]
  end).

Section Sessions.
Context {D : Type} `{KernelOk D, !Console D, !ConsoleOk D}.

Lemma mounted_save_file : moves mounted save_file.
Proof. mounted_solve. Qed.
Lemma mounted_exec_cmd : moves mounted exec_cmd.
Proof.
  unfold exec_cmd. apply moves_bind; [apply _|apply mounted_vset|]. intros _. apply moves_bind; [apply _|by intros s|]. intros v.
  apply moves_bind; [apply _| |intros _; apply mounted_vset].
  repeat case_match; try (apply moves_bind; [apply _|apply mounted_save_file|]); mounted_solve.
Qed.
Lemma mounted_ctrl_s : moves mounted (handle_normal KEY_CTRL_S).
Proof.
  unfold handle_normal. apply moves_bind; [apply _|apply mounted_vset|]. intros _. apply moves_bind; [apply _|by intros s|]. intros v.
  apply moves_bind; [apply _|apply mounted_quiet; quiet_solve|]. intros len. case_match; [mounted_solve|].
  cbn. apply moves_bind; [apply _|apply mounted_save_file|]. intros _. by intros s.
Qed.
Lemma mounted_handle_key key : moves mounted (handle_key key).
Proof.
  unfold handle_key. apply moves_bind; [apply _|by intros s|]. intros [].
  - destruct (decide (key = KEY_CTRL_S)) as [->|]; [apply mounted_ctrl_s|by apply mounted_quiet, calm_normal].
  - apply mounted_quiet, calm_insert.
  - destruct (decide (key = KEY_ENTER)) as [->|]; [|by apply mounted_quiet, calm_command].
    unfold handle_command. cbn. apply moves_bind; [apply _|by intros s|]. intros v. apply mounted_exec_cmd.
  - apply mounted_quiet, calm_search.
Qed.
Lemma mounted_editor_loop keys : moves mounted (editor_loop keys).
Proof.
  induction keys as [|key keys IH]; cbn [editor_loop]; (apply moves_bind; [apply _|by intros s|]); intros r; (case_match; [by intros s|]);
    (apply moves_bind; [apply _|apply mounted_quiet, quiet_draw|]); intros _; [by intros s|].
  apply moves_bind; [apply _|apply mounted_handle_key|]. intros _. exact IH.
Qed.
Lemma mounted_editor_open path keys : moves mounted (editor_open path keys).
Proof.
  unfold editor_open. apply moves_bind; [apply _|apply mounted_vset|]. intros _.
  apply moves_bind; [apply _|mounted_solve|]. intros _. apply moves_bind; [apply _|mounted_solve|]. intros _.
  apply moves_bind; [apply _|apply mounted_editor_loop|]. intros [rest|]; [mounted_solve|by intros s].
Qed.
End Sessions.
