(* ===== verification/ShellOk.v ===== *)
(** * The shell's memory stays well formed

    The buffers of the shell keep their sizes and their strings their ends, the
    environment does not outgrow its table, and the working directory is a
    canonical absolute path that fits its buffer: through every command, every
    pipeline, and every turn of the shell, over any drivers that pass the
    context of [readdir] on to the callback and back. *)

From stdpp Require Import strings.
From S2P Require Import Prelude Machine VfsTypes CLib Printf Vfs VfsPaths Keyboard Vga Task Syscall SyscallFd ShellParser ShellLine.
From S2P Require Import Elf Editor EditorLogic EditorFile VfsMounts ShellState ShellBuiltins ShellExec.

(** ** Paths *)

Definition path_ok (p : list Z) : Prop :=
  exists cs, p = render cs /\ Forall plain cs /\ Z.of_nat (length p) < PUREUNIX_MAX_PATH.

Lemma append_component_ok cs c out : comp c -> Forall plain cs -> Z.of_nat (length (render cs)) < PUREUNIX_MAX_PATH ->
  append_component (render cs) c = Some out -> exists cs', out = render cs' /\ Forall plain cs' /\ Z.of_nat (length out) < PUREUNIX_MAX_PATH.
Proof.
  intros Hc Hcs Hl E. assert (Forall comp cs) as Hcomp by (eapply Forall_impl; [exact Hcs|by intros ? [? _]]).
  unfold append_component in E. rewrite bool_decide_eq_false_2 in E by apply Hc.
  destruct (comp_cases c Hc) as [->|[->|Hp]].
  - injection E as <-. by exists cs.
  - change (resolved_append (render cs) [DOT; DOT]) with (Some (chop (render cs))) in E. injection E as <-.
    destruct (removelast_cases cs) as [->|(cs' & x & -> & _)]; [by exists []|].
    apply Forall_app in Hcs as [Hcs' Hx]. apply Forall_cons in Hx as [[Hx _] _]. rewrite chop_render by done.
    exists cs'. split_and!; [done|done|]. rewrite render_snoc, length_app in Hl.
    pose proof (render_length cs'). cbn in Hl. lia.
  - destruct (decide (Z.of_nat (length (render (cs ++ [c]))) < PUREUNIX_MAX_PATH)).
    + rewrite resolved_append_plain in E by done. injection E as <-. exists (cs ++ [c]).
      split_and!; [done|apply Forall_app_2; [done|by constructor]|done].
    + rewrite resolved_append_overflow in E by (done || lia). done.
Qed.

Lemma append_all_ok toks : forall cs out, Forall comp toks -> Forall plain cs ->
  Z.of_nat (length (render cs)) < PUREUNIX_MAX_PATH -> append_all (render cs) toks = Some out -> path_ok out.
Proof.
  induction toks as [|t toks IH]; intros cs out Ht Hcs Hl E; cbn [append_all] in E.
  - injection E as <-. by exists cs.
  - apply Forall_cons in Ht as [Ht Hts]. destruct (append_component (render cs) t) as [mid|] eqn:Em; [|done].
    destruct (append_component_ok _ _ _ Ht Hcs Hl Em) as (cs' & -> & Hcs' & Hl'). by eapply IH.
Qed.

Lemma normalize_ok cwd path p : path_ok cwd -> vfs_normalize (Some cwd) (Some path) = Some p -> path_ok p.
Proof.
  intros (cs & -> & Hcs & Hl) E. unfold vfs_normalize in E. unfold strncpy in E.
  assert (forall q : list Z, Z.of_nat (length q) < PUREUNIX_MAX_PATH -> take (Z.to_nat (PUREUNIX_MAX_PATH - 1)) q = q) as Hcut.
  { intros q Hq. apply take_ge. lia. }
  assert (render cs <> []) as Hne by (by destruct cs).
  destruct path as [|c rest].
  - injection E as <-. rewrite Hcut by done. by exists cs.
  - match type of E with (_ ← append_all ?o ?t; _) = _ => destruct (append_all o t) as [out|] eqn:Ea; [|done] end.
    cbn [mbind option_bind] in E. assert (path_ok out) as Ho.
    { assert (forall q, Forall comp (path_tokens q [])) as Ht by (intros q; apply path_tokens_comps, not_elem_of_nil).
      destruct (c =? SLASH); [by eapply (append_all_ok _ [] out (Ht _))|].
      eapply (append_all_ok _ cs out (Ht _)); [done|done|]. rewrite Hcut in Ea by (by destruct (render cs)).
      by destruct (render cs). }
    injection E as <-. destruct out; [by exists []|done].
Qed.

(** ** Memory *)

(** A buffer of [n] bytes whose last is zero. *)
Definition terminated (n : Z) (b : list Z) : Prop := Z.of_nat (length b) = n /\ byte_at b (n - 1) = 0.

Record mem_ok (m : mem) : Prop := {
  mo_cwd : path_ok (sh_cwd m);
  mo_env : Forall (fun e => terminated 32 (ev_key e) /\ terminated 96 (ev_value e)) (sh_env m);
  mo_count : (length (sh_env m) <= ENV_MAX)%nat;
  mo_stages b : terminated SHELL_OUTPUT_CAP (stage m b);
  mo_out : let out := sh_out m in
    o_terminal out = false /\ o_capacity out = SHELL_OUTPUT_CAP /\ 0 <= o_length out < SHELL_OUTPUT_CAP /\
    byte_at (stage m (o_buffer out)) (o_length out) = 0;
}.

Lemma strncpy_terminated n k b s : Z.of_nat k < n -> terminated n b -> terminated n (strncpy_at b s k).
Proof.
  intros Hk [Hl Hz]. unfold strncpy_at. split; [by rewrite length_put|]. rewrite byte_at_put by lia.
  rewrite decide_False; [done|]. rewrite length_app, length_take, length_replicate. lia.
Qed.
Lemma zeros_terminated n : 0 < n -> terminated n (zeros n).
Proof. intros Hn. split; [rewrite length_zeros; lia|apply byte_at_zeros]. Qed.

Lemma mem_init_ok : mem_ok mem_init.
Proof.
  split; cbn [sh_cwd mem_init sh_env sh_out].
  - exists []. by split_and!.
  - repeat constructor; (apply strncpy_terminated; [lia|]); by apply zeros_terminated.
  - unfold ENV_MAX. cbn. lia.
  - intros []; by apply zeros_terminated.
  - split_and!; [done|done|done|done|]. apply byte_at_zeros.
Qed.

(** A driver's [readdir] gives the callback the context and returns what the
    callback left of it. *)
Definition keeps_context {D} (ops : vfs_ops D) : Prop :=
  forall readdir, op_readdir ops = Some readdir ->
  forall U (I : U -> Prop) path (cb : vfs_dirent -> U -> state D (Z * U)) u d,
    (forall e u d, I u -> I (cb e u d).1.2) -> I u -> I (readdir U path cb u d).1.2.
Definition mounts_ok {D} (ms : list (vfs_mount_t D)) : Prop := Forall (fun m => keeps_context (mnt_ops m)) ms.

Lemma readdir_context {D} (uid gid : D -> Z) {U} (I : U -> Prop) path (cb : vfs_dirent -> U -> state D (Z * U)) u k :
  mounts_ok (mount_table k) -> (forall e u d, I u -> I (cb e u d).1.2) -> I u -> I (vfs_readdir uid gid path cb u k).1.2.
Proof.
  intros Hm Hcb Hu. unfold vfs_readdir, with_cred. rewrite bind_unfold. cbn [get fst snd]. rewrite bind_unfold.
  set (p := rbind _ _). assert (mounts_kept p) as Hp by (pose proof (@mounts_resolve_path D); unfold p; mounts_solve).
  specialize (Hp k). destruct (p k) as [[resolved|rc|] k1]; [|exact Hu|exact Hu]. cbn [fst snd] in *.
  rewrite bind_unfold. unfold vfs_dispatch, gets. cbn [fst snd]. rewrite Hp.
  destruct (vfs_find_mount (mount_table k) resolved) as [i|]; [|exact Hu]. cbn [mbind option_bind].
  destruct (mount_table k !! i) as [m|] eqn:Em; [|exact Hu]. cbn [mbind option_bind].
  destruct (op_readdir (mnt_ops m)) as [readdir|] eqn:Eo; [|exact Hu]. cbn [mbind option_bind].
  pose proof (Forall_lookup_1 _ _ _ _ Hm Em readdir Eo U I (sub_path (mountpoint m) resolved) cb u (v_drv k1) Hcb Hu) as HI.
  rewrite bind_unfold. unfold lift_d. destruct (readdir U _ cb u (v_drv k1)) as [[n u'] d']. cbn [fst snd] in *.
  by destruct (n <? 0).
Qed.

Section Safe.
Context {D : Type} `{KernelOk D, !Console D, !ConsoleOk D, !Host D}.
Abbreviation M := (state (sh D)).
Implicit Types (s : sh D).

Definition sh_ok s : Prop := mem_ok (sh_mem s) /\ mounts_ok (mount_table (sh_sys s)).
Definition safe {A} (p : M A) : Prop := forall s, sh_ok s -> sh_ok (p s).2.

Lemma safe_ret {A} (a : A) : safe (mret a).
Proof. by intros s. Qed.
Lemma safe_bind {A B} (p : M A) (f : A -> M B) : safe p -> (forall a, safe (f a)) -> safe (mbind f p).
Proof. intros Hp Hf s Hs. rewrite bind_unfold. by apply Hf, Hp. Qed.
Lemma safe_mget {A} (f : mem -> A) : safe (mget f).
Proof. by intros s. Qed.
Lemma safe_mset f : (forall m, mem_ok m -> mem_ok (f m)) -> safe (mset f).
Proof. intros Hf s [Hm Hk]. split; [by apply Hf|done]. Qed.
Lemma safe_sys {A} (p : state (vfs D) A) : mounts_kept p -> safe (sys p).
Proof.
  intros Hp s [Hm Hk]. specialize (Hp (sh_sys s)). unfold sys. destruct (p (sh_sys s)) as [a k]. cbn [fst snd] in *.
  split; [done|]. cbn. by rewrite Hp.
Qed.
Lemma safe_undef : safe undef.
Proof. apply safe_mset. intros m [A B C E F]. split; [exact A|exact B|exact C|intros b; exact (E b)|exact F]. Qed.
Lemma safe_vcall {A} (p : state (vfs D) (res A)) : mounts_kept p -> safe (vcall p).
Proof.
  intros Hp. apply safe_bind; [by apply safe_sys|]. intros []; [apply safe_ret|apply safe_ret|].
  apply safe_bind; [apply safe_undef|]. intros _. apply safe_ret.
Qed.

(** The path of [abs_path] is canonical, or empty. *)
Lemma abs_path_ok path s : sh_ok s -> run (abs_path path) s (fun p s' => sh_ok s' /\ (p = [] \/ path_ok p)).
Proof.
  intros Hs. unfold abs_path. apply run_bind, run_gets. destruct (vfs_normalize _ _) as [p|] eqn:E.
  - apply run_ret. split; [done|right]. eapply normalize_ok; [|exact E]. apply Hs.
  - apply run_bind. unfold run. cbn. split; [by apply (safe_undef s)|by left].
Qed.
Lemma safe_abs_path path : safe (abs_path path).
Proof. intros s Hs. pose proof (abs_path_ok path s Hs) as Hr. apply Hr. Qed.

(** ** Output *)

Lemma stage_set b b' buf m : stage (set_stage b buf m) b' = if decide (b = b') then buf else stage m b'.
Proof. by destruct b, b'. Qed.

(** Writing into a stage behind its first [n] bytes, and ending it. *)
Lemma stage_fill_ok m n k : mem_ok m -> let out := sh_out m in n = o_length out -> 0 < Z.of_nat (length k) -> n + Z.of_nat (length k) < SHELL_OUTPUT_CAP ->
  mem_ok (set_stage (o_buffer out) (put (put (stage m (o_buffer out)) n k) (n + Z.of_nat (length k)) [0])
    (set_out (mk_output (o_buffer out) (o_capacity out) (n + Z.of_nat (length k)) false) m)).
Proof.
  intros [A B C E F] out Hn Hk Hl. destruct F as (F1 & F2 & F3 & F4). fold out in F1, F2, F3, F4.
  pose proof (E (o_buffer out)) as [El Ez]. unfold SHELL_OUTPUT_CAP in *.
  assert (forall o, stage (set_out o m) (o_buffer out) = stage m (o_buffer out)) as Hst by (by destruct (o_buffer out)).
  assert (terminated 16384 (put (put (stage m (o_buffer out)) n k) (n + Z.of_nat (length k)) [0])) as Ht.
  { split; [by rewrite !length_put|]. rewrite !byte_at_put by (rewrite ?length_put; lia).
    repeat case_decide; [|cbn in *; lia|done]. replace (16384 - 1 - (n + Z.of_nat (length k))) with 0 by (cbn in *; lia). done. }
  split; cbn [sh_cwd sh_env set_stage]; try by destruct (o_buffer out).
  - intros b. rewrite stage_set. case_decide; [done|]. specialize (E b). by destruct b.
  - assert (sh_out (set_stage (o_buffer out) (put (put (stage m (o_buffer out)) n k) (n + Z.of_nat (length k)) [0])
      (set_out (mk_output (o_buffer out) (o_capacity out) (n + Z.of_nat (length k)) false) m)) =
      mk_output (o_buffer out) (o_capacity out) (n + Z.of_nat (length k)) false) as -> by (by destruct (o_buffer out)).
    cbn [o_buffer o_length o_terminal o_capacity]. rewrite stage_set, decide_True by done.
    unfold SHELL_OUTPUT_CAP. split_and!; [done|done|lia|lia|]. rewrite byte_at_put by lia. rewrite decide_True by (rewrite length_put; cbn; lia).
    by rewrite Z.sub_diag.
Qed.

Lemma safe_write data : safe (shell_out_write data).
Proof.
  intros s Hs. unfold shell_out_write. rewrite bind_unfold. cbn [mget gets fst snd]. pose proof Hs as [Hm Hk].
  pose proof (mo_out _ Hm) as (F1 & F2 & F3 & F4). rewrite F1, F2. set (len := Z.of_nat (length data)).
  rewrite (proj2 (Z.ltb_lt (o_length (sh_out (sh_mem s))) SHELL_OUTPUT_CAP)) by lia. set (chunk := if len <? _ then _ else _).
  destruct (Z.eqb_spec chunk 0) as [|Hc]; [done|]. rewrite !bind_unfold. split; [|exact Hk].
  assert (0 < chunk <= len /\ chunk <= SHELL_OUTPUT_CAP - o_length (sh_out (sh_mem s)) - 1) as Hch
    by (subst chunk; revert Hc; case Z.ltb_spec; lia).
  assert (Z.of_nat (length (sub data 0 chunk)) = chunk) as El by (rewrite length_sub by lia; lia).
  pose proof (stage_fill_ok (sh_mem s) (o_length (sh_out (sh_mem s))) (sub data 0 chunk) Hm eq_refl) as Hf. rewrite El in Hf.
  specialize (Hf ltac:(lia) ltac:(lia)). clear -Hf F2. revert Hf. cbn. rewrite F2.
  by destruct (o_buffer (sh_out (sh_mem s))), (sh_mem s).
Qed.
Lemma safe_printf fmt args : safe (shell_out_printf fmt args).
Proof. unfold shell_out_printf, shell_out_puts. repeat case_match; first [apply safe_write|apply safe_undef]. Qed.
End Safe.

(** Calls of the VFS, and the steps of a command. *)
Ltac mounts_call :=
  lazymatch goal with
  | |- mounts_kept (vfs_stat_path _ _ _) => apply mounts_stat
  | |- mounts_kept (vfs_lstat _ _ _) => apply mounts_lstat
  | |- mounts_kept (vfs_read_file _ _ _) => apply mounts_read_file
  | |- mounts_kept (vfs_write_file _ _ _ _ _) => apply mounts_write_file
  | |- mounts_kept (vfs_create _ _ _) => apply mounts_create
  | |- mounts_kept (vfs_mkdir _ _ _) => apply mounts_mkdir
  | |- mounts_kept (vfs_unlink _ _ _) => apply mounts_unlink
  | |- mounts_kept (vfs_rmdir _ _ _) => apply mounts_rmdir
  | |- mounts_kept (vfs_rename _ _ _ _) => apply mounts_rename
  | |- mounts_kept (vfs_readdir _ _ _ _ _) => apply mounts_readdir
  | |- mounts_kept (on_d _) => apply mounts_on_d
  | |- mounts_kept (putchars _) => apply mounts_putchars
  | |- mounts_kept (kprintf _ _) => apply mounts_kprintf
  | |- mounts_kept (elf_exec _ _) => apply mounts_elf_exec; assumption
  | |- mounts_kept (lift_d _) => apply mounts_lift
  | |- mounts_kept (gets _) => apply mounts_gets
  | |- mounts_kept vfs_mounted => apply mounts_gets
  | |- mounts_kept get => apply mounts_get
  end.
Create HintDb shell_code.
#[export] Hint Unfold ret out_path out_number shell_out_puts require_args path_command : shell_code.
Ltac safe_step :=
  lazymatch goal with
  | |- safe (mbind _ _) => apply safe_bind
  | |- safe (mret _) => apply safe_ret
  | |- safe (mget _) => apply safe_mget
  | |- safe undef => apply safe_undef
  | |- safe (abs_path _) => apply safe_abs_path
  | |- safe (shell_out_write _) => apply safe_write
  | |- safe (shell_out_printf _ _) => apply safe_printf
  | |- safe (sys _) => apply safe_sys; mounts_call
  | |- safe (vcall _) => apply safe_vcall; mounts_call
  | |- safe (if ?b then _ else _) => destruct b
  | |- safe (match ?x with _ => _ end) => destruct x eqn:?
  end.
Ltac safe_solve :=
  repeat (intros; first [safe_step | match goal with H : _ |- _ => apply H end | progress autounfold with shell_code]).

Section Commands.
Context {D : Type} `{KernelOk D, !Console D, !ConsoleOk D, !Host D}.
Implicit Types (s : sh D) (argv : list (list Z)).

Lemma safe_help bs : safe (help_lines (D := D) bs).
Proof. induction bs; cbn [help_lines]; safe_solve. Qed.
Lemma safe_env_lines env : safe (env_lines (D := D) env).
Proof. induction env; cbn [env_lines]; safe_solve. Qed.
Lemma safe_history history n : forall i, safe (history_lines (D := D) history n i).
Proof. induction n; intros i; cbn [history_lines]; safe_solve. Qed.
Lemma safe_ps sch l : safe (ps_lines (D := D) sch l).
Proof. induction l; cbn [ps_lines]; unfold ps_cb; safe_solve. Qed.
Lemma safe_echo args : forall first, safe (echo_args (D := D) args first).
Proof. induction args; intros first; cbn [echo_args]; unfold echo_expanded; safe_solve. Qed.
Lemma safe_cat_files paths : safe (cat_files (D := D) paths).
Proof. induction paths; cbn [cat_files]; safe_solve. Qed.
Lemma safe_ls_options opts : forall l a, safe (ls_options (D := D) opts l a).
Proof. induction opts; intros l b; cbn [ls_options]; safe_solve. Qed.
Lemma safe_ls_args args : forall l a p, safe (ls_args (D := D) args l a p).
Proof. pose proof safe_ls_options. induction args; intros l b p; cbn [ls_args]; safe_solve. Qed.
Lemma safe_ls_cb dir l a e : safe (ls_cb (D := D) dir l a e).
Proof. unfold ls_cb, short_line, long_line. safe_solve. Qed.

Lemma run_sys {A} (p : state (vfs D) A) s (Q : A -> sh D -> Prop) :
  Q (p (sh_sys s)).1 (mk_sh (sh_mem s) (p (sh_sys s)).2) -> run (sys p) s Q.
Proof. unfold run, sys. by destruct (p (sh_sys s)). Qed.

Lemma end_listing_ok r m err s : mem_ok m -> sh_ok s -> sh_ok (end_listing r m err s).2.
Proof.
  intros Hm Hs. revert s Hs. unfold end_listing. apply safe_bind; [by apply safe_mset|]. intros _.
  destruct r; [apply safe_bind; [apply safe_sys; by intros k|]|..]; safe_solve.
Qed.

(** The listing runs [ls_cb] on the memory it finds in the context. *)
Lemma safe_list_dir path l a : safe (list_dir (D := D) path l a).
Proof.
  intros s Hs. pose proof Hs as [Hm Hk]. change (run (list_dir path l a) s (fun _ s' => sh_ok s')).
  unfold list_dir. apply run_bind, run_gets, run_bind, run_sys. cbn [get fst snd]. apply run_bind, run_sys. cbn [sh_sys sh_mem].
  set (cb := fun e => in_callback _ _).
  assert (mem_ok (vfs_readdir sys_uid sys_gid path cb (sh_mem s, last_error (sh_sys s)) (sh_sys s)).1.2.1) as Hm'.
  { apply (readdir_context sys_uid sys_gid (fun u : mem * list Z => mem_ok u.1)); [exact Hk| |exact Hm].
    intros e u d Hu. unfold cb, in_callback.
    pose proof (safe_ls_cb (take 255 path) l a e (mk_sh u.1 (mk_vfs (mount_table (sh_sys s)) u.2 d))) as Hcb.
    destruct (ls_cb _ _ _ _ _) as [z s1]. cbn [fst snd] in *. by apply Hcb. }
  apply end_listing_ok; [exact Hm'|]. split; [exact Hm|]. cbn [sh_sys]. rewrite mounts_readdir. exact Hk.
Qed.

(** A stat that succeeds had a path. *)
Lemma stat_empty s : (vcall (vfs_stat_path sys_uid sys_gid []) s).1 = None.
Proof. done. Qed.

Lemma set_cwd_ok p m : path_ok p -> mem_ok m -> mem_ok (set_cwd p m).
Proof. intros Hp [A B C E F]. split; [exact Hp|exact B|exact C|intros b; exact (E b)|exact F]. Qed.

Lemma safe_cd argv : safe (cmd_cd (D := D) argv).
Proof.
  intros s Hs. unfold cmd_cd. rewrite bind_unfold. cbn [mget gets fst snd]. rewrite bind_unfold.
  pose proof (abs_path_ok (if (1 <? length argv)%nat then argn argv 1 else shell_getenv (sh_env (sh_mem s)) (lit "HOME")) s Hs) as Hp.
  unfold run in Hp. destruct (abs_path _ s) as [p s1]. cbn [fst snd] in *. destruct Hp as [Hs1 Hp]. rewrite bind_unfold.
  pose proof (safe_vcall _ (mounts_stat sys_uid sys_gid p) s1 Hs1) as Hs2. pose proof (stat_empty s1) as He.
  destruct (vcall _ s1) as [st s2] eqn:Ec. cbn [fst snd] in *. case_match eqn:Ed.
  - rewrite bind_unfold. apply safe_ret. destruct Hs2 as [Hm2 Hk2]. split; [|exact Hk2]. apply set_cwd_ok; [|exact Hm2].
    destruct Hp as [->|Hp]; [|done]. rewrite Ec in He. cbn in He. by subst st.
  - revert Hs2. generalize s2. change (safe (_ ← out_path (lit "cd: not a directory: %s") p; ret (D := D) (-1))). safe_solve.
Qed.

Definition env_ok (env : list env_var) : Prop :=
  Forall (fun e => terminated 32 (ev_key e) /\ terminated 96 (ev_value e)) env /\ (length env <= ENV_MAX)%nat.

Lemma env_slot_ok key value : terminated 32 (ev_key (env_slot key value)) /\ terminated 96 (ev_value (env_slot key value)).
Proof. split; (apply strncpy_terminated; [lia|]); by apply zeros_terminated. Qed.

Lemma setenv_loop_ok key value env : forall env',
  Forall (fun e => terminated 32 (ev_key e) /\ terminated 96 (ev_value e)) env -> setenv_loop env key value = Some env' ->
  Forall (fun e => terminated 32 (ev_key e) /\ terminated 96 (ev_value e)) env' /\ length env' = length env.
Proof.
  induction env as [|e env IH]; intros env' He E; [done|]. cbn [setenv_loop] in E. apply Forall_cons in He as [[A B] He].
  case_bool_decide.
  - injection E as <-. split; [|done]. constructor; [|done]. split; [done|]. apply strncpy_terminated; [lia|done].
  - destruct (setenv_loop env key value) as [env1|]; [|done]. injection E as <-. destruct (IH env1 He eq_refl) as [He1 Hl].
    split; [by constructor|]. cbn. by rewrite Hl.
Qed.

Lemma setenv_ok env key value : env_ok env -> env_ok (shell_setenv env key value).2.
Proof.
  intros [He Hl]. unfold shell_setenv. case_match; [done|]. destruct (setenv_loop env key value) as [env'|] eqn:E.
  - destruct (setenv_loop_ok _ _ _ _ He E) as [He' Hl']. split; [done|]. cbn. lia.
  - case Nat.leb_spec; [done|]. intros Hlt. split; [apply Forall_app_2; [done|constructor; [apply env_slot_ok|done]]|].
    cbn [snd]. rewrite length_app. cbn. lia.
Qed.

Lemma set_env_ok env m : env_ok env -> mem_ok m -> mem_ok (set_env env m).
Proof. intros [He Hl] [A B C E F]. split; [exact A|exact He|exact Hl|intros b; exact (E b)|exact F]. Qed.

Lemma safe_export argv : safe (cmd_export (D := D) argv).
Proof.
  unfold cmd_export, require_args. case_match; [safe_solve|]. apply safe_bind; [case_match; safe_solve|]. intros _.
  destruct (list_find _ _) as [[n x]|]; [|safe_solve]. intros s Hs. rewrite bind_unfold. cbn [mget gets fst snd].
  pose proof (setenv_ok (sh_env (sh_mem s)) (take n (take 95 (argn argv 1))) (drop (S n) (take 95 (argn argv 1)))) as He.
  destruct (shell_setenv _ _ _) as [r env]. cbn [fst snd] in He. revert s Hs He. intros s Hs He. rewrite bind_unfold.
  apply safe_ret. destruct Hs as [Hm Hk]. split; [|done]. apply set_env_ok; [|done]. apply He. split; apply Hm.
Qed.

Lemma safe_editor argv : safe (cmd_editor (D := D) argv).
Proof.
  unfold cmd_editor, require_args. case_match; [safe_solve|]. apply safe_bind; [apply safe_abs_path|]. intros path s Hs.
  match goal with |- sh_ok (?p s).2 => change (run p s (fun _ s' => sh_ok s')) end. apply run_bind, run_sys. cbn [get fst snd].
  pose proof (mounted_editor_open path (k_keys (v_drv (sh_sys s))) (mk_ed vim_zero (sh_sys s) false false)) as Hm.
  destruct (editor_open path _ _) as [r e]. cbn [snd] in Hm. unfold mounted in Hm. cbn [ed_sys] in Hm.
  apply run_bind, run_sys. cbn [modify fst snd sh_mem].
  match goal with |- run ?p ?t _ => enough (safe p) as Hp; [apply (Hp t)|] end; [|safe_solve].
  destruct Hs as [Hm1 Hk]. split; [exact Hm1|]. cbn [sh_sys]. by rewrite Hm.
Qed.

Lemma safe_copy src dst : safe (copy_file (D := D) src dst).
Proof. unfold copy_file. safe_solve. Qed.

Lemma safe_input i : safe (input_text (D := D) i).
Proof. unfold input_text. safe_solve. Qed.

(** Every command of the table. *)
Ltac command_solve :=
  repeat (intros; lazymatch goal with
  | |- safe (copy_file _ _) => apply safe_copy
  | |- safe (input_text _) => apply safe_input
  | |- safe (ls_args _ _ _ _) => apply safe_ls_args
  | |- safe (list_dir _ _ _) => apply safe_list_dir
  | |- safe (cat_files _) => apply safe_cat_files
  | |- safe (echo_args _ _) => apply safe_echo
  | |- safe (history_lines _ _ _) => apply safe_history
  | |- safe (ps_lines _ _) => apply safe_ps
  | |- safe (help_lines _) => apply safe_help
  | |- safe (env_lines _) => apply safe_env_lines
  | |- safe _ => first [safe_step|progress autounfold with shell_code]
  end).

Lemma safe_builtin f argv i : safe (run_builtin (D := D) f argv i).
Proof.
  destruct f; cbn [run_builtin].
  - unfold cmd_ls, short_line, long_line. command_solve.
  - unfold cmd_stat. command_solve.
  - apply safe_cd.
  - unfold cmd_pwd. command_solve.
  - unfold cmd_mkdir. command_solve.
  - unfold cmd_rmdir. command_solve.
  - unfold cmd_rm. command_solve.
  - unfold cmd_cp. command_solve.
  - unfold cmd_mv. command_solve.
  - unfold cmd_cat. command_solve.
  - unfold cmd_echo. command_solve.
  - unfold cmd_touch. command_solve.
  - unfold cmd_clear. command_solve.
  - unfold cmd_history. command_solve.
  - unfold cmd_date. command_solve.
  - unfold cmd_uname. command_solve.
  - unfold cmd_whoami. command_solve.
  - unfold cmd_mount. command_solve.
  - unfold cmd_df. command_solve.
  - unfold cmd_free. command_solve.
  - unfold cmd_ps. command_solve.
  - unfold cmd_kill. command_solve.
  - unfold cmd_reboot, kernel_reboot. command_solve.
  - unfold cmd_shutdown, kernel_shutdown. command_solve.
  - unfold cmd_help. command_solve.
  - unfold cmd_env, shell_env_list. command_solve.
  - apply safe_export.
  - apply safe_editor.
Qed.
End Commands.

(** ** Pipelines and turns *)

Section Turns.
Context {D : Type} `{KernelOk D, !Console D, !ConsoleOk D, !Host D}.
Implicit Types (s : sh D).
Context (entry_call : Z -> state (vfs D) Z) (He : forall a, mounts_kept (entry_call a)).

Lemma safe_exec_path path : safe (exec_path entry_call path).
Proof. unfold exec_path. safe_solve. Qed.
Lemma safe_path_printf fmt args : safe (path_printf (D := D) fmt args).
Proof. unfold path_printf. safe_solve. Qed.
Lemma safe_exists path : safe (exists_path (D := D) path).
Proof. unfold exists_path. safe_solve. Qed.
Lemma safe_not_found name : safe (not_found (D := D) name).
Proof. unfold not_found. safe_solve. Qed.
Lemma safe_runs path : safe (runs_path entry_call path).
Proof.
  unfold runs_path. apply safe_bind; [apply safe_exists|]. intros []; [|apply safe_ret].
  apply safe_bind; [apply safe_exec_path|intros; apply safe_ret].
Qed.

Lemma safe_exec_external name : safe (exec_external entry_call name).
Proof.
  unfold exec_external. case_match.
  - apply safe_bind; [apply safe_abs_path|]. intros path. apply safe_bind; [apply safe_exists|].
    intros []; [apply safe_exec_path|apply safe_not_found].
  - apply safe_bind.
    + case_match; [|apply safe_ret]. apply safe_bind; [apply safe_path_printf|]. intros path.
      apply safe_bind; [apply safe_exists|]. intros []; [|apply safe_ret].
      apply safe_bind; [apply safe_exec_path|intros; apply safe_ret].
    + intros [rc|]; [apply safe_ret|]. do 2 (apply safe_bind; [apply safe_path_printf|]; intros ?;
        apply safe_bind; [apply safe_runs|]; intros []; [apply safe_ret|]). apply safe_not_found.
Qed.

Lemma safe_run_command argv i : safe (run_command entry_call argv i).
Proof.
  unfold run_command. destruct argv as [|name argv]; [apply safe_ret|]. destruct (shell_find_builtin name); [apply safe_builtin|].
  apply safe_bind; [apply safe_exec_external|intros; apply safe_ret].
Qed.

Lemma safe_redirection path : safe (read_input_redirection (D := D) path).
Proof. unfold read_input_redirection. safe_solve. Qed.
Lemma safe_free_redir redir : safe (free_redir (D := D) redir).
Proof. unfold free_redir. safe_solve. Qed.

Lemma open_stage_ok b m : mem_ok m ->
  mem_ok (set_out (mk_output b SHELL_OUTPUT_CAP 0 false) (set_stage b (zeros SHELL_OUTPUT_CAP) m)).
Proof.
  intros [A B C E F]. assert (terminated SHELL_OUTPUT_CAP (zeros SHELL_OUTPUT_CAP)) as Hz by by apply zeros_terminated.
  split; [by destruct b|by destruct b|by destruct b| |].
  - intros b'. pose proof (E b') as Eb. by destruct b, b'.
  - cbn [sh_out set_out o_terminal o_capacity o_length o_buffer]. split_and!; [done|done|done|done|].
    replace (stage _ b) with (zeros SHELL_OUTPUT_CAP) by (by destruct b). apply byte_at_zeros.
Qed.
Lemma safe_open_stage b : safe (open_stage (D := D) b).
Proof. intros s [Hm Hk]. split; [|exact Hk]. exact (open_stage_ok b _ Hm). Qed.

Lemma safe_close_last cmd status : safe (close_last (D := D) cmd status).
Proof. unfold close_last. safe_solve. Qed.

Lemma safe_run_stages cmds : forall b i redir status, safe (run_stages entry_call cmds b i redir status).
Proof.
  induction cmds as [|cmd rest IH]; intros b i redir status; cbn [run_stages].
  - apply safe_bind; [apply safe_free_redir|intros; apply safe_ret].
  - apply safe_bind; [apply safe_open_stage|]. intros _. apply safe_bind.
    + case_match; [apply safe_ret|]. apply safe_bind; [apply safe_free_redir|]. intros _.
      apply safe_bind; [apply safe_redirection|]. intros t. apply safe_ret.
    + intros [[i' redir']|]; [|safe_solve]. apply safe_bind; [apply safe_run_command|].
      intros [st|]; [|apply safe_ret]. apply safe_bind; [destruct rest; [apply safe_close_last|apply safe_ret]|]. intros st'. apply IH.
Qed.

Lemma safe_execute_line line : safe (shell_execute_line entry_call line).
Proof.
  unfold shell_execute_line. destruct (shell_parse line) as [[|cmd cmds]|msg]; [apply safe_ret| |safe_solve].
  case_match; [apply safe_ret|apply safe_run_stages].
Qed.

Lemma set_history_ok h m : mem_ok m -> mem_ok (set_history h m).
Proof. intros [A B C E F]. split; [exact A|exact B|exact C|intros b; exact (E b)|exact F]. Qed.

Lemma safe_root_names key e : safe (root_names (D := D) key e).
Proof. unfold root_names. safe_solve. Qed.

Lemma safe_read_keys prompt max keys : forall e, safe (read_keys (D := D) prompt max keys e).
Proof.
  induction keys as [|key keys IH]; intros e; cbn [read_keys]; [safe_solve|]. case_match; [|case_match; [safe_solve|]].
  - apply safe_bind; [safe_solve|]. intros _. apply safe_bind; [apply safe_mset; intros m Hm; by apply set_history_ok|]. safe_solve.
  - apply safe_bind; [apply safe_root_names|]. intros root. apply safe_bind; [apply safe_mget|]. intros history.
    apply safe_bind; [safe_solve|]. intros _. apply IH.
Qed.

Lemma safe_turn : safe (shell_turn entry_call).
Proof.
  unfold shell_turn, readline. apply safe_bind; [apply safe_mget|]. intros cwd. apply safe_bind; [safe_solve|]. intros prompt.
  apply safe_bind; [|intros [line|]; [apply safe_execute_line|apply safe_ret]].
  apply safe_bind; [safe_solve|]. intros _. apply safe_bind; [apply safe_mget|]. intros history.
  apply safe_bind; [safe_solve|]. intros keys. apply safe_read_keys.
Qed.

(** C16: In every state the shell reaches from boot, whatever lines are typed at
    it, its memory is well typed: the two stage buffers have their 16384 bytes
    and end in NUL, the output of the running command fits its buffer and is
    terminated, the environment has at most 32 entries whose key and value are
    terminated inside their 32 and 96 bytes, and the working directory is a
    canonical absolute path that fits 256 bytes. *)
Theorem shell_reach_typed k0 s : mounts_ok (mount_table k0) -> shell_reach entry_call k0 s -> mem_ok (sh_mem s).
Proof.
  intros Hk Hr. enough (sh_ok s) as Hs by apply Hs. induction Hr as [|s n s' _ IH Et|s keys _ IH].
  - assert (safe (shell_welcome (D := D))) as Hw by (unfold shell_welcome; safe_solve). apply Hw. split; [apply mem_init_ok|exact Hk].
  - pose proof (safe_turn s IH) as Hs. by rewrite Et in Hs.
  - exact IH.
Qed.
End Turns.
