(* ===== verification/ShellText.v ===== *)
(** * Pipelines of texts

    Commands that only turn a text into a text, as [echo] and [cat] do: the
    stages of a pipeline pass the text on from buffer to buffer, and a
    redirection at the end stores it.  The file system is whatever keeps the
    contract of EditorStore.v for the file. *)

From Stdlib Require Import Ascii.
From stdpp Require Import strings.
From S2P Require Import Prelude Machine VfsTypes CLib Printf Vfs VfsPaths Keyboard Vga Task Syscall SyscallFd ShellParser ShellLine.
From S2P Require Import Elf Editor EditorFile EditorStore ShellState ShellBuiltins ShellExec.

(** ** A stage that holds a text *)

Definition fits_stage (t : list Z) : Prop := Z.of_nat (length t) < SHELL_OUTPUT_CAP.
Definition stage_buf (t : list Z) : list Z := t ++ zeros (SHELL_OUTPUT_CAP - Z.of_nat (length t)).
Definition text_mem (b : bool) (t : list Z) (m : mem) : mem :=
  set_out (mk_output b SHELL_OUTPUT_CAP (Z.of_nat (length t)) false) (set_stage b (stage_buf t) m).

(** Strings: no NUL inside. *)
Definition string_ok (t : list Z) : Prop := Forall (fun c => c <> 0) t.

Lemma cstr_string t r : string_ok t -> cstr (t ++ 0 :: r) = t.
Proof. induction 1 as [|c t Hc _ IH]; [done|]. cbn [app cstr]. rewrite (proj2 (Z.eqb_neq c 0)) by done. by rewrite IH. Qed.

Lemma stage_buf_end t : fits_stage t -> exists r, stage_buf t = t ++ 0 :: r.
Proof.
  intros Ht. unfold fits_stage in Ht. unfold stage_buf, zeros. destruct (Z.to_nat _) eqn:E; [lia|]. by eexists.
Qed.

Lemma stage_text b t m : stage (text_mem b t m) b = stage_buf t.
Proof. by destruct b. Qed.
Lemma stage_other b t m : stage (text_mem b t m) (negb b) = stage m (negb b).
Proof. by destruct b. Qed.
Lemma text_mem_text b t t' m : text_mem b t' (text_mem b t m) = text_mem b t' m.
Proof. by destruct b. Qed.

(** What the stages leave alone. *)
Definition same_shell (m m' : mem) : Prop := sh_cwd m' = sh_cwd m /\ sh_env m' = sh_env m /\ sh_undef m' = sh_undef m.
Lemma same_text b t m : same_shell m (text_mem b t m).
Proof. by destruct b. Qed.

Section Output.
Context {D : Type} `{Kernel D, Console D, Host D}.
Implicit Types (k : vfs D).

Lemma open_stage_text b m k : open_stage b (mk_sh m k) = (tt, mk_sh (text_mem b [] m) k).
Proof. by destruct b. Qed.

(** The buffer with a text and its end written behind [t]. *)
Lemma stage_buf_put t data : fits_stage (t ++ data) ->
  put (put (stage_buf t) (Z.of_nat (length t)) data) (Z.of_nat (length t) + Z.of_nat (length data)) [0] = stage_buf (t ++ data).
Proof.
  unfold fits_stage, stage_buf, zeros. rewrite length_app, Nat2Z.inj_add. intros Hf.
  set (n := Z.to_nat (SHELL_OUTPUT_CAP - (Z.of_nat (length t) + Z.of_nat (length data)))).
  assert (Z.to_nat (SHELL_OUTPUT_CAP - Z.of_nat (length t)) = (length data + n)%nat) as -> by lia.
  assert (n = S (pred n)) as En by lia. rewrite replicate_add, (put_at t) by (by rewrite ?length_replicate).
  rewrite (assoc_L (++)), En. cbn [replicate]. change (0 :: replicate (pred n) 0) with ([0] ++ replicate (pred n) 0).
  rewrite (put_at (t ++ data) [0]); [done|done|rewrite length_app; lia].
Qed.

Lemma write_text b t data m k : fits_stage (t ++ data) ->
  shell_out_write data (mk_sh (text_mem b t m) k) = (tt, mk_sh (text_mem b (t ++ data) m) k).
Proof.
  intros Hf. pose proof (stage_buf_put t data Hf) as Hput. unfold fits_stage in Hf. rewrite length_app, Nat2Z.inj_add in Hf.
  unfold shell_out_write, mbind, state_bind, mget, gets. cbn [sh_mem sh_out text_mem set_out o_terminal o_length o_capacity o_buffer].
  rewrite (proj2 (Z.ltb_lt (Z.of_nat (length t)) SHELL_OUTPUT_CAP)) by lia.
  assert ((if Z.of_nat (length data) <? SHELL_OUTPUT_CAP - Z.of_nat (length t) - 1 then Z.of_nat (length data)
    else SHELL_OUTPUT_CAP - Z.of_nat (length t) - 1) = Z.of_nat (length data)) as -> by (case Z.ltb_spec; lia).
  case Z.eqb_spec; intros E.
  - destruct data; [|done]. by rewrite app_nil_r.
  - assert (sub data 0 (Z.of_nat (length data)) = data) as -> by (unfold sub; rewrite drop_0, Nat2Z.id; apply take_ge; done).
    unfold mset, modify. cbn [fst snd sh_mem sh_sys]. do 2 f_equal.
    unfold text_mem. rewrite length_app, Nat2Z.inj_add, <- Hput. by destruct b, m.
Qed.
End Output.

(** ** Commands on texts *)

(** What a command of stage [b] reads. *)
Definition reads (m : mem) (b : bool) (i : input) (t : list Z) : Prop :=
  match i with
  | NoInput => t = []
  | FromStage b' => b' = negb b /\ stage m b' = stage_buf t /\ fits_stage t /\ string_ok t
  | FromText x => x = t ++ [0] /\ string_ok t
  end.

(** The text of a command from the working directory, the environment and the
    text it reads. *)
Definition text_fn : Type := list Z -> list env_var -> list Z -> list Z.

Section Filters.
Context {D : Type} `{Kernel D, Console D, Host D}.
Context (entry_call : Z -> state (vfs D) Z).
Implicit Types (k : vfs D).

Definition text_command (argv : list (list Z)) (f : text_fn) : Prop :=
  forall m b i t k, reads m b i t -> let t' := f (sh_cwd m) (sh_env m) t in fits_stage t' ->
  run_command entry_call argv i (mk_sh (text_mem b [] m) k) = (Some 0, mk_sh (text_mem b t' m) k).

Lemma input_text_reads m b i t k : reads m b i t ->
  input_text i (mk_sh (text_mem b [] m) k) = (t, mk_sh (text_mem b [] m) k).
Proof.
  destruct i as [|b'|x]; cbn [reads input_text].
  - by intros ->.
  - intros (-> & Hb & Hf & Hs). unfold mbind, state_bind, mget, gets. cbn [sh_mem]. rewrite stage_other, Hb.
    destruct (stage_buf_end t Hf) as [r ->]. rewrite bool_decide_eq_true_2 by set_solver. by rewrite cstr_string.
  - intros [-> Hs]. by rewrite cstr_string.
Qed.

Definition cat_text : text_fn := fun _ _ t => t.
Lemma cat_is_text : text_command [lit "cat"] cat_text.
Proof.
  intros m b i t k Hr t' Hf. unfold run_command. replace (shell_find_builtin (lit "cat"))
    with (Some (mk_builtin (lit "cat") (lit "print files or stdin") cmd_cat_fn)) by (vm_compute; reflexivity).
  cbn [b_fn run_builtin]. unfold cmd_cat. cbn [length Nat.eqb]. unfold mbind, state_bind.
  rewrite (input_text_reads _ _ _ _ _ Hr). unfold shell_out_puts. by rewrite (write_text b []).
Qed.

(** A word, or the value of the variable it names. *)
Definition expanded (env : list env_var) (w : list Z) : list Z :=
  if negb (byte_at w 0 =? ch "$") then w else shell_getenv env (drop 1 w).
Fixpoint echo_words (env : list env_var) (ws : list (list Z)) (first : bool) : list Z :=
  match ws with
  | [] => []
  | w :: ws => (if first then [] else lit " ") ++ expanded env w ++ echo_words env ws false
  end.
Definition echo_text (ws : list (list Z)) : text_fn := fun _ env _ => echo_words env ws true ++ line_feed.

Lemma echo_args_text b m k ws : forall first t, fits_stage (t ++ echo_words (sh_env m) ws first) ->
  echo_args ws first (mk_sh (text_mem b t m) k) = (tt, mk_sh (text_mem b (t ++ echo_words (sh_env m) ws first) m) k).
Proof.
  assert (forall t t' : list Z, fits_stage (t ++ t') -> fits_stage t) as Hpre by (intros t t'; unfold fits_stage; rewrite length_app; lia).
  induction ws as [|w ws IH]; intros first t Hf; cbn [echo_args echo_words] in *; [by rewrite app_nil_r|].
  rewrite !(assoc_L (++)) in Hf |- *. unfold mbind, state_bind at 1.
  assert ((if first then mret tt else shell_out_puts (lit " ")) (mk_sh (text_mem b t m) k) =
    (tt, mk_sh (text_mem b (t ++ if first then [] else lit " ") m) k)) as ->.
  { destruct first; [by rewrite app_nil_r|]. apply write_text. by apply Hpre, Hpre in Hf. }
  unfold state_bind at 1. assert (forall t1, fits_stage (t1 ++ expanded (sh_env m) w) -> echo_expanded w (mk_sh (text_mem b t1 m) k) =
    (tt, mk_sh (text_mem b (t1 ++ expanded (sh_env m) w) m) k)) as He.
  { intros t1 H1'. unfold echo_expanded, expanded in *. destruct (negb _); [by apply write_text|].
    unfold mbind, state_bind, mget, gets. cbn [sh_mem]. rewrite (proj1 (proj2 (same_text b t1 m))). by apply write_text. }
  rewrite He by (by apply Hpre in Hf). by apply IH.
Qed.

Lemma echo_is_text ws : text_command (lit "echo" :: ws) (echo_text ws).
Proof.
  intros m b i t k Hr t' Hf. unfold run_command. replace (shell_find_builtin (lit "echo"))
    with (Some (mk_builtin (lit "echo") (lit "print text") cmd_echo_fn)) by (vm_compute; reflexivity).
  cbn [b_fn run_builtin]. unfold cmd_echo, mbind, state_bind. change (drop 1 (lit "echo" :: ws)) with ws.
  unfold t', echo_text in Hf. rewrite (echo_args_text b m k ws true []).
  - cbn [app]. unfold shell_out_puts. by rewrite write_text.
  - unfold fits_stage in *. rewrite length_app in Hf. cbn [app]. lia.
Qed.
End Filters.

(** ** Pipelines *)

(** The text behind the commands, and that every stage holds its text. *)
Fixpoint piped (cwd : list Z) (env : list env_var) (fs : list text_fn) (t : list Z) : list Z :=
  match fs with
  | [] => t
  | f :: fs => piped cwd env fs (f cwd env t)
  end.
Fixpoint stages_fit (cwd : list Z) (env : list env_var) (fs : list text_fn) (t : list Z) : Prop :=
  match fs with
  | [] => True
  | f :: fs => let t' := f cwd env t in fits_stage t' /\ string_ok t' /\ stages_fit cwd env fs t'
  end.

Section Pipelines.
Context {D : Type} `{KernelOk D, !Console D, !ConsoleOk D, !Host D}.
Context (entry_call : Z -> state (vfs D) Z).
Implicit Types (k : vfs D).

Definition stage_command (cmd : shell_command) (f : text_fn) : Prop :=
  text_command entry_call (c_args cmd) f /\ c_input cmd = [].

Lemma run_stages_text cmds fs : Forall2 stage_command cmds fs -> cmds <> [] -> forall b i t status m k,
  reads m b i t -> stages_fit (sh_cwd m) (sh_env m) fs t ->
  exists b' m', same_shell m m' /\
    run_stages entry_call cmds b i None status (mk_sh m k) =
    let '(st, s) := close_last (default command_init (last cmds)) 0
                      (mk_sh (text_mem b' (piped (sh_cwd m) (sh_env m) fs t) m') k) in (Some st, s).
Proof.
  induction 1 as [|cmd f cmds fs [Hc Hi] Hall IH]; intros Hne b i t status m k Hr Hf; [done|].
  cbn [stages_fit] in Hf. destruct Hf as (Hf1 & Hs1 & Hf). cbn [piped]. set (t' := f (sh_cwd m) (sh_env m) t) in *.
  cbn [run_stages]. unfold mbind, state_bind. rewrite open_stage_text, bool_decide_eq_true_2 by done.
  cbn [mret state_ret]. rewrite (Hc m b i t k Hr Hf1). fold t'. destruct cmds as [|cmd2 cmds].
  - apply Forall2_nil_inv_l in Hall as ->. exists b, m. split; [by split_and!|]. cbn [last from_option id piped].
    destruct (close_last cmd 0 _) as [st s]. done.
  - destruct (IH ltac:(done) (negb b) (FromStage b) t' 0 (text_mem b t' m) k) as (b' & m' & Hm' & E).
    + split_and!; [by rewrite negb_involutive|apply stage_text|done|done].
    + destruct (same_text b t' m) as (-> & -> & _). done.
    + exists b', m'. destruct (same_text b t' m) as (E1 & E2 & E3). rewrite E1, E2 in E. split.
      * destruct Hm' as (F1 & F2 & F3). by split_and!; congruence.
      * exact E.
Qed.

Lemma putchars_files t k : same_files k (putchars t k).2.
Proof.
  revert k. induction t as [|c t IH]; intros k; [done|]. cbn [putchars]. rewrite bind_unfold. etrans; [|apply IH].
  apply files_lift, kf_putchar.
Qed.

(** Closing the last stage onto a file. *)
Lemma close_last_file path limit Holds cmd b t m k c : edit_store path limit Holds -> Holds c k -> bytes_ok t ->
  Z.of_nat (length t) <= limit -> fits_stage t ->
  c_output cmd <> [] -> c_append cmd = false -> vfs_normalize (Some (sh_cwd m)) (Some (c_output cmd)) = Some path ->
  run (close_last cmd 0) (mk_sh (text_mem b t m) k) (fun st s' => sh_undef (sh_mem s') = sh_undef m /\
    ((st = 0 /\ Holds t (sh_sys s')) \/ (st = -1 /\ (Holds c (sh_sys s') \/ Holds [] (sh_sys s'))))).
Proof.
  intros ES Hh Hb Hl Hf Ho Ha Hn. unfold close_last. apply run_bind, run_gets. cbv beta.
  cbn [sh_mem text_mem set_out sh_out o_buffer o_length]. fold (text_mem b t m). apply run_bind, run_gets. cbv beta. cbn [sh_mem].
  rewrite stage_text, bool_decide_eq_false_2 by done.
  assert (sub (stage_buf t) 0 (Z.of_nat (length t)) = t) as ->
    by (unfold sub, stage_buf; rewrite drop_0, Nat2Z.id; by apply take_app_length).
  apply run_bind. unfold abs_path. apply run_bind, run_gets. cbn [sh_mem].
  destruct (same_text b t m) as (-> & _ & Eu). rewrite Hn. apply run_ret. rewrite Ha.
  apply run_bind. unfold vcall. apply run_bind. unfold run, sys. cbn [sh_sys sh_mem].
  pose proof (es_write _ _ _ ES c t k Hh Hb Hl) as Hw. unfold run in Hw.
  destruct (vfs_write_file _ _ _ _ _ k) as [r k']. cbn [fst snd] in *.
  destruct Hw as [[-> Hw]|(rc & -> & Hw)]; cbn [mret state_ret fst snd].
  - split; [exact Eu|]. by left.
  - rewrite bind_unfold. unfold sys. cbn [sh_sys sh_mem].
    assert (same_files k' (kprintf (lit "%s: cannot write output" ++ line_feed) [AText (Some path)] k').2) as Hk
      by (unfold kprintf; case_match; [case_match|]; first [apply putchars_files|done]).
    destruct (kprintf _ _ k') as [[] k2]. cbn [fst snd mret state_ret] in *. split; [exact Eu|]. right. split; [done|].
    destruct Hw as [Hw|Hw]; [left|right]; by eapply es_frame.
Qed.
(** C4: A pipeline of text commands with its output redirected to a file works:
    for every pipeline the parser can be given, of commands that turn the text
    they read into another ([echo] and [cat] among them), where the text of every
    stage fits its buffer, the line leaves in the file exactly the text the
    commands make of each other's output, and returns 0; or the file system
    refused the write, the file is as before or empty, and the result is -1. *)
Theorem pipeline_to_file path limit Holds c cmds fs m k :
  edit_store path limit Holds -> SHELL_OUTPUT_CAP <= limit -> Holds c k ->
  cmds <> [] -> (length cmds <= SHELL_MAX_COMMANDS)%nat -> Forall command_ok cmds -> Forall2 stage_command cmds fs ->
  let text := piped (sh_cwd m) (sh_env m) fs [] in
  let target := default command_init (last cmds) in
  stages_fit (sh_cwd m) (sh_env m) fs [] -> bytes_ok text ->
  c_output target <> [] -> c_append target = false ->
  vfs_normalize (Some (sh_cwd m)) (Some (c_output target)) = Some path ->
  run (shell_execute_line entry_call (show_pipeline cmds)) (mk_sh m k) (fun r s' => sh_undef (sh_mem s') = sh_undef m /\
    ((r = Some 0 /\ Holds text (sh_sys s')) \/ (r = Some (-1) /\ (Holds c (sh_sys s') \/ Holds [] (sh_sys s'))))).
Proof.
  intros ES Hlim Hh Hne Hlen Hok Hall text target Hfit Hb Ho Ha Hn.
  assert (shell_parse (show_pipeline cmds) = Pipeline cmds) as Hp.
  { unfold shell_parse. pose proof (show_pipeline_length cmds).
    replace (length (show_pipeline cmds)) with (pipeline_tokens cmds + (length (show_pipeline cmds) - pipeline_tokens cmds))%nat by lia.
    by apply (parse_pipeline cmds _ []). }
  unfold shell_execute_line. rewrite Hp.
  assert (forall A (x y : A), match cmds with [] => x | cmd :: _ => if bool_decide (c_args cmd = []) then x else y end = y) as Hm.
  { intros A x y. destruct cmds as [|cmd cmds]; [done|]. apply Forall_cons in Hok as [[Hargs _] _]. by rewrite bool_decide_eq_false_2. }
  rewrite Hm. destruct (run_stages_text cmds fs Hall Hne false NoInput [] 0 m k eq_refl Hfit) as (b & m' & (E1 & E2 & E3) & E).
  fold text target in E. assert (fits_stage text) as Hf.
  { clear -Hfit Hall Hne. subst text. revert Hfit. generalize (@nil Z). clear -Hne Hall. destruct Hall as [|cmd f cmds fs _ Hall]; [done|].
    clear. revert f. induction fs as [|g fs IH]; intros f t (Hf & _ & Hr); [exact Hf|]. exact (IH g _ Hr). }
  pose proof (close_last_file path limit Holds target b text m' k c ES Hh Hb) as Hc. unfold fits_stage in Hf.
  specialize (Hc ltac:(lia) Hf Ho Ha). rewrite E1 in Hc. specialize (Hc Hn). unfold run in Hc |- *. rewrite E.
  destruct (close_last target 0 _) as [st s]. cbn [fst snd] in *. destruct Hc as [Hu Hc]. split; [congruence|].
  destruct Hc as [[-> ?]|[-> ?]]; [by left|by right].
Qed.
End Pipelines.
