(* ===== verification/ShellProps.v ===== *)
(** * Commands of the shell: variables, modes, the date

    [export] and the expansion of [echo] against a finite map of variables; the
    mode column of [ls -l] read back; what [date] prints. *)

From Stdlib Require Import Ascii.
From stdpp Require Import strings.
From S2P Require Import Prelude Machine VfsTypes CLib Printf Vfs Syscall ShellParser ShellLine.
From S2P Require Import Elf Editor ShellState ShellBuiltins ShellExec ShellOk ShellText.

(** ** The environment as a finite map *)

(** The first of several entries with one key counts. *)
Definition env_map (env : list env_var) : gmap (list Z) (list Z) :=
  foldr (fun e m => <[cstr (ev_key e) := cstr (ev_value e)]> m) ∅ env.

Definition key_ok (key : list Z) : Prop :=
  key <> [] /\ (ch "=" ∉ key) /\ string_ok key /\ (length key <= 31)%nat.

Lemma terminated_split n b : terminated (Z.of_nat (S n)) b -> exists r, length r = n /\ b = r ++ [0].
Proof.
  intros [Hl Hz]. replace (Z.of_nat (S n) - 1) with (Z.of_nat n) in Hz by lia. unfold byte_at in Hz. rewrite Nat2Z.id in Hz.
  exists (take n b). split; [rewrite length_take; lia|]. rewrite <-(take_drop n b) at 1. f_equal.
  destruct (b !! n) as [c|] eqn:E; [|apply lookup_ge_None in E; lia]. cbn in Hz. subst c.
  rewrite (drop_S b 0 n E). by rewrite drop_ge by lia.
Qed.

(** What [strncpy] leaves in a buffer one byte longer than the copy. *)
Lemma cstr_strncpy n b s : string_ok s -> terminated (Z.of_nat (S n)) b -> cstr (strncpy_at b s n) = take n s.
Proof.
  intros Hs (r & Hr & ->)%terminated_split. unfold strncpy_at.
  set (k := take n s ++ replicate (n - length s) 0).
  assert (length k = n) as Hk by (unfold k; rewrite length_app, length_take, length_replicate; lia).
  change (r ++ [0]) with ([] ++ r ++ [0]). rewrite (put_at [] r [0] k 0) by (done || lia). cbn [app].
  assert (string_ok (take n s)) as Ht by by apply Forall_take. unfold k. rewrite <-(assoc_L (++)).
  destruct (n - length s)%nat; by apply cstr_string.
Qed.

Lemma getenv_map env key : shell_getenv env key = default [] (env_map env !! key).
Proof.
  unfold shell_getenv. induction env as [|e env IH]; [done|]. cbn [getenv_loop env_map foldr].
  case_bool_decide as E; [by rewrite <-E, lookup_insert_eq|]. by rewrite lookup_insert_ne.
Qed.

Lemma setenv_loop_map key value env : env_ok env -> string_ok value ->
  match setenv_loop env key value with
  | Some env' => env_map env' = <[key := take 95 value]> (env_map env) /\ is_Some (env_map env !! key)
  | None => env_map env !! key = None
  end.
Proof.
  intros [He _] Hv. induction He as [|e env [Hk Hval] He IH]; [done|]. cbn [setenv_loop env_map foldr].
  case_bool_decide as E.
  - cbn [env_map foldr ev_key ev_value]. rewrite E, (cstr_strncpy 95) by done.
    rewrite insert_insert_eq, lookup_insert_eq. eauto.
  - destruct (setenv_loop env key value) as [env'|]; cbn [fmap option_fmap option_map env_map foldr].
    + destruct IH as [IH Hi]. fold (env_map env'). rewrite IH, insert_insert_ne, lookup_insert_ne by done. done.
    + by rewrite lookup_insert_ne.
Qed.

Lemma env_map_snoc env e : env_map env !! cstr (ev_key e) = None ->
  env_map (env ++ [e]) = <[cstr (ev_key e) := cstr (ev_value e)]> (env_map env).
Proof.
  induction env as [|e' env IH]; [done|]. cbn [app env_map foldr]. fold (env_map env) (env_map (env ++ [e])). intros Hn.
  apply lookup_insert_None in Hn as [Hn Hne]. by rewrite IH, (insert_insert_ne _ _ _ _ _ Hne).
Qed.

(** There is an entry for the key, or room for one. *)
Definition env_room (env : list env_var) (key : list Z) : bool :=
  bool_decide (is_Some (env_map env !! key)) || (length env <? ENV_MAX)%nat.

Lemma setenv_map env key value : env_ok env -> key_ok key -> string_ok value ->
  let r := shell_setenv env key value in
  if env_room env key then r.1 = 0 /\ env_map r.2 = <[key := take 95 value]> (env_map env) else r = (-1, env).
Proof.
  intros He (Hne & Heq & Hs & Hl) Hv. cbv zeta. unfold shell_setenv, env_room.
  rewrite (bool_decide_eq_false_2 _ Hne), (bool_decide_eq_false_2 _ Heq). cbn [orb]. pose proof (setenv_loop_map key value env He Hv) as Hm.
  destruct (setenv_loop env key value) as [env'|].
  - destruct Hm as [Hm Hi]. by rewrite bool_decide_eq_true_2.
  - rewrite bool_decide_eq_false_2 by (rewrite Hm; by intros []). cbn [orb].
    destruct (Nat.leb_spec ENV_MAX (length env)), (Nat.ltb_spec (length env) ENV_MAX); try lia; [done|]. split; [done|].
    assert (cstr (ev_key (env_slot key value)) = key) as Ek.
    { cbn [env_slot ev_key]. rewrite (cstr_strncpy 31), take_ge by (done || lia || by apply zeros_terminated). done. }
    rewrite <-Ek in Hm. cbn [snd]. rewrite env_map_snoc by done. rewrite Ek. f_equal.
    cbn [env_slot ev_value]. apply (cstr_strncpy 95); [done|by apply zeros_terminated].
Qed.

(** A key longer than 31 characters is stored cut, so it is not found again: the
    next assignment adds another entry. *)
Example long_key_twice : let key := replicate 32 65 in
  let env := (shell_setenv (shell_setenv [] key (lit "1")).2 key (lit "2")).2 in
  length env = 2%nat /\ shell_getenv env key = [] /\ shell_getenv env (take 31 key) = lit "1".
Proof. vm_compute. done. Qed.

Section Commands.
Context {D : Type} `{Kernel D, Console D, Host D}.
Context (entry_call : Z -> state (vfs D) Z).

Lemma find_equals key value : (ch "=") ∉ key -> list_find (eq (ch "=")) (key ++ ch "=" :: value) = Some (length key, ch "=").
Proof.
  intros Hk. apply list_find_Some. split_and!; [by rewrite list_lookup_middle|done|].
  intros j c Hj Hlt <-. rewrite lookup_app_l in Hj by done. apply Hk. by eapply list_elem_of_lookup_2.
Qed.

(** C29: The shell's variables are a finite map: [export KEY=VALUE] with a key of
    at most 31 characters, run through the command dispatch, binds the key in the
    map of the environment, replacing an older value, and changes nothing else of the
    shell or the system; it fails, changing nothing, exactly when the key is new and 32
    variables are set.  What [shell_getenv] returns, and so what [echo] expands,
    is the map's value, and the empty text for other names. *)
Theorem export_binds m i k key value :
  env_ok (sh_env m) -> key_ok key -> string_ok value -> (length key + length value < 94)%nat ->
  let room := env_room (sh_env m) key in
  exists env', run_command entry_call [lit "export"; key ++ ch "=" :: value] i (mk_sh m k) =
    (Some (if room then 0 else -1), mk_sh (set_env env' m) k) /\
  env_map env' = (if room then <[key := value]> (env_map (sh_env m)) else env_map (sh_env m)) /\
  forall name, shell_getenv env' name = default [] (env_map env' !! name).
Proof.
  intros He Hk Hv Hl room. pose proof (setenv_map (sh_env m) key value He Hk Hv) as Hs. cbv zeta in Hs. fold room in Hs.
  destruct (shell_setenv (sh_env m) key value) as [r env'] eqn:E. exists env'.
  assert (run_command entry_call [lit "export"; key ++ ch "=" :: value] i (mk_sh m k) = (Some r, mk_sh (set_env env' m) k)) as ->.
  { unfold run_command. replace (shell_find_builtin (lit "export"))
      with (Some (mk_builtin (lit "export") (lit "set environment variable") cmd_export_fn)) by (vm_compute; reflexivity).
    cbn [b_fn run_builtin]. unfold cmd_export, require_args. change (argn [lit "export"; key ++ ch "=" :: value] 1) with (key ++ ch "=" :: value).
    change (length [lit "export"; key ++ ch "=" :: value] <? 2)%nat with false. cbv iota.
    rewrite (proj2 (Nat.leb_gt 95 (length (key ++ ch "=" :: value)))) by (rewrite length_app; cbn; lia).
    rewrite bind_unfold. cbn [mret state_ret fst snd]. rewrite take_ge by (rewrite length_app; cbn; lia).
    rewrite find_equals by apply Hk. rewrite take_app_length.
    rewrite drop_app_ge by lia. replace (S (length key) - length key)%nat with 1%nat by lia. cbn [drop].
    unfold mget. rewrite bind_unfold. cbn [gets fst snd sh_mem]. rewrite drop_0, E. done. }
  assert (take 95 value = value) as Et by (apply take_ge; lia). rewrite Et in Hs.
  split_and!; [|..|apply getenv_map]; destruct room; cbn in Hs; [by destruct Hs as [-> _]|by injection Hs as -> _|apply Hs|by injection Hs as _ ->].
Qed.

(** What [date] hands to the formatter, which knows no width. *)
Definition date_line : list Z := lit "20%02u-%02u-%02u %02u:%02u:%02u UTC" ++ line_feed.

Lemma date_formats args : snprintf (Some (zeros 512)) 512 date_line args =
  Some (Some (strncpy_at (zeros 512) date_line 511), Z.of_nat (length date_line)).
Proof. vm_compute. reflexivity. Qed.

(** [date] does not show the date.  Whatever the clock holds, the command
    prints its format as it is written in the source, because the formatter of
    printf.c copies the width directives it does not know. *)
Theorem date_prints_format : text_command entry_call [lit "date"] (fun _ _ _ => date_line).
Proof.
  intros m b i t k Hr t' Hf. unfold run_command. replace (shell_find_builtin (lit "date"))
    with (Some (mk_builtin (lit "date") (lit "show CMOS date/time") cmd_date_fn)) by (vm_compute; reflexivity).
  cbn [b_fn run_builtin]. unfold cmd_date, sys. rewrite bind_unfold. cbn [gets fst snd sh_sys sh_mem].
  fold date_line. unfold shell_out_printf. rewrite date_formats, (cstr_strncpy 511).
  - rewrite take_ge by (vm_compute; lia). rewrite bind_unfold. unfold shell_out_puts. by rewrite (write_text b [] date_line).
  - repeat (apply Forall_cons; split; [vm_compute; discriminate|]). constructor.
  - by apply zeros_terminated.
Qed.
End Commands.

(** ** The mode column *)

Definition read_bit (c bit : Z) : Z := if c =? ch "-" then 0 else bit.
Definition read_type (c : Z) : option Z :=
  if c =? ch "d" then Some S_IFDIR else if c =? ch "l" then Some S_IFLNK else if c =? ch "c" then Some S_IFCHR
  else if c =? ch "b" then Some S_IFBLK else if c =? ch "p" then Some S_IFIFO else if c =? ch "s" then Some S_IFSOCK
  else if c =? ch "-" then Some S_IFREG else None.
Definition read_mode (s : list Z) : option Z :=
  t ← read_type (byte_at s 0);
  Some (t + read_bit (byte_at s 1) 0x100 + read_bit (byte_at s 2) 0x80 + read_bit (byte_at s 3) 0x40 +
    read_bit (byte_at s 4) 0x20 + read_bit (byte_at s 5) 0x10 + read_bit (byte_at s 6) 8 +
    read_bit (byte_at s 7) 4 + read_bit (byte_at s 8) 2 + read_bit (byte_at s 9) 1).

Definition known_type (mode : Z) : bool :=
  existsb (Z.eqb (Z.land mode S_IFMT)) [S_IFDIR; S_IFLNK; S_IFCHR; S_IFBLK; S_IFIFO; S_IFSOCK; S_IFREG].

Definition mode_reads (m : Z) : bool :=
  negb (known_type m) || match read_mode (mode_to_string m) with Some m' => m' =? Z.land m 0xF1FF | None => false end.

Lemma all_modes : forallb (fun hi => forallb (fun lo => mode_reads (256 * hi + lo)) (seqZ 0 256)) (seqZ 0 256) = true.
Proof. vm_compute. reflexivity. Qed.

(** The ten characters [ls -l] and [stat] show for a mode determine its type and
    its nine permission bits. *)
Theorem mode_string_roundtrip mode : is_u16 mode -> known_type mode = true ->
  read_mode (mode_to_string mode) = Some (Z.land mode 0xF1FF).
Proof.
  unfold is_u16. intros Hm Hk. assert (mode_reads mode = true) as Hr.
  { rewrite (Z.div_mod mode 256) by lia. pose proof (Z.mod_pos_bound mode 256). pose proof all_modes as Ha.
    rewrite forallb_forall in Ha. specialize (Ha (mode / 256)). rewrite forallb_forall in Ha.
    apply Ha; apply list_elem_of_In, elem_of_seqZ; [|lia]. split; [apply Z.div_pos|apply Z.div_lt_upper_bound]; lia. }
  unfold mode_reads in Hr. rewrite Hk in Hr. cbn [negb orb] in Hr. destruct (read_mode _); [|done]. by apply Z.eqb_eq in Hr as ->.
Qed.

Lemma mode_string_roundtrip_witness : read_mode (mode_to_string 0x41ED) = Some 0x41ED.
Proof. apply (mode_string_roundtrip 0x41ED); [unfold is_u16; lia|reflexivity]. Defined.
