(* ===== verification/ShellExt2.v ===== *)
(** * The shell on an EXT2 volume

    The concrete kernel of KernelState.v with the EXT2 driver mounted at "/" below
    the shell: both drivers pass the context of [readdir] through, so the typing
    of ShellOk.v holds of every session, and the pipelines of ShellText.v write
    the files of the volume. *)

From Stdlib Require Import Ascii.
From stdpp Require Import strings.
From S2P Require Import Prelude Heap Time Machine Platform Pmm Vmm VfsTypes CLib Printf Vfs VfsPaths VfsResolve.
From S2P Require Import Keyboard Vga Task Syscall SyscallFd SyscallFiles ShellParser ShellLine KernelState Elf Fat16.
From S2P Require Import Ext2Layout Ext2Block Ext2Super Ext2Inode Ext2Alloc Ext2Inodes.
From S2P Require Import Ext2File Ext2Dir Ext2Dents Ext2Write Ext2Files Ext2Store Ext2Dirs Ext2Contents Ext2Demo VfsExt2 SyscallExt2.
From S2P Require Import Editor EditorText EditorLogic EditorFile EditorStore EditorExt2 VfsMounts.
From S2P Require Import ShellState ShellBuiltins ShellExec ShellOk ShellText ShellProps.

(** ** The context of [readdir] *)

Lemma run_skip {S A B} (m : state S A) (f : A -> state S B) s Q : (forall a s', run (f a) s' Q) -> run (mbind f m) s Q.
Proof. intros Hf. apply run_bind. unfold run at 1. apply Hf. Qed.

Section Ext2.
Context {W : Type} `{Machine W} {U : Type} (I : U -> Prop).
Context (cb : vfs_dirent -> U -> state (ext2 W) (Z * U)) (Hcb : forall e u d, I u -> I (cb e u d).1.2).

Lemma dir_loop_context fuel bs buf : forall off u d, I u -> run (Ext2Dir.readdir_loop cb fuel bs buf off u) d (fun r _ => I r.2).
Proof.
  induction fuel as [|fuel IH]; intros off u d Hu; cbn [Ext2Dir.readdir_loop]; [by apply run_ret|].
  case_match; [by apply run_ret|]. case_match; [by apply run_ret|]. apply run_bind.
  eapply (run_mono _ _ (fun r _ => I r.2)).
  - case_match; [|by apply run_ret]. apply run_skip. intros e d1. by apply Hcb.
  - intros [r u1] d1 Hu1. case_match; [by apply run_ret|]. by apply IH.
Qed.

Lemma dir_block_context blk c d : I c.1 -> run (readdir_block cb blk c) d (fun r _ => I r.2.1).
Proof.
  intros Hc. unfold readdir_block. case_match; [by apply run_ret|]. apply run_skip. intros fs d1. apply run_skip. intros [buf|] d2; [|by apply run_ret].
  apply run_bind. eapply run_mono; [by apply dir_loop_context|]. intros [r u] d3 Hu. by apply run_ret.
Qed.

Lemma iter_ptrs_context bs ptrs : forall rem c d, I c.1 -> run (iter_ptrs (readdir_block cb) bs ptrs rem c) d (fun r _ => I r.2.1).
Proof.
  induction ptrs as [|blk ptrs IH]; intros rem c d Hc; cbn [iter_ptrs]; [by apply run_ret|]. case_match; [by apply run_ret|].
  apply run_bind. eapply run_mono; [by apply dir_block_context|]. intros [r c1] d1 Hc1. case_match; [by apply run_ret|]. by apply IH.
Qed.

Lemma ext2_readdir_context path u d : I u -> run (ext2_readdir path cb u) d (fun r _ => I r.2).
Proof.
  intros Hu. unfold ext2_readdir. apply run_skip. intros fs d1. case_match; [by apply run_ret|]. apply run_skip.
  intros [ino|] d2; [|by apply run_ret]. unfold ext2_readdir_ino. apply run_skip. intros [inode|] d3; [|by apply run_ret].
  case_match; [by apply run_ret|]. apply run_bind. eapply (run_mono _ _ (fun r _ => I r.2.1)); [|by intros [r [u1 stopped]] d4 Hu1; apply run_ret].
  unfold ext2_iter_blocks. apply run_skip. intros fs1 d4. apply run_bind. eapply run_mono; [by apply iter_ptrs_context|].
  intros [[r rem] c] d5 Hc. case_match; [by apply run_ret|]. case_match; [by apply run_ret|]. apply run_skip.
  intros [ind|] d6; [|by apply run_ret]. apply run_bind. eapply run_mono; [by apply iter_ptrs_context|].
  intros [[r2 rem2] c2] d7 Hc2. by apply run_ret.
Qed.
End Ext2.

Lemma ext2_keeps_context {W} `{Machine W} : keeps_context (ext2_vfs_ops (W := W)).
Proof. intros readdir E U I path cb u d Hcb Hu. injection E as <-. by apply (ext2_readdir_context I cb Hcb). Qed.

Section Fat.
Context {W : Type} `{Machine W}.

Lemma fat16_keeps_context junk : keeps_context (fat16_vfs_ops (W := W) junk).
Proof.
  intros readdir E U I path cb u d Hcb Hu. injection E as <-.
  enough (run (fat16_readdir path cb u) d (fun r _ => I r.2)) by done. unfold fat16_readdir.
  apply run_skip. intros [found|] d1; [|by apply run_ret]. case_match; [by apply run_ret|]. apply run_skip. intros fs d2.
  apply run_bind. eapply (run_mono _ _ (fun u _ => I u)); [|by intros u1 d3 Hu1; apply run_ret].
  generalize (dir_max fs (entry_first_cluster (fd_entry found))). intros n. generalize 0. revert u d2 Hu.
  induction n as [|n IH]; intros u d2 Hu i; cbn [Fat16.readdir_loop]; [by apply run_ret|]. apply run_skip.
  intros [entry|] d3; [|by apply run_ret]. case_match; [by apply run_ret|]. case_match; [by apply IH|].
  apply run_bind. eapply (run_mono _ _ (fun r _ => I r.2)); [by apply Hcb|]. intros [stop u1] d4 Hu1.
  case_match; [by apply run_ret|]. by apply IH.
Qed.
End Fat.

(** ** Sessions on the volume of Ext2Demo.v *)

#[global] Instance ext2_host : Host K := {
  h_cmos e := pl_cmos (kn_pl (e_w e));
  h_frames _ := demo_pmm;
  h_heap e := pl_heap (kn_pl (e_w e));
  h_main_task _ := 0x500;
  h_fat_total := mret 0;
  h_fat_free := mret 0;
}.

(** Programs that return at once. *)
Definition idle : Z -> state (vfs K) Z := fun _ => mret 0.

Lemma prog_mounts_ok : mounts_ok (mount_table prog_vfs).
Proof. constructor; [apply ext2_keeps_context|constructor]. Qed.

(** The shell with the keys of a line typed. *)
Definition typed_keys (line : list Z) : sh K :=
  let s := (shell_welcome (mk_sh mem_init prog_vfs)).2 in
  mk_sh (sh_mem s) (mk_vfs (mount_table (sh_sys s)) (last_error (sh_sys s)) (k_set_keys (line ++ [KEY_ENTER]) (v_drv (sh_sys s)))).

Lemma turn_reach line : (shell_turn idle (typed_keys line)).1 = Some 0 ->
  shell_reach idle prog_vfs (shell_turn idle (typed_keys line)).2.
Proof.
  intros E. apply (reach_turn _ _ (typed_keys line) 0); [apply reach_keys, reach_start|].
  rewrite <- E. apply surjective_pairing.
Qed.

Lemma shell_reach_typed_witness :
  mem_ok (sh_mem (shell_turn idle (typed_keys (lit "export A=b"))).2).
Proof.
  apply (shell_reach_typed idle (fun a k => eq_refl) prog_vfs).
  - exact prog_mounts_ok.
  - apply turn_reach. vm_compute. reflexivity.
Defined.

Lemma export_binds_witness :
  exists env', run_command idle [lit "export"; lit "A" ++ ch "=" :: lit "xyz"] NoInput (mk_sh mem_init prog_vfs) =
    (Some (if env_room (sh_env mem_init) (lit "A") then 0 else -1), mk_sh (set_env env' mem_init) prog_vfs) /\
  env_map env' = (if env_room (sh_env mem_init) (lit "A") then <[lit "A" := lit "xyz"]> (env_map (sh_env mem_init))
                  else env_map (sh_env mem_init)) /\
  forall name, shell_getenv env' name = default [] (env_map env' !! name).
Proof.
  apply (export_binds idle mem_init NoInput prog_vfs (lit "A") (lit "xyz")).
  - split; [exact (mo_env _ mem_init_ok)|vm_compute; lia].
  - split_and!; [discriminate|refine (bool_decide_unpack _ _); vm_compute; exact I|repeat constructor; discriminate|vm_compute; lia].
  - repeat constructor; discriminate.
  - vm_compute. lia.
Defined.

(** [echo hi there | cat > f] *)
Definition demo_line : list shell_command :=
  [mk_command [lit "echo"; lit "hi"; lit "there"] [] [] false; mk_command [lit "cat"] [] (lit "f") false].

Lemma pipeline_to_file_witness :
  run (shell_execute_line idle (show_pipeline demo_line)) (mk_sh mem_init prog_vfs) (fun r s' =>
    sh_undef (sh_mem s') = false /\
    ((r = Some 0 /\ edits_file ata1 demo_tree [lit "f"] 12 1 1 MAX_FILE (lit "hi there" ++ [10]) (sh_sys s')) \/
     (r = Some (-1) /\ (edits_file ata1 demo_tree [lit "f"] 12 1 1 MAX_FILE demo_data (sh_sys s') \/
                        edits_file ata1 demo_tree [lit "f"] 12 1 1 MAX_FILE [] (sh_sys s'))))).
Proof.
  apply (pipeline_to_file idle (lit "/f") MAX_FILE (edits_file ata1 demo_tree [lit "f"] 12 1 1 MAX_FILE) demo_data demo_line
    [echo_text [lit "hi"; lit "there"]; cat_text] mem_init prog_vfs).
  - by apply (file_is_edit_store ata1 demo_tree [lit "f"]).
  - vm_compute. congruence.
  - apply demo_edits.
  - discriminate.
  - vm_compute. lia.
  - refine (bool_decide_unpack _ _). vm_compute. exact I.
  - constructor; [split; [apply echo_is_text|reflexivity]|]. constructor; [split; [apply cat_is_text|reflexivity]|constructor].
  - cbn [stages_fit]. split_and!; try done; refine (bool_decide_unpack _ _); vm_compute; exact I.
  - refine (bool_decide_unpack _ _). vm_compute. exact I.
  - discriminate.
  - reflexivity.
  - vm_compute. reflexivity.
Defined.

(** The file after the line; a variable; and a quoted bar, which the parser takes
    for a pipe into a command that does not exist. *)
Example demo_shell :
  let m : state (sh K) (list (option Z) * list (list Z)) :=
    a ← shell_execute_line idle (lit "echo hi there | cat > f");
    b ← shell_execute_line idle (lit "cat f | cat | cat");
    out1 ← mget (fun m => cstr (stage_a m));
    c ← shell_execute_line idle (lit "export A=xyz");
    d ← shell_execute_line idle (lit "echo $A '|' b");
    out2 ← mget (fun m => cstr (stage_b m));
    mret ([a; b; c; d], [out1; out2]) in
  let '(r, s) := m (mk_sh mem_init prog_vfs) in
  (r, sh_undef (sh_mem s)) =
  ([Some 0; Some 0; Some 0; Some (-1)], [lit "hi there" ++ [10]; lit "b: command not found" ++ [10]], false).
Proof. by vm_compute. Qed.
